(* ===== verification/_CoqProject ===== *)
-Q . S2P
Prelude.v
ZnsTypes.v
ZnsOps.v
ZnsExample.v
ZnsInv.v
ZnsHandlers.v
ZnsBulk.v
ZnsSend.v
ZnsWrite.v
ZnsRead.v
ZnsReport.v
ZnsInit.v
ZnsShutdown.v
ZnsTheorems.v
ZnsRuns.v
FtlList.v
FtlTypes.v
FtlMap.v
FtlOps.v
FtlStatic.v
FtlAlloc.v
FtlMapInv.v
FtlOpen.v
FtlAddr.v
FtlTxn.v
FtlServe.v
FtlIssue.v
FtlRw.v
FtlDistribute.v
FtlRun.v
FtlTrad.v
FtlTheorems.v
FtlRuns.v
ZenCoding.v
CrcTables.v
CrcOps.v
CrcAlgebra.v
CrcSpec.v
CrcThreeWay.v
CrcCombine.v
ZenTypes.v
WalOps.v
FileOps.v
WalWrite.v
WalRead.v
WalLog.v
FileSpec.v
FileDirect.v
ZenZbd.v
ZenFile.v
ZenLog.v
ZenFs.v
ZenMeta.v
ZenIo.v
ZenWriter.v
ZenOps.v
ZenMount.v
ZenFileCodec.v
ZenLogSpec.v
ZenSpace.v
ZenRecover.v
ZenReplay.v
ZenAlloc.v
ZenOpen.v
ZenRead.v
ZenSparse.v
ZenAppend.v
ZenPersist.v
ZenMountSpec.v
ZenFormat.v
ZenRoll.v
ZenRemount.v
ZenMountWrite.v
ZenMigrate.v
WalTheorems.v
WalRuns.v
FileTheorems.v
ZenTheorems.v
ZenRuns.v
ZenMountRuns.v
