(* ===== verification/Prelude.v ===== *)
(** * A verification development for the ZNS device model and ZenFS

    The repository holds the two ends of a zoned-storage stack.  [src/zns/] is a device
    model: the ZNS controller of the FEMU emulator, and under it a flash layer that maps
    zones to the dies of a flash array and times their transactions.  [src/zenfs-2.0.0/]
    is a file system for such devices, a plugin of RocksDB, whose release is beside it in
    [src/rocksdb-8.11.4/].  The development models the controller, the flash layer, ZenFS,
    and the part of RocksDB through which the database writes its log: byte encodings,
    checksums, the write-ahead log, and the writers and readers of files.

    ** How the code is modelled

    A function of the code is a definition of the same name, and so is a constant.  Code with state runs in the
    monad [ST S A] of this file: [Done x s] is a result and a new state, [Crash] is a
    failed [assert], an access outside an array, a null or dangling pointer, or a loop that
    runs out of its fuel.  [wp c Q s] says that [c] started in [s] does not crash and ends
    with [Q]; all specifications are of this form, so each includes termination and the
    absence of failed assertions.  Integers are [Z], and wrap where the code computes with a
    width ([u32], [u64]).  Pointers are indices of the array, or keys of the store, that
    they point into.

    Code outside the repository is an interface: a class of operations, with a second class
    of the laws that are relied on.  These are QEMU's tail queues ([TailQ]) and the FEMU
    services ([Femu]) for the controller; the allocator ([Malloc]) and the bit fields of
    flash addresses ([PpaBits]) for the flash layer; the zoned block device ([ZbdDev],
    [ZbdDevOk], [ZbdZonesOk]: a read or write may be short, what was written is read), and
    the auxiliary file system ([AuxFs]) for ZenFS; the compression library
    ([StreamingCompression]) for the log; and the files of the operating system
    ([FSWritableFile], [FSSequentialFile]).  Between components there are interfaces too:
    ZenFS and the log use a checksum ([Crc32c], [CrcCombine]) whose laws the model of
    [crc32c.cc] satisfies, and the log uses files ([LogDest], [LogSource]) whose laws the
    file writers and readers satisfy.  The files named [...Runs] (with [ZnsExample] and the
    end of [FileTheorems]) instantiate the interfaces and evaluate the properties at
    concrete states.
    One thread runs at a time: locks are not modelled, and waiting for another thread is
    a crash.

    ** The ZNS controller: [src/zns/zns.c], [zns.h]

    - [ZnsTypes]: the structures of [zns.h], the controller [FemuCtrl], the inline functions.
    - [ZnsOps]: every function of [zns.c] on the I/O path, zone management, reports,
      start-up and shutdown.
    - [ZnsInv]: the invariant (zone lists, open and active counters, geometry).
    - [ZnsHandlers], [ZnsBulk], [ZnsSend], [ZnsWrite], [ZnsRead], [ZnsReport], [ZnsInit],
      [ZnsShutdown]: the specification of each operation.
    - [ZnsTheorems], [ZnsRuns]: the properties, of every state that start-up, commands and
      shutdown lead to (the second part of [ZnsShutdown]).

    No command fails an assertion or leaves an array, from any state that start-up can lead
    to; the limits on open and active zones always hold; zones only take the steps of the
    zone state machine; and each command does to zones, write pointers, host buffer and
    status what it promises, or is refused with the first failing check and no effect.  Two
    properties are about what goes wrong: appends leave their zone, and a write whose buffer
    cannot be mapped makes its zone unwritable.

    ** The flash layer: [src/zns/fairness/], [src/zns/supplement/]

    - [FtlTypes]: the structures; [FtlList]: the linked die queues, refined to FIFO queues
      behind the interface [DieQueue].
    - [FtlMap], [FtlOps]: the dynamic mapping, and the handling of requests and
      transactions, of [fairness.c].  [FtlStatic]: the flash array and the traditional
      mapping of [supplement/].
    - [FtlAlloc], [FtlMapInv], [FtlOpen], [FtlAddr]: the mapping invariant and addresses.
    - [FtlTxn], [FtlServe], [FtlIssue], [FtlRw], [FtlDistribute], [FtlRun]: the
      life of a request, from its distribution to its completion.
    - [FtlTrad], [FtlTheorems], [FtlRuns]: the traditional mapping, and the properties.

    Zones that are mapped never share a flash page; a request becomes transactions that
    cover its pages; along every run each request is completed once, outstanding or one of
    those below a page, which the code drops; and polling completes what is outstanding.
    The mapping properties are for the configuration the sources select, 64 dies in four
    groups, and for commands that open a zone before it is used ([admissible]); a run shows
    what a second reset of a zone does.

    ** ZenFS: [src/zenfs-2.0.0/fs/]

    - [ZenCoding]: RocksDB's byte encodings ([util/coding.h], [coding.cc],
      [coding_lean.h], [crc32c.h]) and their round trips.
    - [ZenTypes]: the state.  A file object is a key of [objs]; [files_] is the map of names.
    - [ZenZbd]: zones, tokens and allocation ([zbd_zenfs.cc]).  [ZenFile], [ZenIo],
      [ZenWriter]: files, their input and output, open files ([io_zenfs.cc]).  [ZenLog],
      [ZenFs], [ZenMeta], [ZenOps], [ZenMount]: the metadata log, superblock and paths,
      metadata records and recovery, the file operations, and formatting, mounting and
      migration ([fs_zenfs.cc]).
    - [ZenFileCodec], [ZenLogSpec], [ZenSpace], [ZenRecover], [ZenReplay], [ZenPersist]:
      metadata on its way to the device and back.
    - [ZenOpen], [ZenAlloc], [ZenRead], [ZenSparse], [ZenAppend]: opening the device,
      allocation, reading, files of write-ahead logs, and writing through the buffer.
    - [ZenMountSpec], [ZenFormat], [ZenRoll], [ZenRemount], [ZenMountWrite], [ZenMigrate]:
      mounting, formatting, rolling the metadata log and reclaiming zones, what a mount
      finds after these, mounting for writing, and moving extents.
    - [ZenTheorems], [ZenRuns], [ZenMountRuns]: the properties.

    Files, superblocks and log records are read back as they were written.  Recovery refines
    an abstract replay, in which the file system is a finite map from file ids to files and
    a record is a function on it ([apply_rec]); updates and deletions log the records that
    replay them.  Allocation keeps the tokens within the limits of the device; the properties
    include two ways in which tokens run out.  What is appended to a file is read back, and a
    write-ahead log that was flushed before a crash is recovered as it was.  A mount gives
    the table that the newest complete log describes; formatting, rolling the log and
    mounting for writing leave a device that mounts with the same table; moving extents
    keeps every file as it was, unless it is sparse, for which a run shows what is lost.

    ** Checksums: [src/rocksdb-8.11.4/util/crc32c.cc]

    - [CrcTables], [CrcOps]: the tables and constants, and the routines of an x86 build.
    - [CrcAlgebra], [CrcSpec], [CrcThreeWay], [CrcCombine]: polynomials over GF(2), the
      bitwise CRC-32C, and that every routine computes it.

    All routines compute CRC-32C, whatever the build and the address of the buffer; checksums
    of parts combine to that of the whole; damage within 32 bits is always detected.

    ** The write-ahead log: [src/rocksdb-8.11.4/db/log_writer.cc], [log_reader.cc]

    - [WalOps]: writer and reader, with recycled logs, compression and timestamp sizes.
    - [WalWrite], [WalRead], [WalLog]: fragments and blocks, one physical record, and logs.
    - [WalTheorems], [WalRuns]: the properties, of logs that are not compressed, and those
      of the checksums.

    Records are read back as they were written, also when the log is followed while it
    grows; a log that was cut anywhere, is damaged in its last record or lies over an older
    log gives the records before that point.

    ** Files: [src/rocksdb-8.11.4/file/], [util/aligned_buffer.h]

    - [FileOps]: [WritableFileWriter], [SequentialFileReader], [AlignedBuffer] and
      [RateLimiter::RequestToken].
    - [FileSpec], [FileDirect]: the writer with buffered and with direct input and output,
      the reader, and both as the files of a log.
    - [FileTheorems]: the properties, and a log on a file.

    After appends and a flush that succeed the file holds what was appended, with direct
    output up to the zeros that closing it cuts off; a log written and read through these
    files is read back.  One property shows that the wait for a rate limiter may never end.

    ** Fuel

    Loops whose recursion is not structural take fuel, and running out is a crash, so a
    [wp] proved of them shows that the fuel is enough.  The loops over bytes get the number
    of bytes left, since each round transfers at least one; the loops over zones and
    records the length of the list or of the log; the search for an FBG, one round over
    the group.  The search of [AllocateIOZone] for a token has no bound in the code; the
    property about it says when one round is enough, and when no number is.  The recursion
    over directories takes its depth as an argument.  The log writer's fuel bounds the
    fragments of a record, the reader's the bytes of the file; the growing of a write
    buffer has 65 rounds, one more than a 64-bit size can double.

    ** Not modelled

    Locks and threads; logging, metrics, JSON output, listeners and statistics, which change
    nothing;
    start-up glue (PCI registration and strings of the controller, the factory functions
    and the command-line tool of ZenFS); the address translation for [PARA_ZNS = 0] and the
    read and write paths under [STATIC_MAP], which are compiled out; libzbd, which wraps
    kernel calls; the checksum routines of POWER and ARM processors; of the log the optional
    XXH3 checksum of a record, the compression library and [FragmentBufferedReader]; of the
    files the checksum generator, read-ahead and random-access readers; and the rest of
    RocksDB, a client of the file system.  Allocations of memory succeed. *)

From Stdlib Require Import ZArith Lia Bool.
From stdpp Require Import base numbers option list list_numbers gmap.

#[global] Open Scope Z_scope.

(** ** Outcomes of C code

    A C function that reads and writes a structure reached through a pointer is a
    function from the structure to an [outcome]: it returns a value and the changed
    structure, or it stops.  [Crash] stands for every way the C code can go wrong:
    a failed [assert], an array access out of bounds, a removal from a list the
    element is not on, a loop that exceeds the bound the model gives it. *)

Inductive outcome (S A : Type) : Type :=
| Done (a : A) (s : S)
| Crash.
Arguments Done {S A} _ _.
Arguments Crash {S A}.

Definition ST (S A : Type) : Type := S → outcome S A.

Definition ret {S A} (a : A) : ST S A := λ s, Done a s.
Definition bind {S A B} (m : ST S A) (k : A → ST S B) : ST S B := λ s,
  match m s with Done a s' => k a s' | Crash => Crash end.

Declare Scope prog_scope.
Delimit Scope prog_scope with prog.
Notation "x <- c1 ;; c2" := (bind c1 (λ x, c2))
  (at level 100, c1 at next level, right associativity) : prog_scope.
Notation "c1 ;; c2" := (bind c1 (λ _, c2)) (at level 100, right associativity) : prog_scope.
#[global] Open Scope prog_scope.

Definition get {S} : ST S S := λ s, Done s s.
Definition put {S} (s : S) : ST S unit := λ _, Done tt s.
Definition gets {S A} (f : S → A) : ST S A := λ s, Done (f s) s.
Definition modify {S} (f : S → S) : ST S unit := λ s, Done tt (f s).
Definition crash {S A} : ST S A := λ _, Crash.
(** The C [assert]. *)
Definition assert {S} (b : bool) : ST S unit := if b then ret tt else crash.
(** A memory access that may be out of bounds. *)
Definition load {S A} (o : option A) : ST S A :=
  match o with Some a => ret a | None => crash end.
Definition when {S} (b : bool) (c : ST S unit) : ST S unit := if b then c else ret tt.

(** ** Total-correctness specifications

    [wp c Q s]: started in [s] the code [c] does not crash, and what it returns and
    the state it leaves satisfy [Q]. *)

Definition wp {S A} (c : ST S A) (Q : A → S → Prop) (s : S) : Prop :=
  match c s with Done a s' => Q a s' | Crash => False end.

Section wp_rules.
Context {S : Type}.
Implicit Types s : S.

Lemma wp_mono {A} (c : ST S A) (Q R : A → S → Prop) s :
  wp c Q s → (∀ a s', Q a s' → R a s') → wp c R s.
Proof. unfold wp. destruct (c s); naive_solver. Qed.

Lemma wp_ret {A} (a : A) (Q : A → S → Prop) s : Q a s → wp (ret a) Q s.
Proof. done. Qed.

Lemma wp_bind {A B} (c : ST S A) (k : A → ST S B) (Q : B → S → Prop) s :
  wp c (λ a, wp (k a) Q) s → wp (bind c k) Q s.
Proof. unfold wp, bind. destruct (c s); done. Qed.

Lemma wp_bind_inv {A B} (c : ST S A) (k : A → ST S B) (Q : B → S → Prop) s :
  wp (bind c k) Q s → wp c (λ a, wp (k a) Q) s.
Proof. unfold wp, bind. destruct (c s); done. Qed.

(** Sequencing with a specification of the first part. *)
Lemma wp_assoc {A B C} (c : ST S A) (k : A → ST S B) (k' : B → ST S C) (Q : C → S → Prop) s :
  wp (bind (bind c k) k') Q s → wp (bind c (λ a, bind (k a) k')) Q s.
Proof. unfold wp, bind. by destruct (c s). Qed.

Lemma wp_seq {A B} (P : A → S → Prop) (c : ST S A) (k : A → ST S B) (Q : B → S → Prop) s :
  wp c P s → (∀ a s', P a s' → wp (k a) Q s') → wp (bind c k) Q s.
Proof. intros Hc Hk. apply wp_bind. eapply wp_mono; eauto. Qed.

Lemma wp_get (Q : S → S → Prop) s : Q s s → wp get Q s.
Proof. done. Qed.

Lemma wp_put (x : S) (Q : unit → S → Prop) s : Q tt x → wp (put x) Q s.
Proof. done. Qed.

Lemma wp_gets {A} (f : S → A) (Q : A → S → Prop) s : Q (f s) s → wp (gets f) Q s.
Proof. done. Qed.

Lemma wp_modify (f : S → S) (Q : unit → S → Prop) s : Q tt (f s) → wp (modify f) Q s.
Proof. done. Qed.

Lemma wp_assert (b : bool) (Q : unit → S → Prop) s : b = true → Q tt s → wp (assert b) Q s.
Proof. by intros ->. Qed.

Lemma wp_load {A} (o : option A) a (Q : A → S → Prop) s : o = Some a → Q a s → wp (load o) Q s.
Proof. by intros ->. Qed.

Lemma wp_when (b : bool) (c : ST S unit) (Q : unit → S → Prop) s :
  (b = true → wp c Q s) → (b = false → Q tt s) → wp (when b c) Q s.
Proof. destruct b; intros H1 H2; [by apply H1|by apply H2]. Qed.

Lemma wp_done {A} (c : ST S A) (Q : A → S → Prop) s :
  wp c Q s ↔ ∃ a s', c s = Done a s' ∧ Q a s'.
Proof.
  unfold wp. destruct (c s) as [a s'|]; split.
  - intros H. by exists a, s'.
  - by intros (? & ? & [= <- <-] & ?).
  - done.
  - by intros (? & ? & [=] & _).
Qed.

Lemma wp_conj {A} (c : ST S A) (Q R : A → S → Prop) s :
  wp c Q s → wp c R s → wp c (λ a s', Q a s' ∧ R a s') s.
Proof. unfold wp. destruct (c s); auto. Qed.
End wp_rules.

(** One step of symbolic execution: the rules for the basic commands. *)
Ltac wp_step :=
  lazymatch goal with
  | |- wp (ret _) _ _ => apply wp_ret
  | |- wp (bind _ _) _ _ => apply wp_bind
  | |- wp get _ _ => apply wp_get
  | |- wp (put _) _ _ => apply wp_put
  | |- wp (gets _) _ _ => apply wp_gets
  | |- wp (modify _) _ _ => apply wp_modify
  | |- wp (assert _) _ _ => apply wp_assert
  | |- wp (when _ _) _ _ => apply wp_when; intros ?
  | |- wp (load _) _ _ => eapply wp_load; [eassumption|]
  end; cbn beta zeta.

(** ** Machine integers *)

Definition u8 (x : Z) : Z := x mod 2 ^ 8.
Definition u16 (x : Z) : Z := x mod 2 ^ 16.
Definition u32 (x : Z) : Z := x mod 2 ^ 32.
Definition u64 (x : Z) : Z := x mod 2 ^ 64.

Definition UINT64_MAX : Z := 2 ^ 64 - 1.

Lemma u32_small x : 0 ≤ x < 2 ^ 32 → u32 x = x.
Proof. apply Z.mod_small. Qed.
Lemma u64_small x : 0 ≤ x < 2 ^ 64 → u64 x = x.
Proof. apply Z.mod_small. Qed.
Lemma u32_range x : 0 ≤ u32 x < 2 ^ 32.
Proof. by apply Z.mod_pos_bound. Qed.
Lemma u64_range x : 0 ≤ u64 x < 2 ^ 64.
Proof. by apply Z.mod_pos_bound. Qed.

(** Little-endian bytes of a [k]-byte integer, and the integer that bytes stand for. *)
Fixpoint le_bytes (k : nat) (x : Z) : list Z :=
  match k with O => [] | S k' => u8 x :: le_bytes k' (Z.shiftr x 8) end.
Fixpoint le_val (l : list Z) : Z :=
  match l with [] => 0 | b :: l' => b + 2 ^ 8 * le_val l' end.

Lemma length_le_bytes k x : length (le_bytes k x) = k.
Proof. revert x. induction k; intros; simpl; auto. Qed.

Lemma le_val_bytes k x : 0 ≤ x < 2 ^ (8 * Z.of_nat k) → le_val (le_bytes k x) = x.
Proof.
  revert x. induction k as [|k IH]; intros x Hx; cbn [le_bytes le_val]; [lia|].
  assert (8 * Z.of_nat (S k) = 8 + 8 * Z.of_nat k) as E by lia. rewrite E, Z.pow_add_r in Hx by lia.
  unfold u8. rewrite Z.shiftr_div_pow2 by lia. rewrite IH.
  - rewrite (Z.div_mod x (2 ^ 8)) at 3 by lia. lia.
  - split; [apply Z.div_pos; lia|]. apply Z.div_lt_upper_bound; lia.
Qed.

Lemma le_val_range l : Forall (λ b, 0 ≤ b < 2 ^ 8) l → 0 ≤ le_val l < 2 ^ (8 * Z.of_nat (length l)).
Proof.
  induction 1 as [|b l Hb _ IH]; cbn [le_val length]; [lia|].
  assert (8 * Z.of_nat (S (length l)) = 8 + 8 * Z.of_nat (length l)) as E by lia.
  rewrite E, Z.pow_add_r by lia. lia.
Qed.

(** Bit tests of the form [x & (1 << k)]. *)
Lemma land_bit_testbit x k : 0 ≤ k → negb (Z.land x (Z.shiftl 1 k) =? 0) = Z.testbit x k.
Proof.
  intros Hk. destruct (Z.testbit x k) eqn:E.
  - apply negb_true_iff, Z.eqb_neq. intros H0.
    assert (Z.testbit (Z.land x (Z.shiftl 1 k)) k = true) as Ht.
    { rewrite Z.land_spec, E, Z.shiftl_spec, Z.sub_diag by lia. done. }
    by rewrite H0, Z.bits_0 in Ht.
  - apply negb_false_iff, Z.eqb_eq. apply Z.bits_inj'. intros i Hi.
    rewrite Z.bits_0, Z.land_spec, Z.shiftl_spec by lia.
    destruct (decide (i = k)) as [->|Hne]; [by rewrite E|].
    destruct (decide (i < k)).
    + rewrite (Z.testbit_neg_r 1) by lia. apply andb_false_r.
    + rewrite (Z.bits_above_log2 1) by (simpl; lia). apply andb_false_r.
Qed.

(** ** Counting the elements of an array that satisfy a test *)

Section count.
Context {A : Type} (f : A → bool).

Fixpoint countb (l : list A) : Z :=
  match l with [] => 0 | x :: l' => (if f x then 1 else 0) + countb l' end.

Lemma countb_nonneg l : 0 ≤ countb l.
Proof. induction l; simpl; [lia|]. destruct (f a); lia. Qed.

Lemma countb_le_length l : countb l ≤ Z.of_nat (length l).
Proof. induction l; simpl; [lia|]. destruct (f a); lia. Qed.

Lemma countb_insert (l : list A) i x y :
  l !! i = Some x →
  countb (<[i:=y]> l) = countb l - (if f x then 1 else 0) + (if f y then 1 else 0).
Proof.
  revert i. induction l as [|a l IH]; intros [|i] Hx; simplify_eq/=; [lia|].
  rewrite (IH _ Hx). lia.
Qed.

Lemma countb_pos l i x : l !! i = Some x → f x = true → 0 < countb l.
Proof.
  revert i. induction l as [|a l IH]; intros [|i] Hx Hf; simplify_eq/=.
  - rewrite Hf. pose proof (countb_nonneg l). lia.
  - specialize (IH _ Hx Hf). destruct (f a); lia.
Qed.

Lemma countb_app l1 l2 : countb (l1 ++ l2) = countb l1 + countb l2.
Proof. induction l1; simpl; lia. Qed.

Lemma countb_zero l : (∀ i x, l !! i = Some x → f x = false) → countb l = 0.
Proof.
  induction l as [|a l IH]; intros H; simpl; [done|].
  rewrite (H 0%nat a) by done. apply IH. intros i x Hx. by apply (H (S i)).
Qed.

Lemma countb_replicate n x : countb (replicate n x) = if f x then Z.of_nat n else 0.
Proof. induction n; simpl; destruct (f x); lia. Qed.
End count.

Lemma countb_ext {A} (f g : A → bool) l : (∀ x, x ∈ l → f x = g x) → countb f l = countb g l.
Proof.
  induction l as [|a l IH]; intros H; simpl; [done|].
  rewrite (H a), IH by set_solver. done.
Qed.

Lemma countb_mono {A} (f g : A → bool) l :
  (∀ x, f x = true → g x = true) → countb f l ≤ countb g l.
Proof.
  intros H. induction l as [|a l IH]; simpl; [lia|].
  specialize (H a). destruct (f a), (g a); naive_solver lia.
Qed.

Lemma countb_mono_strict {A} (f g : A → bool) l i x :
  (∀ x, f x = true → g x = true) → l !! i = Some x → f x = false → g x = true →
  countb f l < countb g l.
Proof.
  intros H. revert i. induction l as [|a l IH]; intros [|i] Hx Hf Hg; simplify_eq/=.
  - pose proof (countb_mono f g l H). rewrite Hf, Hg. lia.
  - specialize (IH _ Hx Hf Hg). specialize (H a). destruct (f a), (g a); naive_solver lia.
Qed.

(** ** Hint databases of the development *)

Create HintDb zns.
#[export] Hint Resolve countb_nonneg : zns.
