(* ===== verification/ZnsTypes.v ===== *)
(** * Data of the ZNS controller: [src/zns/zns.h] and what it uses of the FEMU host

    The structures of [zns.h], the controller state reached through [FemuCtrl *n], and
    the inline functions of the header.  Two parts of the host program are interfaces,
    because their code is not in this repository: QEMU's tail queues ([TailQ]) and the
    FEMU services the controller calls ([Femu]: PRP mapping, DMA, the data backend, the
    bit-counting helpers).  Each has a class of operations and a class of the laws the
    controller relies on. *)

From stdpp Require Import base numbers option sets list list_numbers.
From S2P Require Import Prelude.

(** ** Intrusive tail queues (QEMU's QTAILQ macros)

    Elements are zones, named by their index in [zone_array].  [elems] is the order in
    which the queue is traversed. *)

Class TailQ := {
  queue : Type;
  QTAILQ_INIT : queue;
  QTAILQ_INSERT_HEAD : queue → nat → queue;
  QTAILQ_INSERT_TAIL : queue → nat → queue;
  QTAILQ_REMOVE : queue → nat → queue;
  QTAILQ_FIRST : queue → option nat;
  QTAILQ_NEXT : queue → nat → option nat;
  elems : queue → list nat
}.

(** What the macros guarantee of an element that is on no queue (insertions) and of an
    element of a queue (removal, successor); nothing is promised of other uses. *)
Class TailQOk (T : TailQ) : Prop := {
  elems_init : elems QTAILQ_INIT = [];
  elems_insert_head q i : i ∉ elems q → elems (QTAILQ_INSERT_HEAD q i) = i :: elems q;
  elems_insert_tail q i : i ∉ elems q → elems (QTAILQ_INSERT_TAIL q i) = elems q ++ [i];
  elems_remove q i l1 l2 : NoDup (elems q) → elems q = l1 ++ i :: l2 →
    elems (QTAILQ_REMOVE q i) = l1 ++ l2;
  first_elems q : QTAILQ_FIRST q = head (elems q);
  next_elems q i l1 l2 : NoDup (elems q) → elems q = l1 ++ i :: l2 →
    QTAILQ_NEXT q i = head l2
}.

(** ** Status codes

    The numbers behind these names are in [nvme.h]; the controller only compares them
    with zero and sets the do-not-retry bit.  [NVME_HOST_STATUS] is any other value a
    FEMU service returns. *)

Inductive NvmeCode :=
| NVME_SUCCESS | NVME_INVALID_OPCODE | NVME_INVALID_FIELD | NVME_LBA_RANGE
| NVME_ZONE_BOUNDARY_ERROR | NVME_ZONE_FULL | NVME_ZONE_READ_ONLY | NVME_ZONE_OFFLINE
| NVME_ZONE_INVALID_WRITE | NVME_ZONE_TOO_MANY_ACTIVE | NVME_ZONE_TOO_MANY_OPEN
| NVME_ZONE_INVAL_TRANSITION | NVME_NO_COMPLETE | NVME_HOST_STATUS (v : Z).

#[global] Instance NvmeCode_eq_dec : EqDecision NvmeCode.
Proof. solve_decision. Defined.

Record NvmeStatus := mk_status { st_code : NvmeCode; st_dnr : bool }.

#[global] Instance NvmeStatus_eq_dec : EqDecision NvmeStatus.
Proof. solve_decision. Defined.

Definition status_of (c : NvmeCode) : NvmeStatus := mk_status c false.
(** [status | NVME_DNR] *)
Definition or_dnr (s : NvmeStatus) : NvmeStatus := mk_status (st_code s) true.
Definition SUCCESS : NvmeStatus := status_of NVME_SUCCESS.
(** [if (status)] *)
Definition failed (s : NvmeStatus) : bool := negb (bool_decide (s = SUCCESS)).

(** ** Zone states, attributes and descriptors *)

Inductive NvmeZoneState :=
| NVME_ZONE_STATE_RESERVED
| NVME_ZONE_STATE_EMPTY
| NVME_ZONE_STATE_IMPLICITLY_OPEN
| NVME_ZONE_STATE_EXPLICITLY_OPEN
| NVME_ZONE_STATE_CLOSED
| NVME_ZONE_STATE_READ_ONLY
| NVME_ZONE_STATE_FULL
| NVME_ZONE_STATE_OFFLINE
| NVME_ZONE_STATE_UNLISTED (v : Z).

#[global] Instance NvmeZoneState_eq_dec : EqDecision NvmeZoneState.
Proof. solve_decision. Defined.

Definition state_code (s : NvmeZoneState) : Z :=
  match s with
  | NVME_ZONE_STATE_RESERVED => 0
  | NVME_ZONE_STATE_EMPTY => 1
  | NVME_ZONE_STATE_IMPLICITLY_OPEN => 2
  | NVME_ZONE_STATE_EXPLICITLY_OPEN => 3
  | NVME_ZONE_STATE_CLOSED => 4
  | NVME_ZONE_STATE_READ_ONLY => 13
  | NVME_ZONE_STATE_FULL => 14
  | NVME_ZONE_STATE_OFFLINE => 15
  | NVME_ZONE_STATE_UNLISTED v => v
  end.

(** The enum constant a number stands for. *)
Definition state_of_code (v : Z) : NvmeZoneState :=
  match v with
  | 0 => NVME_ZONE_STATE_RESERVED
  | 1 => NVME_ZONE_STATE_EMPTY
  | 2 => NVME_ZONE_STATE_IMPLICITLY_OPEN
  | 3 => NVME_ZONE_STATE_EXPLICITLY_OPEN
  | 4 => NVME_ZONE_STATE_CLOSED
  | 13 => NVME_ZONE_STATE_READ_ONLY
  | 14 => NVME_ZONE_STATE_FULL
  | 15 => NVME_ZONE_STATE_OFFLINE
  | v => NVME_ZONE_STATE_UNLISTED v
  end.

Definition NVME_ZA_ZD_EXT_VALID : Z := Z.shiftl 1 7.
Definition NVME_ZONE_TYPE_SEQ_WRITE : Z := 2.

Record NvmeZoneDescr := mk_descr {
  zt : Z;     (* zone type *)
  zs : Z;     (* zone state, in the high nibble *)
  za : Z;     (* zone attributes *)
  zcap : Z;
  zslba : Z;
  wp_ : Z     (* the write pointer reported to the host *)
}.

(** [w_ptr] is the write pointer writes are checked against; [entry_used] is what
    QTAILQ_IN_USE reads of the zone's queue entry. *)
Record NvmeZone := mk_zone {
  d : NvmeZoneDescr;
  w_ptr : Z;
  entry_used : bool
}.

(** ** Commands and requests *)

Inductive NvmeOpcode :=
| NVME_CMD_READ | NVME_CMD_WRITE | NVME_CMD_ZONE_MGMT_SEND | NVME_CMD_ZONE_MGMT_RECV
| NVME_CMD_ZONE_APPEND | NVME_CMD_OTHER (v : Z).

#[global] Instance NvmeOpcode_eq_dec : EqDecision NvmeOpcode.
Proof. solve_decision. Defined.

(** The fields of [NvmeCmd] and of its [NvmeRwCmd] view that the controller reads. *)
Record NvmeCmd := mk_cmd {
  opcode : NvmeOpcode;
  psdt_is_prp : bool;
  prp1 : Z;
  prp2 : Z;
  rw_slba : Z;      (* NvmeRwCmd.slba *)
  rw_nlb : Z;       (* NvmeRwCmd.nlb, zero based, 16 bits *)
  cdw10 : Z;
  cdw11 : Z;
  cdw12 : Z;
  cdw13 : Z
}.

Record NvmeRequest := mk_req {
  cmd : NvmeCmd;
  is_write : bool;
  cqe_slba : Z;     (* NvmeZonedResult.slba *)
  req_status : NvmeStatus;
  opaque : Z
}.

(** ** The FEMU services the controller calls *)

Class Femu := {
  (** guest memory and the data backend *)
  World : Type;
  (** scatter-gather list *)
  QSG : Type;
  nvme_check_mdts : Z → Z → NvmeStatus;
  nvme_map_prp : World → Z → Z → Z → NvmeStatus * QSG;
  backend_rw : World → QSG → Z → bool → World;
  (** host to device: status and the bytes received *)
  dma_write_prp : World → Z → Z → Z → NvmeStatus * list Z;
  (** device to host *)
  dma_read_prp : World → list Z → Z → Z → NvmeStatus * World;
  is_power_of_2 : Z → bool;
  clz64 : Z → Z;
  clz32 : Z → Z
}.

Class FemuOk (F : Femu) : Prop := {
  dma_write_length w sz p1 p2 st bs :
    0 ≤ sz → dma_write_prp w sz p1 p2 = (st, bs) → st = SUCCESS → Z.of_nat (length bs) = sz;
  is_power_of_2_spec x : 0 < x < 2 ^ 64 → is_power_of_2 x = true ↔ x = 2 ^ Z.log2 x;
  clz64_spec x : 0 < x < 2 ^ 64 → clz64 x = 63 - Z.log2 x;
  clz32_spec x : 0 < x < 2 ^ 32 → clz32 x = 31 - Z.log2 x
}.

(** ** Controller state *)

Record NvmeNamespace := mk_ns {
  ns_id : Z;
  ns_size : Z;       (* bytes *)
  ns_lbads : Z;      (* log2 of the LBA size: id_ns.lbaf[flbas].lbads *)
  nsze : Z;
  ncap : Z;
  nuse : Z;
  npdg : Z;
  nsfeat : Z
}.

Record NvmeIdNsZoned := mk_id_ns_zoned {
  mar : Z; mor : Z; zoc : Z; ozcs : Z; lbafe_index : Z; lbafe_zsze : Z; lbafe_zdes : Z
}.

Inductive NvmeCsi := NVME_CSI_NVM | NVME_CSI_ZONED | NVME_CSI_OTHER (v : Z).

(** Parameters of [FemuCtrl] the ZNS mode sets once, at start. *)
Record ZnsParams := mk_params {
  zoned : bool;
  zasl_bs : Z;
  zone_size_bs : Z;
  zone_cap_bs : Z;
  cross_zone_read : bool;
  max_active_zones : Z;
  max_open_zones : Z;
  zd_extension_size : Z;
  zone_size : Z;           (* in LBAs *)
  zone_capacity : Z;       (* in LBAs *)
  num_zones : Z;
  zone_size_log2 : Z;
  page_size : Z;
  mdts : Z;
  zasl : Z;
  csi : NvmeCsi;
  err_rec_dulbe : bool
}.

Section zns_types.
Context {T : TailQ} {F : Femu}.

(** [cur_req] is the request being served, the one the handlers reach through
    [NvmeRequest *req]. *)
Record FemuCtrl := mk_femu {
  params : ZnsParams;
  ns : NvmeNamespace;
  id_ns_zoned : option NvmeIdNsZoned;
  zone_array : list NvmeZone;
  exp_open_zones : queue;
  imp_open_zones : queue;
  closed_zones : queue;
  full_zones : queue;
  nr_open_zones : Z;
  nr_active_zones : Z;
  zd_extensions : list Z;
  world : World;
  cur_req : NvmeRequest
}.

(** Field updates. *)
Definition set_params (p : ZnsParams) (n : FemuCtrl) : FemuCtrl :=
  mk_femu p (ns n) (id_ns_zoned n) (zone_array n) (exp_open_zones n) (imp_open_zones n)
    (closed_zones n) (full_zones n) (nr_open_zones n) (nr_active_zones n)
    (zd_extensions n) (world n) (cur_req n).
Definition set_ns (x : NvmeNamespace) (n : FemuCtrl) : FemuCtrl :=
  mk_femu (params n) x (id_ns_zoned n) (zone_array n) (exp_open_zones n) (imp_open_zones n)
    (closed_zones n) (full_zones n) (nr_open_zones n) (nr_active_zones n)
    (zd_extensions n) (world n) (cur_req n).
Definition set_id_ns_zoned (x : option NvmeIdNsZoned) (n : FemuCtrl) : FemuCtrl :=
  mk_femu (params n) (ns n) x (zone_array n) (exp_open_zones n) (imp_open_zones n)
    (closed_zones n) (full_zones n) (nr_open_zones n) (nr_active_zones n)
    (zd_extensions n) (world n) (cur_req n).
Definition set_zone_array (x : list NvmeZone) (n : FemuCtrl) : FemuCtrl :=
  mk_femu (params n) (ns n) (id_ns_zoned n) x (exp_open_zones n) (imp_open_zones n)
    (closed_zones n) (full_zones n) (nr_open_zones n) (nr_active_zones n)
    (zd_extensions n) (world n) (cur_req n).
Definition set_queues (eo io cl fu : queue) (n : FemuCtrl) : FemuCtrl :=
  mk_femu (params n) (ns n) (id_ns_zoned n) (zone_array n) eo io cl fu
    (nr_open_zones n) (nr_active_zones n) (zd_extensions n) (world n) (cur_req n).
Definition set_nr_open (x : Z) (n : FemuCtrl) : FemuCtrl :=
  mk_femu (params n) (ns n) (id_ns_zoned n) (zone_array n) (exp_open_zones n)
    (imp_open_zones n) (closed_zones n) (full_zones n) x (nr_active_zones n)
    (zd_extensions n) (world n) (cur_req n).
Definition set_nr_active (x : Z) (n : FemuCtrl) : FemuCtrl :=
  mk_femu (params n) (ns n) (id_ns_zoned n) (zone_array n) (exp_open_zones n)
    (imp_open_zones n) (closed_zones n) (full_zones n) (nr_open_zones n) x
    (zd_extensions n) (world n) (cur_req n).
Definition set_zd_extensions (x : list Z) (n : FemuCtrl) : FemuCtrl :=
  mk_femu (params n) (ns n) (id_ns_zoned n) (zone_array n) (exp_open_zones n)
    (imp_open_zones n) (closed_zones n) (full_zones n) (nr_open_zones n)
    (nr_active_zones n) x (world n) (cur_req n).
Definition set_world (x : World) (n : FemuCtrl) : FemuCtrl :=
  mk_femu (params n) (ns n) (id_ns_zoned n) (zone_array n) (exp_open_zones n)
    (imp_open_zones n) (closed_zones n) (full_zones n) (nr_open_zones n)
    (nr_active_zones n) (zd_extensions n) x (cur_req n).
Definition set_cur_req (x : NvmeRequest) (n : FemuCtrl) : FemuCtrl :=
  mk_femu (params n) (ns n) (id_ns_zoned n) (zone_array n) (exp_open_zones n)
    (imp_open_zones n) (closed_zones n) (full_zones n) (nr_open_zones n)
    (nr_active_zones n) (zd_extensions n) (world n) x.
End zns_types.

(** Updates of a zone and of a request. *)
Definition zone_set_zs (x : Z) (z : NvmeZone) : NvmeZone :=
  mk_zone (mk_descr (zt (d z)) x (za (d z)) (zcap (d z)) (zslba (d z)) (wp_ (d z)))
    (w_ptr z) (entry_used z).
Definition zone_set_za (x : Z) (z : NvmeZone) : NvmeZone :=
  mk_zone (mk_descr (zt (d z)) (zs (d z)) x (zcap (d z)) (zslba (d z)) (wp_ (d z)))
    (w_ptr z) (entry_used z).
Definition zone_set_wp (x : Z) (z : NvmeZone) : NvmeZone :=
  mk_zone (mk_descr (zt (d z)) (zs (d z)) (za (d z)) (zcap (d z)) (zslba (d z)) x)
    (w_ptr z) (entry_used z).
Definition zone_set_w_ptr (x : Z) (z : NvmeZone) : NvmeZone := mk_zone (d z) x (entry_used z).
Definition zone_set_entry (x : bool) (z : NvmeZone) : NvmeZone := mk_zone (d z) (w_ptr z) x.

Definition req_set_is_write (b : bool) (r : NvmeRequest) : NvmeRequest :=
  mk_req (cmd r) b (cqe_slba r) (req_status r) (opaque r).
Definition req_set_slba (x : Z) (r : NvmeRequest) : NvmeRequest :=
  mk_req (cmd r) (is_write r) x (req_status r) (opaque r).
Definition req_set_status (x : NvmeStatus) (r : NvmeRequest) : NvmeRequest :=
  mk_req (cmd r) (is_write r) (cqe_slba r) x (opaque r).
Definition req_set_opaque (x : Z) (r : NvmeRequest) : NvmeRequest :=
  mk_req (cmd r) (is_write r) (cqe_slba r) (req_status r) x.

(** ** Inline functions of [zns.h] *)

Definition zns_get_zone_state (zone : NvmeZone) : NvmeZoneState :=
  state_of_code (Z.shiftr (zs (d zone)) 4).

Definition zns_set_zone_state (zone : NvmeZone) (state : NvmeZoneState) : NvmeZone :=
  zone_set_zs (u8 (Z.shiftl (state_code state) 4)) zone.

Definition zns_zone_wr_boundary (zone : NvmeZone) : Z := u64 (zslba (d zone) + zcap (d zone)).

Definition zns_wp_is_valid (zone : NvmeZone) : bool :=
  match zns_get_zone_state zone with
  | NVME_ZONE_STATE_FULL | NVME_ZONE_STATE_READ_ONLY | NVME_ZONE_STATE_OFFLINE => false
  | _ => true
  end.

Section zns_h.
Context {T : TailQ} {F : Femu}.

Definition zns_ns_lbads (n : FemuCtrl) : Z := ns_lbads (ns n).

(** the number of LBAs that the namespace can accomodate *)
Definition zns_ns_nlbas (n : FemuCtrl) : Z := Z.shiftr (ns_size (ns n)) (zns_ns_lbads n).

(** convert an LBA to the equivalent in bytes *)
Definition zns_l2b (n : FemuCtrl) (lba : Z) : Z := u64 (Z.shiftl lba (zns_ns_lbads n)).

Definition zns_zone_rd_boundary (n : FemuCtrl) (zone : NvmeZone) : Z :=
  u64 (zslba (d zone) + zone_size (params n)).

(** The bytes [zd_extensions[zone_idx * size .. (zone_idx + 1) * size - 1]]. *)
Definition zns_get_zd_extension (n : FemuCtrl) (zone_idx : Z) : nat :=
  Z.to_nat (u32 (zone_idx * zd_extension_size (params n))).

Definition zns_aor_inc_open : ST FemuCtrl unit :=
  n <- get;;
  assert (0 <=? nr_open_zones n);;
  when (negb (max_open_zones (params n) =? 0))
    (modify (set_nr_open (nr_open_zones n + 1));;
     assert (nr_open_zones n + 1 <=? max_open_zones (params n))).

Definition zns_aor_dec_open : ST FemuCtrl unit :=
  n <- get;;
  when (negb (max_open_zones (params n) =? 0))
        (assert (0 <? nr_open_zones n);;
         modify (set_nr_open (nr_open_zones n - 1)));;
  n <- get;;
  assert (0 <=? nr_open_zones n).

Definition zns_aor_inc_active : ST FemuCtrl unit :=
  n <- get;;
  assert (0 <=? nr_active_zones n);;
  when (negb (max_active_zones (params n) =? 0))
    (modify (set_nr_active (nr_active_zones n + 1));;
     assert (nr_active_zones n + 1 <=? max_active_zones (params n))).

Definition zns_aor_dec_active : ST FemuCtrl unit :=
  n <- get;;
  when (negb (max_active_zones (params n) =? 0))
        (assert (0 <? nr_active_zones n);;
         modify (set_nr_active (nr_active_zones n - 1));;
         assert (nr_open_zones n <=? nr_active_zones n - 1));;
  n <- get;;
  assert (0 <=? nr_active_zones n).
End zns_h.

(** ** Facts about zone states *)

Definition listed_state (s : NvmeZoneState) : bool :=
  match s with
  | NVME_ZONE_STATE_EXPLICITLY_OPEN | NVME_ZONE_STATE_IMPLICITLY_OPEN
  | NVME_ZONE_STATE_CLOSED | NVME_ZONE_STATE_FULL => true
  | _ => false
  end.
Definition open_state (s : NvmeZoneState) : bool :=
  match s with
  | NVME_ZONE_STATE_EXPLICITLY_OPEN | NVME_ZONE_STATE_IMPLICITLY_OPEN => true
  | _ => false
  end.
Definition active_state (s : NvmeZoneState) : bool :=
  match s with
  | NVME_ZONE_STATE_EXPLICITLY_OPEN | NVME_ZONE_STATE_IMPLICITLY_OPEN
  | NVME_ZONE_STATE_CLOSED => true
  | _ => false
  end.
(** The states a zone can have. *)
Definition zone_state_ok (s : NvmeZoneState) : bool :=
  match s with
  | NVME_ZONE_STATE_RESERVED | NVME_ZONE_STATE_UNLISTED _ => false
  | _ => true
  end.

Lemma get_set_zone_state z s :
  zone_state_ok s = true → zns_get_zone_state (zns_set_zone_state z s) = s.
Proof. by destruct s. Qed.

Lemma open_active_state s : open_state s = true → active_state s = true.
Proof. by destruct s. Qed.

#[export] Hint Resolve open_active_state : zns.
