(* ===== verification/ZnsOps.v ===== *)
(** * The ZNS controller: [src/zns/zns.c]

    One definition per function of the file, in its order.  A zone pointer is the index
    of the zone in [zone_array]; the handlers run in the state monad of [Prelude] over
    [FemuCtrl], where a failed [assert] or an access out of bounds is [Crash]. *)

From stdpp Require Import base numbers option sets list list_numbers.
From S2P Require Import Prelude ZnsTypes.

Definition MiB : Z := 1024 * 1024.
Definition KiB : Z := 1024.
Definition NVME_DEFAULT_ZONE_SIZE : Z := 128 * MiB.
Definition NVME_DEFAULT_MAX_AZ_SIZE : Z := 128 * KiB.

Section zns_c.
Context {T : TailQ} {F : Femu}.
Implicit Types (n : FemuCtrl) (zone : nat).

Definition zns_zone_idx (n : FemuCtrl) (slba : Z) : Z :=
  u32 (if 0 <? zone_size_log2 (params n)
       then Z.shiftr slba (zone_size_log2 (params n))
       else slba / zone_size (params n)).

Definition zns_get_zone_by_slba (slba : Z) : ST FemuCtrl nat :=
  n <- get;;
  let zone_idx := zns_zone_idx n slba in
  assert (zone_idx <? num_zones (params n));;
  ret (Z.to_nat zone_idx).

(** Reading and writing the zone a pointer names. *)
Definition zone_at (zone : nat) : ST FemuCtrl NvmeZone :=
  n <- get;; load (zone_array n !! zone).
Definition zone_update (zone : nat) (f : NvmeZone → NvmeZone) : ST FemuCtrl unit :=
  z <- zone_at zone;;
  modify (λ n, set_zone_array (<[zone := f z]> (zone_array n)) n).

(** *** The zone lists

    Insertion of an element that is on a list, and removal of one that is not on the
    list named, corrupt the queues; both are [Crash]. *)
Inductive zone_list := L_exp_open | L_imp_open | L_closed | L_full.

#[global] Instance zone_list_eq_dec : EqDecision zone_list.
Proof. solve_decision. Defined.

Definition list_of (l : zone_list) (n : FemuCtrl) : queue :=
  match l with
  | L_exp_open => exp_open_zones n
  | L_imp_open => imp_open_zones n
  | L_closed => closed_zones n
  | L_full => full_zones n
  end.

Definition set_list (l : zone_list) (q : queue) (n : FemuCtrl) : FemuCtrl :=
  match l with
  | L_exp_open => set_queues q (imp_open_zones n) (closed_zones n) (full_zones n) n
  | L_imp_open => set_queues (exp_open_zones n) q (closed_zones n) (full_zones n) n
  | L_closed => set_queues (exp_open_zones n) (imp_open_zones n) q (full_zones n) n
  | L_full => set_queues (exp_open_zones n) (imp_open_zones n) (closed_zones n) q n
  end.

Definition insert_tail (l : zone_list) (zone : nat) : ST FemuCtrl unit :=
  z <- zone_at zone;;
  assert (negb (entry_used z));;
  modify (λ n, set_list l (QTAILQ_INSERT_TAIL (list_of l n) zone) n);;
  zone_update zone (zone_set_entry true).

Definition insert_head (l : zone_list) (zone : nat) : ST FemuCtrl unit :=
  z <- zone_at zone;;
  assert (negb (entry_used z));;
  modify (λ n, set_list l (QTAILQ_INSERT_HEAD (list_of l n) zone) n);;
  zone_update zone (zone_set_entry true).

Definition remove (l : zone_list) (zone : nat) : ST FemuCtrl unit :=
  n <- get;;
  assert (bool_decide (zone ∈ elems (list_of l n)));;
  modify (λ n, set_list l (QTAILQ_REMOVE (list_of l n) zone) n);;
  zone_update zone (zone_set_entry false).

(** QTAILQ_FOREACH_SAFE: the successor is read before the body runs; the body's flag
    ends the loop early. *)
Fixpoint foreach_safe {B} (fuel : nat) (l : zone_list)
    (body : nat → B → ST FemuCtrl (B * bool)) (cur : option nat) (b : B) :
    ST FemuCtrl (B * bool) :=
  match cur with
  | None => ret (b, false)
  | Some zone =>
      match fuel with
      | O => crash
      | S fuel' =>
          n <- get;;
          assert (bool_decide (zone ∈ elems (list_of l n)));;
          let next := QTAILQ_NEXT (list_of l n) zone in
          r <- body zone b;;
          if snd r then ret r else foreach_safe fuel' l body next (fst r)
      end
  end.

Definition foreach_zone {B} (l : zone_list) (body : nat → B → ST FemuCtrl (B * bool))
    (b : B) : ST FemuCtrl (B * bool) :=
  n <- get;;
  foreach_safe (length (zone_array n)) l body (QTAILQ_FIRST (list_of l n)) b.

(** ** Start-up *)

Definition params_geometry (zsz zcp nz : Z) (p : ZnsParams) : ZnsParams :=
  mk_params (zoned p) (zasl_bs p) (zone_size_bs p) (zone_cap_bs p) (cross_zone_read p)
    (max_active_zones p) (max_open_zones p) (zd_extension_size p) zsz zcp nz
    (zone_size_log2 p) (page_size p) (mdts p) (zasl p) (csi p) (err_rec_dulbe p).

(** Returns 0, or -1 when the configured geometry is refused. *)
Definition zns_init_zone_geometry : ST FemuCtrl Z :=
  n <- get;;
  let p := params n in
  let lbasz := u32 (Z.shiftl 1 (zns_ns_lbads n)) in
  let zsz := if negb (zone_size_bs p =? 0) then zone_size_bs p else NVME_DEFAULT_ZONE_SIZE in
  let zcp := if negb (zone_cap_bs p =? 0) then zone_cap_bs p else zsz in
  if zsz <? zcp then ret (-1)
  else if zsz <? lbasz then ret (-1)
  else if zcp <? lbasz then ret (-1)
  else
    let zone_size := zsz / lbasz in
    let num_zones := u32 (ns_size (ns n) / lbasz / zone_size) in
    modify (set_params (params_geometry zone_size (zcp / lbasz) num_zones p));;
    if num_zones <? max_open_zones p then ret (-1)
    else if num_zones <? max_active_zones p then ret (-1)
    else if negb (zd_extension_size p =? 0) then
      if negb (Z.land (zd_extension_size p) 63 =? 0) then ret (-1)
      else if 255 <? Z.shiftr (zd_extension_size p) 6 then ret (-1)
      else ret 0
    else ret 0.

(** The loop that fills [zone_array]: [k] zones still to make, from LBA [start]. *)
Fixpoint init_zones (k : nat) (zcp capacity start zone_size : Z) : list NvmeZone :=
  match k with
  | O => []
  | S k' =>
      let zone_size := if capacity <? u64 (start + zone_size) then u64 (capacity - start)
                       else zone_size in
      zns_set_zone_state
        (mk_zone (mk_descr NVME_ZONE_TYPE_SEQ_WRITE 0 0 zcp start start) start false)
        NVME_ZONE_STATE_EMPTY
      :: init_zones k' zcp capacity (u64 (start + zone_size)) zone_size
  end.

Definition params_log2 (x : Z) (p : ZnsParams) : ZnsParams :=
  mk_params (zoned p) (zasl_bs p) (zone_size_bs p) (zone_cap_bs p) (cross_zone_read p)
    (max_active_zones p) (max_open_zones p) (zd_extension_size p) (zone_size p)
    (zone_capacity p) (num_zones p) x (page_size p) (mdts p) (zasl p) (csi p)
    (err_rec_dulbe p).

Definition zns_init_zoned_state : ST FemuCtrl unit :=
  n <- get;;
  let p := params n in
  let capacity := u64 (num_zones p * zone_size p) in
  modify (set_zone_array
                (init_zones (Z.to_nat (num_zones p)) (zone_capacity p) capacity 0 (zone_size p)));;
  when (negb (zd_extension_size p =? 0))
        (modify (set_zd_extensions
                   (replicate (Z.to_nat (u32 (zd_extension_size p * num_zones p))) 0)));;
  modify (set_queues QTAILQ_INIT QTAILQ_INIT QTAILQ_INIT QTAILQ_INIT);;
  modify (λ n, set_params
    (params_log2 (if is_power_of_2 (zone_size p) then 63 - clz64 (zone_size p) else 0) p) n).

Definition params_csi (x : NvmeCsi) (p : ZnsParams) : ZnsParams :=
  mk_params (zoned p) (zasl_bs p) (zone_size_bs p) (zone_cap_bs p) (cross_zone_read p)
    (max_active_zones p) (max_open_zones p) (zd_extension_size p) (zone_size p)
    (zone_capacity p) (num_zones p) (zone_size_log2 p) (page_size p) (mdts p) (zasl p) x
    (err_rec_dulbe p).

Definition zns_init_zone_identify (lba_index : Z) : ST FemuCtrl unit :=
  zns_init_zoned_state;;
  n <- get;;
  let p := params n in
  let id_ns_z := mk_id_ns_zoned
    (u32 (max_active_zones p - 1)) (u32 (max_open_zones p - 1)) 0
    (if cross_zone_read p then 1 else 0) lba_index (zone_size p)
    (u8 (Z.shiftr (zd_extension_size p) 6)) in
  modify (set_params (params_csi NVME_CSI_ZONED p));;
  let total := u64 (num_zones p * zone_size p) in
  let s := ns n in
  let feat := if negb (zone_size p mod (npdg s + 1) =? 0)
              then Z.land (nsfeat s) (Z.lnot 4) else nsfeat s in
  modify (set_ns (mk_ns (ns_id s) (ns_size s) (ns_lbads s) total total total (npdg s) feat));;
  modify (set_id_ns_zoned (Some id_ns_z)).

(** ** Shutdown *)

Definition zns_clear_zone (zone : nat) : ST FemuCtrl unit :=
  zone_update zone (λ z, zone_set_w_ptr (wp_ (d z)) z);;
  z <- zone_at zone;;
  let state := zns_get_zone_state z in
  if negb (wp_ (d z) =? zslba (d z)) || negb (Z.land (za (d z)) NVME_ZA_ZD_EXT_VALID =? 0)
  then
    when (negb (bool_decide (state = NVME_ZONE_STATE_CLOSED)))
          (zone_update zone (λ z, zns_set_zone_state z NVME_ZONE_STATE_CLOSED));;
    zns_aor_inc_active;;
    insert_head L_closed zone
  else zone_update zone (λ z, zns_set_zone_state z NVME_ZONE_STATE_EMPTY).

Definition zns_zoned_ns_shutdown : ST FemuCtrl unit :=
  foreach_zone L_closed (λ zone _,
        remove L_closed zone;;
        zns_aor_dec_active;;
        zns_clear_zone zone;;
        ret (tt, false)) tt;;
  foreach_zone L_imp_open (λ zone _,
        remove L_imp_open zone;;
        zns_aor_dec_open;;
        zns_aor_dec_active;;
        zns_clear_zone zone;;
        ret (tt, false)) tt;;
  foreach_zone L_exp_open (λ zone _,
        remove L_exp_open zone;;
        zns_aor_dec_open;;
        zns_aor_dec_active;;
        zns_clear_zone zone;;
        ret (tt, false)) tt;;
  n <- get;;
  assert (nr_open_zones n =? 0).

Definition zns_ns_shutdown : ST FemuCtrl unit :=
  n <- get;; when (zoned (params n)) zns_zoned_ns_shutdown.

(** ** Zone state changes *)

Definition state_list (s : NvmeZoneState) : option zone_list :=
  match s with
  | NVME_ZONE_STATE_EXPLICITLY_OPEN => Some L_exp_open
  | NVME_ZONE_STATE_IMPLICITLY_OPEN => Some L_imp_open
  | NVME_ZONE_STATE_CLOSED => Some L_closed
  | NVME_ZONE_STATE_FULL => Some L_full
  | _ => None
  end.

Definition zns_assign_zone_state (zone : nat) (state : NvmeZoneState) : ST FemuCtrl unit :=
  z <- zone_at zone;;
  when (entry_used z)
        match zns_get_zone_state z with
        | NVME_ZONE_STATE_EXPLICITLY_OPEN => remove L_exp_open zone
        | NVME_ZONE_STATE_IMPLICITLY_OPEN => remove L_imp_open zone
        | NVME_ZONE_STATE_CLOSED => remove L_closed zone
        | NVME_ZONE_STATE_FULL => remove L_full zone
        | _ => ret tt
        end;;
  zone_update zone (λ z, zns_set_zone_state z state);;
  match state with
  | NVME_ZONE_STATE_EXPLICITLY_OPEN => insert_tail L_exp_open zone
  | NVME_ZONE_STATE_IMPLICITLY_OPEN => insert_tail L_imp_open zone
  | NVME_ZONE_STATE_CLOSED => insert_tail L_closed zone
  | NVME_ZONE_STATE_FULL => insert_tail L_full zone
  | NVME_ZONE_STATE_READ_ONLY => ret tt
  | _ => zone_update zone (zone_set_za 0)
  end.

(** Check if we can open a zone without exceeding open/active limits. *)
Definition zns_aor_check (n : FemuCtrl) (act opn : Z) : NvmeStatus :=
  if negb (max_active_zones (params n) =? 0) &&
     (max_active_zones (params n) <? nr_active_zones n + act)
  then or_dnr (status_of NVME_ZONE_TOO_MANY_ACTIVE)
  else if negb (max_open_zones (params n) =? 0) &&
          (max_open_zones (params n) <? nr_open_zones n + opn)
  then or_dnr (status_of NVME_ZONE_TOO_MANY_OPEN)
  else SUCCESS.

Definition zns_check_zone_state_for_write (z : NvmeZone) : ST FemuCtrl NvmeStatus :=
  match zns_get_zone_state z with
  | NVME_ZONE_STATE_EMPTY | NVME_ZONE_STATE_IMPLICITLY_OPEN
  | NVME_ZONE_STATE_EXPLICITLY_OPEN | NVME_ZONE_STATE_CLOSED => ret SUCCESS
  | NVME_ZONE_STATE_FULL => ret (status_of NVME_ZONE_FULL)
  | NVME_ZONE_STATE_OFFLINE => ret (status_of NVME_ZONE_OFFLINE)
  | NVME_ZONE_STATE_READ_ONLY => ret (status_of NVME_ZONE_READ_ONLY)
  | _ => crash
  end.

Definition zns_check_zone_write (zone : nat) (slba nlb : Z) (append : bool) :
    ST FemuCtrl NvmeStatus :=
  n <- get;;
  z <- zone_at zone;;
  status <- (if zns_zone_wr_boundary z <? u64 (slba + nlb)
            then ret (status_of NVME_ZONE_BOUNDARY_ERROR)
            else zns_check_zone_state_for_write z);;
  if failed status then ret status
  else
    assert (zns_wp_is_valid z);;
    if append then
      let status := if negb (slba =? zslba (d z)) then status_of NVME_INVALID_FIELD else status in
      ret (if Z.shiftl (page_size (params n)) (zasl (params n)) <? zns_l2b n nlb
            then status_of NVME_INVALID_FIELD else status)
    else if negb (slba =? w_ptr z) then ret (status_of NVME_ZONE_INVALID_WRITE)
    else ret status.

Definition zns_check_zone_state_for_read (z : NvmeZone) : ST FemuCtrl NvmeStatus :=
  match zns_get_zone_state z with
  | NVME_ZONE_STATE_EMPTY | NVME_ZONE_STATE_IMPLICITLY_OPEN
  | NVME_ZONE_STATE_EXPLICITLY_OPEN | NVME_ZONE_STATE_FULL
  | NVME_ZONE_STATE_CLOSED | NVME_ZONE_STATE_READ_ONLY => ret SUCCESS
  | NVME_ZONE_STATE_OFFLINE => ret (status_of NVME_ZONE_OFFLINE)
  | _ => crash
  end.

(** The do-while loop over the zones a read crosses into, from [zone]. *)
Fixpoint cross_zone_check (fuel : nat) (zone : nat) (end_ : Z) : ST FemuCtrl NvmeStatus :=
  match fuel with
  | O => crash
  | S fuel' =>
      let zone := S zone in
      n <- get;;
      z <- zone_at zone;;
      status <- zns_check_zone_state_for_read z;;
      if failed status then ret status
      else if zns_zone_rd_boundary n z <? end_ then cross_zone_check fuel' zone end_
      else ret status
  end.

Definition zns_check_zone_read (slba nlb : Z) : ST FemuCtrl NvmeStatus :=
  n <- get;;
  zone <- zns_get_zone_by_slba slba;;
  z <- zone_at zone;;
  let bndry := zns_zone_rd_boundary n z in
  let end_ := u64 (slba + nlb) in
  status <- zns_check_zone_state_for_read z;;
  if failed status then ret status
  else if bndry <? end_ then
    if negb (cross_zone_read (params n)) then ret (status_of NVME_ZONE_BOUNDARY_ERROR)
    else cross_zone_check (length (zone_array n)) zone end_
  else ret status.

Definition zns_auto_transition_zone : ST FemuCtrl unit :=
  n <- get;;
  when (negb (max_open_zones (params n) =? 0) &&
        (nr_open_zones n =? max_open_zones (params n)))
    match QTAILQ_FIRST (imp_open_zones n) with
    | Some zone =>
        remove L_imp_open zone;;
        zns_aor_dec_open;;
        zns_assign_zone_state zone NVME_ZONE_STATE_CLOSED
    | None => ret tt
    end.

Definition zns_auto_open_zone (zone : nat) : ST FemuCtrl NvmeStatus :=
  z <- zone_at zone;;
  match zns_get_zone_state z with
  | NVME_ZONE_STATE_EMPTY =>
      zns_auto_transition_zone;; n <- get;; ret (zns_aor_check n 1 1)
  | NVME_ZONE_STATE_CLOSED =>
      zns_auto_transition_zone;; n <- get;; ret (zns_aor_check n 0 1)
  | _ => ret SUCCESS
  end.

Definition set_cqe_slba (x : Z) : ST FemuCtrl unit :=
  modify (λ n, set_cur_req (req_set_slba x (cur_req n)) n).

Definition zns_finalize_zoned_write (failed_ : bool) : ST FemuCtrl unit :=
  n <- get;;
  let slba := rw_slba (cmd (cur_req n)) in
  let nlb := rw_nlb (cmd (cur_req n)) + 1 in
  zone <- zns_get_zone_by_slba slba;;
  zone_update zone (λ z, zone_set_wp (u64 (wp_ (d z) + nlb)) z);;
  when failed_ (set_cqe_slba 0);;
  z <- zone_at zone;;
  when (wp_ (d z) =? zns_zone_wr_boundary z)
    match zns_get_zone_state z with
    | NVME_ZONE_STATE_IMPLICITLY_OPEN | NVME_ZONE_STATE_EXPLICITLY_OPEN =>
        zns_aor_dec_open;;
        zns_aor_dec_active;;
        zns_assign_zone_state zone NVME_ZONE_STATE_FULL
    | NVME_ZONE_STATE_CLOSED =>
        zns_aor_dec_active;;
        zns_assign_zone_state zone NVME_ZONE_STATE_FULL
    | NVME_ZONE_STATE_EMPTY => zns_assign_zone_state zone NVME_ZONE_STATE_FULL
    | NVME_ZONE_STATE_FULL => ret tt
    | _ => crash
    end.

(** Returns the write pointer before the write. *)
Definition zns_advance_zone_wp (zone : nat) (nlb : Z) : ST FemuCtrl Z :=
  z0 <- zone_at zone;;
  let result := w_ptr z0 in
  zone_update zone (λ z, zone_set_w_ptr (u64 (w_ptr z + nlb)) z);;
  z <- zone_at zone;;
  when (w_ptr z <? zns_zone_wr_boundary z)
        match zns_get_zone_state z with
        | NVME_ZONE_STATE_EMPTY =>
            zns_aor_inc_active;;
            zns_aor_inc_open;;
            zns_assign_zone_state zone NVME_ZONE_STATE_IMPLICITLY_OPEN
        | NVME_ZONE_STATE_CLOSED =>
            zns_aor_inc_open;;
            zns_assign_zone_state zone NVME_ZONE_STATE_IMPLICITLY_OPEN
        | _ => ret tt
        end;;
  ret result.

Definition zns_aio_zone_reset_cb (zone : nat) : ST FemuCtrl unit :=
  let reset :=
    zone_update zone (λ z, zone_set_w_ptr (zslba (d z)) z);;
    zone_update zone (λ z, zone_set_wp (w_ptr z) z);;
    zns_assign_zone_state zone NVME_ZONE_STATE_EMPTY in
  z <- zone_at zone;;
  match zns_get_zone_state z with
  | NVME_ZONE_STATE_EXPLICITLY_OPEN | NVME_ZONE_STATE_IMPLICITLY_OPEN =>
      zns_aor_dec_open;; zns_aor_dec_active;; reset
  | NVME_ZONE_STATE_CLOSED => zns_aor_dec_active;; reset
  | NVME_ZONE_STATE_FULL => reset
  | _ => ret tt
  end.

(** ** Zone management handlers *)

Definition op_handler_t : Type := nat → NvmeZoneState → ST FemuCtrl NvmeStatus.

Definition NVME_PROC_CURRENT_ZONE : Z := 0.
Definition NVME_PROC_OPENED_ZONES : Z := Z.shiftl 1 0.
Definition NVME_PROC_CLOSED_ZONES : Z := Z.shiftl 1 1.
Definition NVME_PROC_READ_ONLY_ZONES : Z := Z.shiftl 1 2.
Definition NVME_PROC_FULL_ZONES : Z := Z.shiftl 1 3.
Definition has_mask (proc_mask m : Z) : bool := negb (Z.land proc_mask m =? 0).

Definition zns_open_zone : op_handler_t := λ zone state,
  let tail_closed :=
    n <- get;;
    let status := zns_aor_check n 0 1 in
    if failed status then
      when (bool_decide (state = NVME_ZONE_STATE_EMPTY)) zns_aor_dec_active;;
      ret status
    else
      zns_aor_inc_open;;
      zns_assign_zone_state zone NVME_ZONE_STATE_EXPLICITLY_OPEN;;
      ret SUCCESS in
  match state with
  | NVME_ZONE_STATE_EMPTY =>
      n <- get;;
      let status := zns_aor_check n 1 0 in
      if failed status then ret status
      else zns_aor_inc_active;; tail_closed
  | NVME_ZONE_STATE_CLOSED => tail_closed
  | NVME_ZONE_STATE_IMPLICITLY_OPEN =>
      zns_assign_zone_state zone NVME_ZONE_STATE_EXPLICITLY_OPEN;; ret SUCCESS
  | NVME_ZONE_STATE_EXPLICITLY_OPEN => ret SUCCESS
  | _ => ret (status_of NVME_ZONE_INVAL_TRANSITION)
  end.

Definition zns_close_zone : op_handler_t := λ zone state,
  match state with
  | NVME_ZONE_STATE_EXPLICITLY_OPEN | NVME_ZONE_STATE_IMPLICITLY_OPEN =>
      zns_aor_dec_open;;
      zns_assign_zone_state zone NVME_ZONE_STATE_CLOSED;;
      ret SUCCESS
  | NVME_ZONE_STATE_CLOSED => ret SUCCESS
  | _ => ret (status_of NVME_ZONE_INVAL_TRANSITION)
  end.

Definition zns_finish_zone : op_handler_t := λ zone state,
  let finish :=
    zone_update zone (λ z, zone_set_w_ptr (zns_zone_wr_boundary z) z);;
    zone_update zone (λ z, zone_set_wp (w_ptr z) z);;
    zns_assign_zone_state zone NVME_ZONE_STATE_FULL;;
    ret SUCCESS in
  match state with
  | NVME_ZONE_STATE_EXPLICITLY_OPEN | NVME_ZONE_STATE_IMPLICITLY_OPEN =>
      zns_aor_dec_open;; zns_aor_dec_active;; finish
  | NVME_ZONE_STATE_CLOSED => zns_aor_dec_active;; finish
  | NVME_ZONE_STATE_EMPTY => finish
  | NVME_ZONE_STATE_FULL => ret SUCCESS
  | _ => ret (status_of NVME_ZONE_INVAL_TRANSITION)
  end.

Definition zns_reset_zone : op_handler_t := λ zone state,
  match state with
  | NVME_ZONE_STATE_EMPTY => ret SUCCESS
  | NVME_ZONE_STATE_EXPLICITLY_OPEN | NVME_ZONE_STATE_IMPLICITLY_OPEN
  | NVME_ZONE_STATE_CLOSED | NVME_ZONE_STATE_FULL =>
      zns_aio_zone_reset_cb zone;; ret SUCCESS
  | _ => ret (status_of NVME_ZONE_INVAL_TRANSITION)
  end.

Definition zns_offline_zone : op_handler_t := λ zone state,
  match state with
  | NVME_ZONE_STATE_READ_ONLY =>
      zns_assign_zone_state zone NVME_ZONE_STATE_OFFLINE;; ret SUCCESS
  | NVME_ZONE_STATE_OFFLINE => ret SUCCESS
  | _ => ret (status_of NVME_ZONE_INVAL_TRANSITION)
  end.

Definition zns_set_zd_ext (zone : nat) : ST FemuCtrl NvmeStatus :=
  z <- zone_at zone;;
  if bool_decide (zns_get_zone_state z = NVME_ZONE_STATE_EMPTY) then
    n <- get;;
    let status := zns_aor_check n 1 0 in
    if failed status then ret status
    else
      zns_aor_inc_active;;
      zone_update zone (λ z, zone_set_za (Z.lor (za (d z)) NVME_ZA_ZD_EXT_VALID) z);;
      zns_assign_zone_state zone NVME_ZONE_STATE_CLOSED;;
      ret SUCCESS
  else ret (status_of NVME_ZONE_INVAL_TRANSITION).

(** The switch of [zns_bulk_proc_zone]. *)
Definition proc_zone (proc_mask : Z) (zs : NvmeZoneState) : bool :=
  match zs with
  | NVME_ZONE_STATE_IMPLICITLY_OPEN | NVME_ZONE_STATE_EXPLICITLY_OPEN =>
      has_mask proc_mask NVME_PROC_OPENED_ZONES
  | NVME_ZONE_STATE_CLOSED => has_mask proc_mask NVME_PROC_CLOSED_ZONES
  | NVME_ZONE_STATE_READ_ONLY => has_mask proc_mask NVME_PROC_READ_ONLY_ZONES
  | NVME_ZONE_STATE_FULL => has_mask proc_mask NVME_PROC_FULL_ZONES
  | _ => false
  end.

Definition zns_bulk_proc_zone (zone : nat) (proc_mask : Z) (op_hndlr : op_handler_t) :
    ST FemuCtrl NvmeStatus :=
  z <- zone_at zone;;
  let zs := zns_get_zone_state z in
  if proc_zone proc_mask zs then op_hndlr zone zs else ret SUCCESS.

(** [status && status != NVME_NO_COMPLETE] *)
Definition stops (status : NvmeStatus) : bool :=
  failed status && negb (bool_decide (status = status_of NVME_NO_COMPLETE)).

Definition bulk_list (l : zone_list) (proc_mask : Z) (op_hndlr : op_handler_t)
    (status : NvmeStatus) : ST FemuCtrl (NvmeStatus * bool) :=
  foreach_zone l (λ zone _,
    status <- zns_bulk_proc_zone zone proc_mask op_hndlr;; ret (status, stops status)) status.

(** The loop over the whole array, [k] zones from [zone] on. *)
Fixpoint bulk_array (k zone : nat) (proc_mask : Z) (op_hndlr : op_handler_t)
    (status : NvmeStatus) : ST FemuCtrl (NvmeStatus * bool) :=
  match k with
  | O => ret (status, false)
  | S k' =>
      status <- zns_bulk_proc_zone zone proc_mask op_hndlr;;
      if stops status then ret (status, true)
      else bulk_array k' (S zone) proc_mask op_hndlr status
  end.

(** [goto out] on the flag. *)
Definition and_then (r : NvmeStatus * bool) (k : NvmeStatus → ST FemuCtrl (NvmeStatus * bool)) :
    ST FemuCtrl (NvmeStatus * bool) := if snd r then ret r else k (fst r).

Definition zns_do_zone_op (zone : nat) (proc_mask : Z) (op_hndlr : op_handler_t) :
    ST FemuCtrl NvmeStatus :=
  n <- get;;
  if proc_mask =? 0 then
    z <- zone_at zone;;
    op_hndlr zone (zns_get_zone_state z)
  else
    r <- (if has_mask proc_mask NVME_PROC_CLOSED_ZONES
         then bulk_list L_closed proc_mask op_hndlr SUCCESS else ret (SUCCESS, false));;
    r <- and_then r (λ status,
          if has_mask proc_mask NVME_PROC_OPENED_ZONES
          then r <- bulk_list L_imp_open proc_mask op_hndlr status;;
               and_then r (bulk_list L_exp_open proc_mask op_hndlr)
          else ret (status, false));;
    r <- and_then r (λ status,
          if has_mask proc_mask NVME_PROC_FULL_ZONES
          then bulk_list L_full proc_mask op_hndlr status else ret (status, false));;
    r <- and_then r (λ status,
          if has_mask proc_mask NVME_PROC_READ_ONLY_ZONES
          then
            (* the list loops leave the pointer NULL *)
            assert (negb (has_mask proc_mask NVME_PROC_CLOSED_ZONES ||
                              has_mask proc_mask NVME_PROC_OPENED_ZONES ||
                              has_mask proc_mask NVME_PROC_FULL_ZONES));;
            bulk_array (Z.to_nat (num_zones (params n))) zone proc_mask op_hndlr status
          else ret (status, false));;
    ret (fst r).

(** The starting LBA in dwords 10 and 11. *)
Definition mgmt_slba (c : NvmeCmd) : Z := Z.lor (Z.shiftl (u32 (cdw11 c)) 32) (u32 (cdw10 c)).

(** Status, [*slba] and [*zone_idx]. *)
Definition zns_get_mgmt_zone_slba_idx (c : NvmeCmd) : ST FemuCtrl (NvmeStatus * Z * Z) :=
  n <- get;;
  if negb (zoned (params n)) then ret (or_dnr (status_of NVME_INVALID_OPCODE), 0, 0)
  else
    let slba := mgmt_slba c in
    if nsze (ns n) <=? slba then ret (or_dnr (status_of NVME_LBA_RANGE), 0, 0)
    else
      let zone_idx := zns_zone_idx n slba in
      assert (zone_idx <? num_zones (params n));;
      ret (SUCCESS, slba, zone_idx).

Inductive NvmeZoneSendAction :=
| NVME_ZONE_ACTION_CLOSE | NVME_ZONE_ACTION_FINISH | NVME_ZONE_ACTION_OPEN
| NVME_ZONE_ACTION_RESET | NVME_ZONE_ACTION_OFFLINE | NVME_ZONE_ACTION_SET_ZD_EXT
| NVME_ZONE_ACTION_INVALID.

Definition action_of_code (v : Z) : NvmeZoneSendAction :=
  match v with
  | 1 => NVME_ZONE_ACTION_CLOSE
  | 2 => NVME_ZONE_ACTION_FINISH
  | 3 => NVME_ZONE_ACTION_OPEN
  | 4 => NVME_ZONE_ACTION_RESET
  | 5 => NVME_ZONE_ACTION_OFFLINE
  | 16 => NVME_ZONE_ACTION_SET_ZD_EXT
  | _ => NVME_ZONE_ACTION_INVALID
  end.

(** Action and select-all bit of dword 13. *)
Definition send_action (c : NvmeCmd) : NvmeZoneSendAction :=
  action_of_code (Z.land (u32 (cdw13 c)) 255).
Definition send_all (c : NvmeCmd) : bool := negb (Z.land (u32 (cdw13 c)) 256 =? 0).

Definition set_req_status (s : NvmeStatus) : ST FemuCtrl unit :=
  modify (λ n, set_cur_req (req_set_status s (cur_req n)) n).
Definition set_req_opaque (x : Z) : ST FemuCtrl unit :=
  modify (λ n, set_cur_req (req_set_opaque x (cur_req n)) n).

(** [status |= NVME_DNR] when it is an error. *)
Definition dnr_on_error (s : NvmeStatus) : NvmeStatus := if failed s then or_dnr s else s.

(** Overwriting [length bs] elements of an array from [off] on. *)
Definition splice {A} (off : nat) (bs l : list A) : list A :=
  take off l ++ bs ++ drop (off + length bs) l.

Definition zns_zone_mgmt_send : ST FemuCtrl NvmeStatus :=
  n0 <- get;;
  let c := cmd (cur_req n0) in
  let action := send_action c in
  let all := send_all c in
  set_req_status SUCCESS;;
  r <- (if all then ret (SUCCESS, 0, 0) else zns_get_mgmt_zone_slba_idx c);;
  let status := fst (fst r) in
  let slba := snd (fst r) in
  let zone_idx := snd r in
  if failed status then ret status
  else
  let zone := Z.to_nat zone_idx in
  z <- zone_at zone;;
  if negb (slba =? zslba (d z)) then ret (or_dnr (status_of NVME_INVALID_FIELD))
  else
  let mask (m : Z) := if all then m else NVME_PROC_CURRENT_ZONE in
  match action with
  | NVME_ZONE_ACTION_OPEN =>
      zns_do_zone_op zone (mask NVME_PROC_CLOSED_ZONES) zns_open_zone;;
      ret SUCCESS
  | NVME_ZONE_ACTION_CLOSE =>
      zns_do_zone_op zone (mask NVME_PROC_OPENED_ZONES) zns_close_zone;;
      ret SUCCESS
  | NVME_ZONE_ACTION_FINISH =>
      status <- zns_do_zone_op zone
                 (mask (Z.lor NVME_PROC_OPENED_ZONES NVME_PROC_CLOSED_ZONES)) zns_finish_zone;;
      ret (dnr_on_error status)
  | NVME_ZONE_ACTION_RESET =>
      set_req_opaque 1;;
      zns_do_zone_op zone
            (mask (Z.lor (Z.lor NVME_PROC_OPENED_ZONES NVME_PROC_CLOSED_ZONES)
                     NVME_PROC_FULL_ZONES)) zns_reset_zone;;
      n <- get;;
      set_req_opaque (opaque (cur_req n) - 1);;
      ret SUCCESS
  | NVME_ZONE_ACTION_OFFLINE =>
      status <- zns_do_zone_op zone (mask NVME_PROC_READ_ONLY_ZONES) zns_offline_zone;;
      ret (dnr_on_error status)
  | NVME_ZONE_ACTION_SET_ZD_EXT =>
      n <- get;;
      let sz := zd_extension_size (params n) in
      if all || (sz =? 0) then ret (or_dnr (status_of NVME_INVALID_FIELD))
      else
        let zd_ext := zns_get_zd_extension n zone_idx in
        let dma := dma_write_prp (world n) sz (prp1 c) (prp2 c) in
        if failed (fst dma) then ret (fst dma)
        else
          assert (zd_ext + length (snd dma) <=? length (zd_extensions n))%nat;;
          modify (set_zd_extensions (splice zd_ext (snd dma) (zd_extensions n)));;
          status <- zns_set_zd_ext zone;;
          ret (dnr_on_error status)
  | NVME_ZONE_ACTION_INVALID => ret (dnr_on_error (status_of NVME_INVALID_FIELD))
  end.

(** ** Zone reports *)

Inductive NvmeZoneReportType :=
| NVME_ZONE_REPORT_ALL | NVME_ZONE_REPORT_EMPTY | NVME_ZONE_REPORT_IMPLICITLY_OPEN
| NVME_ZONE_REPORT_EXPLICITLY_OPEN | NVME_ZONE_REPORT_CLOSED | NVME_ZONE_REPORT_FULL
| NVME_ZONE_REPORT_READ_ONLY | NVME_ZONE_REPORT_OFFLINE.

Definition report_type_of_code (v : Z) : option NvmeZoneReportType :=
  match v with
  | 0 => Some NVME_ZONE_REPORT_ALL
  | 1 => Some NVME_ZONE_REPORT_EMPTY
  | 2 => Some NVME_ZONE_REPORT_IMPLICITLY_OPEN
  | 3 => Some NVME_ZONE_REPORT_EXPLICITLY_OPEN
  | 4 => Some NVME_ZONE_REPORT_CLOSED
  | 5 => Some NVME_ZONE_REPORT_FULL
  | 6 => Some NVME_ZONE_REPORT_READ_ONLY
  | 7 => Some NVME_ZONE_REPORT_OFFLINE
  | _ => None
  end.

Definition zns_zone_matches_filter (zafs : Z) (z : NvmeZone) : bool :=
  let zs := zns_get_zone_state z in
  match report_type_of_code zafs with
  | Some NVME_ZONE_REPORT_ALL => true
  | Some NVME_ZONE_REPORT_EMPTY => bool_decide (zs = NVME_ZONE_STATE_EMPTY)
  | Some NVME_ZONE_REPORT_IMPLICITLY_OPEN =>
      bool_decide (zs = NVME_ZONE_STATE_IMPLICITLY_OPEN)
  | Some NVME_ZONE_REPORT_EXPLICITLY_OPEN =>
      bool_decide (zs = NVME_ZONE_STATE_EXPLICITLY_OPEN)
  | Some NVME_ZONE_REPORT_CLOSED => bool_decide (zs = NVME_ZONE_STATE_CLOSED)
  | Some NVME_ZONE_REPORT_FULL => bool_decide (zs = NVME_ZONE_STATE_FULL)
  | Some NVME_ZONE_REPORT_READ_ONLY => bool_decide (zs = NVME_ZONE_STATE_READ_ONLY)
  | Some NVME_ZONE_REPORT_OFFLINE => bool_decide (zs = NVME_ZONE_STATE_OFFLINE)
  | None => false
  end.

Definition sizeof_NvmeZoneReportHeader : Z := 64.
Definition sizeof_NvmeZoneDescr : Z := 64.

(** The packed bytes of a [NvmeZoneDescr] of the report. *)
Definition descr_bytes (z : NvmeZone) : list Z :=
  [u8 (zt (d z)); u8 (zs (d z)); u8 (za (d z))] ++ replicate 5 0
  ++ le_bytes 8 (zcap (d z)) ++ le_bytes 8 (zslba (d z))
  ++ le_bytes 8 (if zns_wp_is_valid z then wp_ (d z) else UINT64_MAX) ++ replicate 32 0.

(** First loop: how many zones from [zone] on match, while [slba < capacity]. *)
Fixpoint report_count (fuel : nat) (zone : nat) (slba capacity : Z) (zrasf : Z)
    (partial : bool) (max_zones nr_zones : Z) : ST FemuCtrl Z :=
  if slba <? capacity then
    if partial && (max_zones <=? nr_zones) then ret nr_zones
    else
      match fuel with
      | O => crash
      | S fuel' =>
          n <- get;;
          z <- zone_at zone;;
          report_count fuel' (S zone) (u64 (slba + zone_size (params n))) capacity zrasf partial
            max_zones (if zns_zone_matches_filter zrasf z then nr_zones + 1 else nr_zones)
      end
  else ret nr_zones.

(** Writing into the report buffer, a [g_malloc0]ed block. *)
Definition buf_write (buf : list Z) (off : nat) (bs : list Z) : option (list Z) :=
  if decide (off + length bs ≤ length buf)%nat then Some (splice off bs buf) else None.

(** Second loop: the descriptors of the matching zones among the [k] zones from [zone]
    on, at offset [buf_p] of the buffer, [max_zones] at most. *)
Fixpoint report_fill (k : nat) (zone : nat) (extended : bool) (zrasf : Z) (max_zones : Z)
    (buf : list Z) (buf_p : nat) : ST FemuCtrl (list Z) :=
  match k with
  | O => ret buf
  | S k' =>
      if 0 <? max_zones then
        n <- get;;
        z <- zone_at zone;;
        if zns_zone_matches_filter zrasf z then
          buf <- load (buf_write buf buf_p (descr_bytes z));;
          let buf_p := (buf_p + Z.to_nat sizeof_NvmeZoneDescr)%nat in
          let sz := Z.to_nat (zd_extension_size (params n)) in
          if extended then
            buf <- (if negb (Z.land (za (d z)) NVME_ZA_ZD_EXT_VALID =? 0)
                   then
                     let off := zns_get_zd_extension n (Z.of_nat zone) in
                     assert (off + sz <=? length (zd_extensions n))%nat;;
                     load (buf_write buf buf_p (take sz (drop off (zd_extensions n))))
                   else ret buf);;
            report_fill k' (S zone) extended zrasf (max_zones - 1) buf (buf_p + sz)%nat
          else report_fill k' (S zone) extended zrasf (max_zones - 1) buf buf_p
        else report_fill k' (S zone) extended zrasf max_zones buf buf_p
      else ret buf
  end.

Definition zns_zone_mgmt_recv : ST FemuCtrl NvmeStatus :=
  n0 <- get;;
  let c := cmd (cur_req n0) in
  let data_size := u32 (Z.shiftl (u32 (u32 (cdw12 c) + 1)) 2) in
  let dw13 := u32 (cdw13 c) in
  let capacity := zns_ns_nlbas n0 in
  set_req_status SUCCESS;;
  r <- zns_get_mgmt_zone_slba_idx c;;
  let status := fst (fst r) in
  let slba := snd (fst r) in
  let zone_idx := snd r in
  if failed status then ret status
  else
  n <- get;;
  let zra := Z.land dw13 255 in
  if negb (zra =? 0) && negb (zra =? 1) then ret (or_dnr (status_of NVME_INVALID_FIELD))
  else if (zra =? 1) && (zd_extension_size (params n) =? 0)
  then ret (or_dnr (status_of NVME_INVALID_FIELD))
  else
  let zrasf := Z.land (Z.shiftr dw13 8) 255 in
  if 7 <? zrasf then ret (or_dnr (status_of NVME_INVALID_FIELD))
  else if data_size <? sizeof_NvmeZoneReportHeader
  then ret (or_dnr (status_of NVME_INVALID_FIELD))
  else
  let status := nvme_check_mdts (mdts (params n)) data_size in
  if failed status then ret status
  else
  let partial := negb (Z.land (Z.shiftr dw13 16) 1 =? 0) in
  let extended := zra =? 1 in
  let zone_entry_sz := sizeof_NvmeZoneDescr +
    (if extended then zd_extension_size (params n) else 0) in
  let max_zones := (data_size - sizeof_NvmeZoneReportHeader) / zone_entry_sz in
  let buf := replicate (Z.to_nat data_size) 0 in
  let zone := Z.to_nat zone_idx in
  nr_zones <- report_count (S (length (zone_array n))) zone slba capacity zrasf partial max_zones 0;;
  buf <- load (buf_write buf 0 (le_bytes 8 nr_zones));;
  buf <- report_fill (Z.to_nat (num_zones (params n) - zone_idx)) zone extended zrasf max_zones
          buf (Z.to_nat sizeof_NvmeZoneReportHeader);;
  n <- get;;
  let dma := dma_read_prp (world n) buf (prp1 c) (prp2 c) in
  modify (set_world (snd dma));;
  ret (fst dma).

(** ** Reads, writes, appends *)

Definition nvme_csi_has_nvm_support (n : FemuCtrl) : bool :=
  match csi (params n) with NVME_CSI_NVM | NVME_CSI_ZONED => true | _ => false end.

Definition zns_check_bounds (n : FemuCtrl) (slba nlb : Z) : NvmeStatus :=
  if (UINT64_MAX - slba <? nlb) || (nsze (ns n) <? u64 (slba + nlb))
  then or_dnr (status_of NVME_LBA_RANGE) else SUCCESS.

Definition zns_map_dptr (n : FemuCtrl) (len : Z) : NvmeStatus * option QSG :=
  let c := cmd (cur_req n) in
  if psdt_is_prp c then
    let r := nvme_map_prp (world n) (prp1 c) (prp2 c) len in (fst r, Some (snd r))
  else (status_of NVME_INVALID_FIELD, None).

(** The transfer at the end of a read or write: map the data pointer, move the data. *)
Definition transfer (data_size data_offset : Z) : ST FemuCtrl NvmeStatus :=
  n <- get;;
  let r := zns_map_dptr n data_size in
  if failed (fst r) then ret (fst r)
  else
    qsg <- load (snd r);;
    modify (λ n, set_world (backend_rw (world n) qsg data_offset (is_write (cur_req n))) n);;
    ret SUCCESS.

Definition zns_do_write (append wrz : bool) : ST FemuCtrl NvmeStatus :=
  n <- get;;
  let c := cmd (cur_req n) in
  let slba := rw_slba c in
  let nlb := rw_nlb c + 1 in
  let data_size := zns_l2b n nlb in
  let status := if wrz then SUCCESS else nvme_check_mdts (mdts (params n)) data_size in
  if failed status then ret (or_dnr status)
  else
  let status := zns_check_bounds n slba nlb in
  if failed status then ret (or_dnr status)
  else
  zone <- zns_get_zone_by_slba slba;;
  status <- zns_check_zone_write zone slba nlb append;;
  if failed status then ret (or_dnr status)
  else
  status <- zns_auto_open_zone zone;;
  if failed status then ret (or_dnr status)
  else
  z <- zone_at zone;;
  let slba := if append then w_ptr z else slba in
  res <- zns_advance_zone_wp zone nlb;;
  set_cqe_slba res;;
  status <- (if wrz then ret SUCCESS else transfer data_size (zns_l2b n slba));;
  if failed status then ret (or_dnr status)
  else
  zns_finalize_zoned_write false;;
  ret SUCCESS.

Definition zns_admin_cmd (_ : NvmeOpcode) : NvmeStatus := or_dnr (status_of NVME_INVALID_OPCODE).

Definition zns_zone_append : ST FemuCtrl NvmeStatus := zns_do_write true false.

Definition zns_check_dulbe (slba nlb : Z) : NvmeStatus := SUCCESS.

Definition set_is_write (b : bool) : ST FemuCtrl unit :=
  modify (λ n, set_cur_req (req_set_is_write b (cur_req n)) n).

Definition zns_read : ST FemuCtrl NvmeStatus :=
  n <- get;;
  let c := cmd (cur_req n) in
  let slba := rw_slba c in
  let nlb := rw_nlb c + 1 in
  let data_size := zns_l2b n nlb in
  assert (zoned (params n));;
  set_is_write false;;
  let status := nvme_check_mdts (mdts (params n)) data_size in
  if failed status then ret (or_dnr status)
  else
  let status := zns_check_bounds n slba nlb in
  if failed status then ret (or_dnr status)
  else
  status <- zns_check_zone_read slba nlb;;
  if failed status then ret (or_dnr status)
  else
  n <- get;;
  let r := zns_map_dptr n data_size in
  if failed (fst r) then ret (or_dnr (fst r))
  else
  let status := if err_rec_dulbe (params n) then zns_check_dulbe slba nlb else SUCCESS in
  if failed status then ret (or_dnr status)
  else
  qsg <- load (snd r);;
  modify (λ n, set_world (backend_rw (world n) qsg (zns_l2b n slba) (is_write (cur_req n))) n);;
  ret SUCCESS.

Definition zns_write : ST FemuCtrl NvmeStatus :=
  n <- get;;
  let c := cmd (cur_req n) in
  let slba := rw_slba c in
  let nlb := rw_nlb c + 1 in
  let data_size := zns_l2b n nlb in
  assert (zoned (params n));;
  set_is_write true;;
  let status := nvme_check_mdts (mdts (params n)) data_size in
  if failed status then ret (or_dnr status)
  else
  let status := zns_check_bounds n slba nlb in
  if failed status then ret (or_dnr status)
  else
  zone <- zns_get_zone_by_slba slba;;
  status <- zns_check_zone_write zone slba nlb false;;
  if failed status then ret (or_dnr status)
  else
  status <- zns_auto_open_zone zone;;
  if failed status then ret (or_dnr status)
  else
  res <- zns_advance_zone_wp zone nlb;;
  set_cqe_slba res;;
  status <- transfer data_size (zns_l2b n slba);;
  if failed status then ret (or_dnr status)
  else
  zns_finalize_zoned_write false;;
  ret SUCCESS.

Definition zns_io_cmd : ST FemuCtrl NvmeStatus :=
  n <- get;;
  match opcode (cmd (cur_req n)) with
  | NVME_CMD_READ => zns_read
  | NVME_CMD_WRITE => zns_write
  | NVME_CMD_ZONE_MGMT_SEND => zns_zone_mgmt_send
  | NVME_CMD_ZONE_MGMT_RECV => zns_zone_mgmt_recv
  | NVME_CMD_ZONE_APPEND => zns_zone_append
  | NVME_CMD_OTHER _ => ret (or_dnr (status_of NVME_INVALID_OPCODE))
  end.

(** ** Controller start *)

Definition zns_init_zone_cap : ST FemuCtrl Z :=
  modify (λ n,
    let p := params n in
    set_params (mk_params true NVME_DEFAULT_MAX_AZ_SIZE NVME_DEFAULT_ZONE_SIZE 0 false 0 0 0
      (zone_size p) (zone_capacity p) (num_zones p) (zone_size_log2 p) (page_size p) (mdts p)
      (zasl p) (csi p) (err_rec_dulbe p)) n);;
  ret 0.

Definition params_zasl (x : Z) (p : ZnsParams) : ZnsParams :=
  mk_params (zoned p) (zasl_bs p) (zone_size_bs p) (zone_cap_bs p) (cross_zone_read p)
    (max_active_zones p) (max_open_zones p) (zd_extension_size p) (zone_size p)
    (zone_capacity p) (num_zones p) (zone_size_log2 p) (page_size p) (mdts p) x (csi p)
    (err_rec_dulbe p).

Definition zns_start_ctrl : ST FemuCtrl Z :=
  n <- get;;
  let p := params n in
  assert (page_size p =? 4096);;
  if zasl_bs p =? 0 then modify (set_params (params_zasl (mdts p) p));; ret 0
  else if zasl_bs p <? page_size p then ret (-1)
  else
    modify (set_params (params_zasl (31 - clz32 (zasl_bs p / page_size p)) p));;
    ret 0.

(** The zone part of [zns_init]. *)
Definition zns_init : ST FemuCtrl unit :=
  zns_init_zone_cap;;
  r <- zns_init_zone_geometry;;
  if negb (r =? 0) then ret tt else zns_init_zone_identify 0.
End zns_c.
