(* ===== verification/ZnsExample.v ===== *)
(** * A concrete host for the controller

    Tail queues as lists, a FEMU host that records what the controller asks of it, and
    a small device; the interfaces of [ZnsTypes] are shown to hold of them.  Concrete
    runs of the controller evaluate on this host. *)

From stdpp Require Import base numbers option sets list list_numbers.
From S2P Require Import Prelude ZnsTypes ZnsOps.

(** ** Tail queues as lists *)

Fixpoint list_next (l : list nat) (i : nat) : option nat :=
  match l with
  | [] => None
  | x :: l' => if decide (x = i) then head l' else list_next l' i
  end.

#[global] Instance listQ : TailQ := {|
  queue := list nat;
  QTAILQ_INIT := [];
  QTAILQ_INSERT_HEAD q i := i :: q;
  QTAILQ_INSERT_TAIL q i := q ++ [i];
  QTAILQ_REMOVE q i := filter (λ x, x ≠ i) q;
  QTAILQ_FIRST q := head q;
  QTAILQ_NEXT := list_next;
  elems q := q
|}.

Lemma filter_ne_notin (l : list nat) i : i ∉ l → filter (λ x, x ≠ i) l = l.
Proof.
  induction l as [|x l IH]; intros Hi; [done|].
  apply not_elem_of_cons in Hi as [Hx Hi]. rewrite filter_cons_True by done. by rewrite IH.
Qed.

Lemma list_next_app (l1 l2 : list nat) i : i ∉ l1 → list_next (l1 ++ i :: l2) i = head l2.
Proof.
  induction l1 as [|x l1 IH]; intros Hi; simpl.
  - by rewrite decide_True.
  - apply not_elem_of_cons in Hi as [Hx Hi]. rewrite decide_False by done. by apply IH.
Qed.

Lemma NoDup_mid (l1 l2 : list nat) i : NoDup (l1 ++ i :: l2) → (i ∉ l1) ∧ (i ∉ l2).
Proof.
  intros (_ & H1 & H2)%NoDup_app. apply NoDup_cons in H2 as [H2 _].
  split; [|done]. intros Hi. apply (H1 _ Hi). by left.
Qed.

#[global] Instance listQ_ok : TailQOk listQ.
Proof.
  split; simpl; try done.
  - intros q i l1 l2 Hnd ->. apply NoDup_mid in Hnd as [H1 H2].
    rewrite filter_app, filter_cons_False by tauto.
    by rewrite !filter_ne_notin.
  - intros q i l1 l2 Hnd ->. apply NoDup_mid in Hnd as [H1 H2].
    by apply list_next_app.
Qed.

(** ** A host that records the transfers *)

Inductive event :=
| Ev_rw (offset len : Z) (write : bool)
| Ev_report (buf : list Z).

Fixpoint pos_bits (k : nat) (x : Z) : Z :=
  match k with O => 0 | S k' => if x =? 0 then 0 else 1 + pos_bits k' (Z.shiftr x 1) end.

Lemma pos_bits_log2 (k : nat) x : 0 < x < 2 ^ Z.of_nat k → pos_bits k x = Z.log2 x + 1.
Proof.
  revert x. induction k as [|k IH]; intros x Hx; [simpl in Hx; lia|].
  cbn [pos_bits]. rewrite (proj2 (Z.eqb_neq _ _)) by lia.
  rewrite Nat2Z.inj_succ, Z.pow_succ_r in Hx by lia.
  destruct (decide (x = 1)) as [->|].
  { change (Z.shiftr 1 1) with 0. by destruct k. }
  pose proof (Z.log2_shiftr x 1 ltac:(lia)) as Hl.
  assert (0 < Z.log2 x) by (by apply Z.log2_pos; lia).
  assert (Z.shiftr x 1 = x / 2) as Hs by (rewrite Z.shiftr_div_pow2 by lia; done).
  rewrite IH; [lia|]. rewrite Hs.
  split; [apply Z.div_str_pos; lia|apply Z.div_lt_upper_bound; lia].
Qed.

Arguments pos_bits : simpl never.

(** [mapok] is the answer of the PRP mapping. *)
Definition exampleFemu (mapok : bool) : Femu := {|
  World := list event;
  QSG := Z;
  nvme_check_mdts mdts len := SUCCESS;
  nvme_map_prp w p1 p2 len :=
    (if mapok then SUCCESS else status_of (NVME_HOST_STATUS 1), len);
  backend_rw w len off write := w ++ [Ev_rw off len write];
  dma_write_prp w sz p1 p2 := (SUCCESS, replicate (Z.to_nat sz) 7);
  dma_read_prp w buf p1 p2 := (SUCCESS, w ++ [Ev_report buf]);
  is_power_of_2 x := x =? 2 ^ Z.log2 x;
  clz64 x := 64 - pos_bits 64 x;
  clz32 x := 32 - pos_bits 32 x
|}.

#[global] Instance exampleFemu_ok mapok : FemuOk (exampleFemu mapok).
Proof.
  split.
  - intros w sz p1 p2 st bs Hsz [= <- <-] _. rewrite length_replicate. lia.
  - intros x Hx. apply Z.eqb_eq.
  - intros x Hx. cbn [clz64 exampleFemu]. rewrite (pos_bits_log2 64); lia.
  - intros x Hx. cbn [clz32 exampleFemu]. rewrite (pos_bits_log2 32); lia.
Qed.

(** ** A small device: four zones of eight 512-byte blocks, six of them writable *)

Definition ex_params (max_active max_open : Z) : ZnsParams :=
  mk_params true 131072 4096 3072 true max_active max_open 64 0 0 0 0 4096 7 5 NVME_CSI_NVM true.
Definition ex_ns : NvmeNamespace := mk_ns 1 16384 9 0 0 0 0 0.
Definition ex_cmd (op : NvmeOpcode) (slba nlb action : Z) : NvmeCmd :=
  mk_cmd op true 0 0 slba nlb slba 0 255 action.
Definition ex_req (c : NvmeCmd) : NvmeRequest := mk_req c true 0 SUCCESS 0.

Section example.
Context (mapok : bool).

Definition ex_blank (max_active max_open : Z) : FemuCtrl (F := exampleFemu mapok) :=
  @mk_femu listQ (exampleFemu mapok) (ex_params max_active max_open) ex_ns None [] [] [] [] [] 0 0 []
    ([] : list event) (ex_req (ex_cmd (NVME_CMD_OTHER 0) 0 0 0)).

(** The device after start-up. *)
Definition ex_start (max_active max_open : Z) : FemuCtrl (F := exampleFemu mapok) :=
  match (r <- zns_init_zone_geometry;; zns_init_zone_identify 0) (ex_blank max_active max_open) with
  | Done _ n => n
  | Crash => ex_blank max_active max_open
  end.

(** Serving a sequence of commands. *)
Fixpoint ex_run (cs : list NvmeCmd) (n : FemuCtrl (F := exampleFemu mapok)) :
    outcome (FemuCtrl (F := exampleFemu mapok)) (list NvmeStatus) :=
  match cs with
  | [] => Done [] n
  | c :: cs' =>
      match zns_io_cmd (set_cur_req (ex_req c) n) with
      | Done st n' =>
          match ex_run cs' n' with Done l n'' => Done (st :: l) n'' | Crash => Crash end
      | Crash => Crash
      end
  end.
End example.
