(* ===== verification/ZnsInv.v ===== *)
(** * The invariant of the ZNS controller, and the primitive steps that keep it

    [lists_inv]: the four zone lists hold exactly the zones in the corresponding state.
    [counters]: the open and active counters count the zones in these states and stay
    within the configured limits.  [geometry]: the zone array has the shape start-up gave
    it.  The lemmas below specify the primitive steps (list operations, state changes,
    counter changes); the handlers are composed of them. *)

From stdpp Require Import base numbers option sets list list_numbers.
From S2P Require Import Prelude ZnsTypes ZnsOps.

Section zns_inv.
Context {T : TailQ} {TOk : TailQOk T} {F : Femu}.
Implicit Types (n : FemuCtrl) (zone i : nat) (z : NvmeZone) (l : zone_list).

Notation zst := zns_get_zone_state.

(** ** The zone lists

    [X] is a zone that is temporarily on no list. *)
Record lists_inv (X : option nat) (n : FemuCtrl) : Prop := {
  li_nodup l : NoDup (elems (list_of l n));
  li_mem l i : i ∈ elems (list_of l n) ↔
    X ≠ Some i ∧ ∃ z, zone_array n !! i = Some z ∧ state_list (zst z) = Some l;
  li_state i z : zone_array n !! i = Some z → zone_state_ok (zst z) = true;
  li_entry i z : zone_array n !! i = Some z →
    entry_used z = bool_decide (X ≠ Some i) && listed_state (zst z)
}.

(** What the list operations leave alone. *)
Record same_ctl (n n' : FemuCtrl) : Prop := {
  sc_params : params n' = params n;
  sc_ns : ns n' = ns n;
  sc_id : id_ns_zoned n' = id_ns_zoned n;
  sc_open : nr_open_zones n' = nr_open_zones n;
  sc_active : nr_active_zones n' = nr_active_zones n;
  sc_zd : zd_extensions n' = zd_extensions n;
  sc_world : world n' = world n;
  sc_req : cur_req n' = cur_req n
}.

Lemma same_ctl_refl n : same_ctl n n.
Proof. by split. Qed.
Lemma same_ctl_trans n1 n2 n3 : same_ctl n1 n2 → same_ctl n2 n3 → same_ctl n1 n3.
Proof. intros [] []. split; congruence. Qed.

Lemma state_list_listed s : listed_state s = true ↔ ∃ l, state_list s = Some l.
Proof. destruct s; simpl; naive_solver. Qed.

Lemma list_of_set_list l l' q n :
  list_of l (set_list l' q n) = if decide (l = l') then q else list_of l n.
Proof. by destruct l, l'. Qed.
Lemma zone_array_set_list l q n : zone_array (set_list l q n) = zone_array n.
Proof. by destruct l. Qed.
Lemma list_of_set_zone_array l a n : list_of l (set_zone_array a n) = list_of l n.
Proof. by destruct l. Qed.
Lemma same_ctl_set_list l q n : same_ctl n (set_list l q n).
Proof. by destruct l; split. Qed.
Lemma same_ctl_set_zone_array a n : same_ctl n (set_zone_array a n).
Proof. by split. Qed.

(** Stored zones, one entry changed. *)
Lemma lookup_update (a : list NvmeZone) i j z z' :
  a !! i = Some z → (<[i:=z']> a) !! j = if decide (i = j) then Some z' else a !! j.
Proof.
  intros Hi. destruct (decide (i = j)) as [->|Hne].
  - apply list_lookup_insert_eq. by eapply lookup_lt_Some.
  - by apply list_lookup_insert_ne.
Qed.

Lemma wp_zone_at i z (Q : NvmeZone → FemuCtrl → Prop) n :
  zone_array n !! i = Some z → Q z n → wp (zone_at i) Q n.
Proof. intros Hz HQ. unfold zone_at. by repeat wp_step. Qed.

Lemma wp_zone_update i z f (Q : unit → FemuCtrl → Prop) n :
  zone_array n !! i = Some z →
  Q tt (set_zone_array (<[i := f z]> (zone_array n)) n) →
  wp (zone_update i f) Q n.
Proof. intros Hz HQ. unfold zone_update. wp_step. eapply wp_zone_at; [done|]. by wp_step. Qed.

(** A change that keeps the zone's state and its list entry keeps the lists. *)
Lemma lists_inv_update X n i z z' :
  lists_inv X n → zone_array n !! i = Some z → zst z' = zst z → entry_used z' = entry_used z →
  lists_inv X (set_zone_array (<[i := z']> (zone_array n)) n).
Proof.
  intros [Hnd Hm Hs He] Hi Hst Hen. split.
  - intros l. by rewrite list_of_set_zone_array.
  - intros l j. rewrite list_of_set_zone_array, Hm. simpl.
    rewrite (lookup_update _ _ _ _ _ Hi).
    destruct (decide (i = j)) as [<-|]; [|done].
    split; intros [HX (z0 & H0 & Hl)]; (split; [done|]); simplify_eq;
      eexists; (split; [done|]); congruence.
  - intros j z0. simpl. rewrite (lookup_update _ _ _ _ _ Hi).
    destruct (decide (i = j)) as [<-|]; [|by eapply Hs].
    intros [= <-]. rewrite Hst. by eapply Hs.
  - intros j z0. simpl. rewrite (lookup_update _ _ _ _ _ Hi).
    destruct (decide (i = j)) as [<-|]; [|by eapply He].
    intros [= <-]. rewrite Hst, Hen. by eapply He.
Qed.

(** A detached zone can take any state. *)
Lemma lists_inv_detached n i z z' :
  lists_inv (Some i) n → zone_array n !! i = Some z → zone_state_ok (zst z') = true →
  entry_used z' = false → lists_inv (Some i) (set_zone_array (<[i := z']> (zone_array n)) n).
Proof.
  intros [Hnd Hm Hs He] Hi Hok Hen. split.
  - intros l. by rewrite list_of_set_zone_array.
  - intros l j. rewrite list_of_set_zone_array, Hm. simpl.
    rewrite (lookup_update _ _ _ _ _ Hi). destruct (decide (i = j)) as [<-|]; naive_solver.
  - intros j z0. simpl. rewrite (lookup_update _ _ _ _ _ Hi).
    destruct (decide (i = j)) as [<-|]; [by intros [= <-]|by eapply Hs].
  - intros j z0. simpl. rewrite (lookup_update _ _ _ _ _ Hi).
    destruct (decide (i = j)) as [<-|]; [|by eapply He].
    intros [= <-]. rewrite Hen. by rewrite bool_decide_eq_false_2 by naive_solver.
Qed.

(** A detached zone whose state has no list is where it belongs. *)
Lemma lists_inv_unlisted n i z :
  lists_inv (Some i) n → zone_array n !! i = Some z → listed_state (zst z) = false →
  lists_inv None n.
Proof.
  intros [Hnd Hm Hs He] Hi Hl. split; auto.
  - intros l j. rewrite Hm. split; intros [_ (z0 & H0 & H1)]; (split; [|by eauto]); [done|].
    intros [= <-]. simplify_eq.
    assert (listed_state (zst z) = true) by (apply state_list_listed; eauto). congruence.
  - intros j z0 Hj. rewrite (He _ _ Hj). simpl.
    destruct (decide (i = j)) as [<-|Hne].
    + simplify_eq. by rewrite Hl, !andb_false_r.
    + by rewrite bool_decide_eq_true_2 by naive_solver.
Qed.

(** A list without the zone [i]. *)
Definition lrm (i : nat) (L : list nat) : list nat := filter (λ x, x ≠ i) L.

Lemma lrm_notin i L : i ∉ L → lrm i L = L.
Proof.
  unfold lrm. induction L as [|x L IH]; intros Hi; [done|].
  apply not_elem_of_cons in Hi as [Hx Hi]. rewrite filter_cons_True by done. by rewrite IH.
Qed.
Lemma lrm_mid i L1 L2 : NoDup (L1 ++ i :: L2) → lrm i (L1 ++ i :: L2) = L1 ++ L2.
Proof.
  intros (_ & H1 & H2)%NoDup_app. apply NoDup_cons in H2 as [H2 _].
  unfold lrm. rewrite filter_app, filter_cons_False by tauto.
  fold (lrm i L1) (lrm i L2). rewrite (lrm_notin i L2) by done.
  rewrite lrm_notin; [done|]. intros Hi. apply (H1 _ Hi). by left.
Qed.

Lemma elem_of_remove (q : queue) i j :
  NoDup (elems q) → i ∈ elems q →
  NoDup (elems (QTAILQ_REMOVE q i)) ∧
  (j ∈ elems (QTAILQ_REMOVE q i) ↔ i ≠ j ∧ j ∈ elems q).
Proof.
  intros Hnd (l1 & l2 & Hq)%list_elem_of_split.
  rewrite (elems_remove _ _ _ _ Hnd Hq), Hq.
  rewrite Hq in Hnd. apply NoDup_app in Hnd as (H1 & H12 & H2).
  apply NoDup_cons in H2 as [H2 H3]. split.
  - apply NoDup_app. split_and!; [done| |done].
    intros x Hx1 Hx2. apply (H12 x Hx1). by right.
  - rewrite !elem_of_app, elem_of_cons. split.
    + intros [Hj|Hj]; (split; [|by auto]); intros ->; [|done].
      apply (H12 j Hj). by left.
    + intros [Hne [Hj|[Hj|Hj]]]; [by left|congruence|by right].
Qed.

(** Taking a zone off the list of its state. *)
Lemma wp_remove l i z n :
  lists_inv None n → zone_array n !! i = Some z → state_list (zst z) = Some l →
  wp (remove l i) (λ _ n',
    lists_inv (Some i) n' ∧ same_ctl n n' ∧
    zone_array n' = <[i := zone_set_entry false z]> (zone_array n) ∧
    ∀ l', elems (list_of l' n') = lrm i (elems (list_of l' n))) n.
Proof.
  intros Hinv Hi Hl. pose proof Hinv as [Hnd Hm Hs He]. unfold remove.
  assert (i ∈ elems (list_of l n)) as Hin by (apply Hm; split; eauto).
  do 2 wp_step. apply wp_bind, wp_assert; [by apply bool_decide_eq_true|].
  do 2 wp_step. eapply wp_zone_update; [by rewrite zone_array_set_list|].
  rewrite zone_array_set_list. split_and!; [|by destruct l; split|done|].
  2:{ intros l'. rewrite list_of_set_zone_array, list_of_set_list.
      destruct (decide (l' = l)) as [->|Hne].
      - apply list_elem_of_split in Hin as (l1 & l2 & Hq).
        rewrite (elems_remove _ _ _ _ (Hnd l) Hq), Hq. symmetry. apply lrm_mid.
        rewrite <-Hq. apply Hnd.
      - symmetry. apply lrm_notin. intros (_ & z0 & H0 & H1)%Hm. congruence. }
  split.
  - intros l'. rewrite list_of_set_zone_array, list_of_set_list.
    destruct (decide (l' = l)) as [->|]; [|by apply Hnd].
    by eapply (proj1 (elem_of_remove _ i 0%nat (Hnd l) Hin)).
  - intros l' j. rewrite list_of_set_zone_array, list_of_set_list. simpl.
    rewrite (lookup_update _ _ _ _ _ Hi).
    destruct (decide (l' = l)) as [->|Hne].
    + rewrite (proj2 (elem_of_remove _ i j (Hnd l) Hin)), Hm.
      destruct (decide (i = j)) as [<-|]; naive_solver.
    + rewrite Hm. destruct (decide (i = j)) as [<-|]; [|naive_solver].
      split; [|naive_solver]. intros (_ & z0 & H0 & H1). congruence.
  - intros j z0. simpl. rewrite (lookup_update _ _ _ _ _ Hi).
    destruct (decide (i = j)) as [<-|]; [intros [= <-]; exact (Hs _ _ Hi)|by eapply Hs].
  - intros j z0. simpl. rewrite (lookup_update _ _ _ _ _ Hi).
    destruct (decide (i = j)) as [<-|Hne].
    + intros [= <-]. simpl. by rewrite bool_decide_eq_false_2 by naive_solver.
    + intros Hj. rewrite (He _ _ Hj). simpl.
      by rewrite bool_decide_eq_true_2 by naive_solver.
Qed.

(** Putting a detached zone on the list of its state, at either end. *)
Lemma lists_inv_insert l i z n (q : queue) :
  lists_inv (Some i) n → zone_array n !! i = Some z → state_list (zst z) = Some l →
  NoDup (elems q) → (∀ j, j ∈ elems q ↔ j = i ∨ j ∈ elems (list_of l n)) →
  lists_inv None
    (set_zone_array (<[i := zone_set_entry true z]> (zone_array n)) (set_list l q n)).
Proof.
  intros [Hnd Hm Hs He] Hi Hl Hq Hmem. split.
  - intros l'. rewrite list_of_set_zone_array, list_of_set_list. by destruct (decide (l' = l)) as [->|].
  - intros l' j. rewrite list_of_set_zone_array, list_of_set_list. simpl.
    rewrite (lookup_update _ _ _ _ _ Hi).
    destruct (decide (l' = l)) as [->|Hne].
    + rewrite Hmem, Hm. destruct (decide (i = j)) as [<-|]; naive_solver.
    + rewrite Hm. destruct (decide (i = j)) as [<-|]; [|naive_solver].
      split; [naive_solver|]. intros (_ & z0 & [= <-] & H1).
      change (zst (zone_set_entry true z)) with (zst z) in H1. congruence.
  - intros j z0. simpl. rewrite (lookup_update _ _ _ _ _ Hi).
    destruct (decide (i = j)) as [<-|]; [intros [= <-]; exact (Hs _ _ Hi)|by eapply Hs].
  - intros j z0. simpl. rewrite (lookup_update _ _ _ _ _ Hi).
    destruct (decide (i = j)) as [<-|Hne].
    + intros [= <-]. symmetry. apply state_list_listed. eauto.
    + intros Hj. rewrite (He _ _ Hj). by rewrite bool_decide_eq_true_2 by naive_solver.
Qed.

Lemma lists_inv_detached_entry n i z :
  lists_inv (Some i) n → zone_array n !! i = Some z →
  entry_used z = false ∧ ∀ l, i ∉ elems (list_of l n).
Proof.
  intros [Hnd Hm Hs He] Hi. split.
  - rewrite (He _ _ Hi). by rewrite bool_decide_eq_false_2 by naive_solver.
  - intros l [H _]%Hm. congruence.
Qed.

Lemma wp_insert_tail l i z n :
  lists_inv (Some i) n → zone_array n !! i = Some z → state_list (zst z) = Some l →
  wp (insert_tail l i) (λ _ n',
    lists_inv None n' ∧ same_ctl n n' ∧
    zone_array n' = <[i := zone_set_entry true z]> (zone_array n) ∧
    ∀ l', elems (list_of l' n') = elems (list_of l' n) ++ (if decide (l' = l) then [i] else [])) n.
Proof.
  intros Hinv Hi Hl. pose proof (lists_inv_detached_entry _ _ _ Hinv Hi) as [Hen Hni].
  unfold insert_tail. wp_step. eapply wp_zone_at; [done|]. rewrite Hen.
  do 4 (wp_step; try done).
  eapply wp_zone_update; [by rewrite zone_array_set_list|].
  rewrite zone_array_set_list. split_and!; [|by destruct l; split|done|].
  2:{ intros l'. rewrite list_of_set_zone_array, list_of_set_list.
      destruct (decide (l' = l)) as [->|]; [by apply elems_insert_tail|by rewrite app_nil_r]. }
  apply lists_inv_insert with (z := z); try done.
  - rewrite elems_insert_tail by done. apply NoDup_app. split_and!.
    + apply Hinv.
    + intros x Hx ->%list_elem_of_singleton. by apply (Hni l).
    + apply NoDup_singleton.
  - intros j. rewrite elems_insert_tail by done. set_solver.
Qed.

Lemma wp_insert_head l i z n :
  lists_inv (Some i) n → zone_array n !! i = Some z → state_list (zst z) = Some l →
  wp (insert_head l i) (λ _ n',
    lists_inv None n' ∧ same_ctl n n' ∧
    zone_array n' = <[i := zone_set_entry true z]> (zone_array n) ∧
    ∀ l', elems (list_of l' n') = (if decide (l' = l) then [i] else []) ++ elems (list_of l' n)) n.
Proof.
  intros Hinv Hi Hl. pose proof (lists_inv_detached_entry _ _ _ Hinv Hi) as [Hen Hni].
  unfold insert_head. wp_step. eapply wp_zone_at; [done|]. rewrite Hen.
  do 4 (wp_step; try done).
  eapply wp_zone_update; [by rewrite zone_array_set_list|].
  rewrite zone_array_set_list. split_and!; [|by destruct l; split|done|].
  2:{ intros l'. rewrite list_of_set_zone_array, list_of_set_list.
      destruct (decide (l' = l)) as [->|]; [by apply elems_insert_head|done]. }
  apply lists_inv_insert with (z := z); try done.
  - rewrite elems_insert_head by done. apply NoDup_cons. split; [by apply Hni|apply Hinv].
  - intros j. rewrite elems_insert_head by done. set_solver.
Qed.

(** ** Assigning a zone state *)

Definition clears_za (s : NvmeZoneState) : bool :=
  match s with
  | NVME_ZONE_STATE_EXPLICITLY_OPEN | NVME_ZONE_STATE_IMPLICITLY_OPEN
  | NVME_ZONE_STATE_CLOSED | NVME_ZONE_STATE_FULL | NVME_ZONE_STATE_READ_ONLY => false
  | _ => true
  end.

(** The zone after [zns_assign_zone_state]. *)
Definition assigned (s : NvmeZoneState) (z : NvmeZone) : NvmeZone :=
  mk_zone
    (mk_descr (zt (d z)) (u8 (Z.shiftl (state_code s) 4)) (if clears_za s then 0 else za (d z))
       (zcap (d z)) (zslba (d z)) (wp_ (d z)))
    (w_ptr z) (listed_state s).

Lemma zst_assigned s z : zone_state_ok s = true → zst (assigned s z) = s.
Proof. by destruct s. Qed.

Lemma lists_inv_detach_unlisted n i z :
  lists_inv None n → zone_array n !! i = Some z → listed_state (zst z) = false →
  lists_inv (Some i) n.
Proof.
  intros [Hnd Hm Hs He] Hi Hl. split; auto.
  - intros l j. rewrite Hm. split; [|naive_solver]. intros (_ & z0 & H0 & H1).
    split; [|eauto]. intros [= ->]. simplify_eq.
    assert (listed_state (zst z) = true) by (apply state_list_listed; eauto). congruence.
  - intros j z0 Hj. rewrite (He _ _ Hj). simpl. destruct (decide (i = j)) as [->|].
    + simplify_eq. by rewrite Hl, andb_false_r.
    + by rewrite bool_decide_eq_true_2 by naive_solver.
Qed.

(** Off its list, if it is on one. *)
Lemma wp_detach X i z n :
  lists_inv X n → X = None ∨ X = Some i → zone_array n !! i = Some z →
  wp (when (entry_used z)
        match zst z with
        | NVME_ZONE_STATE_EXPLICITLY_OPEN => remove L_exp_open i
        | NVME_ZONE_STATE_IMPLICITLY_OPEN => remove L_imp_open i
        | NVME_ZONE_STATE_CLOSED => remove L_closed i
        | NVME_ZONE_STATE_FULL => remove L_full i
        | _ => ret tt
        end)
    (λ _ n', lists_inv (Some i) n' ∧ same_ctl n n' ∧
      zone_array n' = <[i := zone_set_entry false z]> (zone_array n) ∧
      ∀ l, elems (list_of l n') = lrm i (elems (list_of l n))) n.
Proof.
  intros Hinv HX Hi. pose proof (li_entry _ _ Hinv _ _ Hi) as Hen.
  wp_step.
  - destruct HX as [-> | ->].
    + destruct (zst z) eqn:Hz; try (rewrite Hen in *; done);
        (eapply wp_remove; [done|done|by rewrite Hz]).
    + rewrite bool_decide_eq_false_2 in Hen by naive_solver. simpl in Hen. congruence.
  - assert (<[i := zone_set_entry false z]> (zone_array n) = zone_array n) as Heq.
    { apply list_insert_id. rewrite Hi. f_equal. destruct z; simpl in *. by subst. }
    assert (lists_inv (Some i) n) as Hd.
    { destruct HX as [-> | ->]; [|done].
      assert (listed_state (zst z) = false) as Hl by (simpl in Hen; congruence).
      by eapply lists_inv_detach_unlisted. }
    split_and!; [done|by split|done|].
    intros l. symmetry. apply lrm_notin. by eapply lists_inv_detached_entry.
Qed.

(** On the list of its new state, if it has one. *)
Lemma wp_attach i z s n :
  lists_inv (Some i) n → zone_array n !! i = Some z → zst z = s →
  wp (match s with
      | NVME_ZONE_STATE_EXPLICITLY_OPEN => insert_tail L_exp_open i
      | NVME_ZONE_STATE_IMPLICITLY_OPEN => insert_tail L_imp_open i
      | NVME_ZONE_STATE_CLOSED => insert_tail L_closed i
      | NVME_ZONE_STATE_FULL => insert_tail L_full i
      | NVME_ZONE_STATE_READ_ONLY => ret tt
      | _ => zone_update i (zone_set_za 0)
      end)
    (λ _ n', lists_inv None n' ∧ same_ctl n n' ∧
      zone_array n' = <[i := zone_set_entry (listed_state s)
        (if clears_za s then zone_set_za 0 z else z)]> (zone_array n) ∧
      ∀ l, elems (list_of l n') =
        elems (list_of l n) ++ (if decide (state_list s = Some l) then [i] else [])) n.
Proof.
  intros Hinv Hi Hz. pose proof (lists_inv_detached_entry _ _ _ Hinv Hi) as [Hen _].
  assert (zone_set_entry false (zone_set_za 0 z) = zone_set_za 0 z) as Hza
    by (destruct z; simpl in *; by subst).
  assert (zone_set_entry false z = z) as Hze by (destruct z; simpl in *; by subst).
  pose proof (li_state _ _ Hinv _ _ Hi) as Hok.
  destruct (state_list s) as [l|] eqn:Hl.
  { assert (listed_state s = true) as Hls by (apply state_list_listed; eauto).
    assert (clears_za s = false) as Hcz by by destruct s.
    rewrite Hls, Hcz. destruct s; simplify_eq/=;
      (eapply wp_mono; [eapply wp_insert_tail; [done|done|by rewrite Hz]|]);
      intros _ n' (H1 & H2 & H3 & H4); (split_and!; [done..|]); intros l';
      rewrite H4; repeat case_decide; congruence. }
  assert (listed_state s = false) as Hls by by destruct s.
  assert (lists_inv None n) as Hn by (eapply lists_inv_unlisted; [done|done|by rewrite Hz]).
  assert (∀ l n', list_of l n' = list_of l n →
    elems (list_of l n') = elems (list_of l n) ++ (if decide (None = Some l) then [i] else [])) as Hord
    by (intros l n' ->; by rewrite app_nil_r).
  rewrite Hz in Hok.
  destruct s; try done; simpl.
  1,3: eapply wp_zone_update; [done|]; rewrite Hza; split_and!; [|by split|done|auto];
    eapply lists_inv_update; [done|done|done|by rewrite <-Hza, Hen].
  wp_step. split_and!; [done|by split| |auto].
  rewrite Hze. symmetry. by apply list_insert_id.
Qed.

Lemma wp_assign X i z s n :
  lists_inv X n → X = None ∨ X = Some i → zone_array n !! i = Some z →
  zone_state_ok s = true →
  wp (zns_assign_zone_state i s) (λ _ n',
    lists_inv None n' ∧ same_ctl n n' ∧
    zone_array n' = <[i := assigned s z]> (zone_array n) ∧
    ∀ l, elems (list_of l n') = lrm i (elems (list_of l n)) ++
           (if decide (state_list s = Some l) then [i] else [])) n.
Proof.
  intros Hinv HX Hi Hs. unfold zns_assign_zone_state.
  wp_step. eapply wp_zone_at; [done|].
  eapply wp_seq; [by eapply wp_detach|].
  intros _ n1 (Hinv1 & Hc1 & Ha1 & Ho1).
  assert (i < length (zone_array n))%nat as Hlt by by eapply lookup_lt_Some.
  assert (zone_array n1 !! i = Some (zone_set_entry false z)) as Hi1.
  { rewrite Ha1. by apply list_lookup_insert_eq. }
  wp_step. eapply wp_zone_update; [done|].
  set (z2 := zns_set_zone_state (zone_set_entry false z) s).
  assert (zst z2 = s) as Hz2 by by apply get_set_zone_state.
  eapply wp_mono.
  { eapply wp_attach with (z := z2); [|simpl; apply list_lookup_insert_eq|done].
    - eapply lists_inv_detached; [done|done|by rewrite Hz2|done].
    - by eapply lookup_lt_Some. }
  intros _ n2 (Hinv2 & Hc2 & Ha2 & Ho2). split_and!; [done| | |].
  - eapply same_ctl_trans; [exact Hc1|]. by eapply same_ctl_trans; [|exact Hc2]; split.
  - rewrite Ha2. simpl. rewrite Ha1, !list_insert_insert_eq. f_equal. by destruct s.
  - intros l. by rewrite Ho2, list_of_set_zone_array, Ho1.
Qed.

(** ** The open and active counters

    [counters o a]: the counters exceed the number of zones in the corresponding states
    by [o] and [a], the surplus in the middle of a handler. *)

Definition open_cnt (zones : list NvmeZone) : Z := countb (λ z, open_state (zst z)) zones.
Definition active_cnt (zones : list NvmeZone) : Z := countb (λ z, active_state (zst z)) zones.

Lemma open_le_active zones : open_cnt zones ≤ active_cnt zones.
Proof. apply countb_mono. intros z. apply open_active_state. Qed.

Record counters (o a : Z) (n : FemuCtrl) : Prop := {
  ct_open0 : max_open_zones (params n) = 0 → nr_open_zones n = 0;
  ct_open : max_open_zones (params n) ≠ 0 →
    nr_open_zones n = open_cnt (zone_array n) + o ∧
    nr_open_zones n ≤ max_open_zones (params n);
  ct_active0 : max_active_zones (params n) = 0 → nr_active_zones n = 0;
  ct_active : max_active_zones (params n) ≠ 0 →
    nr_active_zones n = active_cnt (zone_array n) + a ∧
    nr_active_zones n ≤ max_active_zones (params n)
}.

(** What the counter operations leave alone. *)
Record same_zones (n n' : FemuCtrl) : Prop := {
  sz_params : params n' = params n;
  sz_ns : ns n' = ns n;
  sz_id : id_ns_zoned n' = id_ns_zoned n;
  sz_zones : zone_array n' = zone_array n;
  sz_lists l : list_of l n' = list_of l n;
  sz_zd : zd_extensions n' = zd_extensions n;
  sz_world : world n' = world n;
  sz_req : cur_req n' = cur_req n
}.

Lemma same_zones_refl n : same_zones n n.
Proof. by split. Qed.
Lemma same_zones_nr_open x n : same_zones n (set_nr_open x n).
Proof. by split. Qed.
Lemma same_zones_nr_active x n : same_zones n (set_nr_active x n).
Proof. by split. Qed.
Lemma same_zones_trans n1 n2 n3 : same_zones n1 n2 → same_zones n2 n3 → same_zones n1 n3.
Proof. intros [] []. split; congruence. Qed.

Lemma lists_inv_same_zones X n n' : same_zones n n' → lists_inv X n → lists_inv X n'.
Proof.
  intros [] [Hnd Hm Hs He]. split.
  - intros l. by rewrite sz_lists0.
  - intros l i. rewrite sz_lists0, sz_zones0. apply Hm.
  - rewrite sz_zones0. apply Hs.
  - rewrite sz_zones0. apply He.
Qed.

(** Runs a counter operation; what remains are its asserts, closed by arithmetic. *)
Ltac run_aor :=
  repeat wp_step; simpl in *; try lia;
  try (split; [split; simpl; auto; lia|
               auto using same_zones_nr_open, same_zones_nr_active, same_zones_refl]).

Lemma wp_dec_open o a n :
  counters o a n → 0 < open_cnt (zone_array n) + o →
  wp zns_aor_dec_open (λ _ n', counters (o - 1) a n' ∧ same_zones n n') n.
Proof.
  intros [H1 H2 H3 H4] Hpos. unfold zns_aor_dec_open.
  destruct (decide (max_open_zones (params n) = 0)) as [E|E];
    [specialize (H1 E)|specialize (H2 E) as [Ho Hle]]; run_aor.
Qed.

Lemma wp_dec_active o a n :
  counters o a n → 0 < active_cnt (zone_array n) + a →
  open_cnt (zone_array n) + o < active_cnt (zone_array n) + a →
  wp zns_aor_dec_active (λ _ n', counters o (a - 1) n' ∧ same_zones n n') n.
Proof.
  intros [H1 H2 H3 H4] Hpos Hlt. unfold zns_aor_dec_active.
  assert (nr_open_zones n <= 0 ∨ nr_open_zones n = open_cnt (zone_array n) + o).
  { destruct (decide (max_open_zones (params n) = 0)) as [E|E];
      [specialize (H1 E)|destruct (H2 E)]; lia. }
  destruct (decide (max_active_zones (params n) = 0)) as [E|E];
    [specialize (H3 E)|specialize (H4 E) as [Ho Hle]]; run_aor.
Qed.

Lemma wp_inc_open o a n :
  counters o a n → 0 ≤ open_cnt (zone_array n) + o →
  (max_open_zones (params n) ≠ 0 → nr_open_zones n + 1 ≤ max_open_zones (params n)) →
  wp zns_aor_inc_open (λ _ n', counters (o + 1) a n' ∧ same_zones n n') n.
Proof.
  intros [H1 H2 H3 H4] Hpos Hlim. unfold zns_aor_inc_open.
  destruct (decide (max_open_zones (params n) = 0)) as [E|E];
    [specialize (H1 E)|specialize (H2 E) as [Ho Hle]; specialize (Hlim E)]; run_aor.
Qed.

Lemma wp_inc_active o a n :
  counters o a n → 0 ≤ active_cnt (zone_array n) + a →
  (max_active_zones (params n) ≠ 0 → nr_active_zones n + 1 ≤ max_active_zones (params n)) →
  wp zns_aor_inc_active (λ _ n', counters o (a + 1) n' ∧ same_zones n n') n.
Proof.
  intros [H1 H2 H3 H4] Hpos Hlim. unfold zns_aor_inc_active.
  destruct (decide (max_active_zones (params n) = 0)) as [E|E];
    [specialize (H3 E)|specialize (H4 E) as [Ho Hle]; specialize (Hlim E)]; run_aor.
Qed.

(** A zone that changes shifts the surplus by the difference. *)
Lemma counters_update o a n n' i z z' :
  counters o a n → same_ctl n n' → zone_array n !! i = Some z →
  zone_array n' = <[i := z']> (zone_array n) →
  counters (o + Z.b2z (open_state (zst z)) - Z.b2z (open_state (zst z')))
    (a + Z.b2z (active_state (zst z)) - Z.b2z (active_state (zst z'))) n'.
Proof.
  intros [H1 H2 H3 H4] [] Hi Ha.
  assert (open_cnt (zone_array n') = open_cnt (zone_array n)
    - Z.b2z (open_state (zst z)) + Z.b2z (open_state (zst z'))) as Eo
    by (rewrite Ha; exact (countb_insert _ _ _ _ _ Hi)).
  assert (active_cnt (zone_array n') = active_cnt (zone_array n)
    - Z.b2z (active_state (zst z)) + Z.b2z (active_state (zst z'))) as Ea
    by (rewrite Ha; exact (countb_insert _ _ _ _ _ Hi)).
  split; rewrite ?sc_params0, ?sc_open0, ?sc_active0; auto; intros E;
    [destruct (H2 E)|destruct (H4 E)]; lia.
Qed.

(** ** Geometry *)

Record geometry (n : FemuCtrl) : Prop := {
  ge_zoned : zoned (params n) = true;
  ge_len : Z.of_nat (length (zone_array n)) = num_zones (params n);
  ge_size : 0 < zone_size (params n);
  ge_cap : 0 < zone_capacity (params n) ≤ zone_size (params n);
  ge_num : 0 < num_zones (params n) < 2 ^ 32;
  ge_total : num_zones (params n) * zone_size (params n) + zone_size (params n) ≤ 2 ^ 64;
  ge_log2 : zone_size_log2 (params n) = 0 ∨
    0 < zone_size_log2 (params n) ∧ zone_size (params n) = 2 ^ zone_size_log2 (params n);
  ge_nsze : nsze (ns n) = num_zones (params n) * zone_size (params n);
  ge_zone i z : zone_array n !! i = Some z →
    zslba (d z) = Z.of_nat i * zone_size (params n) ∧ zcap (d z) = zone_capacity (params n);
  ge_zd : 0 ≤ zd_extension_size (params n) ∧
    zd_extension_size (params n) * num_zones (params n) < 2 ^ 32 ∧
    (zd_extension_size (params n) ≠ 0 →
     Z.of_nat (length (zd_extensions n)) = zd_extension_size (params n) * num_zones (params n));
  ge_max : 0 ≤ max_open_zones (params n) ∧ 0 ≤ max_active_zones (params n)
}.

Record zns_inv (n : FemuCtrl) : Prop := {
  inv_lists : lists_inv None n;
  inv_counters : counters 0 0 n;
  inv_geometry : geometry n
}.

(** Zones that differ in what geometry does not look at. *)
Definition same_place (z z' : NvmeZone) : Prop :=
  zslba (d z') = zslba (d z) ∧ zcap (d z') = zcap (d z).

Lemma geometry_zones n n' :
  geometry n → params n' = params n → ns n' = ns n →
  length (zd_extensions n') = length (zd_extensions n) →
  Forall2 same_place (zone_array n) (zone_array n') → geometry n'.
Proof.
  intros [] Hp Hn Hz Hf. pose proof (Forall2_length _ _ _ Hf) as Hlen.
  split; rewrite ?Hp, ?Hn, <-?Hlen, ?Hz; auto.
  intros i z' Hi. destruct (Forall2_lookup_r _ _ _ _ _ Hf Hi) as (z & Hz0 & [-> ->]). eauto.
Qed.

Lemma Forall2_same_place_refl (a : list NvmeZone) : Forall2 same_place a a.
Proof. apply Forall_Forall2_diag, Forall_true. by split. Qed.

Lemma Forall2_update (R : NvmeZone → NvmeZone → Prop) (a : list NvmeZone) i z z' :
  (∀ x, R x x) → a !! i = Some z → R z z' → Forall2 R a (<[i := z']> a).
Proof.
  intros Hr Hi Hz. rewrite <-(list_insert_id a i z Hi) at 1.
  apply Forall2_insert; [|done]. apply Forall_Forall2_diag, Forall_true. done.
Qed.

Lemma geometry_update n n' i z z' :
  geometry n → params n' = params n → ns n' = ns n → zd_extensions n' = zd_extensions n →
  zone_array n !! i = Some z → zone_array n' = <[i := z']> (zone_array n) →
  same_place z z' → geometry n'.
Proof.
  intros Hg Hp Hn Hz Hi Ha Hs. eapply geometry_zones; [done..|by rewrite Hz|].
  rewrite Ha. eapply Forall2_update; [by split|done|done].
Qed.

Lemma geometry_same_zones n n' : same_zones n n' → geometry n → geometry n'.
Proof.
  intros [] Hg. eapply geometry_zones; [done..|by rewrite sz_zd0|].
  rewrite sz_zones0. apply Forall2_same_place_refl.
Qed.
End zns_inv.

#[export] Hint Resolve same_ctl_refl same_zones_refl open_le_active : zns.
