(* ===== verification/ZnsHandlers.v ===== *)
(** * What each zone handler of [zns.c] does

    For every handler: from a state that satisfies the invariant it does not crash, it
    keeps the invariant, and the zone, the lists and the status it leaves are those of
    a pure function of the zone. *)

From stdpp Require Import base numbers option sets list list_numbers.
From S2P Require Import Prelude ZnsTypes ZnsOps ZnsInv.

Section handlers.
Context {T : TailQ} {TOk : TailQOk T} {F : Femu}.
Implicit Types (n : FemuCtrl) (zone i : nat) (z : NvmeZone) (l : zone_list).

Notation zst := zns_get_zone_state.

(** Everything but zones, lists and counters. *)
Record same_rest (n n' : FemuCtrl) : Prop := {
  sr_params : params n' = params n;
  sr_ns : ns n' = ns n;
  sr_id : id_ns_zoned n' = id_ns_zoned n;
  sr_zd : zd_extensions n' = zd_extensions n;
  sr_world : world n' = world n;
  sr_req : cur_req n' = cur_req n
}.

Lemma same_rest_refl n : same_rest n n.
Proof. by split. Qed.
Lemma same_rest_trans n1 n2 n3 : same_rest n1 n2 → same_rest n2 n3 → same_rest n1 n3.
Proof. intros [] []. split; congruence. Qed.
Lemma same_ctl_rest n n' : same_ctl n n' → same_rest n n'.
Proof. by intros []. Qed.
Lemma same_zones_rest n n' : same_zones n n' → same_rest n n'.
Proof. by intros []. Qed.
Lemma same_rest_zone_array a n : same_rest n (set_zone_array a n).
Proof. by split. Qed.

#[local] Hint Resolve same_rest_refl same_ctl_rest same_zones_rest same_rest_zone_array : zns.

(** Zone [i] leaves its list and goes to the tail of the list of state [s]. *)
Definition lists_moved (i : nat) (s : NvmeZoneState) (n n' : FemuCtrl) : Prop :=
  ∀ l, elems (list_of l n') = lrm i (elems (list_of l n)) ++
         (if decide (state_list s = Some l) then [i] else []).

(** The outcome of a handler on zone [i]: nothing changes, or the zone becomes [z']. *)
Definition op_result (i : nat) (r : option NvmeZone) (n n' : FemuCtrl) : Prop :=
  zns_inv n' ∧ same_rest n n' ∧
  match r with
  | None => zone_array n' = zone_array n ∧ ∀ l, list_of l n' = list_of l n
  | Some z' => zone_array n' = <[i := z']> (zone_array n) ∧ lists_moved i (zst z') n n'
  end.

(** Assignments that restore the balance of the counters restore the invariant. *)
Lemma wp_assign_inv X i z s n o a :
  lists_inv X n → X = None ∨ X = Some i → counters o a n → geometry n →
  zone_array n !! i = Some z → zone_state_ok s = true →
  o + Z.b2z (open_state (zst z)) = Z.b2z (open_state s) →
  a + Z.b2z (active_state (zst z)) = Z.b2z (active_state s) →
  wp (zns_assign_zone_state i s) (λ _ n',
    zns_inv n' ∧ same_rest n n' ∧
    zone_array n' = <[i := assigned s z]> (zone_array n) ∧ lists_moved i s n n') n.
Proof.
  intros Hl HX Hc Hg Hi Hs Ho Ha. eapply wp_mono; [by eapply wp_assign|].
  intros _ n' (Hl' & Hsc & Hz & Hm). split_and!; [|by apply same_ctl_rest|done|done].
  pose proof (counters_update _ _ _ _ _ _ _ Hc Hsc Hi Hz) as Hc'.
  rewrite zst_assigned in Hc' by done. split; [done| |].
  - replace 0 with (o + Z.b2z (open_state (zst z)) - Z.b2z (open_state s)) at 1 by lia.
    replace 0 with (a + Z.b2z (active_state (zst z)) - Z.b2z (active_state s)) by lia. done.
  - destruct Hsc. by eapply geometry_update.
Qed.

Lemma open_cnt_pos (a : list NvmeZone) i z :
  a !! i = Some z → open_state (zst z) = true → 0 < open_cnt a.
Proof. intros Hi Hz. by eapply countb_pos. Qed.
Lemma active_cnt_pos (a : list NvmeZone) i z :
  a !! i = Some z → active_state (zst z) = true → 0 < active_cnt a.
Proof. intros Hi Hz. by eapply countb_pos. Qed.
Lemma open_lt_active (a : list NvmeZone) i z :
  a !! i = Some z → open_state (zst z) = false → active_state (zst z) = true →
  open_cnt a < active_cnt a.
Proof.
  intros Hi Ho Ha. eapply countb_mono_strict; [|done|done|done].
  intros x. apply open_active_state.
Qed.

(** ** The inside of a handler

    [mid i z o a n0 n]: a handler that started on zone [i] in [n0] has reached [n]; the
    zone is [z] now, still on its list, and the counters have the surplus [o], [a]. *)
Record mid (i : nat) (z : NvmeZone) (o a : Z) (n0 n : FemuCtrl) : Prop := {
  mid_lists : lists_inv None n;
  mid_counters : counters o a n;
  mid_geometry : geometry n;
  mid_zone : zone_array n !! i = Some z;
  mid_zones : zone_array n = <[i := z]> (zone_array n0);
  mid_rest : same_rest n0 n;
  mid_list l : list_of l n = list_of l n0
}.

Lemma mid_start i z n : zns_inv n → zone_array n !! i = Some z → mid i z 0 0 n n.
Proof.
  intros [] Hi. split; auto with zns. symmetry. by apply list_insert_id.
Qed.

Lemma mid_same_zones i z o a o' a' n0 n n' :
  mid i z o a n0 n → same_zones n n' → counters o' a' n' → mid i z o' a' n0 n'.
Proof.
  intros [] Hs Hc. split; [by eapply lists_inv_same_zones|done|by eapply geometry_same_zones
    |by rewrite (sz_zones _ _ Hs)|by rewrite (sz_zones _ _ Hs)
    |eapply same_rest_trans; eauto with zns|]. intros l. by rewrite (sz_lists _ _ Hs).
Qed.

Section mid_rules.
Context {B : Type} (i : nat) (z : NvmeZone) (n0 n : FemuCtrl) (Q : B → FemuCtrl → Prop).

Lemma mid_dec_open o a (k : ST FemuCtrl B) :
  mid i z o a n0 n → open_state (zst z) = true → 0 ≤ o →
  (∀ n', mid i z (o - 1) a n0 n' → wp k Q n') → wp (zns_aor_dec_open;; k) Q n.
Proof.
  intros Hm Hz Ho Hk. pose proof (open_cnt_pos _ _ _ (mid_zone _ _ _ _ _ _ Hm) Hz).
  eapply wp_seq; [eapply wp_dec_open; [by apply Hm|lia]|].
  intros _ n' [? ?]. eapply Hk, mid_same_zones; done.
Qed.

Lemma mid_dec_active o (k : ST FemuCtrl B) :
  mid i z o 0 n0 n → active_state (zst z) = true → o = - Z.b2z (open_state (zst z)) →
  (∀ n', mid i z o (-1) n0 n' → wp k Q n') → wp (zns_aor_dec_active;; k) Q n.
Proof.
  intros Hm Hz Ho Hk. pose proof (mid_zone _ _ _ _ _ _ Hm) as Hi.
  pose proof (active_cnt_pos _ _ _ Hi Hz).
  assert (open_cnt (zone_array n) + o < active_cnt (zone_array n) + 0).
  { destruct (open_state (zst z)) eqn:Hoz.
    - pose proof (open_le_active (zone_array n)). simpl in Ho. lia.
    - pose proof (open_lt_active _ _ _ Hi Hoz Hz). simpl in Ho. lia. }
  eapply wp_seq; [eapply wp_dec_active; [by apply Hm|lia|done]|].
  intros _ n' [? ?]. eapply Hk, mid_same_zones; done.
Qed.

Lemma mid_inc_open o a (k : ST FemuCtrl B) :
  mid i z o a n0 n → 0 ≤ o →
  (max_open_zones (params n) ≠ 0 → nr_open_zones n + 1 ≤ max_open_zones (params n)) →
  (∀ n', mid i z (o + 1) a n0 n' → wp k Q n') → wp (zns_aor_inc_open;; k) Q n.
Proof.
  intros Hm Ho Hlim Hk. pose proof (countb_nonneg (λ z, open_state (zst z)) (zone_array n)).
  eapply wp_seq; [eapply wp_inc_open; [by apply Hm|unfold open_cnt; lia|done]|].
  intros _ n' [? ?]. eapply Hk, mid_same_zones; done.
Qed.

Lemma mid_inc_active o a (k : ST FemuCtrl B) :
  mid i z o a n0 n → 0 ≤ a →
  (max_active_zones (params n) ≠ 0 → nr_active_zones n + 1 ≤ max_active_zones (params n)) →
  (∀ n', mid i z o (a + 1) n0 n' → nr_open_zones n' = nr_open_zones n → wp k Q n') →
  wp (zns_aor_inc_active;; k) Q n.
Proof.
  intros Hm Ho Hlim Hk. pose proof (countb_nonneg (λ z, active_state (zst z)) (zone_array n)).
  eapply wp_seq.
  { eapply wp_conj; [eapply wp_inc_active; [by apply Hm|unfold active_cnt; lia|done]|].
    instantiate (1 := λ _ n', nr_open_zones n' = nr_open_zones n). simpl.
    unfold zns_aor_inc_active. pose proof (mid_counters _ _ _ _ _ _ Hm) as [_ _ H1 H2].
    destruct (decide (max_active_zones (params n) = 0)) as [E|E];
      [specialize (H1 E)|destruct (H2 E); specialize (Hlim E)];
      repeat wp_step; simpl; try done; unfold active_cnt in *; lia. }
  intros _ n' [[? ?] ?]. eapply Hk; [|done]. eapply mid_same_zones; done.
Qed.

Lemma mid_update o a f (k : ST FemuCtrl B) :
  mid i z o a n0 n → zst (f z) = zst z → entry_used (f z) = entry_used z →
  same_place z (f z) → (∀ n', mid i (f z) o a n0 n' → wp k Q n') →
  wp (zone_update i f;; k) Q n.
Proof.
  intros Hm Hz He Hp Hk. pose proof (mid_zone _ _ _ _ _ _ Hm) as Hi.
  wp_step. eapply wp_zone_update; [done|]. apply Hk. destruct Hm. split; try done.
  - by eapply lists_inv_update.
  - pose proof (counters_update o a n (set_zone_array (<[i:=f z]> (zone_array n)) n) i z (f z)
      mid_counters0 (same_ctl_set_zone_array _ _) Hi eq_refl) as Hc.
    rewrite Hz, !Z.add_simpl_r in Hc. done.
  - by eapply geometry_update.
  - simpl. apply list_lookup_insert_eq. by eapply lookup_lt_Some.
  - simpl. by rewrite mid_zones0, list_insert_insert_eq.
  - eapply same_rest_trans; eauto with zns.
Qed.

(** The assignment that ends the change. *)
Lemma mid_assign o a s (k : ST FemuCtrl B) :
  mid i z o a n0 n → zone_state_ok s = true →
  o + Z.b2z (open_state (zst z)) = Z.b2z (open_state s) →
  a + Z.b2z (active_state (zst z)) = Z.b2z (active_state s) →
  (∀ n', op_result i (Some (assigned s z)) n0 n' → wp k Q n') →
  wp (zns_assign_zone_state i s;; k) Q n.
Proof.
  intros Hm Hs Ho Ha Hk. eapply wp_seq.
  { eapply wp_assign_inv with (X := None); [apply Hm|by left|apply Hm|apply Hm|apply Hm|done..]. }
  intros _ n' (Hinv & Hr & Hz & Hl). apply Hk. split_and!; [done| | |].
  - eapply same_rest_trans; [apply Hm|done].
  - by rewrite Hz, (mid_zones _ _ _ _ _ _ Hm), list_insert_insert_eq.
  - intros l. by rewrite Hl, (mid_list _ _ _ _ _ _ Hm), zst_assigned.
Qed.
End mid_rules.

Lemma mid_assign_tail i z n0 n (Q : unit → FemuCtrl → Prop) o a s :
  mid i z o a n0 n → zone_state_ok s = true →
  o + Z.b2z (open_state (zst z)) = Z.b2z (open_state s) →
  a + Z.b2z (active_state (zst z)) = Z.b2z (active_state s) →
  (∀ n', op_result i (Some (assigned s z)) n0 n' → Q tt n') →
  wp (zns_assign_zone_state i s) Q n.
Proof.
  intros Hm Hs Ho Ha Hk.
  assert (wp (zns_assign_zone_state i s;; ret tt) Q n) as H.
  { eapply mid_assign; [done..|]. intros n' Hn'. wp_step. auto. }
  apply wp_bind_inv in H. eapply wp_mono; [exact H|]. by intros [] n'.
Qed.

(** A handler that changes nothing. *)
Lemma op_result_none i n : zns_inv n → op_result i None n n.
Proof. intros. split_and!; auto with zns. Qed.

(** The shape of the handler specifications. *)
Definition op_spec (h : op_handler_t) (f : FemuCtrl → NvmeZone → NvmeStatus * option NvmeZone) :
    Prop :=
  ∀ i z n, zns_inv n → zone_array n !! i = Some z →
  wp (h i (zst z)) (λ st n', st = fst (f n z) ∧ op_result i (snd (f n z)) n n') n.

End handlers.

(** A side condition on the state of a zone that differs from [z] elsewhere only. *)
Ltac zst_side Hz :=
  lazymatch type of Hz with
  | zns_get_zone_state ?z = _ =>
      lazymatch goal with
      | |- context [zns_get_zone_state ?y] =>
          change (zns_get_zone_state y) with (zns_get_zone_state z); by rewrite Hz
      end
  end.

(** Steps of a handler on a zone whose state is known. *)
Ltac op_step Hm Hz :=
  lazymatch goal with
  | |- wp (bind zns_aor_dec_open _) _ _ =>
      eapply mid_dec_open; [exact Hm|by rewrite Hz|lia|]; clear Hm; intros ? Hm
  | |- wp (bind zns_aor_dec_active _) _ _ =>
      eapply mid_dec_active; [exact Hm|by rewrite Hz|by rewrite Hz|]; clear Hm; intros ? Hm
  | |- wp (bind (zone_update _ _) _) _ _ =>
      eapply mid_update; [exact Hm|done|done|done|]; clear Hm; intros ? Hm
  | |- wp (bind (zns_assign_zone_state _ _) _) _ _ =>
      eapply mid_assign; [exact Hm|done|zst_side Hz|zst_side Hz|]; clear Hm; intros ? Hm
  | |- wp (zns_assign_zone_state _ _) _ _ =>
      eapply mid_assign_tail; [exact Hm|done|zst_side Hz|zst_side Hz|]; clear Hm; intros ? Hm
  | |- wp (ret _) _ _ => wp_step; split; [done|try exact Hm]
  end.

Section handler_specs.
Context {T : TailQ} {TOk : TailQOk T} {F : Femu}.
Implicit Types (n : FemuCtrl) (zone i : nat) (z : NvmeZone) (l : zone_list).

Notation zst := zns_get_zone_state.

(** ** Close *)

Definition close_result (z : NvmeZone) : NvmeStatus * option NvmeZone :=
  match zst z with
  | NVME_ZONE_STATE_EXPLICITLY_OPEN | NVME_ZONE_STATE_IMPLICITLY_OPEN =>
      (SUCCESS, Some (assigned NVME_ZONE_STATE_CLOSED z))
  | NVME_ZONE_STATE_CLOSED => (SUCCESS, None)
  | _ => (status_of NVME_ZONE_INVAL_TRANSITION, None)
  end.

Lemma wp_close_zone : op_spec zns_close_zone (λ _, close_result).
Proof.
  intros i z n Hinv Hi. pose proof (mid_start _ _ _ Hinv Hi) as Hm.
  unfold zns_close_zone, close_result.
  destruct (zst z) eqn:Hz; try (wp_step; split; [done|by apply op_result_none]);
    repeat op_step Hm Hz.
Qed.

(** ** Finish *)

Definition filled (z : NvmeZone) : NvmeZone :=
  zone_set_wp (zns_zone_wr_boundary z) (zone_set_w_ptr (zns_zone_wr_boundary z) z).

Definition finish_result (z : NvmeZone) : NvmeStatus * option NvmeZone :=
  match zst z with
  | NVME_ZONE_STATE_EXPLICITLY_OPEN | NVME_ZONE_STATE_IMPLICITLY_OPEN
  | NVME_ZONE_STATE_CLOSED | NVME_ZONE_STATE_EMPTY =>
      (SUCCESS, Some (assigned NVME_ZONE_STATE_FULL (filled z)))
  | NVME_ZONE_STATE_FULL => (SUCCESS, None)
  | _ => (status_of NVME_ZONE_INVAL_TRANSITION, None)
  end.

Lemma wp_finish_zone : op_spec zns_finish_zone (λ _, finish_result).
Proof.
  intros i z n Hinv Hi. pose proof (mid_start _ _ _ Hinv Hi) as Hm.
  unfold zns_finish_zone, finish_result.
  destruct (zst z) eqn:Hz; try (wp_step; split; [done|by apply op_result_none]);
    repeat op_step Hm Hz.
Qed.

(** ** Reset *)

Definition emptied (z : NvmeZone) : NvmeZone :=
  zone_set_wp (zslba (d z)) (zone_set_w_ptr (zslba (d z)) z).

Definition reset_result (z : NvmeZone) : NvmeStatus * option NvmeZone :=
  match zst z with
  | NVME_ZONE_STATE_EMPTY => (SUCCESS, None)
  | NVME_ZONE_STATE_EXPLICITLY_OPEN | NVME_ZONE_STATE_IMPLICITLY_OPEN
  | NVME_ZONE_STATE_CLOSED | NVME_ZONE_STATE_FULL =>
      (SUCCESS, Some (assigned NVME_ZONE_STATE_EMPTY (emptied z)))
  | _ => (status_of NVME_ZONE_INVAL_TRANSITION, None)
  end.

Lemma wp_reset_cb i z n :
  zns_inv n → zone_array n !! i = Some z → listed_state (zst z) = true →
  wp (zns_aio_zone_reset_cb i) (λ _ n',
    op_result i (Some (assigned NVME_ZONE_STATE_EMPTY (emptied z))) n n') n.
Proof.
  intros Hinv Hi Hl. pose proof (mid_start _ _ _ Hinv Hi) as Hm.
  unfold zns_aio_zone_reset_cb. wp_step. eapply wp_zone_at; [done|].
  destruct (zst z) eqn:Hz; try done; repeat op_step Hm Hz; exact Hm.
Qed.

Lemma wp_reset_zone : op_spec zns_reset_zone (λ _, reset_result).
Proof.
  intros i z n Hinv Hi. unfold zns_reset_zone, reset_result.
  destruct (zst z) eqn:Hz; try (wp_step; split; [done|by apply op_result_none]);
    (eapply wp_seq; [eapply wp_reset_cb; [done|done|by rewrite Hz]|];
     intros [] n' Hn'; by wp_step).
Qed.

(** ** Offline *)

Definition offline_result (z : NvmeZone) : NvmeStatus * option NvmeZone :=
  match zst z with
  | NVME_ZONE_STATE_READ_ONLY => (SUCCESS, Some (assigned NVME_ZONE_STATE_OFFLINE z))
  | NVME_ZONE_STATE_OFFLINE => (SUCCESS, None)
  | _ => (status_of NVME_ZONE_INVAL_TRANSITION, None)
  end.

Lemma wp_offline_zone : op_spec zns_offline_zone (λ _, offline_result).
Proof.
  intros i z n Hinv Hi. pose proof (mid_start _ _ _ Hinv Hi) as Hm.
  unfold zns_offline_zone, offline_result.
  destruct (zst z) eqn:Hz; try (wp_step; split; [done|by apply op_result_none]);
    repeat op_step Hm Hz.
Qed.

(** ** The limits on open and active zones *)

Lemma failed_SUCCESS : failed SUCCESS = false.
Proof. done. Qed.
Lemma not_failed s : failed s = false → s = SUCCESS.
Proof. unfold failed. intros H. apply negb_false_iff in H. by apply bool_decide_eq_true in H. Qed.

Lemma aor_check_failed n act opn :
  failed (zns_aor_check n act opn) =
  (negb (max_active_zones (params n) =? 0) &&
     (max_active_zones (params n) <? nr_active_zones n + act)) ||
  (negb (max_open_zones (params n) =? 0) &&
     (max_open_zones (params n) <? nr_open_zones n + opn)).
Proof.
  unfold zns_aor_check. destruct (_ && _) eqn:E1; [done|].
  by destruct (negb (max_open_zones (params n) =? 0) && _) eqn:E2.
Qed.

Lemma aor_check_ok n act opn :
  failed (zns_aor_check n act opn) = false ↔
  (max_active_zones (params n) ≠ 0 → nr_active_zones n + act ≤ max_active_zones (params n)) ∧
  (max_open_zones (params n) ≠ 0 → nr_open_zones n + opn ≤ max_open_zones (params n)).
Proof. rewrite aor_check_failed. lia. Qed.

Lemma mid_none i z n0 n :
  zone_array n0 !! i = Some z → mid i z 0 0 n0 n → op_result i None n0 n.
Proof.
  intros Hi []. split_and!; [by split|done| |done].
  rewrite mid_zones0. by apply list_insert_id.
Qed.

(** ** Open *)

Definition open_result (n : FemuCtrl) (z : NvmeZone) : NvmeStatus * option NvmeZone :=
  let try_open (st : NvmeStatus) :=
    if failed st then (st, None)
    else (SUCCESS, Some (assigned NVME_ZONE_STATE_EXPLICITLY_OPEN z)) in
  match zst z with
  | NVME_ZONE_STATE_EMPTY => try_open (zns_aor_check n 1 1)
  | NVME_ZONE_STATE_CLOSED => try_open (zns_aor_check n 0 1)
  | NVME_ZONE_STATE_IMPLICITLY_OPEN =>
      (SUCCESS, Some (assigned NVME_ZONE_STATE_EXPLICITLY_OPEN z))
  | NVME_ZONE_STATE_EXPLICITLY_OPEN => (SUCCESS, None)
  | _ => (status_of NVME_ZONE_INVAL_TRANSITION, None)
  end.

Lemma wp_open_closed i z n :
  zns_inv n → zone_array n !! i = Some z → zst z = NVME_ZONE_STATE_CLOSED →
  wp (zns_open_zone i (zst z)) (λ st n',
    st = fst (open_result n z) ∧ op_result i (snd (open_result n z)) n n') n.
Proof.
  intros Hinv Hi Hz. pose proof (mid_start _ _ _ Hinv Hi) as Hm.
  unfold zns_open_zone, open_result. rewrite Hz. do 2 wp_step.
  destruct (failed (zns_aor_check n 0 1)) eqn:Hf.
  - do 2 wp_step; [done|]. wp_step. split; [done|]. by apply op_result_none.
  - apply aor_check_ok in Hf as [_ Hlim].
    eapply mid_inc_open; [exact Hm|done|done|]. clear Hm. intros n1 Hm.
    eapply mid_assign; [exact Hm|done|by rewrite Hz|by rewrite Hz|]. clear Hm. intros n2 Hm.
    by wp_step.
Qed.

Lemma wp_open_empty i z n :
  zns_inv n → zone_array n !! i = Some z → zst z = NVME_ZONE_STATE_EMPTY →
  wp (zns_open_zone i (zst z)) (λ st n',
    st = fst (open_result n z) ∧ op_result i (snd (open_result n z)) n n') n.
Proof.
  intros Hinv Hi Hz. pose proof (mid_start _ _ _ Hinv Hi) as Hm.
  pose proof (inv_counters _ Hinv) as [Hc1 Hc2 Hc3 Hc4].
  unfold zns_open_zone, open_result. rewrite Hz. do 2 wp_step.
  destruct (failed (zns_aor_check n 1 0)) eqn:Hf.
  { wp_step. rewrite aor_check_failed in Hf.
    assert (max_active_zones (params n) ≠ 0 ∧
            max_active_zones (params n) < nr_active_zones n + 1) as [E1 E2].
    { destruct (decide (max_open_zones (params n) = 0)) as [E|E]; [|destruct (Hc2 E)]; lia. }
    assert (zns_aor_check n 1 0 = zns_aor_check n 1 1) as ->.
    { unfold zns_aor_check. by destruct (_ && _) eqn:E; [|lia]. }
    rewrite aor_check_failed, (proj2 (orb_true_iff _ _)) by (left; lia).
    split; [done|]. by apply op_result_none. }
  apply aor_check_ok in Hf as [Hla _].
  eapply mid_inc_active; [exact Hm|lia|done|]. intros n1 Hm1 Ho1. do 2 wp_step.
  assert (zns_aor_check n1 0 1 = zns_aor_check n 1 1) as Hck.
  { unfold zns_aor_check. rewrite (sr_params _ _ (mid_rest _ _ _ _ _ _ Hm1)), Ho1.
    pose proof (mid_counters _ _ _ _ _ _ Hm1) as [_ _ _ H4].
    rewrite (sr_params _ _ (mid_rest _ _ _ _ _ _ Hm1)) in H4.
    destruct (decide (max_active_zones (params n) = 0)) as [E|E].
    - by rewrite E.
    - destruct (H4 E). specialize (Hla E).
      by rewrite (andb_false_intro2 _ (max_active_zones (params n) <? nr_active_zones n1 + 0)),
        (andb_false_intro2 _ (max_active_zones (params n) <? nr_active_zones n + 1)) by lia. }
  rewrite Hck. destruct (failed (zns_aor_check n 1 1)) eqn:Hf.
  - apply wp_bind, wp_when; [intros _|done].
    pose proof (open_le_active (zone_array n1)).
    pose proof (countb_nonneg (λ z, active_state (zst z)) (zone_array n1)).
    eapply wp_mono; [eapply wp_dec_active; [apply Hm1| |]; unfold active_cnt in *; lia|].
    intros _ n2 [Hc Hs]. wp_step. split; [done|]. eapply mid_none; [done|].
    by eapply mid_same_zones.
  - rewrite <-Hck in Hf. apply aor_check_ok in Hf as [_ Hlim].
    eapply mid_inc_open; [exact Hm1|done|done|]. intros n2 Hm2.
    eapply mid_assign; [exact Hm2|done|by rewrite Hz|by rewrite Hz|]. intros n3 Hm3.
    by wp_step.
Qed.

Lemma wp_open_zone : op_spec zns_open_zone open_result.
Proof.
  intros i z n Hinv Hi.
  destruct (decide (zst z = NVME_ZONE_STATE_EMPTY)); [by apply wp_open_empty|].
  destruct (decide (zst z = NVME_ZONE_STATE_CLOSED)); [by apply wp_open_closed|].
  pose proof (mid_start _ _ _ Hinv Hi) as Hm. unfold zns_open_zone, open_result.
  destruct (zst z) eqn:Hz; try done; try (wp_step; split; [done|by apply op_result_none]);
    repeat op_step Hm Hz.
Qed.

(** ** Set zone descriptor extension *)

Definition set_zd_ext_result (n : FemuCtrl) (z : NvmeZone) : NvmeStatus * option NvmeZone :=
  if decide (zst z = NVME_ZONE_STATE_EMPTY) then
    if failed (zns_aor_check n 1 0) then (zns_aor_check n 1 0, None)
    else (SUCCESS, Some (assigned NVME_ZONE_STATE_CLOSED
            (zone_set_za (Z.lor (za (d z)) NVME_ZA_ZD_EXT_VALID) z)))
  else (status_of NVME_ZONE_INVAL_TRANSITION, None).

Lemma wp_set_zd_ext i z n :
  zns_inv n → zone_array n !! i = Some z →
  wp (zns_set_zd_ext i) (λ st n',
    st = fst (set_zd_ext_result n z) ∧ op_result i (snd (set_zd_ext_result n z)) n n') n.
Proof.
  intros Hinv Hi. pose proof (mid_start _ _ _ Hinv Hi) as Hm.
  unfold zns_set_zd_ext, set_zd_ext_result. wp_step. eapply wp_zone_at; [done|].
  destruct (decide (zst z = NVME_ZONE_STATE_EMPTY)) as [Hz|Hz].
  2:{ rewrite bool_decide_eq_false_2 by done. wp_step. split; [done|]. by apply op_result_none. }
  rewrite bool_decide_eq_true_2 by done. do 2 wp_step.
  destruct (failed (zns_aor_check n 1 0)) eqn:Hf.
  { wp_step. split; [done|]. by apply op_result_none. }
  apply aor_check_ok in Hf as [Hla _].
  eapply mid_inc_active; [exact Hm|lia|done|]. intros n1 Hm1 _.
  eapply mid_update; [exact Hm1|done|done|done|]. intros n2 Hm2.
  eapply mid_assign; [exact Hm2|done|zst_side Hz|zst_side Hz|]. intros n3 Hm3. by wp_step.
Qed.
End handler_specs.
