(* ===== verification/ZnsBulk.v ===== *)
(** * Loops over the zone lists and the zone-management-send command

    QTAILQ_FOREACH_SAFE over a list while the body moves the current zone to another
    list visits exactly the zones the list held at the start; so the "all zones"
    variants of the management actions map a function over the zone array. *)

From stdpp Require Import base numbers option sets list list_numbers relations.
From S2P Require Import Prelude ZnsTypes ZnsOps ZnsInv ZnsHandlers.

Section bulk.
Context {T : TailQ} {TOk : TailQOk T} {F : Femu}.
Implicit Types (n : FemuCtrl) (zone i : nat) (z : NvmeZone) (l : zone_list).

Notation zst := zns_get_zone_state.

(** ** The loop rule *)

Lemma wp_foreach_safe {B} (I : list nat → B → FemuCtrl → Prop)
    (Q : B * bool → FemuCtrl → Prop) l (body : nat → B → ST FemuCtrl (B * bool)) :
  (∀ i rest b n, I (i :: rest) b n →
     NoDup (elems (list_of l n)) ∧ (∃ pre, elems (list_of l n) = pre ++ i :: rest) ∧
     wp (body i b) (λ r n', if snd r then Q r n' else I rest (fst r) n') n) →
  (∀ b n, I [] b n → Q (b, false) n) →
  ∀ fuel rem b n, (length rem ≤ fuel)%nat → I rem b n →
  wp (foreach_safe fuel l body (head rem) b) Q n.
Proof.
  intros Hstep Hend. induction fuel as [|fuel IH]; intros [|i rest] b n Hlen HI;
    simpl in Hlen; try lia; simpl; try (by wp_step; apply Hend).
  destruct (Hstep _ _ _ _ HI) as (Hnd & (pre & Hpre) & Hbody).
  do 2 wp_step. apply wp_bind, wp_assert.
  { apply bool_decide_eq_true. rewrite Hpre. set_solver. }
  rewrite (next_elems _ _ _ _ Hnd Hpre). eapply wp_seq; [exact Hbody|].
  intros [b' stop] n' Hn'. simpl in *. destruct stop; [by wp_step|]. apply IH; [lia|done].
Qed.

(** A list of distinct zone indices is not longer than the array. *)
Lemma list_length_le n l X :
  lists_inv X n → (length (elems (list_of l n)) ≤ length (zone_array n))%nat.
Proof.
  intros [Hnd Hm _ _]. rewrite <-(length_seq (length (zone_array n)) 0).
  apply submseteq_length, NoDup_submseteq; [apply Hnd|].
  intros i (_ & z & Hi & _)%Hm. apply elem_of_seq. apply lookup_lt_Some in Hi. lia.
Qed.

Lemma wp_foreach_zone {B} (I : list nat → B → FemuCtrl → Prop)
    (Q : B * bool → FemuCtrl → Prop) l (body : nat → B → ST FemuCtrl (B * bool)) b n :
  (∀ i rest b n, I (i :: rest) b n →
     NoDup (elems (list_of l n)) ∧ (∃ pre, elems (list_of l n) = pre ++ i :: rest) ∧
     wp (body i b) (λ r n', if snd r then Q r n' else I rest (fst r) n') n) →
  (∀ b n, I [] b n → Q (b, false) n) →
  lists_inv None n → I (elems (list_of l n)) b n → wp (foreach_zone l body b) Q n.
Proof.
  intros Hstep Hend Hinv HI. unfold foreach_zone. do 2 wp_step. rewrite first_elems.
  eapply wp_foreach_safe; [done|done| |done]. by eapply list_length_le.
Qed.

(** ** Processing one zone *)

(** The state changes a zone can make: the transitions of the zone state machine. *)
Inductive zone_trans : NvmeZoneState → NvmeZoneState → Prop :=
| ZT_implicit_open s :
    s = NVME_ZONE_STATE_EMPTY ∨ s = NVME_ZONE_STATE_CLOSED →
    zone_trans s NVME_ZONE_STATE_IMPLICITLY_OPEN
| ZT_explicit_open s :
    s = NVME_ZONE_STATE_EMPTY ∨ s = NVME_ZONE_STATE_CLOSED ∨
    s = NVME_ZONE_STATE_IMPLICITLY_OPEN →
    zone_trans s NVME_ZONE_STATE_EXPLICITLY_OPEN
| ZT_close s : open_state s = true → zone_trans s NVME_ZONE_STATE_CLOSED
| ZT_extension : zone_trans NVME_ZONE_STATE_EMPTY NVME_ZONE_STATE_CLOSED
| ZT_fill s :
    s = NVME_ZONE_STATE_EMPTY ∨ active_state s = true → zone_trans s NVME_ZONE_STATE_FULL
| ZT_empty s : listed_state s = true → zone_trans s NVME_ZONE_STATE_EMPTY
| ZT_offline : zone_trans NVME_ZONE_STATE_READ_ONLY NVME_ZONE_STATE_OFFLINE.

Lemma zone_trans_leaves s s' l :
  zone_trans s s' → state_list s = Some l → state_list s' ≠ Some l.
Proof.
  intros [s0 H|s0 H|s0 H| |s0 H|s0 H|]; try destruct s0; destruct l; try done;
    destruct_or?; done.
Qed.

(** Every zone has gone through such transitions, or none. *)
Definition evolves (a a' : list NvmeZone) : Prop :=
  Forall2 (λ z z', rtc zone_trans (zst z) (zst z')) a a'.

Lemma evolves_refl a : evolves a a.
Proof. apply Forall_Forall2_diag, Forall_true. by intros. Qed.
Lemma evolves_trans a1 a2 a3 : evolves a1 a2 → evolves a2 a3 → evolves a1 a3.
Proof.
  intros H1. revert a3. induction H1; intros a3 H2; inversion H2; subst; constructor.
  - by etrans.
  - by apply IHForall2.
Qed.
Lemma evolves_insert a i z z' :
  a !! i = Some z → rtc zone_trans (zst z) (zst z') → evolves a (<[i := z']> a).
Proof. intros Hi Hz. by eapply Forall2_update. Qed.

Definition leaves (f : FemuCtrl → NvmeZone → NvmeStatus * option NvmeZone) : Prop :=
  ∀ n z z', snd (f n z) = Some z' → zone_trans (zst z) (zst z').

Definition bulk_result (mask : Z) (f : FemuCtrl → NvmeZone → NvmeStatus * option NvmeZone)
    (n : FemuCtrl) (z : NvmeZone) : NvmeStatus * option NvmeZone :=
  if proc_zone mask (zst z) then f n z else (SUCCESS, None).

Lemma wp_bulk_proc mask h f i z n :
  op_spec h f → zns_inv n → zone_array n !! i = Some z →
  wp (zns_bulk_proc_zone i mask h) (λ st n',
    st = fst (bulk_result mask f n z) ∧ op_result i (snd (bulk_result mask f n z)) n n') n.
Proof.
  intros Hh Hinv Hi. unfold zns_bulk_proc_zone, bulk_result. wp_step.
  eapply wp_zone_at; [done|]. destruct (proc_zone _ _); [by apply Hh|].
  wp_step. split; [done|]. by apply op_result_none.
Qed.

(** How an [op_result] changes the list the zone was on. *)
Lemma op_result_list i r n n' l pre rest z :
  op_result i r n n' → zns_inv n → zone_array n !! i = Some z →
  elems (list_of l n) = pre ++ i :: rest →
  (∀ z', r = Some z' → zone_trans (zst z) (zst z')) →
  ∃ pre', elems (list_of l n') = pre' ++ rest ∧ (is_Some r → pre' = pre).
Proof.
  intros (Hinv' & Hr & Hres) Hinv Hi Hl Hleave.
  pose proof (inv_lists _ Hinv) as [Hnd Hm _ _].
  destruct r as [z'|].
  - destruct Hres as [_ Hmv]. exists pre. split; [|done]. rewrite Hmv, Hl, lrm_mid.
    + rewrite decide_False; [by rewrite app_nil_r|].
      intros Heq. apply (zone_trans_leaves _ _ l (Hleave z' eq_refl)); [|done].
      assert (i ∈ elems (list_of l n)) as (_ & z0 & H0 & H1)%Hm by (rewrite Hl; set_solver).
      congruence.
    + rewrite <-Hl. apply Hnd.
  - destruct Hres as [_ Hls]. exists (pre ++ [i]). rewrite Hls, Hl, <-app_assoc.
    split; [done|]. by intros [? ?].
Qed.

Lemma in_list_zone n l i :
  lists_inv None n → i ∈ elems (list_of l n) →
  ∃ z, zone_array n !! i = Some z ∧ state_list (zst z) = Some l.
Proof. intros Hinv Hi. by apply (li_mem _ _ Hinv) in Hi as [_ ?]. Qed.

(** ** Bulk operations keep the invariant *)

Record kept (n n' : FemuCtrl) : Prop := {
  kp_inv : zns_inv n';
  kp_rest : same_rest n n';
  kp_zones : evolves (zone_array n) (zone_array n')
}.

Lemma kept_refl n : zns_inv n → kept n n.
Proof. split; auto using same_rest_refl, evolves_refl. Qed.
Lemma kept_trans n1 n2 n3 : kept n1 n2 → kept n2 n3 → kept n1 n3.
Proof. intros [] []. split; [done|by eapply same_rest_trans|by eapply evolves_trans]. Qed.

Lemma op_result_kept i r z n n' :
  op_result i r n n' → zone_array n !! i = Some z →
  (∀ z', r = Some z' → zone_trans (zst z) (zst z')) → kept n n'.
Proof.
  intros (? & ? & Hres) Hi Ht. split; [done|done|]. destruct r as [z'|]; destruct Hres as [-> _].
  - eapply evolves_insert; [done|]. by apply rtc_once, Ht.
  - apply evolves_refl.
Qed.

Lemma bulk_leaves mask f n z z' :
  leaves f → snd (bulk_result mask f n z) = Some z' → zone_trans (zst z) (zst z').
Proof. intros Hl. unfold bulk_result. destruct (proc_zone _ _); [apply Hl|done]. Qed.

Lemma wp_bulk_list_safe mask h f l st n :
  op_spec h f → leaves f → zns_inv n →
  wp (bulk_list l mask h st) (λ _ n', kept n n') n.
Proof.
  intros Hh Hleave Hinv. unfold bulk_list.
  apply wp_foreach_zone with (I := λ rem _ n', kept n n' ∧
    ∃ pre, elems (list_of l n') = pre ++ rem).
  - intros i rest _ n1 [Hk1 (pre & Hpre)]. pose proof (kp_inv _ _ Hk1) as Hi1.
    split_and!; [apply Hi1|by eauto|].
    destruct (in_list_zone n1 l i) as (z & Hz & Hzl); [apply Hi1|rewrite Hpre; set_solver|].
    eapply wp_seq; [by eapply wp_bulk_proc|]. intros st' n2 [-> Hres]. wp_step. simpl.
    pose proof (λ z', bulk_leaves mask f n1 z z' Hleave) as Hb.
    assert (kept n n2) as Hk by (eapply kept_trans; [done|by eapply op_result_kept]).
    destruct (stops _); [done|]. split; [done|].
    destruct (op_result_list _ _ _ _ _ _ _ _ Hres Hi1 Hz Hpre Hb) as (pre' & Hp & _). by eauto.
  - by intros ? ? [? _].
  - apply Hinv.
  - split; [by apply kept_refl|]. by exists [].
Qed.

Lemma wp_bulk_array_safe mask h f st k zone n :
  op_spec h f → leaves f → zns_inv n → (zone + k ≤ length (zone_array n))%nat →
  wp (bulk_array k zone mask h st) (λ _ n', kept n n') n.
Proof.
  intros Hh Hleave. revert zone st n. induction k as [|k IH]; intros zone st n Hinv Hlen; simpl.
  { wp_step. by apply kept_refl. }
  destruct (lookup_lt_is_Some_2 (zone_array n) zone) as [z Hz]; [lia|].
  eapply wp_seq; [by eapply wp_bulk_proc|]. intros st' n2 [-> Hres].
  pose proof (λ z', bulk_leaves mask f n z z' Hleave) as Hb.
  assert (kept n n2) as Hk by by eapply op_result_kept.
  pose proof (Forall2_length _ _ _ (kp_zones _ _ Hk)).
  destruct (stops _); [by wp_step|]. eapply wp_mono; [apply IH; [apply Hk|lia]|].
  intros ? n3 ?. by eapply kept_trans.
Qed.

(** ** Bulk operations that never fail map over the zones *)

Definition on_list (l : zone_list) (g : NvmeZone → NvmeZone) (z : NvmeZone) : NvmeZone :=
  if decide (state_list (zst z) = Some l) then g z else z.

(** The array half way: [g] on the zones that are not in [rem] any more. *)
Definition pending (g : NvmeZone → NvmeZone) (rem : list nat) (a : list NvmeZone) : list NvmeZone :=
  imap (λ i z, if decide (i ∈ rem) then z else g z) a.

Lemma pending_lookup g rem a a' i z :
  a' = pending g rem a → i ∈ rem → a' !! i = Some z → a !! i = Some z.
Proof.
  intros -> Hi. unfold pending. rewrite list_lookup_imap.
  destruct (a !! i) as [z0|]; [|done]. simpl. by rewrite decide_True.
Qed.

Lemma pending_step g i rest a a' z :
  a' = pending g (i :: rest) a → i ∉ rest → a !! i = Some z →
  pending g rest a = <[i := g z]> a'.
Proof.
  intros -> Hi Hz. unfold pending. apply list_eq. intros j. rewrite list_lookup_imap.
  destruct (decide (i = j)) as [<-|Hne].
  - rewrite list_lookup_insert_eq by (rewrite length_imap; by eapply lookup_lt_Some).
    rewrite Hz. simpl. by rewrite decide_False.
  - rewrite list_lookup_insert_ne, list_lookup_imap by done.
    destruct (a !! j); [|done]. simpl. repeat case_decide; set_solver.
Qed.

Lemma pending_nil g a : pending g [] a = g <$> a.
Proof.
  unfold pending. apply list_eq. intros j. rewrite list_lookup_imap, list_lookup_fmap.
  by destruct (a !! j).
Qed.

Lemma pending_start g l n :
  lists_inv None n → zone_array n = pending (on_list l g) (elems (list_of l n)) (zone_array n).
Proof.
  intros [_ Hm _ _]. unfold pending. apply list_eq. intros j. rewrite list_lookup_imap.
  destruct (zone_array n !! j) as [z0|] eqn:Hj; [|done]. simpl. f_equal.
  case_decide as Hd; [done|]. unfold on_list. rewrite decide_False; [done|].
  intros Hl. apply Hd, Hm. eauto.
Qed.

Lemma wp_bulk_list_all mask h (f : NvmeZone → NvmeStatus * option NvmeZone) g l n :
  op_spec h (λ _, f) → zns_inv n →
  (∀ z, state_list (zst z) = Some l →
     proc_zone mask (zst z) = true ∧ f z = (SUCCESS, Some (g z)) ∧
     zone_trans (zst z) (zst (g z))) →
  wp (bulk_list l mask h SUCCESS) (λ r n',
    r = (SUCCESS, false) ∧ kept n n' ∧ zone_array n' = on_list l g <$> zone_array n) n.
Proof.
  intros Hh Hinv Hall. unfold bulk_list. pose proof (inv_lists _ Hinv) as Hl0.
  set (L := elems (list_of l n)).
  apply wp_foreach_zone with (I := λ rem st n', st = SUCCESS ∧ kept n n' ∧
    elems (list_of l n') = rem ∧ (∀ i, i ∈ rem → i ∈ L) ∧
    zone_array n' = pending (on_list l g) rem (zone_array n)).
  - intros i rest st n1 (-> & Hk1 & Hel & Hsub & Hza). pose proof (kp_inv _ _ Hk1) as Hi1.
    split_and!; [apply Hi1|by exists []|].
    destruct (in_list_zone n1 l i) as (z & Hz & Hzl); [apply Hi1|rewrite Hel; set_solver|].
    destruct (Hall z Hzl) as (Hp & Hf & Hg).
    eapply wp_seq; [by eapply wp_bulk_proc|]. unfold bulk_result. rewrite Hp, Hf. simpl.
    intros st' n2 [-> Hres]. wp_step. simpl. split_and!; [done| | | |].
    + eapply kept_trans; [done|]. eapply op_result_kept; [done|done|]. by intros z' [= <-].
    + destruct (op_result_list i _ n1 n2 l [] rest z Hres Hi1 Hz Hel) as (pre & Hpre & He).
      { by intros z' [= <-]. }
      rewrite Hpre, He by done. done.
    + set_solver.
    + destruct Hres as (_ & _ & -> & _). pose proof (li_nodup _ _ (inv_lists _ Hi1) l) as Hnd1.
      rewrite Hel in Hnd1. apply NoDup_cons in Hnd1 as [Hni _].
      pose proof (pending_lookup _ _ _ _ _ _ Hza ltac:(by left) Hz) as Hz0.
      rewrite (pending_step _ _ _ _ _ _ Hza Hni Hz0). unfold on_list.
      by rewrite decide_True.
  - intros st n1 (-> & Hk & _ & _ & Hza). split_and!; [done|done|].
    by rewrite Hza, pending_nil.
  - apply Hinv.
  - split_and!; [done|by apply kept_refl|done|done|]. by apply pending_start.
Qed.
End bulk.

(** A transition between two known states. *)
Ltac solve_trans :=
  first [ by apply ZT_offline | by apply ZT_extension | by apply ZT_close | by apply ZT_empty
        | apply ZT_fill; by auto | apply ZT_implicit_open; by auto
        | apply ZT_explicit_open; by auto ].
