(* ===== verification/ZnsSend.v ===== *)
(** * The zone-management-send command

    [zns_do_zone_op], [zns_get_mgmt_zone_slba_idx] and [zns_zone_mgmt_send]: every
    action keeps the invariant; the single-zone actions have the effect of their
    handler and the all-zones actions map it over the array. *)

From stdpp Require Import base numbers option sets list list_numbers relations.
From S2P Require Import Prelude ZnsTypes ZnsOps ZnsInv ZnsHandlers ZnsBulk.

Section send.
Context {T : TailQ} {TOk : TailQOk T} {F : Femu}.
Implicit Types (n : FemuCtrl) (zone i : nat) (z : NvmeZone) (l : zone_list).

Notation zst := zns_get_zone_state.

(** The command being served does not matter to the invariant. *)
Lemma zns_inv_set_cur_req r n : zns_inv n → zns_inv (set_cur_req r n).
Proof. intros [[] [] []]. by split; split. Qed.
Lemma zns_inv_set_world w n : zns_inv n → zns_inv (set_world w n).
Proof. intros [[] [] []]. by split; split. Qed.

(** ** The handlers move the zone to another list *)

Ltac solve_leaves z :=
  destruct (zns_get_zone_state z) eqn:?; try destruct (failed _); cbn [snd]; intros;
  simplify_eq; rewrite ?zst_assigned by done; solve_trans.

Lemma leaves_close : leaves (λ _, close_result).
Proof. intros n z z'. unfold close_result. solve_leaves z. Qed.
Lemma leaves_finish : leaves (λ _, finish_result).
Proof. intros n z z'. unfold finish_result. solve_leaves z. Qed.
Lemma leaves_reset : leaves (λ _, reset_result).
Proof. intros n z z'. unfold reset_result. solve_leaves z. Qed.
Lemma leaves_offline : leaves (λ _, offline_result).
Proof. intros n z z'. unfold offline_result. solve_leaves z. Qed.
Lemma leaves_open : leaves open_result.
Proof. intros n z z'. unfold open_result. solve_leaves z. Qed.

(** ** [zns_do_zone_op] *)

Lemma wp_do_zone_op_current h f i z n :
  op_spec h f → zns_inv n → zone_array n !! i = Some z →
  wp (zns_do_zone_op i NVME_PROC_CURRENT_ZONE h) (λ st n',
    st = fst (f n z) ∧ op_result i (snd (f n z)) n n') n.
Proof.
  intros Hh Hinv Hi. unfold zns_do_zone_op. do 2 wp_step. simpl.
  wp_step. eapply wp_zone_at; [done|]. by apply Hh.
Qed.

Section kept_rules.
Context {A B : Type} (n0 n : FemuCtrl) (c : ST FemuCtrl A) (k : A → ST FemuCtrl B).

Lemma wp_kept : kept n0 n → wp c (λ _ n', kept n n') n → wp c (λ _ n', kept n0 n') n.
Proof. intros H0 Hc. eapply wp_mono; [exact Hc|]. intros ? n' ?. by eapply kept_trans. Qed.

Lemma wp_seq_kept (Q : B → FemuCtrl → Prop) :
  kept n0 n → wp c (λ _ n', kept n n') n → (∀ a n', kept n0 n' → wp (k a) Q n') →
  wp (bind c k) Q n.
Proof.
  intros H0 Hc Hk. eapply wp_seq; [exact Hc|]. intros a n' ?. eapply Hk, kept_trans; done.
Qed.
End kept_rules.

(** A pass over one list, or none, before the rest of the operation. *)
Lemma wp_pass_safe (b : bool) h f l mask r n :
  op_spec h f → leaves f → zns_inv n →
  wp (and_then r (λ st, if b then bulk_list l mask h st else ret (st, false)))
    (λ _ n', kept n n') n.
Proof.
  intros Hh Hl Hinv. unfold and_then. destruct (snd r); [wp_step; auto using kept_refl|].
  destruct b; [|wp_step; auto using kept_refl]. by eapply wp_bulk_list_safe.
Qed.

Lemma wp_do_zone_op_safe h f i mask n :
  op_spec h f → leaves f → zns_inv n → (i < length (zone_array n))%nat →
  (has_mask mask NVME_PROC_READ_ONLY_ZONES = true →
     i = 0%nat ∧ mask = NVME_PROC_READ_ONLY_ZONES) →
  wp (zns_do_zone_op i mask h) (λ _ n', kept n n') n.
Proof.
  intros Hh Hl Hinv Hi Hro. destruct (lookup_lt_is_Some_2 _ _ Hi) as [z Hz].
  unfold zns_do_zone_op. do 2 wp_step. destruct (mask =? 0).
  { wp_step. eapply wp_zone_at; [done|]. eapply wp_mono; [by apply Hh|].
    intros ? n' [_ ?]. eapply op_result_kept; [done|done|apply Hl]. }
  eapply wp_seq_kept; [by apply kept_refl|exact (wp_pass_safe
    (has_mask mask NVME_PROC_CLOSED_ZONES) h f L_closed mask (SUCCESS, false) n Hh Hl Hinv)|].
  intros r1 n1 Hk1. eapply wp_seq_kept; [exact Hk1| |].
  { unfold and_then. destruct (snd r1); [wp_step; apply kept_refl, Hk1|].
    destruct (has_mask mask NVME_PROC_OPENED_ZONES); [|wp_step; apply kept_refl, Hk1].
    eapply wp_seq; [eapply wp_bulk_list_safe; [done|done|apply Hk1]|]. simpl.
    intros r2 n2 Hk2. destruct (snd r2); [by wp_step|].
    eapply wp_kept; [done|]. eapply wp_bulk_list_safe; [done|done|apply Hk2]. }
  intros r3 n3 Hk3. eapply wp_seq_kept; [exact Hk3| |].
  { apply (wp_pass_safe (has_mask mask NVME_PROC_FULL_ZONES) h f); [done..|apply Hk3]. }
  intros r4 n4 Hk4. eapply wp_seq_kept; [exact Hk4| |intros; by wp_step].
  unfold and_then. destruct (snd r4); [wp_step; apply kept_refl, Hk4|].
  destruct (has_mask mask NVME_PROC_READ_ONLY_ZONES); [|wp_step; apply kept_refl, Hk4].
  destruct Hro as [-> ->]; [done|]. wp_step. apply wp_assert; [done|].
  pose proof (ge_len _ (inv_geometry _ (kp_inv _ _ Hk4))) as Hlen.
  rewrite (sr_params _ _ (kp_rest _ _ Hk4)) in Hlen.
  eapply wp_bulk_array_safe; [done|done|apply Hk4|lia].
Qed.

(** ** All-zones operations as maps *)

(** The lists a mask selects. *)
Definition selects (mask : Z) (l : zone_list) : bool :=
  match l with
  | L_exp_open | L_imp_open => has_mask mask NVME_PROC_OPENED_ZONES
  | L_closed => has_mask mask NVME_PROC_CLOSED_ZONES
  | L_full => has_mask mask NVME_PROC_FULL_ZONES
  end.

(** [g] on the zones of the lists in [P]. *)
Definition on_lists (P : zone_list → bool) (g : NvmeZone → NvmeZone) (z : NvmeZone) : NvmeZone :=
  match state_list (zst z) with
  | Some l => if P l then g z else z
  | None => z
  end.

Definition add_list (b : bool) (l : zone_list) (P : zone_list → bool) (l' : zone_list) : bool :=
  P l' || b && bool_decide (l = l').

Section do_all.
Context (h : op_handler_t) (f : NvmeZone → NvmeStatus * option NvmeZone)
  (g : NvmeZone → NvmeZone) (mask : Z).
Context (Hspec : op_spec h (λ _, f)).
Context (Hall : ∀ z l, state_list (zst z) = Some l → selects mask l = true →
  f z = (SUCCESS, Some (g z)) ∧ zone_trans (zst z) (zst (g z)) ∧
  ∀ l', selects mask l' = true → state_list (zst (g z)) ≠ Some l').

Lemma on_lists_add (P : zone_list → bool) l (zs : list NvmeZone) :
  (∀ l', P l' = true → selects mask l' = true) → selects mask l = true →
  on_list l g <$> (on_lists P g <$> zs) = on_lists (add_list true l P) g <$> zs.
Proof.
  intros HP Hl. rewrite <-list_fmap_compose. apply list_fmap_ext. intros _ z _. simpl.
  unfold on_list, on_lists, add_list. destruct (state_list (zst z)) as [l1|] eqn:Hz.
  - destruct (P l1) eqn:Hp; simpl.
    + rewrite decide_False; [done|].
      destruct (Hall z l1) as (_ & _ & Hg); auto.
    + rewrite Hz. case_bool_decide; case_decide; congruence.
  - rewrite decide_False; congruence.
Qed.

Lemma add_list_selects (b : bool) l (P : zone_list → bool) :
  (∀ l', P l' = true → selects mask l' = true) → (b = true → selects mask l = true) →
  ∀ l', add_list b l P l' = true → selects mask l' = true.
Proof.
  intros HP Hb l'. unfold add_list. intros [?|[? H]%andb_true_iff]%orb_true_iff; [auto|].
  apply bool_decide_eq_true in H as <-. auto.
Qed.

Definition all_done (P : zone_list → bool) (n0 : FemuCtrl) (r : NvmeStatus * bool)
    (n : FemuCtrl) : Prop :=
  r = (SUCCESS, false) ∧ kept n0 n ∧ zone_array n = on_lists P g <$> zone_array n0.

Lemma wp_pass_all (P : zone_list → bool) l n0 r n (b : bool) :
  all_done P n0 r n → (∀ l', P l' = true → selects mask l' = true) →
  (b = true → selects mask l = true) →
  wp (and_then r (λ st, if b then bulk_list l mask h st else ret (st, false)))
    (all_done (add_list b l P) n0) n.
Proof.
  intros (-> & Hk & Hz) HP Hb. unfold and_then. simpl. destruct b.
  - eapply wp_mono; [eapply (wp_bulk_list_all mask h f g l); [done|apply Hk|]|].
    + intros z Hzl. destruct (Hall z l Hzl (Hb eq_refl)) as (Hf & Ht & _).
      split_and!; [|done|done]. specialize (Hb eq_refl).
      by destruct l, (zst z).
    + intros r n' (-> & Hk' & Hz'). split_and!; [done|by eapply kept_trans|].
      rewrite Hz', Hz. apply on_lists_add; auto.
  - wp_step. split_and!; [done|done|]. rewrite Hz. apply list_fmap_ext. intros _ z _.
    unfold on_lists, add_list. destruct (state_list (zst z)); [|done]. by rewrite orb_false_r.
Qed.

Lemma wp_pass_opened (P : zone_list → bool) n0 r n :
  all_done P n0 r n → (∀ l', P l' = true → selects mask l' = true) →
  wp (and_then r (λ st,
        if has_mask mask NVME_PROC_OPENED_ZONES
        then r <- bulk_list L_imp_open mask h st;; and_then r (bulk_list L_exp_open mask h)
        else ret (st, false)))
    (all_done (add_list (has_mask mask NVME_PROC_OPENED_ZONES) L_exp_open
      (add_list (has_mask mask NVME_PROC_OPENED_ZONES) L_imp_open P)) n0) n.
Proof.
  intros H0 HP. destruct (has_mask mask NVME_PROC_OPENED_ZONES) eqn:Hb.
  - pose proof H0 as (-> & _ & _). unfold and_then at 1. simpl.
    eapply wp_seq; [exact (wp_pass_all _ L_imp_open _ _ _ true H0 HP ltac:(done))|].
    intros r1 n1 H1. refine (wp_pass_all _ L_exp_open _ _ _ true H1 _ _); [|done].
    by apply add_list_selects.
  - eapply wp_mono; [exact (wp_pass_all _ L_exp_open _ _ _ false H0 HP ltac:(done))|].
    intros r1 n1 (-> & Hk & Hz). split_and!; [done|done|]. rewrite Hz.
    apply list_fmap_ext. intros _ z _. unfold on_lists, add_list.
    by destruct (state_list (zst z)); rewrite ?orb_false_r.
Qed.

Lemma wp_do_zone_op_all i n :
  zns_inv n → mask ≠ 0 → has_mask mask NVME_PROC_READ_ONLY_ZONES = false →
  wp (zns_do_zone_op i mask h) (λ st n',
    st = SUCCESS ∧ kept n n' ∧ zone_array n' = on_lists (selects mask) g <$> zone_array n) n.
Proof.
  intros Hinv Hm Hro. unfold zns_do_zone_op. do 2 wp_step.
  rewrite (proj2 (Z.eqb_neq mask 0) Hm).
  assert (all_done (λ _, false) n (SUCCESS, false) n) as H0.
  { split_and!; [done|by apply kept_refl|]. rewrite <-(list_fmap_id (zone_array n)) at 1.
    apply list_fmap_ext. intros _ z _. unfold on_lists. by destruct (state_list (zst z)). }
  eapply wp_seq; [exact (wp_pass_all _ L_closed _ _ _ (has_mask mask NVME_PROC_CLOSED_ZONES) H0
    ltac:(done) ltac:(done))|].
  assert (∀ l', add_list (has_mask mask NVME_PROC_CLOSED_ZONES) L_closed (λ _, false) l' = true →
    selects mask l' = true) as HP by by apply add_list_selects.
  intros r1 n1 H1. eapply wp_seq; [exact (wp_pass_opened _ _ _ _ H1 HP)|].
  intros r2 n2 H2. eapply wp_seq; [refine (wp_pass_all _ L_full _ _ _
    (has_mask mask NVME_PROC_FULL_ZONES) H2 _ ltac:(done)); by repeat apply add_list_selects|].
  intros r3 n3 (-> & Hk & Hz). unfold and_then. simpl. rewrite Hro. do 3 wp_step.
  split_and!; [done|done|]. rewrite Hz. apply list_fmap_ext. intros _ z _.
  unfold on_lists, add_list, selects. destruct (state_list (zst z)) as [[]|]; simpl;
    by rewrite ?andb_false_r, ?andb_true_r, ?orb_false_r.
Qed.
End do_all.

(** ** Decoding the command *)

Lemma zone_idx_div n slba :
  geometry n → 0 ≤ slba < nsze (ns n) →
  zns_zone_idx n slba = slba / zone_size (params n) ∧
  0 ≤ slba / zone_size (params n) < num_zones (params n).
Proof.
  intros [_ _ Hsz _ Hnum _ Hlog Hns _ _ _] Hs. rewrite Hns in Hs.
  assert (0 ≤ slba / zone_size (params n) < num_zones (params n)) as Hr.
  { split; [apply Z.div_pos; lia|apply Z.div_lt_upper_bound; nia]. }
  split; [|done]. unfold zns_zone_idx. destruct Hlog as [-> | [Hl0 Hl]].
  - apply u32_small. lia.
  - rewrite (proj2 (Z.ltb_lt 0 _) Hl0), Z.shiftr_div_pow2, <-Hl by lia. apply u32_small. lia.
Qed.

Lemma mgmt_slba_nonneg c : 0 ≤ mgmt_slba c.
Proof.
  unfold mgmt_slba. rewrite Z.lor_nonneg, Z.shiftl_nonneg.
  pose proof (u32_range (cdw11 c)). pose proof (u32_range (cdw10 c)). lia.
Qed.

Lemma wp_get_mgmt_zone_slba_idx c n (Q : NvmeStatus * Z * Z → FemuCtrl → Prop) :
  zns_inv n →
  Q (if nsze (ns n) <=? mgmt_slba c then (or_dnr (status_of NVME_LBA_RANGE), 0, 0)
     else (SUCCESS, mgmt_slba c, mgmt_slba c / zone_size (params n))) n →
  wp (zns_get_mgmt_zone_slba_idx c) Q n.
Proof.
  intros [_ _ Hg] HQ. unfold zns_get_mgmt_zone_slba_idx. do 2 wp_step.
  rewrite (ge_zoned _ Hg). simpl. destruct (nsze (ns n) <=? mgmt_slba c) eqn:Hs; [by wp_step|].
  pose proof (mgmt_slba_nonneg c). destruct (zone_idx_div n (mgmt_slba c) Hg) as [-> Hr]; [lia|].
  wp_step. apply wp_assert; [lia|]. by wp_step.
Qed.

(** The zone a starting LBA inside the namespace selects. *)
Lemma zone_lookup n slba :
  geometry n → 0 ≤ slba < nsze (ns n) →
  ∃ z, zone_array n !! Z.to_nat (slba / zone_size (params n)) = Some z.
Proof.
  intros Hg Hs. destruct (zone_idx_div n slba Hg Hs) as [_ Hr]. pose proof (ge_len _ Hg).
  apply lookup_lt_is_Some_2. lia.
Qed.

Lemma zone_of_start n i z :
  geometry n → zone_array n !! i = Some z →
  0 ≤ zslba (d z) < nsze (ns n) ∧ Z.to_nat (zslba (d z) / zone_size (params n)) = i.
Proof.
  intros Hg Hi. destruct (ge_zone _ Hg _ _ Hi) as [-> _]. pose proof (ge_size _ Hg).
  pose proof (ge_len _ Hg). apply lookup_lt_Some in Hi. rewrite (ge_nsze _ Hg).
  split; [nia|]. rewrite Z.div_mul by lia. lia.
Qed.

(** ** The command *)

(** What every command leaves alone. *)
Record stays (n n' : FemuCtrl) : Prop := {
  st_inv : zns_inv n';
  st_params : params n' = params n;
  st_ns : ns n' = ns n;
  st_id : id_ns_zoned n' = id_ns_zoned n;
  st_cmd : cmd (cur_req n') = cmd (cur_req n);
  st_zones : evolves (zone_array n) (zone_array n')
}.

Lemma stays_refl n : zns_inv n → stays n n.
Proof. split; auto using evolves_refl. Qed.
Lemma stays_trans n1 n2 n3 : stays n1 n2 → stays n2 n3 → stays n1 n3.
Proof. intros [] []. split; try congruence. by eapply evolves_trans. Qed.
Lemma kept_stays n n' : kept n n' → stays n n'.
Proof. intros [? [] ?]. split; congruence. Qed.

Lemma stays_set_req_status st n : zns_inv n → stays n (set_cur_req (req_set_status st (cur_req n)) n).
Proof. intros. split; auto using zns_inv_set_cur_req, evolves_refl. Qed.
Lemma stays_set_req_opaque x n : zns_inv n → stays n (set_cur_req (req_set_opaque x (cur_req n)) n).
Proof. intros. split; auto using zns_inv_set_cur_req, evolves_refl. Qed.

Lemma wp_stays {A} (c : ST FemuCtrl A) n n' :
  stays n n' → wp c (λ _, stays n') n' → wp c (λ _, stays n) n'.
Proof. intros Hs Hc. eapply wp_mono; [exact Hc|]. intros ? ? ?. by eapply stays_trans. Qed.

Lemma wp_stays_ret {A B} (c : ST FemuCtrl A) (g : A → B) n :
  wp c (λ _ n', kept n n') n → wp (a <- c;; ret (g a)) (λ _, stays n) n.
Proof. intros Hc. eapply wp_seq; [exact Hc|]. intros a n' ?. wp_step. by apply kept_stays. Qed.

(** Overwriting an extension keeps the size of the extension array. *)
Lemma zns_inv_set_zd_extensions bs n :
  zns_inv n → length bs = length (zd_extensions n) → zns_inv (set_zd_extensions bs n).
Proof.
  intros [[] [] Hg] Hlen. split; [by split..|].
  eapply geometry_zones; [done..|]. apply Forall2_same_place_refl.
Qed.

Lemma length_splice {A} off (bs l : list A) :
  (off + length bs ≤ length l)%nat → length (splice off bs l) = length l.
Proof.
  intros H. unfold splice. rewrite !length_app, length_take, length_drop. lia.
Qed.

(** The masks of the all-zones variants. *)
Definition send_mask (c : NvmeCmd) (m : Z) : Z := if send_all c then m else NVME_PROC_CURRENT_ZONE.

Section send_cmd.
Context (FOk : FemuOk F).

Lemma wp_send_zd_ext c i z n :
  zns_inv n → zone_array n !! i = Some z →
  zd_extension_size (params n) ≠ 0 →
  wp (let sz := zd_extension_size (params n) in
      let dma := dma_write_prp (world n) sz (prp1 c) (prp2 c) in
      if failed (fst dma) then ret (fst dma)
      else
        assert (zns_get_zd_extension n (Z.of_nat i) + length (snd dma)
                  <=? length (zd_extensions n))%nat;;
        modify (set_zd_extensions (splice (zns_get_zd_extension n (Z.of_nat i)) (snd dma)
          (zd_extensions n)));;
        status <- zns_set_zd_ext i;;
        ret (dnr_on_error status)) (λ _, stays n) n.
Proof.
  intros Hinv Hi Hsz. pose proof (inv_geometry _ Hinv) as Hg.
  destruct (ge_zd _ Hg) as (Hz0 & Hz1 & Hz2). specialize (Hz2 Hsz).
  pose proof (ge_len _ Hg). pose proof (lookup_lt_Some _ _ _ Hi). cbv zeta.
  destruct (dma_write_prp (world n) (zd_extension_size (params n)) (prp1 c) (prp2 c))
    as [st bs] eqn:Hdma. simpl.
  destruct (failed st) eqn:Hf; [wp_step; by apply stays_refl|].
  pose proof (dma_write_length _ _ _ _ _ _ Hz0 Hdma (not_failed _ Hf)) as Hbs.
  assert (zns_get_zd_extension n (Z.of_nat i) + length bs ≤ length (zd_extensions n))%nat as Hle.
  { unfold zns_get_zd_extension. rewrite u32_small by nia. nia. }
  wp_step. apply wp_assert; [by apply Nat.leb_le|]. do 2 wp_step.
  set (n1 := set_zd_extensions _ _).
  assert (stays n n1) as Hs1.
  { split; try done; [|apply evolves_refl].
    apply zns_inv_set_zd_extensions; [done|by apply length_splice]. }
  apply wp_stays; [done|]. apply wp_stays_ret.
  eapply wp_mono; [apply (wp_set_zd_ext i z n1); [apply Hs1|done]|].
  intros st' n2 [_ Hr]. eapply op_result_kept; [done|done|]. intros z'.
  unfold set_zd_ext_result. case_decide as Hz; [|done]. rewrite Hz.
  destruct (failed (zns_aor_check n1 1 0)); cbn [snd]; intros; simplify_eq. solve_trans.
Qed.

(** The zone a command addresses exists. *)
Lemma wp_send_target c n :
  zns_inv n →
  wp (if send_all c then ret (SUCCESS, 0, 0) else zns_get_mgmt_zone_slba_idx c) (λ r n',
    n' = n ∧ (r.1.1 = SUCCESS →
      ∃ z, zone_array n !! Z.to_nat r.2 = Some z ∧ 0 ≤ r.2 ∧ (send_all c = true → r.2 = 0))) n.
Proof.
  intros Hinv. pose proof (inv_geometry _ Hinv) as Hg. destruct (send_all c) eqn:Hall.
  - wp_step. split; [done|]. intros _. pose proof (ge_num _ Hg). pose proof (ge_len _ Hg).
    destruct (lookup_lt_is_Some_2 (zone_array n) 0) as [z Hz]; [lia|]. by exists z.
  - apply wp_get_mgmt_zone_slba_idx; [done|]. split; [done|].
    destruct (_ <=? _) eqn:Hle; [done|]. intros _. pose proof (mgmt_slba_nonneg c).
    destruct (zone_lookup n (mgmt_slba c)) as [z Hz]; [done|lia|].
    exists z. split_and!; [done| |done]. apply Z.div_pos; [done|apply Hg].
Qed.

(** The opaque count of the request is raised and lowered around the resets. *)
Lemma wp_send_reset i mask n :
  zns_inv n → (i < length (zone_array n))%nat →
  has_mask mask NVME_PROC_READ_ONLY_ZONES = false →
  wp (set_req_opaque 1;; zns_do_zone_op i mask zns_reset_zone;;
      n <- get;; set_req_opaque (opaque (cur_req n) - 1);; ret SUCCESS) (λ _, stays n) n.
Proof.
  intros Hinv Hi Hm. unfold set_req_opaque. do 2 wp_step. set (n1 := set_cur_req _ n).
  assert (stays n n1) as Hs1 by by apply stays_set_req_opaque.
  apply wp_stays; [done|]. eapply wp_seq.
  { apply (wp_do_zone_op_safe zns_reset_zone (λ _, reset_result) i mask n1);
      [apply wp_reset_zone|apply leaves_reset|apply Hs1|done|by rewrite Hm]. }
  simpl. intros _ n2 Hk. repeat wp_step. eapply stays_trans; [by apply kept_stays|].
  apply stays_set_req_opaque, Hk.
Qed.

Lemma wp_mgmt_send_safe n :
  zns_inv n → wp zns_zone_mgmt_send (λ _, stays n) n.
Proof.
  intros Hinv. unfold zns_zone_mgmt_send. do 2 wp_step.
  set (c := cmd (cur_req n)). wp_step. unfold set_req_status. wp_step.
  set (n1 := set_cur_req _ n). assert (stays n n1) as Hs1 by by apply stays_set_req_status.
  apply wp_stays; [done|]. destruct Hs1 as [Hinv1 _ _ _ _].
  eapply wp_seq; [by apply wp_send_target|].
  intros [[st slba] idx] n2 [-> Hok]. simpl in *.
  destruct (failed st) eqn:Hf; [wp_step; by apply stays_refl|].
  destruct (Hok (not_failed _ Hf)) as (z & Hz & Hidx & Hall).
  assert (Z.to_nat idx < length (zone_array n1))%nat as Hlt by by eapply lookup_lt_Some.
  wp_step. eapply wp_zone_at; [done|].
  destruct (negb _); [wp_step; by apply stays_refl|].
  pose proof wp_open_zone. pose proof wp_close_zone. pose proof wp_finish_zone.
  pose proof wp_reset_zone. pose proof wp_offline_zone.
  destruct (send_action c).
  - apply wp_stays_ret, wp_do_zone_op_safe with (f := λ _, close_result);
      auto using leaves_close. by destruct (send_all c).
  - apply wp_stays_ret, wp_do_zone_op_safe with (f := λ _, finish_result);
      auto using leaves_finish. by destruct (send_all c).
  - apply wp_stays_ret, wp_do_zone_op_safe with (f := open_result);
      auto using leaves_open. by destruct (send_all c).
  - apply wp_send_reset; [done|done|]. by destruct (send_all c).
  - apply wp_stays_ret, wp_do_zone_op_safe with (f := λ _, offline_result);
      auto using leaves_offline. destruct (send_all c); [|done]. intros _. by rewrite Hall.
  - do 2 wp_step. destruct (_ || _) eqn:Ho; [wp_step; by apply stays_refl|].
    apply orb_false_iff in Ho as [_ Ho].
    rewrite <-(Z2Nat.id idx) by done. rewrite Nat2Z.id.
    eapply wp_send_zd_ext; [done|done|lia].
  - wp_step. by apply stays_refl.
Qed.

(** ** Functional behaviour: one zone *)

Definition send_result (a : NvmeZoneSendAction) (n : FemuCtrl) (z : NvmeZone) :
    NvmeStatus * option NvmeZone :=
  match a with
  | NVME_ZONE_ACTION_OPEN => (SUCCESS, snd (open_result n z))
  | NVME_ZONE_ACTION_CLOSE => (SUCCESS, snd (close_result z))
  | NVME_ZONE_ACTION_FINISH => (dnr_on_error (fst (finish_result z)), snd (finish_result z))
  | NVME_ZONE_ACTION_RESET => (SUCCESS, snd (reset_result z))
  | NVME_ZONE_ACTION_OFFLINE => (dnr_on_error (fst (offline_result z)), snd (offline_result z))
  | _ => (or_dnr (status_of NVME_INVALID_FIELD), None)
  end.

(** Zone [i] becomes [r]; nothing else of the zones changes. *)
Definition zone_becomes (i : nat) (r : option NvmeZone) (n n' : FemuCtrl) : Prop :=
  zns_inv n' ∧
  match r with
  | None => zone_array n' = zone_array n ∧ ∀ l, list_of l n' = list_of l n
  | Some z' => zone_array n' = <[i := z']> (zone_array n) ∧ lists_moved i (zst z') n n'
  end.

Lemma op_result_becomes i r n n' : op_result i r n n' → zone_becomes i r n n'.
Proof. by intros (? & _ & ?). Qed.

Lemma wp_op_ret h f g i z n (Q : NvmeStatus → FemuCtrl → Prop) :
  op_spec h f → zns_inv n → zone_array n !! i = Some z →
  (∀ n', op_result i (snd (f n z)) n n' → Q (g (fst (f n z))) n') →
  wp (st <- zns_do_zone_op i NVME_PROC_CURRENT_ZONE h;; ret (g st)) Q n.
Proof.
  intros Hh Hinv Hi HQ. eapply wp_seq; [by eapply wp_do_zone_op_current|].
  intros st n' [-> Hr]. wp_step. auto.
Qed.

Lemma wp_send_reset_one i z n :
  zns_inv n → zone_array n !! i = Some z →
  wp (set_req_opaque 1;; zns_do_zone_op i NVME_PROC_CURRENT_ZONE zns_reset_zone;;
      n <- get;; set_req_opaque (opaque (cur_req n) - 1);; ret SUCCESS)
    (λ st n', st = SUCCESS ∧ zone_becomes i (snd (reset_result z)) n n') n.
Proof.
  intros Hinv Hi. unfold set_req_opaque. do 2 wp_step. set (n1 := set_cur_req _ n).
  eapply wp_seq.
  { eapply (wp_do_zone_op_current zns_reset_zone _ i z n1);
      [apply wp_reset_zone|by apply zns_inv_set_cur_req|done]. }
  simpl. intros _ n2 [_ [Hi2 [_ Hr]]]. repeat wp_step. split; [done|split].
  - by apply zns_inv_set_cur_req.
  - destruct (snd _); exact Hr.
Qed.

Lemma wp_mgmt_send_one i z n (c := cmd (cur_req n)) :
  zns_inv n → zone_array n !! i = Some z →
  send_all c = false → mgmt_slba c = zslba (d z) →
  send_action c ≠ NVME_ZONE_ACTION_SET_ZD_EXT →
  wp zns_zone_mgmt_send (λ st n',
    st = fst (send_result (send_action c) n z) ∧
    zone_becomes i (snd (send_result (send_action c) n z)) n n') n.
Proof.
  intros Hinv Hi Hall Hslba Ha. pose proof (inv_geometry _ Hinv) as Hg.
  destruct (zone_of_start n i z Hg Hi) as [Hr Hidx].
  unfold zns_zone_mgmt_send. do 2 wp_step. fold c. rewrite Hall. unfold set_req_status. do 2 wp_step.
  set (n1 := set_cur_req _ n).
  assert (zns_inv n1) as Hinv1 by by apply zns_inv_set_cur_req.
  wp_step. apply wp_get_mgmt_zone_slba_idx; [done|]. rewrite Hslba. change (ns n1) with (ns n).
  rewrite (proj2 (Z.leb_gt _ _) (proj2 Hr)). simpl. change (params n1) with (params n).
  rewrite Hidx. wp_step. eapply wp_zone_at; [exact Hi|]. rewrite Z.eqb_refl. simpl.
  destruct (send_action c) eqn:Hact; try done; simpl.
  - eapply (wp_op_ret _ _ (λ _, SUCCESS)); [apply wp_close_zone|done|exact Hi|].
    intros n2 H2. split; [done|]. exact (op_result_becomes _ _ n1 n2 H2).
  - eapply wp_op_ret; [apply wp_finish_zone|done|exact Hi|].
    intros n2 H2. split; [done|]. exact (op_result_becomes _ _ n1 n2 H2).
  - eapply (wp_op_ret _ _ (λ _, SUCCESS)); [apply wp_open_zone|done|exact Hi|].
    intros n2 H2. split; [done|]. exact (op_result_becomes _ _ n1 n2 H2).
  - eapply wp_mono; [exact (wp_send_reset_one i z n1 Hinv1 Hi)|]. done.
  - eapply wp_op_ret; [apply wp_offline_zone|done|exact Hi|].
    intros n2 H2. split; [done|]. exact (op_result_becomes _ _ n1 n2 H2).
Qed.

(** A command whose starting LBA is outside the namespace, or not that of a zone, is
    refused and changes no zone. *)
Lemma wp_mgmt_send_bad n (c := cmd (cur_req n)) :
  zns_inv n → send_all c = false →
  (∀ i z, zone_array n !! i = Some z → mgmt_slba c ≠ zslba (d z)) →
  wp zns_zone_mgmt_send (λ st n',
    st = or_dnr (status_of (if nsze (ns n) <=? mgmt_slba c then NVME_LBA_RANGE
                            else NVME_INVALID_FIELD)) ∧
    zone_becomes 0 None n n') n.
Proof.
  intros Hinv Hall Hslba. unfold zns_zone_mgmt_send. do 2 wp_step. fold c. rewrite Hall.
  unfold set_req_status. do 2 wp_step. set (n1 := set_cur_req _ n).
  assert (zns_inv n1) as Hinv1 by by apply zns_inv_set_cur_req.
  wp_step. apply wp_get_mgmt_zone_slba_idx; [done|]. change (ns n1) with (ns n).
  destruct (nsze (ns n) <=? mgmt_slba c) eqn:Hle; simpl.
  { wp_step. by split_and!. }
  pose proof (mgmt_slba_nonneg c).
  destruct (zone_lookup n (mgmt_slba c)) as [z Hz]; [apply Hinv|lia|].
  wp_step. eapply wp_zone_at; [exact Hz|].
  rewrite (proj2 (Z.eqb_neq _ _) (Hslba _ _ Hz)). simpl. wp_step. by split_and!.
Qed.

(** ** Functional behaviour: all zones *)

(** What the select-all variants make of a zone. *)
Definition all_result (a : NvmeZoneSendAction) (z : NvmeZone) : NvmeZone :=
  match a with
  | NVME_ZONE_ACTION_CLOSE => default z (snd (close_result z))
  | NVME_ZONE_ACTION_FINISH =>
      if active_state (zst z) then assigned NVME_ZONE_STATE_FULL (filled z) else z
  | NVME_ZONE_ACTION_RESET => default z (snd (reset_result z))
  | _ => z
  end.

Definition all_action (a : NvmeZoneSendAction) : bool :=
  match a with
  | NVME_ZONE_ACTION_CLOSE | NVME_ZONE_ACTION_FINISH | NVME_ZONE_ACTION_RESET => true
  | _ => false
  end.

Ltac solve_selected :=
  intros z l Hz Hs; destruct (zst z) eqn:Hzs; try discriminate Hz; injection Hz as <-;
  try discriminate Hs; rewrite zst_assigned by done; (split; [done|]);
  (split; [solve_trans|]); intros l' Hs'; by destruct l'.

Ltac solve_all_result :=
  apply list_fmap_ext; intros _ z _; unfold on_lists, all_result, close_result, reset_result;
  by destruct (zst z).

Lemma wp_do_close_all i n :
  zns_inv n → wp (zns_do_zone_op i NVME_PROC_OPENED_ZONES zns_close_zone) (λ st n',
    st = SUCCESS ∧ kept n n' ∧
    zone_array n' = all_result NVME_ZONE_ACTION_CLOSE <$> zone_array n) n.
Proof.
  intros Hinv. eapply wp_mono; [eapply (wp_do_zone_op_all _ close_result
    (assigned NVME_ZONE_STATE_CLOSED)); [apply wp_close_zone| |done..]|].
  - unfold close_result. solve_selected.
  - intros st n' (-> & Hk & ->). split_and!; [done|done|]. solve_all_result.
Qed.

Lemma wp_do_finish_all i n :
  zns_inv n →
  wp (zns_do_zone_op i (Z.lor NVME_PROC_OPENED_ZONES NVME_PROC_CLOSED_ZONES) zns_finish_zone)
    (λ st n', st = SUCCESS ∧ kept n n' ∧
    zone_array n' = all_result NVME_ZONE_ACTION_FINISH <$> zone_array n) n.
Proof.
  intros Hinv. eapply wp_mono; [eapply (wp_do_zone_op_all _ finish_result
    (λ z, assigned NVME_ZONE_STATE_FULL (filled z))); [apply wp_finish_zone| |done..]|].
  - unfold finish_result. solve_selected.
  - intros st n' (-> & Hk & ->). split_and!; [done|done|]. solve_all_result.
Qed.

Lemma wp_do_reset_all i n :
  zns_inv n →
  wp (zns_do_zone_op i (Z.lor (Z.lor NVME_PROC_OPENED_ZONES NVME_PROC_CLOSED_ZONES)
        NVME_PROC_FULL_ZONES) zns_reset_zone)
    (λ st n', st = SUCCESS ∧ kept n n' ∧
    zone_array n' = all_result NVME_ZONE_ACTION_RESET <$> zone_array n) n.
Proof.
  intros Hinv. eapply wp_mono; [eapply (wp_do_zone_op_all _ reset_result
    (λ z, assigned NVME_ZONE_STATE_EMPTY (emptied z))); [apply wp_reset_zone| |done..]|].
  - unfold reset_result. solve_selected.
  - intros st n' (-> & Hk & ->). split_and!; [done|done|]. solve_all_result.
Qed.

Lemma wp_mgmt_send_all n (c := cmd (cur_req n)) :
  zns_inv n → send_all c = true → all_action (send_action c) = true →
  wp zns_zone_mgmt_send (λ st n',
    st = SUCCESS ∧ zns_inv n' ∧ zone_array n' = all_result (send_action c) <$> zone_array n) n.
Proof.
  intros Hinv Hall Ha. pose proof (inv_geometry _ Hinv) as Hg.
  unfold zns_zone_mgmt_send. do 2 wp_step. fold c. rewrite Hall.
  unfold set_req_status, set_req_opaque. do 2 wp_step. set (n1 := set_cur_req _ n).
  assert (zns_inv n1) as Hinv1 by by apply zns_inv_set_cur_req.
  do 2 wp_step. simpl. pose proof (ge_num _ Hg). pose proof (ge_len _ Hg).
  destruct (lookup_lt_is_Some_2 (zone_array n) 0) as [z Hz]; [lia|].
  wp_step. eapply wp_zone_at; [exact Hz|]. destruct (ge_zone _ Hg _ _ Hz) as [-> _]. simpl.
  destruct (send_action c) eqn:Hact; try done.
  - eapply wp_seq; [by apply wp_do_close_all|]. intros st n2 (-> & Hk & Hz2). wp_step.
    split_and!; [done|apply Hk|done].
  - eapply wp_seq; [by apply wp_do_finish_all|]. intros st n2 (-> & Hk & Hz2). wp_step.
    split_and!; [done|apply Hk|done].
  - do 2 wp_step. eapply wp_seq; [by apply wp_do_reset_all, zns_inv_set_cur_req|].
    intros st n2 (-> & Hk & Hz2). repeat wp_step.
    split_and!; [done|apply zns_inv_set_cur_req, Hk|done].
Qed.
End send_cmd.
End send.
