(* ===== verification/ZnsWrite.v ===== *)
(** * Writes and appends

    Eviction of the oldest implicitly open zone, the advance of the write pointer, the
    completion of the write, and the commands [zns_write] and [zns_zone_append]. *)

From stdpp Require Import base numbers option sets list list_numbers relations.
From S2P Require Import Prelude ZnsTypes ZnsOps ZnsInv ZnsHandlers ZnsBulk ZnsSend.

Section zns_write.
Context {T : TailQ} {TOk : TailQOk T} {F : Femu}.
Implicit Types (n : FemuCtrl) (zone i : nat) (z : NvmeZone) (l : zone_list).

Notation zst := zns_get_zone_state.

(** ** Eviction *)

(** The zone [zns_auto_transition_zone] closes. *)
Definition evictee (n : FemuCtrl) : option nat :=
  if negb (max_open_zones (params n) =? 0) && (nr_open_zones n =? max_open_zones (params n))
  then head (elems (imp_open_zones n)) else None.

Definition evicted (n n' : FemuCtrl) : Prop :=
  match evictee n with
  | Some j => ∃ z, zone_array n !! j = Some z ∧ zst z = NVME_ZONE_STATE_IMPLICITLY_OPEN ∧
      op_result j (Some (assigned NVME_ZONE_STATE_CLOSED z)) n n' ∧
      nr_open_zones n' = nr_open_zones n - 1 ∧ nr_active_zones n' = nr_active_zones n
  | None => n' = n
  end.

Lemma lrm_idem i L : lrm i (lrm i L) = lrm i L.
Proof. apply lrm_notin. unfold lrm. rewrite list_elem_of_filter. tauto. Qed.

(** The counters of two states that satisfy the invariant differ as the zones do. *)
Lemma counters_evicted n n' j z :
  zns_inv n → zns_inv n' → params n' = params n → zone_array n !! j = Some z →
  zst z = NVME_ZONE_STATE_IMPLICITLY_OPEN → max_open_zones (params n) ≠ 0 →
  zone_array n' = <[j := assigned NVME_ZONE_STATE_CLOSED z]> (zone_array n) →
  nr_open_zones n' = nr_open_zones n - 1 ∧ nr_active_zones n' = nr_active_zones n.
Proof.
  intros [_ [_ H2 H3 H4] _] [_ [_ H2' H3' H4'] _] Hp Hj Hz Hmax Hza. rewrite Hp, Hza in *.
  destruct (H2 Hmax) as [-> _], (H2' Hmax) as [-> _]. unfold open_cnt, active_cnt in *.
  rewrite (countb_insert _ _ _ _ _ Hj), Hz, zst_assigned in * by done. simpl. split; [lia|].
  destruct (decide (max_active_zones (params n) = 0)) as [E|E]; [rewrite H3, H3' by done; done|].
  rewrite (countb_insert _ _ _ _ _ Hj), Hz, zst_assigned in H4' by done. simpl in H4'.
  destruct (H4 E), (H4' E). lia.
Qed.

Lemma wp_auto_transition n :
  zns_inv n → wp zns_auto_transition_zone (λ _ n', evicted n n') n.
Proof.
  intros Hinv. unfold zns_auto_transition_zone, evicted, evictee. do 2 wp_step.
  destruct (negb _ && _) eqn:Hfull; (wp_step; [|done]); [|done].
  apply andb_true_iff in Hfull as [Hmax%negb_true_iff%Z.eqb_neq _].
  rewrite first_elems. destruct (head (elems (imp_open_zones n))) as [j|] eqn:Hj; [|by wp_step].
  pose proof (inv_lists _ Hinv) as Hl.
  destruct (in_list_zone n L_imp_open j) as (z & Hz & Hzl); [done| |].
  { simpl. destruct (elems (imp_open_zones n)); [done|]. simplify_eq/=. by left. }
  assert (zst z = NVME_ZONE_STATE_IMPLICITLY_OPEN) as Hst by by destruct (zst z).
  eapply wp_seq; [by eapply wp_remove|]. intros _ n1 (Hl1 & Hc1 & Hz1 & Ho1).
  assert (zone_array n1 !! j = Some (zone_set_entry false z)) as Hj1.
  { rewrite Hz1. apply list_lookup_insert_eq. by eapply lookup_lt_Some. }
  pose proof (counters_update 0 0 n n1 j z _ (inv_counters _ Hinv) Hc1 Hz Hz1) as Hct1.
  change (zst (zone_set_entry false z)) with (zst z) in Hct1. rewrite !Z.add_simpl_r in Hct1.
  eapply wp_seq.
  { eapply wp_dec_open; [exact Hct1|]. rewrite Z.add_0_r. eapply open_cnt_pos; [done|].
    change (zst (zone_set_entry false z)) with (zst z). by rewrite Hst. }
  intros _ n2 [Hct2 Hs2].
  assert (geometry n2) as Hg2.
  { eapply geometry_same_zones; [done|]. destruct Hc1. eapply geometry_update;
      [apply Hinv|done..]. }
  eapply wp_mono; [eapply (wp_assign_inv (Some j) j (zone_set_entry false z)
    NVME_ZONE_STATE_CLOSED n2); [by eapply lists_inv_same_zones|by right|done|done
    |by rewrite (sz_zones _ _ Hs2)|done|..];
    change (zst (zone_set_entry false z)) with (zst z); by rewrite Hst|].
  intros _ n3 (Hinv3 & Hr3 & Hz3 & Hm3).
  assert (zone_array n3 = <[j := assigned NVME_ZONE_STATE_CLOSED z]> (zone_array n)) as Hza.
  { by rewrite Hz3, (sz_zones _ _ Hs2), Hz1, list_insert_insert_eq. }
  assert (same_rest n n3) as Hr.
  { eapply same_rest_trans; [by apply same_ctl_rest|]. eapply same_rest_trans; [|done].
    by apply same_zones_rest. }
  exists z. split_and!; [done|done| |eapply counters_evicted; try done; apply Hr..].
  split_and!; [done|done|done|]. intros l.
  rewrite Hm3, (sz_lists _ _ Hs2), Ho1, lrm_idem, zst_assigned; done.
Qed.

(** ** Zones that a write changes *)

(** Zone [i] goes from [z] to [z']; it changes lists, to the tail of the new one, exactly
    when its state changes. *)
Definition zone_step (i : nat) (z z' : NvmeZone) (n n' : FemuCtrl) : Prop :=
  zns_inv n' ∧ zone_array n' = <[i := z']> (zone_array n) ∧
  if decide (zst z' = zst z) then ∀ l, elems (list_of l n') = elems (list_of l n)
  else lists_moved i (zst z') n n'.

Lemma mid_zone_step i z0 z n0 n : mid i z 0 0 n0 n → zst z = zst z0 → zone_step i z0 z n0 n.
Proof.
  intros Hm Hz. split_and!; [by split; apply Hm|apply Hm|]. rewrite decide_True by done.
  intros l. by rewrite (mid_list _ _ _ _ _ _ Hm).
Qed.

Lemma op_zone_step i z z' n n' :
  op_result i (Some z') n n' → zst z' ≠ zst z → zone_step i z z' n n'.
Proof. intros (? & _ & ? & ?) Hz. split_and!; [done|done|]. by rewrite decide_False. Qed.

Lemma lists_moved_trans i s1 s2 n1 n2 n3 :
  lists_moved i s1 n1 n2 → lists_moved i s2 n2 n3 → lists_moved i s2 n1 n3.
Proof.
  intros H1 H2 l. rewrite H2, H1. f_equal. unfold lrm. rewrite filter_app.
  fold (lrm i (elems (list_of l n1))). fold (lrm i (lrm i (elems (list_of l n1)))).
  rewrite lrm_idem. case_decide; [|by rewrite app_nil_r].
  rewrite filter_cons_False by tauto. by rewrite app_nil_r.
Qed.

Lemma zone_step_cur_req i z z' n n' r :
  zone_step i z z' n n' → zone_step i z z' n (set_cur_req r n').
Proof. intros (? & ? & H). split; [by apply zns_inv_set_cur_req|]. split; [done|exact H]. Qed.

(** Two changes in a row, when a changed state does not change back. *)
Lemma zone_step_trans i z z1 z2 n n1 n2 :
  zone_step i z z1 n n1 → zone_step i z1 z2 n1 n2 → (zst z2 = zst z → zst z1 = zst z) →
  zone_step i z z2 n n2.
Proof.
  intros (Hi1 & Hz1 & Hl1) (Hi2 & Hz2 & Hl2) Hback.
  split_and!; [done|by rewrite Hz2, Hz1, list_insert_insert_eq|].
  destruct (decide (zst z2 = zst z)) as [E|E].
  - specialize (Hback E). rewrite decide_True in Hl1 by done.
    rewrite decide_True in Hl2 by congruence. intros l. by rewrite Hl2, Hl1.
  - destruct (decide (zst z1 = zst z)) as [E1|E1].
    + rewrite decide_False in Hl2 by congruence. intros l. by rewrite Hl2, Hl1.
    + destruct (decide (zst z2 = zst z1)) as [E2|E2].
      * intros l. rewrite Hl2, Hl1. by rewrite E2.
      * by eapply lists_moved_trans.
Qed.

(** A zone that accepts writes. *)
Definition writable (s : NvmeZoneState) : bool :=
  match s with
  | NVME_ZONE_STATE_EMPTY | NVME_ZONE_STATE_IMPLICITLY_OPEN
  | NVME_ZONE_STATE_EXPLICITLY_OPEN | NVME_ZONE_STATE_CLOSED => true
  | _ => false
  end.

(** The limits leave room for a zone in state [s] to become open. *)
Definition room (n : FemuCtrl) (s : NvmeZoneState) : Prop :=
  (active_state s = false → max_active_zones (params n) ≠ 0 →
     nr_active_zones n + 1 ≤ max_active_zones (params n)) ∧
  (open_state s = false → max_open_zones (params n) ≠ 0 →
     nr_open_zones n + 1 ≤ max_open_zones (params n)).

(** Changes that keep the state of the zone keep the room. *)
Lemma mid_room i z0 z n0 n :
  zns_inv n0 → zone_array n0 !! i = Some z0 → mid i z 0 0 n0 n → zst z = zst z0 →
  room n0 (zst z0) → room n (zst z).
Proof.
  intros [_ [_ Ho _ Ha] _] Hi Hm Hz [Ra Ro]. rewrite Hz.
  pose proof (mid_counters _ _ _ _ _ _ Hm) as [_ Ho' _ Ha'].
  rewrite (sr_params _ _ (mid_rest _ _ _ _ _ _ Hm)), (mid_zones _ _ _ _ _ _ Hm) in *.
  unfold open_cnt, active_cnt in *. 
  rewrite (countb_insert _ _ _ _ _ Hi), Hz in Ho'. rewrite (countb_insert _ _ _ _ _ Hi), Hz in Ha'.
  unfold room. rewrite (sr_params _ _ (mid_rest _ _ _ _ _ _ Hm)). split.
  - intros E Hne. specialize (Ra E Hne). destruct (Ha Hne), (Ha' Hne). lia.
  - intros E Hne. specialize (Ro E Hne). destruct (Ho Hne), (Ho' Hne). lia.
Qed.

(** ** The advance of the write pointer *)

Definition advanced (nlb : Z) (z : NvmeZone) : NvmeZone :=
  let z' := zone_set_w_ptr (u64 (w_ptr z + nlb)) z in
  if (w_ptr z' <? zns_zone_wr_boundary z') && negb (open_state (zst z))
  then assigned NVME_ZONE_STATE_IMPLICITLY_OPEN z' else z'.

(** The transition to implicitly open. *)
Lemma wp_imp_open i z n0 n (Q : unit → FemuCtrl → Prop) :
  mid i z 0 0 n0 n → writable (zst z) = true → room n (zst z) →
  (∀ n', (if open_state (zst z) then n' = n
          else op_result i (Some (assigned NVME_ZONE_STATE_IMPLICITLY_OPEN z)) n0 n') → Q tt n') →
  wp match zst z with
     | NVME_ZONE_STATE_EMPTY =>
         zns_aor_inc_active;; zns_aor_inc_open;;
         zns_assign_zone_state i NVME_ZONE_STATE_IMPLICITLY_OPEN
     | NVME_ZONE_STATE_CLOSED =>
         zns_aor_inc_open;; zns_assign_zone_state i NVME_ZONE_STATE_IMPLICITLY_OPEN
     | _ => ret tt
     end Q n.
Proof.
  intros Hm Hw [Ra Ro] HQ. destruct (zst z) eqn:Hz; try done; simpl in HQ.
  - eapply mid_inc_active; [exact Hm|lia|by apply Ra|]. intros n1 Hm1 Hno.
    eapply mid_inc_open; [exact Hm1|lia| |].
    { rewrite Hno, (sr_params _ _ (mid_rest _ _ _ _ _ _ Hm1)),
        <-(sr_params _ _ (mid_rest _ _ _ _ _ _ Hm)). by apply Ro. }
    intros n2 Hm2. eapply mid_assign_tail; [exact Hm2|done|by rewrite Hz|by rewrite Hz|done].
  - wp_step. by apply HQ.
  - wp_step. by apply HQ.
  - eapply mid_inc_open; [exact Hm|lia|by apply Ro|]. intros n1 Hm1.
    eapply mid_assign_tail; [exact Hm1|done|by rewrite Hz|by rewrite Hz|done].
Qed.

Lemma wp_advance i z nlb n :
  zns_inv n → zone_array n !! i = Some z → writable (zst z) = true → room n (zst z) →
  wp (zns_advance_zone_wp i nlb) (λ r n',
    r = w_ptr z ∧ same_rest n n' ∧ zone_step i z (advanced nlb z) n n') n.
Proof.
  intros Hinv Hi Hw Hroom. pose proof (mid_start _ _ _ Hinv Hi) as Hm.
  unfold zns_advance_zone_wp, advanced. wp_step. eapply wp_zone_at; [done|].
  eapply mid_update; [exact Hm|done|done|done|]. clear Hm. intros n1 Hm.
  pose proof (mid_room _ _ _ _ _ Hinv Hi Hm eq_refl Hroom) as Hroom1.
  set (z1 := zone_set_w_ptr _ z) in *. change (zst z) with (zst z1) in *.
  wp_step. eapply wp_zone_at; [apply Hm|].
  destruct (w_ptr z1 <? zns_zone_wr_boundary z1); cbn [andb].
  2:{ wp_step. apply wp_when; [done|intros _]. wp_step. split_and!; [done|apply Hm|].
      by apply mid_zone_step. }
  apply wp_bind, wp_when; [intros _|done]. eapply wp_imp_open; [done..|].
  intros n2. destruct (open_state (zst z1)) eqn:Ho; cbn [negb].
  - intros ->. wp_step. split_and!; [done|apply Hm|]. by apply mid_zone_step.
  - intros Hr. wp_step. split_and!; [done|apply Hr|]. apply op_zone_step; [done|].
    rewrite zst_assigned by done. change (zst z) with (zst z1). intros E. by rewrite <-E in Ho.
Qed.

(** ** The completion of a write *)

Definition finalized (nlb : Z) (z : NvmeZone) : NvmeZone :=
  let z' := zone_set_wp (u64 (wp_ (d z) + nlb)) z in
  if wp_ (d z') =? zns_zone_wr_boundary z'
  then if decide (zst z = NVME_ZONE_STATE_FULL) then z' else assigned NVME_ZONE_STATE_FULL z'
  else z'.

Lemma wp_finalize i z n (c := cmd (cur_req n)) :
  zns_inv n → 0 ≤ rw_slba c < nsze (ns n) →
  i = Z.to_nat (rw_slba c / zone_size (params n)) → zone_array n !! i = Some z →
  writable (zst z) = true ∨ zst z = NVME_ZONE_STATE_FULL →
  wp (zns_finalize_zoned_write false) (λ _ n',
    same_rest n n' ∧ zone_step i z (finalized (rw_nlb c + 1) z) n n') n.
Proof.
  intros Hinv Hs -> Hi Hw. unfold zns_finalize_zoned_write, finalized. do 2 wp_step.
  unfold zns_get_zone_by_slba. do 3 wp_step.
  destruct (zone_idx_div n (rw_slba c)) as [Heq Hr]; [apply Hinv|done|].
  unfold c in *. rewrite Heq. wp_step. apply wp_assert; [lia|]. wp_step.
  set (i := Z.to_nat _) in *. pose proof (mid_start _ _ _ Hinv Hi) as Hm.
  eapply mid_update; [exact Hm|done|done|done|]. clear Hm. intros n1 Hm.
  set (z1 := zone_set_wp _ z) in *. change (zst z) with (zst z1) in *.
  wp_step. apply wp_when; [done|intros _]. wp_step. eapply wp_zone_at; [apply Hm|].
  destruct (wp_ (d z1) =? zns_zone_wr_boundary z1).
  2:{ apply wp_when; [done|intros _]. split; [apply Hm|]. by apply mid_zone_step. }
  apply wp_when; [intros _|done].
  assert (∀ n', op_result i (Some (assigned NVME_ZONE_STATE_FULL z1)) n n' →
    zst z1 ≠ NVME_ZONE_STATE_FULL →
    same_rest n n' ∧ zone_step i z (assigned NVME_ZONE_STATE_FULL z1) n n') as Hend.
  { intros n' Hr' Hne. split; [apply Hr'|]. apply op_zone_step; [done|].
    rewrite zst_assigned by done. change (zst z) with (zst z1). congruence. }
  destruct (zst z1) eqn:Hz; try (by destruct Hw); case_decide; try done;
    repeat op_step Hm Hz; auto. 
  wp_step. split; [apply Hm|]. by apply mid_zone_step.
Qed.

(** ** Advance, transfer, completion *)

Definition commit (zone : nat) (nlb data_size off : Z) : ST FemuCtrl NvmeStatus :=
  res <- zns_advance_zone_wp zone nlb;;
  set_cqe_slba res;;
  status <- transfer data_size off;;
  if failed status then ret (or_dnr status) else zns_finalize_zoned_write false;; ret SUCCESS.

Lemma zst_advanced nlb z :
  writable (zst z) = true → writable (zst (advanced nlb z)) = true ∧
  (zst (advanced nlb z) = zst z ∨ zst (advanced nlb z) = NVME_ZONE_STATE_IMPLICITLY_OPEN).
Proof.
  intros Hw. unfold advanced. set (z1 := zone_set_w_ptr _ z). change (zst z) with (zst z1) in *.
  destruct (_ && _); [|by auto]. rewrite zst_assigned by done. auto.
Qed.

Lemma zst_finalized nlb z :
  zst (finalized nlb z) = zst z ∨ zst (finalized nlb z) = NVME_ZONE_STATE_FULL.
Proof.
  unfold finalized. set (z1 := zone_set_wp _ z). change (zst z) with (zst z1) in *.
  destruct (_ =? _); [|by auto]. case_decide; [by auto|]. rewrite zst_assigned by done. auto.
Qed.

Lemma trans_advanced nlb z :
  writable (zst z) = true → rtc zone_trans (zst z) (zst (advanced nlb z)).
Proof.
  intros Hw. unfold advanced. set (z1 := zone_set_w_ptr _ z). change (zst z) with (zst z1) in *.
  destruct (_ && _) eqn:E; [|done]. apply andb_true_iff in E as [_ Ho]. rewrite zst_assigned by done.
  apply rtc_once. destruct (zst z1); try done; solve_trans.
Qed.

Lemma trans_finalized nlb z :
  writable (zst z) = true → rtc zone_trans (zst z) (zst (finalized nlb z)).
Proof.
  intros Hw. unfold finalized. set (z1 := zone_set_wp _ z). change (zst z) with (zst z1) in *.
  destruct (_ =? _); [|done]. case_decide; [done|]. rewrite zst_assigned by done.
  apply rtc_once. destruct (zst z1); try done; solve_trans.
Qed.

Lemma zone_step_evolves i z z' n n' :
  zone_step i z z' n n' → zone_array n !! i = Some z → rtc zone_trans (zst z) (zst z') →
  evolves (zone_array n) (zone_array n').
Proof. intros (_ & -> & _) Hi Ht. by eapply evolves_insert. Qed.

Definition written (nlb : Z) (z : NvmeZone) : NvmeZone := finalized nlb (advanced nlb z).

(** What a write that passed all checks leaves: [dptr] is the mapping of its buffer. *)
Definition committed (i : nat) (z : NvmeZone) (nlb : Z) (dptr : NvmeStatus * option QSG) (off : Z)
    (n : FemuCtrl) (st : NvmeStatus) (n' : FemuCtrl) : Prop :=
  stays n n' ∧ cqe_slba (cur_req n') = w_ptr z ∧
  match dptr with
  | (st', Some qsg) =>
      if failed st' then
        st = or_dnr st' ∧ zone_step i z (advanced nlb z) n n' ∧ world n' = world n
      else
        st = SUCCESS ∧ zone_step i z (written nlb z) n n' ∧
        world n' = backend_rw (world n) qsg off (is_write (cur_req n))
  | (st', None) => st = or_dnr st' ∧ zone_step i z (advanced nlb z) n n' ∧ world n' = world n
  end.

Lemma wp_commit i z nlb data_size off n (c := cmd (cur_req n)) :
  zns_inv n → 0 ≤ rw_slba c < nsze (ns n) → i = Z.to_nat (rw_slba c / zone_size (params n)) →
  zone_array n !! i = Some z → writable (zst z) = true → room n (zst z) → nlb = rw_nlb c + 1 →
  wp (commit i nlb data_size off) (committed i z nlb (zns_map_dptr n data_size) off n) n.
Proof.
  intros Hinv Hs Hidx Hi Hw Hroom Hnlb. unfold commit.
  destruct (zst_advanced nlb z Hw) as [Hw1 Hst1].
  eapply wp_seq; [by apply wp_advance|]. intros r n1 (-> & Hr1 & Hz1).
  unfold set_cqe_slba, transfer. do 2 wp_step. set (n2 := set_cur_req _ n1).
  assert (stays n n2) as Hs2.
  { destruct Hr1. split; [apply zns_inv_set_cur_req, Hz1|done..| |].
    - simpl. by rewrite sr_req.
    - exact (zone_step_evolves _ _ _ _ _ Hz1 Hi (trans_advanced nlb z Hw)). }
  assert (zns_map_dptr n2 data_size = zns_map_dptr n data_size) as Hmap.
  { unfold zns_map_dptr. rewrite (st_cmd _ _ Hs2). simpl. by rewrite (sr_world _ _ Hr1). }
  do 3 wp_step. rewrite Hmap. unfold committed.
  destruct (zns_map_dptr n data_size) as [st' q] eqn:Hm. simpl.
  assert (failed st' = true ∨ ∃ qsg, q = Some qsg ∧ failed st' = false) as Hq.
  { unfold zns_map_dptr in Hm. destruct (psdt_is_prp _), (failed st') eqn:Hf;
      simplify_eq; eauto. }
  destruct Hq as [Hf | (qsg & -> & Hf)]; rewrite Hf; cbn iota.
  { wp_step. rewrite Hf. wp_step. split_and!; [done|done|].
    destruct q; rewrite ?Hf; (split_and!; [done|by apply zone_step_cur_req|apply Hr1]). }
  wp_step. eapply wp_load; [done|]. do 2 wp_step. set (n3 := set_world _ n2). wp_step.
  rewrite failed_SUCCESS. cbn iota.
  assert (stays n n3) as Hs3.
  { destruct Hs2. split; [by apply zns_inv_set_world|done..]. }
  assert (zone_array n3 !! i = Some (advanced nlb z)) as Hi3.
  { simpl. destruct Hz1 as (_ & -> & _). apply list_lookup_insert_eq. by eapply lookup_lt_Some. }
  eapply wp_seq.
  { eapply (wp_finalize i (advanced nlb z) n3); rewrite ?(st_cmd _ _ Hs3), ?(st_ns _ _ Hs3),
      ?(st_params _ _ Hs3); [apply Hs3|done|done|done|by left]. }
  intros [] n4 [Hr4 Hz4]. wp_step. rewrite (st_cmd _ _ Hs3) in Hz4. fold c in Hz4.
  rewrite <-Hnlb in Hz4. split_and!.
  - eapply stays_trans; [exact Hs3|]. split; [apply Hz4|apply Hr4..|by rewrite (sr_req _ _ Hr4)|].
    eapply zone_step_evolves; [exact Hz4|done|by apply trans_finalized].
  - by rewrite (sr_req _ _ Hr4).
  - done.
  - apply (zone_step_trans i z (advanced nlb z) _ n n1); [done|exact Hz4|].
    fold (written nlb z). intros E. destruct (zst_finalized nlb (advanced nlb z)) as [E'|E'];
      fold (written nlb z) in E'; rewrite E in E'; [done|]. by rewrite E' in Hw.
  - rewrite (sr_world _ _ Hr4). simpl. by rewrite (sr_world _ _ Hr1), (sr_req _ _ Hr1).
Qed.

(** ** The checks before a write *)

(** The ranges of the command's 64-bit and 16-bit fields. *)
Definition cmd_ok (c : NvmeCmd) : Prop := 0 ≤ rw_slba c < 2 ^ 64 ∧ 0 ≤ rw_nlb c < 2 ^ 16.

Definition state_check (s : NvmeZoneState) : NvmeStatus :=
  match s with
  | NVME_ZONE_STATE_FULL => status_of NVME_ZONE_FULL
  | NVME_ZONE_STATE_OFFLINE => status_of NVME_ZONE_OFFLINE
  | NVME_ZONE_STATE_READ_ONLY => status_of NVME_ZONE_READ_ONLY
  | _ => SUCCESS
  end.

Definition write_check (n : FemuCtrl) (z : NvmeZone) (slba nlb : Z) (append : bool) : NvmeStatus :=
  if zns_zone_wr_boundary z <? u64 (slba + nlb) then status_of NVME_ZONE_BOUNDARY_ERROR
  else if failed (state_check (zst z)) then state_check (zst z)
  else if append then
    if (Z.shiftl (page_size (params n)) (zasl (params n)) <? zns_l2b n nlb) ||
       negb (slba =? zslba (d z))
    then status_of NVME_INVALID_FIELD else SUCCESS
  else if slba =? w_ptr z then SUCCESS else status_of NVME_ZONE_INVALID_WRITE.

Lemma wp_check_zone_write i z slba nlb append n (Q : NvmeStatus → FemuCtrl → Prop) :
  zns_inv n → zone_array n !! i = Some z → Q (write_check n z slba nlb append) n →
  wp (zns_check_zone_write i slba nlb append) Q n.
Proof.
  intros Hinv Hi HQ. pose proof (li_state _ _ (inv_lists _ Hinv) _ _ Hi) as Hok.
  unfold zns_check_zone_write, write_check in *. do 3 wp_step. eapply wp_zone_at; [done|].
  destruct (_ <? _); [by repeat wp_step|].
  apply wp_seq with (P := λ st n', st = state_check (zst z) ∧ n' = n).
  { unfold zns_check_zone_state_for_write. by destruct (zst z); try done; wp_step. }
  intros st n' [-> ->]. destruct (failed (state_check (zst z))) eqn:Hf; [by wp_step|].
  wp_step. apply wp_assert; [unfold zns_wp_is_valid; by destruct (zst z)|].
  rewrite (not_failed _ Hf). destruct append.
  - wp_step. by destruct (_ <? _), (negb _).
  - by destruct (slba =? w_ptr z); cbn [negb]; wp_step.
Qed.

Lemma write_check_ok n z slba nlb append :
  zone_state_ok (zst z) = true → failed (write_check n z slba nlb append) = false →
  u64 (slba + nlb) ≤ zns_zone_wr_boundary z ∧ writable (zst z) = true ∧
  if append then slba = zslba (d z) else slba = w_ptr z.
Proof.
  unfold write_check. intros Hok. destruct (_ <? _) eqn:Hb; [done|].
  destruct (failed (state_check (zst z))) eqn:Hf; [by rewrite Hf|].
  intros H. split_and!; [lia|by destruct (zst z)|].
  destruct append; [destruct (_ || _) eqn:E; [done|]|destruct (_ =? _) eqn:E; [|done]]; lia.
Qed.

(** A command inside the namespace selects a zone. *)
Lemma bounds_ok n slba nlb :
  geometry n → 0 ≤ slba < 2 ^ 64 → 0 < nlb → failed (zns_check_bounds n slba nlb) = false →
  0 ≤ slba < nsze (ns n) ∧ slba + nlb ≤ nsze (ns n).
Proof.
  intros Hg Hs Hn. unfold zns_check_bounds. destruct (_ || _) eqn:E; [done|]. intros _.
  apply orb_false_iff in E as [E1 E2]. unfold UINT64_MAX in *. rewrite u64_small in E2 by lia. lia.
Qed.

Definition target (n : FemuCtrl) (slba : Z) : nat := Z.to_nat (slba / zone_size (params n)).

(** The first check that fails, if any. *)
Definition write_refusal (n : FemuCtrl) (append : bool) : NvmeStatus :=
  let c := cmd (cur_req n) in
  let slba := rw_slba c in
  let nlb := rw_nlb c + 1 in
  let s1 := nvme_check_mdts (mdts (params n)) (zns_l2b n nlb) in
  if failed s1 then s1
  else
    let s2 := zns_check_bounds n slba nlb in
    if failed s2 then s2
    else match zone_array n !! target n slba with
         | Some z => write_check n z slba nlb append
         | None => SUCCESS
         end.

(** ** Making room for the zone *)

Definition opened (z : NvmeZone) (n n1 : FemuCtrl) : Prop :=
  match zst z with
  | NVME_ZONE_STATE_EMPTY | NVME_ZONE_STATE_CLOSED => evicted n n1
  | _ => n1 = n
  end.

Definition limit_check (z : NvmeZone) (n1 : FemuCtrl) : NvmeStatus :=
  match zst z with
  | NVME_ZONE_STATE_EMPTY => zns_aor_check n1 1 1
  | NVME_ZONE_STATE_CLOSED => zns_aor_check n1 0 1
  | _ => SUCCESS
  end.

Lemma wp_auto_open i z n :
  zns_inv n → zone_array n !! i = Some z →
  wp (zns_auto_open_zone i) (λ st n1, opened z n n1 ∧ st = limit_check z n1) n.
Proof.
  intros Hinv Hi. unfold zns_auto_open_zone, opened, limit_check. wp_step.
  eapply wp_zone_at; [done|]. destruct (zst z); try (by wp_step);
    (eapply wp_seq; [by apply wp_auto_transition|]; intros [] n1 He; by repeat wp_step).
Qed.

Lemma opened_zone i z n n1 :
  zns_inv n → zone_array n !! i = Some z → opened z n n1 →
  kept n n1 ∧ zone_array n1 !! i = Some z.
Proof.
  intros Hinv Hi. unfold opened, evicted.
  destruct (evictee n) as [j|].
  2:{ assert (n1 = n → kept n n1 ∧ zone_array n1 !! i = Some z) as H
        by (intros ->; auto using kept_refl). by destruct (zst z). }
  intros Ho. assert (n1 = n ∨ (zst z ≠ NVME_ZONE_STATE_IMPLICITLY_OPEN ∧ ∃ z1,
    zone_array n !! j = Some z1 ∧ zst z1 = NVME_ZONE_STATE_IMPLICITLY_OPEN ∧
    op_result j (Some (assigned NVME_ZONE_STATE_CLOSED z1)) n n1))
    as [-> | (Hne & z1 & Hj & Hz1 & Hres)].
  { destruct (zst z); auto; right; split; try done; destruct Ho as (z1 & ? & ? & ? & _); eauto. }
  - auto using kept_refl.
  - split.
    + eapply op_result_kept; [done|done|]. intros z' [= <-]. rewrite Hz1. by apply ZT_close.
    + destruct Hres as (_ & _ & -> & _). rewrite list_lookup_insert_ne; [done|]. congruence.
Qed.

Lemma limit_room z n1 :
  writable (zst z) = true → failed (limit_check z n1) = false → room n1 (zst z).
Proof.
  unfold limit_check, room. destruct (zst z); simpl; intros Hw H; try done;
    try (apply aor_check_ok in H as [? ?]); split; intros; try done; auto.
Qed.

(** ** The commands *)

(** Nothing but the request record differs. *)
Definition untouched (n n' : FemuCtrl) : Prop :=
  stays n n' ∧ zone_array n' = zone_array n ∧ (∀ l, list_of l n' = list_of l n) ∧
  world n' = world n.

(** The outcome of a write or append: refused; out of room after eviction; committed. *)
Definition write_post (append : bool) (n : FemuCtrl) (st : NvmeStatus) (n' : FemuCtrl) : Prop :=
  let c := cmd (cur_req n) in
  let nlb := rw_nlb c + 1 in
  let refusal := write_refusal n append in
  if failed refusal then st = or_dnr refusal ∧ untouched n n'
  else ∃ z n1,
    zone_array n !! target n (rw_slba c) = Some z ∧ opened z n n1 ∧
    if failed (limit_check z n1) then st = or_dnr (limit_check z n1) ∧ n' = n1
    else committed (target n (rw_slba c)) z nlb (zns_map_dptr n (zns_l2b n nlb))
           (zns_l2b n (if append then w_ptr z else rw_slba c)) n1 st n'.

Lemma wp_write_post (append : bool) n (c := cmd (cur_req n)) (slba := rw_slba c)
    (nlb := rw_nlb c + 1) (data_size := zns_l2b n nlb) (K : nat → ST FemuCtrl NvmeStatus) :
  zns_inv n → cmd_ok c →
  (∀ i z n1 Q, zone_array n1 !! i = Some z →
     wp (commit i nlb data_size (zns_l2b n (if append then w_ptr z else slba))) Q n1 →
     wp (K i) Q n1) →
  wp (let status := nvme_check_mdts (mdts (params n)) data_size in
      if failed status then ret (or_dnr status) else
      let status := zns_check_bounds n slba nlb in
      if failed status then ret (or_dnr status) else
      zone <- zns_get_zone_by_slba slba;;
      status <- zns_check_zone_write zone slba nlb append;;
      if failed status then ret (or_dnr status) else
      status <- zns_auto_open_zone zone;;
      if failed status then ret (or_dnr status) else
      K zone)
    (write_post append n) n.
Proof.
  intros Hinv [Hslba Hnlb] HK. fold slba in Hslba. pose proof (inv_geometry _ Hinv) as Hg.
  assert (∀ st, failed (write_refusal n append) = true → st = or_dnr (write_refusal n append) →
    write_post append n st n) as Href.
  { intros st Hf ->. unfold write_post. rewrite Hf. split; [done|].
    by split; [apply stays_refl|]. }
  unfold write_refusal in Href. fold c slba nlb data_size in Href. cbv zeta.
  destruct (failed (nvme_check_mdts _ _)) eqn:H1; [wp_step; by apply Href|].
  destruct (failed (zns_check_bounds n slba nlb)) eqn:H2; [wp_step; by apply Href|].
  assert (0 < nlb) as Hpos by (unfold nlb; lia).
  destruct (bounds_ok _ _ _ Hg Hslba Hpos H2) as [Hs _].
  destruct (zone_idx_div n slba Hg Hs) as [Heq Hr]. destruct (zone_lookup n slba Hg Hs) as [z Hz].
  fold (target n slba) in Hz. rewrite Hz in Href.
  unfold zns_get_zone_by_slba. do 3 wp_step. rewrite Heq. wp_step. apply wp_assert; [lia|].
  do 2 wp_step. fold (target n slba). eapply wp_check_zone_write; [done|done|].
  destruct (failed (write_check n z slba nlb append)) eqn:H3; [wp_step; by apply Href|].
  destruct (write_check_ok n z slba nlb append) as (_ & Hw & _);
    [by eapply li_state, Hz; apply Hinv|done|].
  eapply wp_seq; [by apply wp_auto_open|]. intros st n1 [Ho ->].
  destruct (opened_zone _ _ _ _ Hinv Hz Ho) as [[Hinv1 Hr1 _] Hz1].
  assert (∀ st n', (if failed (limit_check z n1) then st = or_dnr (limit_check z n1) ∧ n' = n1
    else committed (target n slba) z nlb (zns_map_dptr n data_size)
           (zns_l2b n (if append then w_ptr z else slba)) n1 st n') →
    write_post append n st n') as Hpost.
  { intros st n' H. unfold write_post, write_refusal. fold c slba nlb data_size.
    rewrite H1, H2, Hz, H3. eauto. }
  destruct (failed (limit_check z n1)) eqn:H4; [wp_step; by apply Hpost|].
  apply (HK _ _ _ _ Hz1). eapply wp_mono.
  { eapply (wp_commit (target n slba) z nlb); rewrite ?(sr_req _ _ Hr1), ?(sr_ns _ _ Hr1),
      ?(sr_params _ _ Hr1); [done..|by apply limit_room|done]. }
  intros st n' Hc. apply Hpost.
  assert (zns_map_dptr n1 data_size = zns_map_dptr n data_size) as <-; [|done].
  unfold zns_map_dptr. by rewrite (sr_req _ _ Hr1), (sr_world _ _ Hr1).
Qed.

Lemma stays_set_is_write b n :
  zns_inv n → stays n (set_cur_req (req_set_is_write b (cur_req n)) n).
Proof. intros. split; auto using zns_inv_set_cur_req, evolves_refl. Qed.

(** The state in which [zns_write] runs its checks. *)
Definition as_write (b : bool) (n : FemuCtrl) : FemuCtrl :=
  set_cur_req (req_set_is_write b (cur_req n)) n.

Lemma wp_zns_write n :
  zns_inv n → cmd_ok (cmd (cur_req n)) → wp zns_write (write_post false (as_write true n)) n.
Proof.
  intros Hinv Hc. unfold zns_write. do 3 wp_step. apply wp_assert; [apply Hinv|].
  unfold set_is_write. do 2 wp_step.
  refine (wp_write_post false (as_write true n) (λ zone, commit zone _ _ _) _ Hc _).
  - by apply zns_inv_set_cur_req.
  - intros i z n1 Q _ H. exact H.
Qed.

Lemma wp_zns_zone_append n :
  zns_inv n → cmd_ok (cmd (cur_req n)) → wp zns_zone_append (write_post true n) n.
Proof.
  intros Hinv Hc. unfold zns_zone_append, zns_do_write. do 2 wp_step.
  refine (wp_write_post true n (λ zone, z <- zone_at zone;;
    commit zone (rw_nlb (cmd (cur_req n)) + 1) (zns_l2b n (rw_nlb (cmd (cur_req n)) + 1))
      (zns_l2b n (w_ptr z))) Hinv Hc _).
  intros i z n1 Q Hi H. wp_step. by eapply wp_zone_at.
Qed.

(** Either way the invariant stands. *)
Lemma write_post_stays append n st n' :
  zns_inv n → write_post append n st n' → stays n n'.
Proof.
  intros Hinv. unfold write_post. destruct (failed (write_refusal _ _)); [by intros [_ []]|].
  intros (z & n1 & Hz & Ho & H). destruct (opened_zone _ _ _ _ Hinv Hz Ho) as [Hk _].
  assert (stays n n1) as Hs by by apply kept_stays.
  destruct (failed (limit_check z n1)).
  - destruct H as [_ ->]. done.
  - destruct H as [H _]. by eapply stays_trans.
Qed.
End zns_write.
