(* ===== verification/ZnsRead.v ===== *)
(** * Reads

    The zones a read touches, the loop over them, and the command [zns_read]. *)

From stdpp Require Import base numbers option sets list list_numbers relations.
From S2P Require Import Prelude ZnsTypes ZnsOps ZnsInv ZnsHandlers ZnsBulk ZnsSend ZnsWrite.

Section zns_read.
Context {T : TailQ} {TOk : TailQOk T} {F : Femu}.
Implicit Types (n : FemuCtrl) (zone i : nat) (z : NvmeZone) (l : zone_list).

Notation zst := zns_get_zone_state.

Definition offline (z : NvmeZone) : bool := bool_decide (zst z = NVME_ZONE_STATE_OFFLINE).

(** Zones [i .. j - 1] of the array. *)
Definition zones_between (i j : nat) (n : FemuCtrl) : list NvmeZone :=
  take (j - i) (drop i (zone_array n)).

(** The answer of the zone checks to a read of LBAs [slba .. slba + nlb - 1]. *)
Definition read_check (n : FemuCtrl) (slba nlb : Z) : NvmeStatus :=
  let i := target n slba in
  let j := target n (slba + nlb - 1) in
  if existsb offline (zones_between i (S i) n) then status_of NVME_ZONE_OFFLINE
  else if decide (i = j) then SUCCESS
  else if negb (cross_zone_read (params n)) then status_of NVME_ZONE_BOUNDARY_ERROR
  else if existsb offline (zones_between (S i) (S j) n) then status_of NVME_ZONE_OFFLINE
  else SUCCESS.

Lemma zones_between_cons i j n z :
  zone_array n !! i = Some z → (i < j)%nat →
  zones_between i j n = z :: zones_between (S i) j n.
Proof.
  intros Hi Hij. unfold zones_between. rewrite (drop_S _ _ _ Hi).
  replace (j - i)%nat with (S (j - S i)) by lia. done.
Qed.

Lemma zones_between_nil i n : zones_between i i n = [].
Proof. unfold zones_between. by rewrite Nat.sub_diag. Qed.

Lemma wp_state_for_read i z n (Q : NvmeStatus → FemuCtrl → Prop) :
  zns_inv n → zone_array n !! i = Some z →
  Q (if offline z then status_of NVME_ZONE_OFFLINE else SUCCESS) n →
  wp (zns_check_zone_state_for_read z) Q n.
Proof.
  intros Hinv Hi HQ. pose proof (li_state _ _ (inv_lists _ Hinv) _ _ Hi) as Hok.
  unfold zns_check_zone_state_for_read, offline in *.
  destruct (zst z); try done; wp_step; exact HQ.
Qed.

Lemma target_lt n slba :
  geometry n → 0 ≤ slba < nsze (ns n) → (target n slba < length (zone_array n))%nat.
Proof. intros Hg Hs. destruct (zone_lookup n slba Hg Hs) as [z Hz]. by eapply lookup_lt_Some. Qed.

(** The end of zone [k] as the code computes it. *)
Lemma rd_boundary n k z :
  geometry n → zone_array n !! k = Some z →
  zns_zone_rd_boundary n z = Z.of_nat (S k) * zone_size (params n).
Proof.
  intros Hg Hk. unfold zns_zone_rd_boundary. destruct (ge_zone _ Hg _ _ Hk) as [-> _].
  apply lookup_lt_Some in Hk. pose proof (ge_len _ Hg). pose proof (ge_total _ Hg).
  pose proof (ge_size _ Hg). rewrite u64_small by nia. lia.
Qed.

(** Zone [k] ends before LBA [e] when the zone of LBA [e - 1] is a later one. *)
Lemma boundary_lt n k e :
  0 < zone_size (params n) → 0 < e →
  (Z.of_nat (S k) * zone_size (params n) <? e) = bool_decide (k < target n (e - 1))%nat.
Proof.
  intros Hsz He. unfold target. apply eq_true_iff_eq.
  rewrite Z.ltb_lt, bool_decide_eq_true.
  pose proof (Z.div_pos (e - 1) (zone_size (params n)) ltac:(lia) Hsz).
  pose proof (Z.mod_pos_bound (e - 1) (zone_size (params n)) Hsz).
  pose proof (Z.div_mod (e - 1) (zone_size (params n)) ltac:(lia)). split; intros; nia.
Qed.

Lemma wp_cross_zone_check n e fuel i (j := target n (e - 1)) :
  zns_inv n → 0 < e ≤ nsze (ns n) → (i < j)%nat → (j - i ≤ fuel)%nat →
  wp (cross_zone_check fuel i e) (λ st n',
    n' = n ∧ st = if existsb offline (zones_between (S i) (S j) n)
                  then status_of NVME_ZONE_OFFLINE else SUCCESS) n.
Proof.
  intros Hinv He. pose proof (inv_geometry _ Hinv) as Hg.
  assert (j < length (zone_array n))%nat as Hj by (apply target_lt; [done|lia]).
  revert i. induction fuel as [|fuel IH]; intros i Hij Hfuel; [lia|]. simpl.
  destruct (lookup_lt_is_Some_2 (zone_array n) (S i)) as [z Hz]; [lia|].
  do 3 wp_step. eapply wp_zone_at; [done|]. wp_step. eapply wp_state_for_read; [done|done|].
  rewrite (zones_between_cons _ _ _ _ Hz) by lia. cbn [existsb].
  destruct (offline z) eqn:Ho.
  { change (failed (status_of NVME_ZONE_OFFLINE)) with true. cbn iota. by wp_step. }
  rewrite failed_SUCCESS; cbn iota. rewrite (rd_boundary n (S i) z Hg Hz), boundary_lt by (apply Hg || lia).
  fold j. case_bool_decide as Hlt; cbn [orb].
  - apply IH; lia.
  - wp_step. split; [done|]. replace j with (S i) by lia. by rewrite zones_between_nil.
Qed.

Lemma wp_check_zone_read n slba nlb :
  zns_inv n → 0 ≤ slba < nsze (ns n) → 0 < nlb → slba + nlb ≤ nsze (ns n) →
  wp (zns_check_zone_read slba nlb) (λ st n', n' = n ∧ st = read_check n slba nlb) n.
Proof.
  intros Hinv Hs Hn He. pose proof (inv_geometry _ Hinv) as Hg.
  destruct (zone_idx_div n slba Hg Hs) as [Heq Hr]. destruct (zone_lookup n slba Hg Hs) as [z Hz].
  unfold zns_check_zone_read. do 3 wp_step. unfold zns_get_zone_by_slba. do 2 wp_step.
  rewrite Heq. wp_step. apply wp_assert; [lia|]. do 2 wp_step. fold (target n slba) in *.
  eapply wp_zone_at; [done|]. wp_step. eapply wp_state_for_read; [done|done|].
  unfold read_check. rewrite (zones_between_cons _ _ _ _ Hz), zones_between_nil by lia.
  cbn [existsb]. rewrite orb_false_r. destruct (offline z).
  { change (failed (status_of NVME_ZONE_OFFLINE)) with true. cbn iota. by wp_step. }
  pose proof (ge_total _ Hg). pose proof (ge_nsze _ Hg). pose proof (ge_size _ Hg).
  rewrite failed_SUCCESS; cbn iota. rewrite u64_small, (rd_boundary n _ z Hg Hz), boundary_lt by (apply Hg || lia).
  assert (target n slba ≤ target n (slba + nlb - 1))%nat as Hle.
  { unfold target. apply Z2Nat.inj_le; try (apply Z.div_pos; [lia|apply Hg]).
    apply Z.div_le_mono; [apply Hg|lia]. }
  case_bool_decide as Hlt.
  - rewrite decide_False by lia. destruct (cross_zone_read (params n)); cbn [negb]; [|by wp_step].
    apply wp_cross_zone_check; [done|lia|done|].
    pose proof (target_lt n (slba + nlb - 1) Hg ltac:(lia)). lia.
  - rewrite decide_True by lia. by wp_step.
Qed.

Lemma existsb_offline n i j :
  existsb offline (zones_between i j n) = false ↔
  ∀ k z, (i ≤ k < j)%nat → zone_array n !! k = Some z → zst z ≠ NVME_ZONE_STATE_OFFLINE.
Proof.
  rewrite <-not_true_iff_false, existsb_exists. unfold zones_between, offline. split.
  - intros Hn k z Hk Hz Hoff. apply Hn. exists z. split; [|by apply bool_decide_eq_true].
    apply list_elem_of_In, list_elem_of_lookup. exists (k - i)%nat.
    rewrite lookup_take_Some, lookup_drop. split; [|lia]. by replace (i + (k - i))%nat with k by lia.
  - intros Hall (z & Hin & Hoff%bool_decide_eq_true).
    apply list_elem_of_In, list_elem_of_lookup in Hin as [k Hk].
    rewrite lookup_take_Some, lookup_drop in Hk. destruct Hk as [Hk Hlt].
    by apply (Hall (i + k)%nat z); [lia|..].
Qed.

Lemma read_check_iff n slba nlb (i := target n slba) (j := target n (slba + nlb - 1)) :
  zns_inv n → 0 ≤ slba → 0 < nlb →
  read_check n slba nlb = SUCCESS ↔
  (∀ k z, (i ≤ k ≤ j)%nat → zone_array n !! k = Some z → zst z ≠ NVME_ZONE_STATE_OFFLINE) ∧
  (i = j ∨ cross_zone_read (params n) = true).
Proof.
  intros Hinv Hs Hn. pose proof (ge_size _ (inv_geometry _ Hinv)).
  assert (i ≤ j)%nat as Hij.
  { unfold i, j, target. apply Z2Nat.inj_le; try (apply Z.div_pos; lia).
    apply Z.div_le_mono; lia. }
  unfold read_check. fold i j.
  destruct (existsb offline (zones_between i (S i) n)) eqn:E1.
  { split; [done|]. intros [Hall _]. rewrite (proj2 (existsb_offline n i (S i))) in E1; [done|].
    intros k z Hk. apply Hall. lia. }
  rewrite existsb_offline in E1. destruct (decide (i = j)) as [<-|Hne].
  { split; [|done]. intros _. split; [|by left]. intros k z Hk. apply E1. lia. }
  destruct (cross_zone_read (params n)); cbn [negb]; [|naive_solver].
  destruct (existsb offline (zones_between (S i) (S j) n)) eqn:E2.
  - split; [done|]. intros [Hall _]. rewrite (proj2 (existsb_offline n (S i) (S j))) in E2; [done|].
    intros k z Hk. apply Hall. lia.
  - rewrite existsb_offline in E2. split; [|done]. intros _. split; [|by right].
    intros k z Hk. destruct (decide (k = i)) as [->|]; [apply E1; lia|apply E2; lia].
Qed.

(** ** The command *)

Definition read_refusal (n : FemuCtrl) : NvmeStatus :=
  let c := cmd (cur_req n) in
  let slba := rw_slba c in
  let nlb := rw_nlb c + 1 in
  let s1 := nvme_check_mdts (mdts (params n)) (zns_l2b n nlb) in
  let s2 := zns_check_bounds n slba nlb in
  let s3 := read_check n slba nlb in
  if failed s1 then s1 else if failed s2 then s2 else if failed s3 then s3
  else fst (zns_map_dptr n (zns_l2b n nlb)).

Definition read_post (n : FemuCtrl) (st : NvmeStatus) (n' : FemuCtrl) : Prop :=
  let c := cmd (cur_req n) in
  if failed (read_refusal n) then st = or_dnr (read_refusal n) ∧ n' = n
  else st = SUCCESS ∧ ∃ qsg, zns_map_dptr n (zns_l2b n (rw_nlb c + 1)) = (SUCCESS, Some qsg) ∧
    n' = set_world (backend_rw (world n) qsg (zns_l2b n (rw_slba c)) (is_write (cur_req n))) n.

Lemma wp_zns_read n :
  zns_inv n → cmd_ok (cmd (cur_req n)) → wp zns_read (read_post (as_write false n)) n.
Proof.
  intros Hinv Hc. unfold zns_read. do 3 wp_step. apply wp_assert; [apply Hinv|].
  unfold set_is_write. do 2 wp_step. fold (as_write false n). set (n1 := as_write false n) in *.
  assert (zns_inv n1) as Hinv1 by by apply zns_inv_set_cur_req.
  change (cmd (cur_req n)) with (cmd (cur_req n1)) in *. destruct Hc as [Hslba Hnlb].
  change (zns_check_bounds n) with (zns_check_bounds n1).
  change (zns_l2b n) with (zns_l2b n1). change (params n) with (params n1).
  unfold read_post, read_refusal. set (c := cmd (cur_req n1)) in *.
  destruct (failed (nvme_check_mdts _ _)) eqn:H1; [wp_step; rewrite H1; done|].
  destruct (failed (zns_check_bounds _ _ _)) eqn:H2; [wp_step; rewrite H2; done|].
  destruct (bounds_ok n1 (rw_slba c) (rw_nlb c + 1)) as [Hs He];
    [apply Hinv1|done|lia|done|].
  eapply wp_seq; [apply wp_check_zone_read; [done|done|lia|done]|].
  intros st n' [-> ->].
  destruct (failed (read_check _ _ _)) eqn:H3; [wp_step; rewrite H3; done|].
  do 2 wp_step. destruct (zns_map_dptr n1 _) as [st q] eqn:Hm. cbn [fst snd].
  destruct (failed st) eqn:H4; [by wp_step|].
  assert (∃ qsg, q = Some qsg) as [qsg ->].
  { unfold zns_map_dptr in Hm. destruct (psdt_is_prp _); simplify_eq; eauto. }
  assert (failed (if err_rec_dulbe (params n1) then zns_check_dulbe (rw_slba c) (rw_nlb c + 1)
    else SUCCESS) = false) as -> by by destruct (err_rec_dulbe _).
  wp_step. eapply wp_load; [done|]. do 3 wp_step. rewrite (not_failed _ H4). by eauto.
Qed.

Lemma read_post_stays n st n' : zns_inv n → read_post n st n' → stays n n'.
Proof.
  intros Hinv. unfold read_post. destruct (failed _).
  - intros [_ ->]. by apply stays_refl.
  - intros (_ & qsg & _ & ->). split; try done; [by apply zns_inv_set_world|apply evolves_refl].
Qed.
End zns_read.
