(* ===== verification/ZnsReport.v ===== *)
(** * Zone reports

    The two loops of [zns_zone_mgmt_recv] against a description of the report buffer:
    header, then the descriptors (and extensions) of the matching zones. *)

From stdpp Require Import base numbers option sets list list_numbers relations.
From S2P Require Import Prelude ZnsTypes ZnsOps ZnsInv ZnsHandlers ZnsBulk ZnsSend ZnsWrite ZnsRead.

Section zns_report.
Context {T : TailQ} {TOk : TailQOk T} {F : Femu}.
Implicit Types (n : FemuCtrl) (zone i : nat) (z : NvmeZone) (l : zone_list).

Notation zst := zns_get_zone_state.

Lemma length_descr_bytes z : length (descr_bytes z) = 64%nat.
Proof. done. Qed.

(** ** The counting loop *)

(** Iterations left when the loop is at LBA [slba] with [k] zones to go. *)
Definition at_zone (n : FemuCtrl) (slba : Z) (k : nat) : Prop :=
  slba < nsze (ns n) + zone_size (params n) ∧
  (if decide (k = 0%nat) then nsze (ns n) ≤ slba
   else nsze (ns n) - Z.of_nat k * zone_size (params n) ≤ slba <
        nsze (ns n) - (Z.of_nat k - 1) * zone_size (params n)).

Lemma at_zone_next n slba k :
  geometry n → 0 ≤ slba → at_zone n slba (S k) →
  u64 (slba + zone_size (params n)) = slba + zone_size (params n) ∧
  at_zone n (slba + zone_size (params n)) k ∧ slba < nsze (ns n).
Proof.
  intros Hg H0 [Hlt Hr]. rewrite decide_False in Hr by done.
  pose proof (ge_size _ Hg). pose proof (ge_total _ Hg). pose proof (ge_nsze _ Hg).
  assert (slba < nsze (ns n)) by nia. split_and!; [apply u64_small; lia| |done].
  split; [lia|]. case_decide; nia.
Qed.

Lemma wp_report_count n zrasf partial max_zones k fuel zone slba nr :
  zns_inv n → 0 ≤ slba → at_zone n slba k → (zone + k = length (zone_array n))%nat →
  (k ≤ fuel)%nat → 0 ≤ nr → (partial = true → nr ≤ max_zones) →
  wp (report_count fuel zone slba (nsze (ns n)) zrasf partial max_zones nr) (λ r n',
    n' = n ∧
    let total := nr + countb (zns_zone_matches_filter zrasf) (drop zone (zone_array n)) in
    r = if partial then Z.min total max_zones else total) n.
Proof.
  intros Hinv. pose proof (inv_geometry _ Hinv) as Hg.
  revert k zone slba nr. induction fuel as [|fuel IH]; intros k zone slba nr Hs Hat Hk Hfuel Hnr Hp.
  { assert (k = 0%nat) as -> by lia. destruct Hat as [_ Hat]. simpl in Hat. simpl.
    rewrite (proj2 (Z.ltb_ge _ _) Hat). wp_step. split; [done|].
    rewrite drop_ge by lia. simpl. destruct partial; [specialize (Hp eq_refl)|]; lia. }
  destruct k as [|k].
  { destruct Hat as [_ Hat]. simpl in Hat. simpl. rewrite (proj2 (Z.ltb_ge _ _) Hat). wp_step.
    split; [done|]. rewrite drop_ge by lia. simpl.
    destruct partial; [specialize (Hp eq_refl)|]; lia. }
  destruct (at_zone_next _ _ _ Hg Hs Hat) as (Hu & Hat' & Hlt). simpl.
  rewrite (proj2 (Z.ltb_lt _ _) Hlt).
  destruct (lookup_lt_is_Some_2 (zone_array n) zone) as [z Hz]; [lia|].
  rewrite (drop_S _ _ _ Hz). pose proof (countb_nonneg (zns_zone_matches_filter zrasf)
    (drop (S zone) (zone_array n))) as Hc.
  destruct (partial && (max_zones <=? nr)) eqn:Hstop.
  { apply andb_true_iff in Hstop as [-> Hge]. wp_step. split; [done|]. specialize (Hp eq_refl).
    simpl. destruct (zns_zone_matches_filter zrasf z); lia. }
  do 3 wp_step. eapply wp_zone_at; [done|]. rewrite Hu.
  pose proof (ge_size _ Hg). eapply wp_mono; [eapply (IH k); try done; try lia|].
  - destruct (zns_zone_matches_filter zrasf z); lia.
  - intros ->. specialize (Hp eq_refl). simpl in Hstop.
    destruct (zns_zone_matches_filter zrasf z); lia.
  - intros r n' [-> ->]. split; [done|]. simpl.
    destruct (zns_zone_matches_filter zrasf z), partial; lia.
Qed.

(** ** The report buffer *)

Definition entry_bytes (n : FemuCtrl) (extended : bool) (p : nat * NvmeZone) : list Z :=
  let sz := Z.to_nat (zd_extension_size (params n)) in
  descr_bytes p.2 ++
  if extended then
    if negb (Z.land (za (d p.2)) NVME_ZA_ZD_EXT_VALID =? 0)
    then take sz (drop (zns_get_zd_extension n (Z.of_nat p.1)) (zd_extensions n))
    else replicate sz 0
  else [].

(** The matching zones from [zone] on, with their indices. *)
Definition matching (n : FemuCtrl) (zrasf : Z) (zone : nat) : list (nat * NvmeZone) :=
  filter (λ p, zns_zone_matches_filter zrasf p.2 = true)
    (zip (seq zone (length (zone_array n) - zone)) (drop zone (zone_array n))).

Definition entry_size (n : FemuCtrl) (extended : bool) : Z :=
  sizeof_NvmeZoneDescr + (if extended then zd_extension_size (params n) else 0).

Definition report_entries (n : FemuCtrl) (extended : bool) (zrasf : Z) (max_zones : Z)
    (zone : nat) : list Z :=
  concat (entry_bytes n extended <$> take (Z.to_nat max_zones) (matching n zrasf zone)).

Lemma matching_cons n zrasf zone z :
  zone_array n !! zone = Some z →
  matching n zrasf zone =
    (if zns_zone_matches_filter zrasf z then [(zone, z)] else []) ++ matching n zrasf (S zone).
Proof.
  intros Hz. pose proof (lookup_lt_Some _ _ _ Hz). unfold matching. rewrite (drop_S _ _ _ Hz).
  replace (length (zone_array n) - zone)%nat with (S (length (zone_array n) - S zone)) by lia.
  cbn [seq zip zip_with]. rewrite filter_cons. cbn [snd].
  destruct (zns_zone_matches_filter zrasf z); [rewrite decide_True by done|
    rewrite decide_False by done]; done.
Qed.

Lemma matching_nil n zrasf zone :
  (length (zone_array n) ≤ zone)%nat → matching n zrasf zone = [].
Proof. intros H. unfold matching. by replace (length (zone_array n) - zone)%nat with 0%nat by lia. Qed.

(** Writing at the end of the used part of the buffer. *)
Lemma buf_write_zeros (pre bs : list Z) m :
  (length bs ≤ m)%nat →
  buf_write (pre ++ replicate m 0) (length pre) bs =
  Some ((pre ++ bs) ++ replicate (m - length bs) 0).
Proof.
  intros Hm. unfold buf_write, splice. rewrite length_app, length_replicate.
  rewrite decide_True by lia. rewrite take_app_length, drop_app_ge, drop_replicate by lia.
  rewrite <-app_assoc. do 4 f_equal. lia.
Qed.

Lemma zd_extension_bounds n zone :
  geometry n → (zone < length (zone_array n))%nat →
  (zns_get_zd_extension n (Z.of_nat zone) + Z.to_nat (zd_extension_size (params n))
     ≤ length (zd_extensions n))%nat.
Proof.
  intros Hg Hz. destruct (ge_zd _ Hg) as (H0 & H1 & H2). pose proof (ge_len _ Hg).
  unfold zns_get_zd_extension. rewrite u32_small by nia.
  destruct (decide (zd_extension_size (params n) = 0)) as [-> |Hne]; [lia|].
  specialize (H2 Hne). nia.
Qed.

Lemma length_entry n extended zone z :
  geometry n → (zone < length (zone_array n))%nat →
  Z.of_nat (length (entry_bytes n extended (zone, z))) = entry_size n extended.
Proof.
  intros Hg Hz. pose proof (zd_extension_bounds n zone Hg Hz). pose proof (ge_zd _ Hg).
  unfold entry_bytes, entry_size, sizeof_NvmeZoneDescr. cbn [fst snd].
  rewrite length_app, length_descr_bytes. destruct extended; [|simpl; lia].
  destruct (negb _); rewrite ?length_replicate, ?length_take, ?length_drop; lia.
Qed.

(** The bytes the body of the second loop leaves for one zone. *)
Lemma wp_report_entry n extended zone z pre m (Q : list Z → FemuCtrl → Prop)
    (k : list Z → nat → ST FemuCtrl (list Z)) :
  geometry n → zone_array n !! zone = Some z → entry_size n extended ≤ Z.of_nat m →
  (let e := entry_bytes n extended (zone, z) in
   wp (k ((pre ++ e) ++ replicate (m - length e) 0) (length (pre ++ e))) Q n) →
  wp (buf <- load (buf_write (pre ++ replicate m 0) (length pre) (descr_bytes z));;
      let buf_p := (length pre + Z.to_nat sizeof_NvmeZoneDescr)%nat in
      let sz := Z.to_nat (zd_extension_size (params n)) in
      if extended then
        buf <- (if negb (Z.land (za (d z)) NVME_ZA_ZD_EXT_VALID =? 0)
               then
                 let off := zns_get_zd_extension n (Z.of_nat zone) in
                 assert (off + sz <=? length (zd_extensions n))%nat;;
                 load (buf_write buf buf_p (take sz (drop off (zd_extensions n))))
               else ret buf);;
        k buf (buf_p + sz)%nat
      else k buf buf_p) Q n.
Proof.
  intros Hg Hz Hm Hk. pose proof (lookup_lt_Some _ _ _ Hz) as Hlt.
  pose proof (zd_extension_bounds n zone Hg Hlt) as Hoff. pose proof (ge_zd _ Hg) as [Hsz _].
  unfold entry_size, sizeof_NvmeZoneDescr, entry_bytes in *. cbn [fst snd] in *. cbv zeta in *.
  set (D := descr_bytes z) in *. assert (length D = 64%nat) as HD by done.
  assert ((length pre + Z.to_nat 64)%nat = length (pre ++ D)) as Hp
    by (rewrite length_app; lia).
  destruct extended.
  - wp_step. eapply wp_load; [apply buf_write_zeros; lia|].
    set (sz := Z.to_nat (zd_extension_size (params n))) in *. rewrite Hp, HD.
    destruct (negb _).
    + set (X := take sz (drop _ _)) in *. assert (length X = sz) as HX.
      { unfold X. rewrite length_take, length_drop. lia. }
      do 2 wp_step. apply wp_assert; [by apply Nat.leb_le|].
      eapply wp_load; [apply buf_write_zeros; lia|].
      rewrite app_assoc in Hk. replace (m - length (D ++ X))%nat with (m - 64 - length X)%nat in Hk
        by (rewrite length_app; lia).
      rewrite (length_app _ X), HX in Hk. by rewrite HX.
    + wp_step. wp_step. rewrite app_assoc in Hk.
      replace (m - 64)%nat with (sz + (m - 64 - sz))%nat by lia.
      rewrite replicate_add, app_assoc.
      rewrite (length_app (pre ++ D)), length_replicate in Hk.
      replace (m - length (D ++ replicate sz 0%Z))%nat with (m - 64 - sz)%nat in Hk
        by (rewrite length_app, length_replicate; lia). done.
  - wp_step. eapply wp_load; [apply buf_write_zeros; lia|]. rewrite app_nil_r in Hk.
    by rewrite Hp.
Qed.

Lemma wp_report_fill n extended zrasf k zone max_zones pre m :
  zns_inv n → (zone + k = length (zone_array n))%nat → 0 ≤ max_zones →
  max_zones * entry_size n extended ≤ Z.of_nat m →
  wp (report_fill k zone extended zrasf max_zones (pre ++ replicate m 0) (length pre))
    (λ buf n', n' = n ∧
       let E := report_entries n extended zrasf max_zones zone in
       buf = pre ++ E ++ replicate (m - length E) 0 ∧ (length E ≤ m)%nat) n.
Proof.
  intros Hinv. pose proof (inv_geometry _ Hinv) as Hg.
  assert (0 < entry_size n extended) as Hes.
  { pose proof (ge_zd _ Hg). unfold entry_size, sizeof_NvmeZoneDescr. destruct extended; lia. }
  assert (∀ zone max_zones pre m, report_entries n extended zrasf max_zones zone = [] →
    let E := report_entries n extended zrasf max_zones zone in
    pre ++ replicate m 0 = pre ++ E ++ replicate (m - length E) 0 ∧ (length E ≤ m)%nat) as Hstop.
  { intros zone0 mz pre0 m0 ->. simpl. rewrite Nat.sub_0_r. split; [done|lia]. }
  revert zone max_zones pre m. induction k as [|k IH]; intros zone mz pre m Hk Hmz Hm; simpl.
  { wp_step. split; [done|]. apply Hstop. unfold report_entries.
    by rewrite matching_nil, take_nil by lia. }
  destruct (lookup_lt_is_Some_2 (zone_array n) zone) as [z Hz]; [lia|].
  destruct (0 <? mz) eqn:Hpos.
  2:{ wp_step. split; [done|]. apply Hstop. unfold report_entries.
      by replace (Z.to_nat mz) with 0%nat by lia. }
  do 3 wp_step. eapply wp_zone_at; [done|].
  assert (report_entries n extended zrasf mz zone =
    (if zns_zone_matches_filter zrasf z then entry_bytes n extended (zone, z) else []) ++
    report_entries n extended zrasf
      (if zns_zone_matches_filter zrasf z then mz - 1 else mz) (S zone)) as HE.
  { unfold report_entries. rewrite (matching_cons _ _ _ _ Hz).
    destruct (zns_zone_matches_filter zrasf z); [|done].
    by replace (Z.to_nat mz) with (S (Z.to_nat (mz - 1))) by lia. }
  rewrite HE. destruct (zns_zone_matches_filter zrasf z); [|apply IH; [lia|lia|done]].
  pose proof (length_entry n extended zone z Hg ltac:(lia)) as Hle.
  eapply wp_report_entry with (k := λ buf buf_p,
    report_fill k (S zone) extended zrasf (mz - 1) buf buf_p); [done|done|nia|]. cbv zeta.
  set (e := entry_bytes n extended (zone, z)) in *.
  eapply wp_mono; [apply IH; [lia|lia|nia]|]. intros buf n' (-> & -> & HlE). split; [done|].
  set (E := report_entries _ _ _ _ _) in *. rewrite length_app.
  split; [|nia]. rewrite <-!app_assoc. do 4 f_equal. lia.
Qed.

(** ** The command *)

Definition recv_size (c : NvmeCmd) : Z := u32 (Z.shiftl (u32 (u32 (cdw12 c) + 1)) 2).
Definition recv_zra (c : NvmeCmd) : Z := Z.land (u32 (cdw13 c)) 255.
Definition recv_extended (c : NvmeCmd) : bool := recv_zra c =? 1.
Definition recv_zrasf (c : NvmeCmd) : Z := Z.land (Z.shiftr (u32 (cdw13 c)) 8) 255.
Definition recv_partial (c : NvmeCmd) : bool := negb (Z.land (Z.shiftr (u32 (cdw13 c)) 16) 1 =? 0).

(** The first check that fails, if any. *)
Definition recv_refusal (n : FemuCtrl) : NvmeStatus :=
  let c := cmd (cur_req n) in
  if nsze (ns n) <=? mgmt_slba c then or_dnr (status_of NVME_LBA_RANGE)
  else if (negb (recv_zra c =? 0) && negb (recv_extended c)) ||
     (recv_extended c && (zd_extension_size (params n) =? 0)) ||
     (7 <? recv_zrasf c) || (recv_size c <? sizeof_NvmeZoneReportHeader)
  then or_dnr (status_of NVME_INVALID_FIELD)
  else nvme_check_mdts (mdts (params n)) (recv_size c).

(** Descriptors that fit the buffer. *)
Definition recv_max (n : FemuCtrl) : Z :=
  let c := cmd (cur_req n) in
  (recv_size c - sizeof_NvmeZoneReportHeader) / entry_size n (recv_extended c).

(** The number of zones the header announces. *)
Definition recv_count (n : FemuCtrl) : Z :=
  let c := cmd (cur_req n) in
  let total := countb (zns_zone_matches_filter (recv_zrasf c))
                 (drop (target n (mgmt_slba c)) (zone_array n)) in
  if recv_partial c then Z.min total (recv_max n) else total.

Definition recv_buffer (n : FemuCtrl) : list Z :=
  let c := cmd (cur_req n) in
  let E := report_entries n (recv_extended c) (recv_zrasf c) (recv_max n)
             (target n (mgmt_slba c)) in
  le_bytes 8 (recv_count n) ++ replicate 56 0 ++ E ++
  replicate (Z.to_nat (recv_size c) - 64 - length E) 0.

Definition recv_post (n : FemuCtrl) (st : NvmeStatus) (n' : FemuCtrl) : Prop :=
  let c := cmd (cur_req n) in
  if failed (recv_refusal n) then st = recv_refusal n ∧ untouched n n'
  else
    let dma := dma_read_prp (world n) (recv_buffer n) (prp1 c) (prp2 c) in
    length (recv_buffer n) = Z.to_nat (recv_size c) ∧ st = fst dma ∧
    stays n n' ∧ zone_array n' = zone_array n ∧ (∀ l, list_of l n' = list_of l n) ∧
    world n' = snd dma.

Lemma recv_max_bounds n (c := cmd (cur_req n)) :
  geometry n → sizeof_NvmeZoneReportHeader ≤ recv_size c →
  0 ≤ recv_max n ∧
  recv_max n * entry_size n (recv_extended c) ≤ Z.of_nat (Z.to_nat (recv_size c) - 64).
Proof.
  intros Hg Hsz. pose proof (ge_zd _ Hg) as [Hzd _]. unfold recv_max. fold c.
  unfold entry_size, sizeof_NvmeZoneDescr, sizeof_NvmeZoneReportHeader in *.
  set (es := 64 + _). assert (0 < es) by (unfold es; destruct (recv_extended c); lia).
  pose proof (Z.div_pos (recv_size c - 64) es ltac:(lia) ltac:(done)).
  pose proof (Z.mul_div_le (recv_size c - 64) es ltac:(done)). lia.
Qed.

Lemma start_at_zone n slba :
  geometry n → 0 ≤ slba < nsze (ns n) →
  at_zone n slba (length (zone_array n) - target n slba).
Proof.
  intros Hg Hs. pose proof (target_lt n slba Hg Hs) as Hlt. unfold target in *.
  pose proof (ge_size _ Hg). pose proof (ge_nsze _ Hg). pose proof (ge_len _ Hg).
  pose proof (Z.div_pos slba (zone_size (params n)) ltac:(lia) ltac:(done)).
  pose proof (Z.mod_pos_bound slba (zone_size (params n)) ltac:(done)).
  pose proof (Z.div_mod slba (zone_size (params n)) ltac:(lia)).
  split; [lia|]. rewrite decide_False by lia. rewrite Nat2Z.inj_sub, Z2Nat.id by lia. nia.
Qed.

(** The two loops and the header together. *)
Lemma wp_report n (c := cmd (cur_req n)) (zone := target n (mgmt_slba c))
    (k : list Z → ST FemuCtrl NvmeStatus) (Q : NvmeStatus → FemuCtrl → Prop) :
  zns_inv n → mgmt_slba c < nsze (ns n) → sizeof_NvmeZoneReportHeader ≤ recv_size c →
  (length (recv_buffer n) = Z.to_nat (recv_size c) → wp (k (recv_buffer n)) Q n) →
  wp (nr_zones <- report_count (S (length (zone_array n))) zone (mgmt_slba c) (nsze (ns n))
                   (recv_zrasf c) (recv_partial c) (recv_max n) 0;;
      buf <- load (buf_write (replicate (Z.to_nat (recv_size c)) 0) 0 (le_bytes 8 nr_zones));;
      buf <- report_fill (length (zone_array n) - zone) zone (recv_extended c) (recv_zrasf c)
               (recv_max n) buf (Z.to_nat sizeof_NvmeZoneReportHeader);;
      k buf) Q n.
Proof.
  intros Hinv Hs Hsz Hk. pose proof (inv_geometry _ Hinv) as Hg. pose proof (mgmt_slba_nonneg c).
  destruct (recv_max_bounds n Hg Hsz) as [Hm0 Hm]. fold c in Hm.
  pose proof (target_lt n (mgmt_slba c) Hg ltac:(lia)) as Hlt. fold zone in Hlt.
  unfold sizeof_NvmeZoneReportHeader in *.
  eapply wp_seq.
  { eapply wp_report_count with (k := (length (zone_array n) - zone)%nat); try done; try lia.
    by apply start_at_zone. }
  intros nr n1 [-> Hnr]. rewrite Z.add_0_l in Hnr. fold c zone in Hnr.
  assert (nr = recv_count n) as -> by done. clear Hnr.
  wp_step. eapply wp_load.
  { apply (buf_write_zeros [] (le_bytes 8 (recv_count n)) (Z.to_nat (recv_size c))).
    rewrite length_le_bytes. lia. }
  rewrite app_nil_l, length_le_bytes.
  replace (Z.to_nat (recv_size c) - 8)%nat with (56 + (Z.to_nat (recv_size c) - 64))%nat by lia.
  rewrite replicate_add, app_assoc. eapply wp_seq.
  { eapply (wp_report_fill n (recv_extended c) (recv_zrasf c) _ zone (recv_max n)
      (le_bytes 8 (recv_count n) ++ replicate 56 0) (Z.to_nat (recv_size c) - 64)); try done; lia. }
  intros buf n1 (-> & -> & HE). rewrite <-app_assoc. apply Hk. unfold recv_buffer. fold c zone.
  rewrite !length_app, length_le_bytes, !length_replicate. lia.
Qed.

Lemma wp_zns_zone_mgmt_recv n :
  zns_inv n → zns_ns_nlbas n = nsze (ns n) → wp zns_zone_mgmt_recv (recv_post n) n.
Proof.
  intros Hinv Hcap. unfold zns_zone_mgmt_recv. do 2 wp_step. rewrite Hcap.
  set (c := cmd (cur_req n)). unfold set_req_status. do 2 wp_step. set (n1 := set_cur_req _ n).
  assert (zns_inv n1) as Hinv1 by by apply zns_inv_set_cur_req.
  assert (stays n n1) as Hs1 by by apply stays_set_req_status.
  wp_step. apply wp_get_mgmt_zone_slba_idx; [done|].
  change (ns n1) with (ns n). change (params n1) with (params n).
  assert (∀ st, failed (recv_refusal n) = true → st = recv_refusal n → recv_post n st n1) as Href.
  { intros st Hf ->. unfold recv_post. rewrite Hf. by split_and!. }
  unfold recv_refusal in Href. fold c in Href.
  destruct (nsze (ns n) <=? mgmt_slba c) eqn:Hle; cbn [fst snd];
    [change (failed (or_dnr (status_of NVME_LBA_RANGE))) with true; cbn iota; by wp_step; apply Href|].
  change (failed SUCCESS) with false; cbn iota.
  do 2 wp_step.
  change (Z.land (u32 (cdw13 c)) 255) with (recv_zra c).
  change (Z.land (Z.shiftr (u32 (cdw13 c)) 8) 255) with (recv_zrasf c).
  change (u32 (Z.shiftl (u32 (u32 (cdw12 c) + 1)) 2)) with (recv_size c).
  fold (recv_extended c). change (params n1) with (params n).
  destruct (negb (recv_zra c =? 0) && negb (recv_extended c)) eqn:E1; [by wp_step; apply Href|].
  destruct (recv_extended c && (zd_extension_size (params n) =? 0)) eqn:E2; [by wp_step; apply Href|].
  destruct (7 <? recv_zrasf c) eqn:E3; [by wp_step; apply Href|].
  destruct (recv_size c <? sizeof_NvmeZoneReportHeader) eqn:Hsz; [by wp_step; apply Href|].
  cbn [orb] in Href.
  destruct (failed (nvme_check_mdts _ _)) eqn:Hmd; [by wp_step; apply Href|]. clear Href.
  pose proof (inv_geometry _ Hinv) as Hg. pose proof (mgmt_slba_nonneg c).
  pose proof (target_lt n (mgmt_slba c) Hg ltac:(lia)) as Hlt. pose proof (ge_len _ Hg) as Hlen.
  replace (Z.to_nat (num_zones (params n) - mgmt_slba c / zone_size (params n)))
    with (length (zone_array n) - target n (mgmt_slba c))%nat.
  2:{ unfold target in *. pose proof (ge_size _ Hg).
      pose proof (Z.div_pos (mgmt_slba c) (zone_size (params n))). lia. }
  refine (wp_report n1 (λ buf, n <- get;;
    let dma := dma_read_prp (world n) buf (prp1 c) (prp2 c) in
    modify (set_world (snd dma));; ret (fst dma)) (recv_post n) Hinv1 _ _ _).
  - change (mgmt_slba c < nsze (ns n)). lia.
  - change (sizeof_NvmeZoneReportHeader ≤ recv_size c). lia.
  - intros Hbuf. repeat wp_step. unfold recv_post, recv_refusal. fold c. rewrite Hle.
    rewrite E1, E2, E3, Hsz. cbn [orb]. rewrite Hmd.
    change (recv_buffer n1) with (recv_buffer n). split_and!; try done.
    split; try done; [by apply zns_inv_set_world|apply evolves_refl].
Qed.
End zns_report.
