(* ===== verification/ZnsInit.v ===== *)
(** * Start-up of the zoned namespace

    The geometry computed from the configuration, and the state the controller starts
    in: it satisfies the invariant, with every zone empty. *)

From stdpp Require Import base numbers option sets list list_numbers.
From S2P Require Import Prelude ZnsTypes ZnsOps ZnsInv.

Section zns_init.
Context {T : TailQ} {TOk : TailQOk T} {F : Femu} {FOk : FemuOk F}.
Implicit Types (n : FemuCtrl) (p : ZnsParams).

Notation zst := zns_get_zone_state.

(** ** Geometry *)

(** LBA size, zone size and zone capacity in bytes. *)
Definition conf_lbasz (n : FemuCtrl) : Z := u32 (Z.shiftl 1 (zns_ns_lbads n)).
Definition conf_zsz (n : FemuCtrl) : Z :=
  if zone_size_bs (params n) =? 0 then NVME_DEFAULT_ZONE_SIZE else zone_size_bs (params n).
Definition conf_zcp (n : FemuCtrl) : Z :=
  if zone_cap_bs (params n) =? 0 then conf_zsz n else zone_cap_bs (params n).

(** The namespace holds at least one zone, and fewer than 2^32. *)
Record conf_ok (n : FemuCtrl) : Prop := {
  cf_zoned : zoned (params n) = true;
  cf_lbads : 1 ≤ zns_ns_lbads n < 32;
  cf_size : 0 ≤ zone_size_bs (params n) < 2 ^ 64;
  cf_cap : 0 ≤ zone_cap_bs (params n) < 2 ^ 64;
  cf_ns : conf_zsz n ≤ ns_size (ns n) < 2 ^ 64;
  cf_num : ns_size (ns n) / conf_lbasz n / (conf_zsz n / conf_lbasz n) < 2 ^ 32;
  cf_max : 0 ≤ max_open_zones (params n) ∧ 0 ≤ max_active_zones (params n);
  cf_zd : 0 ≤ zd_extension_size (params n);
  cf_zd_total : zd_extension_size (params n) *
    (ns_size (ns n) / conf_lbasz n / (conf_zsz n / conf_lbasz n)) < 2 ^ 32;
  cf_nr : nr_open_zones n = 0 ∧ nr_active_zones n = 0
}.

(** Whether the configuration is accepted. *)
Definition geometry_accepted (n : FemuCtrl) : bool :=
  let p := params n in
  let num := ns_size (ns n) / conf_lbasz n / (conf_zsz n / conf_lbasz n) in
  (conf_zcp n <=? conf_zsz n) && (conf_lbasz n <=? conf_zcp n) &&
  (max_open_zones p <=? num) && (max_active_zones p <=? num) &&
  (Z.land (zd_extension_size p) 63 =? 0) && (Z.shiftr (zd_extension_size p) 6 <=? 255).

Definition conf_params (n : FemuCtrl) : ZnsParams :=
  params_geometry (conf_zsz n / conf_lbasz n) (conf_zcp n / conf_lbasz n)
    (ns_size (ns n) / conf_lbasz n / (conf_zsz n / conf_lbasz n)) (params n).

Lemma conf_lbasz_pow n : 1 ≤ zns_ns_lbads n < 32 → conf_lbasz n = 2 ^ zns_ns_lbads n.
Proof.
  intros H. unfold conf_lbasz. rewrite Z.shiftl_1_l, u32_small; [done|].
  split; [lia|]. apply Z.pow_lt_mono_r; lia.
Qed.

Lemma conf_lbasz_pos n : 1 ≤ zns_ns_lbads n < 32 → 2 ≤ conf_lbasz n.
Proof.
  intros H. rewrite conf_lbasz_pow by done. change 2 with (2 ^ 1) at 1.
  apply Z.pow_le_mono_r; lia.
Qed.

Lemma wp_init_zone_geometry n :
  conf_ok n →
  wp zns_init_zone_geometry (λ r n',
    (r = 0 ↔ geometry_accepted n = true) ∧
    (r = 0 → n' = set_params (conf_params n) n)) n.
Proof.
  intros []. pose proof (conf_lbasz_pos n ltac:(done)) as Hl.
  assert (0 ≤ conf_zsz n) by (unfold conf_zsz, NVME_DEFAULT_ZONE_SIZE, MiB; case_match; lia).
  unfold zns_init_zone_geometry. do 2 wp_step. fold (conf_lbasz n).
  replace (if negb (zone_size_bs (params n) =? 0) then zone_size_bs (params n)
    else NVME_DEFAULT_ZONE_SIZE) with (conf_zsz n)
    by (unfold conf_zsz; by destruct (zone_size_bs (params n) =? 0)).
  replace (if negb (zone_cap_bs (params n) =? 0) then zone_cap_bs (params n) else conf_zsz n)
    with (conf_zcp n) by (unfold conf_zcp; by destruct (zone_cap_bs (params n) =? 0)).
  unfold geometry_accepted, conf_params.
  destruct (conf_zsz n <? conf_zcp n) eqn:E1; [wp_step; split; lia|].
  destruct (conf_zsz n <? conf_lbasz n) eqn:E2; [wp_step; split; lia|].
  destruct (conf_zcp n <? conf_lbasz n) eqn:E3; [wp_step; split; lia|].
  set (zs := conf_zsz n / conf_lbasz n) in *.
  set (num := ns_size (ns n) / conf_lbasz n / zs) in *.
  assert (0 < zs) by (apply Z.div_str_pos; lia).
  assert (0 ≤ num) by (apply Z.div_pos; [apply Z.div_pos|]; lia).
  rewrite u32_small by lia. do 2 wp_step.
  destruct (num <? max_open_zones (params n)) eqn:E4; [wp_step; split; lia|].
  destruct (num <? max_active_zones (params n)) eqn:E5; [wp_step; split; lia|].
  destruct (negb (zd_extension_size (params n) =? 0)) eqn:E6.
  - destruct (Z.land _ _ =? 0) eqn:E7; cbn [negb].
    + destruct (255 <? _) eqn:E8; wp_step; (split; [lia|done]).
    + wp_step. rewrite andb_false_r. done.
  - wp_step. assert (zd_extension_size (params n) = 0) as -> by lia. change (Z.land 0 63) with 0. change (Z.shiftr 0 6) with 0. split; [lia|done].
Qed.

(** ** The zone array *)

Definition fresh_zone (zcp start : Z) : NvmeZone :=
  zns_set_zone_state
    (mk_zone (mk_descr NVME_ZONE_TYPE_SEQ_WRITE 0 0 zcp start start) start false)
    NVME_ZONE_STATE_EMPTY.

Lemma init_zones_map k zcp cap start size :
  0 ≤ start → 0 < size → start + Z.of_nat k * size ≤ cap → cap + size ≤ 2 ^ 64 →
  init_zones k zcp cap start size =
  (λ j, fresh_zone zcp (start + Z.of_nat j * size)) <$> seq 0 k.
Proof.
  intros H0 Hs Hcap Hb. revert start H0 Hcap. induction k as [|k IH]; intros start H0 Hcap; [done|].
  cbn [init_zones seq fmap list_fmap]. rewrite (u64_small (start + size)) by lia.
  rewrite (proj2 (Z.ltb_ge cap _)) by lia. f_equal.
  - by rewrite Z.mul_0_l, Z.add_0_r.
  - rewrite u64_small, IH, <-(fmap_S_seq 0 k), <-list_fmap_compose by lia.
    apply list_fmap_ext. intros _ j _. simpl. f_equal. lia.
Qed.

(** ** The state after start-up *)

(** All zones empty, with their write pointers at the start. *)
Record fresh (n : FemuCtrl) : Prop := {
  fr_zones : zone_array n =
    (λ j, fresh_zone (zone_capacity (params n)) (Z.of_nat j * zone_size (params n)))
      <$> seq 0 (Z.to_nat (num_zones (params n)));
  fr_lists l : elems (list_of l n) = []
}.

Lemma fresh_lookup n i z :
  fresh n → zone_array n !! i = Some z →
  z = fresh_zone (zone_capacity (params n)) (Z.of_nat i * zone_size (params n)) ∧
  (i < Z.to_nat (num_zones (params n)))%nat.
Proof.
  intros [-> _]. rewrite list_lookup_fmap. intros (j & Hj & ->)%fmap_Some.
  apply lookup_seq in Hj as [-> Hlt]. done.
Qed.

Lemma fresh_lists_inv n : fresh n → lists_inv None n.
Proof.
  intros Hf. split.
  - intros l. rewrite (fr_lists _ Hf). constructor.
  - intros l i. rewrite (fr_lists _ Hf). split; [set_solver|].
    intros (_ & z & Hz & Hl). by apply (fresh_lookup n i z Hf) in Hz as [-> _].
  - intros i z Hz. by apply (fresh_lookup n i z Hf) in Hz as [-> _].
  - intros i z Hz. by apply (fresh_lookup n i z Hf) in Hz as [-> _].
Qed.

Lemma fresh_counters n :
  fresh n → nr_open_zones n = 0 → nr_active_zones n = 0 →
  0 ≤ max_open_zones (params n) → 0 ≤ max_active_zones (params n) → counters 0 0 n.
Proof.
  intros Hf Ho Ha ? ?. split; rewrite ?Ho, ?Ha; try done; intros _; (split; [|lia]);
    rewrite Z.add_0_r; symmetry; apply countb_zero; intros i z Hz;
    by apply (fresh_lookup n i z Hf) in Hz as [-> _].
Qed.

(** The log2 computed at start-up is that of the zone size, when it is a power of two. *)
Lemma init_log2 x :
  0 < x < 2 ^ 64 →
  let l := if is_power_of_2 x then 63 - clz64 x else 0 in
  l = 0 ∨ 0 < l ∧ x = 2 ^ l.
Proof.
  intros Hx. simpl. destruct (is_power_of_2 x) eqn:E; [|by left].
  apply is_power_of_2_spec in E; [|done]. rewrite clz64_spec by done.
  replace (63 - (63 - Z.log2 x)) with (Z.log2 x) by lia.
  pose proof (Z.log2_nonneg x). destruct (decide (Z.log2 x = 0)); [by left|]. right. lia.
Qed.

Lemma wp_init_zoned_state n (Q : unit → FemuCtrl → Prop) (p := params n) :
  0 < zone_size p → 0 ≤ num_zones p → num_zones p * zone_size p + zone_size p ≤ 2 ^ 64 →
  0 ≤ zd_extension_size p * num_zones p < 2 ^ 32 →
  (∀ n', fresh n' → ns n' = ns n → nr_open_zones n' = nr_open_zones n →
     nr_active_zones n' = nr_active_zones n →
     params n' = params_log2
       (if is_power_of_2 (zone_size p) then 63 - clz64 (zone_size p) else 0) p →
     (zd_extension_size p ≠ 0 →
        Z.of_nat (length (zd_extensions n')) = zd_extension_size p * num_zones p) →
     Q tt n') →
  wp zns_init_zoned_state Q n.
Proof.
  intros Hs Hn Ht Hz HQ. unfold zns_init_zoned_state. do 4 wp_step. fold p.
  rewrite u64_small by lia. rewrite init_zones_map by (rewrite ?Z2Nat.id by lia; lia).
  apply wp_bind, wp_when; intros Hzd; repeat wp_step.
  - apply HQ; try done.
    + split; [done|]. intros []; apply elems_init.
    + intros _. simpl. rewrite length_replicate, u32_small by lia. lia.
  - apply HQ; try done.
    + split; [done|]. intros []; apply elems_init.
    + intros Hne. apply negb_false_iff, Z.eqb_eq in Hzd. done.
Qed.

(** A fresh state whose parameters come from an accepted configuration. *)
Lemma fresh_inv n :
  fresh n → nr_open_zones n = 0 → nr_active_zones n = 0 →
  (let p := params n in
   zoned p = true ∧ 0 < zone_size p ∧ 0 < zone_capacity p ≤ zone_size p ∧
   0 < num_zones p < 2 ^ 32 ∧ num_zones p * zone_size p + zone_size p ≤ 2 ^ 64 ∧
   (zone_size_log2 p = 0 ∨ 0 < zone_size_log2 p ∧ zone_size p = 2 ^ zone_size_log2 p) ∧
   nsze (ns n) = num_zones p * zone_size p ∧
   0 ≤ zd_extension_size p ∧ zd_extension_size p * num_zones p < 2 ^ 32 ∧
   (zd_extension_size p ≠ 0 →
    Z.of_nat (length (zd_extensions n)) = zd_extension_size p * num_zones p) ∧
   0 ≤ max_open_zones p ∧ 0 ≤ max_active_zones p) → zns_inv n.
Proof.
  intros Hf Ho Ha (? & ? & ? & ? & ? & ? & ? & ? & ? & ? & ? & ?). split.
  - by apply fresh_lists_inv.
  - by apply fresh_counters.
  - split; try done; try tauto.
    + rewrite (fr_zones _ Hf), length_fmap, length_seq. lia.
    + intros i z Hz. by apply (fresh_lookup n i z Hf) in Hz as [-> _].
Qed.

(** Sizes of an accepted configuration. *)
Lemma conf_sizes n (p := conf_params n) :
  conf_ok n → geometry_accepted n = true →
  0 < zone_size p ∧ 0 < zone_capacity p ≤ zone_size p ∧ 0 < num_zones p < 2 ^ 32 ∧
  num_zones p * zone_size p + zone_size p ≤ 2 ^ 64.
Proof.
  intros [] Hacc. pose proof (conf_lbasz_pos n ltac:(done)) as Hl.
  unfold geometry_accepted in Hacc. rewrite !andb_true_iff, !Z.leb_le in Hacc.
  destruct Hacc as (((((Hc & Hlc) & _) & _) & _) & _). unfold p, conf_params. simpl.
  set (L := conf_lbasz n) in *. set (zs := conf_zsz n / L) in *.
  set (lbas := ns_size (ns n) / L) in *.
  assert (0 < zs) by (apply Z.div_str_pos; lia).
  assert (zs ≤ lbas) by (apply Z.div_le_mono; lia).
  assert (lbas < 2 ^ 63) by (apply Z.div_lt_upper_bound; lia).
  pose proof (Z.mul_div_le lbas zs ltac:(lia)).
  split_and!; [lia| | | |lia|nia].
  - apply Z.div_str_pos; lia.
  - apply Z.div_le_mono; lia.
  - apply Z.div_str_pos; lia.
Qed.

(** The zones and counters after [zns_init_zone_geometry] accepted the configuration. *)
Lemma wp_init_zone_identify n0 n (Q : unit → FemuCtrl → Prop) lba_index :
  conf_ok n0 → geometry_accepted n0 = true → n = set_params (conf_params n0) n0 →
  (∀ n', zns_inv n' → fresh n' → num_zones (params n') = num_zones (conf_params n0) →
     zone_size (params n') = zone_size (conf_params n0) →
     zone_capacity (params n') = zone_capacity (conf_params n0) →
     csi (params n') = NVME_CSI_ZONED → Q tt n') →
  wp (zns_init_zone_identify lba_index) Q n.
Proof.
  intros Hc Hacc -> HQ. destruct (conf_sizes n0 Hc Hacc) as (Hs & Hcap & Hn & Ht).
  unfold zns_init_zone_identify. wp_step. destruct Hc.
  apply wp_init_zoned_state; simpl in *; try done; try lia.
  intros n1 Hf Hns Ho Ha Hp Hzd. do 2 wp_step. repeat wp_step. rewrite Hp.
  assert (u64 (num_zones (params n1) * zone_size (params n1)) =
    num_zones (conf_params n0) * zone_size (conf_params n0)) as Htot.
  { rewrite Hp. simpl. apply u64_small. nia. }
  rewrite Hp in Htot. simpl in Htot.
  match goal with |- Q tt ?n => assert (fresh n) as Hf' end.
  { destruct Hf as [H1 H2]. split; [|intros l; specialize (H2 l); by destruct l]. simpl. by rewrite H1, Hp. }
  destruct cf_nr0 as [Ho0 Ha0]. apply HQ; try done. apply fresh_inv; [done|..].
  - simpl. by rewrite Ho.
  - simpl. by rewrite Ha.
  - simpl. split_and!; try done; try lia; try tauto. apply init_log2. lia.
Qed.

(** ** [zns_init] *)

(** A namespace the default zones fit: at least one zone of 128 MiB, fewer than 2^32. *)
Record default_ok (n : FemuCtrl) : Prop := {
  do_lbads : 1 ≤ zns_ns_lbads n ≤ 27;
  do_size : NVME_DEFAULT_ZONE_SIZE ≤ ns_size (ns n) < NVME_DEFAULT_ZONE_SIZE * 2 ^ 32;
  do_nr : nr_open_zones n = 0 ∧ nr_active_zones n = 0
}.

Definition with_zone_cap (n : FemuCtrl) : FemuCtrl :=
  let p := params n in
  set_params (mk_params true NVME_DEFAULT_MAX_AZ_SIZE NVME_DEFAULT_ZONE_SIZE 0 false 0 0 0
    (zone_size p) (zone_capacity p) (num_zones p) (zone_size_log2 p) (page_size p) (mdts p)
    (zasl p) (csi p) (err_rec_dulbe p)) n.

Lemma default_num n :
  default_ok n →
  ns_size (ns n) / conf_lbasz n / (NVME_DEFAULT_ZONE_SIZE / conf_lbasz n) =
  ns_size (ns n) / NVME_DEFAULT_ZONE_SIZE.
Proof.
  intros []. rewrite conf_lbasz_pow by lia. change NVME_DEFAULT_ZONE_SIZE with (2 ^ 27) in *.
  rewrite <-(Z.pow_sub_r 2 27) by lia.
  assert (0 < 2 ^ zns_ns_lbads n) by (apply Z.pow_pos_nonneg; lia).
  assert (0 < 2 ^ (27 - zns_ns_lbads n)) by (apply Z.pow_pos_nonneg; lia).
  rewrite Z.div_div, <-Z.pow_add_r by lia. do 2 f_equal. lia.
Qed.

Lemma default_conf n :
  default_ok n → conf_ok (with_zone_cap n) ∧ geometry_accepted (with_zone_cap n) = true.
Proof.
  intros Hd. pose proof (default_num n Hd) as Hnum. destruct Hd.
  assert (conf_zsz (with_zone_cap n) = NVME_DEFAULT_ZONE_SIZE) as Hz by done.
  assert (conf_lbasz (with_zone_cap n) = conf_lbasz n) as Hl by done.
  assert (conf_zcp (with_zone_cap n) = NVME_DEFAULT_ZONE_SIZE) as Hc by done.
  assert (conf_lbasz n ≤ NVME_DEFAULT_ZONE_SIZE) as Hle.
  { rewrite conf_lbasz_pow by lia. change NVME_DEFAULT_ZONE_SIZE with (2 ^ 27).
    apply Z.pow_le_mono_r; lia. }
  assert (0 ≤ ns_size (ns n) / NVME_DEFAULT_ZONE_SIZE < 2 ^ 32) as Hr.
  { unfold NVME_DEFAULT_ZONE_SIZE, MiB in *. split; [apply Z.div_pos; lia|].
    apply Z.div_lt_upper_bound; lia. }
  assert (zns_ns_lbads (with_zone_cap n) = zns_ns_lbads n) as Hb by done. split.
  - split; rewrite ?Hz, ?Hl, ?Hb; simpl; rewrite ?Hnum; unfold NVME_DEFAULT_ZONE_SIZE, MiB in *;
      try done; lia.
  - unfold geometry_accepted. rewrite Hz, Hl, Hc. simpl.
    rewrite Hnum, !andb_true_iff, !Z.leb_le. split_and!; done || lia.
Qed.

Lemma wp_zns_init n :
  default_ok n →
  wp zns_init (λ _ n',
    zns_inv n' ∧ fresh n' ∧ csi (params n') = NVME_CSI_ZONED ∧
    num_zones (params n') = ns_size (ns n) / NVME_DEFAULT_ZONE_SIZE ∧
    zone_size (params n') = NVME_DEFAULT_ZONE_SIZE / 2 ^ zns_ns_lbads n ∧
    zone_capacity (params n') = zone_size (params n')) n.
Proof.
  intros Hd. destruct (default_conf n Hd) as [Hc Ha]. unfold zns_init, zns_init_zone_cap.
  do 4 wp_step. fold (with_zone_cap n). eapply wp_seq; [by apply wp_init_zone_geometry|].
  intros r n1 [Hr Hn1]. apply Hr in Ha as Hr0. rewrite Hr0. simpl.
  eapply wp_init_zone_identify; [done|done|by apply Hn1|].
  intros n' Hinv Hf Hn Hs Hcap Hcsi. split_and!; try done.
  - rewrite Hn. exact (default_num n Hd).
  - rewrite Hs. simpl. by rewrite <-(conf_lbasz_pow n) by (destruct Hd; lia).
  - by rewrite Hs, Hcap.
Qed.
End zns_init.
