(* ===== verification/ZnsShutdown.v ===== *)
(** * Shutdown of the zoned namespace

    [zns_zoned_ns_shutdown] takes every active zone off its list and closes or empties
    it; no zone is left open. *)

From stdpp Require Import base numbers option sets list list_numbers relations.
From S2P Require Import Prelude ZnsTypes ZnsOps ZnsInv ZnsHandlers ZnsBulk ZnsSend ZnsWrite ZnsRead ZnsReport ZnsInit.

Section shutdown.
Context {T : TailQ} {TOk : TailQOk T} {F : Femu}.
Implicit Types (n : FemuCtrl) (zone i : nat) (z : NvmeZone) (l : zone_list).

Notation zst := zns_get_zone_state.

(** ** A zone off its list

    [det i z o a n0 n]: zone [i], now [z], was taken off its list since [n0]; the
    counters have the surplus [o], [a]. *)
Record det (i : nat) (z : NvmeZone) (o a : Z) (n0 n : FemuCtrl) : Prop := {
  det_lists : lists_inv (Some i) n;
  det_counters : counters o a n;
  det_geometry : geometry n;
  det_zone : zone_array n !! i = Some z;
  det_zones : zone_array n = <[i := z]> (zone_array n0);
  det_rest : same_rest n0 n;
  det_list l : elems (list_of l n) = lrm i (elems (list_of l n0))
}.

Lemma det_same_zones i z o a o' a' n0 n n' :
  det i z o a n0 n → same_zones n n' → counters o' a' n' → det i z o' a' n0 n'.
Proof.
  intros [] Hs Hc. split; [by eapply lists_inv_same_zones|done|by eapply geometry_same_zones
    |by rewrite (sz_zones _ _ Hs)|by rewrite (sz_zones _ _ Hs)
    |eapply same_rest_trans; [done|by apply same_zones_rest]|].
  intros l. by rewrite (sz_lists _ _ Hs).
Qed.

Lemma wp_det_remove i z n l (Q : unit → FemuCtrl → Prop) :
  zns_inv n → zone_array n !! i = Some z → state_list (zst z) = Some l →
  (∀ n', det i (zone_set_entry false z) 0 0 n n' → Q tt n') → wp (remove l i) Q n.
Proof.
  intros Hinv Hi Hl HQ. eapply wp_mono; [eapply wp_remove; [apply Hinv|done|done]|].
  intros [] n1 (Hl1 & Hc1 & Hz1 & Ho1). apply HQ. split; [done| | | |done| |done].
  - pose proof (counters_update 0 0 n n1 i z _ (inv_counters _ Hinv) Hc1 Hi Hz1) as Hct.
    change (zst (zone_set_entry false z)) with (zst z) in Hct. by rewrite !Z.add_simpl_r in Hct.
  - destruct Hc1. eapply geometry_update; [apply Hinv|done..].
  - rewrite Hz1. apply list_lookup_insert_eq. by eapply lookup_lt_Some.
  - by apply same_ctl_rest.
Qed.

Lemma wp_det_update i z o a f n0 n (Q : unit → FemuCtrl → Prop) :
  det i z o a n0 n → zone_state_ok (zst (f z)) = true → entry_used (f z) = false →
  same_place z (f z) →
  (∀ n', det i (f z) (o + Z.b2z (open_state (zst z)) - Z.b2z (open_state (zst (f z))))
     (a + Z.b2z (active_state (zst z)) - Z.b2z (active_state (zst (f z)))) n0 n' → Q tt n') →
  wp (zone_update i f) Q n.
Proof.
  intros [] Hok He Hp HQ. eapply wp_zone_update; [done|]. apply HQ. split; try done.
  - by eapply lists_inv_detached.
  - by eapply (counters_update o a n _ i z (f z)).
  - by eapply geometry_update.
  - simpl. apply list_lookup_insert_eq. by eapply lookup_lt_Some.
  - simpl. by rewrite det_zones0, list_insert_insert_eq.
  - eapply same_rest_trans; [done|apply same_rest_zone_array].
Qed.

(** ** Clearing a zone *)

Definition keeps_data (z : NvmeZone) : bool :=
  negb (wp_ (d z) =? zslba (d z)) || negb (Z.land (za (d z)) NVME_ZA_ZD_EXT_VALID =? 0).

(** What shutdown makes of an active zone. *)
Definition cleared (z : NvmeZone) : NvmeZone :=
  let z1 := zone_set_w_ptr (wp_ (d z)) z in
  if keeps_data z then
    zone_set_entry true
      (if decide (zst z = NVME_ZONE_STATE_CLOSED) then z1
       else zns_set_zone_state z1 NVME_ZONE_STATE_CLOSED)
  else zone_set_entry false (zns_set_zone_state z1 NVME_ZONE_STATE_EMPTY).

Lemma zst_cleared z :
  zst (cleared z) = if keeps_data z then NVME_ZONE_STATE_CLOSED else NVME_ZONE_STATE_EMPTY.
Proof.
  unfold cleared. destruct (keeps_data z); [|done].
  case_decide as E; [exact E|done].
Qed.

Lemma trans_cleared z :
  active_state (zst z) = true → rtc zone_trans (zst z) (zst (cleared z)).
Proof.
  intros Ha. rewrite zst_cleared. destruct (keeps_data z).
  - destruct (zst z); try done; apply rtc_once; by apply ZT_close.
  - apply rtc_once, ZT_empty. by destruct (zst z).
Qed.

(** The lists after zone [i] was cleared. *)
Definition lists_cleared (i : nat) (z : NvmeZone) (n n' : FemuCtrl) : Prop :=
  ∀ l, elems (list_of l n') =
    (if decide (l = L_closed) then if keeps_data z then [i] else [] else []) ++
    lrm i (elems (list_of l n)).

Definition clear_result (i : nat) (z : NvmeZone) (n n' : FemuCtrl) : Prop :=
  zns_inv n' ∧ same_rest n n' ∧ zone_array n' = <[i := cleared z]> (zone_array n) ∧
  lists_cleared i z n n'.

(** The room that taking the zone out of the count left. *)
Lemma det_room i z0 z n0 n :
  zns_inv n0 → zone_array n0 !! i = Some z0 → active_state (zst z0) = true →
  det i z 0 (-1) n0 n → active_state (zst z) = true →
  max_active_zones (params n) ≠ 0 → nr_active_zones n + 1 ≤ max_active_zones (params n).
Proof.
  intros [_ [_ _ _ Ha] _] Hi Hz0 Hd Hz Hne.
  pose proof (det_counters _ _ _ _ _ _ Hd) as [_ _ _ Ha']. destruct (Ha' Hne) as [Hn _].
  rewrite (sr_params _ _ (det_rest _ _ _ _ _ _ Hd)) in *. destruct (Ha Hne) as [Hn0 Hle].
  rewrite (det_zones _ _ _ _ _ _ Hd) in Hn. unfold active_cnt in *.
  rewrite (countb_insert _ _ _ _ _ Hi), Hz, Hz0 in Hn. lia.
Qed.

Lemma wp_clear_closed i z0 z n0 n :
  zns_inv n0 → zone_array n0 !! i = Some z0 → active_state (zst z0) = true →
  det i z 0 (-1) n0 n → zst z = NVME_ZONE_STATE_CLOSED →
  wp (zns_aor_inc_active;; insert_head L_closed i) (λ _ n',
    zns_inv n' ∧ same_rest n0 n' ∧ zone_array n' = <[i := zone_set_entry true z]> (zone_array n0) ∧
    ∀ l, elems (list_of l n') =
      (if decide (l = L_closed) then [i] else []) ++ lrm i (elems (list_of l n0))) n.
Proof.
  intros Hinv Hi Hz0 Hd Hz. assert (active_state (zst z) = true) as Ha by by rewrite Hz.
  pose proof (active_cnt_pos _ _ _ (det_zone _ _ _ _ _ _ Hd) Ha).
  eapply wp_seq; [eapply wp_inc_active; [apply Hd|lia|by eapply det_room]|].
  intros _ n1 [Hc Hs]. pose proof (det_same_zones _ _ _ _ _ _ _ _ _ Hd Hs Hc) as Hd1.
  eapply wp_mono; [eapply wp_insert_head; [apply Hd1|apply Hd1|by rewrite Hz]|].
  intros _ n2 (Hl & Hc2 & Hz2 & Hl2). split_and!.
  - split; [done| |].
    + pose proof (counters_update 0 (-1 + 1) n1 n2 i z _ (det_counters _ _ _ _ _ _ Hd1) Hc2
        (det_zone _ _ _ _ _ _ Hd1) Hz2) as Hct.
      change (zst (zone_set_entry true z)) with (zst z) in Hct. by rewrite !Z.add_simpl_r in Hct.
    + destruct Hc2. eapply geometry_update; [apply Hd1|done..|apply Hd1|done|done].
  - eapply same_rest_trans; [apply Hd1|by apply same_ctl_rest].
  - by rewrite Hz2, (det_zones _ _ _ _ _ _ Hd1), list_insert_insert_eq.
  - intros l. by rewrite Hl2, (det_list _ _ _ _ _ _ Hd1).
Qed.

Lemma wp_clear_zone i z n0 n :
  zns_inv n0 → zone_array n0 !! i = Some z → active_state (zst z) = true →
  det i (zone_set_entry false z) (- Z.b2z (open_state (zst z))) (-1) n0 n →
  wp (zns_clear_zone i) (λ _ n', clear_result i z n0 n') n.
Proof.
  intros Hinv Hi Ha Hd. unfold zns_clear_zone. wp_step.
  eapply wp_det_update; [exact Hd| |done|done|].
  { exact (li_state _ _ (inv_lists _ Hinv) _ _ Hi). }
  clear Hd. intros n1 Hd. set (z1 := zone_set_w_ptr _ _) in *.
  change (zst (zone_set_entry false z)) with (zst z) in Hd. change (zst z1) with (zst z) in Hd.
  rewrite !Z.add_simpl_r in Hd. wp_step. eapply wp_zone_at; [apply Hd|].
  change (negb (wp_ (d z1) =? zslba (d z1)) ||
    negb (Z.land (za (d z1)) NVME_ZA_ZD_EXT_VALID =? 0)) with (keeps_data z).
  change (zst z1) with (zst z). unfold clear_result, lists_cleared, cleared.
  destruct (keeps_data z).
  - wp_step. destruct (decide (zst z = NVME_ZONE_STATE_CLOSED)) as [E|E].
    + rewrite bool_decide_eq_true_2 by done. apply wp_when; [done|intros _]. rewrite E in Hd.
      by apply (wp_clear_closed i z z1).
    + rewrite bool_decide_eq_false_2 by done. apply wp_when; [intros _|done].
      eapply wp_det_update; [exact Hd|done|done|done|]. intros n2 Hd2.
      change (zst z1) with (zst z) in Hd2. rewrite get_set_zone_state, Ha in Hd2 by done.
      replace (- _ + _ - _) with 0 in Hd2 by (simpl; lia).
      by apply (wp_clear_closed i z (zns_set_zone_state z1 NVME_ZONE_STATE_CLOSED)).
  - eapply wp_det_update; [exact Hd|done|done|done|]. intros n2 Hd2.
    change (zst z1) with (zst z) in Hd2. rewrite get_set_zone_state, Ha in Hd2 by done.
    replace (- _ + _ - _) with 0 in Hd2 by (simpl; lia). destruct Hd2. split_and!; try done.
    + split; [by eapply lists_inv_unlisted|done|done].
    + intros l. rewrite det_list0. by case_decide.
Qed.

(** ** The loops *)

(** The body of the loop over list [l], whose zones are in state [st]. *)
Definition shutdown_body (l : zone_list) (opn : bool) (zone : nat) : ST FemuCtrl (unit * bool) :=
  remove l zone;;
  (if opn then zns_aor_dec_open else ret tt);;
  zns_aor_dec_active;;
  zns_clear_zone zone;;
  ret (tt, false).

Lemma wp_shutdown_body l opn i z n (Q : unit * bool → FemuCtrl → Prop) :
  zns_inv n → zone_array n !! i = Some z → state_list (zst z) = Some l →
  active_state (zst z) = true → open_state (zst z) = opn →
  (∀ n', clear_result i z n n' → Q (tt, false) n') →
  wp (shutdown_body l opn i) Q n.
Proof.
  intros Hinv Hi Hl Ha Ho HQ. unfold shutdown_body. wp_step. eapply wp_det_remove; [done..|].
  intros n1 Hd. pose proof (det_zone _ _ _ _ _ _ Hd) as Hi1.
  assert (open_state (zst (zone_set_entry false z)) = opn) as Ho1 by done.
  assert (active_state (zst (zone_set_entry false z)) = true) as Ha1 by done.
  eapply wp_seq with (P := λ _ n', det i (zone_set_entry false z) (- Z.b2z opn) 0 n n').
  { destruct opn; [|by wp_step].
    pose proof (open_cnt_pos _ _ _ Hi1 Ho1). eapply wp_mono;
      [eapply wp_dec_open; [apply Hd|lia]|]. intros _ n2 [? ?]. by eapply det_same_zones. }
  clear n1 Hd Hi1. intros _ n1 Hd. pose proof (det_zone _ _ _ _ _ _ Hd) as Hi1.
  eapply wp_seq.
  { pose proof (active_cnt_pos _ _ _ Hi1 Ha1). eapply wp_dec_active; [apply Hd|lia|].
    destruct opn.
    - pose proof (open_le_active (zone_array n1)). simpl. lia.
    - pose proof (open_lt_active _ _ _ Hi1 Ho1 Ha1). simpl. lia. }
  intros _ n2 [Hc2 Hs2]. eapply wp_seq.
  { eapply (wp_clear_zone i z n n2); [done..|]. rewrite Ho. by eapply det_same_zones. }
  intros [] n3 Hr. wp_step. auto.
Qed.

Lemma wp_shutdown_pass l opn n :
  zns_inv n →
  (∀ s, state_list s = Some l → active_state s = true ∧ open_state s = opn) →
  wp (foreach_zone l (λ zone _, shutdown_body l opn zone) tt) (λ _ n',
    kept n n' ∧ zone_array n' = on_list l cleared <$> zone_array n) n.
Proof.
  intros Hinv Hl. apply wp_foreach_zone with (I := λ rem _ n', kept n n' ∧
    (∃ pre, elems (list_of l n') = pre ++ rem) ∧
    zone_array n' = pending (on_list l cleared) rem (zone_array n)).
  - intros i rest [] n1 (Hk1 & (pre & Hpre) & Hza). pose proof (kp_inv _ _ Hk1) as Hi1.
    pose proof (li_nodup _ _ (inv_lists _ Hi1) l) as Hnd.
    split_and!; [done|by eauto|].
    destruct (in_list_zone n1 l i) as (z & Hz & Hzl); [apply Hi1|rewrite Hpre; set_solver|].
    destruct (Hl _ Hzl) as [Ha Ho]. eapply wp_shutdown_body; [done..|].
    intros n2 (Hi2 & Hr2 & Hz2 & Hl2). simpl. rewrite Hpre in Hnd.
    assert (i ∉ rest) as Hni.
    { apply NoDup_app in Hnd as (_ & _ & Hnd). by apply NoDup_cons in Hnd as [? _]. }
    split_and!.
    + eapply kept_trans; [exact Hk1|]. split; [done|done|]. rewrite Hz2.
      eapply evolves_insert; [done|by apply trans_cleared].
    + rewrite Hl2, Hpre, lrm_mid by done. rewrite app_assoc. by eexists.
    + pose proof (pending_lookup _ _ _ _ _ _ Hza ltac:(by left) Hz) as Hz0.
      rewrite (pending_step _ _ _ _ _ _ Hza Hni Hz0), Hz2. unfold on_list.
      by rewrite decide_True.
  - intros [] n1 (Hk & _ & Hza). by rewrite <-pending_nil.
  - apply Hinv.
  - split_and!; [by apply kept_refl|by exists []|]. apply pending_start, Hinv.
Qed.

(** ** Shutdown *)

Definition shut (z : NvmeZone) : NvmeZone := if active_state (zst z) then cleared z else z.

Lemma on_list_eq l g z : state_list (zst z) = Some l → on_list l g z = g z.
Proof. intros H. unfold on_list. by rewrite decide_True. Qed.
Lemma on_list_ne l g z : state_list (zst z) ≠ Some l → on_list l g z = z.
Proof. intros H. unfold on_list. by rewrite decide_False. Qed.

Lemma on_list_cleared l z : l ≠ L_closed → on_list l cleared (cleared z) = cleared z.
Proof.
  intros Hl. apply on_list_ne. rewrite zst_cleared. destruct (keeps_data z); simpl; congruence.
Qed.

Lemma shut_passes z :
  on_list L_exp_open cleared (on_list L_imp_open cleared (on_list L_closed cleared z)) = shut z.
Proof.
  unfold shut. destruct (zst z) eqn:Hz; cbn [active_state open_state].
  all: try by rewrite (on_list_ne L_closed), (on_list_ne L_imp_open), (on_list_ne L_exp_open)
    by (rewrite ?Hz; done).
  - by rewrite (on_list_ne L_closed), (on_list_eq L_imp_open), on_list_cleared
      by (rewrite ?Hz; done).
  - by rewrite (on_list_ne L_closed), (on_list_ne L_imp_open), on_list_eq by (rewrite ?Hz; done).
  - by rewrite (on_list_eq L_closed), !on_list_cleared by (rewrite ?Hz; done).
Qed.

Lemma shut_open_cnt (a : list NvmeZone) : open_cnt (shut <$> a) = 0.
Proof.
  apply countb_zero. intros i z. rewrite list_lookup_fmap. intros (z0 & _ & ->)%fmap_Some.
  unfold shut. destruct (active_state (zst z0)) eqn:Ha.
  - rewrite zst_cleared. by destruct (keeps_data z0).
  - destruct (open_state (zst z0)) eqn:Hb; [|done]. by rewrite open_active_state in Ha.
Qed.

Lemma wp_zoned_ns_shutdown n :
  zns_inv n →
  wp zns_zoned_ns_shutdown (λ _ n',
    kept n n' ∧ zone_array n' = shut <$> zone_array n ∧ nr_open_zones n' = 0) n.
Proof.
  intros Hinv. unfold zns_zoned_ns_shutdown.
  eapply wp_seq; [apply (wp_shutdown_pass L_closed false n Hinv); by intros []|].
  intros _ n1 [Hk1 Hz1].
  eapply wp_seq; [apply (wp_shutdown_pass L_imp_open true n1 (kp_inv _ _ Hk1)); by intros []|].
  intros _ n2 [Hk2 Hz2].
  eapply wp_seq; [apply (wp_shutdown_pass L_exp_open true n2 (kp_inv _ _ Hk2)); by intros []|].
  intros _ n3 [Hk3 Hz3].
  assert (zone_array n3 = shut <$> zone_array n) as Hz.
  { rewrite Hz3, Hz2, Hz1, <-!list_fmap_compose. apply list_fmap_ext.
    intros _ z _. apply shut_passes. }
  assert (nr_open_zones n3 = 0) as Ho.
  { destruct Hk3 as [[_ [H1 H2 _ _] _] _ _].
    destruct (decide (max_open_zones (params n3) = 0)) as [E|E]; [by apply H1|].
    destruct (H2 E) as [-> _]. by rewrite Z.add_0_r, Hz, shut_open_cnt. }
  do 2 wp_step. apply wp_assert; [by rewrite Ho|]. split_and!; [|done|done].
  eapply kept_trans; [exact Hk1|]. by eapply kept_trans.
Qed.
End shutdown.

(** * Serving commands: reachability

    Any command, and shutdown, as one step of the controller; what holds in every state
    that is reached from start-up. *)

Section reach.
Context {T : TailQ} {TOk : TailQOk T} {F : Femu} {FOk : FemuOk F}.
Implicit Types (n : FemuCtrl) (zone i : nat) (z : NvmeZone) (l : zone_list).

Notation zst := zns_get_zone_state.

(** A request the controller can be given: fields of their width; a zone report only on
    a namespace whose size is a whole number of zones. *)
Definition req_ok (n : FemuCtrl) (r : NvmeRequest) : Prop :=
  cmd_ok (cmd r) ∧
  (opcode (cmd r) = NVME_CMD_ZONE_MGMT_RECV → zns_ns_nlbas n = nsze (ns n)).

Lemma wp_io_cmd n :
  zns_inv n → req_ok n (cur_req n) → wp zns_io_cmd (λ _ n', stays n n') n.
Proof.
  intros Hinv [Hc Hrecv]. unfold zns_io_cmd. do 2 wp_step.
  destruct (opcode (cmd (cur_req n))) eqn:Hop.
  - eapply wp_mono; [by apply wp_zns_read|]. intros st n' Hp.
    eapply stays_trans; [by apply (stays_set_is_write false)|].
    eapply read_post_stays; [by apply zns_inv_set_cur_req|done].
  - eapply wp_mono; [by apply wp_zns_write|]. intros st n' Hp.
    eapply stays_trans; [by apply (stays_set_is_write true)|].
    eapply write_post_stays; [by apply zns_inv_set_cur_req|done].
  - by apply wp_mgmt_send_safe.
  - eapply wp_mono; [by apply wp_zns_zone_mgmt_recv; auto|]. intros st n'. unfold recv_post.
    destruct (failed _); [by intros [_ []]|]. by intros (_ & _ & ? & _).
  - eapply wp_mono; [by apply wp_zns_zone_append|]. intros st n'. by apply write_post_stays.
  - wp_step. by apply stays_refl.
Qed.

(** ** Steps *)

Inductive step (n : FemuCtrl) : FemuCtrl → Prop :=
| step_io r st n' :
    req_ok n r → zns_io_cmd (set_cur_req r n) = Done st n' → step n n'
| step_shutdown n' : zns_ns_shutdown n = Done tt n' → step n n'.

(** Start-up with an accepted configuration. *)
Definition started (n : FemuCtrl) : Prop :=
  ∃ n0, conf_ok n0 ∧ geometry_accepted n0 = true ∧
    (zns_init_zone_geometry;; zns_init_zone_identify 0) n0 = Done tt n.

Lemma wp_Done {A} (c : ST FemuCtrl A) (Q : A → FemuCtrl → Prop) n a n' :
  wp c Q n → c n = Done a n' → Q a n'.
Proof. unfold wp. intros H Hc. by rewrite Hc in H. Qed.

Lemma started_inv n : started n → zns_inv n ∧ fresh n.
Proof.
  intros (n0 & Hc & Ha & Hrun).
  eapply (wp_Done _ (λ _ n, zns_inv n ∧ fresh n) n0); [|exact Hrun].
  eapply wp_seq; [by apply wp_init_zone_geometry|]. intros r n1 [Hr Hn1].
  eapply wp_init_zone_identify; [done|done|by apply Hn1, Hr|]. auto.
Qed.

Lemma start_up n0 :
  conf_ok n0 → geometry_accepted n0 = true →
  ∃ n, (zns_init_zone_geometry;; zns_init_zone_identify 0) n0 = Done tt n.
Proof.
  intros Hc Ha.
  assert (wp (zns_init_zone_geometry;; zns_init_zone_identify 0) (λ _ _, True) n0) as Hwp.
  { eapply wp_seq; [by apply wp_init_zone_geometry|]. intros r n1 [Hr Hn1].
    eapply wp_init_zone_identify; [done|done|by apply Hn1, Hr|done]. }
  apply wp_done in Hwp as ([] & n & Hrun & _). eauto.
Qed.

Record follows (n n' : FemuCtrl) : Prop := {
  fo_inv : zns_inv n';
  fo_params : params n' = params n;
  fo_ns : ns n' = ns n;
  fo_zones : evolves (zone_array n) (zone_array n')
}.

Lemma step_follows n n' : zns_inv n → step n n' → follows n n'.
Proof.
  intros Hinv [r st n1 Hr Hrun|n1 Hrun].
  - eapply (wp_Done _ _ _ _ _ (wp_io_cmd (set_cur_req r n) _ _)) in Hrun as [].
    by split.
  - revert Hrun. unfold zns_ns_shutdown. intros Hrun.
    eapply (wp_Done _ (λ _ n', kept n n')) in Hrun as [? [] ?]; [by split|].
    do 2 wp_step. apply wp_when; intros Hz; [|by apply kept_refl].
    eapply wp_mono; [by apply wp_zoned_ns_shutdown|]. by intros ? ? [? _].
  Unshelve. by apply zns_inv_set_cur_req. done.
Qed.

Lemma steps_follow n n' : zns_inv n → rtc step n n' → follows n n'.
Proof.
  intros Hinv Hs. revert Hinv. induction Hs as [n|n1 n2 n3 H12 _ IH]; intros Hinv.
  - split; auto using evolves_refl.
  - destruct (step_follows _ _ Hinv H12) as [Hi Hp Hn Hz]. destruct (IH Hi) as [? ? ? ?].
    split; [done|congruence|congruence|by eapply evolves_trans].
Qed.
End reach.
