(* ===== verification/ZnsTheorems.v ===== *)
(** * The ZNS controller: properties

    The properties of the controller of [src/zns/zns.c], from the lemmas of the other
    files, each with an application to the example device of [ZnsExample]. *)

From stdpp Require Import base numbers option sets list list_numbers relations.
From S2P Require Import Prelude ZnsTypes ZnsOps ZnsExample ZnsInv ZnsHandlers ZnsBulk ZnsSend.
From S2P Require Import ZnsWrite ZnsRead ZnsReport ZnsInit ZnsShutdown.

(** ** The example device starts *)

Lemma ex_conf mapok : conf_ok (ex_blank mapok 3 2) ∧ geometry_accepted (ex_blank mapok 3 2) = true.
Proof. split; [split; vm_compute; try done; split; done|vm_compute; reflexivity]. Qed.

Lemma ex_started mapok : started (ex_start mapok 3 2).
Proof.
  destruct (ex_conf mapok) as [Hc Ha]. exists (ex_blank mapok 3 2). split_and!; [done|done|].
  destruct (start_up _ Hc Ha) as [n Hrun]. unfold ex_start. by rewrite Hrun.
Qed.

Lemma ex_start_inv mapok : zns_inv (ex_start mapok 3 2).
Proof. apply started_inv, ex_started. Qed.

(** The device with a command to serve. *)
Definition ex_serve (mapok : bool) (c : NvmeCmd) (n : FemuCtrl (F := exampleFemu mapok)) :
    FemuCtrl (F := exampleFemu mapok) := set_cur_req (ex_req c) n.

Lemma ex_cmd_ok op slba nlb action :
  0 ≤ slba < 2 ^ 64 → 0 ≤ nlb < 2 ^ 16 → cmd_ok (ex_cmd op slba nlb action).
Proof. by split. Qed.

(** The state a sequence of commands leads to. *)
Definition ex_state (mapok : bool) (cs : list NvmeCmd) (n : FemuCtrl (F := exampleFemu mapok)) :
    FemuCtrl (F := exampleFemu mapok) :=
  match ex_run mapok cs n with Done _ n' => n' | Crash => n end.

(** Commands of the example that are not reports lead to states reached in steps. *)
Lemma ex_run_steps mapok cs (n : FemuCtrl (F := exampleFemu mapok)) l n' :
  Forall (λ c, cmd_ok c ∧ opcode c ≠ NVME_CMD_ZONE_MGMT_RECV) cs →
  ex_run mapok cs n = Done l n' → rtc step n n'.
Proof.
  revert n l. induction cs as [|c cs IH]; intros n l Hcs; simpl; [by intros [= <- <-]|].
  apply Forall_cons in Hcs as [[Hc Ho] Hcs].
  destruct (zns_io_cmd (set_cur_req (ex_req c) n)) as [st n1|] eqn:Hrun; [|done].
  destruct (ex_run mapok cs n1) as [l1 n2|] eqn:Hrest; [|done]. intros [= <- <-].
  eapply rtc_l; [|by eapply IH]. by eapply (step_io n (ex_req c)); [split; [done|by intros ?]|].
Qed.

Lemma ex_state_inv mapok cs :
  Forall (λ c, cmd_ok c ∧ opcode c ≠ NVME_CMD_ZONE_MGMT_RECV) cs →
  zns_inv (ex_state mapok cs (ex_start mapok 3 2)).
Proof.
  intros Hcs. unfold ex_state. destruct (ex_run mapok cs _) as [l n'|] eqn:E; [|apply ex_start_inv].
  eapply steps_follow; [apply ex_start_inv|]. by eapply ex_run_steps.
Qed.

Section theorems.
Context {T : TailQ} {TOk : TailQOk T} {F : Femu} {FOk : FemuOk F}.
Implicit Types (n : FemuCtrl) (zone i : nat) (z : NvmeZone) (l : zone_list).

Notation zst := zns_get_zone_state.

(** ** Safety *)


(** C2: in every state the controller reaches from start-up, at most [max_open_zones]
    zones are open and at most [max_active_zones] are active, where these limits are
    set, and the four lists hold exactly the zones in their states. *)
Theorem reachable_limits n0 n :
  started n0 → rtc step n0 n →
  (max_open_zones (params n0) ≠ 0 → open_cnt (zone_array n) ≤ max_open_zones (params n0)) ∧
  (max_active_zones (params n0) ≠ 0 →
     active_cnt (zone_array n) ≤ max_active_zones (params n0)) ∧
  (∀ l i, i ∈ elems (list_of l n) ↔
     ∃ z, zone_array n !! i = Some z ∧ state_list (zst z) = Some l).
Proof.
  intros [Hinv _]%started_inv Hs. destruct (steps_follow _ _ Hinv Hs) as [[Hl Hc _] Hp _ _].
  destruct Hc as [_ Ho _ Ha]. rewrite Hp in *. split_and!.
  - intros H. destruct (Ho H). lia.
  - intros H. destruct (Ha H). lia.
  - intros l i. rewrite (li_mem _ _ Hl l i). naive_solver.
Qed.


(** ** Writes *)

(** The zone that holds an LBA. *)
Lemma target_in n i z slba :
  geometry n → zone_array n !! i = Some z →
  zslba (d z) ≤ slba < zslba (d z) + zone_size (params n) → target n slba = i.
Proof.
  intros Hg Hi Hs. destruct (ge_zone _ Hg _ _ Hi) as [Hz _]. rewrite Hz in Hs.
  pose proof (ge_size _ Hg). unfold target.
  replace (slba / zone_size (params n)) with (Z.of_nat i); [lia|].
  apply Z.div_unique with (slba - Z.of_nat i * zone_size (params n)); nia.
Qed.

(** Zones end inside the namespace. *)
Lemma zone_end n i z :
  geometry n → zone_array n !! i = Some z →
  0 ≤ zslba (d z) ∧ zslba (d z) + zone_size (params n) ≤ nsze (ns n) ∧ nsze (ns n) < 2 ^ 64 ∧
  0 < zcap (d z) ≤ zone_size (params n) ∧
  zns_zone_wr_boundary z = zslba (d z) + zcap (d z).
Proof.
  intros Hg Hi. destruct (ge_zone _ Hg _ _ Hi) as [Hz Hc]. pose proof (ge_size _ Hg).
  pose proof (ge_cap _ Hg). pose proof (ge_total _ Hg). pose proof (ge_nsze _ Hg).
  pose proof (ge_len _ Hg). apply lookup_lt_Some in Hi. unfold zns_zone_wr_boundary.
  rewrite u64_small by nia. nia.
Qed.

(** A write at the write pointer, inside the zone's capacity, to be served in [n]. *)
Record good_write (n : FemuCtrl) (i : nat) (z : NvmeZone) : Prop := {
  gw_zone : zone_array n !! i = Some z;
  gw_wp : wp_ (d z) = w_ptr z;
  gw_start : zslba (d z) ≤ w_ptr z;
  gw_slba : rw_slba (cmd (cur_req n)) = w_ptr z;
  gw_end : w_ptr z + (rw_nlb (cmd (cur_req n)) + 1) ≤ zslba (d z) + zcap (d z);
  gw_state : writable (zst z) = true;
  gw_mdts : nvme_check_mdts (mdts (params n)) (zns_l2b n (rw_nlb (cmd (cur_req n)) + 1)) = SUCCESS
}.

Lemma good_write_passes n i z :
  zns_inv n → cmd_ok (cmd (cur_req n)) → good_write n i z →
  target n (rw_slba (cmd (cur_req n))) = i ∧ failed (write_refusal n false) = false.
Proof.
  intros Hinv [Hs Hn] []. pose proof (inv_geometry _ Hinv) as Hg.
  destruct (zone_end _ _ _ Hg gw_zone0) as (H0 & H1 & H2 & H3 & Hb).
  set (c := cmd (cur_req n)) in *.
  assert (target n (rw_slba c) = i) as Ht by (eapply target_in; [done..|lia]). split; [done|].
  unfold write_refusal. fold c. rewrite gw_mdts0, failed_SUCCESS, Ht, gw_zone0.
  assert (zns_check_bounds n (rw_slba c) (rw_nlb c + 1) = SUCCESS) as ->.
  { unfold zns_check_bounds, UINT64_MAX. rewrite u64_small by lia.
    destruct (_ || _) eqn:E; [lia|done]. }
  rewrite failed_SUCCESS. unfold write_check. rewrite u64_small, Hb by lia.
  rewrite (proj2 (Z.ltb_ge _ _)) by lia. rewrite gw_slba0, Z.eqb_refl.
  by destruct (zst z).
Qed.

(** The state after a write that ends at [lba]. *)
Definition state_after (z : NvmeZone) (lba : Z) : NvmeZoneState :=
  if lba =? zslba (d z) + zcap (d z) then NVME_ZONE_STATE_FULL
  else if open_state (zst z) then zst z else NVME_ZONE_STATE_IMPLICITLY_OPEN.

Lemma written_zone n i z (nlb := rw_nlb (cmd (cur_req n)) + 1) :
  geometry n → 0 ≤ rw_nlb (cmd (cur_req n)) → good_write n i z →
  w_ptr (written nlb z) = w_ptr z + nlb ∧ wp_ (d (written nlb z)) = w_ptr z + nlb ∧
  zst (written nlb z) = state_after z (w_ptr z + nlb) ∧
  za (d (written nlb z)) = za (d z).
Proof.
  intros Hg Hn []. fold nlb in gw_end0. destruct (zone_end _ _ _ Hg gw_zone0) as (H0 & H1 & H2 & H3 & Hb).
  assert (0 < nlb) as Hpos by (unfold nlb; lia). clearbody nlb.
  assert (u64 (w_ptr z + nlb) = w_ptr z + nlb) as Hu by (apply u64_small; lia).
  unfold written, advanced. set (z1 := zone_set_w_ptr _ z).
  assert (w_ptr z1 = w_ptr z + nlb) as Hw1 by done.
  assert (zns_zone_wr_boundary z1 = zslba (d z) + zcap (d z)) as Hb1 by done.
  rewrite Hw1, Hb1. unfold state_after.
  destruct (w_ptr z + nlb =? zslba (d z) + zcap (d z)) eqn:Heq.
  - apply Z.eqb_eq in Heq. rewrite (proj2 (Z.ltb_ge _ _)) by lia. cbn [andb].
    unfold finalized. set (z2 := zone_set_wp _ z1).
    assert (wp_ (d z2) = w_ptr z + nlb) as Hw2.
    { unfold z2. simpl. by rewrite gw_wp0. }
    assert (zns_zone_wr_boundary z2 = zslba (d z) + zcap (d z)) as -> by done.
    rewrite Hw2, (proj2 (Z.eqb_eq _ _) Heq). change (zst z1) with (zst z).
    rewrite decide_False by (intros E; by rewrite E in gw_state0).
    rewrite zst_assigned by done. done.
  - apply Z.eqb_neq in Heq. rewrite (proj2 (Z.ltb_lt _ _)) by lia. cbn [andb].
    set (z2 := if negb _ then _ else z1).
    assert (d z2 = d (if open_state (zst z) then z1
      else assigned NVME_ZONE_STATE_IMPLICITLY_OPEN z1) ∧ w_ptr z2 = w_ptr z + nlb ∧
      wp_ (d z2) = w_ptr z ∧ zns_zone_wr_boundary z2 = zslba (d z) + zcap (d z) ∧
      za (d z2) = za (d z) ∧
      zst z2 = if open_state (zst z) then zst z else NVME_ZONE_STATE_IMPLICITLY_OPEN)
      as (_ & Hw2 & Hp2 & Hb2 & Hza2 & Hz2) by (unfold z2; by destruct (open_state (zst z))).
    unfold finalized. set (z3 := zone_set_wp _ z2).
    assert (wp_ (d z3) = w_ptr z + nlb) as Hw3 by (unfold z3; simpl; by rewrite Hp2).
    assert (zns_zone_wr_boundary z3 = zns_zone_wr_boundary z2) as -> by done.
    rewrite Hw3, Hb2, (proj2 (Z.eqb_neq _ _) Heq). done.
Qed.

Lemma advanced_zone nlb z :
  w_ptr (advanced nlb z) = u64 (w_ptr z + nlb) ∧ wp_ (d (advanced nlb z)) = wp_ (d z) ∧
  zns_zone_wr_boundary (advanced nlb z) = zns_zone_wr_boundary z ∧
  zslba (d (advanced nlb z)) = zslba (d z).
Proof. unfold advanced. by destruct (_ && _). Qed.

(** [zns_write] of a good write, up to the limits. *)
Lemma wp_good_write n i z (nlb := rw_nlb (cmd (cur_req n)) + 1) :
  zns_inv n → cmd_ok (cmd (cur_req n)) → good_write n i z →
  ∃ st n' n1, zns_write n = Done st n' ∧ opened z (as_write true n) n1 ∧
    if failed (limit_check z n1) then st = or_dnr (limit_check z n1) ∧ n' = n1
    else committed i z nlb (zns_map_dptr n (zns_l2b n nlb)) (zns_l2b n (w_ptr z)) n1 st n'.
Proof.
  intros Hinv Hc Hg. pose proof (wp_zns_write n Hinv Hc) as Hwp.
  apply wp_done in Hwp as (st & n' & Hrun & Hpost). exists st, n'.
  destruct (good_write_passes n i z Hinv Hc Hg) as [Ht Hf].
  unfold write_post in Hpost. change (write_refusal (as_write true n)) with (write_refusal n) in Hpost.
  rewrite Hf in Hpost. destruct Hpost as (z1 & n1 & Hz & Ho & Hpost). exists n1.
  change (target (as_write true n)) with (target n) in *.
  change (cmd (cur_req (as_write true n))) with (cmd (cur_req n)) in *.
  rewrite Ht in *. change (zone_array (as_write true n)) with (zone_array n) in *.
  rewrite (gw_zone _ _ _ Hg) in Hz. injection Hz as <-. split_and!; [done|done|].
  change (zns_map_dptr (as_write true n)) with (zns_map_dptr n) in *.
  change (zns_l2b (as_write true n)) with (zns_l2b n) in *.
  by rewrite (gw_slba _ _ _ Hg) in Hpost.
Qed.

(** The zone is open already or the limits leave room for it: nothing is evicted. *)
Lemma room_opened n n1 z :
  zns_inv n → writable (zst z) = true → room n (zst z) → opened z n n1 →
  n1 = n ∧ failed (limit_check z n) = false.
Proof.
  intros [_ [_ _ _ Ha] _] Hw [Ra Ro]. unfold opened, limit_check, evicted, evictee.
  destruct (zst z) eqn:Hz; try done; intros He.
  - destruct (_ && _) eqn:E; [|split; [done|apply aor_check_ok; auto]].
    specialize (Ro eq_refl). lia.
  - destruct (_ && _) eqn:E.
    + specialize (Ro eq_refl). lia.
    + split; [done|]. apply aor_check_ok. split; [|by auto]. intros H.
      destruct (Ha H). lia.
Qed.

(** C25: a write at the write pointer, within the zone's capacity and the transfer limits,
    to a zone that is open or that the open and active limits have room for, succeeds:
    the data go to the backend once, at the byte offset of the LBA; the write pointer
    moves past them; the zone becomes full when it reaches its capacity, else open; no
    other zone changes; and the completion holds the LBA written. *)
Theorem write_ok n i z qsg (nlb := rw_nlb (cmd (cur_req n)) + 1) :
  zns_inv n → cmd_ok (cmd (cur_req n)) → good_write n i z → room n (zst z) →
  zns_map_dptr n (zns_l2b n nlb) = (SUCCESS, Some qsg) →
  ∃ n' z', zns_write n = Done SUCCESS n' ∧ zns_inv n' ∧
    world n' = backend_rw (world n) qsg (zns_l2b n (w_ptr z)) true ∧
    cqe_slba (cur_req n') = w_ptr z ∧
    zone_array n' = <[i := z']> (zone_array n) ∧
    w_ptr z' = w_ptr z + nlb ∧ wp_ (d z') = w_ptr z + nlb ∧
    zst z' = state_after z (w_ptr z + nlb).
Proof.
  intros Hinv Hc Hg Hr Hm. destruct (wp_good_write n i z Hinv Hc Hg) as (st & n' & n1 & Hrun & Ho & H).
  destruct (room_opened _ _ _ (zns_inv_set_cur_req _ _ Hinv) (gw_state _ _ _ Hg) Hr Ho)
    as [-> Hl].
  fold nlb in H. rewrite Hl, Hm in H. destruct H as (Hs & Hcqe & H). rewrite failed_SUCCESS in H.
  destruct H as (-> & (_ & Hz & _) & Hw).
  destruct (written_zone n i z) as (H1 & H2 & H3 & _); [apply Hinv|apply Hc|done|].
  exists n', (written nlb z). split_and!; try done. apply Hs.
Qed.


(** A write whose data pointer cannot be mapped fails after the zone was changed: the
    write pointer used by the checks has moved and the one reported has not, so the same
    write, and any write at the reported write pointer, is refused from then on. *)
Theorem failed_map_strands n i z st' q (nlb := rw_nlb (cmd (cur_req n)) + 1) :
  zns_inv n → cmd_ok (cmd (cur_req n)) → good_write n i z → room n (zst z) →
  zns_map_dptr n (zns_l2b n nlb) = (st', q) → failed st' = true →
  ∃ n' z', zns_write n = Done (or_dnr st') n' ∧ world n' = world n ∧
    zone_array n' !! i = Some z' ∧ wp_ (d z') = w_ptr z ∧ w_ptr z' = w_ptr z + nlb ∧
    write_refusal (set_cur_req (cur_req n) n') false = status_of NVME_ZONE_INVALID_WRITE.
Proof.
  intros Hinv Hc Hg Hr Hm Hst.
  destruct (wp_good_write n i z Hinv Hc Hg) as (st & n' & n1 & Hrun & Ho & H).
  destruct (room_opened _ _ _ (zns_inv_set_cur_req _ _ Hinv) (gw_state _ _ _ Hg) Hr Ho)
    as [-> Hl].
  fold nlb in H. rewrite Hl, Hm in H. destruct H as (Hs & _ & H).
  assert (st = or_dnr st' ∧ zone_step i z (advanced nlb z) (as_write true n) n' ∧
    world n' = world n) as (-> & (_ & Hz & _) & Hw)
    by (destruct q; rewrite ?Hst in H; exact H). clear H.
  destruct (good_write_passes n i z Hinv Hc Hg) as [Ht Hf]. pose proof Hg as [].
  assert (zone_array n' !! i = Some (advanced nlb z)) as Hi'.
  { rewrite Hz. apply list_lookup_insert_eq. by eapply lookup_lt_Some. }
  destruct (zone_end _ _ _ (inv_geometry _ Hinv) gw_zone0) as (H0 & H1 & H2 & H3 & Hb).
  destruct (advanced_zone nlb z) as (Ha1 & Ha2 & Ha3 & Ha4).
  rewrite u64_small in Ha1 by (unfold nlb; destruct Hc; lia).
  exists n', (advanced nlb z). split_and!; try done; [by rewrite Ha2|].
  revert Hf. unfold write_refusal. change (cur_req (set_cur_req (cur_req n) n')) with (cur_req n).
  cbv zeta. set (c := cmd (cur_req n)) in *. destruct Hs. unfold target, zns_check_bounds, zns_l2b,
    zns_ns_lbads in *. simpl in *. rewrite st_params, st_ns, Ht, Hi', gw_zone0, gw_mdts0. simpl.
  destruct (_ || _); [done|]. rewrite !failed_SUCCESS. unfold write_check.
  rewrite Ha3. destruct (_ <? _); [done|]. destruct (zst_advanced nlb z gw_state0) as [Hw1 _].
  rewrite gw_slba0, Z.eqb_refl, Ha1, (proj2 (Z.eqb_neq _ _)) by (unfold nlb; destruct Hc; lia).
  intros _. by destruct (zst (advanced nlb z)).
Qed.


(** An append that passes the checks, to a zone that is open or that the limits have
    room for, writes its data at the zone's write pointer, wherever that is, and returns
    that LBA in the completion; the direction of the transfer is whatever the request
    record said before. *)
Theorem append_ok n z qsg (c := cmd (cur_req n)) (i := target n (rw_slba c)) :
  zns_inv n → cmd_ok c → failed (write_refusal n true) = false →
  zone_array n !! i = Some z → room n (zst z) →
  zns_map_dptr n (zns_l2b n (rw_nlb c + 1)) = (SUCCESS, Some qsg) →
  rw_slba c = zslba (d z) ∧ writable (zst z) = true ∧
  ∃ n', zns_zone_append n = Done SUCCESS n' ∧ zns_inv n' ∧
    world n' = backend_rw (world n) qsg (zns_l2b n (w_ptr z)) (is_write (cur_req n)) ∧
    cqe_slba (cur_req n') = w_ptr z ∧
    zone_array n' = <[i := written (rw_nlb c + 1) z]> (zone_array n).
Proof.
  intros Hinv Hc Hf Hz Hr Hm. pose proof (wp_zns_zone_append n Hinv Hc) as (st & n' & Hrun & Hp)%wp_done.
  assert (rw_slba c = zslba (d z) ∧ writable (zst z) = true) as [Hsl Hw].
  { revert Hf. unfold write_refusal. fold c i. rewrite Hz. cbv zeta.
    destruct (failed (nvme_check_mdts _ _)) eqn:E1; [by rewrite E1|].
    destruct (failed (zns_check_bounds _ _ _)) eqn:E2; [by rewrite E2|]. intros Hf. by destruct (write_check_ok _ _ _ _ _
      (li_state _ _ (inv_lists _ Hinv) _ _ Hz) Hf) as (_ & ? & ?). }
  split_and!; [done|done|]. unfold write_post in Hp. rewrite Hf in Hp.
  destruct Hp as (z1 & n1 & Hz1 & Ho & Hp). fold c i in Hz1, Hp. simplify_eq.
  destruct (room_opened _ _ _ Hinv Hw Hr Ho) as [-> Hl]. rewrite Hl, Hm in Hp.
  destruct Hp as (Hs & Hcqe & Hp). rewrite failed_SUCCESS in Hp.
  destruct Hp as (-> & (Hi' & Hz' & _) & Hwd). by exists n'.
Qed.

(** ** Zone management *)


(** C29: the select-all variants of close, finish and reset succeed and change exactly the
    zones whose state they apply to, each as the single-zone action would. *)
Theorem send_all_ok n (c := cmd (cur_req n)) :
  zns_inv n → send_all c = true → all_action (send_action c) = true →
  ∃ n', zns_zone_mgmt_send n = Done SUCCESS n' ∧ zns_inv n' ∧
    zone_array n' = all_result (send_action c) <$> zone_array n.
Proof.
  intros Hinv Hall Ha.
  pose proof (wp_mgmt_send_all n Hinv Hall Ha) as (st & n' & Hrun & -> & Hb)%wp_done.
  by exists n'.
Qed.

(** A management command whose LBA is outside the namespace, or not the first of a
    zone, is refused and changes no zone. *)
Theorem send_bad_address n (c := cmd (cur_req n)) :
  zns_inv n → send_all c = false →
  (∀ i z, zone_array n !! i = Some z → mgmt_slba c ≠ zslba (d z)) →
  ∃ n', zns_zone_mgmt_send n =
      Done (or_dnr (status_of (if nsze (ns n) <=? mgmt_slba c then NVME_LBA_RANGE
                               else NVME_INVALID_FIELD))) n' ∧
    zone_becomes 0 None n n'.
Proof.
  intros Hinv Hall Hs.
  pose proof (wp_mgmt_send_bad n Hinv Hall Hs) as (st & n' & Hrun & -> & Hb)%wp_done.
  by exists n'.
Qed.

(** ** Reads *)

(** A read inside the namespace passes the zone checks exactly when no zone it
    touches is offline and, unless reads may cross zones, it touches one zone. *)
Theorem read_check_ok n slba nlb (i := target n slba) (j := target n (slba + nlb - 1)) :
  zns_inv n → 0 ≤ slba → 0 < nlb → slba + nlb ≤ nsze (ns n) →
  ∃ st, zns_check_zone_read slba nlb n = Done st n ∧
    (st = SUCCESS ↔
       (∀ k z, (i ≤ k ≤ j)%nat → zone_array n !! k = Some z →
          zst z ≠ NVME_ZONE_STATE_OFFLINE) ∧
       (i = j ∨ cross_zone_read (params n) = true)).
Proof.
  intros Hinv Hs Hn He.
  pose proof (wp_check_zone_read n slba nlb Hinv ltac:(lia) Hn He) as (st & n' & Hrun & -> & ->)%wp_done.
  exists (read_check n slba nlb). split; [done|]. by apply read_check_iff.
Qed.

(** A read that passes the checks moves the data of its LBA range from the backend
    to the host's buffer, once, and changes nothing else but the request record; one
    that fails a check is answered with the status of the first that fails and moves
    nothing. *)
Theorem read_ok n (n0 := as_write false n) :
  zns_inv n → cmd_ok (cmd (cur_req n)) →
  ∃ st n', zns_read n = Done st n' ∧
    if failed (read_refusal n) then st = or_dnr (read_refusal n) ∧ n' = n0
    else st = SUCCESS ∧ ∃ qsg,
      zns_map_dptr n (zns_l2b n (rw_nlb (cmd (cur_req n)) + 1)) = (SUCCESS, Some qsg) ∧
      n' = set_world (backend_rw (world n) qsg (zns_l2b n (rw_slba (cmd (cur_req n)))) false) n0.
Proof.
  intros Hinv Hc. pose proof (wp_zns_read n Hinv Hc) as (st & n' & Hrun & Hp)%wp_done.
  exists st, n'. split; [done|exact Hp].
Qed.

(** ** Reports *)


(** ** Start-up and shutdown *)

(** Start-up on a namespace of at least one default zone gives a controller that
    satisfies the invariant, with as many zones of 128 MiB as the namespace holds, all
    empty with their write pointers at their start. *)
Theorem init_ok n :
  default_ok n →
  ∃ n', zns_init n = Done tt n' ∧ zns_inv n' ∧
    num_zones (params n') = ns_size (ns n) / NVME_DEFAULT_ZONE_SIZE ∧
    (∀ i z, zone_array n' !! i = Some z →
       zst z = NVME_ZONE_STATE_EMPTY ∧ w_ptr z = zslba (d z) ∧ wp_ (d z) = zslba (d z) ∧
       zslba (d z) = Z.of_nat i * zone_size (params n')).
Proof.
  intros Hd. pose proof (wp_zns_init n Hd) as ([] & n' & Hrun & Hinv & Hf & _ & Hn & _)%wp_done.
  exists n'. split_and!; try done. intros i z Hz.
  by destruct (fresh_lookup n' i z Hf Hz) as [-> _].
Qed.

(** Shutdown leaves no zone open: every open or closed zone becomes closed, with its
    write pointer at the last completed write, or empty when it holds neither data nor a
    descriptor extension; the other zones do not change. *)
Theorem shutdown_ok n :
  zns_inv n →
  ∃ n', zns_ns_shutdown n = Done tt n' ∧ zns_inv n' ∧ nr_open_zones n' = 0 ∧
    zone_array n' = shut <$> zone_array n ∧ open_cnt (zone_array n') = 0.
Proof.
  intros Hinv. assert (wp zns_ns_shutdown (λ _ n',
    kept n n' ∧ zone_array n' = shut <$> zone_array n ∧ nr_open_zones n' = 0) n)
    as ([] & n' & Hrun & Hk & Hz & Ho)%wp_done.
  { unfold zns_ns_shutdown. do 2 wp_step. rewrite (ge_zoned _ (inv_geometry _ Hinv)).
    apply wp_when; [intros _|done]. by apply wp_zoned_ns_shutdown. }
  exists n'. split_and!; try done; [apply Hk|]. rewrite Hz. apply shut_open_cnt.
Qed.
End theorems.
