(* ===== verification/ZnsRuns.v ===== *)
(** * The properties on the example device

    Each property of [ZnsTheorems] applied to a run of the device of [ZnsExample], and a
    run that shows an append leaving its zone. *)

From stdpp Require Import base numbers option sets list list_numbers relations.
From S2P Require Import Prelude ZnsTypes ZnsOps ZnsExample ZnsInv ZnsHandlers ZnsBulk ZnsSend.
From S2P Require Import ZnsWrite ZnsRead ZnsReport ZnsInit ZnsShutdown ZnsTheorems.

Notation zst := zns_get_zone_state.

(** Commands of the example. *)
Definition W (slba nlb : Z) : NvmeCmd := ex_cmd NVME_CMD_WRITE slba (nlb - 1) 0.
Definition A (slba nlb : Z) : NvmeCmd := ex_cmd NVME_CMD_ZONE_APPEND slba (nlb - 1) 0.
Definition R (slba nlb : Z) : NvmeCmd := ex_cmd NVME_CMD_READ slba (nlb - 1) 0.
Definition Send (slba action : Z) : NvmeCmd := ex_cmd NVME_CMD_ZONE_MGMT_SEND slba 0 action.
Definition Recv (slba : Z) : NvmeCmd := ex_cmd NVME_CMD_ZONE_MGMT_RECV slba 0 0.

(** The device after start-up, and with two zones implicitly open (the limit). *)
Definition ex0 := ex_start true 3 2.
Definition ex2 := ex_state true [W 0 2; W 8 3] ex0.

Lemma ex_cmds_ok : Forall (λ c, cmd_ok c ∧ opcode c ≠ NVME_CMD_ZONE_MGMT_RECV) [W 0 2; W 8 3].
Proof. repeat constructor; done. Qed.

Lemma ex0_inv : zns_inv ex0.
Proof. apply ex_start_inv. Qed.
Lemma ex2_inv : zns_inv ex2.
Proof. exact (ex_state_inv true _ ex_cmds_ok). Qed.
Lemma ex2_steps : rtc step ex0 ex2.
Proof.
  unfold ex2, ex_state. destruct (ex_run true [W 0 2; W 8 3] ex0) as [l n'|] eqn:E; [|done].
  exact (ex_run_steps true _ _ _ _ ex_cmds_ok E).
Qed.

Lemma serve_inv mapok c n : zns_inv n → zns_inv (ex_serve mapok c n).
Proof. apply zns_inv_set_cur_req. Qed.

(** Zone [i] of a state. *)
Definition zone_of {mapok} (n : FemuCtrl (F := exampleFemu mapok)) (i : nat) : NvmeZone :=
  default (fresh_zone 0 0) (zone_array n !! i).

Ltac by_vm := vm_compute; first [done | split; done | repeat split; done].

Lemma ex_room n s : max_open_zones (params n) = 2 → max_active_zones (params n) = 3 →
  nr_open_zones n < 2 → nr_active_zones n < 3 → room (T := listQ) (F := exampleFemu true) n s.
Proof. intros Ho Ha ? ?. split; intros; lia. Qed.


Lemma reachable_limits_witness :
  open_cnt (zone_array ex2) ≤ 2 ∧ active_cnt (zone_array ex2) ≤ 3 ∧
  (∀ l i, i ∈ elems (list_of l ex2) ↔
     ∃ z, zone_array ex2 !! i = Some z ∧ state_list (zst z) = Some l).
Proof.
  destruct (reachable_limits ex0 ex2 (ex_started true) ex2_steps) as (H1 & H2 & H3).
  split; [|split]; [apply H1; by_vm|apply H2; by_vm|exact H3].
Defined.


(** A write of two blocks to the first zone of the fresh device. *)
Definition ex_w := ex_serve true (W 0 2) ex0.

Lemma ex_w_good : good_write ex_w 0 (zone_of ex_w 0).
Proof. split; by_vm. Qed.

Lemma write_ok_witness :
  ∃ n' z', zns_write ex_w = Done SUCCESS n' ∧ zone_array n' = <[0%nat := z']> (zone_array ex_w) ∧
    wp_ (d z') = 2 ∧ zst z' = NVME_ZONE_STATE_IMPLICITLY_OPEN.
Proof.
  destruct (write_ok ex_w 0 (zone_of ex_w 0) 1024 (serve_inv _ _ _ ex0_inv) ltac:(by split)
    ex_w_good ltac:(apply ex_room; by_vm) ltac:(by_vm))
    as (n' & z' & Hrun & _ & _ & _ & Hz & _ & Hwp & Hs).
  exists n', z'. split; [exact Hrun|]. split; [exact Hz|].
  split; [rewrite Hwp; by_vm|rewrite Hs; by_vm].
Defined.

(** A write to a third zone with the open limit of two reached. *)
Definition ex_w3 := ex_serve true (W 16 6) ex2.

Lemma ex_w3_good : good_write ex_w3 2 (zone_of ex_w3 2).
Proof. split; by_vm. Qed.


(** The same write on a host whose data pointer cannot be mapped. *)
Definition ex_wf := ex_serve false (W 0 2) (ex_start false 3 2).

Lemma failed_map_strands_witness :
  ∃ n', zns_write ex_wf = Done (or_dnr (status_of (NVME_HOST_STATUS 1))) n' ∧
    write_refusal (set_cur_req (cur_req ex_wf) n') false = status_of NVME_ZONE_INVALID_WRITE.
Proof.
  destruct (failed_map_strands ex_wf 0 (zone_of ex_wf 0) (status_of (NVME_HOST_STATUS 1)) (Some 1024)
    (serve_inv _ _ _ (ex_start_inv false)) ltac:(by split) ltac:(split; by_vm)
    ltac:(split; by_vm) ltac:(by_vm) ltac:(done)) as (n' & z' & Hrun & _ & _ & _ & _ & Href).
  exists n'. split; [exact Hrun|exact Href].
Defined.


Lemma append_ok_witness :
  ∃ n', zns_zone_append (ex_serve true (A 8 2) ex2) = Done SUCCESS n' ∧
    cqe_slba (cur_req n') = 11.
Proof.
  destruct (append_ok (ex_serve true (A 8 2) ex2) (zone_of ex2 1) 1024 (serve_inv _ _ _ ex2_inv)
    ltac:(by split) ltac:(by_vm) ltac:(by_vm) ltac:(split; by_vm) ltac:(by_vm))
    as (_ & _ & n' & Hrun & _ & _ & Hc & _).
  exists n'. split; [exact Hrun|]. rewrite Hc. by_vm.
Defined.


Lemma send_all_ok_witness :
  ∃ n', zns_zone_mgmt_send (ex_serve true (Send 0 260) ex2) = Done SUCCESS n' ∧
    Forall (λ z, zst z = NVME_ZONE_STATE_EMPTY) (zone_array n').
Proof.
  destruct (send_all_ok (ex_serve true (Send 0 260) ex2) (serve_inv _ _ _ ex2_inv)
    ltac:(by_vm) ltac:(by_vm)) as (n' & Hrun & _ & Hz).
  exists n'. split; [exact Hrun|]. rewrite Hz. vm_compute. repeat constructor.
Defined.

Lemma send_bad_address_witness :
  ∃ n', zns_zone_mgmt_send (ex_serve true (Send 3 4) ex2) =
      Done (or_dnr (status_of NVME_INVALID_FIELD)) n' ∧
    zone_becomes 0 None (ex_serve true (Send 3 4) ex2) n'.
Proof.
  refine (send_bad_address (ex_serve true (Send 3 4) ex2) (serve_inv _ _ _ ex2_inv)
    ltac:(by_vm) _).
  intros i z Hz. destruct (ge_zone _ (inv_geometry _ ex2_inv) i z Hz) as [-> _].
  replace (mgmt_slba _) with 3 by (symmetry; by_vm).
  replace (zone_size (params ex2)) with 8 by (symmetry; by_vm). lia.
Defined.

(** A read across the first two zones. *)
Lemma read_check_ok_witness :
  ∃ st, zns_check_zone_read 6 4 ex2 = Done st ex2 ∧
    (st = SUCCESS ↔
       (∀ k z, (target ex2 6 ≤ k ≤ target ex2 (6 + 4 - 1))%nat → zone_array ex2 !! k = Some z →
          zst z ≠ NVME_ZONE_STATE_OFFLINE) ∧
       (target ex2 6 = target ex2 (6 + 4 - 1) ∨ cross_zone_read (params ex2) = true)).
Proof. exact (read_check_ok ex2 6 4 ex2_inv ltac:(done) ltac:(done) ltac:(by_vm)). Defined.

Lemma read_ok_witness :
  ∃ n', zns_read (ex_serve true (R 6 4) ex2) = Done SUCCESS n'.
Proof.
  destruct (read_ok (ex_serve true (R 6 4) ex2) (serve_inv _ _ _ ex2_inv) ltac:(by split))
    as (st & n' & Hrun & H).
  replace (failed (read_refusal (ex_serve true (R 6 4) ex2))) with false in H
    by (symmetry; by_vm).
  destruct H as [-> _]. exists n'. exact Hrun.
Defined.


(** A namespace of two default zones. *)
Definition ex_default : FemuCtrl (F := exampleFemu true) :=
  set_ns (mk_ns 1 (256 * MiB) 9 0 0 0 0 0) (ex_blank true 0 0).

Lemma init_ok_witness :
  ∃ n', zns_init ex_default = Done tt n' ∧ num_zones (params n') = 2.
Proof.
  destruct (init_ok ex_default ltac:(split; by_vm)) as (n' & Hrun & _ & Hn & _).
  exists n'. split; [exact Hrun|]. rewrite Hn. by_vm.
Defined.

Lemma shutdown_ok_witness :
  ∃ n', zns_ns_shutdown ex2 = Done tt n' ∧ zone_array n' = shut <$> zone_array ex2.
Proof.
  destruct (shutdown_ok ex2 ex2_inv) as (n' & Hrun & _ & _ & Hz & _).
  exists n'. split; [exact Hrun|exact Hz].
Defined.

(** ** Appends that leave their zone *)

(** Three appends of four blocks to the first zone, whose capacity is six. *)
Definition ex_appends : outcome (FemuCtrl (F := exampleFemu true)) (list NvmeStatus) :=
  ex_run true [A 0 4; A 0 4; A 0 4] ex0.

