(* ===== verification/FtlList.v ===== *)
(** * The die queues: [src/zns/fairness/fairness.c], [InitList], [InsertInTail], [DeleteInHead]

    The doubly linked lists at the level of their nodes: a heap of nodes, one list
    descriptor per die.  They refine queues: the interface [DieQueue] is what the rest
    of the translation layer uses, and [linked] is its implementation. *)

From stdpp Require Import base numbers option list gmap sets fin_maps.
From S2P Require Import Prelude.

(** Wrap-around of a 32-bit signed integer. *)
Definition s32 (x : Z) : Z := (x + 2 ^ 31) mod 2 ^ 32 - 2 ^ 31.

Lemma s32_add x y : s32 (s32 x + y) = s32 (x + y).
Proof.
  unfold s32. f_equal.
  replace ((x + 2 ^ 31) mod 2 ^ 32 - 2 ^ 31 + y + 2 ^ 31) with ((x + 2 ^ 31) mod 2 ^ 32 + y) by lia.
  rewrite Zplus_mod_idemp_l. f_equal. lia.
Qed.

Lemma s32_small x : - 2 ^ 31 ≤ x < 2 ^ 31 → s32 x = x.
Proof. intros H. unfold s32. rewrite Z.mod_small; lia. Qed.

(** ** Nodes and lists *)

Section linked.
Context {E : Type}.

Record Node_t := mk_node { prev : option nat; data : option E; next : option nat }.
Record List_t := mk_list { l_head : nat; l_tail : nat; l_len : Z }.

Notation heap := (gmap nat Node_t).

(** [g_malloc0]: an address that is not in use. *)
Context (new : heap → nat).

Definition InitList (h : heap) : heap * List_t :=
  let head := new h in
  (<[head := mk_node None None None]> h, mk_list head head 0).

(** [None] is an access to memory that is not allocated, or a failed assertion. *)
Definition InsertInTail (h : heap) (list : List_t) (x : E) : option (heap * List_t) :=
  let temp := new h in
  match h !! l_tail list with
  | Some t =>
      let h := <[l_tail list := mk_node (prev t) (data t) (Some temp)]> h in
      let h := <[temp := mk_node (Some (l_tail list)) (Some x) None]> h in
      Some (h, mk_list (l_head list) temp (s32 (l_len list + 1)))
  | None => None
  end.

Definition DeleteInHead (h : heap) (list : List_t) : option (option E * heap * List_t) :=
  match h !! l_head list with
  | None => None
  | Some hd =>
      match next hd with
      | None => Some (None, h, list)
      | Some p =>
          match h !! p with
          | None => None
          | Some n =>
              if decide (prev n = Some (l_head list)) then
                let h := <[l_head list := mk_node (prev hd) (data hd) (next n)]> h in
                let h_tail :=
                  match next n with
                  | Some q =>
                      match h !! q with
                      | Some m =>
                          Some (<[q := mk_node (Some (l_head list)) (data m) (next m)]> h, l_tail list)
                      | None => None
                      end
                  | None => Some (h, l_head list)
                  end in
                match h_tail with
                | Some (h, tail) =>
                    Some (data n, delete p h, mk_list (l_head list) tail (s32 (l_len list - 1)))
                | None => None
                end
              else None
          end
      end
  end.

(** ** What a heap represents *)

(** Consecutive nodes, each with the address of the one before and of the one after. *)
Fixpoint chain (h : heap) (pr : option nat) (ns : list (nat * option E)) : Prop :=
  match ns with
  | [] => True
  | (l, x) :: ns' => h !! l = Some (mk_node pr x (fst <$> head ns')) ∧ chain h (Some l) ns'
  end.

Definition cells (L : List_t) (ns : list (nat * E)) : list (nat * option E) :=
  (l_head L, None) :: ((λ p, (p.1, Some p.2)) <$> ns).

Definition footprint (L : List_t) (ns : list (nat * E)) : list nat := l_head L :: ns.*1.

Record list_rep (h : heap) (L : List_t) (ns : list (nat * E)) : Prop := {
  lr_chain : chain h None (cells L ns);
  lr_tail : last (footprint L ns) = Some (l_tail L);
  lr_len : l_len L = s32 (Z.of_nat (length ns))
}.

Lemma chain_frame h h' pr ns :
  chain h pr ns → (∀ l, l ∈ ns.*1 → h' !! l = h !! l) → chain h' pr ns.
Proof.
  revert pr. induction ns as [|[l x] ns IH]; intros pr; [done|]. intros [Hl Hc] Hf. split.
  - rewrite Hf; [done|]. by left.
  - apply IH; [done|]. intros l' Hl'. apply Hf. by right.
Qed.

Lemma chain_dom h pr ns l : chain h pr ns → l ∈ ns.*1 → is_Some (h !! l).
Proof.
  revert pr. induction ns as [|[l' x] ns IH]; intros pr; [by intros _ ?%elem_of_nil|].
  intros [Hl Hc] [-> |Hin]%elem_of_cons; [eauto|by eapply IH].
Qed.

Lemma cells_fst L ns : (cells L ns).*1 = footprint L ns.
Proof. unfold cells, footprint. cbn. f_equal. rewrite <-list_fmap_compose. done. Qed.

Lemma list_rep_frame h h' L ns :
  list_rep h L ns → (∀ l, l ∈ footprint L ns → h' !! l = h !! l) → list_rep h' L ns.
Proof.
  intros [Hc Ht Hl] Hf. split; [|done|done]. eapply chain_frame; [done|]. by rewrite cells_fst.
Qed.

(** ** Insertion *)

Lemma chain_snoc h pr ns t x tmp y :
  chain h pr (ns ++ [(t, x)]) → NoDup (ns ++ [(t, x)]).*1 → tmp ∉ (ns ++ [(t, x)]).*1 →
  ∃ p, h !! t = Some (mk_node p x None) ∧
    chain (<[tmp := mk_node (Some t) y None]> (<[t := mk_node p x (Some tmp)]> h))
      pr (ns ++ [(t, x); (tmp, y)]).
Proof.
  revert pr. induction ns as [|[l z] ns IH]; intros pr Hc Hnd Htmp; simpl in *.
  - destruct Hc as [Ht _]. exists pr. split; [done|]. apply not_elem_of_cons in Htmp as [Hne _].
    split_and!; [|by rewrite lookup_insert_eq|done].
    by rewrite lookup_insert_ne, lookup_insert_eq.
  - destruct Hc as [Hl Hc]. apply NoDup_cons in Hnd as [Hni Hnd].
    apply not_elem_of_cons in Htmp as [Hne Htmp].
    destruct (IH (Some l) Hc Hnd Htmp) as (p & Ht & Hc'). exists p. split; [done|]. split; [|done].
    assert (l ≠ t) by (intros ->; apply Hni; rewrite fmap_app; set_solver).
    rewrite !lookup_insert_ne by done. rewrite Hl. do 2 f_equal. by destruct ns.
Qed.

Lemma list_rep_cells L (ns : list (nat * E)) :
  ∃ ns0 x, cells L ns = ns0 ++ [(default (l_head L) (last ns.*1), x)] ∧
    footprint L ns = ns0.*1 ++ [default (l_head L) (last ns.*1)].
Proof.
  unfold cells, footprint. destruct ns as [|p ns _] using rev_ind.
  - by exists [], None.
  - exists ((l_head L, None) :: ((λ p, (p.1, Some p.2)) <$> ns)), (Some p.2).
    rewrite !fmap_app. cbn [fmap list_fmap]. rewrite last_snoc. cbn [default].
    split; [done|]. cbn. do 2 f_equal. by rewrite <-list_fmap_compose.
Qed.

Lemma InsertInTail_rep h L ns x :
  list_rep h L ns → NoDup (footprint L ns) → new h ∉ footprint L ns →
  ∃ h' L', InsertInTail h L x = Some (h', L') ∧ l_head L' = l_head L ∧
    list_rep h' L' (ns ++ [(new h, x)]) ∧
    (∀ l, l ∉ footprint L ns → l ≠ new h → h' !! l = h !! l) ∧
    dom h' = {[new h]} ∪ dom h.
Proof.
  intros [Hc Ht Hl] Hnd Hnew. destruct (list_rep_cells L ns) as (ns0 & y & Hcells & Hfp).
  set (t := default (l_head L) (last ns.*1)) in *.
  assert (l_tail L = t) as Htail.
  { rewrite Hfp, last_snoc in Ht. by injection Ht as <-. }
  rewrite Hcells in Hc. rewrite Hfp in Hnd, Hnew.
  destruct (chain_snoc h None ns0 t y (new h) (Some x)) as (p & Hlook & Hc');
    [done|by rewrite fmap_app|by rewrite fmap_app|].
  unfold InsertInTail. rewrite Htail, Hlook. cbn [prev data].
  eexists _, _. split_and!; [done|done| | |].
  - split; cbn [l_head l_tail l_len].
    + unfold cells in *. cbn [l_head]. rewrite fmap_app. cbn [fmap list_fmap].
      rewrite app_comm_cons, Hcells. by rewrite <-app_assoc.
    + unfold footprint. cbn [l_head]. rewrite fmap_app, app_comm_cons. apply last_snoc.
    + rewrite Hl, s32_add, length_app. simpl. f_equal. lia.
  - intros l Hni Hne. rewrite lookup_insert_ne by done. rewrite lookup_insert_ne; [done|].
    intros <-. apply Hni. rewrite Hfp. set_solver.
  - rewrite !dom_insert_L. assert (t ∈ dom h) by (apply elem_of_dom; eauto). set_solver.
Qed.

(** ** Deletion *)

Lemma DeleteInHead_empty h L :
  list_rep h L [] → DeleteInHead h L = Some (None, h, L).
Proof. intros [[Hc _] _ _]. unfold DeleteInHead. by rewrite Hc. Qed.

Lemma DeleteInHead_rep h L p x ns :
  list_rep h L ((p, x) :: ns) → NoDup (footprint L ((p, x) :: ns)) →
  ∃ h' L', DeleteInHead h L = Some (Some x, h', L') ∧ l_head L' = l_head L ∧
    list_rep h' L' ns ∧
    (∀ l, l ∉ footprint L ((p, x) :: ns) → h' !! l = h !! l) ∧ dom h' = dom h ∖ {[p]}.
Proof.
  intros [(Hhd & Hp & Hc) Ht Hl] Hnd. unfold footprint in *.
  cbn [fst snd fmap list_fmap head] in *. cbn in Hhd, Hnd.
  apply NoDup_cons in Hnd as [Hh Hnd]. apply NoDup_cons in Hnd as [Hpn Hnd].
  apply not_elem_of_cons in Hh as [Hhp Hhn].
  unfold DeleteInHead. rewrite Hhd. cbn. rewrite Hp. cbn [prev next data].
  rewrite decide_True by done. destruct ns as [|[q y] ns]; cbn [fmap option_fmap option_map head list_fmap fst].
  - eexists _, _. split_and!; [done|done| | |].
    + split; cbn [l_head l_tail l_len]; [|done|].
      * split; [|done]. by rewrite lookup_delete_ne, lookup_insert_eq.
      * rewrite Hl. done.
    + intros l Hni. cbn in Hni. rewrite lookup_delete_ne, lookup_insert_ne by set_solver. done.
    + rewrite dom_delete_L, dom_insert_L.
      assert (l_head L ∈ dom h) by (apply elem_of_dom; eauto). set_solver.
  - cbn in *. apply NoDup_cons in Hnd as [Hqn Hnd]. apply not_elem_of_cons in Hhn as [Hhq Hhn].
    apply not_elem_of_cons in Hpn as [Hpq Hpn]. destruct Hc as [Hq Hc].
    rewrite lookup_insert_ne, Hq by done. cbn [data next].
    eexists _, _. split_and!; [done|done| | |].
    + split; cbn [l_head l_tail l_len].
      * split; [by rewrite lookup_delete_ne, lookup_insert_ne, lookup_insert_eq by done|].
        split; [by rewrite lookup_delete_ne, lookup_insert_eq by done|].
        eapply chain_frame; [done|]. intros l Hin. rewrite <-list_fmap_compose in Hin.
        rewrite lookup_delete_ne, !lookup_insert_ne; [done|..]; intros <-; by auto.
      * done.
      * rewrite Hl. unfold Z.sub. rewrite s32_add. f_equal. cbn [length]. lia.
    + intros l Hni. cbn in Hni. rewrite lookup_delete_ne, !lookup_insert_ne by set_solver. done.
    + rewrite dom_delete_L, !dom_insert_L.
      assert (l_head L ∈ dom h) by (apply elem_of_dom; eauto).
      assert (q ∈ dom h) by (apply elem_of_dom; eauto). set_solver.
Qed.
End linked.
Arguments Node_t : clear implicits.

(** ** The interface of the die queues *)

(** All queues of the device; [None] is a crash. *)
Class DieQueue (E : Type) := {
  dq : Type;
  dq_init : nat → dq;
  dq_insert : dq → nat → E → option dq;
  dq_delete : dq → nat → option (option E * dq);
  (** the queues as lists, the oldest element first *)
  dq_rep : dq → list (list E) → Prop
}.

Class DieQueueOk {E} (D : DieQueue E) : Prop := {
  dq_init_ok k : dq_rep (dq_init k) (replicate k []);
  dq_insert_ok q qs i xs x : dq_rep q qs → qs !! i = Some xs →
    ∃ q', dq_insert q i x = Some q' ∧ dq_rep q' (<[i := xs ++ [x]]> qs);
  dq_delete_nil q qs i : dq_rep q qs → qs !! i = Some [] → dq_delete q i = Some (None, q);
  dq_delete_cons q qs i x xs : dq_rep q qs → qs !! i = Some (x :: xs) →
    ∃ q', dq_delete q i = Some (Some x, q') ∧ dq_rep q' (<[i := xs]> qs)
}.

(** The trivial implementation. *)
#[global] Instance listDQ (E : Type) : DieQueue E := {|
  dq := list (list E);
  dq_init k := replicate k [];
  dq_insert q i x := match q !! i with Some xs => Some (<[i := xs ++ [x]]> q) | None => None end;
  dq_delete q i :=
    match q !! i with
    | Some [] => Some (None, q)
    | Some (x :: xs) => Some (Some x, <[i := xs]> q)
    | None => None
    end;
  dq_rep q qs := q = qs
|}.

#[global] Instance listDQ_ok (E : Type) : DieQueueOk (listDQ E).
Proof.
  split; simpl.
  - done.
  - intros q qs i xs x -> Hi. rewrite Hi. eauto.
  - intros q qs i -> Hi. by rewrite Hi.
  - intros q qs i x xs -> Hi. rewrite Hi. eauto.
Qed.

(** ** Linked lists implement it *)

Section linked_queues.
Context {E : Type} (new : gmap nat (Node_t E) → nat).

Record queues := mk_queues { q_heap : gmap nat (Node_t E); q_lists : list List_t }.

(** The loop of [zns_ftl_init] over the dies. *)
Fixpoint init_lists (k : nat) (h : gmap nat (Node_t E)) : queues :=
  match k with
  | O => mk_queues h []
  | S k' =>
      let r := InitList new h in
      let q := init_lists k' (fst r) in
      mk_queues (q_heap q) (snd r :: q_lists q)
  end.

Definition insert_at (q : queues) (i : nat) (x : E) : option queues :=
  match q_lists q !! i with
  | Some L =>
      match InsertInTail new (q_heap q) L x with
      | Some (h, L') => Some (mk_queues h (<[i := L']> (q_lists q)))
      | None => None
      end
  | None => None
  end.

Definition delete_at (q : queues) (i : nat) : option (option E * queues) :=
  match q_lists q !! i with
  | Some L =>
      match DeleteInHead (q_heap q) L with
      | Some (x, h, L') => Some (x, mk_queues h (<[i := L']> (q_lists q)))
      | None => None
      end
  | None => None
  end.

Definition footprints (Ls : list List_t) (nss : list (list (nat * E))) : list (list nat) :=
  zip_with footprint Ls nss.

(** The lists are in separate parts of the heap, and the heap holds nothing else. *)
Record queues_rep (q : queues) (qs : list (list E)) (nss : list (list (nat * E))) : Prop := {
  qr_lists : Forall2 (list_rep (q_heap q)) (q_lists q) nss;
  qr_view : qs = (λ ns, ns.*2) <$> nss;
  qr_nodup : NoDup (concat (footprints (q_lists q) nss));
  qr_dom : dom (q_heap q) = list_to_set (concat (footprints (q_lists q) nss))
}.

#[global] Instance linked : DieQueue E := {|
  dq := queues;
  dq_init k := init_lists k ∅;
  dq_insert := insert_at;
  dq_delete := delete_at;
  dq_rep q qs := ∃ nss, queues_rep q qs nss
|}.

Lemma concat_insert {A} (F : list (list A)) i f f' :
  F !! i = Some f →
  ∃ R, concat F ≡ₚ f ++ R ∧ concat (<[i := f']> F) ≡ₚ f' ++ R.
Proof.
  intros Hi. exists (concat (take i F) ++ concat (drop (S i) F)).
  pose proof (lookup_lt_Some _ _ _ Hi). split.
  - rewrite <-(take_drop_middle F i f Hi) at 1. rewrite concat_app. simpl. solve_Permutation.
  - rewrite insert_take_drop, concat_app by done. simpl. solve_Permutation.
Qed.

Lemma queues_lookup q qs nss i xs :
  queues_rep q qs nss → qs !! i = Some xs →
  ∃ L ns, q_lists q !! i = Some L ∧ nss !! i = Some ns ∧ list_rep (q_heap q) L ns ∧
    xs = ns.*2 ∧ footprints (q_lists q) nss !! i = Some (footprint L ns) ∧
    NoDup (footprint L ns).
Proof.
  intros [Hl -> Hnd _] Hi. rewrite list_lookup_fmap in Hi.
  apply fmap_Some in Hi as (ns & Hns & ->).
  destruct (Forall2_lookup_r _ _ _ _ _ Hl Hns) as (L & HL & Hr).
  assert (footprints (q_lists q) nss !! i = Some (footprint L ns)) as Hf.
  { unfold footprints. by rewrite lookup_zip_with, HL; cbn; rewrite Hns. }
  exists L, ns. split_and!; try done.
  destruct (concat_insert _ i _ [] Hf) as (R & HR & _). rewrite HR in Hnd.
  by apply NoDup_app in Hnd as [? _].
Qed.

(** Replacing list [i] by one whose footprint is [f'], when the others are untouched. *)
Lemma queues_update q qs nss i L ns h' L' ns' :
  queues_rep q qs nss → q_lists q !! i = Some L → nss !! i = Some ns →
  list_rep h' L' ns' →
  (∀ l, l ∈ concat (footprints (q_lists q) nss) → l ∉ footprint L ns → h' !! l = q_heap q !! l) →
  NoDup (concat (<[i := footprint L' ns']> (footprints (q_lists q) nss))) →
  dom h' = list_to_set (concat (<[i := footprint L' ns']> (footprints (q_lists q) nss))) →
  queues_rep (mk_queues h' (<[i := L']> (q_lists q))) (<[i := ns'.*2]> qs) (<[i := ns']> nss).
Proof.
  intros [Hl -> Hnd Hdom] HL Hns Hr Hframe Hnd' Hdom'.
  assert (footprints (<[i := L']> (q_lists q)) (<[i := ns']> nss) =
    <[i := footprint L' ns']> (footprints (q_lists q) nss)) as Hf.
  { unfold footprints. by rewrite insert_zip_with. }
  split; cbn [q_heap q_lists]; [|by rewrite list_fmap_insert|by rewrite Hf|by rewrite Hf].
  apply Forall2_same_length_lookup_2.
  { rewrite !length_insert. by eapply Forall2_length. }
  intros j Lj nsj HLj Hnsj. destruct (decide (i = j)) as [<-|Hne].
  - rewrite list_lookup_insert_eq in HLj by by eapply lookup_lt_Some.
    rewrite list_lookup_insert_eq in Hnsj by by eapply lookup_lt_Some.
    by simplify_eq.
  - rewrite list_lookup_insert_ne in HLj by done.
    rewrite list_lookup_insert_ne in Hnsj by done.
    pose proof (Forall2_lookup_lr _ _ _ _ _ _ Hl HLj Hnsj) as Hrj.
    eapply list_rep_frame; [done|]. intros l Hlj.
    assert (footprints (q_lists q) nss !! j = Some (footprint Lj nsj)) as Hfj
      by (unfold footprints; by rewrite lookup_zip_with, HLj; cbn; rewrite Hnsj).
    assert (footprints (q_lists q) nss !! i = Some (footprint L ns)) as Hfi
      by (unfold footprints; by rewrite lookup_zip_with, HL; cbn; rewrite Hns).
    apply Hframe.
    + destruct (concat_insert _ j _ [] Hfj) as (R & -> & _). set_solver.
    + intros Hli. destruct (concat_insert _ i _ [] Hfi) as (R & HR & HR').
      rewrite HR in Hnd. apply NoDup_app in Hnd as (_ & Hd & _). apply (Hd l Hli).
      simpl in HR'. rewrite <-HR'.
      assert (<[i := []]> (footprints (q_lists q) nss) !! j = Some (footprint Lj nsj)) as Hj'
        by by rewrite list_lookup_insert_ne.
      destruct (concat_insert _ j _ [] Hj') as (R' & -> & _). set_solver.
Qed.

Hypothesis new_fresh : ∀ h, new h ∉ dom h.

Lemma init_lists_rep k h :
  let q := init_lists k h in
  ∃ nss, Forall2 (list_rep (q_heap q)) (q_lists q) nss ∧ (λ ns, ns.*2) <$> nss = replicate k [] ∧
    NoDup (concat (footprints (q_lists q) nss)) ∧
    (∀ l, l ∈ concat (footprints (q_lists q) nss) → l ∉ dom h) ∧
    (∀ l, l ∈ dom h → q_heap q !! l = h !! l) ∧
    dom (q_heap q) = dom h ∪ list_to_set (concat (footprints (q_lists q) nss)).
Proof.
  revert h. induction k as [|k IH]; intros h; cbn -[InitList].
  { exists []. split_and!; [constructor|done|constructor|set_solver|done|set_solver]. }
  pose proof (new_fresh h) as Hnew.
  destruct (IH (fst (InitList new h))) as (nss & Hl & Hv & Hnd & Hd & Hf & Hdom).
  cbn [InitList fst snd] in *. set (q := init_lists k _) in *.
  rewrite dom_insert_L in Hd, Hf, Hdom.
  exists ([] :: nss). unfold footprints in *. cbn. split_and!.
  - constructor; [|done]. split; cbn; [|done|done]. split; [|done].
    rewrite Hf by set_solver. by rewrite lookup_insert_eq.
  - by rewrite Hv.
  - apply NoDup_cons. split; [|done]. intros Hin. apply (Hd _ Hin). set_solver.
  - intros l [->|Hin]%elem_of_cons; [done|]. specialize (Hd _ Hin). set_solver.
  - intros l Hin. rewrite Hf by set_solver. by rewrite lookup_insert_ne by set_solver.
  - rewrite Hdom. set_solver.
Qed.

Lemma insert_at_rep q qs nss i xs x :
  queues_rep q qs nss → qs !! i = Some xs →
  ∃ q' nss', insert_at q i x = Some q' ∧ queues_rep q' (<[i := xs ++ [x]]> qs) nss'.
Proof.
  intros Hq Hi.
  destruct (queues_lookup _ _ _ _ _ Hq Hi) as (L & ns & HL & Hns & Hr & -> & Hf & Hnd).
  pose proof (new_fresh (q_heap q)) as Hnew. rewrite (qr_dom _ _ _ Hq) in Hnew.
  rewrite elem_of_list_to_set in Hnew.
  destruct (concat_insert _ i _ (footprint L (ns ++ [(new (q_heap q), x)])) Hf)
    as (R & HR & HR').
  assert (new (q_heap q) ∉ footprint L ns) as Hnf by (rewrite HR in Hnew; set_solver).
  destruct (InsertInTail_rep new _ _ _ x Hr Hnd Hnf) as (h' & L' & HI & Hhd & Hr' & Hfr & Hdom).
  unfold insert_at. rewrite HL, HI. eexists _, _. split; [done|].
  replace (ns.*2 ++ [x]) with (ns ++ [(new (q_heap q), x)]).*2 by by rewrite fmap_app.
  assert (footprint L' (ns ++ [(new (q_heap q), x)]) ≡ₚ new (q_heap q) :: footprint L ns) as Hp.
  { unfold footprint. rewrite Hhd, fmap_app. cbn. solve_Permutation. }
  assert (concat (<[i := footprint L' (ns ++ [(new (q_heap q), x)])]> (footprints (q_lists q) nss))
    ≡ₚ new (q_heap q) :: concat (footprints (q_lists q) nss)) as Hc.
  { unfold footprint at 1. rewrite Hhd. fold (footprint L (ns ++ [(new (q_heap q), x)])).
    rewrite HR', HR. unfold footprint at 1 in Hp. rewrite Hhd in Hp. by rewrite Hp. }
  eapply queues_update; eauto.
  - intros l Hin Hni. apply Hfr; [done|]. intros ->. by apply Hnew.
  - rewrite Hc. apply NoDup_cons. split; [done|]. apply Hq.
  - rewrite Hc, Hdom, (qr_dom _ _ _ Hq). set_solver.
Qed.

Lemma delete_at_rep q qs nss i x xs :
  queues_rep q qs nss → qs !! i = Some (x :: xs) →
  ∃ q' nss', delete_at q i = Some (Some x, q') ∧ queues_rep q' (<[i := xs]> qs) nss'.
Proof.
  intros Hq Hi.
  destruct (queues_lookup _ _ _ _ _ Hq Hi) as (L & ns & HL & Hns & Hr & Hx & Hf & Hnd).
  destruct ns as [|[p y] ns]; [done|]. injection Hx as <- ->.
  destruct (DeleteInHead_rep new _ _ _ _ _ Hr Hnd) as (h' & L' & HI & Hhd & Hr' & Hfr & Hdom).
  unfold delete_at. rewrite HL, HI. eexists _, _. split; [done|].
  destruct (concat_insert _ i _ (footprint L' ns) Hf) as (R & HR & HR').
  assert (concat (footprints (q_lists q) nss) ≡ₚ
    p :: concat (<[i := footprint L' ns]> (footprints (q_lists q) nss))) as Hc.
  { rewrite HR, HR'. unfold footprint. rewrite Hhd. cbn. solve_Permutation. }
  pose proof (qr_nodup _ _ _ Hq) as Hnd'. rewrite Hc in Hnd'.
  apply NoDup_cons in Hnd' as [Hp Hnd'].
  eapply queues_update; eauto.
  rewrite Hdom, (qr_dom _ _ _ Hq), Hc. set_solver.
Qed.

#[global] Instance linked_ok : DieQueueOk linked.
Proof.
  split; cbn.
  - intros k. destruct (init_lists_rep k ∅) as (nss & ? & Hv & ? & _ & _ & Hd).
    exists nss. split; [done|done|done|set_solver].
  - intros q qs i xs x [nss Hq] Hi.
    destruct (insert_at_rep _ _ _ _ _ x Hq Hi) as (q' & nss' & ? & ?); eauto.
  - intros q qs i [nss Hq] Hi.
    destruct (queues_lookup _ _ _ _ _ Hq Hi) as (L & ns & HL & Hns & Hr & Hx & _).
    destruct ns; [|done]. unfold delete_at. rewrite HL, DeleteInHead_empty by done.
    rewrite list_insert_id by done. by destruct q.
  - intros q qs i x xs [nss Hq] Hi.
    destruct (delete_at_rep _ _ _ _ _ _ Hq Hi) as (q' & nss' & ? & ?); eauto.
Qed.
End linked_queues.
