(* ===== verification/FtlTypes.v ===== *)
(** * Data of the flash translation layer

    The structures of [src/zns/fairness/fairness.h] (the dynamic mapping of zones to
    flash block groups), of [src/zns/supplement/sup_zns_mapping_strategy_interface.h]
    (transactions, requests, the device) and of the flash array whose types are in FEMU's
    [bbssd/ftl.h].  Pointers to transactions and to wrapped requests are keys of stores;
    a key that is not in its store has been freed or was never allocated.

    Of code outside the repository the model has as arguments: the widths of the bit
    fields of [struct ppa] ([PpaBits]), the allocator ([Malloc]) and, where it is read,
    the clock. *)

From stdpp Require Import base numbers option sets list list_numbers gmap.
From S2P Require Import Prelude FtlList ZnsTypes.

(** ** Arrays indexed by C integers *)

(** [a[i]], out of bounds when [None]. *)
Definition aget {A} (l : list A) (i : Z) : option A := if 0 <=? i then l !! Z.to_nat i else None.
Definition aset {A} (l : list A) (i : Z) (x : A) : option (list A) :=
  match aget l i with Some _ => Some (<[Z.to_nat i := x]> l) | None => None end.

(** Integer division; the divisor zero stops the program. *)
Definition cdiv {S} (a b : Z) : ST S Z := if b =? 0 then crash else ret (Z.quot a b).
Definition cmod {S} (a b : Z) : ST S Z := if b =? 0 then crash else ret (Z.rem a b).

(** [for (i = a; i < b; i++) body] *)
Fixpoint for_up {S} (k : nat) (i : Z) (body : Z → ST S unit) : ST S unit :=
  match k with O => ret tt | Datatypes.S k' => body i ;; for_up k' (i + 1) body end.
Definition for_range {S} (a b : Z) (body : Z → ST S unit) : ST S unit :=
  for_up (Z.to_nat (b - a)) a body.

(** ** The flash array *)

Inductive nand_status := SEC_FREE | PG_FREE | PG_VALID.

Record nand_page := mk_page { sec : list nand_status; nsecs : Z; pg_status : nand_status }.
Record nand_block := mk_block {
  pg : list nand_page; npgs : Z; ipc : Z; vpc : Z; erase_cnt : Z; blk_wp : Z }.
Record nand_plane := mk_plane { blk : list nand_block; nblks : Z }.
Record nand_lun := mk_lun { pl : list nand_plane; npls : Z; next_lun_avail_time : Z; lun_busy : bool }.
Record ssd_channel := mk_channel {
  lun : list nand_lun; nluns : Z; next_ch_avail_time : Z; ch_busy : bool }.

Record ssdparams := mk_sp {
  secsz : Z; secs_per_pg : Z; pgs_per_blk : Z; blks_per_pl : Z; pls_per_lun : Z;
  luns_per_ch : Z; nchs : Z;
  pg_rd_lat : Z; pg_wr_lat : Z; blk_er_lat : Z; ch_xfer_lat : Z;
  secs_per_blk : Z; secs_per_pl : Z; secs_per_lun : Z; secs_per_ch : Z; tt_secs : Z;
  pgs_per_pl : Z; pgs_per_lun : Z; pgs_per_ch : Z; tt_pgs : Z;
  blks_per_lun : Z; blks_per_ch : Z; tt_blks : Z;
  pls_per_ch : Z; tt_pls : Z; tt_luns : Z
}.

(** The fields of [struct ppa]. *)
Record ppa := mk_ppa { g_ch : Z; g_lun : Z; g_pl : Z; g_blk : Z; g_pg : Z; g_sec : Z }.

#[global] Instance ppa_eq_dec : EqDecision ppa.
Proof. solve_decision. Defined.

(** Widths of the bit fields. *)
Class PpaBits := {
  ch_bits : Z; lun_bits : Z; pl_bits : Z; blk_bits : Z; pg_bits : Z; sec_bits : Z
}.

(** Assignment to a bit field of [w] bits. *)
Definition bf (w x : Z) : Z := x mod 2 ^ w.

(** ** The dynamic mapping: [fairness.h] *)

Definition ZONE_MAX_DIE_PARA : Z := 16.
Definition INITIAL_OPEN_LIMIT : Z := 4.
Definition MAXOPENZONES : Z := 10.

Record phy_zone_t := mk_phy_zone {
  map_die_group_num : Z;
  die_groups : list Z;     (* 8 entries *)
  fbg_ofst : Z;
  fbg_part : Z
}.

Record fbg_part_t := mk_fbg_part { fbg_id : Z; fbg_part_sum : Z; next_fbg_part : Z }.

Record die_group_t := mk_die_group {
  die : list Z;
  fbgs_used_bitmap : list Z;
  fbgs_parts_sum : list Z;
  remain_fbgs_num : Z;
  next_fbg_id : Z;
  part_map_flag : Z;
  fbg_part_map : fbg_part_t
}.

Record dymap_t := mk_dymap {
  opened_zones : list Z;   (* MAXOPENZONES entries *)
  opened_zones_num : Z;
  open_zone_limit : Z;
  die_group_sum : Z;
  die_group : list die_group_t;
  die_group_used_bitmap : list Z;
  fbgs_per_dg : Z;
  zones_per_dg : Z;
  phy_zone : list phy_zone_t;
  st_stage_flag : Z;
  last_opened_zones_num : Z
}.

(** Field updates. *)
Definition dg_set_bitmap (x : list Z) (g : die_group_t) : die_group_t :=
  mk_die_group (die g) x (fbgs_parts_sum g) (remain_fbgs_num g) (next_fbg_id g)
    (part_map_flag g) (fbg_part_map g).
Definition dg_set_remain (x : Z) (g : die_group_t) : die_group_t :=
  mk_die_group (die g) (fbgs_used_bitmap g) (fbgs_parts_sum g) x (next_fbg_id g)
    (part_map_flag g) (fbg_part_map g).
Definition dg_set_next (x : Z) (g : die_group_t) : die_group_t :=
  mk_die_group (die g) (fbgs_used_bitmap g) (fbgs_parts_sum g) (remain_fbgs_num g) x
    (part_map_flag g) (fbg_part_map g).
Definition dg_set_part (x : Z) (p : fbg_part_t) (g : die_group_t) : die_group_t :=
  mk_die_group (die g) (fbgs_used_bitmap g) (fbgs_parts_sum g) (remain_fbgs_num g)
    (next_fbg_id g) x p.

Definition dm_set_opened (l : list Z) (k : Z) (m : dymap_t) : dymap_t :=
  mk_dymap l k (open_zone_limit m) (die_group_sum m) (die_group m) (die_group_used_bitmap m)
    (fbgs_per_dg m) (zones_per_dg m) (phy_zone m) (st_stage_flag m) (last_opened_zones_num m).
Definition dm_set_die_group (x : list die_group_t) (m : dymap_t) : dymap_t :=
  mk_dymap (opened_zones m) (opened_zones_num m) (open_zone_limit m) (die_group_sum m) x
    (die_group_used_bitmap m) (fbgs_per_dg m) (zones_per_dg m) (phy_zone m) (st_stage_flag m)
    (last_opened_zones_num m).
Definition dm_set_used (x : list Z) (m : dymap_t) : dymap_t :=
  mk_dymap (opened_zones m) (opened_zones_num m) (open_zone_limit m) (die_group_sum m)
    (die_group m) x (fbgs_per_dg m) (zones_per_dg m) (phy_zone m) (st_stage_flag m)
    (last_opened_zones_num m).
Definition dm_set_phy_zone (x : list phy_zone_t) (m : dymap_t) : dymap_t :=
  mk_dymap (opened_zones m) (opened_zones_num m) (open_zone_limit m) (die_group_sum m)
    (die_group m) (die_group_used_bitmap m) (fbgs_per_dg m) (zones_per_dg m) x
    (st_stage_flag m) (last_opened_zones_num m).
Definition dm_set_stage (x : Z) (m : dymap_t) : dymap_t :=
  mk_dymap (opened_zones m) (opened_zones_num m) (open_zone_limit m) (die_group_sum m)
    (die_group m) (die_group_used_bitmap m) (fbgs_per_dg m) (zones_per_dg m) (phy_zone m) x
    (last_opened_zones_num m).
Definition dm_set_limits (last limit : Z) (m : dymap_t) : dymap_t :=
  mk_dymap (opened_zones m) (opened_zones_num m) limit (die_group_sum m) (die_group m)
    (die_group_used_bitmap m) (fbgs_per_dg m) (zones_per_dg m) (phy_zone m) (st_stage_flag m)
    last.

(** ** Requests and transactions *)

(** The fields of [NvmeRequest] the translation layer uses. *)
Record ftl_req := mk_ftl_req { fr_cmd : NvmeCmd; stime : Z; reqlat : Z; expire_time : Z }.

Inductive nand_cmd_type := NAND_READ | NAND_WRITE | NAND_ERASE | NAND_OTHER (v : Z).

#[global] Instance nand_cmd_type_eq_dec : EqDecision nand_cmd_type.
Proof. solve_decision. Defined.

(** [struct NvmeRequestPlus]; an entry of [flash_ts] is [None] once its transaction has
    been freed. *)
Record NvmeRequestPlus_t := mk_req_plus {
  rp_req : nat;
  flash_ts : list (option nat);
  ts_num : Z;
  ts_sum : Z;
  maxlat : Z;
  cmd_type : nand_cmd_type
}.

(** [struct flash_transaction]; [None] is an indeterminate value. *)
Record flash_ts_t := mk_ts {
  req_plus : option nat;
  zone_idx : Z;
  ops_num : Z;
  die_idx : Z;
  pl_idx : Z;
  blk_idx : option Z;
  pg_idx : option Z
}.

(** ** The controller fields the layer reads *)

Record ftl_ctrl := mk_ftl_ctrl {
  fc_num_zones : Z;
  fc_zone_size : Z;
  fc_zone_size_log2 : Z;
  fc_zslba : list Z;       (* zone_array[i].d.zslba *)
  fc_lbads : Z             (* of namespaces[0] *)
}.

(** They are fields of the controller of [zns.c]. *)
Definition ctrl_view {T : TailQ} {F : Femu} (n : FemuCtrl) : ftl_ctrl :=
  mk_ftl_ctrl (num_zones (params n)) (zone_size (params n)) (zone_size_log2 (params n))
    ((λ z, zslba (d z)) <$> zone_array n) (zns_ns_lbads n).

(** ** The device *)

Record ftl_stats := mk_stats {
  sm_pl_sz : Z; df_addr_type_sz : Z; pl_sz : Z; ops_sum : Z; pl_sum : Z;
  sum_serv_time_us : Z; dg_time_us : list Z  (* 8 entries *)
}.

(** The allocator of the stores. *)
Class Malloc := {
  new_ts : gmap nat flash_ts_t → nat;
  new_rp : gmap nat NvmeRequestPlus_t → nat
}.
Class MallocOk (M : Malloc) : Prop := {
  new_ts_fresh h : new_ts h ∉ dom h;
  new_rp_fresh h : new_rp h ∉ dom h
}.

Section device.
Context {Q : DieQueue nat}.

(** [struct zns_ssd], the stores its pointers lead to, the static variables of
    [fairness.c] ([req_sum], [last_time]) and the calls of [femu_ring_enqueue]: the ring
    of poller [p] was given request [r].  The result of that call only selects a debug
    message. *)
Record zns_ssd := mk_ssd {
  sp : ssdparams;
  ch : list ssd_channel;
  queues_of : dq;
  dymap : dymap_t;
  start_up_flag : Z;
  stats : ftl_stats;
  ts_store : gmap nat flash_ts_t;
  rp_store : gmap nat NvmeRequestPlus_t;
  req_store : gmap nat ftl_req;
  req_sum : Z;
  last_time : Z;
  enqueued : list (Z * nat)
}.

Definition set_ch (x : list ssd_channel) (s : zns_ssd) : zns_ssd :=
  mk_ssd (sp s) x (queues_of s) (dymap s) (start_up_flag s) (stats s) (ts_store s)
    (rp_store s) (req_store s) (req_sum s) (last_time s) (enqueued s).
Definition set_queues_of (x : dq) (s : zns_ssd) : zns_ssd :=
  mk_ssd (sp s) (ch s) x (dymap s) (start_up_flag s) (stats s) (ts_store s)
    (rp_store s) (req_store s) (req_sum s) (last_time s) (enqueued s).
Definition set_dymap (x : dymap_t) (s : zns_ssd) : zns_ssd :=
  mk_ssd (sp s) (ch s) (queues_of s) x (start_up_flag s) (stats s) (ts_store s)
    (rp_store s) (req_store s) (req_sum s) (last_time s) (enqueued s).
Definition set_startup (flag sum : Z) (s : zns_ssd) : zns_ssd :=
  mk_ssd (sp s) (ch s) (queues_of s) (dymap s) flag (stats s) (ts_store s)
    (rp_store s) (req_store s) sum (last_time s) (enqueued s).
Definition set_stats (x : ftl_stats) (s : zns_ssd) : zns_ssd :=
  mk_ssd (sp s) (ch s) (queues_of s) (dymap s) (start_up_flag s) x (ts_store s)
    (rp_store s) (req_store s) (req_sum s) (last_time s) (enqueued s).
Definition set_ts_store (x : gmap nat flash_ts_t) (s : zns_ssd) : zns_ssd :=
  mk_ssd (sp s) (ch s) (queues_of s) (dymap s) (start_up_flag s) (stats s) x
    (rp_store s) (req_store s) (req_sum s) (last_time s) (enqueued s).
Definition set_rp_store (x : gmap nat NvmeRequestPlus_t) (s : zns_ssd) : zns_ssd :=
  mk_ssd (sp s) (ch s) (queues_of s) (dymap s) (start_up_flag s) (stats s) (ts_store s)
    x (req_store s) (req_sum s) (last_time s) (enqueued s).
Definition set_req_store (x : gmap nat ftl_req) (s : zns_ssd) : zns_ssd :=
  mk_ssd (sp s) (ch s) (queues_of s) (dymap s) (start_up_flag s) (stats s) (ts_store s)
    (rp_store s) x (req_sum s) (last_time s) (enqueued s).
Definition set_last_time (x : Z) (s : zns_ssd) : zns_ssd :=
  mk_ssd (sp s) (ch s) (queues_of s) (dymap s) (start_up_flag s) (stats s) (ts_store s)
    (rp_store s) (req_store s) (req_sum s) x (enqueued s).
Definition set_enqueued (x : list (Z * nat)) (s : zns_ssd) : zns_ssd :=
  mk_ssd (sp s) (ch s) (queues_of s) (dymap s) (start_up_flag s) (stats s) (ts_store s)
    (rp_store s) (req_store s) (req_sum s) (last_time s) x.
End device.
