(* ===== verification/FtlMap.v ===== *)
(** * The dynamic mapping of zones to flash: [src/zns/fairness/fairness.c]

    [alloc_fbg], [zone_open], [zone_close], [reset_open_infos], the address computation
    [get_ppa_by_lba_base] (the version compiled with [PARA_ZNS], which is 1) and
    [zns_dynamic_mapping_init].  The state is the structure [zns_dynamic_mapping].

    The device is divided in groups of [ZONE_MAX_DIE_PARA] dies; a flash block group
    (FBG) of a die group is the block with the same offset in every plane of every die of
    it.  The parameters in [ssdparams] are positive C integers, set once. *)

From stdpp Require Import base numbers option list list_numbers.
From S2P Require Import Prelude FtlTypes.

(** ** Access to the mapping *)

Definition dg_at (i : Z) : ST dymap_t die_group_t :=
  m <- get ;; load (aget (die_group m) i).

Definition dg_upd (i : Z) (f : die_group_t → die_group_t) : ST dymap_t unit :=
  m <- get ;;
  g <- load (aget (die_group m) i) ;;
  gs <- load (aset (die_group m) i (f g)) ;;
  modify (dm_set_die_group gs).

(** [die_group[i].fbgs_used_bitmap[k] += x] *)
Definition fbg_add (i k x : Z) : ST dymap_t unit :=
  g <- dg_at i ;;
  b <- load (aget (fbgs_used_bitmap g) k) ;;
  bm <- load (aset (fbgs_used_bitmap g) k (u32 (b + x))) ;;
  dg_upd i (dg_set_bitmap bm).

Definition used_at (i : Z) : ST dymap_t Z :=
  m <- get ;; load (aget (die_group_used_bitmap m) i).

(** [die_group_used_bitmap[i] += x] *)
Definition used_add (i x : Z) : ST dymap_t unit :=
  b <- used_at i ;;
  m <- get ;;
  us <- load (aset (die_group_used_bitmap m) i (u32 (b + x))) ;;
  modify (dm_set_used us).

Definition pz_at (i : Z) : ST dymap_t phy_zone_t :=
  m <- get ;; load (aget (phy_zone m) i).

Definition pz_upd (i : Z) (f : phy_zone_t → phy_zone_t) : ST dymap_t unit :=
  m <- get ;;
  z <- load (aget (phy_zone m) i) ;;
  zs <- load (aset (phy_zone m) i (f z)) ;;
  modify (dm_set_phy_zone zs).

(** The values [a[0], ..., a[k-1]], read in a loop. *)
Definition aread (a : list Z) (k : Z) : option (list Z) :=
  if Z.of_nat (length a) <? k then None else Some (take (Z.to_nat k) a).

(** ** Choosing a flash block group *)

(** [++next_fbg_id], back to zero at the end. *)
Definition next_wrap (fbgs : Z) (g : die_group_t) : die_group_t :=
  let n := u32 (next_fbg_id g + 1) in
  dg_set_next (if n =? fbgs then 0 else n) g.

(** The [while] of [alloc_fbg].  After [fbgs_per_dg] rounds it has seen every FBG of the
    group, so a loop that goes on for longer goes on forever. *)
Fixpoint alloc_scan (fuel : nat) (dg_idx : Z) : ST dymap_t unit :=
  match fuel with
  | O => crash
  | S fuel' =>
      m <- get ;;
      g <- dg_at dg_idx ;;
      b <- load (aget (fbgs_used_bitmap g) (next_fbg_id g)) ;;
      if 0 <? b then dg_upd dg_idx (next_wrap (fbgs_per_dg m)) ;; alloc_scan fuel' dg_idx
      else ret tt
  end.

(** The largest [next_fbg_id] of [k] groups from group [i] on. *)
Fixpoint max_next (k : nat) (i acc : Z) : ST dymap_t Z :=
  match k with
  | O => ret acc
  | S k' =>
      m <- get ;;
      assert (i <? die_group_sum m) ;;
      g <- dg_at i ;;
      max_next k' (i + 1) (if acc <? next_fbg_id g then next_fbg_id g else acc)
  end.

(** Returns [*fbg_ofst] and [*fbg_part]; the latter is only written by a partial
    allocation. *)
Definition alloc_fbg (fbg_type dg_idx part0 : Z) : ST dymap_t (Z * Z) :=
  m <- get ;;
  dg <- dg_at dg_idx ;;
  if fbg_type =? 1 then
    assert (0 <? remain_fbgs_num dg) ;;
    alloc_scan (S (Z.to_nat (fbgs_per_dg m))) dg_idx ;;
    dg_upd dg_idx (λ g, dg_set_remain (u32 (remain_fbgs_num g - 1)) g) ;;
    dg1 <- dg_at dg_idx ;;
    fbg_add dg_idx (next_fbg_id dg1) 1 ;;
    dg_upd dg_idx (next_wrap (fbgs_per_dg m)) ;;
    dg2 <- dg_at dg_idx ;;
    assert (next_fbg_id dg2 <? fbgs_per_dg m) ;;
    ret (next_fbg_id dg1, part0)
  else if part_map_flag dg =? 1 then
    let p := fbg_part_map dg in
    assert ((fbg_part_sum p =? fbg_type) && (0 <? next_fbg_part p)) ;;
    for_range dg_idx (u32 (dg_idx + fbg_type)) (λ i, fbg_add i (fbg_id p) 1) ;;
    let np := u32 (next_fbg_part p + 1) in
    dg_upd dg_idx
      (dg_set_part (if np =? fbg_type then 0 else 1) (mk_fbg_part (fbg_id p) (fbg_part_sum p) np)) ;;
    ret (fbg_id p, next_fbg_part p)
  else
    ofst <- max_next (Z.to_nat (u32 (dg_idx + fbg_type) - dg_idx)) dg_idx 0 ;;
    for_range dg_idx (u32 (dg_idx + fbg_type)) (λ i,
      fbg_add i ofst 1 ;;
      dg_upd i (next_wrap (fbgs_per_dg m)) ;;
      g <- dg_at i ;;
      assert (next_fbg_id g <? fbgs_per_dg m) ;;
      dg_upd i (λ g, dg_set_remain (u32 (remain_fbgs_num g - 1)) g)) ;;
    dg_upd dg_idx (dg_set_part 1 (mk_fbg_part ofst fbg_type 1)) ;;
    ret (ofst, 0).

(** ** Opening a zone *)

(** One comparison of the search for the least used die group: [(min_used_num, min_idx)]. *)
Definition min_step (acc : Z * Z) (i : Z) : ST dymap_t (Z * Z) :=
  u <- used_at i ;;
  ret (if u <? fst acc then (u, i) else acc).

(** [for (i = 0; i < die_group_sum; i += step)]; with [step = 0] it never ends. *)
Fixpoint min_stride (fuel : nat) (i step : Z) (acc : Z * Z) : ST dymap_t (Z * Z) :=
  match fuel with
  | O => crash
  | S fuel' =>
      m <- get ;;
      if i <? die_group_sum m then
        acc' <- min_step acc i ;;
        min_stride fuel' (u32 (i + step)) step acc'
      else ret acc
  end.

Fixpoint min_among (l : list Z) (acc : Z * Z) : ST dymap_t (Z * Z) :=
  match l with [] => ret acc | i :: l' => acc' <- min_step acc i ;; min_among l' acc' end.

(** The die groups with a free FBG, in the local array [avail_dg[4]]. *)
Fixpoint avail_dg (k : nat) (i : Z) (avail : list Z) : ST dymap_t (list Z) :=
  match k with
  | O => ret avail
  | S k' =>
      g <- dg_at i ;;
      if 0 <? remain_fbgs_num g then
        assert (Z.of_nat (length avail) <? 4) ;;
        avail_dg k' (i + 1) (avail ++ [i])
      else avail_dg k' (i + 1) avail
  end.

(** [phy_zone->die_groups[i] = x] *)
Definition pz_set_group (zone_idx i x : Z) : ST dymap_t unit :=
  z <- pz_at zone_idx ;;
  gs <- load (aset (die_groups z) i x) ;;
  pz_upd zone_idx (λ z, mk_phy_zone (map_die_group_num z) gs (fbg_ofst z) (fbg_part z)).

(** Several die groups for the zone. *)
Definition open_partial (zone_idx : Z) : ST dymap_t unit :=
  m <- get ;;
  num <- cdiv (die_group_sum m) (open_zone_limit m) ;;
  pz_upd zone_idx (λ z, mk_phy_zone num (die_groups z) (fbg_ofst z) (fbg_part z)) ;;
  mn <- min_stride (S (Z.to_nat (die_group_sum m))) 0 num (100, 0) ;;
  for_range 0 num (λ i,
    pz_set_group zone_idx i (u32 (snd mn + i)) ;;
    used_add (u32 (snd mn + i)) 1) ;;
  z <- pz_at zone_idx ;;
  g0 <- load (aget (die_groups z) 0) ;;
  r <- alloc_fbg num g0 0 ;;
  pz_upd zone_idx (λ z, mk_phy_zone (map_die_group_num z) (die_groups z) (fst r) (snd r)).

(** One die group for the zone. *)
Definition open_full (zone_idx : Z) : ST dymap_t unit :=
  m <- get ;;
  pz_upd zone_idx (λ z, mk_phy_zone 1 (die_groups z) (fbg_ofst z) (fbg_part z)) ;;
  avail <- avail_dg (Z.to_nat (die_group_sum m)) 0 [] ;;
  mn <- min_among avail (100, 0) ;;
  assert (negb (fst mn =? 100)) ;;
  pz_set_group zone_idx 0 (snd mn) ;;
  used_add (snd mn) 1 ;;
  r <- alloc_fbg 1 (snd mn) 0 ;;
  pz_upd zone_idx (λ z, mk_phy_zone (map_die_group_num z) (die_groups z) (fst r) 0).

(** [num_zones] is the controller's. *)
Definition zone_open (num_zones zone_idx : Z) : ST dymap_t unit :=
  assert (zone_idx <? num_zones) ;;
  m <- get ;;
  last <- load (aread (opened_zones m) (last_opened_zones_num m)) ;;
  if existsb (Z.eqb zone_idx) last then ret tt
  else
    oz <- load (aset (opened_zones m) (opened_zones_num m) zone_idx) ;;
    let num := u32 (opened_zones_num m + 1) in
    modify (dm_set_opened oz num) ;;
    map_zone_num <-
      (if negb (st_stage_flag m =? 0) then
         assert (num <=? open_zone_limit m) ;;
         when (num =? open_zone_limit m) (modify (dm_set_stage 0)) ;;
         ret (open_zone_limit m)
       else ret (if num <=? 2 then num else die_group_sum m)) ;;
    if map_zone_num <? die_group_sum m then open_partial zone_idx else open_full zone_idx.

(** ** Closing a zone *)

Definition zone_close (num_zones zone_idx : Z) : ST dymap_t unit :=
  assert (zone_idx <? num_zones) ;;
  m <- get ;;
  pz <- pz_at zone_idx ;;
  opened <- load (aread (opened_zones m) (opened_zones_num m)) ;;
  when (existsb (Z.eqb zone_idx) opened) (
    for_range 0 (map_die_group_num pz) (λ i,
      g <- load (aget (die_groups pz) i) ;;
      u <- used_at g ;;
      assert (0 <? u) ;;
      used_add g (-1)) ;;
    let temp := filter (λ z, z ≠ zone_idx) opened in
    let num := u32 (opened_zones_num m - 1) in
    assert (num =? Z.of_nat (length temp)) ;;
    modify (dm_set_opened (temp ++ drop (length temp) (opened_zones m)) num)).

(** ** Preparing the next task (its only call is commented out) *)

Definition reset_open_infos : ST dymap_t unit :=
  modify (dm_set_stage 1) ;;
  m <- get ;;
  let k := opened_zones_num m in
  (if k =? 4 then modify (dm_set_limits k 2)
   else if (k =? 2) || (k =? 1) then modify (dm_set_limits k 8)
   else if k =? 8 then modify (dm_set_limits k 4)
   else assert (k =? 0)) ;;
  modify (λ m, dm_set_opened (opened_zones m) 0 m).

(** ** From an address in a zone to a physical address *)

Section address.
Context {B : PpaBits}.

Definition get_ppa_by_lba_base (spp : ssdparams) (zone_idx wp : Z) : ST dymap_t ppa :=
  z <- pz_at zone_idx ;;
  let num := map_die_group_num z in
  assert (0 <? num) ;;
  page_ofst_in_zone <- cdiv wp (secs_per_pg spp) ;;
  let page_ofst_in_zone := u32 page_ofst_in_zone in
  die_ofst_in_zone <- cmod page_ofst_in_zone (u32 (num * ZONE_MAX_DIE_PARA)) ;;
  page_ofst_in_dg <- cdiv page_ofst_in_zone (u32 (num * ZONE_MAX_DIE_PARA)) ;;
  let dg_ofst_in_zone := Z.quot die_ofst_in_zone ZONE_MAX_DIE_PARA in
  let die_ofst_in_dg := Z.rem die_ofst_in_zone ZONE_MAX_DIE_PARA in
  assert (dg_ofst_in_zone <=? num) ;;
  g <- load (aget (die_groups z) dg_ofst_in_zone) ;;
  dg <- dg_at g ;;
  die_id <- load (aget (die dg) die_ofst_in_dg) ;;
  assert (die_id <? tt_luns spp) ;;
  pl_ofst_in_die <- cmod page_ofst_in_dg (pls_per_lun spp) ;;
  pg_ofst_in_pl <- cdiv page_ofst_in_dg (pls_per_lun spp) ;;
  let pg_ofst_st_in_blk :=
    if 1 <? num then u32 (fbg_part z * Z.quot (pgs_per_blk spp) num) else 0 in
  chan_ofst_in_ssd <- cdiv die_id (luns_per_ch spp) ;;
  chip_ofst_in_chan <- cmod die_id (luns_per_ch spp) ;;
  let pg_ofst_in_block := u32 (pg_ofst_in_pl + pg_ofst_st_in_blk) in
  assert (pg_ofst_in_block <? pgs_per_blk spp) ;;
  ret (mk_ppa (bf ch_bits chan_ofst_in_ssd) (bf lun_bits chip_ofst_in_chan)
        (bf pl_bits pl_ofst_in_die) (bf blk_bits (fbg_ofst z)) (bf pg_bits pg_ofst_in_block)
        (bf sec_bits 0)).
End address.

(** ** Initial mapping *)

(** [memset] of an array of 32-bit words to the byte 1. *)
Definition memset_1 : Z := 0x01010101.

Definition init_die_group (fbgs : Z) (i : nat) : die_group_t :=
  mk_die_group ((λ j : nat, u32 (Z.of_nat i * ZONE_MAX_DIE_PARA + Z.of_nat j)) <$>
                  seq 0 (Z.to_nat ZONE_MAX_DIE_PARA))
    (replicate (Z.to_nat fbgs) 0) (replicate (Z.to_nat fbgs) memset_1) fbgs 0 0
    (mk_fbg_part 0 0 0).

Definition zns_dynamic_mapping_init (spp : ssdparams) (num_zones : Z) : dymap_t :=
  let fbgs := blks_per_pl spp in
  let sum := Z.quot (tt_luns spp) ZONE_MAX_DIE_PARA in
  mk_dymap (replicate (Z.to_nat MAXOPENZONES) 0) 0 INITIAL_OPEN_LIMIT sum
    (init_die_group fbgs <$> seq 0 (Z.to_nat sum)) (replicate (Z.to_nat sum) 0) fbgs 0
    (replicate (Z.to_nat num_zones) (mk_phy_zone 0 (replicate 8 0) 0 0)) 1 0.
