(* ===== verification/FtlOps.v ===== *)
(** * Serving requests on the flash: [src/zns/fairness/fairness.c]

    [zns_req_distribute] splits a request into transactions of the dies and puts them on
    the die queues ([zone_rw], [zone_reset]); [zns_process_die_queue] gives every idle die
    its next transaction, and [release_ts] completes a request with its last one. *)

From stdpp Require Import base numbers option list list_numbers gmap.
From S2P Require Import Prelude FtlList ZnsTypes ZnsOps FtlTypes FtlMap.

Section ftl.
Context {Q : DieQueue nat} {B : PpaBits} {M : Malloc}.

(** ** Access to the device *)

Definition in_dymap {A} (c : ST dymap_t A) : ST zns_ssd A := λ s,
  match c (dymap s) with Done a m => Done a (set_dymap m s) | Crash => Crash end.

Definition ts_at (t : nat) : ST zns_ssd flash_ts_t := s <- get ;; load (ts_store s !! t).
Definition rp_at (r : nat) : ST zns_ssd NvmeRequestPlus_t := s <- get ;; load (rp_store s !! r).
Definition req_at (r : nat) : ST zns_ssd ftl_req := s <- get ;; load (req_store s !! r).

Definition ts_put (t : nat) (x : flash_ts_t) : ST zns_ssd unit :=
  modify (λ s, set_ts_store (<[t := x]> (ts_store s)) s).
Definition rp_put (r : nat) (x : NvmeRequestPlus_t) : ST zns_ssd unit :=
  modify (λ s, set_rp_store (<[r := x]> (rp_store s)) s).
Definition req_put (r : nat) (x : ftl_req) : ST zns_ssd unit :=
  modify (λ s, set_req_store (<[r := x]> (req_store s)) s).

(** [g_malloc] of a structure, with its first contents. *)
Definition ts_new (x : flash_ts_t) : ST zns_ssd nat :=
  s <- get ;; let t := new_ts (ts_store s) in ts_put t x ;; ret t.
Definition rp_new (x : NvmeRequestPlus_t) : ST zns_ssd nat :=
  s <- get ;; let r := new_rp (rp_store s) in rp_put r x ;; ret r.

(** [g_free] *)
Definition ts_free (t : nat) : ST zns_ssd unit :=
  ts_at t ;; modify (λ s, set_ts_store (delete t (ts_store s)) s).
Definition rp_free (r : nat) : ST zns_ssd unit :=
  rp_at r ;; modify (λ s, set_rp_store (delete r (rp_store s)) s).

(** [InsertInTail(&list[i], t)] *)
Definition push (i : Z) (t : nat) : ST zns_ssd unit :=
  assert (0 <=? i) ;;
  s <- get ;;
  q <- load (dq_insert (queues_of s) (Z.to_nat i) t) ;;
  modify (set_queues_of q).

(** [DeleteInHead(&list[i], &t)]; [None] is the result -1. *)
Definition pop (i : Z) : ST zns_ssd (option nat) :=
  assert (0 <=? i) ;;
  s <- get ;;
  r <- load (dq_delete (queues_of s) (Z.to_nat i)) ;;
  modify (set_queues_of (snd r)) ;;
  ret (fst r).

(** [femu_ring_enqueue(n->to_poller[p], &req, 1)] *)
Definition femu_ring_enqueue (p : Z) (req : nat) : ST zns_ssd unit :=
  modify (λ s, set_enqueued (enqueued s ++ [(p, req)]) s).

(** [req->reqlat = lat; req->expire_time += lat;] and submission to the poller *)
Definition submit (p : Z) (req : nat) (lat : Z) : ST zns_ssd unit :=
  r <- req_at req ;;
  req_put req (mk_ftl_req (fr_cmd r) (stime r) lat (u64 (expire_time r + lat))) ;;
  femu_ring_enqueue p req.

Definition ts_set_req_plus (r : nat) (z : Z) (t : flash_ts_t) : flash_ts_t :=
  mk_ts (Some r) z (ops_num t) (die_idx t) (pl_idx t) (blk_idx t) (pg_idx t).

(** ** Releasing a transaction *)

Definition release_ts (p : Z) (t : nat) (curlat : Z) : ST zns_ssd unit :=
  ts <- ts_at t ;;
  r <- load (req_plus ts) ;;
  rp <- rp_at r ;;
  let num := u32 (ts_num rp - 1) in
  rp_put r (mk_req_plus (rp_req rp) (flash_ts rp) num (ts_sum rp) curlat (cmd_type rp)) ;;
  if num =? 0 then
    submit p (rp_req rp) curlat ;;
    rp_free r ;;
    ts_free t
  else
    match list_find (λ x, x = Some t) (take (Z.to_nat (ts_sum rp)) (flash_ts rp)) with
    | Some (j, _) =>
        rp_put r (mk_req_plus (rp_req rp) (<[j := None]> (flash_ts rp)) num (ts_sum rp) curlat
          (cmd_type rp)) ;;
        ts_free t
    | None => ret tt
    end.

(** ** Reset of a zone *)

(** Transactions [i, i+1, ...] of the erase request [r], for die [j] on. *)
Fixpoint erase_ts (k : nat) (r : nat) (zone_idx i j : Z) : ST zns_ssd unit :=
  match k with
  | O => ret tt
  | S k' =>
      s <- get ;;
      t <- ts_new (mk_ts (Some r) zone_idx (pls_per_lun (sp s)) j 0 None None) ;;
      rp <- rp_at r ;;
      arr <- load (aset (flash_ts rp) i (Some t)) ;;
      rp_put r (mk_req_plus (rp_req rp) arr (ts_num rp) (ts_sum rp) (maxlat rp) (cmd_type rp)) ;;
      assert (u32 (j + 1) <=? tt_luns (sp s)) ;;
      push j t ;;
      erase_ts k' r zone_idx (i + 1) (u32 (j + 1))
  end.

(** The result says whether an erase request was issued. *)
Definition zone_reset (req : nat) (zone_idx : Z) : ST zns_ssd bool :=
  pz <- in_dymap (pz_at zone_idx) ;;
  g0 <- load (aget (die_groups pz) 0) ;;
  dg <- in_dymap (dg_at g0) ;;
  b <- load (aget (fbgs_used_bitmap dg) (fbg_ofst pz)) ;;
  assert (0 <? b) ;;
  if b - 1 =? 0 then
    let sum := u32 (map_die_group_num pz * ZONE_MAX_DIE_PARA) in
    r <- rp_new (mk_req_plus req (replicate (Z.to_nat sum) None) sum sum 0 NAND_ERASE) ;;
    j <- load (aget (die dg) 0) ;;
    erase_ts (Z.to_nat sum) r zone_idx 0 j ;;
    for_range 0 (map_die_group_num pz) (λ i,
      g <- load (aget (die_groups pz) i) ;;
      in_dymap (fbg_add g (fbg_ofst pz) (-1)) ;;
      in_dymap (dg_upd g (λ dg, dg_set_remain (u32 (remain_fbgs_num dg + 1)) dg))) ;;
    ret true
  else
    for_range 0 (map_die_group_num pz) (λ i,
      g <- load (aget (die_groups pz) i) ;;
      in_dymap (fbg_add g (fbg_ofst pz) (-1))) ;;
    ret false.

(** ** Reads and writes *)

(** The [memset] transactions of a request, with [pg_idx = 0xff]. *)
Fixpoint new_tss (k : nat) : ST zns_ssd (list nat) :=
  match k with
  | O => ret []
  | S k' =>
      t <- ts_new (mk_ts None 0 0 0 0 (Some 0) (Some 0xff)) ;;
      l <- new_tss k' ;;
      ret (t :: l)
  end.

(** One page: [i] its address in the zone, [t] the transaction it goes to. *)
Definition add_page (z i : Z) (t : nat) : ST zns_ssd unit :=
  s <- get ;;
  a <- in_dymap (get_ppa_by_lba_base (sp s) z i) ;;
  ts <- ts_at t ;;
  let die := u32 (g_ch a * luns_per_ch (sp s) + g_lun a) in
  assert (die <? tt_luns (sp s)) ;;
  pl' <- (if pl_idx ts =? 0xff then
            assert (g_pl a <? pls_per_lun (sp s)) ;; ret (g_pl a)
          else ret (pl_idx ts)) ;;
  ts_put t (mk_ts (req_plus ts) (zone_idx ts) (u32 (ops_num ts + 1)) die pl' (blk_idx ts) (pg_idx ts)).

(** The loop over the pages, with the round-robin index [temp]; [fuel] bounds its rounds
    by the number of pages. *)
Fixpoint page_loop (fuel : nat) (zone_idx i stop tt_lba_page : Z) (temp : nat) (ids : list nat) :
    ST zns_ssd unit :=
  if i <? stop then
    match fuel with
    | O => crash
    | S fuel' =>
        t <- load (ids !! temp) ;;
        add_page zone_idx i t ;;
        page_loop fuel' zone_idx (u32 (i + tt_lba_page)) stop tt_lba_page
          (if Nat.eqb (S temp) (length ids) then 0%nat else S temp) ids
    end
  else ret tt.

(** The last loop: back pointers and insertion in the die queues. *)
Fixpoint issue (r : nat) (zone_idx : Z) (ids : list nat) : ST zns_ssd unit :=
  match ids with
  | [] => ret tt
  | t :: ids' =>
      ts <- ts_at t ;;
      ts_put t (ts_set_req_plus r zone_idx ts) ;;
      push (die_idx ts) t ;;
      issue r zone_idx ids'
  end.

(** The second half of [zone_rw], for [nlb] blocks from the page boundary [new_wp] on. *)
Definition rw_split (req : nat) (c : NvmeCmd) (pz : phy_zone_t)
    (zone_idx new_wp nlb tt_lba_page : Z) : ST zns_ssd unit :=
  let page_num := u32 (Z.quot (u32 (nlb - 1)) tt_lba_page + 1) in
  type <-
    (match opcode c with
     | NVME_CMD_WRITE => assert (0 <? map_die_group_num pz) ;; ret NAND_WRITE
     | NVME_CMD_READ => ret NAND_READ
     | _ => crash
     end) ;;
  let para_num_in_zone := u32 (map_die_group_num pz * ZONE_MAX_DIE_PARA) in
  let num := if para_num_in_zone <? page_num then para_num_in_zone else page_num in
  r <- rp_new (mk_req_plus req [] num num 0 type) ;;
  ids <- new_tss (Z.to_nat num) ;;
  rp_put r (mk_req_plus req (Some <$> ids) num num 0 type) ;;
  page_loop (Z.to_nat page_num) zone_idx new_wp (u32 (new_wp + nlb)) tt_lba_page 0 ids ;;
  issue r zone_idx ids.

Definition zone_rw (n : ftl_ctrl) (req : nat) (zone_idx wp : Z) : ST zns_ssd unit :=
  pz <- in_dymap (pz_at zone_idx) ;;
  s <- get ;;
  rq <- req_at req ;;
  let lbasz := u32 (Z.shiftl 1 (fc_lbads n)) in
  tt_lba_page <- cdiv (u32 (secs_per_pg (sp s) * secsz (sp s))) lbasz ;;
  let nlb := rw_nlb (fr_cmd rq) + 1 in
  ofst <- cmod wp tt_lba_page ;;
  let new_wp :=
    if 0 <? ofst then u32 ((Z.quot wp tt_lba_page + 1) * tt_lba_page) else u32 wp in
  if (0 <? ofst) && (nlb <=? u64 (new_wp - wp)) then ret tt
  else
    rw_split req (fr_cmd rq) pz zone_idx new_wp
      (if 0 <? ofst then u32 (nlb - u64 (new_wp - wp)) else nlb) tt_lba_page.

(** ** Distribution of the requests *)

Definition fair_zone_idx (n : ftl_ctrl) (slba : Z) : ST zns_ssd Z :=
  if 0 <? fc_zone_size_log2 n then ret (u32 (Z.shiftr slba (fc_zone_size_log2 n)))
  else q <- cdiv slba (fc_zone_size n) ;; ret (u32 q).

(** Zone management commands.  An issued erase is submitted when it is done. *)
Definition distribute_mgmt (req : nat) (n : ftl_ctrl) (p : Z) (c : NvmeCmd) (zone_idx : Z) :
    ST zns_ssd unit :=
  match action_of_code (Z.land (cdw13 c) 0xff) with
  | NVME_ZONE_ACTION_OPEN => in_dymap (zone_open (fc_num_zones n) zone_idx) ;; submit p req 0
  | NVME_ZONE_ACTION_CLOSE => in_dymap (zone_close (fc_num_zones n) zone_idx) ;; submit p req 0
  | NVME_ZONE_ACTION_RESET =>
      issued <- zone_reset req zone_idx ;;
      if (issued : bool) then ret tt else submit p req 0
  | _ => submit p req 0
  end.

(** Reads and writes: the first 150 are taken for those of the start of the host. *)
Definition distribute_rw (req : nat) (n : ftl_ctrl) (p : Z) (c : NvmeCmd) (zone_idx wp : Z)
    (pz : phy_zone_t) : ST zns_ssd unit :=
  s <- get ;;
  when (start_up_flag s =? 0)
    (let sum := u32 (req_sum s + 1) in
     modify (set_startup (if 150 <? sum then 1 else 0) sum)) ;;
  s <- get ;;
  if negb (start_up_flag s =? 0) then
    if bool_decide (opcode c = NVME_CMD_READ) && (map_die_group_num pz =? 0)
    then submit p req 0
    else zone_rw n req zone_idx wp
  else submit p req 0.

Definition zns_req_distribute (req : nat) (n : ftl_ctrl) (p : Z) : ST zns_ssd unit :=
  rq <- req_at req ;;
  let c := fr_cmd rq in
  let slba := rw_slba c in
  zone_idx <- fair_zone_idx n slba ;;
  assert (zone_idx <? fc_num_zones n) ;;
  zs <- load (aget (fc_zslba n) zone_idx) ;;
  let wp := u64 (slba - zs) in
  pz <- in_dymap (pz_at zone_idx) ;;
  if negb (bool_decide (opcode c = NVME_CMD_WRITE)) &&
     negb (bool_decide (opcode c = NVME_CMD_READ)) then
    assert (wp =? 0) ;;
    distribute_mgmt req n p c zone_idx
  else distribute_rw req n p c zone_idx wp pz.

(** ** The dies *)

(** [get_lun] *)
Definition get_lun (c l : Z) : ST zns_ssd nand_lun :=
  s <- get ;; cc <- load (aget (ch s) c) ;; load (aget (lun cc) l).

Definition set_avail (c l x : Z) : ST zns_ssd unit :=
  s <- get ;;
  cc <- load (aget (ch s) c) ;;
  ll <- load (aget (lun cc) l) ;;
  luns <- load (aset (lun cc) l (mk_lun (pl ll) (npls ll) x (lun_busy ll))) ;;
  chs <- load (aset (ch s) c (mk_channel luns (nluns cc) (next_ch_avail_time cc) (ch_busy cc))) ;;
  modify (set_ch chs).

(** [sum_serv_time_us] and [dg_time_us] grow by the service time. *)
Definition add_serv (i us : Z) : ST zns_ssd unit :=
  s <- get ;;
  let st := stats s in
  t <- load (aget (dg_time_us st) (Z.quot i ZONE_MAX_DIE_PARA)) ;;
  dgt <- load (aset (dg_time_us st) (Z.quot i ZONE_MAX_DIE_PARA) (u64 (t + us))) ;;
  modify (set_stats (mk_stats (sm_pl_sz st) (df_addr_type_sz st) (pl_sz st) (ops_sum st)
    (pl_sum st) (u64 (sum_serv_time_us st + us)) dgt)).

Definition add_ops (ops plops : Z) : ST zns_ssd unit :=
  modify (λ s, let st := stats s in
    set_stats (mk_stats (sm_pl_sz st) (df_addr_type_sz st) (u64 (pl_sz st + ops))
      (u64 (ops_sum st + plops)) (u64 (pl_sum st + ops)) (sum_serv_time_us st)
      (dg_time_us st)) s).

Definition lat_of (spp : ssdparams) (c : nand_cmd_type) : option Z :=
  match c with
  | NAND_WRITE => Some (pg_wr_lat spp)
  | NAND_READ => Some (pg_rd_lat spp)
  | NAND_ERASE => Some (blk_er_lat spp)
  | NAND_OTHER _ => None
  end.

(** A transaction taken from queue [i] at time [now]; returns [curlat], which keeps its
    value when the command is unknown. *)
Definition serve (p i now : Z) (t : nat) (curlat : Z) : ST zns_ssd Z :=
  modify (set_last_time now) ;;
  s <- get ;;
  ts <- ts_at t ;;
  assert (die_idx ts =? i) ;;
  q <- cdiv (u32 (pl_idx ts + ops_num ts - 1)) (pls_per_lun (sp s)) ;;
  let pl_ops := u32 (q + 1) in
  r <- load (req_plus ts) ;;
  rp <- rp_at r ;;
  curlat' <-
    (match lat_of (sp s) (cmd_type rp) with
     | Some lat =>
         let busy := u32 (pl_ops * lat) in
         let avail := u64 (now + busy) in
         c <- cmod i (nchs (sp s)) ;;
         l <- cdiv i (nchs (sp s)) ;;
         set_avail (bf ch_bits c) (bf lun_bits l) avail ;;
         rq <- req_at (rp_req rp) ;;
         add_serv i (Z.quot busy 1000) ;;
         ret (u64 (avail - stime rq))
     | None => ret curlat
     end) ;;
  when (negb (bool_decide (cmd_type rp = NAND_ERASE))) (add_ops (ops_num ts) pl_ops) ;;
  release_ts p t curlat' ;;
  ret curlat'.

(** One round of the loop, for die [i]. *)
Definition process_die (clock : Z → Z) (p i curlat : Z) : ST zns_ssd Z :=
  s <- get ;;
  c <- cmod i (nchs (sp s)) ;;
  l <- cdiv i (nchs (sp s)) ;;
  lun <- get_lun (bf ch_bits c) (bf lun_bits l) ;;
  let now := clock i in
  if next_lun_avail_time lun <=? now then
    o <- pop i ;;
    match o with
    | None =>
        s <- get ;;
        when ((3000000000 <=? u64 (now - last_time s)) && negb (last_time s =? 0))
          (modify (set_last_time now)) ;;
        ret curlat
    | Some t => serve p i now t curlat
    end
  else ret curlat.

Fixpoint process_from (clock : Z → Z) (p : Z) (k : nat) (i curlat : Z) : ST zns_ssd unit :=
  match k with
  | O => ret tt
  | S k' => curlat' <- process_die clock p i curlat ;; process_from clock p k' (i + 1) curlat'
  end.

(** [clock i] is the time read when the loop is at die [i]. *)
Definition zns_process_die_queue (clock : Z → Z) (p : Z) : ST zns_ssd unit :=
  s <- get ;; process_from clock p (Z.to_nat (tt_luns (sp s))) 0 0.

(** ** Start *)

Definition zns_ftl_init (n : ftl_ctrl) : ST zns_ssd unit :=
  modify (λ s, set_queues_of (dq_init (Z.to_nat (tt_luns (sp s)))) s) ;;
  modify (λ s, set_dymap (zns_dynamic_mapping_init (sp s) (fc_num_zones n)) s).
End ftl.
