(* ===== verification/FtlStatic.v ===== *)
(** * The flash array and the static mapping: [src/zns/supplement/]

    The construction of the flash array ([zns_ssd_init] and what it calls), the mapping
    strategy interface, and its one implementation, the traditional mapping, which gives
    every zone a fixed set of [PARA_LEVEL] dies. *)

From stdpp Require Import base numbers option list list_numbers gmap strings.
From S2P Require Import Prelude FtlList FtlTypes FtlMap FtlOps.
#[local] Open Scope Z_scope.

(** ** Parameters of the array *)

(** The latencies are constants of [bbssd/ftl.h]. *)
Definition zns_ssd_init_params (rd wr er : Z) : ssdparams :=
  let secsz := 512 in let secs_per_pg := 8 in let pgs_per_blk := 1024 in
  let blks_per_pl := 64 in let pls_per_lun := 2 in let luns_per_ch := 8 in let nchs := 8 in
  let secs_per_blk := secs_per_pg * pgs_per_blk in
  let secs_per_pl := secs_per_blk * blks_per_pl in
  let secs_per_lun := secs_per_pl * pls_per_lun in
  let secs_per_ch := secs_per_lun * luns_per_ch in
  let tt_secs := secs_per_ch * nchs in
  let pgs_per_pl := pgs_per_blk * blks_per_pl in
  let pgs_per_lun := pgs_per_pl * pls_per_lun in
  let pgs_per_ch := pgs_per_lun * luns_per_ch in
  let tt_pgs := pgs_per_ch * nchs in
  let blks_per_lun := blks_per_pl * pls_per_lun in
  let blks_per_ch := blks_per_lun * luns_per_ch in
  let tt_blks := blks_per_ch * nchs in
  let pls_per_ch := pls_per_lun * luns_per_ch in
  let tt_pls := pls_per_ch * nchs in
  let tt_luns := luns_per_ch * nchs in
  mk_sp secsz secs_per_pg pgs_per_blk blks_per_pl pls_per_lun luns_per_ch nchs
    rd wr er 0 secs_per_blk secs_per_pl secs_per_lun secs_per_ch tt_secs
    pgs_per_pl pgs_per_lun pgs_per_ch tt_pgs blks_per_lun blks_per_ch tt_blks
    pls_per_ch tt_pls tt_luns.

(** ** Construction of the array *)

Definition zns_ssd_init_nand_page (spp : ssdparams) : nand_page :=
  mk_page (replicate (Z.to_nat (secs_per_pg spp)) SEC_FREE) (secs_per_pg spp) PG_FREE.
Definition zns_ssd_init_nand_blk (spp : ssdparams) : nand_block :=
  mk_block (replicate (Z.to_nat (pgs_per_blk spp)) (zns_ssd_init_nand_page spp))
    (pgs_per_blk spp) 0 0 0 0.
Definition zns_ssd_init_nand_plane (spp : ssdparams) : nand_plane :=
  mk_plane (replicate (Z.to_nat (blks_per_pl spp)) (zns_ssd_init_nand_blk spp)) (blks_per_pl spp).
Definition zns_ssd_init_nand_lun (spp : ssdparams) : nand_lun :=
  mk_lun (replicate (Z.to_nat (pls_per_lun spp)) (zns_ssd_init_nand_plane spp))
    (pls_per_lun spp) 0 false.
Definition zns_ssd_init_ch (spp : ssdparams) : ssd_channel :=
  mk_channel (replicate (Z.to_nat (luns_per_ch spp)) (zns_ssd_init_nand_lun spp))
    (luns_per_ch spp) 0 false.

Definition zns_ssd_init_internal_structure (rd wr er : Z) : ssdparams * list ssd_channel :=
  let spp := zns_ssd_init_params rd wr er in
  (spp, replicate (Z.to_nat (nchs spp)) (zns_ssd_init_ch spp)).

(** Is the address one of the array? *)
Definition valid_ppa (spp : ssdparams) (a : ppa) : bool :=
  (0 <=? g_ch a) && (g_ch a <? nchs spp) && (0 <=? g_lun a) && (g_lun a <? luns_per_ch spp) &&
  (0 <=? g_pl a) && (g_pl a <? pls_per_lun spp) && (0 <=? g_blk a) && (g_blk a <? blks_per_pl spp) &&
  (0 <=? g_pg a) && (g_pg a <? pgs_per_blk spp) && (0 <=? g_sec a) && (g_sec a <? secs_per_pg spp).

(** [get_ch], [get_lun], [get_pl], [get_blk], [get_pg] *)
Definition find_lun (chs : list ssd_channel) (a : ppa) : option nand_lun :=
  c ← aget chs (g_ch a); aget (lun c) (g_lun a).
Definition find_pl (chs : list ssd_channel) (a : ppa) : option nand_plane :=
  l ← find_lun chs a; aget (pl l) (g_pl a).
Definition find_blk (chs : list ssd_channel) (a : ppa) : option nand_block :=
  p ← find_pl chs a; aget (blk p) (g_blk a).
Definition find_pg (chs : list ssd_channel) (a : ppa) : option nand_page :=
  b ← find_blk chs a; aget (pg b) (g_pg a).

(** ** The traditional mapping *)

Definition MAP_TRADITION_NAME : string := "tradition map".
Definition PARA_LEVEL : Z := 16.

(** The static variable [zns_map_trad]. *)
Record sup_zns_phy_map_tradition_t := mk_trad {
  trad_die_group : list Z;
  block_group_num_per_die : Z
}.

Definition phy_zone_mapping_init_tradition (name : string) (spp : ssdparams) (zone_size_bs : Z) :
    ST sup_zns_phy_map_tradition_t unit :=
  assert (bool_decide (name = MAP_TRADITION_NAME)) ;;
  num <- cdiv (u64 (u64 (PARA_LEVEL * secs_per_lun spp) * secsz spp)) zone_size_bs ;;
  put (mk_trad (replicate (Z.to_nat PARA_LEVEL) 0) num).

Definition get_para_level_by_zone_info_tradition (zone_index : Z) : Z := PARA_LEVEL.

Definition get_lun_by_zone_info_tradition (zone_idx : Z) :
    ST sup_zns_phy_map_tradition_t (list Z) :=
  t <- get ;;
  q <- cdiv zone_idx (block_group_num_per_die t) ;;
  let first_die_idx := s32 (u64 (q * PARA_LEVEL)) in
  ret ((λ i : nat, u32 (first_die_idx + Z.of_nat i)) <$> seq 0 (Z.to_nat PARA_LEVEL)).

Section tradition.
Context {B : PpaBits}.

(** The plane, block and page of page [page_ofst] of block group [blkg_offset]; the other
    fields are kept. *)
Definition get_ppa_by_blkg_info {S} (a : ppa) (spp : ssdparams)
    (tt_blkg blkg_offset page_offset_in_blkg : Z) : ST S ppa :=
  blocks_per_blkg <- cdiv (blks_per_lun spp) tt_blkg ;;
  let start_block_the_blkg := s32 (u32 (blkg_offset * blocks_per_blkg)) in
  block_offset_in_blkg <- cdiv page_offset_in_blkg (pgs_per_blk spp) ;;
  page_offset_in_block <- cmod page_offset_in_blkg (pgs_per_blk spp) ;;
  pl_offset_in_die <- cdiv (start_block_the_blkg + block_offset_in_blkg) (blks_per_pl spp) ;;
  block_offset_in_plane <- cmod (start_block_the_blkg + block_offset_in_blkg) (blks_per_pl spp) ;;
  ret (mk_ppa (g_ch a) (g_lun a) (bf pl_bits pl_offset_in_die) (bf blk_bits block_offset_in_plane)
        (bf pg_bits page_offset_in_block) (g_sec a)).

Definition get_ppa_by_zone_info_tradition (spp : ssdparams) (zone_index wp lbasz : Z) :
    ST sup_zns_phy_map_tradition_t ppa :=
  t <- get ;;
  let num := block_group_num_per_die t in
  q <- cdiv zone_index num ;;
  let first_die_index := u32 (u64 (q * PARA_LEVEL)) in
  let group := (λ i : nat, u32 (first_die_index + Z.of_nat i)) <$> seq 0 (Z.to_nat PARA_LEVEL) in
  put (mk_trad group num) ;;
  blkg_ofst_in_die <- cmod zone_index num ;;
  lbas <- cdiv (secs_per_pg spp * secsz spp) lbasz ;;
  page_ofst_in_zone <- cdiv wp lbas ;;
  let page_ofst_in_zone := u32 page_ofst_in_zone in
  let die_offset := Z.rem page_ofst_in_zone PARA_LEVEL in
  let page_ofst_in_blkg := Z.quot page_ofst_in_zone PARA_LEVEL in
  die <- load (aget group die_offset) ;;
  channel_ofst <- cmod die (nchs spp) ;;
  die_ofst_in_chan <- cdiv die (nchs spp) ;;
  get_ppa_by_blkg_info (mk_ppa (bf ch_bits channel_ofst) (bf lun_bits die_ofst_in_chan) 0 0 0 0)
    spp (u32 num) (u32 blkg_ofst_in_die) page_ofst_in_blkg.

(** ** The strategy interface *)

Record sup_zns_phy_m_strategy := mk_strategy {
  name : string;
  phy_zone_mapping_init : string → ssdparams → Z → ST sup_zns_phy_map_tradition_t unit;
  get_ppa_by_zone_info : ssdparams → Z → Z → Z → ST sup_zns_phy_map_tradition_t ppa;
  get_para_level : Z → Z;
  get_lun_of : Z → ST sup_zns_phy_map_tradition_t (list Z)
}.

Definition sup_zns_phy_m_tradition_register : sup_zns_phy_m_strategy :=
  mk_strategy MAP_TRADITION_NAME phy_zone_mapping_init_tradition get_ppa_by_zone_info_tradition
    get_para_level_by_zone_info_tradition get_lun_by_zone_info_tradition.

(** [None]: the structure keeps its zeros. *)
Definition sup_zns_phy_m_strategy_select (nm : string) : option sup_zns_phy_m_strategy :=
  if bool_decide (nm = MAP_TRADITION_NAME) then Some sup_zns_phy_m_tradition_register else None.

(** ** Start of the device *)

Context {Q : DieQueue nat}.

Definition zero_stats : ftl_stats := mk_stats 0 0 0 0 0 0 (replicate 8 0).
Definition null_dymap : dymap_t := mk_dymap [] 0 0 0 [] [] 0 0 [] 0 0.

(** A call through the null pointer of an unknown strategy stops the program. *)
Definition zns_ssd_init (rd wr er : Z) (nm : string) (zone_size_bs : Z) :
    ST sup_zns_phy_map_tradition_t (sup_zns_phy_m_strategy * zns_ssd) :=
  let a := zns_ssd_init_internal_structure rd wr er in
  st <- load (sup_zns_phy_m_strategy_select nm) ;;
  phy_zone_mapping_init st nm (fst a) zone_size_bs ;;
  ret (st, mk_ssd (fst a) (snd a) (dq_init 0) null_dymap 0 zero_stats ∅ ∅ ∅ 0 0 []).

(** ** Service times of the static mapping *)

Record nand_cmd := mk_nand_cmd { nc_user : bool; nc_cmd : nand_cmd_type; nc_stime : Z }.

(** The die [a] of the request serves [page_num] pages; returns [curlat] and [maxlat]. *)
Definition advance_one (spp : ssdparams) (c : nand_cmd) (cmd_stime blocks_per_die : Z)
    (a : Z * Z) (page_num curlat maxlat : Z) : ST zns_ssd (Z * Z) :=
  lun <- get_lun (fst a) (snd a) ;;
  if page_num <=? 0 then ret (curlat, maxlat)
  else
    let nand_stime :=
      if next_lun_avail_time lun <? cmd_stime then cmd_stime else next_lun_avail_time lun in
    curlat' <-
      (match lat_of spp (nc_cmd c) with
       | Some lat =>
           let count := if bool_decide (nc_cmd c = NAND_ERASE) then blocks_per_die else page_num in
           let avail := u64 (nand_stime + u32 (lat * count)) in
           set_avail (fst a) (snd a) avail ;;
           ret (s32 (u64 (avail - cmd_stime)))
       | None => ret curlat
       end) ;;
    ret (curlat', if maxlat <? curlat' then curlat' else maxlat).

Fixpoint advance_all (spp : ssdparams) (c : nand_cmd) (cmd_stime blocks_per_die : Z)
    (lun_group : list (Z * Z)) (page_arr : list Z) (curlat maxlat : Z) : ST zns_ssd Z :=
  match lun_group, page_arr with
  | a :: lun_group', k :: page_arr' =>
      r <- advance_one spp c cmd_stime blocks_per_die a k curlat maxlat ;;
      advance_all spp c cmd_stime blocks_per_die lun_group' page_arr' (fst r) (snd r)
  | _, _ => ret maxlat
  end.

(** [now] is the time the clock gives when the command carries no start time. *)
Definition zone_advance_avail_time_tradition (t : sup_zns_phy_map_tradition_t) (now : Z)
    (c : nand_cmd) (lun_group : list (Z * Z)) (page_arr : list Z) : ST zns_ssd Z :=
  s <- get ;;
  let cmd_stime := if nc_stime c =? 0 then now else nc_stime c in
  blocks_per_die <- cdiv (blks_per_lun (sp s)) (block_group_num_per_die t) ;;
  assert ((Z.of_nat (length lun_group) =? PARA_LEVEL) && (Z.of_nat (length page_arr) =? PARA_LEVEL)) ;;
  advance_all (sp s) c cmd_stime (u32 blocks_per_die) lun_group page_arr 0 0.
End tradition.
