(* ===== verification/FtlAlloc.v ===== *)
(** * Allocation of flash block groups

    Rules for the array accesses of [FtlMap], the invariant of a die group
    ([group_ok]: the count of free FBGs is accurate, which the loop of [alloc_fbg] needs
    to end) and the specification of [alloc_fbg] for a whole FBG. *)

From stdpp Require Import base numbers option list list_numbers.
From S2P Require Import Prelude FtlTypes FtlMap.

(** ** Arrays *)

Lemma aget_Some {A} (l : list A) i x :
  aget l i = Some x ↔ 0 ≤ i ∧ l !! Z.to_nat i = Some x.
Proof.
  unfold aget. destruct (Z.leb_spec 0 i); split; try done; [by intros [_ ?]|].
  intros [? _]. lia.
Qed.

Lemma aget_lt {A} (l : list A) i x : aget l i = Some x → 0 ≤ i < Z.of_nat (length l).
Proof. intros [? Hl%lookup_lt_Some]%aget_Some. lia. Qed.

Lemma aget_is_Some {A} (l : list A) i : 0 ≤ i < Z.of_nat (length l) → ∃ x, aget l i = Some x.
Proof.
  intros Hi. destruct (lookup_lt_is_Some_2 l (Z.to_nat i)) as [x Hx]; [lia|].
  exists x. apply aget_Some. split; [lia|done].
Qed.

Lemma aset_Some {A} (l : list A) i x y : aget l i = Some x → aset l i y = Some (<[Z.to_nat i := y]> l).
Proof. unfold aset. by intros ->. Qed.

Lemma aget_insert_eq {A} (l : list A) i x y :
  aget l i = Some x → aget (<[Z.to_nat i := y]> l) i = Some y.
Proof.
  intros [? Hl]%aget_Some. apply aget_Some. split; [done|].
  apply list_lookup_insert_eq. by eapply lookup_lt_Some.
Qed.

Lemma aget_insert_ne {A} (l : list A) i j y :
  0 ≤ i → i ≠ j → aget (<[Z.to_nat i := y]> l) j = aget l j.
Proof.
  intros Hi Hne. unfold aget. destruct (Z.leb_spec 0 j); [|done].
  apply list_lookup_insert_ne. lia.
Qed.

Lemma aget_nat {A} (l : list A) (i : nat) : aget l (Z.of_nat i) = l !! i.
Proof. unfold aget. destruct (Z.leb_spec 0 (Z.of_nat i)); [|lia]. by rewrite Nat2Z.id. Qed.

(** ** Rules for the accesses *)

Lemma wp_dg_at i g Q m : aget (die_group m) i = Some g → Q g m → wp (dg_at i) Q m.
Proof. intros Hg HQ. unfold dg_at. wp_step. wp_step. by eapply wp_load. Qed.

Lemma wp_dg_upd i g f Q m :
  aget (die_group m) i = Some g →
  Q tt (dm_set_die_group (<[Z.to_nat i := f g]> (die_group m)) m) → wp (dg_upd i f) Q m.
Proof.
  intros Hg HQ. unfold dg_upd. do 5 wp_step. eapply wp_load; [by eapply aset_Some|].
  by wp_step.
Qed.

Lemma wp_fbg_add i k x g b Q m :
  aget (die_group m) i = Some g → aget (fbgs_used_bitmap g) k = Some b →
  Q tt (dm_set_die_group (<[Z.to_nat i :=
    dg_set_bitmap (<[Z.to_nat k := u32 (b + x)]> (fbgs_used_bitmap g)) g]> (die_group m)) m) →
  wp (fbg_add i k x) Q m.
Proof.
  intros Hg Hb HQ. unfold fbg_add. wp_step. eapply wp_dg_at; [done|].
  do 3 wp_step. eapply wp_load; [by eapply aset_Some|]. by eapply wp_dg_upd.
Qed.

Lemma wp_used_at i u Q m : aget (die_group_used_bitmap m) i = Some u → Q u m → wp (used_at i) Q m.
Proof. intros Hu HQ. unfold used_at. wp_step. wp_step. by eapply wp_load. Qed.

Lemma wp_used_add i x u Q m :
  aget (die_group_used_bitmap m) i = Some u →
  Q tt (dm_set_used (<[Z.to_nat i := u32 (u + x)]> (die_group_used_bitmap m)) m) →
  wp (used_add i x) Q m.
Proof.
  intros Hu HQ. unfold used_add. wp_step. eapply wp_used_at; [done|]. do 3 wp_step.
  eapply wp_load; [by eapply aset_Some|]. by wp_step.
Qed.

Lemma wp_pz_at i z Q m : aget (phy_zone m) i = Some z → Q z m → wp (pz_at i) Q m.
Proof. intros Hg HQ. unfold pz_at. wp_step. wp_step. by eapply wp_load. Qed.

Lemma wp_pz_upd i z f Q m :
  aget (phy_zone m) i = Some z →
  Q tt (dm_set_phy_zone (<[Z.to_nat i := f z]> (phy_zone m)) m) → wp (pz_upd i f) Q m.
Proof.
  intros Hg HQ. unfold pz_upd. do 5 wp_step. eapply wp_load; [by eapply aset_Some|].
  by wp_step.
Qed.

Lemma wp_pz_set_group zi i x z Q m :
  aget (phy_zone m) zi = Some z → is_Some (aget (die_groups z) i) →
  Q tt (dm_set_phy_zone (<[Z.to_nat zi :=
    mk_phy_zone (map_die_group_num z) (<[Z.to_nat i := x]> (die_groups z)) (fbg_ofst z) (fbg_part z)]>
    (phy_zone m)) m) →
  wp (pz_set_group zi i x) Q m.
Proof.
  intros Hz [y Hy] HQ. unfold pz_set_group. wp_step. eapply wp_pz_at; [done|]. wp_step.
  eapply wp_load; [by eapply aset_Some|]. by eapply wp_pz_upd.
Qed.

(** ** Invariant of a die group *)

Definition free_fbg (b : Z) : bool := b =? 0.

Record group_ok (fbgs : Z) (g : die_group_t) : Prop := {
  go_fbgs : 0 < fbgs < 2 ^ 32;
  go_length : Z.of_nat (length (fbgs_used_bitmap g)) = fbgs;
  go_used k b : aget (fbgs_used_bitmap g) k = Some b → b = 0 ∨ b = 1;
  go_next : 0 ≤ next_fbg_id g < fbgs;
  go_remain : remain_fbgs_num g = countb free_fbg (fbgs_used_bitmap g)
}.

(** The group after FBG [k] of it has been taken, or given back. *)
Definition take_fbg (fbgs k : Z) (g : die_group_t) : die_group_t :=
  next_wrap fbgs (dg_set_bitmap (<[Z.to_nat k := 1]> (fbgs_used_bitmap g))
    (dg_set_remain (remain_fbgs_num g - 1) (dg_set_next k g))).
Definition free_of (k : Z) (g : die_group_t) : die_group_t :=
  dg_set_remain (remain_fbgs_num g + 1) (dg_set_bitmap (<[Z.to_nat k := 0]> (fbgs_used_bitmap g)) g).

Lemma next_wrap_next fbgs g :
  0 < fbgs < 2 ^ 32 → 0 ≤ next_fbg_id g < fbgs →
  next_fbg_id (next_wrap fbgs g) = if next_fbg_id g + 1 =? fbgs then 0 else next_fbg_id g + 1.
Proof. intros Hf Hg. unfold next_wrap. simpl. by rewrite u32_small by lia. Qed.

Lemma next_wrap_range fbgs g :
  0 < fbgs < 2 ^ 32 → 0 ≤ next_fbg_id g < fbgs → 0 ≤ next_fbg_id (next_wrap fbgs g) < fbgs.
Proof.
  intros Hf Hg. rewrite next_wrap_next by done.
  destruct (Z.eqb_spec (next_fbg_id g + 1) fbgs); lia.
Qed.

Lemma go_remain_bound fbgs g : group_ok fbgs g → 0 ≤ remain_fbgs_num g ≤ fbgs.
Proof.
  intros [Hf Hl _ _ ->]. pose proof (countb_nonneg free_fbg (fbgs_used_bitmap g)).
  pose proof (countb_le_length free_fbg (fbgs_used_bitmap g)). lia.
Qed.

Lemma used_insert (l : list Z) k k' x b :
  (∀ k b, aget l k = Some b → b = 0 ∨ b = 1) → 0 ≤ k → x = 0 ∨ x = 1 →
  aget (<[Z.to_nat k := x]> l) k' = Some b → b = 0 ∨ b = 1.
Proof.
  intros Hl Hk Hx. destruct (decide (k = k')) as [<-|Hne].
  - intros Hb. destruct (aget_lt _ _ _ Hb) as [_ Hlt]. rewrite length_insert in Hlt.
    destruct (aget_is_Some l k) as [y Hy]; [lia|].
    rewrite (aget_insert_eq _ _ _ _ Hy) in Hb. by injection Hb as <-.
  - rewrite aget_insert_ne by done. apply Hl.
Qed.

Lemma take_fbg_ok fbgs k g :
  group_ok fbgs g → aget (fbgs_used_bitmap g) k = Some 0 → group_ok fbgs (take_fbg fbgs k g).
Proof.
  intros [Hf Hl Hu Hn Hr] Hk. pose proof (aget_lt _ _ _ Hk) as Hlt.
  apply aget_Some in Hk as [Hk0 Hk].
  split; [| | |unfold take_fbg; apply next_wrap_range|]; cbn.
  - done.
  - by rewrite length_insert.
  - intros k' b. apply used_insert; [done|done|by right].
  - done.
  - lia.
  - rewrite (countb_insert _ _ _ _ 1 Hk), <-Hr. simpl. lia.
Qed.

Lemma free_of_ok fbgs k g :
  group_ok fbgs g → aget (fbgs_used_bitmap g) k = Some 1 → group_ok fbgs (free_of k g).
Proof.
  intros [Hf Hl Hu Hn Hr] Hk. apply aget_Some in Hk as [Hk0 Hk]. split; cbn.
  - done.
  - by rewrite length_insert.
  - intros k' b. apply used_insert; [done|done|by left].
  - done.
  - rewrite (countb_insert _ _ _ _ 0 Hk), <-Hr. simpl. lia.
Qed.

(** ** Specification of the allocation *)

Lemma group_updates m i g g' :
  die_group (dm_set_die_group (<[Z.to_nat i := g]> (die_group m)) m) = <[Z.to_nat i := g]> (die_group m) ∧
  dm_set_die_group (<[Z.to_nat i := g']> (<[Z.to_nat i := g]> (die_group m)))
    (dm_set_die_group (<[Z.to_nat i := g]> (die_group m)) m) =
  dm_set_die_group (<[Z.to_nat i := g']> (die_group m)) m.
Proof. split; [done|]. by rewrite list_insert_insert_eq. Qed.

(** The scan stops at a free FBG when there is one among the next [fuel]. *)
Lemma wp_alloc_scan fuel i g m j :
  aget (die_group m) i = Some g → group_ok (fbgs_per_dg m) g → (j < fuel)%nat →
  aget (fbgs_used_bitmap g) ((next_fbg_id g + Z.of_nat j) mod fbgs_per_dg m) = Some 0 →
  wp (alloc_scan fuel i) (λ _ m', ∃ k,
    aget (fbgs_used_bitmap g) k = Some 0 ∧
    m' = dm_set_die_group (<[Z.to_nat i := dg_set_next k g]> (die_group m)) m) m.
Proof.
  revert g m j. induction fuel as [|fuel IH]; intros g m j Hg Hok Hj Hfree; [lia|].
  pose proof Hok as [Hf Hl Hu Hn Hr]. cbn [alloc_scan]. do 2 wp_step. wp_step.
  eapply wp_dg_at; [done|]. wp_step.
  destruct (aget_is_Some (fbgs_used_bitmap g) (next_fbg_id g)) as [b Hb]; [lia|].
  eapply wp_load; [done|]. destruct (Hu _ _ Hb) as [-> | ->]; cbn.
  - exists (next_fbg_id g). split; [done|].
    assert (dg_set_next (next_fbg_id g) g = g) as -> by by destruct g.
    apply aget_Some in Hg as [_ Hg]. rewrite list_insert_id by done. by destruct m.
  - destruct j as [|j].
    { rewrite Z.add_0_r, Z.mod_small in Hfree by lia. congruence. }
    wp_step. eapply wp_dg_upd; [done|]. set (g1 := next_wrap (fbgs_per_dg m) g).
    destruct (group_updates m i g1 g1) as [Hdg _].
    eapply wp_mono; [eapply (IH g1 _ j)|].
    + rewrite Hdg. by eapply aget_insert_eq.
    + cbn [fbgs_per_dg dm_set_die_group]. subst g1.
      split; [done|done|done|by apply next_wrap_range|done].
    + lia.
    + cbn [fbgs_per_dg dm_set_die_group]. rewrite <-Hfree. f_equal. subst g1.
      rewrite next_wrap_next by done.
      destruct (Z.eqb_spec (next_fbg_id g + 1) (fbgs_per_dg m)) as [He|He].
      * rewrite Nat2Z.inj_succ. replace (next_fbg_id g + Z.succ (Z.of_nat j))
          with (0 + Z.of_nat j + 1 * fbgs_per_dg m) by lia. by rewrite Z.mod_add by lia.
      * f_equal. lia.
    + intros [] m' (k & Hk & ->). exists k. split; [done|].
      rewrite Hdg. by rewrite list_insert_insert_eq.
Qed.

Lemma countb_free_exists (l : list Z) : 0 < countb free_fbg l → ∃ i : nat, l !! i = Some 0.
Proof.
  induction l as [|a l IH]; simpl; [lia|]. intros H.
  unfold free_fbg in H at 1. destruct (Z.eqb_spec a 0) as [->|]; [by exists 0%nat|].
  destruct IH as [i Hi]; [lia|]. by exists (S i).
Qed.

(** A whole FBG is found whenever the group has one left, and it was free. *)
Lemma wp_alloc_fbg_whole i p g m :
  aget (die_group m) i = Some g → group_ok (fbgs_per_dg m) g → 0 < remain_fbgs_num g →
  wp (alloc_fbg 1 i p) (λ r m', ∃ k,
    r = (k, p) ∧ aget (fbgs_used_bitmap g) k = Some 0 ∧
    m' = dm_set_die_group (<[Z.to_nat i := take_fbg (fbgs_per_dg m) k g]> (die_group m)) m) m.
Proof.
  intros Hg Hok Hpos. pose proof Hok as [Hf Hl Hu Hn Hr].
  pose proof (go_remain_bound _ _ Hok) as Hrb.
  unfold alloc_fbg. do 2 wp_step. wp_step. eapply wp_dg_at; [done|]. cbn [Z.eqb Pos.eqb].
  do 2 wp_step; [by apply Z.ltb_lt|]. wp_step.
  destruct (countb_free_exists (fbgs_used_bitmap g)) as [k0 Hk0]; [lia|].
  pose proof (lookup_lt_Some _ _ _ Hk0) as Hlt.
  eapply wp_mono.
  { eapply (wp_alloc_scan _ i g m (Z.to_nat ((Z.of_nat k0 - next_fbg_id g) mod fbgs_per_dg m)));
      [done|done| |].
    - pose proof (Z.mod_pos_bound (Z.of_nat k0 - next_fbg_id g) (fbgs_per_dg m)). lia.
    - rewrite Z2Nat.id by (apply Z.mod_pos_bound; lia). rewrite Zplus_mod_idemp_r.
      replace (next_fbg_id g + (Z.of_nat k0 - next_fbg_id g)) with (Z.of_nat k0) by lia.
      rewrite Z.mod_small by lia. by rewrite aget_nat. }
  intros [] m1 (k & Hk & ->). cbn beta.
  pose proof (aget_lt _ _ _ Hk) as Hkl. pose proof (aget_insert_eq _ _ _ (dg_set_next k g) Hg) as H1.
  wp_step. eapply wp_dg_upd; [exact H1|]. cbn [die_group dm_set_die_group].
  rewrite list_insert_insert_eq. cbn [remain_fbgs_num dg_set_next].
  rewrite u32_small by lia. wp_step. eapply wp_dg_at; [by eapply aget_insert_eq|]. cbn [next_fbg_id dg_set_remain dg_set_next].
  wp_step. eapply wp_fbg_add; [by eapply aget_insert_eq|done|]. cbn [die_group dm_set_die_group].
  rewrite list_insert_insert_eq. change (u32 (0 + 1)) with 1. wp_step.
  eapply wp_dg_upd; [by eapply aget_insert_eq|]. cbn [die_group dm_set_die_group].
  rewrite list_insert_insert_eq. wp_step. eapply wp_dg_at; [by eapply aget_insert_eq|].
  wp_step. apply wp_assert; [apply Z.ltb_lt, next_wrap_range; [done|cbn; lia]|].
  wp_step. exists k. split; [done|]. split; [done|]. reflexivity.
Qed.
