(* ===== verification/FtlMapInv.v ===== *)
(** * The invariant of the dynamic mapping, and opening a zone

    In the running configuration the number of die groups is the open-zone limit
    (64 / 16 = 4 = [INITIAL_OPEN_LIMIT]), so a zone always gets one whole FBG.  The
    invariant [map_inv] is relative to the set [live] of zones that have been opened and
    not reset since (the code keeps no such record: a reset leaves [phy_zone] as it is). *)

From stdpp Require Import base numbers option list list_numbers gmap.
From S2P Require Import Prelude FtlTypes FtlMap FtlAlloc.

(** ** Where a zone is *)

Definition zone_loc (m : dymap_t) (z : Z) : option (Z * Z) :=
  pz ← aget (phy_zone m) z; g ← aget (die_groups pz) 0; Some (g, fbg_ofst pz).

Definition fbg_used (m : dymap_t) (g k : Z) : option Z :=
  dg ← aget (die_group m) g; aget (fbgs_used_bitmap dg) k.

Definition in_group (m : dymap_t) (g z : Z) : bool :=
  match zone_loc m z with Some (g', _) => g' =? g | None => false end.

Lemma zone_loc_Some m z pz g k :
  aget (phy_zone m) z = Some pz →
  zone_loc m z = Some (g, k) ↔ aget (die_groups pz) 0 = Some g ∧ fbg_ofst pz = k.
Proof.
  intros Hz. unfold zone_loc. rewrite Hz. cbn [mbind option_bind].
  destruct (aget (die_groups pz) 0) as [g'|]; cbn [mbind option_bind]; naive_solver.
Qed.

Lemma fbg_used_Some m g dg k b :
  aget (die_group m) g = Some dg → fbg_used m g k = Some b ↔ aget (fbgs_used_bitmap dg) k = Some b.
Proof. intros Hg. unfold fbg_used. by rewrite Hg. Qed.

(** The dies of group [g]. *)
Definition dies_of (g : Z) : list Z :=
  (λ j : nat, g * ZONE_MAX_DIE_PARA + Z.of_nat j) <$> seq 0 (Z.to_nat ZONE_MAX_DIE_PARA).

(** The flash side: the groups, and the FBGs of the live zones. *)
Record flash_inv (N : Z) (m : dymap_t) (live : gset Z) : Prop := {
  fi_sum : 0 < die_group_sum m ≤ 4 ∧ Z.of_nat (length (die_group m)) = die_group_sum m;
  fi_fbgs : 0 < fbgs_per_dg m < 2 ^ 32;
  fi_groups i g : aget (die_group m) i = Some g → group_ok (fbgs_per_dg m) g ∧ die g = dies_of i;
  fi_num_zones : Z.of_nat (length (phy_zone m)) = N;
  fi_zones z pz : aget (phy_zone m) z = Some pz → length (die_groups pz) = 8%nat;
  (** a live zone has one FBG, which is marked *)
  fi_live z : z ∈ live → ∃ pz g k, aget (phy_zone m) z = Some pz ∧ map_die_group_num pz = 1 ∧
    zone_loc m z = Some (g, k) ∧ fbg_used m g k = Some 1;
  (** no two live zones share one *)
  fi_inj z z' l : z ∈ live → z' ∈ live → zone_loc m z = Some l → zone_loc m z' = Some l → z = z';
  (** and a marked FBG belongs to a live zone *)
  fi_owner g k : fbg_used m g k = Some 1 → ∃ z, z ∈ live ∧ zone_loc m z = Some (g, k)
}.

(** The open zones and the load of the groups. *)
Record open_inv (m : dymap_t) (opened : list Z) : Prop := {
  oi_limit : die_group_sum m = open_zone_limit m;
  oi_array : Z.of_nat (length (opened_zones m)) = MAXOPENZONES;
  oi_num : opened_zones_num m = Z.of_nat (length opened);
  oi_opened : ∃ rest, opened_zones m = opened ++ rest;
  oi_nodup : NoDup opened;
  (** an open zone is mapped (a reset may have freed its FBG) *)
  oi_zone z : z ∈ opened → ∃ pz g k, aget (phy_zone m) z = Some pz ∧ map_die_group_num pz = 1 ∧
    zone_loc m z = Some (g, k) ∧ 0 ≤ g < die_group_sum m;
  oi_last : last_opened_zones_num m = 0;
  oi_used_len : Z.of_nat (length (die_group_used_bitmap m)) = die_group_sum m;
  oi_used g u : aget (die_group_used_bitmap m) g = Some u → u = countb (in_group m g) opened;
  oi_stage : st_stage_flag m ≠ 0 → opened_zones_num m < open_zone_limit m
}.

Definition map_inv (N : Z) (m : dymap_t) (live : gset Z) (opened : list Z) : Prop :=
  flash_inv N m live ∧ open_inv m opened.

(** ** The least used group *)

(** The search of [zone_open], over the indices [l]. *)
Fixpoint least (us : list Z) (l : list Z) (acc : Z * Z) : Z * Z :=
  match l with
  | [] => acc
  | i :: l' =>
      least us l'
        (match aget us i with Some u => if u <? fst acc then (u, i) else acc | None => acc end)
  end.

Lemma least_spec us l acc :
  let r := least us l acc in
  (r = acc ∨ ∃ i, i ∈ l ∧ aget us i = Some (fst r) ∧ snd r = i) ∧ fst r ≤ fst acc ∧
  (∀ i u, i ∈ l → aget us i = Some u → fst r ≤ u).
Proof.
  revert acc. induction l as [|i l IH]; intros acc; simpl.
  { split_and!; [by left|lia|]. intros ? ? []%elem_of_nil. }
  set (acc' := match aget us i with Some u => _ | None => acc end).
  destruct (IH acc') as (H1 & H2 & H3).
  assert (fst acc' ≤ fst acc ∧ (acc' = acc ∨ aget us i = Some (fst acc') ∧ snd acc' = i) ∧
    ∀ u, aget us i = Some u → fst acc' ≤ u) as (Ha & Hb & Hc).
  { subst acc'. destruct (aget us i) as [u|]; [|split_and!; [lia|by left|done]].
    destruct (Z.ltb_spec u (fst acc)); cbn; split_and!; eauto; try lia; intros ? [= <-]; lia. }
  split_and!.
  - destruct H1 as [-> | (j & Hj & ?)]; [|right; exists j; split; [set_solver|done]].
    destruct Hb as [-> | [Hb ?]]; [by left|]. right. exists i. split; [set_solver|done].
  - lia.
  - intros j u [->|Hj]%elem_of_cons Hu; [specialize (Hc _ Hu); lia|eauto].
Qed.

Lemma wp_min_step acc i m Q :
  0 ≤ i < Z.of_nat (length (die_group_used_bitmap m)) →
  Q (least (die_group_used_bitmap m) [i] acc) m → wp (min_step acc i) Q m.
Proof.
  intros Hi HQ. destruct (aget_is_Some _ _ Hi) as [u Hu]. unfold min_step. wp_step.
  eapply wp_used_at; [done|]. wp_step. simpl in HQ. by rewrite Hu in HQ.
Qed.

Lemma wp_min_among l acc m Q :
  (∀ i, i ∈ l → 0 ≤ i < Z.of_nat (length (die_group_used_bitmap m))) →
  Q (least (die_group_used_bitmap m) l acc) m → wp (min_among l acc) Q m.
Proof.
  revert acc. induction l as [|i l IH]; intros acc Hl HQ; simpl; [done|].
  wp_step. apply wp_min_step; [apply Hl; set_solver|]. apply IH; [intros; apply Hl; set_solver|done].
Qed.

(** With step one the other search visits every group. *)
Lemma wp_min_stride k i acc m Q :
  0 ≤ i → i + Z.of_nat k = die_group_sum m → die_group_sum m < 2 ^ 32 →
  Z.of_nat (length (die_group_used_bitmap m)) = die_group_sum m →
  Q (least (die_group_used_bitmap m) (seqZ i (Z.of_nat k)) acc) m →
  wp (min_stride (S k) i 1 acc) Q m.
Proof.
  revert i acc. induction k as [|k IH]; intros i acc Hi Hk Hs Hlen HQ.
  - cbn [min_stride]. do 2 wp_step. rewrite (proj2 (Z.ltb_ge _ _)) by lia. by wp_step.
  - cbn [min_stride]. do 2 wp_step. rewrite (proj2 (Z.ltb_lt _ _)) by lia. wp_step.
    apply wp_min_step; [lia|]. rewrite u32_small by lia. apply IH; [lia|lia|done|done|].
    rewrite seqZ_cons in HQ by lia. rewrite Nat2Z.inj_succ in HQ.
    by replace (Z.pred (Z.succ (Z.of_nat k))) with (Z.of_nat k) in HQ by lia.
Qed.

Definition has_free (m : dymap_t) (i : Z) : bool :=
  match aget (die_group m) i with Some g => 0 <? remain_fbgs_num g | None => false end.

Lemma wp_avail_dg k i avail m Q :
  0 ≤ i → i + Z.of_nat k = Z.of_nat (length (die_group m)) →
  Z.of_nat (length avail) + Z.of_nat k ≤ 4 →
  Q (avail ++ filter (λ j, has_free m j = true) (seqZ i (Z.of_nat k))) m →
  wp (avail_dg k i avail) Q m.
Proof.
  revert i avail. induction k as [|k IH]; intros i avail Hi Hk Hl HQ; simpl.
  - cbn in HQ. by rewrite app_nil_r in HQ.
  - destruct (aget_is_Some (die_group m) i) as [g Hg]; [lia|]. wp_step. eapply wp_dg_at; [done|].
    rewrite seqZ_cons in HQ by lia. rewrite Nat2Z.inj_succ in HQ.
    replace (Z.pred (Z.succ (Z.of_nat k))) with (Z.of_nat k) in HQ by lia.
    rewrite filter_cons in HQ.
    assert (has_free m i = (0 <? remain_fbgs_num g)) as Hf by (unfold has_free; by rewrite Hg).
    rewrite <-Hf. destruct (has_free m i).
    + wp_step. apply wp_assert; [apply Z.ltb_lt; lia|]. apply IH; [lia|lia| |].
      * rewrite length_app. simpl. lia.
      * rewrite <-app_assoc. by rewrite decide_True in HQ by done.
    + apply IH; [lia|lia|lia|]. by rewrite decide_False in HQ by done.
Qed.

(** ** The mapping of a zone to FBG [k] of group [g] *)

Definition mapped_zone (g k : Z) (pz : phy_zone_t) : phy_zone_t :=
  mk_phy_zone 1 (<[0%nat := g]> (die_groups pz)) k 0.

Definition map_zone (z g k : Z) (pz : phy_zone_t) (dg : die_group_t) (m : dymap_t) : dymap_t :=
  dm_set_phy_zone (<[Z.to_nat z := mapped_zone g k pz]> (phy_zone m))
    (dm_set_die_group (<[Z.to_nat g := take_fbg (fbgs_per_dg m) k dg]> (die_group m)) m).

Section map_zone.
Context (N : Z) (m : dymap_t) (live : gset Z) (z g k : Z) (pz : phy_zone_t) (dg : die_group_t).
Hypothesis Hinv : flash_inv N m live.
Hypothesis Hz : aget (phy_zone m) z = Some pz.
Hypothesis Hnl : z ∉ live.
Hypothesis Hg : aget (die_group m) g = Some dg.
Hypothesis Hk : aget (fbgs_used_bitmap dg) k = Some 0.
Let m' := map_zone z g k pz dg m.

Lemma map_zone_loc_eq : zone_loc m' z = Some (g, k).
Proof.
  unfold zone_loc, m', map_zone. cbn [phy_zone dm_set_phy_zone dm_set_die_group].
  rewrite (aget_insert_eq _ _ _ _ Hz). cbn [mbind option_bind mapped_zone die_groups fbg_ofst].
  unfold aget. cbn. rewrite list_lookup_insert_eq; [done|].
  rewrite (fi_zones _ _ _ Hinv _ _ Hz). lia.
Qed.

Lemma map_zone_loc_ne z' : z' ≠ z → zone_loc m' z' = zone_loc m z'.
Proof.
  intros Hne. unfold zone_loc, m', map_zone. cbn [phy_zone dm_set_phy_zone dm_set_die_group].
  rewrite aget_insert_ne; [done| |done]. by apply aget_lt in Hz as [? _].
Qed.

Lemma map_zone_used_eq : fbg_used m' g k = Some 1.
Proof.
  unfold fbg_used, m', map_zone. cbn [die_group dm_set_phy_zone dm_set_die_group].
  rewrite (aget_insert_eq _ _ _ _ Hg). cbn. by eapply aget_insert_eq.
Qed.

Lemma map_zone_used_ne g' k' : (g', k') ≠ (g, k) → fbg_used m' g' k' = fbg_used m g' k'.
Proof.
  intros Hne. unfold fbg_used, m', map_zone. cbn [die_group dm_set_phy_zone dm_set_die_group].
  destruct (decide (g' = g)) as [->|Hg'].
  - rewrite (aget_insert_eq _ _ _ _ Hg), Hg. cbn.
    rewrite aget_insert_ne; [done| |congruence]. by apply aget_lt in Hk as [? _].
  - rewrite aget_insert_ne; [done| |done]. by apply aget_lt in Hg as [? _].
Qed.

Lemma used_free : fbg_used m g k = Some 0.
Proof. unfold fbg_used. rewrite Hg. done. Qed.

Lemma live_elsewhere z' : z' ∈ live → zone_loc m z' ≠ Some (g, k).
Proof.
  intros Hl Hloc. destruct (fi_live _ _ _ Hinv _ Hl) as (? & ? & ? & _ & _ & Hloc' & Hu).
  rewrite Hloc in Hloc'. injection Hloc' as <- <-. rewrite used_free in Hu. done.
Qed.

Lemma map_zone_inv : flash_inv N m' ({[z]} ∪ live).
Proof.
  pose proof Hinv as [Hsum Hf Hgs Hnz Hzs Hlive Hinj Hown]. split.
  - cbn. by rewrite length_insert.
  - done.
  - intros i g' Hg'. destruct (decide (i = g)) as [->|Hne].
    + cbn in Hg'. rewrite (aget_insert_eq _ _ _ _ Hg) in Hg'. injection Hg' as <-.
      destruct (Hgs _ _ Hg) as [Hok Hd]. split; [by apply take_fbg_ok|]. by rewrite <-Hd.
    + cbn in Hg'. rewrite aget_insert_ne in Hg'; [by apply Hgs| |done].
      by apply aget_lt in Hg as [? _].
  - cbn. by rewrite length_insert.
  - intros z' pz' Hz'. destruct (decide (z' = z)) as [->|Hne]; cbn in Hz'.
    + rewrite (aget_insert_eq _ _ _ _ Hz) in Hz'. injection Hz' as <-. cbn.
      rewrite length_insert. by eapply Hzs.
    + rewrite aget_insert_ne in Hz'; [by eapply Hzs| |done]. by apply aget_lt in Hz as [? _].
  - intros z' [->%elem_of_singleton|Hl]%elem_of_union.
    + eexists _, g, k. split; [by eapply aget_insert_eq|].
      split; [done|]. split; [apply map_zone_loc_eq|apply map_zone_used_eq].
    + assert (z' ≠ z) as Hne by set_solver.
      destruct (Hlive _ Hl) as (pz' & g' & k' & Hpz & Hnum & Hloc & Hu). exists pz', g', k'.
      split; [cbn; rewrite aget_insert_ne; [done|by apply aget_lt in Hz as [? _]|done]|].
      split; [done|]. rewrite map_zone_loc_ne by done. split; [done|].
      rewrite map_zone_used_ne; [done|]. intros [= -> ->]. by apply (live_elsewhere _ Hl).
  - intros z1 z2 l Hz1 Hz2.
    destruct (decide (z1 = z)) as [->|Hn1], (decide (z2 = z)) as [->|Hn2]; [done| | |].
    + rewrite map_zone_loc_eq, map_zone_loc_ne by done. intros [= <-] Hl2.
      exfalso. apply (live_elsewhere z2); [set_solver|done].
    + rewrite map_zone_loc_eq, map_zone_loc_ne by done. intros Hl1 [= <-].
      exfalso. apply (live_elsewhere z1); [set_solver|done].
    + rewrite !map_zone_loc_ne by done. apply Hinj; set_solver.
  - intros g' k' Hu. destruct (decide ((g', k') = (g, k))) as [[= -> ->]|Hne].
    + exists z. split; [set_solver|apply map_zone_loc_eq].
    + rewrite map_zone_used_ne in Hu by done. destruct (Hown _ _ Hu) as (z' & Hl & Hloc).
      exists z'. split; [set_solver|]. rewrite map_zone_loc_ne; [done|]. by intros ->.
Qed.
End map_zone.
