(* ===== verification/FtlOpen.v ===== *)
(** * Opening, closing and resetting zones keeps the mapping consistent *)

From stdpp Require Import base numbers option list list_numbers gmap.
From S2P Require Import Prelude FtlTypes FtlMap FtlAlloc FtlMapInv.

(** ** The two ways to open a zone *)

(** What they need: [u] zones use the chosen group [g], which has a free FBG. *)
Record openable (m : dymap_t) (z g u : Z) (pz : phy_zone_t) (dg : die_group_t) : Prop := {
  op_zone : aget (phy_zone m) z = Some pz;
  op_entry : length (die_groups pz) = 8%nat;
  op_groups : 0 < die_group_sum m ≤ 4;
  op_dg_len : Z.of_nat (length (die_group m)) = die_group_sum m;
  op_used_len : Z.of_nat (length (die_group_used_bitmap m)) = die_group_sum m;
  op_group : aget (die_group m) g = Some dg;
  op_used : aget (die_group_used_bitmap m) g = Some u;
  op_ok : group_ok (fbgs_per_dg m) dg;
  op_remain : 0 < remain_fbgs_num dg
}.

(** The state they leave. *)
Definition open_done (m : dymap_t) (z g u : Z) (pz : phy_zone_t) (dg : die_group_t) : dymap_t → Prop :=
  λ m', ∃ k, aget (fbgs_used_bitmap dg) k = Some 0 ∧
    m' = map_zone z g k pz dg
      (dm_set_used (<[Z.to_nat g := u32 (u + 1)]> (die_group_used_bitmap m)) m).

Definition all_groups (m : dymap_t) : list Z := seqZ 0 (die_group_sum m).
Definition groups_with_room (m : dymap_t) : list Z :=
  filter (λ j, has_free m j = true) (all_groups m).

Lemma wp_open_full m z g u pz dg :
  openable m z g u pz dg → u ≠ 100 →
  least (die_group_used_bitmap m) (groups_with_room m) (100, 0) = (u, g) →
  wp (open_full z) (λ _, open_done m z g u pz dg) m.
Proof.
  intros [Hz He Hs Hdl Hul Hg Hu Hok Hr] Hu100 Hleast. unfold open_full. do 3 wp_step.
  eapply wp_pz_upd; [done|]. wp_step. apply wp_avail_dg; [lia|cbn; lia|simpl; lia|].
  wp_step. rewrite Z2Nat.id by lia. rewrite app_nil_l. apply wp_min_among.
  { intros i [_ Hi%elem_of_seqZ]%list_elem_of_filter. cbn. lia. }
  change (least _ _ (100, 0)) with
    (least (die_group_used_bitmap m) (groups_with_room m) (100, 0)). rewrite Hleast.
  wp_step. apply wp_assert; [cbn; by apply negb_true_iff, Z.eqb_neq|]. cbn [fst snd]. wp_step.
  eapply wp_pz_set_group; [by eapply aget_insert_eq|apply aget_is_Some; cbn; lia|].
  cbn [phy_zone dm_set_phy_zone]. rewrite list_insert_insert_eq. cbn [map_die_group_num die_groups fbg_ofst FtlTypes.fbg_part].
  wp_step. eapply wp_used_add; [done|]. wp_step.
  eapply wp_mono; [eapply wp_alloc_fbg_whole; [exact Hg|exact Hok|exact Hr]|].
  intros ? m' (k & -> & Hk & ->).
  eapply wp_pz_upd; [by eapply aget_insert_eq|]. exists k. split; [done|].
  cbn [phy_zone dm_set_phy_zone dm_set_used dm_set_die_group]. rewrite list_insert_insert_eq. done.
Qed.

Lemma wp_open_partial m z g u pz dg :
  openable m z g u pz dg → die_group_sum m = open_zone_limit m →
  least (die_group_used_bitmap m) (all_groups m) (100, 0) = (u, g) →
  wp (open_partial z) (λ _, open_done m z g u pz dg) m.
Proof.
  intros [Hz He Hs Hdl Hul Hg Hu Hok Hr] Hlim Hleast. unfold open_partial. do 3 wp_step.
  unfold cdiv. rewrite <-Hlim, (proj2 (Z.eqb_neq _ _)) by lia. wp_step.
  rewrite Z.quot_same by lia. wp_step. eapply wp_pz_upd; [done|]. wp_step.
  apply wp_min_stride; [lia|cbn; lia|cbn; lia|done|].
  rewrite Z2Nat.id by lia.
  change (least _ _ (100, 0)) with (least (die_group_used_bitmap m) (all_groups m) (100, 0)).
  rewrite Hleast. cbn [snd]. pose proof (aget_lt _ _ _ Hg) as Hgl.
  assert (u32 (g + 0) = g) as Hg0 by (rewrite Z.add_0_r; apply u32_small; lia).
  wp_step. unfold for_range. change (Z.to_nat (1 - 0)) with 1%nat. cbn [for_up]. rewrite Hg0.
  do 2 wp_step.
  eapply wp_pz_set_group; [by eapply aget_insert_eq|apply aget_is_Some; cbn; lia|].
  cbn [phy_zone dm_set_phy_zone]. rewrite list_insert_insert_eq. cbn [map_die_group_num die_groups fbg_ofst FtlTypes.fbg_part].
  eapply wp_used_add; [done|]. wp_step. wp_step. eapply wp_pz_at; [by eapply aget_insert_eq|].
  wp_step. eapply wp_load; [apply aget_Some; split; [done|];
    apply list_lookup_insert_eq; change (Z.to_nat 0) with 0%nat; lia|]. wp_step.
  eapply wp_mono; [eapply wp_alloc_fbg_whole; [exact Hg|exact Hok|exact Hr]|].
  intros ? m' (k & -> & Hk & ->).
  eapply wp_pz_upd; [by eapply aget_insert_eq|]. exists k. split; [done|].
  cbn [phy_zone dm_set_phy_zone dm_set_used dm_set_die_group]. rewrite list_insert_insert_eq. done.
Qed.

(** ** Opening a zone *)

(** [zone_open] looks at the groups with room, or, when at most one zone is open and the
    initial stage is over, at all groups. *)
Definition all_considered (m : dymap_t) : bool :=
  (st_stage_flag m =? 0) && (opened_zones_num m + 1 <=? 2) &&
  (opened_zones_num m + 1 <? die_group_sum m).
Definition candidates (m : dymap_t) : list Z :=
  if all_considered m then all_groups m else groups_with_room m.

(** The group it takes, with the number of open zones that use it. *)
Definition open_choice (m : dymap_t) : option (Z * Z) :=
  let c := least (die_group_used_bitmap m) (candidates m) (100, 0) in
  if (fst c <? 100) && has_free m (snd c) then Some (snd c, fst c) else None.

Lemma open_choice_spec m g u :
  open_choice m = Some (g, u) →
  g ∈ candidates m ∧ aget (die_group_used_bitmap m) g = Some u ∧ u < 100 ∧ has_free m g = true ∧
  (∀ g' u', g' ∈ candidates m → aget (die_group_used_bitmap m) g' = Some u' → u ≤ u') ∧
  least (die_group_used_bitmap m) (candidates m) (100, 0) = (u, g).
Proof.
  unfold open_choice.
  destruct (least_spec (die_group_used_bitmap m) (candidates m) (100, 0)) as (H1 & _ & H3).
  set (c := least _ _ _) in *. destruct c as [u0 g0]. cbn [fst snd] in *.
  destruct (Z.ltb_spec u0 100); [|done]. destruct (has_free m g0) eqn:Hf; [|done]. cbn.
  intros [= <- <-]. destruct H1 as [[=]|(i & Hi & Hu & <-)]; [lia|].
  split_and!; done.
Qed.

Lemma flash_inv_ext N m m' live :
  die_group_sum m' = die_group_sum m → die_group m' = die_group m →
  fbgs_per_dg m' = fbgs_per_dg m → phy_zone m' = phy_zone m →
  flash_inv N m live → flash_inv N m' live.
Proof.
  intros Hs Hd Hf Hp [H1 H2 H3 H4 H5 H6 H7 H8].
  split; unfold zone_loc, fbg_used in *; rewrite ?Hs, ?Hd, ?Hf, ?Hp; done.
Qed.

(** The bookkeeping of [zone_open] before it chooses a group. *)
Definition noted (z : Z) (m : dymap_t) : dymap_t :=
  let num := opened_zones_num m + 1 in
  dm_set_stage (if negb (st_stage_flag m =? 0) && (num =? open_zone_limit m) then 0 else st_stage_flag m)
    (dm_set_opened (<[Z.to_nat (opened_zones_num m) := z]> (opened_zones m)) num m).

Definition open_post (z : Z) (m : dymap_t) : dymap_t → Prop := λ m', ∃ g u k pz dg,
  open_choice m = Some (g, u) ∧ aget (phy_zone m) z = Some pz ∧ aget (die_group m) g = Some dg ∧
  aget (fbgs_used_bitmap dg) k = Some 0 ∧
  m' = map_zone z g k pz dg
    (dm_set_used (<[Z.to_nat g := u + 1]> (die_group_used_bitmap m)) (noted z m)).

Lemma candidates_lt m g : g ∈ candidates m → 0 ≤ g < die_group_sum m.
Proof.
  unfold candidates, groups_with_room, all_groups.
  destruct (all_considered m); [intros H%elem_of_seqZ; lia|].
  intros [_ H%elem_of_seqZ]%list_elem_of_filter. lia.
Qed.

Lemma openable_choice N m live opened z g u :
  map_inv N m live opened → 0 ≤ z < N → open_choice m = Some (g, u) →
  ∃ pz dg, openable (noted z m) z g u pz dg ∧ aget (phy_zone m) z = Some pz ∧
    aget (die_group m) g = Some dg.
Proof.
  intros [[Hs Hf Hgs Hnz Hzs Hlive _ _] Ho] Hz Hch.
  destruct (open_choice_spec _ _ _ Hch) as (Hc & Hu & _ & Hfree & _).
  destruct (aget_is_Some (phy_zone m) z) as [pz Hpz]; [lia|].
  unfold has_free in Hfree. destruct (aget (die_group m) g) as [dg|] eqn:Hdg; [|done].
  exists pz, dg. split; [|done]. pose proof (oi_used_len _ _ Ho). split; cbn; try done.
  - by eapply Hzs.
  - lia.
  - lia.
  - by eapply Hgs.
  - by apply Z.ltb_lt.
Qed.

Lemma u32_used u : 0 ≤ u → u < 100 → u32 (u + 1) = u + 1.
Proof. intros. apply u32_small. lia. Qed.

Lemma wp_zone_open N m live opened z g u :
  map_inv N m live opened → 0 ≤ z < N → Z.of_nat (length opened) < MAXOPENZONES →
  open_choice m = Some (g, u) →
  wp (zone_open N z) (λ _, open_post z m) m.
Proof.
  intros Hinv Hz Hlen Hch.
  destruct (openable_choice _ _ _ _ _ _ _ Hinv Hz Hch) as (pz & dg & Hop & Hpz & Hdg).
  destruct Hinv as [Hfi [Hlim Harr Hnum (rest & Hrest) Hnd _ Hlast Hul Hused Hstage]].
  destruct (open_choice_spec _ _ _ Hch) as (_ & Hu & Hu100 & _ & _ & Hleast).
  assert (0 ≤ u) as Hu0. { rewrite (Hused _ _ Hu). apply countb_nonneg. }
  pose proof (fi_sum _ _ _ Hfi) as [Hs _]. unfold MAXOPENZONES in *.
  assert (∀ m', open_done (noted z m) z g u pz dg m' → open_post z m m') as Hpost.
  { intros m' (k & Hk & ->). exists g, u, k, pz, dg. rewrite u32_used by lia. done. }
  unfold zone_open. wp_step. wp_step; [apply Z.ltb_lt; lia|]. do 2 wp_step. rewrite Hlast.
  wp_step. eapply wp_load.
  { unfold aread. rewrite (proj2 (Z.ltb_ge _ _)) by lia. reflexivity. }
  change (existsb (Z.eqb z) (take (Z.to_nat 0) (opened_zones m))) with false. cbv iota. wp_step.
  destruct (aget_is_Some (opened_zones m) (opened_zones_num m)) as [x Hx]; [lia|].
  eapply wp_load; [by eapply aset_Some|]. rewrite (u32_small (opened_zones_num m + 1)) by lia.
  do 3 wp_step. unfold candidates, all_considered in Hleast.
  destruct (Z.eqb_spec (st_stage_flag m) 0) as [Hst|Hst]; cbn [negb].
  - assert (noted z m = dm_set_opened
      (<[Z.to_nat (opened_zones_num m) := z]> (opened_zones m)) (opened_zones_num m + 1) m) as Hno.
    { unfold noted. rewrite (proj2 (Z.eqb_eq _ _) Hst). cbn. by destruct m. }
    rewrite <-Hno. wp_step. cbn [andb] in Hleast.
    destruct (opened_zones_num m + 1 <=? 2).
    + destruct (opened_zones_num m + 1 <? die_group_sum m); cbn [andb] in Hleast.
      * eapply wp_mono; [by apply (wp_open_partial _ _ g u pz dg)|]. intros [] m' Hd; by apply Hpost.
      * eapply wp_mono; [apply (wp_open_full _ _ g u pz dg); [done|lia|done]|]. intros [] m' Hd; by apply Hpost.
    + rewrite Z.ltb_irrefl. cbn [andb] in Hleast.
      eapply wp_mono; [apply (wp_open_full _ _ g u pz dg); [done|lia|done]|]. intros [] m' Hd; by apply Hpost.
  - wp_step. wp_step; [apply Z.leb_le; specialize (Hstage Hst); lia|]. cbn [andb] in Hleast.
    wp_step. eapply (wp_mono _ (λ _ m', m' = noted z m)).
    { unfold noted. rewrite (proj2 (Z.eqb_neq _ _) Hst). cbn [negb andb].
      destruct (opened_zones_num m + 1 =? open_zone_limit m); [done|].
      cbn. by destruct m. }
    intros [] m' ->. wp_step. rewrite <-Hlim, Z.ltb_irrefl.
    eapply wp_mono; [apply (wp_open_full _ _ g u pz dg); [done|lia|done]|]. intros [] m' Hd; by apply Hpost.
Qed.

(** The zone opened is live and open, and its group counts one more. *)
Lemma open_post_inv N m live opened z m' :
  map_inv N m live opened → z ∉ live → z ∉ opened → Z.of_nat (length opened) < MAXOPENZONES →
  open_post z m m' → map_inv N m' ({[z]} ∪ live) (opened ++ [z]).
Proof.
  intros [Hfi Ho] Hnl Hno Hlen (g & u & k & pz & dg & Hch & Hpz & Hdg & Hk & ->).
  destruct Ho as [Hlim Harr Hnum (rest & Hrest) Hnd Hol Hlast Hul Hused Hstage].
  destruct (open_choice_spec _ _ _ Hch) as (Hc & Hu & _). pose proof (candidates_lt _ _ Hc) as Hgl.
  set (m0 := dm_set_used _ (noted z m)).
  assert (flash_inv N m0 live) as Hfi0 by by apply (flash_inv_ext N m).
  assert (∀ z', zone_loc m0 z' = zone_loc m z') as Hloc0 by done.
  split; [by apply map_zone_inv|]. unfold MAXOPENZONES in *. split; cbn.
  - done.
  - by rewrite length_insert.
  - rewrite length_app, Hnum. simpl. lia.
  - rewrite Hrest, Hnum, Nat2Z.id. destruct rest as [|y rest].
    { rewrite Hrest, length_app in Harr. simpl in Harr. lia. }
    exists rest. rewrite <-app_assoc. cbn. by rewrite insert_app_r_alt, Nat.sub_diag by lia.
  - apply NoDup_app. split; [done|]. split; [|apply NoDup_singleton].
    by intros x Hx ->%list_elem_of_singleton.
  - intros x [Hx| ->%list_elem_of_singleton]%elem_of_app.
    + destruct (Hol _ Hx) as (px & gx & kx & Hpx & Hnx & Hlx & Hgx). exists px, gx, kx.
      assert (x ≠ z) as Hne by congruence.
      rewrite (aget_insert_ne _ _ _ _ (proj1 (aget_lt _ _ _ Hpz))) by done.
      by rewrite (map_zone_loc_ne m0 z g k pz dg Hpz).
    + eexists _, g, k. split; [by eapply aget_insert_eq|].
      by rewrite (map_zone_loc_eq N m0 live z g k pz dg Hfi0 Hpz).
  - done.
  - by rewrite length_insert.
  - intros g' u' Hu'. rewrite countb_app. cbn [countb].
    assert (countb (in_group (map_zone z g k pz dg m0) g') opened = countb (in_group m g') opened) as ->.
    { apply countb_ext. intros x Hx. unfold in_group.
      rewrite (map_zone_loc_ne m0 z g k pz dg Hpz); [done|]. by intros ->. }
    unfold in_group at 2. rewrite (map_zone_loc_eq N m0 live z g k pz dg Hfi0 Hpz).
    destruct (decide (g = g')) as [<-|Hne].
    + rewrite (aget_insert_eq _ _ _ _ Hu) in Hu'. injection Hu' as <-.
      rewrite Z.eqb_refl, <-(Hused _ _ Hu). lia.
    + rewrite (aget_insert_ne _ _ _ _ (proj1 (aget_lt _ _ _ Hu)) Hne) in Hu'.
      rewrite (proj2 (Z.eqb_neq _ _) Hne), (Hused _ _ Hu'). lia.
  - destruct (Z.eqb_spec (st_stage_flag m) 0) as [->|Hst]; cbn; [done|].
    destruct (Z.eqb_spec (opened_zones_num m + 1) (open_zone_limit m)); [done|].
    intros _. specialize (Hstage Hst). lia.
Qed.

(** ** Closing a zone *)

(** A zone that is open leaves the list, and its group counts one less. *)
Definition closed (z : Z) (opened : list Z) (m : dymap_t) : dymap_t :=
  match zone_loc m z with
  | Some (g, _) =>
      match aget (die_group_used_bitmap m) g with
      | Some u =>
          dm_set_opened (filter (λ x, x ≠ z) opened ++ drop (length opened - 1) (opened_zones m))
            (opened_zones_num m - 1)
            (dm_set_used (<[Z.to_nat g := u - 1]> (die_group_used_bitmap m)) m)
      | None => m
      end
  | None => m
  end.

Lemma length_filter_out (l : list Z) z :
  NoDup l → z ∈ l → S (length (filter (λ x, x ≠ z) l)) = length l.
Proof.
  induction l as [|a l IH]; intros Hnd Hz; [by apply elem_of_nil in Hz|].
  apply NoDup_cons in Hnd as [Ha Hnd]. rewrite filter_cons.
  destruct (decide (a = z)) as [->|Hne].
  - rewrite decide_False by auto. simpl. f_equal. f_equal.
    clear IH Hz Hnd. induction l as [|b l IH]; [done|]. apply not_elem_of_cons in Ha as [? Ha].
    rewrite filter_cons, decide_True by done. f_equal. by apply IH.
  - rewrite decide_True by done. simpl. f_equal. apply IH; [done|]. set_solver.
Qed.

Lemma opened_read m opened :
  open_inv m opened → aread (opened_zones m) (opened_zones_num m) = Some opened.
Proof.
  intros [_ _ Hnum (rest & Hrest) _ _ _ _ _ _]. unfold aread. rewrite Hrest, Hnum, length_app.
  rewrite (proj2 (Z.ltb_ge _ _)) by lia. by rewrite Nat2Z.id, take_app_length.
Qed.

Lemma countb_filter_out f (l : list Z) z :
  NoDup l → z ∈ l → countb f (filter (λ x, x ≠ z) l) = countb f l - (if f z then 1 else 0).
Proof.
  induction l as [|a l IH]; intros Hnd Hz; [by apply elem_of_nil in Hz|].
  apply NoDup_cons in Hnd as [Ha Hnd]. rewrite filter_cons. destruct (decide (a = z)) as [->|Hne].
  - rewrite decide_False by auto. cbn [countb].
    assert (filter (λ x, x ≠ z) l = l) as ->; [|lia].
    clear IH Hz Hnd. induction l as [|b l IH]; [done|]. apply not_elem_of_cons in Ha as [? Ha].
    rewrite filter_cons, decide_True by done. f_equal. by apply IH.
  - rewrite decide_True by done. cbn [countb]. rewrite IH; [lia|done|set_solver].
Qed.

Lemma wp_zone_close N m live opened z :
  map_inv N m live opened → 0 ≤ z < N →
  wp (zone_close N z) (λ _ m', m' = if bool_decide (z ∈ opened) then closed z opened m else m) m.
Proof.
  intros [Hfi Ho] Hz. unfold zone_close. wp_step. wp_step; [apply Z.ltb_lt; lia|]. do 3 wp_step.
  destruct (aget_is_Some (phy_zone m) z) as [pz Hpz]; [rewrite (fi_num_zones _ _ _ Hfi); lia|].
  eapply wp_pz_at; [done|]. wp_step. eapply wp_load; [by eapply opened_read|].
  assert (existsb (Z.eqb z) opened = bool_decide (z ∈ opened)) as ->.
  { apply Bool.eq_iff_eq_true. rewrite bool_decide_eq_true, existsb_exists. split.
    - intros (x & Hx & ->%Z.eqb_eq). by apply list_elem_of_In.
    - intros Hx. exists z. split; [by apply list_elem_of_In|apply Z.eqb_refl]. }
  case_bool_decide as Hin; cbn [when]; [|by wp_step].
  pose proof Ho as [Hlim Harr Hnum (rest & Hrest) Hnd Hol _ Hul Hused _].
  destruct (Hol _ Hin) as (pz' & g & k & Hpz' & Hn1 & Hloc & Hg).
  rewrite Hpz in Hpz'. injection Hpz' as <-. rewrite Hn1.
  destruct (aget_is_Some (die_group_used_bitmap m) g) as [u Hu]; [lia|].
  destruct (proj1 (zone_loc_Some _ _ _ _ _ Hpz) Hloc) as [Hg0 _].
  assert (in_group m g z = true) as Hing by (unfold in_group; rewrite Hloc; apply Z.eqb_refl).
  assert (0 < u ≤ 10) as Hu0.
  { rewrite (Hused _ _ Hu). destruct (list_elem_of_lookup_1 _ _ Hin) as [i Hi].
    split; [by eapply countb_pos|]. pose proof (countb_le_length (in_group m g) opened).
    assert (length opened ≤ length (opened_zones m))%nat by (rewrite Hrest, length_app; lia).
    unfold MAXOPENZONES in *. lia. }
  unfold for_range. change (Z.to_nat (1 - 0)) with 1%nat. cbn [for_up]. do 3 wp_step.
  eapply wp_load; [done|]. wp_step. eapply wp_used_at; [done|]. wp_step.
  apply wp_assert; [apply Z.ltb_lt; lia|]. eapply wp_used_add; [done|]. wp_step.
  pose proof (length_filter_out _ _ Hnd Hin) as Hlen.
  unfold MAXOPENZONES in *. rewrite Hrest, length_app in Harr.
  rewrite (u32_small (opened_zones_num m - 1)), (u32_small (u + -1)) by lia.
  wp_step. apply wp_assert; [apply Z.eqb_eq; lia|]. wp_step.
  unfold closed. rewrite Hloc, Hu.
  replace (length (filter (λ x, x ≠ z) opened)) with (length opened - 1)%nat by lia. done.
Qed.

Lemma closed_inv N m live opened z :
  map_inv N m live opened → z ∈ opened →
  map_inv N (closed z opened m) live (filter (λ x, x ≠ z) opened).
Proof.
  intros [Hfi Ho] Hin. pose proof Ho as [Hlim Harr Hnum (rest & Hrest) Hnd Hol Hlast Hul Hused Hst].
  destruct (Hol _ Hin) as (pz & g & k & Hpz & Hn1 & Hloc & Hg).
  destruct (aget_is_Some (die_group_used_bitmap m) g) as [u Hu]; [lia|].
  pose proof (length_filter_out _ _ Hnd Hin) as Hlen.
  assert (∀ x, x ∈ filter (λ x, x ≠ z) opened → x ∈ opened) as Hsub.
  { intros x [_ ?]%list_elem_of_filter. done. }
  unfold closed. rewrite Hloc, Hu. split; [by apply (flash_inv_ext N m)|]. split; cbn.
  - done.
  - rewrite length_app, length_drop. rewrite Hrest, length_app in Harr |- *. lia.
  - lia.
  - eauto.
  - by apply NoDup_filter.
  - intros x Hx. by apply Hol, Hsub.
  - done.
  - by rewrite length_insert.
  - intros g' u' Hu'. rewrite countb_filter_out by done. unfold in_group at 1 2.
    change (zone_loc _ ?x) with (zone_loc m x). rewrite Hloc.
    change (in_group _ g') with (in_group m g').
    destruct (decide (g = g')) as [<-|Hne].
    + rewrite (aget_insert_eq _ _ _ _ Hu) in Hu'. injection Hu' as <-.
      rewrite (Hused _ _ Hu). fold (in_group m g). rewrite Z.eqb_refl. lia.
    + rewrite (aget_insert_ne _ _ _ _ (proj1 (aget_lt _ _ _ Hu)) Hne) in Hu'.
      rewrite (Hused _ _ Hu'). rewrite (proj2 (Z.eqb_neq _ _) Hne). unfold in_group. lia.
  - intros Hs. specialize (Hst Hs). lia.
Qed.

(** ** Giving an FBG back *)

Definition freed (g k : Z) (dg : die_group_t) (m : dymap_t) : dymap_t :=
  dm_set_die_group (<[Z.to_nat g := free_of k dg]> (die_group m)) m.

Section freed.
Context (N : Z) (m : dymap_t) (live : gset Z) (z g k : Z) (dg : die_group_t).
Hypothesis Hinv : flash_inv N m live.
Hypothesis Hl : z ∈ live.
Hypothesis Hloc : zone_loc m z = Some (g, k).
Hypothesis Hg : aget (die_group m) g = Some dg.
Hypothesis Hk : aget (fbgs_used_bitmap dg) k = Some 1.

Lemma freed_used_eq : fbg_used (freed g k dg m) g k = Some 0.
Proof.
  unfold fbg_used, freed. cbn [die_group dm_set_die_group]. rewrite (aget_insert_eq _ _ _ _ Hg).
  cbn [mbind option_bind free_of fbgs_used_bitmap dg_set_remain dg_set_bitmap].
  by eapply aget_insert_eq.
Qed.

Lemma freed_used_ne g' k' :
  (g', k') ≠ (g, k) → fbg_used (freed g k dg m) g' k' = fbg_used m g' k'.
Proof.
  intros Hne. unfold fbg_used, freed. cbn [die_group dm_set_die_group].
  destruct (decide (g' = g)) as [->|Hg'].
  - rewrite (aget_insert_eq _ _ _ _ Hg), Hg.
    cbn [mbind option_bind free_of fbgs_used_bitmap dg_set_remain dg_set_bitmap].
    rewrite aget_insert_ne; [done| |congruence]. by apply aget_lt in Hk as [? _].
  - rewrite aget_insert_ne; [done| |done]. by apply aget_lt in Hg as [? _].
Qed.

Lemma freed_inv : flash_inv N (freed g k dg m) (live ∖ {[z]}).
Proof.
  pose proof Hinv as [Hsum Hf Hgs Hnz Hzs Hlive Hinj Hown].
  assert (∀ x, zone_loc (freed g k dg m) x = zone_loc m x) as Hloc' by done.
  split.
  - cbn. by rewrite length_insert.
  - done.
  - intros i g' Hg'. cbn in Hg'. destruct (decide (i = g)) as [->|Hne].
    + rewrite (aget_insert_eq _ _ _ _ Hg) in Hg'. injection Hg' as <-.
      destruct (Hgs _ _ Hg) as [Hok Hd]. split; [by apply free_of_ok|done].
    + rewrite aget_insert_ne in Hg'; [by apply Hgs| |done]. by apply aget_lt in Hg as [? _].
  - done.
  - done.
  - intros x [Hx Hnz']%elem_of_difference.
    destruct (Hlive _ Hx) as (px & gx & kx & Hpx & Hnum & Hlx & Hux).
    exists px, gx, kx. split_and!; [done|done|done|]. rewrite freed_used_ne; [done|].
    intros [= -> ->]. apply Hnz', elem_of_singleton. by apply (Hinj x z (g, k)).
  - intros z1 z2 l ? ?. rewrite !Hloc'. apply Hinj; set_solver.
  - intros g' k' Hu. destruct (decide ((g', k') = (g, k))) as [[= -> ->]|Hne].
    { rewrite freed_used_eq in Hu. done. }
    rewrite freed_used_ne in Hu by done. destruct (Hown _ _ Hu) as (x & Hx & Hlx).
    exists x. split; [|done]. apply elem_of_difference. split; [done|].
    intros ->%elem_of_singleton. congruence.
Qed.
End freed.

Lemma open_inv_freed m opened g k dg : open_inv m opened → open_inv (freed g k dg m) opened.
Proof. intros [H1 H2 H3 H4 H5 H6 H7 H8 H9 H10]. split; done. Qed.
