(* ===== verification/FtlAddr.v ===== *)
(** * Physical addresses: in range, and never shared

    The address [get_ppa_by_lba_base] computes for a page of a live zone, as a closed form
    ([page_addr]); it is an address of the array, and different pages of live zones have
    different addresses. *)

From stdpp Require Import base numbers option list list_numbers gmap.
From S2P Require Import Prelude FtlTypes FtlMap FtlAlloc FtlMapInv FtlStatic.

Lemma wp_cdiv {S} (a b : Z) (Q : Z → S → Prop) s :
  0 ≤ a → 0 < b → Q (a / b) s → wp (cdiv a b) Q s.
Proof.
  intros Ha Hb HQ. unfold cdiv. rewrite (proj2 (Z.eqb_neq _ _)) by lia.
  rewrite Z.quot_div_nonneg by lia. done.
Qed.
Lemma wp_cmod {S} (a b : Z) (Q : Z → S → Prop) s :
  0 ≤ a → 0 < b → Q (a mod b) s → wp (cmod a b) Q s.
Proof.
  intros Ha Hb HQ. unfold cmod. rewrite (proj2 (Z.eqb_neq _ _)) by lia.
  rewrite Z.rem_mod_nonneg by lia. done.
Qed.

Section address.
Context {B : PpaBits}.

(** The array: its bit fields can hold every index, and there is a die for every member
    of the [groups] die groups. *)
Record array_ok (spp : ssdparams) (groups : Z) : Prop := {
  ao_secs : 0 < secs_per_pg spp;
  ao_pgs : 0 < pgs_per_blk spp < 2 ^ 32;
  ao_blks : 0 < blks_per_pl spp;
  ao_pls : 0 < pls_per_lun spp;
  ao_luns : 0 < luns_per_ch spp;
  ao_chs : 0 < nchs spp;
  ao_tt : tt_luns spp = luns_per_ch spp * nchs spp;
  ao_groups : 0 ≤ groups ∧ groups * ZONE_MAX_DIE_PARA ≤ tt_luns spp;
  ao_u32 : tt_luns spp < 2 ^ 31 ∧
    ZONE_MAX_DIE_PARA * pls_per_lun spp * pgs_per_blk spp < 2 ^ 32;
  ao_bits : nchs spp ≤ 2 ^ ch_bits ∧ luns_per_ch spp ≤ 2 ^ lun_bits ∧
    pls_per_lun spp ≤ 2 ^ pl_bits ∧ blks_per_pl spp ≤ 2 ^ blk_bits ∧
    pgs_per_blk spp ≤ 2 ^ pg_bits
}.

(** Pages of an FBG. *)
Definition zone_pages (spp : ssdparams) : Z :=
  ZONE_MAX_DIE_PARA * pls_per_lun spp * pgs_per_blk spp.

(** Page [p] of FBG [k] of group [g]: consecutive pages go to consecutive dies, then to
    the planes, then to the pages of the block. *)
Definition page_die (g p : Z) : Z := g * ZONE_MAX_DIE_PARA + p mod ZONE_MAX_DIE_PARA.
Definition page_addr (spp : ssdparams) (g k p : Z) : ppa :=
  let i := p / ZONE_MAX_DIE_PARA in
  mk_ppa (page_die g p / luns_per_ch spp) (page_die g p mod luns_per_ch spp)
    (i mod pls_per_lun spp) k (i / pls_per_lun spp) 0.

Lemma page_die_range spp groups g p :
  array_ok spp groups → 0 ≤ g < groups → 0 ≤ page_die g p < tt_luns spp.
Proof.
  intros Ha Hg. pose proof (ao_groups _ _ Ha). unfold page_die, ZONE_MAX_DIE_PARA in *.
  pose proof (Z.mod_pos_bound p 16). lia.
Qed.

Lemma page_in_plane spp groups p :
  array_ok spp groups → 0 ≤ p < zone_pages spp →
  0 ≤ p / ZONE_MAX_DIE_PARA / pls_per_lun spp < pgs_per_blk spp.
Proof.
  intros Ha Hp. pose proof (ao_pls _ _ Ha). unfold zone_pages, ZONE_MAX_DIE_PARA in *.
  split; [apply Z.div_pos; [apply Z.div_pos|]; lia|].
  apply Z.div_lt_upper_bound; [lia|]. apply Z.div_lt_upper_bound; lia.
Qed.

Lemma page_addr_valid spp groups g k p :
  array_ok spp groups → 0 ≤ g < groups → 0 ≤ k < blks_per_pl spp → 0 ≤ p < zone_pages spp →
  valid_ppa spp (page_addr spp g k p) = true.
Proof.
  intros Ha Hg Hk Hp. pose proof (page_die_range _ _ _ p Ha Hg) as Hd.
  pose proof (page_in_plane _ _ _ Ha Hp) as Hpg. destruct Ha as [? ? ? ? ? ? Htt _ _ _].
  assert (0 ≤ page_die g p / luns_per_ch spp < nchs spp).
  { split; [apply Z.div_pos; lia|]. apply Z.div_lt_upper_bound; lia. }
  pose proof (Z.mod_pos_bound (page_die g p) (luns_per_ch spp)).
  pose proof (Z.mod_pos_bound (p / ZONE_MAX_DIE_PARA) (pls_per_lun spp)).
  unfold valid_ppa, page_addr. cbn [g_ch g_lun g_pl g_blk g_pg g_sec].
  repeat (apply andb_true_intro; split); first [apply Z.leb_le|apply Z.ltb_lt]; lia.
Qed.

(** An address determines the group, the FBG and the page. *)
Lemma page_addr_inj spp groups g k p g' k' p' :
  array_ok spp groups → page_addr spp g k p = page_addr spp g' k' p' → g = g' ∧ k = k' ∧ p = p'.
Proof.
  intros [_ _ _ Hpl Hlun _ _ _ _ _] [= Hc Hl Hp -> Hpg].
  pose proof (Z.div_mod (page_die g p) (luns_per_ch spp)).
  pose proof (Z.div_mod (page_die g' p') (luns_per_ch spp)).
  assert (page_die g p = page_die g' p') as Hd by (rewrite Hc, Hl in *; lia).
  pose proof (Z.div_mod (p / ZONE_MAX_DIE_PARA) (pls_per_lun spp)).
  pose proof (Z.div_mod (p' / ZONE_MAX_DIE_PARA) (pls_per_lun spp)).
  assert (p / ZONE_MAX_DIE_PARA = p' / ZONE_MAX_DIE_PARA) as Hq by (rewrite Hp, Hpg in *; lia).
  unfold page_die, ZONE_MAX_DIE_PARA in *.
  pose proof (Z.mod_pos_bound p 16). pose proof (Z.mod_pos_bound p' 16).
  pose proof (Z.div_mod p 16). pose proof (Z.div_mod p' 16). lia.
Qed.

Lemma bf_small w x n : 0 ≤ x < n → n ≤ 2 ^ w → bf w x = x.
Proof. intros Hx Hn. unfold bf. apply Z.mod_small. lia. Qed.

Lemma dies_of_lookup g j : 0 ≤ j < ZONE_MAX_DIE_PARA → aget (dies_of g) j = Some (g * ZONE_MAX_DIE_PARA + j).
Proof.
  intros Hj. apply aget_Some. split; [lia|]. unfold dies_of. rewrite list_lookup_fmap.
  rewrite lookup_seq_lt by lia. cbn. f_equal. lia.
Qed.

Lemma wp_get_ppa N m live spp z g k w Q :
  flash_inv N m live → array_ok spp (die_group_sum m) → fbgs_per_dg m ≤ blks_per_pl spp →
  (∃ pz, aget (phy_zone m) z = Some pz ∧ map_die_group_num pz = 1) →
  zone_loc m z = Some (g, k) → 0 ≤ g < die_group_sum m → 0 ≤ k < blks_per_pl spp →
  0 ≤ w → w / secs_per_pg spp < zone_pages spp →
  Q (page_addr spp g k (w / secs_per_pg spp)) m →
  wp (get_ppa_by_lba_base spp z w) Q m.
Proof.
  intros Hfi Ha Hb (pz & Hpz & Hnum) Hloc Hg Hk Hw Hp HQ.
  destruct (proj1 (zone_loc_Some _ _ _ _ _ Hpz) Hloc) as [Hg0 Hofst].
  pose proof (fi_sum _ _ _ Hfi) as [Hs Hlen].
  destruct (aget_is_Some (die_group m) g) as [dg Hdg]; [lia|].
  destruct (fi_groups _ _ _ Hfi _ _ Hdg) as [_ Hdies].
  set (p := w / secs_per_pg spp) in *.
  assert (0 ≤ p) as Hp0 by (apply Z.div_pos; [lia|apply Ha]).
  pose proof (page_in_plane _ _ p Ha (conj Hp0 Hp)) as Hpp. pose proof (page_die_range _ _ g p Ha Hg) as Hdie.
  pose proof Ha as [Hsecs Hpgs Hblks Hpls Hluns Hchs Htt _ [Hu32 Hzp] (Hbc & Hbl & Hbp & Hbb & Hbg)].
  unfold get_ppa_by_lba_base. wp_step. eapply wp_pz_at; [done|]. rewrite Hnum.
  change (u32 (1 * ZONE_MAX_DIE_PARA)) with 16. unfold zone_pages in *.
  wp_step. apply wp_assert; [done|]. wp_step. apply wp_cdiv; [lia|done|]. fold p.
  rewrite u32_small by lia. wp_step. apply wp_cmod; [lia|lia|]. wp_step. apply wp_cdiv; [lia|lia|].
  pose proof (Z.mod_pos_bound p 16).
  rewrite (Z.quot_small (p mod 16)), (Z.rem_small (p mod 16)) by (unfold ZONE_MAX_DIE_PARA; lia).
  wp_step. apply wp_assert; [done|]. wp_step. eapply wp_load; [done|]. wp_step.
  eapply wp_dg_at; [done|]. wp_step. rewrite Hdies. eapply wp_load; [apply dies_of_lookup; unfold ZONE_MAX_DIE_PARA; lia|].
  change (g * ZONE_MAX_DIE_PARA + p mod 16) with (page_die g p). wp_step.
  apply wp_assert; [apply Z.ltb_lt; lia|]. wp_step.
  assert (0 ≤ p / 16) by (apply Z.div_pos; lia).
  apply wp_cmod; [lia|done|]. wp_step. apply wp_cdiv; [lia|done|]. change (1 <? 1) with false.
  cbv iota zeta. unfold ZONE_MAX_DIE_PARA in Hpp.
  wp_step. apply wp_cdiv; [lia|done|]. wp_step. apply wp_cmod; [lia|done|]. wp_step.
  rewrite Z.add_0_r, u32_small by lia. apply wp_assert; [apply Z.ltb_lt; lia|]. wp_step.
  assert (0 ≤ page_die g p / luns_per_ch spp < nchs spp).
  { split; [apply Z.div_pos; lia|]. apply Z.div_lt_upper_bound; lia. }
  pose proof (Z.mod_pos_bound (page_die g p) (luns_per_ch spp)).
  pose proof (Z.mod_pos_bound (p / 16) (pls_per_lun spp)).
  rewrite Hofst. change (bf sec_bits 0) with (0 mod 2 ^ sec_bits). rewrite Zmod_0_l.
  rewrite (bf_small ch_bits _ (nchs spp)), (bf_small lun_bits _ (luns_per_ch spp)), (bf_small pl_bits _ (pls_per_lun spp)),
    (bf_small blk_bits _ (blks_per_pl spp)), (bf_small pg_bits _ (pgs_per_blk spp)) by lia. done.
Qed.
End address.
