(* ===== verification/FtlTxn.v ===== *)
(** * Transactions and requests

    The consistency of the two stores with the transactions that wait on the dies
    ([txn_inv]), and the specification of [release_ts]: a request is submitted to the
    poller with the last of its transactions, and only then. *)

From stdpp Require Import base numbers option list list_numbers gmap.
From S2P Require Import Prelude FtlList ZnsTypes FtlTypes FtlMap FtlOps FtlAlloc.

Section txn.
Context {Q : DieQueue nat} {B : PpaBits} {M : Malloc}.
Implicit Types s : zns_ssd.

(** ** Outstanding requests *)

Definition reqs_of (m : gmap nat NvmeRequestPlus_t) : list nat :=
  (λ x, rp_req x.2) <$> map_to_list m.

(** The requests that wait for transactions. *)
Definition outstanding (s : zns_ssd) : list nat := reqs_of (rp_store s).

Lemma reqs_of_delete m r rp :
  m !! r = Some rp → reqs_of m ≡ₚ rp_req rp :: reqs_of (delete r m).
Proof.
  intros Hr. unfold reqs_of. rewrite <-(map_to_list_delete m r rp) by done. done.
Qed.

Lemma reqs_of_insert m r rp :
  m !! r = None → reqs_of (<[r := rp]> m) ≡ₚ rp_req rp :: reqs_of m.
Proof.
  intros Hr. rewrite (reqs_of_delete _ r rp) by apply lookup_insert_eq.
  by rewrite delete_insert_id.
Qed.

Lemma reqs_of_update m r rp rp' :
  m !! r = Some rp → rp_req rp' = rp_req rp → reqs_of (<[r := rp']> m) ≡ₚ reqs_of m.
Proof.
  intros Hr He. rewrite (reqs_of_delete m r rp Hr).
  rewrite (reqs_of_delete _ r rp') by apply lookup_insert_eq. by rewrite He, delete_insert_eq.
Qed.

(** ** The invariant *)

Definition owner (s : zns_ssd) (t : nat) : option nat := ts_store s !! t ≫= req_plus.

(** The transactions of [l] that belong to the wrapped request [r]. *)
Definition of_rp (s : zns_ssd) (r : nat) (l : list nat) : list nat :=
  filter (λ t, owner s t = Some r) l.

Record rp_ok (s : zns_ssd) (l : list nat) (r : nat) (rp : NvmeRequestPlus_t) : Prop := {
  rp_num : ts_num rp = Z.of_nat (length (of_rp s r l));
  rp_pos : 0 < ts_num rp < 2 ^ 32;
  rp_sum : Z.of_nat (length (flash_ts rp)) = ts_sum rp;
  rp_entry t : t ∈ of_rp s r l → Some t ∈ flash_ts rp;
  rp_req_ok : is_Some (req_store s !! rp_req rp)
}.

(** [l]: the transactions that exist.  Each belongs to a request, and every wrapped
    request counts its own. *)
Record txn_inv (s : zns_ssd) (l : list nat) : Prop := {
  ti_nodup : NoDup l;
  ti_dom t : is_Some (ts_store s !! t) ↔ t ∈ l;
  ti_owner t : t ∈ l → ∃ r rp, owner s t = Some r ∧ rp_store s !! r = Some rp;
  ti_rp r rp : rp_store s !! r = Some rp → rp_ok s l r rp
}.

(** Everything but the stores and the calls of the poller. *)
Definition same_device (s s' : zns_ssd) : Prop :=
  sp s' = sp s ∧ ch s' = ch s ∧ queues_of s' = queues_of s ∧ dymap s' = dymap s ∧
  start_up_flag s' = start_up_flag s ∧ stats s' = stats s ∧ last_time s' = last_time s ∧
  req_sum s' = req_sum s.

(** [done] has been submitted to poller [p], and nothing else has been lost or added. *)
Definition completes (p : Z) (done : list nat) (s s' : zns_ssd) : Prop :=
  enqueued s' = enqueued s ++ (pair p <$> done) ∧ outstanding s ≡ₚ done ++ outstanding s'.

Lemma completes_trans p d1 d2 s1 s2 s3 :
  completes p d1 s1 s2 → completes p d2 s2 s3 → completes p (d1 ++ d2) s1 s3.
Proof.
  intros [He1 Ho1] [He2 Ho2]. split.
  - by rewrite He2, He1, fmap_app, <-app_assoc.
  - by rewrite Ho1, Ho2, <-app_assoc.
Qed.

Lemma completes_refl p s s' :
  enqueued s' = enqueued s → rp_store s' = rp_store s → completes p [] s s'.
Proof.
  intros He Hr. split; [by rewrite He, app_nil_r|]. unfold outstanding. by rewrite Hr.
Qed.

Lemma of_rp_ext s s' r l :
  (∀ t, t ∈ l → owner s' t = owner s t) → of_rp s' r l = of_rp s r l.
Proof.
  unfold of_rp. induction l as [|t l IH]; intros H; [done|]. rewrite !filter_cons.
  rewrite IH by set_solver. rewrite <-(H t) by set_solver. done.
Qed.

(** ** Releasing a transaction *)

Definition released (p lat : Z) (t : nat) (l : list nat) (s s' : zns_ssd) : Prop :=
  txn_inv s' l ∧ same_device s s' ∧ ts_store s' = delete t (ts_store s) ∧
  dom (req_store s') = dom (req_store s) ∧
  ∃ r rp, owner s t = Some r ∧ rp_store s !! r = Some rp ∧
    completes p (if ts_num rp =? 1 then [rp_req rp] else []) s s'.

Lemma wp_submit p req lat s r Q0 :
  req_store s !! req = Some r →
  Q0 tt (set_enqueued (enqueued s ++ [(p, req)])
    (set_req_store (<[req := mk_ftl_req (fr_cmd r) (stime r) lat (u64 (expire_time r + lat))]>
      (req_store s)) s)) →
  wp (submit p req lat) Q0 s.
Proof.
  intros Hr HQ. unfold submit, req_at, req_put, femu_ring_enqueue. do 3 wp_step.
  eapply wp_load; [done|]. by do 3 wp_step.
Qed.

Lemma wp_ts_at t ts s Q0 : ts_store s !! t = Some ts → Q0 ts s → wp (ts_at t) Q0 s.
Proof. intros Ht HQ. unfold ts_at. do 2 wp_step. by eapply wp_load. Qed.
Lemma wp_rp_at r rp s Q0 : rp_store s !! r = Some rp → Q0 rp s → wp (rp_at r) Q0 s.
Proof. intros Ht HQ. unfold rp_at. do 2 wp_step. by eapply wp_load. Qed.
Lemma wp_req_at r rq s Q0 : req_store s !! r = Some rq → Q0 rq s → wp (req_at r) Q0 s.
Proof. intros Ht HQ. unfold req_at. do 2 wp_step. by eapply wp_load. Qed.

Lemma wp_ts_free t ts s Q0 :
  ts_store s !! t = Some ts → Q0 tt (set_ts_store (delete t (ts_store s)) s) → wp (ts_free t) Q0 s.
Proof. intros Ht HQ. unfold ts_free. wp_step. eapply wp_ts_at; [done|]. by wp_step. Qed.
Lemma wp_rp_free r rp s Q0 :
  rp_store s !! r = Some rp → Q0 tt (set_rp_store (delete r (rp_store s)) s) → wp (rp_free r) Q0 s.
Proof. intros Ht HQ. unfold rp_free. wp_step. eapply wp_rp_at; [done|]. by wp_step. Qed.

(** The other transactions keep their owner when [t] goes. *)
Lemma owner_delete s s' t x :
  ts_store s' = delete t (ts_store s) → x ≠ t → owner s' x = owner s x.
Proof. intros Hs Hne. unfold owner. by rewrite Hs, lookup_delete_ne. Qed.

Lemma of_rp_head s r t l : owner s t = Some r → of_rp s r (t :: l) = t :: of_rp s r l.
Proof. intros Ho. unfold of_rp. by rewrite filter_cons, decide_True. Qed.

(** A wrapped request other than the owner of [t] does not notice that [t] goes. *)
Lemma rp_ok_other s s' t l r r' rp :
  NoDup (t :: l) → ts_store s' = delete t (ts_store s) → owner s t = Some r → r' ≠ r →
  (∀ q, is_Some (req_store s !! q) → is_Some (req_store s' !! q)) →
  rp_ok s (t :: l) r' rp → rp_ok s' l r' rp.
Proof.
  intros [Ht _]%NoDup_cons Hts Ho Hne Hreq [H1 H2 H3 H4 H5].
  assert (of_rp s' r' l = of_rp s r' (t :: l)) as Heq.
  { unfold of_rp at 2. rewrite filter_cons, decide_False by congruence. apply of_rp_ext.
    intros x Hx. eapply owner_delete; [done|]. by intros ->. }
  split; rewrite ?Heq; auto.
Qed.

Lemma released_dom s s' t l x :
  NoDup (t :: l) → (∀ x, is_Some (ts_store s !! x) ↔ x ∈ t :: l) →
  ts_store s' = delete t (ts_store s) → is_Some (ts_store s' !! x) ↔ x ∈ l.
Proof.
  intros [Ht _]%NoDup_cons Hd ->. destruct (decide (x = t)) as [->|Hne].
  - rewrite lookup_delete_eq. split; [by intros []|done].
  - rewrite lookup_delete_ne, Hd by done. set_solver.
Qed.

(** The last transaction of a request: the request is submitted. *)
Lemma wp_release_last p lat t l s r rp :
  txn_inv s (t :: l) → owner s t = Some r → rp_store s !! r = Some rp → ts_num rp = 1 →
  wp (release_ts p t lat) (λ _, released p lat t l s) s.
Proof.
  intros [Hnd Hdom Hown Hrps] Ho Hrp Hone. unfold owner in Ho.
  destruct (ts_store s !! t) as [ts|] eqn:Hts; [|done]. cbn in Ho.
  pose proof (Hrps _ _ Hrp) as [Hnum Hpos Hsum Hent [rq Hrq]].
  assert (owner s t = Some r) as Ho' by (unfold owner; by rewrite Hts).
  rewrite of_rp_head in Hnum by done. cbn [length] in Hnum.
  assert (of_rp s r l = []) as Hnil by (destruct (of_rp s r l); [done|]; cbn in Hnum; lia).
  pose proof (proj1 (NoDup_cons _ _) Hnd) as [Htl Hndl].
  unfold release_ts, rp_put. wp_step. eapply wp_ts_at; [done|]. wp_step. eapply wp_load; [done|].
  wp_step. eapply wp_rp_at; [done|]. rewrite Hone. do 2 wp_step.
  change (u32 (1 - 1) =? 0) with true. cbv iota. wp_step. eapply wp_submit; [done|].
  wp_step. eapply wp_rp_free; [cbn; apply lookup_insert_eq|]. cbn [rp_store set_enqueued set_req_store set_rp_store].
  rewrite delete_insert_eq. eapply wp_ts_free; [done|]. cbn.
  set (s' := set_ts_store _ _). assert (ts_store s' = delete t (ts_store s)) as Hts' by done.
  assert (∀ x, x ∈ l → owner s' x = owner s x) as Hown'.
  { intros x Hx. eapply owner_delete; [done|]. by intros ->. }
  split; [|split; [done|split; [done|split]]].
  - split; [done|intros x; by eapply released_dom| |].
    + intros x Hx. destruct (Hown x) as (r' & rp' & Hox & Hr'); [set_solver|].
      exists r', rp'. rewrite Hown' by done. split; [done|].
      change (delete r (rp_store s) !! r' = Some rp'). rewrite lookup_delete_ne; [done|].
      intros <-. assert (x ∈ of_rp s r l) as Hin by by apply list_elem_of_filter.
      rewrite Hnil in Hin. by apply elem_of_nil in Hin.
    + intros r' rp' Hr'. change (delete r (rp_store s) !! r' = Some rp') in Hr'.
      apply lookup_delete_Some in Hr' as [Hne Hr'].
      eapply rp_ok_other; [done|done|done|done| |by apply Hrps].
      intros q Hq. cbn. destruct (decide (q = rp_req rp)) as [->|];
        [by rewrite lookup_insert_eq|by rewrite lookup_insert_ne].
  - cbn. rewrite dom_insert_L. apply elem_of_dom_2 in Hrq. set_solver.
  - exists r, rp. split; [done|]. split; [done|]. rewrite Hone. split; [done|].
    by apply reqs_of_delete.
Qed.

(** Another transaction of the request remains: the entry is cleared. *)
Lemma wp_release_more p lat t l s r rp :
  txn_inv s (t :: l) → owner s t = Some r → rp_store s !! r = Some rp → ts_num rp ≠ 1 →
  wp (release_ts p t lat) (λ _, released p lat t l s) s.
Proof.
  intros [Hnd Hdom Hown Hrps] Ho Hrp Hmore. unfold owner in Ho.
  destruct (ts_store s !! t) as [ts|] eqn:Hts; [|done]. cbn in Ho.
  assert (owner s t = Some r) as Ho' by (unfold owner; by rewrite Hts).
  pose proof (Hrps _ _ Hrp) as [Hnum Hpos Hsum Hent Hrq]. rewrite of_rp_head in Hnum, Hent by done.
  pose proof (proj1 (NoDup_cons _ _) Hnd) as [Htl Hndl]. cbn [length] in Hnum.
  unfold release_ts, rp_put. wp_step. eapply wp_ts_at; [done|]. wp_step. eapply wp_load; [done|].
  wp_step. eapply wp_rp_at; [done|]. do 2 wp_step. rewrite u32_small by lia.
  rewrite (proj2 (Z.eqb_neq _ _)) by lia.
  assert (Z.to_nat (ts_sum rp) = length (flash_ts rp)) as -> by lia.
  rewrite firstn_all.
  destruct (list_find (λ x, x = Some t) (flash_ts rp)) as [[j x]|] eqn:Hfind.
  2: { apply list_find_None in Hfind. rewrite Forall_forall in Hfind.
       exfalso. apply (Hfind (Some t)); [|done]. apply Hent. set_solver. }
  apply list_find_Some in Hfind as (Hj & -> & _). do 2 wp_step.
  cbn [rp_store set_rp_store]. rewrite insert_insert_eq.
  eapply wp_ts_free; [done|]. set (s' := set_ts_store _ _).
  assert (ts_store s' = delete t (ts_store s)) as Hts' by done.
  assert (∀ x, x ∈ l → owner s' x = owner s x) as Hown'.
  { intros x Hx. eapply owner_delete; [done|]. by intros ->. }
  set (rp1 := mk_req_plus _ _ _ _ _ _) in s'.
  split; [|split; [done|split; [done|split; [done|]]]].
  - split; [done|intros x; by eapply released_dom| |].
    + intros x Hx. destruct (Hown x) as (r' & rp' & Hox & Hr'); [set_solver|].
      exists r'. rewrite Hown' by done. cbn. destruct (decide (r' = r)) as [->|Hne].
      * exists rp1. by rewrite lookup_insert_eq.
      * exists rp'. by rewrite lookup_insert_ne.
    + intros r' rp' Hr'. change (<[r := rp1]> (rp_store s) !! r' = Some rp') in Hr'.
      destruct (decide (r' = r)) as [->|Hne].
      * rewrite lookup_insert_eq in Hr'. injection Hr' as <-.
        split; rewrite ?(of_rp_ext s s') by done; cbn; [lia|lia|by rewrite length_insert| |done].
        intros x Hx. destruct (list_elem_of_lookup_1 _ _ (Hent x ltac:(set_solver))) as [i Hi].
        apply list_elem_of_lookup_2 with i. rewrite list_lookup_insert_ne; [done|].
        intros <-. rewrite Hj in Hi. injection Hi as <-.
        apply Htl. by apply list_elem_of_filter in Hx as [_ ?].
      * rewrite lookup_insert_ne in Hr' by done.
        eapply rp_ok_other; [done|done|done|done|done|by apply Hrps].
  - exists r, rp. split; [done|]. split; [done|].
    rewrite (proj2 (Z.eqb_neq _ _)) by done. split; [cbn; by rewrite app_nil_r|].
    cbn. symmetry. by eapply reqs_of_update.
Qed.

Lemma wp_release_ts p lat t l s :
  txn_inv s (t :: l) → wp (release_ts p t lat) (λ _, released p lat t l s) s.
Proof.
  intros Hinv. destruct (ti_owner _ _ Hinv t) as (r & rp & Ho & Hr); [set_solver|].
  destruct (decide (ts_num rp = 1)).
  - by eapply wp_release_last.
  - by eapply wp_release_more.
Qed.
End txn.
