(* ===== verification/FtlServe.v ===== *)
(** * Serving the die queues

    The specification of [zns_process_die_queue]: every idle die takes the transaction at
    the head of its queue, no other queue changes, the requests whose last transaction
    was taken are submitted and no request is lost. *)

From stdpp Require Import base numbers option list list_numbers gmap.
From S2P Require Import Prelude FtlList ZnsTypes FtlTypes FtlMap FtlOps FtlAlloc FtlAddr FtlTxn.

Section serve.
Context {Q : DieQueue nat} {HQ : DieQueueOk Q} {B : PpaBits} {M : Malloc}.
Implicit Types s : zns_ssd.

(** The array has a die for every queue, and statistics for every die group. *)
Record dev_ok (s : zns_ssd) : Prop := {
  do_pls : 0 < pls_per_lun (sp s);
  do_nchs : 0 < nchs (sp s);
  do_luns : 0 < luns_per_ch (sp s);
  do_tt : tt_luns (sp s) = luns_per_ch (sp s) * nchs (sp s);
  do_max : tt_luns (sp s) ≤ 8 * ZONE_MAX_DIE_PARA;
  do_bits : nchs (sp s) ≤ 2 ^ ch_bits ∧ luns_per_ch (sp s) ≤ 2 ^ lun_bits;
  do_ch : Z.of_nat (length (ch s)) = nchs (sp s);
  do_lun i c : aget (ch s) i = Some c → Z.of_nat (length (lun c)) = luns_per_ch (sp s);
  do_time : length (dg_time_us (stats s)) = 8%nat
}.

(** The queues hold the transactions of their die. *)
Record queue_inv (s : zns_ssd) (qs : list (list nat)) : Prop := {
  qi_rep : dq_rep (queues_of s) qs;
  qi_length : Z.of_nat (length qs) = tt_luns (sp s);
  qi_die i q t : qs !! i = Some q → t ∈ q →
    ∃ ts, ts_store s !! t = Some ts ∧ die_idx ts = Z.of_nat i
}.

Record io_inv (s : zns_ssd) (qs : list (list nat)) : Prop := {
  io_dev : dev_ok s;
  io_queue : queue_inv s qs;
  io_txn : txn_inv s (concat qs)
}.

(** ** When a die is idle *)

Definition die_avail (s : zns_ssd) (i : Z) : option Z :=
  match aget (ch s) (i mod nchs (sp s)) with
  | Some c =>
      match aget (lun c) (i / nchs (sp s)) with
      | Some l => Some (next_lun_avail_time l)
      | None => None
      end
  | None => None
  end.

Lemma die_coords s i :
  dev_ok s → 0 ≤ i < tt_luns (sp s) →
  0 ≤ i mod nchs (sp s) < nchs (sp s) ∧ 0 ≤ i / nchs (sp s) < luns_per_ch (sp s).
Proof.
  intros Hd Hi. pose proof (do_nchs _ Hd). rewrite (do_tt _ Hd) in Hi.
  split; [apply Z.mod_pos_bound; lia|].
  split; [apply Z.div_pos; lia|apply Z.div_lt_upper_bound; lia].
Qed.

Lemma wp_get_die {A} s i (k : nand_lun → ST zns_ssd A) Q0 :
  dev_ok s → 0 ≤ i < tt_luns (sp s) →
  (∀ l, die_avail s i = Some (next_lun_avail_time l) → wp (k l) Q0 s) →
  wp (c <- cmod i (nchs (sp s)) ;; l <- cdiv i (nchs (sp s)) ;;
      x <- get_lun (bf ch_bits c) (bf lun_bits l) ;; k x) Q0 s.
Proof.
  intros Hd Hi HQ0. destruct (die_coords _ _ Hd Hi) as [Hc Hl].
  pose proof (do_bits _ Hd) as [Hbc Hbl]. pose proof (do_nchs _ Hd).
  wp_step. apply wp_cmod; [lia|lia|]. wp_step. apply wp_cdiv; [lia|lia|].
  rewrite (bf_small _ _ _ Hc Hbc), (bf_small _ _ _ Hl Hbl). wp_step. unfold get_lun. do 3 wp_step.
  destruct (aget_is_Some (ch s) (i mod nchs (sp s))) as [cc Hcc]; [rewrite (do_ch _ Hd); lia|].
  eapply wp_load; [done|].
  destruct (aget_is_Some (lun cc) (i / nchs (sp s))) as [ll Hll];
    [rewrite (do_lun _ Hd _ _ Hcc); lia|].
  eapply wp_load; [done|]. apply HQ0. unfold die_avail. by rewrite Hcc, Hll.
Qed.

(** Die [i] is busy until [x]. *)
Definition avail_set (i x : Z) (s s' : zns_ssd) : Prop :=
  dev_ok s' ∧ (∃ chs, s' = set_ch chs s) ∧ die_avail s' i = Some x ∧
  ∀ j, 0 ≤ j < tt_luns (sp s) → j ≠ i → die_avail s' j = die_avail s j.

Lemma wp_set_die {A} s i x (k : ST zns_ssd A) Q0 :
  dev_ok s → 0 ≤ i < tt_luns (sp s) → (∀ s', avail_set i x s s' → wp k Q0 s') →
  wp (c <- cmod i (nchs (sp s)) ;; l <- cdiv i (nchs (sp s)) ;;
      set_avail (bf ch_bits c) (bf lun_bits l) x ;; k) Q0 s.
Proof.
  intros Hd Hi HQ0. destruct (die_coords _ _ Hd Hi) as [Hc Hl].
  pose proof (do_bits _ Hd) as [Hbc Hbl]. pose proof (do_nchs _ Hd) as Hn.
  wp_step. apply wp_cmod; [lia|lia|]. wp_step. apply wp_cdiv; [lia|lia|].
  rewrite (bf_small _ _ _ Hc Hbc), (bf_small _ _ _ Hl Hbl). wp_step. unfold set_avail. do 3 wp_step.
  destruct (aget_is_Some (ch s) (i mod nchs (sp s))) as [cc Hcc]; [rewrite (do_ch _ Hd); lia|].
  eapply wp_load; [done|]. pose proof (do_lun _ Hd _ _ Hcc) as Hlen.
  destruct (aget_is_Some (lun cc) (i / nchs (sp s))) as [ll Hll]; [lia|].
  wp_step. eapply wp_load; [done|]. wp_step. eapply wp_load; [by eapply aset_Some|].
  wp_step. eapply wp_load; [by eapply aset_Some|]. wp_step. apply HQ0.
  set (cc' := mk_channel _ _ _ _). split; [|split; [by eexists|split]].
  - pose proof Hd as [? ? ? ? ? ? Hch Hlun ?]. split; try done.
    + cbn. by rewrite length_insert.
    + intros j c Hj. cbn in Hj. destruct (decide (i mod nchs (sp s) = j)) as [<-|Hne].
      * rewrite (aget_insert_eq _ _ _ _ Hcc) in Hj. injection Hj as <-. cbn. by rewrite length_insert.
      * rewrite aget_insert_ne in Hj by lia. by eapply Hlun.
  - unfold die_avail. cbn [ch sp set_ch]. rewrite (aget_insert_eq _ _ _ _ Hcc). subst cc'.
    cbn [lun]. by rewrite (aget_insert_eq _ _ _ _ Hll).
  - intros j Hj Hne. unfold die_avail. cbn [ch sp set_ch].
    destruct (decide (i mod nchs (sp s) = j mod nchs (sp s))) as [He|He].
    + rewrite <-He, (aget_insert_eq _ _ _ _ Hcc), Hcc. subst cc'. cbn [lun].
      rewrite aget_insert_ne; [done|lia|]. intros He'.
      pose proof (Z.div_mod i (nchs (sp s))). pose proof (Z.div_mod j (nchs (sp s))). rewrite He, He' in *. lia.
    + rewrite aget_insert_ne; [done|lia|done].
Qed.

(** ** Invariants that only look at part of the device *)

Lemma txn_inv_ext s s' l :
  ts_store s' = ts_store s → rp_store s' = rp_store s → req_store s' = req_store s →
  txn_inv s l → txn_inv s' l.
Proof.
  intros Ht Hr Hq [H1 H2 H3 H4].
  assert (∀ t, owner s' t = owner s t) as Ho by (intros t; unfold owner; by rewrite Ht).
  split; [done| | |].
  - intros t. by rewrite Ht.
  - intros t Hin. rewrite Ho, Hr. by apply H3.
  - intros r rp. rewrite Hr. intros Hrp. destruct (H4 _ _ Hrp) as [G1 G2 G3 G4 G5].
    split; rewrite ?(of_rp_ext s s') by done; rewrite ?Hq; done.
Qed.

Lemma txn_inv_perm s l l' : l ≡ₚ l' → txn_inv s l → txn_inv s l'.
Proof.
  intros Hp [H1 H2 H3 H4].
  assert (∀ r, of_rp s r l ≡ₚ of_rp s r l') as Hrp by (intros r; unfold of_rp; by rewrite Hp).
  split.
  - by rewrite <-Hp.
  - intros t. by rewrite H2, Hp.
  - intros t. rewrite <-Hp. apply H3.
  - intros r rp Hr. destruct (H4 _ _ Hr) as [G1 G2 G3 G4 G5].
    split; try done; [by rewrite <-Hrp|]. intros t. rewrite <-Hrp. apply G4.
Qed.

(** ** One transaction *)

(** The time die [i] needs for transaction [ts] of [rp]. *)
Definition service_time (spp : ssdparams) (ts : flash_ts_t) (rp : NvmeRequestPlus_t) : option Z :=
  match lat_of spp (cmd_type rp) with
  | Some lat => Some (u32 (u32 (Z.quot (u32 (pl_idx ts + ops_num ts - 1)) (pls_per_lun spp) + 1) * lat))
  | None => None
  end.

(** What [serve] does to the device for transaction [t] of die [i], started at [now]. *)
Definition serve_post (p i now : Z) (t : nat) (l : list nat) (s s' : zns_ssd) : Prop :=
  txn_inv s' l ∧ dev_ok s' ∧ sp s' = sp s ∧ dymap s' = dymap s ∧ queues_of s' = queues_of s ∧
  ts_store s' = delete t (ts_store s) ∧ dom (req_store s') = dom (req_store s) ∧
  start_up_flag s' = start_up_flag s ∧
  (∀ j, 0 ≤ j < tt_luns (sp s) → j ≠ i → die_avail s' j = die_avail s j) ∧
  ∃ ts r rp, ts_store s !! t = Some ts ∧ req_plus ts = Some r ∧ rp_store s !! r = Some rp ∧
    die_avail s' i =
      match service_time (sp s) ts rp with Some b => Some (u64 (now + b)) | None => die_avail s i end ∧
    completes p (if ts_num rp =? 1 then [rp_req rp] else []) s s'.

Lemma dev_ok_ext s s' :
  sp s' = sp s → ch s' = ch s → dg_time_us (stats s') = dg_time_us (stats s) →
  dev_ok s → dev_ok s'.
Proof. intros H1 H2 H3 [????????]. split; rewrite ?H1, ?H2, ?H3; done. Qed.

(** Only the dies, the statistics and the clock mark change. *)
Definition quiet (s s' : zns_ssd) : Prop :=
  sp s' = sp s ∧ dymap s' = dymap s ∧ queues_of s' = queues_of s ∧
  start_up_flag s' = start_up_flag s ∧ ts_store s' = ts_store s ∧ rp_store s' = rp_store s ∧
  req_store s' = req_store s ∧ enqueued s' = enqueued s.

(** Die [i] is busy until [x], or as it was. *)
Definition timed (i : Z) (x : option Z) (s s' : zns_ssd) : Prop :=
  quiet s s' ∧ dev_ok s' ∧
  die_avail s' i = match x with Some _ => x | None => die_avail s i end ∧
  ∀ j, 0 ≤ j < tt_luns (sp s) → j ≠ i → die_avail s' j = die_avail s j.

Lemma wp_add_serv s i us Q0 :
  dev_ok s → 0 ≤ i < tt_luns (sp s) →
  (∀ st, length (dg_time_us st) = 8%nat → Q0 tt (set_stats st s)) → wp (add_serv i us) Q0 s.
Proof.
  intros Hd Hi HQ0. pose proof (do_time _ Hd). pose proof (do_max _ Hd) as Hmax.
  unfold ZONE_MAX_DIE_PARA in Hmax. unfold add_serv. do 3 wp_step.
  destruct (aget_is_Some (dg_time_us (stats s)) (Z.quot i ZONE_MAX_DIE_PARA)) as [t Ht].
  { unfold ZONE_MAX_DIE_PARA. rewrite Z.quot_div_nonneg by lia.
    split; [apply Z.div_pos; lia|apply Z.div_lt_upper_bound; lia]. }
  eapply wp_load; [done|]. wp_step. eapply wp_load; [by eapply aset_Some|]. wp_step.
  apply HQ0. cbn. by rewrite length_insert.
Qed.

(** The [switch] of the loop: the die and the statistics. *)
Lemma wp_serve_time s i now pl_ops rp curlat :
  dev_ok s → 0 ≤ i < tt_luns (sp s) → is_Some (req_store s !! rp_req rp) →
  wp (match lat_of (sp s) (cmd_type rp) with
      | Some lat =>
          let busy := u32 (pl_ops * lat) in
          let avail := u64 (now + busy) in
          c <- cmod i (nchs (sp s)) ;;
          l <- cdiv i (nchs (sp s)) ;;
          set_avail (bf ch_bits c) (bf lun_bits l) avail ;;
          rq <- req_at (rp_req rp) ;;
          add_serv i (Z.quot busy 1000) ;;
          ret (u64 (avail - stime rq))
      | None => ret curlat
      end)
    (λ _, timed i (match lat_of (sp s) (cmd_type rp) with
                   | Some lat => Some (u64 (now + u32 (pl_ops * lat))) | None => None end) s) s.
Proof.
  intros Hd Hi [rq Hrq]. destruct (lat_of (sp s) (cmd_type rp)) as [lat|].
  2: { wp_step. split; [done|]. split; done. }
  cbv zeta. apply wp_set_die; [done|done|]. intros s1 (Hd1 & [chs ->] & Hav & Hoth).
  wp_step. eapply wp_req_at; [done|]. wp_step. apply wp_add_serv; [done|done|].
  intros st Hst. wp_step. split; [done|]. split; [|split; [exact Hav|exact Hoth]].
  destruct Hd1 as [? ? ? ? ? ? ? ? _]. split; done.
Qed.

Lemma wp_serve p i now t l s curlat :
  dev_ok s → txn_inv s (t :: l) → 0 ≤ i < tt_luns (sp s) →
  (∃ ts, ts_store s !! t = Some ts ∧ die_idx ts = i) →
  wp (serve p i now t curlat) (λ _, serve_post p i now t l s) s.
Proof.
  intros Hd Hinv Hi (ts & Hts & Hdie).
  destruct (ti_owner _ _ Hinv t) as (r & rp & Ho & Hr); [set_solver|].
  unfold owner in Ho. rewrite Hts in Ho. cbn in Ho.
  pose proof (rp_req_ok _ _ _ _ (ti_rp _ _ Hinv _ _ Hr)) as Hreq.
  assert (dev_ok (set_last_time now s)) as Hd1 by by apply (dev_ok_ext s).
  unfold serve. do 5 wp_step. eapply wp_ts_at; [done|]. wp_step.
  apply wp_assert; [by apply Z.eqb_eq|]. wp_step.
  pose proof (u32_range (pl_idx ts + ops_num ts - 1)) as Hu. pose proof (do_pls _ Hd).
  apply wp_cdiv; [lia|done|]. rewrite <-Z.quot_div_nonneg by (cbn; lia).
  wp_step. eapply wp_load; [done|]. wp_step. eapply wp_rp_at; [done|]. wp_step.
  eapply wp_mono; [apply wp_serve_time; [done|done|done]|].
  intros curlat' s2 (Hq & Hd2 & Hav & Hoth). cbn beta in *.
  destruct Hq as (Q1 & Q2 & Q3 & Q4 & Q5 & Q6 & Q7 & Q8). wp_step.
  eapply (wp_mono _ (λ _ s3, quiet s2 s3 ∧ ch s3 = ch s2 ∧ dev_ok s3)).
  { unfold add_ops. wp_step; [wp_step|]; (split; [done|]; split; [done|]); [|done].
    by apply (dev_ok_ext s2). }
  intros [] s3 ((P1 & P2 & P3 & P4 & P5 & P6 & P7 & P8) & Hch3 & Hd3). wp_step.
  assert (txn_inv s3 (t :: l)) as Hinv3.
  { apply (txn_inv_ext s); [by rewrite P5, Q5|by rewrite P6, Q6|by rewrite P7, Q7|done]. }
  eapply wp_mono; [by apply wp_release_ts|].
  intros [] s4 (Hinv4 & (D1 & D2 & D3 & D4 & D5 & D6 & _) & Hts4 & Hdom4 & r' & rp' & Ho' & Hr' & Hcomp).
  wp_step. unfold owner in Ho'. rewrite P5, Q5 in Ho'. cbn in Ho'. rewrite Hts in Ho'. cbn in Ho'.
  rewrite Ho in Ho'. injection Ho' as <-. rewrite P6, Q6 in Hr'. cbn in Hr'. rewrite Hr in Hr'.
  injection Hr' as <-.
  assert (∀ j, die_avail s4 j = die_avail s2 j) as Hav4.
  { intros j. unfold die_avail. by rewrite D1, D2, P1, Hch3. }
  split_and!.
  - done.
  - apply (dev_ok_ext s3); [done|done|by rewrite D6|done].
  - by rewrite D1, P1, Q1.
  - by rewrite D4, P2, Q2.
  - by rewrite D3, P3, Q3.
  - by rewrite Hts4, P5, Q5.
  - by rewrite Hdom4, P7, Q7.
  - by rewrite D5, P4, Q4.
  - intros j Hj Hne. rewrite Hav4. by apply Hoth.
  - exists ts, r, rp. split_and!; [done|done|done| |].
    + rewrite Hav4, Hav. unfold service_time. cbn [sp set_last_time].
      by destruct (lat_of (sp s) (cmd_type rp)).
    + destruct Hcomp as [He Hc]. split; [by rewrite He, P8, Q8|].
      unfold outstanding in *. rewrite P6, Q6 in Hc. done.
Qed.

(** ** One die *)

Definition is_idle (clock : Z → Z) (s : zns_ssd) (i : Z) : bool :=
  match die_avail s i with Some a => a <=? clock i | None => false end.

(** The queue of a die after its turn. *)
Definition after_turn (idle : bool) (q : list nat) : list nat := if idle then tail q else q.

(** Die [i] has had its turn. *)
Definition turn_post (clock : Z → Z) (p : Z) (i : nat) (q : list nat) (s : zns_ssd)
    (qs : list (list nat)) (s' : zns_ssd) : Prop :=
  io_inv s' (<[i := after_turn (is_idle clock s (Z.of_nat i)) q]> qs) ∧
  sp s' = sp s ∧ dymap s' = dymap s ∧ start_up_flag s' = start_up_flag s ∧
  dom (req_store s') = dom (req_store s) ∧
  (∀ j, 0 ≤ j < tt_luns (sp s) → j ≠ Z.of_nat i → die_avail s' j = die_avail s j) ∧
  ∃ done, completes p done s s'.

Lemma concat_delete_head (qs : list (list nat)) i t q :
  qs !! i = Some (t :: q) → concat qs ≡ₚ t :: concat (<[i := q]> qs).
Proof.
  intros Hi. destruct (concat_insert qs i _ q Hi) as (R & -> & ->). done.
Qed.

Lemma elem_of_concat (qs : list (list nat)) j q t : qs !! j = Some q → t ∈ q → t ∈ concat qs.
Proof. intros Hj Ht. destruct (concat_insert qs j _ [] Hj) as (R & -> & _). set_solver. Qed.

Lemma turn_nothing clock p i q s qs s' :
  io_inv s qs → qs !! i = Some q → after_turn (is_idle clock s (Z.of_nat i)) q = q →
  quiet s s' → ch s' = ch s → stats s' = stats s → turn_post clock p i q s qs s'.
Proof.
  intros [Hd [Hrep Hlen Hdie] Ht] Hq Hsame (Q1 & Q2 & Q3 & Q4 & Q5 & Q6 & Q7 & Q8) Hch Hst.
  unfold turn_post. rewrite Hsame, list_insert_id by done. split_and!; [|done|done|done|by rewrite Q7| |].
  - split.
    + apply (dev_ok_ext s); [done|done|by rewrite Hst|done].
    + split; [by rewrite Q3|by rewrite Q1|]. intros j q' t Hj Hin. rewrite Q5. by eapply Hdie.
    + by apply (txn_inv_ext s).
  - intros j _ _. unfold die_avail. by rewrite Q1, Hch.
  - exists []. by apply completes_refl.
Qed.

Lemma wp_process_die clock p (i : nat) curlat s qs q :
  io_inv s qs → qs !! i = Some q →
  wp (process_die clock p (Z.of_nat i) curlat) (λ _, turn_post clock p i q s qs) s.
Proof.
  intros Hio Hq. pose proof Hio as [Hd [Hrep Hlen Hdie] Ht].
  pose proof (lookup_lt_Some _ _ _ Hq) as Hlt.
  assert (0 ≤ Z.of_nat i < tt_luns (sp s)) as Hi by lia.
  unfold process_die. do 2 wp_step. apply wp_get_die; [done|done|]. intros l Hl.
  assert (is_idle clock s (Z.of_nat i) = (next_lun_avail_time l <=? clock (Z.of_nat i))) as Hidle
    by (unfold is_idle; by rewrite Hl).
  cbv zeta. rewrite <-Hidle. destruct (is_idle clock s (Z.of_nat i)) eqn:Hid.
  2: { wp_step. apply turn_nothing; try done. by rewrite Hid. }
  wp_step. unfold pop. wp_step. wp_step; [apply Z.leb_le; lia|]. do 3 wp_step. rewrite Nat2Z.id.
  destruct q as [|t q].
  - eapply wp_load; [by eapply dq_delete_nil|]. cbn [fst snd]. do 3 wp_step. do 2 wp_step.
    wp_step. eapply (wp_mono _ (λ _ s', s' = s ∨ s' = set_last_time (clock (Z.of_nat i)) s)).
    { assert (set_queues_of (queues_of s) s = s) as -> by by destruct s.
      wp_step; [wp_step; by right|by left]. }
    intros [] s' Hs'. wp_step. apply turn_nothing; [done|done|by rewrite Hid|..];
      by destruct Hs' as [-> | ->].
  - destruct (dq_delete_cons _ _ _ _ _ Hrep Hq) as (dq' & Hdel & Hrep').
    eapply wp_load; [done|]. cbn [fst snd]. do 3 wp_step.
    assert (txn_inv (set_queues_of dq' s) (t :: concat (<[i := q]> qs))) as Ht'.
    { apply (txn_inv_ext s); [done..|]. apply (txn_inv_perm _ (concat qs)); [|done].
      by apply concat_delete_head. }
    destruct (Hdie _ _ t Hq) as (ts & Hts & Hdi); [set_solver|].
    eapply wp_mono; [apply wp_serve; [by apply (dev_ok_ext s)|done|done|by exists ts]|].
    intros ? s' (Hinv' & Hd' & Hsp & Hdm & Hqs & Hts' & Hdom & Hfl & Hoth & ts1 & r & rp & _ & _ & _ & _ & Hc).
    unfold turn_post. rewrite Hid. cbn [after_turn tail]. split_and!; [|done|done|done|done|done|].
    + split; [done| |done]. split; [by rewrite Hqs|by rewrite length_insert, Hsp|].
      intros j q' t' Hj Hin. rewrite Hts'. cbn [ts_store set_queues_of].
      assert (t' ∈ concat (<[i := q]> qs)) as Hin' by by eapply elem_of_concat.
      pose proof (proj1 (NoDup_cons _ _) (ti_nodup _ _ Ht')) as [Hnt _].
      rewrite lookup_delete_ne by (by intros ->).
      destruct (decide (j = i)) as [->|Hne].
      * rewrite list_lookup_insert_eq in Hj by done. injection Hj as <-.
        apply (Hdie _ _ _ Hq). set_solver.
      * rewrite list_lookup_insert_ne in Hj by done. by eapply Hdie.
    + eauto.
Qed.

(** ** All dies *)

(** Dies [i], ..., [i + k - 1] have had their turn. *)
Definition turns_post (clock : Z → Z) (p : Z) (i k : nat) (s : zns_ssd) (qs : list (list nat))
    (s' : zns_ssd) : Prop :=
  ∃ qs' done, io_inv s' qs' ∧ sp s' = sp s ∧ dymap s' = dymap s ∧
    start_up_flag s' = start_up_flag s ∧ dom (req_store s') = dom (req_store s) ∧
    completes p done s s' ∧
    (∀ j q, qs !! j = Some q → qs' !! j = Some
      (if bool_decide (i ≤ j < i + k)%nat then after_turn (is_idle clock s (Z.of_nat j)) q else q)).

Lemma wp_process_from clock p k i curlat s qs :
  io_inv s qs → (i + k ≤ length qs)%nat →
  wp (process_from clock p k (Z.of_nat i) curlat) (λ _, turns_post clock p i k s qs) s.
Proof.
  revert i curlat s qs. induction k as [|k IH]; intros i curlat s qs Hio Hk; cbn [process_from].
  - wp_step. exists qs, []. split_and!; try done; [by apply completes_refl|].
    intros j q Hj. rewrite bool_decide_eq_false_2 by lia. done.
  - destruct (lookup_lt_is_Some_2 qs i) as [q Hq]; [lia|]. wp_step.
    eapply wp_mono; [by apply wp_process_die|].
    intros curlat' s1 (Hio1 & Hsp1 & Hdm1 & Hfl1 & Hdom1 & Hav1 & d1 & Hc1). cbn beta.
    replace (Z.of_nat i + 1) with (Z.of_nat (S i)) by lia.
    eapply wp_mono; [apply (IH (S i)); [done|rewrite length_insert; lia]|].
    intros ? s2 (qs2 & d2 & Hio2 & Hsp2 & Hdm2 & Hfl2 & Hdom2 & Hc2 & Hq2).
    exists qs2, (d1 ++ d2). split_and!; [done|congruence|congruence|congruence|congruence| |].
    { by eapply completes_trans. }
    pose proof (qi_length _ _ (io_queue _ _ Hio)) as Hlen.
    intros j q' Hj. pose proof (lookup_lt_Some _ _ _ Hj) as Hjl.
    destruct (decide (j = i)) as [->|Hne].
    + rewrite Hq in Hj. injection Hj as <-. rewrite bool_decide_eq_true_2 by lia.
      rewrite (Hq2 i (after_turn (is_idle clock s (Z.of_nat i)) q)).
      * by rewrite bool_decide_eq_false_2 by lia.
      * by rewrite list_lookup_insert_eq by lia.
    + rewrite (Hq2 j q') by by rewrite list_lookup_insert_ne.
      assert (is_idle clock s1 (Z.of_nat j) = is_idle clock s (Z.of_nat j)) as ->
        by (unfold is_idle; rewrite Hav1 by lia; done).
      f_equal. assert (S i ≤ j < S i + k ↔ i ≤ j < i + S k)%nat as Hiff by lia.
      by rewrite (bool_decide_ext _ _ Hiff).
Qed.

(** One call of [zns_process_die_queue]. *)
Definition round_post (clock : Z → Z) (p : Z) (s : zns_ssd) (qs : list (list nat)) (s' : zns_ssd) : Prop :=
  ∃ qs' done, io_inv s' qs' ∧ sp s' = sp s ∧ dymap s' = dymap s ∧
    start_up_flag s' = start_up_flag s ∧ dom (req_store s') = dom (req_store s) ∧
    completes p done s s' ∧
    qs' = imap (λ j q, after_turn (is_idle clock s (Z.of_nat j)) q) qs.

Lemma wp_process_die_queue clock p s qs :
  io_inv s qs → wp (zns_process_die_queue clock p) (λ _, round_post clock p s qs) s.
Proof.
  intros Hio. pose proof (qi_length _ _ (io_queue _ _ Hio)) as Hlen.
  unfold zns_process_die_queue. do 2 wp_step. rewrite <-Hlen, Nat2Z.id.
  eapply wp_mono; [apply (wp_process_from _ _ _ 0%nat); [done|lia]|].
  intros ? s' (qs' & done & Hio' & Hsp & Hdm & Hfl & Hdom & Hc & Hq). exists qs', done.
  split_and!; try done. apply list_eq_same_length with (length qs).
  - apply length_imap.
  - pose proof (qi_length _ _ (io_queue _ _ Hio')). rewrite Hsp in *. lia.
  - intros j x y Hj Hx Hy. rewrite list_lookup_imap in Hy.
    destruct (qs !! j) as [q|] eqn:Hqj; [|done]. cbn in Hy. injection Hy as <-.
    rewrite (Hq _ _ Hqj), bool_decide_eq_true_2 in Hx by lia. by injection Hx.
Qed.
End serve.
