(* ===== verification/FtlIssue.v ===== *)
(** * Issuing transactions

    Adding a request with its transactions keeps the stores and the queues consistent
    ([txn_inv_add], [io_add]); the specifications of the loops of [zone_reset] and
    [zone_rw] that create the transactions. *)

From stdpp Require Import base numbers option list list_numbers gmap.
From S2P Require Import Prelude ZnsTypes FtlList FtlTypes FtlMap FtlOps FtlAlloc FtlMapInv FtlOpen FtlAddr FtlTxn FtlServe.

(** ** Pushing a list of transactions *)

Fixpoint push_all (qs : list (list nat)) (l : list (nat * nat)) : list (list nat) :=
  match l with
  | [] => qs
  | (i, t) :: l' => push_all (alter (λ q, q ++ [t]) i qs) l'
  end.

Lemma push_all_length qs l : length (push_all qs l) = length qs.
Proof. revert qs. induction l as [|[i t] l IH]; intros qs; simpl; [done|]. by rewrite IH, length_alter. Qed.

Lemma alter_as_insert {A} (f : A → A) (l : list A) i x :
  l !! i = Some x → alter f i l = <[i := f x]> l.
Proof. revert i. induction l as [|a l IH]; intros [|i] Hx; simplify_eq/=; [done|]. f_equal. by apply IH. Qed.

Lemma push_one_concat (qs : list (list nat)) i t :
  (i < length qs)%nat → concat (alter (λ q, q ++ [t]) i qs) ≡ₚ t :: concat qs.
Proof.
  intros [q Hq]%lookup_lt_is_Some_2. rewrite (alter_as_insert _ _ _ _ Hq).
  destruct (concat_insert qs i q (q ++ [t]) Hq) as (R & -> & ->). solve_Permutation.
Qed.

Lemma push_all_concat qs l :
  Forall (λ x, (x.1 < length qs)%nat) l → concat (push_all qs l) ≡ₚ l.*2 ++ concat qs.
Proof.
  revert qs. induction l as [|[i t] l IH]; intros qs Hl; cbn [push_all fmap list_fmap]; [done|].
  apply Forall_cons in Hl as [Hi Hl]. cbn in Hi. rewrite IH by by rewrite length_alter.
  rewrite push_one_concat by done. cbn. solve_Permutation.
Qed.

Lemma push_all_lookup qs l i q t :
  push_all qs l !! i = Some q → t ∈ q →
  (∃ q0, qs !! i = Some q0 ∧ t ∈ q0) ∨ (i, t) ∈ l.
Proof.
  revert qs. induction l as [|[j x] l IH]; intros qs; simpl; [eauto|].
  intros Hq Ht. destruct (IH _ Hq Ht) as [(q0 & Hq0 & Ht0)|Hin]; [|right; set_solver].
  destruct (decide (i = j)) as [->|Hne].
  - rewrite list_lookup_alter_eq in Hq0. destruct (qs !! j) as [q1|] eqn:E; [|done].
    cbn in Hq0. injection Hq0 as <-. apply elem_of_app in Ht0 as [Ht0|Ht0]; [eauto|].
    apply list_elem_of_singleton in Ht0 as ->. right. set_solver.
  - rewrite list_lookup_alter_ne in Hq0 by done. eauto.
Qed.

Section issue.
Context {Q : DieQueue nat} {HQ : DieQueueOk Q} {B : PpaBits} {M : Malloc} {HM : MallocOk M}.
Implicit Types s : zns_ssd.

Lemma wp_push s qs (i : nat) t Q0 :
  dq_rep (queues_of s) qs → (i < length qs)%nat →
  (∀ q', dq_rep q' (alter (λ q, q ++ [t]) i qs) → Q0 tt (set_queues_of q' s)) →
  wp (push (Z.of_nat i) t) Q0 s.
Proof.
  intros Hrep [q Hq]%lookup_lt_is_Some_2 HQ0. destruct (dq_insert_ok _ _ _ _ t Hrep Hq) as (q' & Hins & Hrep').
  unfold push. wp_step. wp_step; [apply Z.leb_le; lia|]. do 3 wp_step. rewrite Nat2Z.id.
  eapply wp_load; [done|]. wp_step. apply HQ0. by rewrite (alter_as_insert _ _ _ _ Hq).
Qed.

(** ** A new request *)

(** [s'] is [s] with the request [rp] under the new key [r] and its transactions [ids]. *)
Record added (s : zns_ssd) (r : nat) (rp : NvmeRequestPlus_t) (ids : list nat) (s' : zns_ssd) : Prop := {
  ad_nodup : NoDup ids;
  ad_fresh t : t ∈ ids → ts_store s !! t = None;
  ad_old t : t ∉ ids → ts_store s' !! t = ts_store s !! t;
  ad_new t : t ∈ ids → ∃ ts, ts_store s' !! t = Some ts ∧ req_plus ts = Some r;
  ad_rp : rp_store s' = <[r := rp]> (rp_store s);
  ad_rp_fresh : rp_store s !! r = None;
  ad_reqs : req_store s' = req_store s;
  ad_count : ts_num rp = Z.of_nat (length ids) ∧ ts_sum rp = ts_num rp ∧ 0 < ts_num rp < 2 ^ 32;
  ad_array : flash_ts rp = Some <$> ids;
  ad_req : is_Some (req_store s !! rp_req rp)
}.

Lemma of_rp_app s r l1 l2 : of_rp s r (l1 ++ l2) = of_rp s r l1 ++ of_rp s r l2.
Proof. unfold of_rp. by rewrite filter_app. Qed.

Lemma of_rp_all s r l : (∀ t, t ∈ l → owner s t = Some r) → of_rp s r l = l.
Proof.
  unfold of_rp. induction l as [|t l IH]; intros H; [done|].
  rewrite filter_cons, decide_True by (apply H; set_solver). f_equal. apply IH. set_solver.
Qed.

Lemma of_rp_none s r l : (∀ t, t ∈ l → owner s t ≠ Some r) → of_rp s r l = [].
Proof.
  unfold of_rp. induction l as [|t l IH]; intros H; [done|].
  rewrite filter_cons, decide_False by (apply H; set_solver). apply IH. set_solver.
Qed.

Lemma txn_inv_add s r rp ids s' l :
  txn_inv s l → added s r rp ids s' → txn_inv s' (ids ++ l).
Proof.
  intros [Hnd Hdom Hown Hrps] [Ad1 Ad2 Ad3 Ad4 Ad5 Ad6 Ad7 (Hn & Hs & Hp) Ad9 Ad10].
  assert (∀ t, t ∈ l → t ∉ ids) as Hdisj.
  { intros t Hl Hi. apply Hdom in Hl as [? Hl]. rewrite (Ad2 _ Hi) in Hl. done. }
  assert (∀ t, t ∈ ids → owner s' t = Some r) as Hnew.
  { intros t Ht. destruct (Ad4 _ Ht) as (ts & Hts & Hr). unfold owner. by rewrite Hts. }
  assert (∀ t, t ∈ l → owner s' t = owner s t) as Hold.
  { intros t Ht. unfold owner. rewrite Ad3; [done|by apply Hdisj]. }
  split.
  - apply NoDup_app. split; [done|]. split; [|done]. intros t Hi Hl. by apply (Hdisj t).
  - intros t. destruct (decide (t ∈ ids)) as [Hi|Hi].
    + destruct (Ad4 _ Hi) as (ts & Hts & _). rewrite Hts. set_solver.
    + rewrite Ad3, Hdom by done. set_solver.
  - intros t [Hi|Hl]%elem_of_app.
    + exists r, rp. rewrite Hnew by done. by rewrite Ad5, lookup_insert_eq.
    + destruct (Hown _ Hl) as (r' & rp' & Ho & Hr'). exists r', rp'. rewrite Hold by done.
      split; [done|]. rewrite Ad5, lookup_insert_ne; [done|]. congruence.
  - intros r' rp' Hr'. rewrite Ad5 in Hr'. destruct (decide (r' = r)) as [->|Hne].
    + rewrite lookup_insert_eq in Hr'. injection Hr' as <-.
      assert (of_rp s' r (ids ++ l) = ids) as Hof.
      { rewrite of_rp_app, of_rp_all, of_rp_none by
          (try done; intros t Ht; rewrite Hold by done;
           destruct (Hown _ Ht) as (r'' & rp'' & -> & ?); congruence).
        apply app_nil_r. }
      split; rewrite ?Hof, ?Ad7; try done.
      * rewrite Ad9, length_fmap. lia.
      * intros t Ht. rewrite Ad9. by apply list_elem_of_fmap_2.
    + rewrite lookup_insert_ne in Hr' by done. destruct (Hrps _ _ Hr') as [G1 G2 G3 G4 G5].
      assert (of_rp s' r' (ids ++ l) = of_rp s r' l) as Hof.
      { rewrite of_rp_app, of_rp_none by (intros t Ht; rewrite Hnew by done; congruence).
        cbn. by apply of_rp_ext. }
      split; rewrite ?Hof, ?Ad7; done.
Qed.

(** What issuing leaves alone. *)
Definition issuing (s s' : zns_ssd) : Prop :=
  sp s' = sp s ∧ ch s' = ch s ∧ dymap s' = dymap s ∧ start_up_flag s' = start_up_flag s ∧
  stats s' = stats s ∧ req_store s' = req_store s ∧ req_sum s' = req_sum s ∧
  enqueued s' = enqueued s.

Lemma issuing_trans s1 s2 s3 : issuing s1 s2 → issuing s2 s3 → issuing s1 s3.
Proof. unfold issuing. intuition congruence. Qed.

Lemma wp_ts_new x s Q0 :
  (∀ t, ts_store s !! t = None → Q0 t (set_ts_store (<[t := x]> (ts_store s)) s)) → wp (ts_new x) Q0 s.
Proof.
  intros HQ0. unfold ts_new, ts_put. do 4 wp_step. wp_step. apply HQ0.
  apply not_elem_of_dom. apply new_ts_fresh.
Qed.

Lemma wp_rp_new x s Q0 :
  (∀ r, rp_store s !! r = None → Q0 r (set_rp_store (<[r := x]> (rp_store s)) s)) → wp (rp_new x) Q0 s.
Proof.
  intros HQ0. unfold rp_new, rp_put. do 4 wp_step. wp_step. apply HQ0.
  apply not_elem_of_dom. apply new_rp_fresh.
Qed.

(** ** The transactions of a reset *)

Definition rp_set_array (l : list (option nat)) (rp : NvmeRequestPlus_t) : NvmeRequestPlus_t :=
  mk_req_plus (rp_req rp) l (ts_num rp) (ts_sum rp) (maxlat rp) (cmd_type rp).

Definition erase_txn (spp : ssdparams) (r : nat) (z : Z) (j : nat) : flash_ts_t :=
  mk_ts (Some r) z (pls_per_lun spp) (Z.of_nat j) 0 None None.

(** New transactions [ids], for the dies from [j] on, on the queues and in the array. *)
Record erased (r : nat) (z : Z) (j : nat) (rp : NvmeRequestPlus_t) (ids0 ids : list nat)
    (s : zns_ssd) (qs : list (list nat)) (s' : zns_ssd) : Prop := {
  er_nodup : NoDup ids;
  er_fresh t : t ∈ ids → ts_store s !! t = None;
  er_old t : t ∉ ids → ts_store s' !! t = ts_store s !! t;
  er_new x t : ids !! x = Some t → ts_store s' !! t = Some (erase_txn (sp s) r z (j + x));
  er_rp : rp_store s' = <[r := rp_set_array (Some <$> (ids0 ++ ids)) rp]> (rp_store s);
  er_queues : dq_rep (queues_of s') (push_all qs (zip (seq j (length ids)) ids));
  er_frame : issuing s s'
}.

Lemma wp_erase_ts k r z i j s qs rp ids0 :
  dq_rep (queues_of s) qs → Z.of_nat (length qs) = tt_luns (sp s) → tt_luns (sp s) < 2 ^ 31 →
  rp_store s !! r = Some rp → flash_ts rp = (Some <$> ids0) ++ replicate k None →
  i = length ids0 → (j + k ≤ length qs)%nat →
  wp (erase_ts k r z (Z.of_nat i) (Z.of_nat j))
    (λ _ s', ∃ ids, length ids = k ∧ erased r z j rp ids0 ids s qs s') s.
Proof.
  revert i j s qs rp ids0.
  induction k as [|k IH]; intros i j s qs rp ids0 Hrep Hlen Hmax Hrp Harr -> Hj; cbn [erase_ts].
  { wp_step. exists []. split; [done|]. split; try done; [constructor|by intros ? ?%elem_of_nil|].
    rewrite app_nil_r. cbn in Harr. rewrite app_nil_r in Harr. rewrite insert_id; [done|].
    rewrite Hrp, <-Harr. by destruct rp. }
  do 3 wp_step. apply wp_ts_new. intros t Ht. wp_step. eapply wp_rp_at; [done|]. wp_step.
  eapply wp_load.
  { apply (aset_Some _ _ None). rewrite Harr, aget_nat, lookup_app_r by (rewrite length_fmap; lia).
    by rewrite length_fmap, Nat.sub_diag. }
  unfold rp_put. do 2 wp_step. rewrite u32_small by lia. wp_step.
  apply wp_assert; [apply Z.leb_le; cbn; lia|]. wp_step.
  eapply wp_push; [done|lia|]. intros q' Hrep'. rewrite Nat2Z.id.
  replace (Z.of_nat (length ids0) + 1) with (Z.of_nat (S (length ids0))) by lia.
  replace (Z.of_nat j + 1) with (Z.of_nat (S j)) by lia.
  set (s1 := set_queues_of q' _).
  eapply wp_mono; [apply (IH _ (S j) s1 (alter (λ q, q ++ [t]) j qs) (rp_set_array ((Some <$> (ids0 ++ [t])) ++ replicate k None) rp)
    (ids0 ++ [t])); cbn|].
  - done.
  - by rewrite length_alter.
  - done.
  - rewrite lookup_insert_eq, Harr. unfold rp_set_array. do 2 f_equal.
    rewrite fmap_app, <-app_assoc. rewrite insert_app_r_alt by (rewrite length_fmap; lia).
    by rewrite length_fmap, Nat.sub_diag.
  - done.
  - rewrite length_app. cbn. lia.
  - rewrite length_alter. lia.
  - intros [] s' (ids & Hl & [E1 E2 E3 E4 E5 E6 E7]). exists (t :: ids).
    cbn [ts_store rp_store set_queues_of set_rp_store set_ts_store s1 sp queues_of] in *.
    assert (t ∉ ids) as Hti. { intros Hin. specialize (E2 _ Hin). by rewrite lookup_insert_eq in E2. }
    split; [by cbn; rewrite Hl|]. split.
    + by apply NoDup_cons.
    + intros x [->|Hx]%elem_of_cons; [done|]. specialize (E2 _ Hx).
      rewrite lookup_insert_ne in E2 by (by intros ->). done.
    + intros x [Hne Hx]%not_elem_of_cons. rewrite E3 by done. by rewrite lookup_insert_ne.
    + intros [|x] y Hx; cbn in Hx.
      * injection Hx as <-. rewrite E3, lookup_insert_eq by done. by rewrite Nat.add_0_r.
      * rewrite (E4 _ _ Hx). do 2 f_equal. lia.
    + rewrite E5, insert_insert_eq, <-app_assoc. done.
    + done.
    + exact E7.
Qed.

(** ** The queues with the new transactions *)

Lemma io_add s qs r rp ids l s' :
  io_inv s qs → added s r rp ids s' → issuing s s' → l.*2 = ids →
  dq_rep (queues_of s') (push_all qs l) →
  (∀ i t, (i, t) ∈ l → (i < length qs)%nat ∧
    ∃ ts, ts_store s' !! t = Some ts ∧ die_idx ts = Z.of_nat i) →
  io_inv s' (push_all qs l) ∧ outstanding s' ≡ₚ rp_req rp :: outstanding s.
Proof.
  intros [Hd [Hrep Hlen Hdie] Ht] Had (I1 & I2 & I3 & I4 & I5 & I6 & I7 & I8) Hl Hrep' Hpush.
  split; [split|].
  - apply (dev_ok_ext s); [done|done|by rewrite I5|done].
  - split; [done|by rewrite push_all_length, I1|]. intros i q t Hq Hin.
    destruct (push_all_lookup _ _ _ _ _ Hq Hin) as [(q0 & Hq0 & Hin0)|Hnew]; [|by apply Hpush].
    destruct (Hdie _ _ _ Hq0 Hin0) as (ts & Hts & Hi). exists ts. split; [|done].
    rewrite (ad_old _ _ _ _ _ Had); [done|]. intros Hi'.
    rewrite (ad_fresh _ _ _ _ _ Had _ Hi') in Hts. done.
  - eapply txn_inv_perm; [|by eapply txn_inv_add].
    rewrite push_all_concat; [by rewrite Hl|]. apply Forall_forall. intros [i t] Hx. by apply (Hpush i t).
  - unfold outstanding. rewrite (ad_rp _ _ _ _ _ Had). apply reqs_of_insert.
    apply (ad_rp_fresh _ _ _ _ _ Had).
Qed.
End issue.

(** * Resetting a zone: the erase request, and the FBG given back *)

Section reset.
Context {Q : DieQueue nat} {HQ : DieQueueOk Q} {B : PpaBits} {M : Malloc} {HM : MallocOk M}.
Implicit Types s : zns_ssd.

(** The whole layer: the mapping, the queues, and an array that fits them. *)
Record ftl_inv (n : ftl_ctrl) (s : zns_ssd) (live : gset Z) (opened : list Z)
    (qs : list (list nat)) : Prop := {
  fv_map : map_inv (fc_num_zones n) (dymap s) live opened;
  fv_io : io_inv s qs;
  fv_array : array_ok (sp s) (die_group_sum (dymap s));
  fv_fbgs : fbgs_per_dg (dymap s) = blks_per_pl (sp s)
}.

Lemma wp_in_dymap {A} (c : ST dymap_t A) s Q0 :
  wp c (λ a m, Q0 a (set_dymap m s)) (dymap s) → wp (in_dymap c) Q0 s.
Proof. unfold wp, in_dymap. by destruct (c (dymap s)). Qed.

Lemma set_dymap_id s : set_dymap (dymap s) s = s.
Proof. by destruct s. Qed.

Lemma wp_in_pz_at z pz s Q0 :
  aget (phy_zone (dymap s)) z = Some pz → Q0 pz s → wp (in_dymap (pz_at z)) Q0 s.
Proof. intros Hz HQ0. apply wp_in_dymap. eapply wp_pz_at; [done|]. by rewrite set_dymap_id. Qed.

Lemma wp_in_dg_at g dg s Q0 :
  aget (die_group (dymap s)) g = Some dg → Q0 dg s → wp (in_dymap (dg_at g)) Q0 s.
Proof. intros Hz HQ0. apply wp_in_dymap. eapply wp_dg_at; [done|]. by rewrite set_dymap_id. Qed.

(** A live zone, its FBG and its group. *)
Lemma live_zone N m live z :
  flash_inv N m live → z ∈ live →
  ∃ pz g k dg, aget (phy_zone m) z = Some pz ∧ map_die_group_num pz = 1 ∧
    aget (die_groups pz) 0 = Some g ∧ fbg_ofst pz = k ∧ zone_loc m z = Some (g, k) ∧
    aget (die_group m) g = Some dg ∧ aget (fbgs_used_bitmap dg) k = Some 1 ∧
    group_ok (fbgs_per_dg m) dg ∧ die dg = dies_of g ∧ 0 ≤ g < die_group_sum m ∧
    0 ≤ k < fbgs_per_dg m.
Proof.
  intros Hfi Hl. destruct (fi_live _ _ _ Hfi _ Hl) as (pz & g & k & Hpz & Hn & Hloc & Hu).
  destruct (proj1 (zone_loc_Some _ _ _ _ _ Hpz) Hloc) as [Hg0 Hk].
  unfold fbg_used in Hu. destruct (aget (die_group m) g) as [dg|] eqn:Hdg; [|done].
  cbn [mbind option_bind] in Hu. destruct (fi_groups _ _ _ Hfi _ _ Hdg) as [Hok Hd].
  pose proof (aget_lt _ _ _ Hdg). pose proof (aget_lt _ _ _ Hu). pose proof (go_length _ _ Hok).
  destruct (fi_sum _ _ _ Hfi). exists pz, g, k, dg. split_and!; done || lia.
Qed.

(** What a reset of live zone [z], in FBG [k] of group [g], does. *)
Record reset_post (n : ftl_ctrl) (req : nat) (z g k : Z) (s : zns_ssd) (live : gset Z)
    (opened : list Z) (qs : list (list nat)) (s' : zns_ssd) (ids : list nat) : Prop := {
  rs_inv : ftl_inv n s' (live ∖ {[z]}) opened
    (push_all qs (zip (seq (Z.to_nat (g * ZONE_MAX_DIE_PARA)) (Z.to_nat ZONE_MAX_DIE_PARA)) ids));
  rs_count : Z.of_nat (length ids) = ZONE_MAX_DIE_PARA;
  rs_txn x t : ids !! x = Some t →
    ∃ r, ts_store s' !! t =
      Some (erase_txn (sp s) r z (Z.to_nat (g * ZONE_MAX_DIE_PARA) + x));
  rs_free : fbg_used (dymap s') g k = Some 0;
  rs_req : outstanding s' ≡ₚ req :: outstanding s;
  rs_quiet : enqueued s' = enqueued s ∧ req_store s' = req_store s ∧ sp s' = sp s ∧
    start_up_flag s' = start_up_flag s ∧ req_sum s' = req_sum s
}.

Lemma wp_free_fbg s g k dg fbgs Q0 :
  aget (die_group (dymap s)) g = Some dg → group_ok fbgs dg →
  aget (fbgs_used_bitmap dg) k = Some 1 →
  Q0 tt (set_dymap (freed g k dg (dymap s)) s) →
  wp (in_dymap (fbg_add g k (-1)) ;;
      in_dymap (dg_upd g (λ dg, dg_set_remain (u32 (remain_fbgs_num dg + 1)) dg))) Q0 s.
Proof.
  intros Hdg Hok Hk HQ0. wp_step. apply wp_in_dymap. eapply wp_fbg_add; [done|done|].
  change (u32 (1 + -1)) with 0. apply wp_in_dymap.
  eapply wp_dg_upd; [by eapply aget_insert_eq|]. cbn [die_group dymap set_dymap dm_set_die_group].
  rewrite list_insert_insert_eq. cbn [remain_fbgs_num dg_set_bitmap].
  pose proof (go_remain_bound _ _ (free_of_ok _ _ _ Hok Hk)) as Hb. cbn in Hb.
  pose proof (go_remain_bound _ _ Hok). pose proof (go_fbgs _ _ Hok).
  rewrite u32_small by lia. exact HQ0.
Qed.

Definition erase_rp (req : nat) (l : list (option nat)) : NvmeRequestPlus_t :=
  mk_req_plus req l ZONE_MAX_DIE_PARA ZONE_MAX_DIE_PARA 0 NAND_ERASE.

Lemma erased_added s r req z j ids qs s' :
  rp_store s !! r = None → is_Some (req_store s !! req) →
  Z.of_nat (length ids) = ZONE_MAX_DIE_PARA →
  erased r z j (erase_rp req (replicate 16 None)) [] ids
    (set_rp_store (<[r := erase_rp req (replicate 16 None)]> (rp_store s)) s) qs s' →
  added s r (erase_rp req (Some <$> ids)) ids s'.
Proof.
  intros Hr Hreq Hlen [E1 E2 E3 E4 E5 E6 (_ & _ & _ & _ & _ & I6 & _)]. split; try done.
  - intros t [x Hx]%list_elem_of_lookup_1. rewrite (E4 _ _ Hx). by eexists.
  - rewrite E5. cbn. by rewrite insert_insert_eq.
Qed.

Lemma seq_zip_elem j (ids : list nat) i t :
  (i, t) ∈ zip (seq j (length ids)) ids → ∃ x, i = (j + x)%nat ∧ ids !! x = Some t.
Proof.
  intros [x Hx]%list_elem_of_lookup_1. apply lookup_zip_with_Some in Hx as (i' & t' & [= -> ->] & Hi & Ht).
  apply lookup_seq in Hi as [-> _]. eauto.
Qed.

Lemma wp_zone_reset n s live opened qs req z :
  ftl_inv n s live opened qs → z ∈ live → is_Some (req_store s !! req) →
  wp (zone_reset req z) (λ issued s', issued = true ∧ ∃ g k ids,
    zone_loc (dymap s) z = Some (g, k) ∧ reset_post n req z g k s live opened qs s' ids) s.
Proof.
  intros [[Hfi Ho] Hio Ha Hfb] Hl Hreq.
  destruct (live_zone _ _ _ _ Hfi Hl) as
    (pz & g & k & dg & Hpz & Hn1 & Hg0 & Hk & Hloc & Hdg & Hb & Hok & Hdies & Hg & Hkr).
  pose proof Hio as [Hd [Hrep Hlen Hdie] Ht].
  pose proof (ao_groups _ _ Ha) as [_ Hgr]. pose proof (ao_u32 _ _ Ha) as [Hu32 _].
  unfold zone_reset. wp_step. eapply wp_in_pz_at; [done|]. wp_step. eapply wp_load; [done|].
  wp_step. eapply wp_in_dg_at; [done|]. wp_step. rewrite Hk. eapply wp_load; [done|].
  wp_step. apply wp_assert; [done|]. change (1 - 1 =? 0) with true. cbv iota. rewrite Hn1.
  change (u32 (1 * ZONE_MAX_DIE_PARA)) with 16. change (Z.to_nat 16) with 16%nat. cbv zeta.
  wp_step. apply wp_rp_new. intros r Hr. wp_step. rewrite Hdies.
  eapply wp_load; [apply dies_of_lookup; done|]. rewrite Z.add_0_r. wp_step.
  set (s1 := set_rp_store _ s). set (j := Z.to_nat (g * ZONE_MAX_DIE_PARA)).
  assert (g * ZONE_MAX_DIE_PARA = Z.of_nat j) as Hj
    by (subst j; unfold ZONE_MAX_DIE_PARA in *; lia). rewrite Hj.
  eapply wp_mono.
  { eapply (wp_erase_ts 16 r z 0 j s1 qs _ []); [done|done|done|apply lookup_insert_eq|done|done|].
    unfold ZONE_MAX_DIE_PARA in *. lia. }
  intros [] s2 (ids & Hids & Her). cbn beta.
  assert (Z.of_nat (length ids) = ZONE_MAX_DIE_PARA) as Hcount by (rewrite Hids; done).
  pose proof (erased_added _ _ _ _ _ _ _ _ Hr Hreq Hcount Her) as Had.
  destruct Her as [E1 E2 E3 E4 E5 E6 E7].
  assert (issuing s s2) as Hiss by exact E7. rewrite Hids in E6.
  destruct (io_add _ _ _ _ _ (zip (seq j 16) ids) _ Hio Had Hiss) as [Hio2 Hout].
  { apply snd_zip. by rewrite length_seq, Hids. }
  { done. }
  { intros i t Hin. rewrite <-Hids in Hin. apply seq_zip_elem in Hin as (x & -> & Hx).
    pose proof (lookup_lt_Some _ _ _ Hx). unfold ZONE_MAX_DIE_PARA in *. split; [lia|].
    rewrite (E4 _ _ Hx). by eexists. }
  pose proof Hiss as (I1 & I2 & I3 & I4 & I5 & I6 & I7 & I8).
  wp_step. unfold for_range. change (Z.to_nat (1 - 0)) with 1%nat. cbn [for_up].
  do 2 wp_step. eapply wp_load; [done|].
  eapply wp_free_fbg; [by rewrite I3|done|done|]. do 2 wp_step. split; [done|].
  exists g, k, ids. split; [done|]. rewrite I3.
  assert (map_inv (fc_num_zones n) (freed g k dg (dymap s)) (live ∖ {[z]}) opened) as Hmi.
  { split; [by apply freed_inv|by apply open_inv_freed]. }
  split; cbn; rewrite ?I1; try done.
  - split; cbn; rewrite ?I1; [done| |done|done].
    destruct Hio2 as [D [R1 R2 R3] T]. split; [by apply (dev_ok_ext s2)|by split|by apply (txn_inv_ext s2)].
  - intros x t Hx. exists r. by apply E4.
  - by apply freed_used_eq.
Qed.
End reset.
