(* ===== verification/FtlRw.v ===== *)
(** * Reads and writes: how [zone_rw] splits a request

    Only whole pages are transferred: a request for the blocks [w, w + nlb) of a zone
    accounts for the pages whose first block it contains.  They are dealt to at most
    [ZONE_MAX_DIE_PARA] transactions, one for each die. *)

From stdpp Require Import base numbers option list list_numbers gmap.
From S2P Require Import Prelude ZnsTypes FtlList FtlTypes FtlMap FtlOps FtlAlloc FtlMapInv FtlOpen FtlAddr FtlTxn FtlServe FtlIssue.

(** ** Dealing [y] pages to [n] transactions *)

(** The share of transaction [x]. *)
Definition share (n y x : nat) : nat := y / n + (if (x <? y mod n)%nat then 1 else 0).

Lemma share_0 n x : share n 0 x = 0%nat.
Proof. unfold share. destruct n; [done|]. rewrite Nat.Div0.div_0_l, Nat.Div0.mod_0_l. done. Qed.

Lemma share_S n y x :
  (x < n)%nat → share n (S y) x = (share n y x + (if (x =? y mod n)%nat then 1 else 0))%nat.
Proof.
  intros Hx. unfold share. pose proof (Nat.div_mod_eq y n) as Hy.
  pose proof (Nat.mod_upper_bound y n) as Hm.
  destruct (decide (S (y mod n) = n)) as [He|He].
  - assert (S y / n = S (y / n) ∧ S y mod n = 0)%nat as [-> ->].
    { split; [symmetry; apply (Nat.div_unique _ _ _ 0%nat); lia|].
      symmetry. apply (Nat.mod_unique _ _ (S (y / n))); lia. }
    destruct (Nat.ltb_spec x (y mod n)), (Nat.eqb_spec x (y mod n)); simpl; lia.
  - assert (S y / n = y / n ∧ S y mod n = S (y mod n))%nat as [-> ->].
    { split; [symmetry; apply (Nat.div_unique _ _ _ (S (y mod n))); lia|].
      symmetry. apply (Nat.mod_unique _ _ (y / n)); lia. }
    destruct (Nat.ltb_spec x (y mod n)), (Nat.eqb_spec x (y mod n)),
      (Nat.ltb_spec x (S (y mod n))); lia.
Qed.

(** Nothing is lost. *)
Lemma share_total n y : (0 < n)%nat → sum_list (share n y <$> seq 0 n) = y.
Proof.
  intros Hn. induction y as [|y IH].
  - induction (seq 0 n) as [|a l IHl]; [done|]. cbn [fmap list_fmap sum_list sum_list_with].
    rewrite share_0. exact IHl.
  - assert (∀ l, (∀ x, x ∈ l → x < n)%nat → NoDup l →
      sum_list (share n (S y) <$> l) =
      sum_list (share n y <$> l) + (if decide (y mod n ∈ l) then 1 else 0))%nat as Hgen.
    { induction l as [|a l IHl]; intros Hl Hnd; [done|]. apply NoDup_cons in Hnd as [Ha Hnd].
      cbn [fmap list_fmap sum_list sum_list_with id]. rewrite IHl by (try done; set_solver).
      rewrite share_S by (apply Hl; set_solver).
      destruct (Nat.eqb_spec a (y mod n)) as [->|Hne].
      - rewrite decide_False by done. rewrite decide_True by set_solver. unfold id. lia.
      - rewrite (decide_ext (y mod n ∈ a :: l)%nat (y mod n ∈ l)%nat) by set_solver. unfold id. lia. }
    rewrite Hgen, IH; [|intros x Hx%elem_of_seq; lia|apply NoDup_seq].
    rewrite decide_True; [lia|]. apply elem_of_seq. pose proof (Nat.mod_upper_bound y n). lia.
Qed.

Lemma share_pos n y x : (x < n)%nat → (x < y)%nat → (0 < share n y x)%nat.
Proof.
  intros Hx Hy. unfold share. destruct (decide (y < n)%nat) as [Hlt|Hge].
  - rewrite Nat.div_small, Nat.mod_small by done.
    destruct (Nat.ltb_spec x y); lia.
  - pose proof (Nat.div_le_lower_bound y n 1). lia.
Qed.

Section rw.
Context {Q : DieQueue nat} {HQ : DieQueueOk Q} {B : PpaBits} {M : Malloc} {HM : MallocOk M}.
Implicit Types s : zns_ssd.

(** ** The transactions of a request *)

(** Transaction [x] of [n], when [y] pages from page [p0] on, of FBGs of group [g], have
    been dealt. *)
Definition rw_txn (rp : option nat) (z g p0 : Z) (n y x : nat) : flash_ts_t :=
  mk_ts rp z (Z.of_nat (share n y x))
    (if (x <? y)%nat then page_die g (p0 + Z.of_nat x) else 0) 0 (Some 0) (Some 0xff).

(** The store holds the transactions [ids] as [f] says, and is [st0] elsewhere. *)
Definition holds (ids : list nat) (f : nat → flash_ts_t) (st0 st : gmap nat flash_ts_t) : Prop :=
  (∀ x t, ids !! x = Some t → st !! t = Some (f x)) ∧ (∀ t, t ∉ ids → st !! t = st0 !! t).

Lemma wp_new_tss k s :
  wp (new_tss k) (λ ids s', length ids = k ∧ NoDup ids ∧
    (∀ t, t ∈ ids → ts_store s !! t = None) ∧ ∃ st, s' = set_ts_store st s ∧
    holds ids (λ _, mk_ts None 0 0 0 0 (Some 0) (Some 0xff)) (ts_store s) st) s.
Proof.
  revert s. induction k as [|k IH]; intros s; cbn [new_tss].
  { wp_step. split_and!; [done|constructor|by intros t ?%elem_of_nil|].
    exists (ts_store s). split; [by destruct s|]. split; [done|done]. }
  wp_step. apply wp_ts_new. intros t Ht. wp_step. eapply wp_mono; [apply IH|].
  intros ids s' (Hl & Hnd & Hfr & st & -> & Hin & Hout). cbn in Hfr. wp_step.
  assert (t ∉ ids) as Hti. { intros Hi. specialize (Hfr _ Hi). by rewrite lookup_insert_eq in Hfr. }
  split_and!; [by cbn; rewrite Hl|by apply NoDup_cons| |].
  - intros x [->|Hx]%elem_of_cons; [done|]. specialize (Hfr _ Hx).
    by rewrite lookup_insert_ne in Hfr by (by intros ->).
  - exists st. split; [done|]. split.
    + intros [|x] t' Hx; cbn in Hx; [|by eapply Hin]. injection Hx as <-.
      rewrite Hout by done. cbn. by rewrite lookup_insert_eq.
    + intros t' [Hne Hni]%not_elem_of_cons. rewrite Hout by done. cbn. by rewrite lookup_insert_ne.
Qed.

(** The zone, its place and the pages the request may touch. *)
Record rw_zone (N : Z) (s : zns_ssd) (live : gset Z) (z g k : Z) : Prop := {
  rz_flash : flash_inv N (dymap s) live;
  rz_array : array_ok (sp s) (die_group_sum (dymap s));
  rz_fbgs : fbgs_per_dg (dymap s) ≤ blks_per_pl (sp s);
  rz_mapped : ∃ pz, aget (phy_zone (dymap s)) z = Some pz ∧ map_die_group_num pz = 1;
  rz_loc : zone_loc (dymap s) z = Some (g, k);
  rz_group : 0 ≤ g < die_group_sum (dymap s);
  rz_fbg : 0 ≤ k < blks_per_pl (sp s);
  rz_u32 : zone_pages (sp s) * secs_per_pg (sp s) < 2 ^ 32
}.

Lemma page_addr_die spp groups g k p :
  array_ok spp groups → 0 ≤ g < groups →
  u32 (g_ch (page_addr spp g k p) * luns_per_ch spp + g_lun (page_addr spp g k p)) = page_die g p.
Proof.
  intros Ha Hg. pose proof (page_die_range _ _ g p Ha Hg) as Hd. pose proof (ao_luns _ _ Ha).
  pose proof (ao_u32 _ _ Ha) as [Hu _]. unfold page_addr. cbn [g_ch g_lun].
  rewrite Z.mul_comm, <-Z.div_mod by lia. apply u32_small. lia.
Qed.

(** One page of the zone. *)
Lemma wp_add_page N s live z g k p t ts Q0 :
  rw_zone N s live z g k → 0 ≤ p < zone_pages (sp s) → ts_store s !! t = Some ts →
  pl_idx ts = 0 → 0 ≤ ops_num ts < 2 ^ 32 - 1 →
  Q0 tt (set_ts_store (<[t := mk_ts (req_plus ts) (zone_idx ts) (ops_num ts + 1) (page_die g p) 0
    (blk_idx ts) (pg_idx ts)]> (ts_store s)) s) →
  wp (add_page z (p * secs_per_pg (sp s)) t) Q0 s.
Proof.
  intros [Hfi Ha Hfb Hm Hloc Hg Hk _] Hp Ht Hpl Hops HQ0. pose proof (ao_secs _ _ Ha) as Hsec.
  unfold add_page, ts_put. do 3 wp_step. apply wp_in_dymap.
  assert (p * secs_per_pg (sp s) / secs_per_pg (sp s) = p) as Hdiv by (apply Z.div_mul; lia).
  eapply wp_get_ppa; try done; [apply Z.mul_nonneg_nonneg; lia|rewrite Hdiv; lia|].
  rewrite Hdiv, set_dymap_id. wp_step. eapply wp_ts_at; [done|].
  rewrite (page_addr_die _ _ _ _ _ Ha Hg).
  pose proof (page_die_range _ _ g p Ha Hg) as Hd. wp_step. apply wp_assert; [apply Z.ltb_lt; lia|].
  rewrite Hpl. change (0 =? 255) with false. cbv iota. do 2 wp_step. wp_step.
  rewrite u32_small by lia. exact HQ0.
Qed.

(** Page [y] of the request goes to the die of transaction [y mod n]. *)
Lemma page_die_round g p0 (n y pages : nat) :
  n = Nat.min 16 pages → (y < pages)%nat →
  page_die g (p0 + Z.of_nat y) = page_die g (p0 + Z.of_nat (y mod n)).
Proof.
  intros -> Hy. destruct (decide (16 ≤ pages)%nat) as [Hp|Hp].
  - rewrite Nat.min_l by done. unfold page_die, ZONE_MAX_DIE_PARA. f_equal.
    rewrite Nat2Z.inj_mod. change (Z.of_nat 16) with 16. by rewrite Zplus_mod_idemp_r.
  - rewrite Nat.min_r by lia. by rewrite Nat.mod_small.
Qed.

Lemma rw_txn_step g p0 n y pages x :
  n = Nat.min 16 pages → (y < pages)%nat → (x < n)%nat →
  rw_txn None 0 g p0 n (S y) x =
  if (x =? y mod n)%nat then
    mk_ts None 0 (Z.of_nat (share n y x) + 1) (page_die g (p0 + Z.of_nat y)) 0 (Some 0) (Some 0xff)
  else rw_txn None 0 g p0 n y x.
Proof.
  intros Hn Hy Hx. unfold rw_txn. rewrite share_S by done.
  pose proof (Nat.Div0.mod_le y n) as Hle. destruct (Nat.eqb_spec x (y mod n)) as [->|Hne].
  - rewrite (proj2 (Nat.ltb_lt _ _)) by lia. rewrite (page_die_round g p0 n y pages) by done.
    f_equal. lia.
  - rewrite Nat.add_0_r. f_equal. destruct (Nat.ltb_spec x (S y)), (Nat.ltb_spec x y); try done; [|lia].
    assert (x = y) by lia. subst x. rewrite Nat.mod_small in Hne; lia.
Qed.

Lemma round_robin (n y : nat) :
  (0 < n)%nat → (if (S (y mod n) =? n)%nat then 0 else S (y mod n))%nat = (S y mod n)%nat.
Proof.
  intros Hn. pose proof (Nat.div_mod_eq y n). pose proof (Nat.mod_upper_bound y n).
  destruct (Nat.eqb_spec (S (y mod n)) n).
  - apply (Nat.mod_unique _ _ (S (y / n))); lia.
  - apply (Nat.mod_unique _ _ (y / n)); lia.
Qed.

Lemma holds_insert ids f f' st0 st x t ts :
  NoDup ids → ids !! x = Some t → holds ids f st0 st →
  (∀ x', f' x' = if (x' =? x)%nat then ts else f x') → holds ids f' st0 (<[t := ts]> st).
Proof.
  intros Hnd Hx [Hin Hout] Hf. split.
  - intros x' t' Hx'. rewrite Hf. destruct (Nat.eqb_spec x' x) as [->|Hne].
    + rewrite Hx in Hx'. injection Hx' as <-. by rewrite lookup_insert_eq.
    + rewrite lookup_insert_ne; [by apply Hin|]. intros <-. apply Hne. by eapply NoDup_lookup.
  - intros t' Hni. rewrite lookup_insert_ne; [by apply Hout|]. intros <-.
    apply Hni. by eapply list_elem_of_lookup_2.
Qed.

Lemma holds_ext ids f f' st0 st :
  (∀ x, (x < length ids)%nat → f x = f' x) → holds ids f st0 st → holds ids f' st0 st.
Proof.
  intros Hf [Hin Hout]. split; [|done]. intros x t Hx.
  rewrite <-Hf by by eapply lookup_lt_Some. by apply Hin.
Qed.

(** The request: pages [p0, ..., p0 + pages - 1], and the end of the loop. *)
Record rw_span (spp : ssdparams) (p0 stop : Z) (pages : nat) : Prop := {
  sn_lo : 0 ≤ p0;
  sn_hi : p0 + Z.of_nat pages ≤ zone_pages spp;
  sn_stop : (p0 + Z.of_nat pages - 1) * secs_per_pg spp < stop ≤ (p0 + Z.of_nat pages) * secs_per_pg spp
}.

Lemma wp_page_loop N live z g k p0 stop pages ids st0 f y s :
  rw_zone N s live z g k → rw_span (sp s) p0 stop pages →
  length ids = Nat.min 16 pages → (0 < pages)%nat → NoDup ids → (f + y = pages)%nat →
  holds ids (rw_txn None 0 g p0 (length ids) y) st0 (ts_store s) →
  wp (page_loop f z ((p0 + Z.of_nat y) * secs_per_pg (sp s)) stop (secs_per_pg (sp s))
       (y mod length ids) ids)
    (λ _ s', ∃ st, s' = set_ts_store st s ∧ holds ids (rw_txn None 0 g p0 (length ids) pages) st0 st) s.
Proof.
  revert y s. induction f as [|f IH]; intros y s Hz Hsp Hlen Hpos Hnd Hfy Hst; cbn [page_loop].
  { assert (y = pages) as -> by lia. destruct Hsp as [_ _ [_ Hstop]].
    rewrite (proj2 (Z.ltb_ge _ _)) by lia. wp_step. exists (ts_store s).
    split; [by destruct s|done]. }
  pose proof (ao_secs _ _ (rz_array _ _ _ _ _ _ Hz)) as Hsec. pose proof (rz_u32 _ _ _ _ _ _ Hz) as Hu.
  pose proof Hsp as [Hlo Hhi [Hst1 Hst2]].
  assert ((p0 + Z.of_nat y) * secs_per_pg (sp s) < stop).
  { eapply Z.le_lt_trans; [|exact Hst1]. apply Z.mul_le_mono_nonneg_r; lia. }
  rewrite (proj2 (Z.ltb_lt _ _)) by done. wp_step.
  pose proof (Nat.mod_upper_bound y (length ids)) as Hmod.
  destruct (lookup_lt_is_Some_2 ids (y mod length ids)) as [t Ht]; [lia|].
  eapply wp_load; [done|]. wp_step. pose proof (proj1 Hst _ _ Ht) as Hts.
  assert (share (length ids) y (y mod length ids) ≤ y)%nat as Hsh.
  { unfold share. rewrite Nat.ltb_irrefl, Nat.add_0_r. apply Nat.Div0.div_le_upper_bound. nia. }
  pose proof (ao_u32 _ _ (rz_array _ _ _ _ _ _ Hz)) as [_ Hzp].
  eapply wp_add_page; [done|lia|done|done|cbn; unfold zone_pages in *; lia|].
  cbn [req_plus zone_idx ops_num blk_idx pg_idx rw_txn].
  assert ((p0 + Z.of_nat (S y)) * secs_per_pg (sp s) ≤ zone_pages (sp s) * secs_per_pg (sp s)).
  { apply Z.mul_le_mono_nonneg_r; lia. }
  rewrite u32_small by lia.
  replace ((p0 + Z.of_nat y) * secs_per_pg (sp s) + secs_per_pg (sp s))
    with ((p0 + Z.of_nat (S y)) * secs_per_pg (sp s)) by lia.
  rewrite round_robin by lia. set (s1 := set_ts_store _ s).
  eapply wp_mono; [apply (IH (S y) s1)|]; try done; [by destruct Hz; split|lia|].
  subst s1. cbn [ts_store set_ts_store]. eapply (holds_ext _ (λ x, if (x =? y mod length ids)%nat then _ else rw_txn None 0 g p0 (length ids) y x));
    [|eapply holds_insert; [done|done|done|reflexivity]].
  intros x Hx. rewrite (rw_txn_step g p0 _ y pages x) by (done || lia).
  destruct (Nat.eqb_spec x (y mod length ids)) as [->|]; done.
Qed.

(** ** Issuing them *)

Lemma wp_issue r z ids ds s qs :
  NoDup ids → dq_rep (queues_of s) qs →
  Forall2 (λ t d, (d < length qs)%nat ∧ ∃ ts, ts_store s !! t = Some ts ∧ die_idx ts = Z.of_nat d) ids ds →
  wp (issue r z ids) (λ _ s', issuing s s' ∧ rp_store s' = rp_store s ∧
    (∀ t, t ∈ ids → ts_store s' !! t = ts_set_req_plus r z <$> ts_store s !! t) ∧
    (∀ t, t ∉ ids → ts_store s' !! t = ts_store s !! t) ∧
    dq_rep (queues_of s') (push_all qs (zip ds ids))) s.
Proof.
  revert ds s qs. induction ids as [|t ids IH]; intros ds s qs Hnd Hrep Hf; cbn [issue].
  { apply Forall2_nil_inv_l in Hf as ->. wp_step. split_and!; try done. by intros t ?%elem_of_nil. }
  apply Forall2_cons_inv_l in Hf as (d & ds' & (Hd & ts & Hts & Hdi) & Hf & ->).
  apply NoDup_cons in Hnd as [Hni Hnd]. unfold ts_put.
  wp_step. eapply wp_ts_at; [done|]. do 2 wp_step. rewrite Hdi. wp_step.
  eapply wp_push; [done|done|]. intros q' Hrep'. cbn [zip zip_with push_all].
  set (s1 := set_queues_of q' _).
  assert (∀ t', t' ∈ ids → ts_store s1 !! t' = ts_store s !! t') as Hs1.
  { intros t' Ht'. subst s1. cbn. rewrite lookup_insert_ne; [done|]. by intros ->. }
  eapply wp_mono; [apply (IH ds' s1); [done|done|]|].
  - apply Forall2_same_length_lookup_2; [by eapply Forall2_length|]. intros i t' d' Ht' Hd'.
    rewrite length_alter, Hs1 by by eapply list_elem_of_lookup_2.
    exact (Forall2_lookup_lr _ _ _ _ _ _ Hf Ht' Hd').
  - intros [] s' (Hiss & Hrp & Hin & Hout & Hq). split_and!.
    + by apply (issuing_trans s s1).
    + by rewrite Hrp.
    + intros t' [->|Ht']%elem_of_cons; [|by rewrite Hin, Hs1].
      rewrite Hout by done. subst s1. cbn. by rewrite lookup_insert_eq, Hts.
    + intros t' [Hne Hni']%not_elem_of_cons. rewrite Hout by done. subst s1. cbn.
      by rewrite lookup_insert_ne.
    + done.
Qed.

(** ** The whole of [zone_rw] *)

(** First page that starts at or after block [w]. *)
Definition page_from (spp : ssdparams) (w : Z) : Z := (w + secs_per_pg spp - 1) / secs_per_pg spp.

(** The pages of a request. *)
Definition rw_pages (spp : ssdparams) (w nlb : Z) : Z := page_from spp (w + nlb) - page_from spp w.

(** The block size is the sector size, so that a page has [secs_per_pg] blocks. *)
Record lba_ok (n : ftl_ctrl) (spp : ssdparams) : Prop := {
  lo_lbads : 0 ≤ fc_lbads n < 32;
  lo_secsz : secsz spp = 2 ^ fc_lbads n;
  lo_page : 0 < secs_per_pg spp ∧ secs_per_pg spp * secsz spp < 2 ^ 32
}.

Definition rw_type (c : NvmeCmd) : nand_cmd_type :=
  if bool_decide (opcode c = NVME_CMD_WRITE) then NAND_WRITE else NAND_READ.

Definition rw_rp (req : nat) (c : NvmeCmd) (ids : list nat) : NvmeRequestPlus_t :=
  mk_req_plus req (Some <$> ids) (Z.of_nat (length ids)) (Z.of_nat (length ids)) 0 (rw_type c).

(** The request became [pages] pages on [ids], one transaction for each die. *)
Record rw_post (req : nat) (c : NvmeCmd) (z g p0 : Z) (pages : nat) (s : zns_ssd)
    (qs : list (list nat)) (s' : zns_ssd) (ids : list nat) : Prop := {
  rw_io : io_inv s' (push_all qs
    (zip ((λ x : nat, Z.to_nat (page_die g (p0 + Z.of_nat x))) <$> seq 0 (length ids)) ids));
  rw_count : length ids = Nat.min 16 pages;
  rw_txns : ∃ r, (∀ x t, ids !! x = Some t →
      ts_store s' !! t = Some (rw_txn (Some r) z g p0 (length ids) pages x)) ∧
    rp_store s' !! r = Some (rw_rp req c ids);
  rw_req : outstanding s' ≡ₚ req :: outstanding s;
  rw_frame : issuing s s'
}.

Lemma page_from_spec spp w :
  0 < secs_per_pg spp →
  (page_from spp w - 1) * secs_per_pg spp < w ≤ page_from spp w * secs_per_pg spp.
Proof.
  intros HL. unfold page_from. set (L := secs_per_pg spp) in *.
  pose proof (Z.div_mod (w + L - 1) L). pose proof (Z.mod_pos_bound (w + L - 1) L). nia.
Qed.

(** The arithmetic at the start of [zone_rw]. *)
Lemma first_page spp w :
  0 < secs_per_pg spp → 0 ≤ w →
  (if 0 <? w mod secs_per_pg spp then (w / secs_per_pg spp + 1) * secs_per_pg spp else w) =
  page_from spp w * secs_per_pg spp.
Proof.
  intros HL Hw. pose proof (page_from_spec spp w HL) as Hp. set (L := secs_per_pg spp) in *.
  pose proof (Z.div_mod w L). pose proof (Z.mod_pos_bound w L).
  destruct (Z.ltb_spec 0 (w mod L)).
  - assert (w / L + 1 = page_from spp w); [|lia]. nia.
  - assert (w / L = page_from spp w); [|lia]. nia.
Qed.

Lemma rw_arith spp w nlb :
  let L := secs_per_pg spp in let p0 := page_from spp w in let p1 := page_from spp (w + nlb) in
  0 < L → 0 ≤ w → 1 ≤ nlb → w + nlb ≤ zone_pages spp * L →
  0 ≤ p0 ≤ p1 ∧ p1 ≤ zone_pages spp ∧ 0 ≤ p0 * L - w < L ∧
  (w + nlb ≤ p0 * L → p1 = p0) ∧
  (p0 * L < w + nlb → (w + nlb - p0 * L - 1) / L + 1 = p1 - p0) ∧
  (p1 - 1) * L < w + nlb ≤ p1 * L.
Proof.
  intros L p0 p1 HL Hw Hn Hz.
  pose proof (page_from_spec spp w HL) as Hp0. pose proof (page_from_spec spp (w + nlb) HL) as Hp1.
  fold p0 L in Hp0. fold p1 L in Hp1. split_and!; try nia.
  intros Hlt. symmetry. enough ((w + nlb - p0 * L - 1) / L = p1 - p0 - 1) by lia.
  symmetry. apply (Z.div_unique _ _ _ (w + nlb - 1 - (p1 - 1) * L)); nia.
Qed.

Lemma zone_rw_start n spp w nlb Q0 s (k : Z → Z → Z → ST zns_ssd unit) :
  lba_ok n spp → spp = sp s → 0 ≤ w → 1 ≤ nlb ≤ 2 ^ 16 →
  w + nlb ≤ zone_pages spp * secs_per_pg spp < 2 ^ 32 →
  (rw_pages spp w nlb = 0 → Q0 tt s) →
  (0 < rw_pages spp w nlb →
    wp (k (page_from spp w * secs_per_pg spp) (w + nlb - page_from spp w * secs_per_pg spp)
         (secs_per_pg spp)) Q0 s) →
  wp (tt_lba_page <- cdiv (u32 (secs_per_pg spp * secsz spp)) (u32 (Z.shiftl 1 (fc_lbads n))) ;;
      ofst <- cmod w tt_lba_page ;;
      let new_wp :=
        if 0 <? ofst then u32 ((Z.quot w tt_lba_page + 1) * tt_lba_page) else u32 w in
      if (0 <? ofst) && (nlb <=? u64 (new_wp - w)) then ret tt
      else k new_wp (if 0 <? ofst then u32 (nlb - u64 (new_wp - w)) else nlb) tt_lba_page) Q0 s.
Proof.
  intros [Hb Hsec [HL Hpg]] Hspp Hw Hn [Hz Hz32] Hnone Hsome.
  assert (0 < 2 ^ fc_lbads n < 2 ^ 32) as Hpow.
  { split; [apply Z.pow_pos_nonneg; lia|apply Z.pow_lt_mono_r; lia]. }
  rewrite Z.shiftl_1_l, (u32_small (2 ^ _)), (u32_small (_ * _)) by lia.
  wp_step. apply wp_cdiv; [lia|lia|]. rewrite Hsec, Z.div_mul by lia.
  wp_step. apply wp_cmod; [lia|lia|]. cbv zeta. rewrite Z.quot_div_nonneg by lia.
  destruct (rw_arith spp w nlb) as (Hp0 & Hp1 & Hdiff & Hz0 & Hpos & Hend); [lia..|].
  pose proof (first_page spp w HL Hw) as Hfirst. unfold rw_pages in *.
  set (L := secs_per_pg spp) in *. set (p0 := page_from spp w) in *.
  set (p1 := page_from spp (w + nlb)) in *.
  assert (L ≤ zone_pages spp * L ∨ p0 = 0) as Hcase by nia.
  assert ((if 0 <? w mod L then u32 ((w / L + 1) * L) else u32 w) = p0 * L) as ->.
  { destruct (0 <? w mod L); rewrite Hfirst || rewrite <-Hfirst at 1; apply u32_small; nia. }
  rewrite (u64_small (p0 * L - w)) by lia.
  pose proof (Z.mod_pos_bound w L HL) as Hm. destruct (Z.ltb_spec 0 (w mod L)) as [Ho|Ho]; cbn [andb].
  - destruct (Z.leb_spec nlb (p0 * L - w)) as [Hle|Hgt].
    + wp_step. apply Hnone. rewrite Hz0 by lia. lia.
    + rewrite u32_small by lia. replace (nlb - (p0 * L - w)) with (w + nlb - p0 * L) by lia.
      apply Hsome. assert (p1 ≠ p0) by nia. lia.
  - replace nlb with (w + nlb - p0 * L) at 1 by lia. apply Hsome. assert (p1 ≠ p0) by nia. lia.
Qed.

Lemma wp_rw_type {A} c pz (k : nand_cmd_type → ST zns_ssd A) Q0 s :
  opcode c = NVME_CMD_WRITE ∨ opcode c = NVME_CMD_READ → map_die_group_num pz = 1 →
  wp (k (rw_type c)) Q0 s →
  wp (type <- (match opcode c with
       | NVME_CMD_WRITE => assert (0 <? map_die_group_num pz) ;; ret NAND_WRITE
       | NVME_CMD_READ => ret NAND_READ
       | _ => crash
       end) ;; k type) Q0 s.
Proof.
  intros Hop Hn Hk. unfold rw_type in Hk. destruct Hop as [Ho|Ho]; rewrite Ho in *.
  - rewrite bool_decide_eq_true_2 in Hk by done. do 2 wp_step.
    apply wp_assert; [by rewrite Hn|]. by wp_step.
  - rewrite bool_decide_eq_false_2 in Hk by done. by do 2 wp_step.
Qed.

Lemma wp_rw_issue s live N qs req c z g k p0 (pages : nat) r ids s3 :
  io_inv s qs → rw_zone N s live z g k → is_Some (req_store s !! req) → (0 < pages)%nat → 0 ≤ p0 →
  length ids = Nat.min 16 pages → NoDup ids → (∀ t, t ∈ ids → ts_store s !! t = None) →
  rp_store s !! r = None →
  holds ids (rw_txn None 0 g p0 (length ids) pages) (ts_store s) (ts_store s3) →
  queues_of s3 = queues_of s → issuing s s3 →
  rp_store s3 = <[r := rw_rp req c ids]> (rp_store s) →
  wp (issue r z ids) (λ _ s', rw_post req c z g p0 pages s qs s' ids) s3.
Proof.
  intros Hio Hz Hreq Hpos Hp0 Hlen Hnd Hfr Hr [Hin Hout] Hq Hiss Hrp.
  pose proof Hio as [_ [Hrep Hql Hdie] _]. pose proof (rz_array _ _ _ _ _ _ Hz) as Ha.
  set (ds := (λ x : nat, Z.to_nat (page_die g (p0 + Z.of_nat x))) <$> seq 0 (length ids)).
  assert (∀ x, 0 ≤ page_die g (p0 + Z.of_nat x) < tt_luns (sp s)) as Hdr.
  { intros x. eapply page_die_range; [done|]. apply Hz. }
  assert (∀ x t, ids !! x = Some t → ts_store s3 !! t = Some (rw_txn None 0 g p0 (length ids) pages x) ∧
    die_idx (rw_txn None 0 g p0 (length ids) pages x) = page_die g (p0 + Z.of_nat x)) as Htx.
  { intros x t Hx. split; [by apply Hin|]. pose proof (lookup_lt_Some _ _ _ Hx).
    cbn [die_idx rw_txn]. rewrite (proj2 (Nat.ltb_lt _ _)) by lia. done. }
  assert (∀ x d t, zip ds ids !! x = Some (d, t) →
    Z.of_nat d = page_die g (p0 + Z.of_nat x) ∧ ids !! x = Some t ∧ (d < length qs)%nat) as Hzip.
  { intros x d t Hx. apply lookup_zip_with_Some in Hx as (d' & t' & [= -> ->] & Hd & Ht).
    unfold ds in Hd. rewrite list_lookup_fmap in Hd. apply fmap_Some in Hd as (y & Hy & ->).
    apply lookup_seq in Hy as [-> _]. specialize (Hdr x). cbn [Nat.add]. split_and!; [lia|done|lia]. }
  eapply wp_mono; [apply (wp_issue r z ids ds s3 qs); [done|by rewrite Hq|]|].
  { apply Forall2_same_length_lookup_2; [unfold ds; by rewrite length_fmap, length_seq|].
    intros x t d Ht Hd. destruct (Hzip x d t) as (H1 & _ & H3); [by rewrite lookup_zip_with, Hd; cbn; rewrite Ht|].
    split; [done|]. destruct (Htx _ _ Ht) as [-> H2]. eexists. split; [done|]. by rewrite H2, H1. }
  intros [] s' (Hiss' & Hrp' & Hin' & Hout' & Hq').
  assert (∀ x t, ids !! x = Some t →
    ts_store s' !! t = Some (rw_txn (Some r) z g p0 (length ids) pages x)) as Hfin.
  { intros x t Hx. rewrite Hin' by by eapply list_elem_of_lookup_2. by rewrite (proj1 (Htx _ _ Hx)). }
  assert (issuing s s') as Hall by by eapply issuing_trans.
  destruct (io_add s qs r (rw_rp req c ids) ids (zip ds ids) s') as [Hio' Hout2]; [done| |done| |done| |].
  { split; try done.
    - intros t Ht. rewrite Hout', Hout by done. done.
    - intros t [x Hx]%list_elem_of_lookup_1. rewrite (Hfin _ _ Hx). by eexists.
    - by rewrite Hrp', Hrp.
    - apply Hall.
    - cbn. split; [done|]. split; [done|]. lia. }
  { apply snd_zip. unfold ds. by rewrite length_fmap, length_seq. }
  { intros d t [x Hx]%list_elem_of_lookup_1. destruct (Hzip _ _ _ Hx) as (H1 & H2 & H3).
    split; [done|]. rewrite (Hfin _ _ H2). eexists. split; [done|].
    rewrite H1. apply (Htx _ _ H2). }
  split; try done. exists r. split; [done|]. by rewrite Hrp', Hrp, lookup_insert_eq.
Qed.

Lemma wp_rw_split N s live qs req c z g k pz p0 (pages : nat) nlb :
  io_inv s qs → rw_zone N s live z g k → is_Some (req_store s !! req) →
  aget (phy_zone (dymap s)) z = Some pz → map_die_group_num pz = 1 →
  opcode c = NVME_CMD_WRITE ∨ opcode c = NVME_CMD_READ →
  (0 < pages)%nat → 1 ≤ nlb < 2 ^ 32 → (nlb - 1) / secs_per_pg (sp s) + 1 = Z.of_nat pages →
  rw_span (sp s) p0 (p0 * secs_per_pg (sp s) + nlb) pages →
  wp (rw_split req c pz z (p0 * secs_per_pg (sp s)) nlb (secs_per_pg (sp s)))
    (λ _ s', ∃ ids, rw_post req c z g p0 pages s qs s' ids) s.
Proof.
  intros Hio Hz Hreq Hpz Hn1 Hop Hpos Hnlb Hpages Hsp.
  pose proof (rz_array _ _ _ _ _ _ Hz) as Ha. pose proof (ao_secs _ _ Ha) as HL.
  pose proof (ao_u32 _ _ Ha) as [Hu32 Hzp]. pose proof (rz_u32 _ _ _ _ _ _ Hz) as Hz32.
  pose proof Hsp as [Hlo Hhi [Hs1 Hs2]].
  assert ((p0 + Z.of_nat pages) * secs_per_pg (sp s) ≤ zone_pages (sp s) * secs_per_pg (sp s))
    by (apply Z.mul_le_mono_nonneg_r; lia).
  assert (0 ≤ p0 * secs_per_pg (sp s)) by (apply Z.mul_nonneg_nonneg; lia).
  unfold rw_split. rewrite (u32_small (nlb - 1)), Z.quot_div_nonneg, Hpages by lia.
  rewrite (u32_small (Z.of_nat pages)) by (unfold zone_pages in *; lia).
  rewrite (u32_small (p0 * _ + nlb)) by lia. cbv zeta. rewrite Nat2Z.id.
  apply wp_rw_type; [done|done|]. rewrite Hn1. change (u32 (1 * ZONE_MAX_DIE_PARA)) with 16.
  assert ((if 16 <? Z.of_nat pages then 16 else Z.of_nat pages) = Z.of_nat (Nat.min 16 pages)) as ->
    by (destruct (Z.ltb_spec 16 (Z.of_nat pages)); lia).
  rewrite Nat2Z.id. wp_step. apply wp_rp_new. intros r Hr. wp_step.
  eapply wp_mono; [apply wp_new_tss|]. intros ids s1 (Hlen & Hnd & Hfr & st & -> & Hst).
  unfold rp_put. do 2 wp_step. cbn [rp_store set_rp_store set_ts_store]. rewrite insert_insert_eq.
  set (rp := mk_req_plus _ _ _ _ _ _). set (s2 := set_rp_store _ _). wp_step.
  assert (wp (page_loop pages z (p0 * secs_per_pg (sp s)) (p0 * secs_per_pg (sp s) + nlb)
    (secs_per_pg (sp s)) 0 ids) (λ _ s', ∃ st, s' = set_ts_store st s2 ∧
    holds ids (rw_txn None 0 g p0 (length ids) pages) (ts_store s) st) s2) as Hloop.
  { pose proof (wp_page_loop N live z g k p0 (p0 * secs_per_pg (sp s) + nlb) pages ids
      (ts_store s) pages 0 s2) as Hl. rewrite Z.add_0_r, Nat.Div0.mod_0_l in Hl.
    apply Hl; [by destruct Hz; split|exact Hsp|done|done|done|lia|].
    eapply holds_ext; [|exact Hst]. intros x _. unfold rw_txn. by rewrite share_0. }
  eapply wp_mono; [exact Hloop|]. intros [] s3 (st3 & -> & Hst3). cbn beta.
  eapply wp_mono; [by eapply (wp_rw_issue s live N qs req c z g k p0 pages); try done; cbn; unfold rw_rp; rewrite ?Hlen|].
  intros [] s4 Hpost. by exists ids.
Qed.
End rw.
