(* ===== verification/FtlDistribute.v ===== *)
(** * Distribution of requests

    [zns_req_distribute] on the commands the mapping supports ([admissible]): the
    invariant is kept, and every request is accounted for. *)

From stdpp Require Import base numbers option list list_numbers gmap.
From S2P Require Import Prelude ZnsTypes ZnsOps FtlList FtlTypes FtlMap FtlOps FtlAlloc FtlMapInv FtlOpen FtlAddr FtlTxn FtlServe FtlIssue FtlRw.

Section distribute.
Context {Q : DieQueue nat} {HQ : DieQueueOk Q} {B : PpaBits} {M : Malloc} {HM : MallocOk M}.
Implicit Types s : zns_ssd.

Lemma live_rw_zone n s live opened qs z :
  ftl_inv n s live opened qs → zone_pages (sp s) * secs_per_pg (sp s) < 2 ^ 32 → z ∈ live →
  ∃ g k, rw_zone (fc_num_zones n) s live z g k.
Proof.
  intros [[Hfi Ho] Hio Ha Hfb] Hu Hl.
  destruct (live_zone _ _ _ _ Hfi Hl) as
    (pz & g & k & dg & Hpz & Hn1 & Hg0 & Hk & Hloc & Hdg & Hb & Hok & Hdies & Hg & Hkr).
  exists g, k. split; try done; [lia|by exists pz|lia].
Qed.

(** A read or a write inside a live zone. *)
Lemma wp_zone_rw n s live opened qs req rq z w :
  ftl_inv n s live opened qs → lba_ok n (sp s) →
  zone_pages (sp s) * secs_per_pg (sp s) < 2 ^ 32 → z ∈ live →
  req_store s !! req = Some rq →
  opcode (fr_cmd rq) = NVME_CMD_WRITE ∨ opcode (fr_cmd rq) = NVME_CMD_READ →
  0 ≤ rw_nlb (fr_cmd rq) < 2 ^ 16 → 0 ≤ w →
  w + (rw_nlb (fr_cmd rq) + 1) ≤ zone_pages (sp s) * secs_per_pg (sp s) →
  let pages := rw_pages (sp s) w (rw_nlb (fr_cmd rq) + 1) in
  wp (zone_rw n req z w) (λ _ s', (pages = 0 ∧ s' = s) ∨
    (0 < pages ∧ ∃ g k ids, zone_loc (dymap s) z = Some (g, k) ∧
      rw_post req (fr_cmd rq) z g (page_from (sp s) w) (Z.to_nat pages) s qs s' ids)) s.
Proof.
  intros Hinv Hlba Hu Hl Hrq Hop Hnlb Hw Hend pages.
  destruct (live_rw_zone _ _ _ _ _ _ Hinv Hu Hl) as (g & k & Hz).
  destruct (rz_mapped _ _ _ _ _ _ Hz) as (pz & Hpz & Hn1).
  unfold zone_rw. wp_step. eapply wp_in_pz_at; [done|]. do 3 wp_step. eapply wp_req_at; [done|].
  apply (zone_rw_start n (sp s) w (rw_nlb (fr_cmd rq) + 1) _ s
    (λ new_wp nlb tt, rw_split req (fr_cmd rq) pz z new_wp nlb tt)); [done|done|lia|lia|lia| |].
  { intros H0. by left. }
  intros Hpos. fold pages in Hpos.
  pose proof (ao_secs _ _ (rz_array _ _ _ _ _ _ Hz)) as HL.
  destruct (rw_arith (sp s) w (rw_nlb (fr_cmd rq) + 1)) as (Hp0 & Hp1 & Hd & Hz0 & Hpages & Hs);
    [lia..|]. fold (rw_pages (sp s) w (rw_nlb (fr_cmd rq) + 1)) pages in Hpages.
  assert (page_from (sp s) w * secs_per_pg (sp s) < w + (rw_nlb (fr_cmd rq) + 1)) as Hlt.
  { destruct (Z.le_gt_cases (w + (rw_nlb (fr_cmd rq) + 1)) (page_from (sp s) w * secs_per_pg (sp s)))
      as [Hle|]; [|lia]. specialize (Hz0 Hle). unfold pages, rw_pages in Hpos. lia. }
  eapply wp_mono.
  { eapply (wp_rw_split _ s live qs req (fr_cmd rq) z g k pz (page_from (sp s) w) (Z.to_nat pages));
      try done; [apply Hinv|lia|lia| |].
    - rewrite Z2Nat.id by lia. by apply Hpages.
    - split; [lia|unfold pages, rw_pages; lia|]. rewrite Z2Nat.id by lia.
      unfold pages, rw_pages in *. lia. }
  intros ? s' (ids & Hpost). right. split; [done|]. exists g, k, ids. split; [apply Hz|done].
Qed.

(** ** Decoding the address *)

Record ctrl_ok (n : ftl_ctrl) : Prop := {
  co_size : 0 < fc_zone_size n;
  co_log2 : 0 ≤ fc_zone_size_log2 n ∧
    (0 < fc_zone_size_log2 n → fc_zone_size n = 2 ^ fc_zone_size_log2 n);
  co_num : 0 < fc_num_zones n < 2 ^ 32;
  co_zslba i : 0 ≤ i < fc_num_zones n → aget (fc_zslba n) i = Some (i * fc_zone_size n);
  co_total : fc_num_zones n * fc_zone_size n < 2 ^ 64
}.

Lemma wp_fair_zone_idx n z w Q0 s :
  ctrl_ok n → 0 ≤ z < fc_num_zones n → 0 ≤ w < fc_zone_size n → Q0 z s →
  wp (fair_zone_idx n (z * fc_zone_size n + w)) Q0 s.
Proof.
  intros [Hsz [Hl0 Hl] Hn _ Ht] Hz Hw HQ0. unfold fair_zone_idx.
  assert ((z * fc_zone_size n + w) / fc_zone_size n = z) as Hdiv.
  { rewrite Z.div_add_l by lia. rewrite Z.div_small by lia. lia. }
  destruct (Z.ltb_spec 0 (fc_zone_size_log2 n)) as [Hpos|_].
  - rewrite Z.shiftr_div_pow2, <-Hl, Hdiv, u32_small by lia. by wp_step.
  - wp_step. apply wp_cdiv; [nia|lia|]. rewrite Hdiv, u32_small by lia. by wp_step.
Qed.

(** ** What happens to a request *)

Inductive fate := Submitted | Outstanding | Dropped.

Definition accounted (p : Z) (req : nat) (f : fate) (s s' : zns_ssd) : Prop :=
  match f with
  | Submitted => enqueued s' = enqueued s ++ [(p, req)] ∧ outstanding s' ≡ₚ outstanding s
  | Outstanding => enqueued s' = enqueued s ∧ outstanding s' ≡ₚ req :: outstanding s
  | Dropped => enqueued s' = enqueued s ∧ outstanding s' ≡ₚ outstanding s
  end.

(** The request of zone [z] that starts [w] blocks into it. *)
Definition addressed (n : ftl_ctrl) (c : NvmeCmd) (z w : Z) : Prop :=
  rw_slba c = z * fc_zone_size n + w ∧ 0 ≤ z < fc_num_zones n ∧ 0 ≤ w < fc_zone_size n.

Definition is_rw (c : NvmeCmd) : Prop := opcode c = NVME_CMD_WRITE ∨ opcode c = NVME_CMD_READ.
Definition mgmt_action (c : NvmeCmd) : NvmeZoneSendAction := action_of_code (Z.land (cdw13 c) 0xff).

(** The commands the mapping supports, with the zones live and open afterwards: a zone is
    opened when it has no FBG, is not open and there is room; it is reset when it has an
    FBG; reads and writes stay inside a live zone or find the device starting up. *)
Inductive admissible (n : ftl_ctrl) (s : zns_ssd) (live : gset Z) (opened : list Z) (c : NvmeCmd) :
    gset Z → list Z → Prop :=
| adm_open z g u :
    ¬ is_rw c → mgmt_action c = NVME_ZONE_ACTION_OPEN → addressed n c z 0 →
    z ∉ live → z ∉ opened → Z.of_nat (length opened) < MAXOPENZONES →
    open_choice (dymap s) = Some (g, u) →
    admissible n s live opened c ({[z]} ∪ live) (opened ++ [z])
| adm_close z :
    ¬ is_rw c → mgmt_action c = NVME_ZONE_ACTION_CLOSE → addressed n c z 0 →
    admissible n s live opened c live (filter (λ x, x ≠ z) opened)
| adm_reset z :
    ¬ is_rw c → mgmt_action c = NVME_ZONE_ACTION_RESET → addressed n c z 0 → z ∈ live →
    admissible n s live opened c (live ∖ {[z]}) opened
| adm_other z :
    ¬ is_rw c → mgmt_action c ∈ [NVME_ZONE_ACTION_FINISH; NVME_ZONE_ACTION_OFFLINE;
      NVME_ZONE_ACTION_SET_ZD_EXT; NVME_ZONE_ACTION_INVALID] → addressed n c z 0 →
    admissible n s live opened c live opened
| adm_rw z w :
    is_rw c → addressed n c z w → z ∈ live → 0 ≤ rw_nlb c < 2 ^ 16 →
    w + (rw_nlb c + 1) ≤ zone_pages (sp s) * secs_per_pg (sp s) →
    admissible n s live opened c live opened
| adm_start z w :
    is_rw c → addressed n c z w → start_up_flag s = 0 → 0 ≤ req_sum s < 150 →
    admissible n s live opened c live opened
| adm_unmapped z w pz :
    opcode c = NVME_CMD_READ → addressed n c z w →
    aget (phy_zone (dymap s)) z = Some pz → map_die_group_num pz = 0 →
    admissible n s live opened c live opened.

(** ** The invariant through the steps that leave the queues alone *)

Lemma txn_inv_grow s s' l :
  ts_store s' = ts_store s → rp_store s' = rp_store s →
  (∀ q, is_Some (req_store s !! q) → is_Some (req_store s' !! q)) → txn_inv s l → txn_inv s' l.
Proof.
  intros Ht Hr Hq [H1 H2 H3 H4].
  assert (∀ t, owner s' t = owner s t) as Ho by (intros t; unfold owner; by rewrite Ht).
  split; [done| | |].
  - intros t. by rewrite Ht.
  - intros t Hin. rewrite Ho, Hr. by apply H3.
  - intros r rp. rewrite Hr. intros Hrp. destruct (H4 _ _ Hrp) as [G1 G2 G3 G4 G5].
    split; rewrite ?(of_rp_ext s s') by done; auto.
Qed.

Lemma io_inv_grow s s' qs :
  sp s' = sp s → ch s' = ch s → stats s' = stats s → queues_of s' = queues_of s →
  ts_store s' = ts_store s → rp_store s' = rp_store s →
  (∀ q, is_Some (req_store s !! q) → is_Some (req_store s' !! q)) → io_inv s qs → io_inv s' qs.
Proof.
  intros H1 H2 H3 H4 H5 H6 H7 [Hd [Hr Hl Hdie] Ht]. split.
  - apply (dev_ok_ext s); [done|done|by rewrite H3|done].
  - split; [by rewrite H4|by rewrite H1|]. intros i q t. rewrite H5. apply Hdie.
  - by apply (txn_inv_grow s).
Qed.

(** The mapping may change as long as the number and the size of the groups do not. *)
Lemma ftl_inv_map n s m live opened qs live' opened' :
  ftl_inv n s live opened qs → map_inv (fc_num_zones n) m live' opened' →
  die_group_sum m = die_group_sum (dymap s) → fbgs_per_dg m = fbgs_per_dg (dymap s) →
  ftl_inv n (set_dymap m s) live' opened' qs.
Proof.
  intros [Hm Hio Ha Hf] Hm' Hs Hfb. split; cbn.
  - done.
  - by apply (io_inv_grow s).
  - by rewrite Hs.
  - by rewrite Hfb.
Qed.

Lemma insert_grow {A} (m : gmap nat A) k x q : is_Some (m !! q) → is_Some (<[k := x]> m !! q).
Proof.
  intros Hq. destruct (decide (q = k)) as [->|]; [by rewrite lookup_insert_eq|by rewrite lookup_insert_ne].
Qed.

Lemma wp_submit_inv n s live opened qs p req lat :
  ftl_inv n s live opened qs → is_Some (req_store s !! req) →
  wp (submit p req lat) (λ _ s', ftl_inv n s' live opened qs ∧ accounted p req Submitted s s') s.
Proof.
  intros [Hm Hio Ha Hf] [r Hr]. eapply wp_submit; [done|]. split; [|by split].
  split; try done. eapply io_inv_grow; [..|done]; try done. intros q. cbn. apply insert_grow.
Qed.

Lemma accounted_map p req f s m s' :
  accounted p req f (set_dymap m s) s' → accounted p req f s s'.
Proof. by destruct f. Qed.

(** ** The two kinds of commands *)

Definition dist_post (n : ftl_ctrl) (p : Z) (req : nat) (c : NvmeCmd) (live : gset Z)
    (opened : list Z) (s s' : zns_ssd) : Prop :=
  ∃ qs' f, ftl_inv n s' live opened qs' ∧ accounted p req f s s' ∧
    (f = Dropped → is_rw c ∧ ∃ z w, addressed n c z w ∧ rw_pages (sp s) w (rw_nlb c + 1) = 0) ∧
    (∀ q, is_Some (req_store s !! q) → is_Some (req_store s' !! q)) ∧ sp s' = sp s.

Lemma submit_grow s s' p req lat :
  submit p req lat s = Done tt s' →
  (∀ q, is_Some (req_store s !! q) → is_Some (req_store s' !! q)) ∧ sp s' = sp s.
Proof.
  unfold submit, req_at, req_put, femu_ring_enqueue, bind, get, load, modify, ret.
  destruct (req_store s !! req); [|done]. cbn. intros [= <-]. cbn. split; [|done].
  intros q. apply insert_grow.
Qed.

(** A step of the mapping followed by the submission. *)
Lemma wp_map_submit n s live opened live' opened' qs p req c (op : ST dymap_t unit) :
  ftl_inv n s live opened qs → is_Some (req_store s !! req) →
  wp op (λ _ m, map_inv (fc_num_zones n) m live' opened' ∧
    die_group_sum m = die_group_sum (dymap s) ∧ fbgs_per_dg m = fbgs_per_dg (dymap s)) (dymap s) →
  wp (in_dymap op ;; submit p req 0) (λ _, dist_post n p req c live' opened' s) s.
Proof.
  intros Hinv Hreq Hop. wp_step. apply wp_in_dymap. eapply wp_mono; [exact Hop|].
  intros [] m (Hm & Hs & Hf). cbn beta.
  pose proof (ftl_inv_map _ _ _ _ _ _ _ _ Hinv Hm Hs Hf) as Hinv'.
  pose proof (wp_submit_inv n (set_dymap m s) live' opened' qs p req 0 Hinv' Hreq) as Hsub.
  apply wp_done in Hsub as ([] & s' & Hrun & Hi & Hacc). apply wp_done. exists tt, s'.
  split; [done|]. destruct (submit_grow _ _ _ _ _ Hrun) as [Hg Hsp].
  exists qs, Submitted. split_and!; try done.
Qed.

Lemma wp_submit_dist n s live opened qs p req c :
  ftl_inv n s live opened qs → is_Some (req_store s !! req) →
  wp (submit p req 0) (λ _, dist_post n p req c live opened s) s.
Proof.
  intros Hinv Hreq. pose proof (wp_submit_inv n s live opened qs p req 0 Hinv Hreq) as Hsub.
  apply wp_done in Hsub as ([] & s' & Hrun & Hi & Hacc). apply wp_done. exists tt, s'.
  split; [done|]. destruct (submit_grow _ _ _ _ _ Hrun) as [Hg Hsp].
  exists qs, Submitted. by split_and!.
Qed.

Lemma map_sizes N m live opened m' z :
  map_inv N m live opened → open_post z m m' →
  die_group_sum m' = die_group_sum m ∧ fbgs_per_dg m' = fbgs_per_dg m.
Proof. intros _ (g & u & k & pz & dg & _ & _ & _ & _ & ->). done. Qed.

Lemma closed_sizes z opened m :
  die_group_sum (closed z opened m) = die_group_sum m ∧ fbgs_per_dg (closed z opened m) = fbgs_per_dg m.
Proof.
  unfold closed. destruct (zone_loc m z) as [[g k]|]; [|done].
  by destruct (aget (die_group_used_bitmap m) g).
Qed.

Lemma filter_all (l : list Z) z : z ∉ l → filter (λ x, x ≠ z) l = l.
Proof.
  induction l as [|a l IH]; intros Hz; [done|]. apply not_elem_of_cons in Hz as [? Hz].
  rewrite filter_cons, decide_True by done. f_equal. by apply IH.
Qed.

Lemma wp_distribute_mgmt n s live opened qs live' opened' p req rq z :
  ftl_inv n s live opened qs → req_store s !! req = Some rq → ¬ is_rw (fr_cmd rq) →
  addressed n (fr_cmd rq) z 0 → admissible n s live opened (fr_cmd rq) live' opened' →
  (∀ z' w', addressed n (fr_cmd rq) z' w' → z' = z) →
  wp (distribute_mgmt req n p (fr_cmd rq) z) (λ _, dist_post n p req (fr_cmd rq) live' opened' s) s.
Proof.
  intros Hinv Hrq Hnrw Haddr Hadm Hz. unfold distribute_mgmt.
  fold (mgmt_action (fr_cmd rq)). assert (is_Some (req_store s !! req)) as Hreq by eauto.
  pose proof Haddr as (_ & Hzr & _). pose proof (fv_map _ _ _ _ _ Hinv) as Hm.
  inversion Hadm as [z0 g u _ Hact Ha Hnl Hno Hlen Hch|z0 _ Hact Ha|z0 _ Hact Ha Hl|z0 _ Hact Ha
    |? ? Hrw|? ? Hrw|? ? ? Hrw]; subst; try (by exfalso; apply Hnrw; unfold is_rw in *; auto);
    try (pose proof (Hz _ _ Ha) as ->).
  - rewrite Hact. eapply wp_map_submit; [done|done|]. eapply wp_mono; [by eapply wp_zone_open|].
    intros [] m' Hpost. split; [by eapply open_post_inv|by eapply map_sizes].
  - rewrite Hact. eapply wp_map_submit; [done|done|]. eapply wp_mono; [by eapply wp_zone_close|].
    intros [] m' ->. case_bool_decide as Hin.
    + split; [by apply closed_inv|apply closed_sizes].
    + rewrite filter_all by done. done.
  - rewrite Hact. wp_step. eapply wp_mono; [by eapply wp_zone_reset|].
    intros ? s' (-> & g & k & ids & Hloc & [R1 R2 R3 R4 R5 (R6 & R7 & R8 & R9 & _)]). wp_step.
    eexists _, Outstanding. split_and!; [done|by split|done|by rewrite R7|done].
  - assert (wp (submit p req 0) (λ _, dist_post n p req (fr_cmd rq) live' opened' s) s) as Hs
      by by eapply wp_submit_dist.
    destruct (mgmt_action (fr_cmd rq)); try done; exfalso; set_solver.
Qed.

(** Counting the requests of the start of the host changes nothing else. *)
Lemma ftl_inv_startup n s live opened qs f k :
  ftl_inv n s live opened qs → ftl_inv n (set_startup f k s) live opened qs.
Proof. intros [Hm Hio Ha Hf]. split; try done. by apply (io_inv_grow s). Qed.

Lemma dist_post_startup n p req c live opened s f k s' :
  dist_post n p req c live opened (set_startup f k s) s' → dist_post n p req c live opened s s'.
Proof. intros (qs & ft & H1 & H2 & H3 & H4 & H5). exists qs, ft. split_and!; try done; by destruct ft. Qed.

Lemma addressed_unique n c z w z' w' :
  addressed n c z w → addressed n c z' w' → z = z' ∧ w = w'.
Proof.
  intros (H1 & H2 & H3) (H4 & H5 & H6). rewrite H1 in H4.
  assert (z = z') by nia. subst. lia.
Qed.

(** A read or write that is not of the start of the host. *)
Lemma wp_rw_dist n s live opened qs p req rq z w :
  ftl_inv n s live opened qs → lba_ok n (sp s) →
  zone_pages (sp s) * secs_per_pg (sp s) < 2 ^ 32 →
  req_store s !! req = Some rq → is_rw (fr_cmd rq) → addressed n (fr_cmd rq) z w → z ∈ live →
  0 ≤ rw_nlb (fr_cmd rq) < 2 ^ 16 →
  w + (rw_nlb (fr_cmd rq) + 1) ≤ zone_pages (sp s) * secs_per_pg (sp s) →
  wp (zone_rw n req z w) (λ _, dist_post n p req (fr_cmd rq) live opened s) s.
Proof.
  intros Hinv Hlba Hu Hrq Hrw Haddr Hl Hnlb Hend. pose proof Haddr as (_ & _ & Hw).
  eapply wp_mono; [eapply wp_zone_rw; try done; lia|].
  intros [] s' [[H0 ->]|(Hpos & g & k & ids & Hloc & [R1 R2 R3 R4 R5])].
  - exists qs, Dropped. split_and!; try done. intros _. split; [done|]. by exists z, w.
  - destruct R5 as (I1 & I2 & I3 & I4 & I5 & I6 & I7 & I8). destruct Hinv as [Hm Hio Ha Hf].
    eexists _, Outstanding. split_and!; [|by split|done|by rewrite I6|done].
    split; [by rewrite I3|done|by rewrite I1, I3|by rewrite I1, I3].
Qed.

Lemma wp_distribute_rw n s live opened qs live' opened' p req rq z w pz :
  ftl_inv n s live opened qs → lba_ok n (sp s) →
  zone_pages (sp s) * secs_per_pg (sp s) < 2 ^ 32 →
  req_store s !! req = Some rq → is_rw (fr_cmd rq) → addressed n (fr_cmd rq) z w →
  aget (phy_zone (dymap s)) z = Some pz →
  admissible n s live opened (fr_cmd rq) live' opened' →
  wp (distribute_rw req n p (fr_cmd rq) z w pz) (λ _, dist_post n p req (fr_cmd rq) live' opened' s) s.
Proof.
  intros Hinv Hlba Hu Hrq Hrw Haddr Hpz Hadm. unfold distribute_rw. do 3 wp_step.
  assert (is_Some (req_store s !! req)) as Hreq by eauto.
  set (s1 := if start_up_flag s =? 0 then
    set_startup (if 150 <? u32 (req_sum s + 1) then 1 else 0) (u32 (req_sum s + 1)) s else s).
  eapply (wp_mono _ (λ _ s', s' = s1)).
  { subst s1. destruct (start_up_flag s =? 0); by wp_step. }
  intros [] s' ->. do 2 wp_step.
  assert (ftl_inv n s1 live opened qs) as Hinv1
    by (subst s1; destruct (start_up_flag s =? 0); [by apply ftl_inv_startup|done]).
  assert (∀ l o s', dist_post n p req (fr_cmd rq) l o s1 s' → dist_post n p req (fr_cmd rq) l o s s') as Hback.
  { intros l o s'. subst s1. destruct (start_up_flag s =? 0); [apply dist_post_startup|done]. }
  assert (sp s1 = sp s ∧ dymap s1 = dymap s ∧ req_store s1 = req_store s) as (Hsp & Hdm & Hrs)
    by (subst s1; by destruct (start_up_flag s =? 0)).
  assert (live' = live → opened' = opened →
    wp (submit p req 0) (λ _, dist_post n p req (fr_cmd rq) live' opened' s) s1) as Hsub.
  { intros -> ->. eapply wp_mono; [eapply wp_submit_dist; [done|by rewrite Hrs]|]. intros [] ?. apply Hback. }
  inversion Hadm as [? ? ? Hn|? Hn|? Hn|? Hn|z0 w0 _ Ha Hl Hnlb Hend|z0 w0 _ Ha Hflag Hsum|z0 w0 pz0 Hop Ha Hz0 Hmap];
    subst live' opened'; try done; destruct (addressed_unique _ _ _ _ _ _ Haddr Ha) as [<- <-].
  - destruct (negb (start_up_flag s1 =? 0)); [|by apply Hsub].
    destruct (fi_live _ _ _ (proj1 (fv_map _ _ _ _ _ Hinv)) _ Hl) as (pz' & g & k & Hpz' & Hn1 & _).
    rewrite Hpz in Hpz'. injection Hpz' as <-. rewrite Hn1, andb_false_r.
    eapply wp_mono; [eapply (wp_rw_dist n s1 live opened qs p); rewrite ?Hsp, ?Hrs; done|].
    intros [] ?. apply Hback.
  - assert (start_up_flag s1 = 0) as ->; [|by apply Hsub]. subst s1. rewrite Hflag. cbn [Z.eqb].
    rewrite u32_small by lia. cbn. destruct (Z.ltb_spec 150 (req_sum s + 1)); [lia|done].
  - rewrite Hpz in Hz0. injection Hz0 as <-. rewrite Hmap, bool_decide_eq_true_2 by done.
    destruct (negb (start_up_flag s1 =? 0)); by apply Hsub.
Qed.

Lemma admissible_addressed n s live opened c live' opened' :
  admissible n s live opened c live' opened' →
  ∃ z w, addressed n c z w ∧ (is_rw c ∨ (¬ is_rw c ∧ w = 0)).
Proof.
  intros Hadm. inversion Hadm; subst; eexists _, _; (split; [eassumption|]); auto.
  left. by right.
Qed.

Lemma wp_zns_req_distribute n s live opened qs live' opened' p req rq :
  ftl_inv n s live opened qs → ctrl_ok n → lba_ok n (sp s) →
  zone_pages (sp s) * secs_per_pg (sp s) < 2 ^ 32 →
  req_store s !! req = Some rq → admissible n s live opened (fr_cmd rq) live' opened' →
  wp (zns_req_distribute req n p) (λ _, dist_post n p req (fr_cmd rq) live' opened' s) s.
Proof.
  intros Hinv Hc Hlba Hu Hrq Hadm.
  destruct (admissible_addressed _ _ _ _ _ _ _ Hadm) as (z & w & Haddr & Hkind).
  pose proof Haddr as (Hslba & Hz & Hw). unfold zns_req_distribute. wp_step.
  eapply wp_req_at; [done|]. cbv zeta. rewrite Hslba. wp_step.
  apply wp_fair_zone_idx; [done|done|done|]. wp_step. apply wp_assert; [apply Z.ltb_lt; lia|].
  wp_step. eapply wp_load; [by apply co_zslba|].
  pose proof (co_total _ Hc). pose proof (co_size _ Hc).
  replace (z * fc_zone_size n + w - z * fc_zone_size n) with w by lia.
  rewrite u64_small by nia. wp_step.
  destruct (aget_is_Some (phy_zone (dymap s)) z) as [pz Hpz].
  { rewrite (fi_num_zones _ _ _ (proj1 (fv_map _ _ _ _ _ Hinv))). lia. }
  eapply wp_in_pz_at; [done|]. destruct Hkind as [Hrw|[Hn ->]].
  - assert (negb (bool_decide (opcode (fr_cmd rq) = NVME_CMD_WRITE)) &&
      negb (bool_decide (opcode (fr_cmd rq) = NVME_CMD_READ)) = false) as ->.
    { destruct Hrw as [-> | ->]; done. }
    by eapply wp_distribute_rw.
  - rewrite !bool_decide_eq_false_2 by (intros He; apply Hn; unfold is_rw; auto). cbn [negb andb].
    wp_step. apply wp_assert; [done|]. eapply wp_distribute_mgmt; try done.
    intros z' w' Ha'. by destruct (addressed_unique _ _ _ _ _ _ Haddr Ha').
Qed.
End distribute.
