(* ===== verification/FtlRun.v ===== *)
(** * The flash translation layer from its start

    The start of the layer establishes its invariant; runs of it (requests distributed,
    die queues polled) keep it and account for every request; polling with the dies idle
    empties the queues. *)

From stdpp Require Import base numbers option list list_numbers gmap.
From S2P Require Import Prelude ZnsTypes FtlList FtlTypes FtlMap FtlOps FtlStatic FtlAlloc FtlMapInv FtlOpen FtlAddr FtlTxn FtlServe FtlIssue FtlRw FtlDistribute.

Section run.
Context {Q : DieQueue nat} {HQ : DieQueueOk Q} {B : PpaBits} {M : Malloc} {HM : MallocOk M}.
Implicit Types s : zns_ssd.

(** ** The initial mapping *)

Lemma aget_replicate {A} k (x y : A) i : aget (replicate k x) i = Some y → y = x ∧ 0 ≤ i < Z.of_nat k.
Proof.
  intros [Hi Hl]%aget_Some. apply lookup_replicate in Hl as [-> ?]. split; [done|lia].
Qed.

Lemma init_die_group_ok fbgs (i : nat) :
  0 < fbgs < 2 ^ 32 → Z.of_nat i < 2 ^ 24 →
  group_ok fbgs (init_die_group fbgs i) ∧ die (init_die_group fbgs i) = dies_of (Z.of_nat i).
Proof.
  intros Hf Hi. split.
  - split; cbn; [done|rewrite length_replicate; lia| |lia|].
    + intros k b [-> _]%aget_replicate. by left.
    + rewrite countb_replicate. cbn. lia.
  - cbn [die init_die_group]. unfold dies_of. apply list_fmap_ext. intros k j Hj.
    apply lookup_seq in Hj as [-> Hj]. unfold ZONE_MAX_DIE_PARA in *. apply u32_small. lia.
Qed.

Lemma dymap_init_groups spp N i g :
  aget (die_group (zns_dynamic_mapping_init spp N)) i = Some g →
  0 ≤ i < Z.quot (tt_luns spp) ZONE_MAX_DIE_PARA ∧ g = init_die_group (blks_per_pl spp) (Z.to_nat i).
Proof.
  cbn [die_group zns_dynamic_mapping_init]. intros [Hi Hl]%aget_Some.
  rewrite list_lookup_fmap in Hl. apply fmap_Some in Hl as (j & Hj & ->).
  apply lookup_seq in Hj as [-> Hj]. split; [lia|done].
Qed.

Lemma init_map_inv spp N :
  Z.quot (tt_luns spp) ZONE_MAX_DIE_PARA = INITIAL_OPEN_LIMIT → 0 < blks_per_pl spp < 2 ^ 32 → 0 ≤ N →
  map_inv N (zns_dynamic_mapping_init spp N) ∅ [].
Proof.
  intros Hsum Hf HN.
  assert (∀ i g, aget (die_group (zns_dynamic_mapping_init spp N)) i = Some g →
    group_ok (blks_per_pl spp) g ∧ die g = dies_of i) as Hgroups.
  { intros i g [Hi ->]%dymap_init_groups. unfold INITIAL_OPEN_LIMIT in *.
    rewrite <-(Z2Nat.id i) at 3 by lia. apply init_die_group_ok; [done|lia]. }
  split; split.
  - cbn. rewrite Hsum, length_fmap, length_seq. done.
  - done.
  - exact Hgroups.
  - cbn. rewrite length_replicate. lia.
  - intros z pz [-> _]%aget_replicate. done.
  - intros z ?%elem_of_empty. done.
  - intros z z' l ?%elem_of_empty. done.
  - intros g k Hu. unfold fbg_used in Hu.
    destruct (aget (die_group (zns_dynamic_mapping_init spp N)) g) as [dg|] eqn:Hdg; [|done].
    apply dymap_init_groups in Hdg as [_ ->]. cbn [mbind option_bind] in Hu.
    apply aget_replicate in Hu as [? _]. done.
  - exact Hsum.
  - done.
  - done.
  - by eexists.
  - constructor.
  - intros z ?%elem_of_nil. done.
  - done.
  - cbn. rewrite length_replicate. unfold INITIAL_OPEN_LIMIT in *. lia.
  - intros g u [-> _]%aget_replicate. done.
  - intros _. done.
Qed.

(** ** Starting the layer *)

(** A device before [zns_ftl_init]: no transaction, no request. *)
Record unused (s : zns_ssd) : Prop := {
  un_dev : dev_ok s;
  un_array : array_ok (sp s) INITIAL_OPEN_LIMIT;
  un_groups : Z.quot (tt_luns (sp s)) ZONE_MAX_DIE_PARA = INITIAL_OPEN_LIMIT;
  un_blks : blks_per_pl (sp s) < 2 ^ 32;
  un_ts : ts_store s = ∅;
  un_rp : rp_store s = ∅;
  un_enq : enqueued s = []
}.

Definition no_transactions (s : zns_ssd) : list (list nat) := replicate (Z.to_nat (tt_luns (sp s))) [].

Lemma concat_replicate_nil {A} k : concat (replicate k ([] : list A)) = [].
Proof. induction k; simpl; done. Qed.

Lemma wp_zns_ftl_init n s :
  unused s → 0 ≤ fc_num_zones n →
  wp (zns_ftl_init n) (λ _ s', ftl_inv n s' ∅ [] (no_transactions s) ∧ enqueued s' = [] ∧
    outstanding s' = [] ∧ sp s' = sp s ∧ start_up_flag s' = start_up_flag s ∧ req_sum s' = req_sum s) s.
Proof.
  intros [Hd Ha Hg Hb Hts Hrp Henq] HN. unfold zns_ftl_init. do 3 wp_step.
  split_and!; try done; [|unfold outstanding; cbn; by rewrite Hrp].
  pose proof (ao_blks _ _ Ha). split; cbn.
  - apply init_map_inv; [done|lia|done].
  - split.
    + by apply (dev_ok_ext s).
    + split; cbn; [apply dq_init_ok| |].
      * unfold no_transactions. rewrite length_replicate. pose proof (do_tt _ Hd). pose proof (do_nchs _ Hd).
        pose proof (do_luns _ Hd). nia.
      * intros i q t Hq Ht. apply lookup_replicate in Hq as [-> _]. by apply elem_of_nil in Ht.
    + unfold no_transactions. rewrite concat_replicate_nil. split; cbn; rewrite ?Hts, ?Hrp.
      * constructor.
      * intros t. rewrite lookup_empty. split; [by intros []|by intros ?%elem_of_nil].
      * by intros t ?%elem_of_nil.
      * intros r rp. by rewrite lookup_empty.
  - by rewrite Hg.
  - done.
Qed.

(** The fields of an address are wide enough for the built-in geometry. *)
Record wide : Prop := {
  wi_ch : 3 ≤ ch_bits; wi_lun : 3 ≤ lun_bits; wi_pl : 1 ≤ pl_bits; wi_blk : 6 ≤ blk_bits;
  wi_pg : 10 ≤ pg_bits
}.

Lemma pow_wide a b : 0 ≤ a → a ≤ b → 2 ^ a ≤ 2 ^ b.
Proof. intros. apply Z.pow_le_mono_r; lia. Qed.

(** The built-in geometry is one the layer can run on. *)
Lemma built_in_unused rd wr er q :
  wide →
  let a := zns_ssd_init_internal_structure rd wr er in
  unused (mk_ssd (fst a) (snd a) q null_dymap 0 zero_stats ∅ ∅ ∅ 0 0 []).
Proof.
  intros [Hc Hl Hp Hb Hg] a.
  pose proof (pow_wide 3 _ ltac:(lia) Hc). pose proof (pow_wide 3 _ ltac:(lia) Hl).
  pose proof (pow_wide 1 _ ltac:(lia) Hp). pose proof (pow_wide 6 _ ltac:(lia) Hb).
  pose proof (pow_wide 10 _ ltac:(lia) Hg).
  subst a. unfold zns_ssd_init_internal_structure. cbn [fst snd].
  split; cbn [sp ch ts_store rp_store enqueued]; try done.
  - split; cbn [sp ch stats]; try done.
    intros i c Hi. apply aget_replicate in Hi as [-> _]. done.
Qed.

(** ** Runs *)

(** A request of the host: its record is in memory, and it is distributed. *)
Definition arrive (req : nat) (rq : ftl_req) (s : zns_ssd) : zns_ssd :=
  set_req_store (<[req := rq]> (req_store s)) s.

(** [s] after a run from [s0], with its live and open zones and the requests given. *)
Inductive ftl_run (n : ftl_ctrl) (p : Z) (s0 : zns_ssd) :
    zns_ssd → gset Z → list Z → list (nat * NvmeCmd) → Prop :=
| run_start : ftl_run n p s0 s0 ∅ [] []
| run_request s live opened given req rq live' opened' s' :
    ftl_run n p s0 s live opened given →
    admissible n (arrive req rq s) live opened (fr_cmd rq) live' opened' →
    zns_req_distribute req n p (arrive req rq s) = Done tt s' →
    ftl_run n p s0 s' live' opened' ((req, fr_cmd rq) :: given)
| run_poll s live opened given clock s' :
    ftl_run n p s0 s live opened given →
    zns_process_die_queue clock p s = Done tt s' →
    ftl_run n p s0 s' live opened given.

(** The state a run starts from. *)
Record ftl_started (n : ftl_ctrl) (s : zns_ssd) : Prop := {
  fs_inv : ∃ qs, ftl_inv n s ∅ [] qs;
  fs_ctrl : ctrl_ok n;
  fs_lba : lba_ok n (sp s);
  fs_size : zone_pages (sp s) * secs_per_pg (sp s) < 2 ^ 32;
  fs_none : enqueued s = [] ∧ outstanding s = []
}.

(** A read or write that ends inside the page it starts in the middle of. *)
Definition sub_page (n : ftl_ctrl) (spp : ssdparams) (c : NvmeCmd) : Prop :=
  is_rw c ∧ ∃ z w, addressed n c z w ∧ rw_pages spp w (rw_nlb c + 1) = 0.

(** Every request given has been submitted, or is outstanding, or was such a read or
    write. *)
Definition all_accounted (n : ftl_ctrl) (s : zns_ssd) (given : list (nat * NvmeCmd)) : Prop :=
  ∃ lost, given.*1 ≡ₚ (enqueued s).*2 ++ outstanding s ++ lost.*1 ∧
    (∀ x, x ∈ lost → x ∈ given ∧ sub_page n (sp s) x.2).

Lemma ftl_inv_arrive n s live opened qs req rq :
  ftl_inv n s live opened qs → ftl_inv n (arrive req rq s) live opened qs.
Proof.
  intros [Hm Hio Ha Hf]. split; try done. apply (io_inv_grow s); try done.
  intros q. cbn. apply insert_grow.
Qed.

Lemma accounted_give n p req c f s s' given :
  accounted p req f s s' → (f = Dropped → sub_page n (sp s) c) → sp s' = sp s →
  all_accounted n s given → all_accounted n s' ((req, c) :: given).
Proof.
  intros Hf Hdrop Hsp (lost & Hacc & Hlost).
  assert (∀ x, x ∈ lost → x ∈ (req, c) :: given ∧ sub_page n (sp s') x.2) as Hlost'.
  { intros x Hx. rewrite Hsp. destruct (Hlost x Hx). split; [set_solver|done]. }
  destruct f; destruct Hf as [He Ho].
  - exists lost. rewrite He, Ho, fmap_app. cbn [fmap list_fmap fst snd].
    split; [|done]. rewrite Hacc. cbn. solve_Permutation.
  - exists lost. rewrite He, Ho. cbn [fmap list_fmap fst].
    split; [|done]. rewrite Hacc. cbn. solve_Permutation.
  - exists ((req, c) :: lost). rewrite He, Ho. cbn [fmap list_fmap fst].
    split; [rewrite Hacc; cbn; solve_Permutation|].
    intros x [->|Hx]%elem_of_cons; [|by apply Hlost']. rewrite Hsp. split; [set_solver|by apply Hdrop].
Qed.

Lemma run_inv n p s0 s live opened given :
  ftl_started n s0 → ftl_run n p s0 s live opened given →
  (∃ qs, ftl_inv n s live opened qs) ∧ sp s = sp s0 ∧ all_accounted n s given.
Proof.
  intros [Hinv0 Hc Hlba Hsz [He0 Ho0]] Hrun.
  induction Hrun as [|s live opened given req rq live' opened' s' Hrun ([qs Hinv] & Hsp & lost & Hacc & Hlost) Hadm Hstep
    |s live opened given clock s' Hrun ([qs Hinv] & Hsp & lost & Hacc & Hlost) Hstep].
  - split; [done|]. split; [done|]. exists []. rewrite He0, Ho0. split; [done|].
    by intros x ?%elem_of_nil.
  - assert (wp (zns_req_distribute req n p)
      (λ _, dist_post n p req (fr_cmd rq) live' opened' (arrive req rq s)) (arrive req rq s)) as Hwp.
    { eapply (wp_zns_req_distribute n _ live opened qs); [by apply ftl_inv_arrive|done|by cbn; rewrite Hsp
        |by cbn; rewrite Hsp|cbn; apply lookup_insert_eq|done]. }
    unfold wp in Hwp. rewrite Hstep in Hwp.
    destruct Hwp as (qs' & f & Hinv' & Hf & Hdrop & _ & Hsp').
    split; [by exists qs'|]. split; [by rewrite Hsp'|].
    eapply (accounted_give _ _ _ _ f (arrive req rq s)); [done|done|done|by exists lost].
  - pose proof (wp_process_die_queue clock p s qs (fv_io _ _ _ _ _ Hinv)) as Hwp.
    unfold wp in Hwp. rewrite Hstep in Hwp.
    destruct Hwp as (qs' & done & Hio' & Hsp' & Hdm & _ & _ & [He Ho] & _).
    split; [|split; [by rewrite Hsp'|]].
    + exists qs'. destruct Hinv as [Hm _ Ha Hf].
      split; [by rewrite Hdm|done|by rewrite Hsp', Hdm|by rewrite Hsp', Hdm].
    + exists lost. rewrite He, fmap_app, <-list_fmap_compose. rewrite Hacc, Ho, Hsp'. split; [|done].
      assert ((snd ∘ pair p) <$> done = done) as -> by (apply list_fmap_id). solve_Permutation.
Qed.

(** ** Draining the queues *)

(** Polling once for each reading of the clock. *)
Fixpoint poll (clocks : list (Z → Z)) (p : Z) : ST zns_ssd unit :=
  match clocks with [] => ret tt | c :: cs => zns_process_die_queue c p ;; poll cs p end.

(** In each of these rounds every die is found idle. *)
Fixpoint finds_idle (clocks : list (Z → Z)) (p : Z) (s : zns_ssd) : Prop :=
  match clocks with
  | [] => True
  | c :: cs =>
      (∀ i, 0 ≤ i < tt_luns (sp s) → is_idle c s i = true) ∧
      match zns_process_die_queue c p s with Done _ s' => finds_idle cs p s' | Crash => True end
  end.

(** With no transaction left no request is outstanding. *)
Lemma no_txn_none s : txn_inv s [] → outstanding s = [].
Proof.
  intros [_ _ _ Hrp]. unfold outstanding, reqs_of.
  assert (rp_store s = ∅) as ->; [|done]. apply map_empty. intros r.
  destruct (rp_store s !! r) as [rp|] eqn:Hr; [|done].
  destruct (Hrp _ _ Hr) as [Hnum Hpos _ _ _]. cbn in Hnum. lia.
Qed.

Lemma concat_empty {A} (qs : list (list A)) : (∀ q, q ∈ qs → q = []) → concat qs = [].
Proof.
  induction qs as [|q qs IH]; intros H; [done|]. cbn.
  rewrite (H q), IH by set_solver. done.
Qed.

Lemma wp_poll clocks p s qs :
  io_inv s qs → (∀ q, q ∈ qs → (length q ≤ length clocks)%nat) → finds_idle clocks p s →
  wp (poll clocks p) (λ _ s', outstanding s' = [] ∧ ∃ done, completes p done s s') s.
Proof.
  revert s qs. induction clocks as [|c cs IH]; intros s qs Hio Hlen Hidle; cbn [poll].
  - wp_step. split; [|exists []; by apply completes_refl]. apply no_txn_none.
    rewrite <-(concat_empty qs); [apply Hio|]. intros q Hq%Hlen. cbn in Hq. by destruct q; [|cbn in Hq; lia].
  - destruct Hidle as [Hid Hnext]. wp_step.
    pose proof (wp_process_die_queue c p s qs Hio) as Hwp. unfold wp in Hwp |- *.
    destruct (zns_process_die_queue c p s) as [[] s1|]; [|done]. cbn beta.
    destruct Hwp as (qs1 & d1 & Hio1 & _ & _ & _ & _ & Hc1 & ->).
    change (wp (poll cs p) (λ _ s', outstanding s' = [] ∧ ∃ done, completes p done s s') s1).
    eapply wp_mono; [eapply IH; [exact Hio1| |done]|].
    + intros q [j Hj]%list_elem_of_lookup_1. rewrite list_lookup_imap in Hj.
      destruct (qs !! j) as [q0|] eqn:Hq0; [|done]. cbn in Hj. injection Hj as <-.
      pose proof (lookup_lt_Some _ _ _ Hq0). pose proof (qi_length _ _ (io_queue _ _ Hio)).
      rewrite Hid by lia. cbn [after_turn].
      specialize (Hlen q0 (list_elem_of_lookup_2 _ _ _ Hq0)). destruct q0; cbn in *; lia.
    + intros [] s' [Ho (d2 & Hc2)]. split; [done|]. exists (d1 ++ d2). by eapply completes_trans.
Qed.
End run.
