(* ===== verification/FtlTrad.v ===== *)
(** * The traditional mapping: addresses in range, never shared

    A zone has a block group (some consecutive blocks) in each of the [PARA_LEVEL] dies of
    its die group; the address [get_ppa_by_zone_info_tradition] computes has a closed form
    ([trad_addr]) that determines the zone and the page. *)

From stdpp Require Import base numbers option list list_numbers gmap.
From S2P Require Import Prelude FtlList FtlTypes FtlMap FtlAlloc FtlStatic FtlAddr.

Section trad.
Context {B : PpaBits}.

(** [num] block groups of [per] blocks fill a die. *)
Record trad_ok (spp : ssdparams) (num per : Z) : Prop := {
  to_num : 0 < num < 2 ^ 31;
  to_per : 0 < per;
  to_fill : num * per = blks_per_lun spp;
  to_blks : blks_per_lun spp = blks_per_pl spp * pls_per_lun spp ∧ 0 < blks_per_pl spp ∧ 0 < pls_per_lun spp;
  to_pgs : 0 < pgs_per_blk spp;
  to_secs : 0 < secs_per_pg spp ∧ 0 < secsz spp;
  to_luns : 0 < nchs spp ∧ 0 < luns_per_ch spp ∧ tt_luns spp = luns_per_ch spp * nchs spp;
  to_range : tt_luns spp < 2 ^ 31 ∧ blks_per_lun spp < 2 ^ 31 ∧
    PARA_LEVEL * per * pgs_per_blk spp < 2 ^ 32;
  to_bits : nchs spp ≤ 2 ^ ch_bits ∧ luns_per_ch spp ≤ 2 ^ lun_bits ∧
    pls_per_lun spp ≤ 2 ^ pl_bits ∧ blks_per_pl spp ≤ 2 ^ blk_bits ∧ pgs_per_blk spp ≤ 2 ^ pg_bits
}.

(** Die and block (of the die) of page [p] of zone [z]. *)
Definition trad_die (num z p : Z) : Z := z / num * PARA_LEVEL + p mod PARA_LEVEL.
Definition trad_blk (spp : ssdparams) (num per z p : Z) : Z :=
  z mod num * per + p / PARA_LEVEL / pgs_per_blk spp.

Definition trad_addr (spp : ssdparams) (num per z p : Z) : ppa :=
  mk_ppa (trad_die num z p mod nchs spp) (trad_die num z p / nchs spp)
    (trad_blk spp num per z p / blks_per_pl spp) (trad_blk spp num per z p mod blks_per_pl spp)
    (p / PARA_LEVEL mod pgs_per_blk spp) 0.

(** The zones that fit on the device, and their pages. *)
Definition trad_in (spp : ssdparams) (num per z p : Z) : Prop :=
  0 ≤ z ∧ (z / num + 1) * PARA_LEVEL ≤ tt_luns spp ∧ 0 ≤ p < PARA_LEVEL * per * pgs_per_blk spp.

Lemma trad_die_range spp num per z p :
  trad_ok spp num per → trad_in spp num per z p → 0 ≤ trad_die num z p < tt_luns spp.
Proof.
  intros Ht (Hz & Hd & Hp). pose proof (to_num _ _ _ Ht). unfold trad_die, PARA_LEVEL in *.
  pose proof (Z.mod_pos_bound p 16). pose proof (Z.div_pos z num). lia.
Qed.

Lemma trad_ofst_range spp num per z p :
  trad_ok spp num per → trad_in spp num per z p → 0 ≤ p / PARA_LEVEL / pgs_per_blk spp < per.
Proof.
  intros Ht (_ & _ & Hp). pose proof (to_pgs _ _ _ Ht). unfold PARA_LEVEL in *.
  split; [apply Z.div_pos; [apply Z.div_pos|]; lia|].
  apply Z.div_lt_upper_bound; [lia|]. apply Z.div_lt_upper_bound; lia.
Qed.

Lemma trad_blk_range spp num per z p :
  trad_ok spp num per → trad_in spp num per z p → 0 ≤ trad_blk spp num per z p < blks_per_lun spp.
Proof.
  intros Ht Hin. pose proof (trad_ofst_range _ _ _ _ _ Ht Hin). pose proof (to_num _ _ _ Ht).
  pose proof (Z.mod_pos_bound z num). rewrite <-(to_fill _ _ _ Ht). unfold trad_blk. nia.
Qed.

Lemma trad_addr_valid spp num per z p :
  trad_ok spp num per → trad_in spp num per z p → valid_ppa spp (trad_addr spp num per z p) = true.
Proof.
  intros Ht Hin. pose proof (trad_die_range _ _ _ _ _ Ht Hin) as Hd.
  pose proof (trad_blk_range _ _ _ _ _ Ht Hin) as Hb.
  destruct Ht as [_ _ _ (Hbl & Hb0 & Hp0) Hpg [Hs _] (Hn & Hl & Htt) _ _].
  pose proof (Z.mod_pos_bound (trad_die num z p) (nchs spp)).
  pose proof (Z.mod_pos_bound (trad_blk spp num per z p) (blks_per_pl spp)).
  pose proof (Z.mod_pos_bound (p / PARA_LEVEL) (pgs_per_blk spp)).
  assert (0 ≤ trad_die num z p / nchs spp < luns_per_ch spp).
  { split; [apply Z.div_pos; lia|apply Z.div_lt_upper_bound; lia]. }
  assert (0 ≤ trad_blk spp num per z p / blks_per_pl spp < pls_per_lun spp).
  { split; [apply Z.div_pos; lia|apply Z.div_lt_upper_bound; lia]. }
  unfold valid_ppa, trad_addr. cbn [g_ch g_lun g_pl g_blk g_pg g_sec].
  repeat (apply andb_true_intro; split); first [apply Z.leb_le|apply Z.ltb_lt]; lia.
Qed.

Lemma trad_addr_inj spp num per z p z' p' :
  trad_ok spp num per → trad_in spp num per z p → trad_in spp num per z' p' →
  trad_addr spp num per z p = trad_addr spp num per z' p' → z = z' ∧ p = p'.
Proof.
  intros Ht Hi Hi' [= Hc Hl Hp Hb Hg].
  pose proof (trad_ofst_range _ _ _ _ _ Ht Hi). pose proof (trad_ofst_range _ _ _ _ _ Ht Hi').
  destruct Ht as [Hn _ _ (_ & Hb0 & _) Hpg _ (Hn0 & _) _ _].
  assert (trad_die num z p = trad_die num z' p') as Hd.
  { rewrite (Z.div_mod (trad_die num z p) (nchs spp)), (Z.div_mod (trad_die num z' p') (nchs spp)) by lia.
    by rewrite Hc, Hl. }
  assert (trad_blk spp num per z p = trad_blk spp num per z' p') as Hk.
  { rewrite (Z.div_mod (trad_blk spp num per z p) (blks_per_pl spp)),
      (Z.div_mod (trad_blk spp num per z' p') (blks_per_pl spp)) by lia. by rewrite Hp, Hb. }
  unfold trad_die, trad_blk, PARA_LEVEL in *.
  pose proof (Z.mod_pos_bound p 16). pose proof (Z.mod_pos_bound p' 16).
  assert (z mod num = z' mod num ∧ p / 16 / pgs_per_blk spp = p' / 16 / pgs_per_blk spp) as [Hzm Hq]
    by (apply (Z.div_mod_unique per); lia).
  assert (z / num = z' / num ∧ p mod 16 = p' mod 16) as [Hzd Hpm] by lia. split.
  - rewrite (Z.div_mod z num), (Z.div_mod z' num) by lia. by rewrite Hzm, Hzd.
  - assert (p / 16 = p' / 16) as Hpd.
    { rewrite (Z.div_mod (p / 16) (pgs_per_blk spp)), (Z.div_mod (p' / 16) (pgs_per_blk spp)) by lia.
      by rewrite Hq, Hg. }
    rewrite (Z.div_mod p 16), (Z.div_mod p' 16) by lia. by rewrite Hpd, Hpm.
Qed.

Lemma trad_group_lookup a j :
  0 ≤ j < PARA_LEVEL →
  aget ((λ i : nat, u32 (a + Z.of_nat i)) <$> seq 0 (Z.to_nat PARA_LEVEL)) j = Some (u32 (a + j)).
Proof.
  intros Hj. apply aget_Some. split; [lia|]. rewrite list_lookup_fmap.
  rewrite lookup_seq_lt by lia. cbn. do 2 f_equal. lia.
Qed.

Lemma wp_get_ppa_trad spp t num per z w Q0 :
  trad_ok spp num per → block_group_num_per_die t = num → 0 ≤ w →
  trad_in spp num per z (w / secs_per_pg spp) →
  (∀ t', block_group_num_per_die t' = num → Q0 (trad_addr spp num per z (w / secs_per_pg spp)) t') →
  wp (get_ppa_by_zone_info_tradition spp z w (secsz spp)) Q0 t.
Proof.
  intros Ht Hnum Hw Hin HQ0. set (p := w / secs_per_pg spp) in *.
  pose proof (trad_die_range _ _ _ _ _ Ht Hin) as Hdie. pose proof (trad_blk_range _ _ _ _ _ Ht Hin) as Hblk.
  pose proof (trad_ofst_range _ _ _ _ _ Ht Hin) as Hof. pose proof Hin as (Hz & Hdr & Hp).
  destruct Ht as [Hn Hper Hfill (Hbl & Hb0 & Hp0) Hpg [Hs Hsz] (Hn0 & Hl0 & Htt) (Hr1 & Hr2 & Hr3) (B1 & B2 & B3 & B4 & B5)].
  pose proof (Z.mod_pos_bound z num) as Hzm. pose proof (Z.div_pos z num) as Hzd.
  pose proof (Z.mod_pos_bound p 16) as Hpm. unfold trad_die, PARA_LEVEL in *.
  unfold get_ppa_by_zone_info_tradition, PARA_LEVEL. do 2 wp_step. rewrite Hnum. wp_step.
  apply wp_cdiv; [lia|lia|]. rewrite (u64_small (_ * 16)), (u32_small (_ * 16)) by lia. do 2 wp_step.
  wp_step. apply wp_cmod; [lia|lia|]. wp_step.
  apply wp_cdiv; [nia|lia|]. rewrite Z.div_mul by lia. wp_step. apply wp_cdiv; [lia|lia|]. fold p.
  rewrite (u32_small p) by lia. rewrite Z.rem_mod_nonneg, Z.quot_div_nonneg by lia.
  wp_step. eapply wp_load; [apply trad_group_lookup; unfold PARA_LEVEL; lia|]. rewrite (u32_small (_ + p mod 16)) by lia.
  wp_step. apply wp_cmod; [lia|lia|]. wp_step. apply wp_cdiv; [lia|lia|].
  unfold get_ppa_by_blkg_info. rewrite !u32_small by lia. wp_step. apply wp_cdiv; [lia|lia|].
  assert (blks_per_lun spp / num = per) as -> by (rewrite <-Hfill, Z.mul_comm; apply Z.div_mul; lia).
  assert (0 ≤ p / 16) as Hp16 by (apply Z.div_pos; lia). unfold trad_blk, PARA_LEVEL in Hblk.
  rewrite (u32_small (_ * per)), s32_small by lia. wp_step. apply wp_cdiv; [lia|lia|]. wp_step.
  apply wp_cmod; [lia|lia|]. wp_step. apply wp_cdiv; [lia|lia|]. wp_step. apply wp_cmod; [lia|lia|].
  wp_step. cbn [g_ch g_lun g_sec]. set (d := z / num * 16 + p mod 16) in *.
  set (b := z mod num * per + p / 16 / pgs_per_blk spp) in *.
  pose proof (Z.mod_pos_bound d (nchs spp)). pose proof (Z.mod_pos_bound b (blks_per_pl spp)).
  pose proof (Z.mod_pos_bound (p / 16) (pgs_per_blk spp)).
  assert (0 ≤ d / nchs spp < luns_per_ch spp)
    by (split; [apply Z.div_pos; lia|apply Z.div_lt_upper_bound; lia]).
  assert (0 ≤ b / blks_per_pl spp < pls_per_lun spp)
    by (split; [apply Z.div_pos; lia|apply Z.div_lt_upper_bound; lia]).
  rewrite (bf_small ch_bits _ (nchs spp)), (bf_small lun_bits _ (luns_per_ch spp)),
    (bf_small pl_bits _ (pls_per_lun spp)), (bf_small blk_bits _ (blks_per_pl spp)),
    (bf_small pg_bits _ (pgs_per_blk spp)) by lia.
  by apply (HQ0 (mk_trad _ num)).
Qed.
End trad.
