(* ===== verification/FtlTheorems.v ===== *)
(** * What the flash translation layer guarantees

    The properties of [src/zns/fairness/fairness.c] and [src/zns/supplement/], each from
    the specifications of the component files. *)

From stdpp Require Import base numbers option list list_numbers gmap.
From S2P Require Import Prelude ZnsTypes FtlList FtlTypes FtlMap FtlOps FtlStatic FtlAlloc FtlMapInv FtlOpen FtlAddr FtlTxn FtlServe FtlIssue FtlRw FtlDistribute FtlRun FtlTrad.

(** ** The die queues *)

Inductive queue_op (E : Type) := Ins (i : nat) (x : E) | Del (i : nat).
Arguments Ins {E} _ _.
Arguments Del {E} _.

(** The results of the deletions of a sequence of operations; [None] if it crashes. *)
Fixpoint run_ops {E} (D : DieQueue E) (q : @dq E D) (ops : list (queue_op E)) : option (list (option E)) :=
  match ops with
  | [] => Some []
  | Ins i x :: ops' => q' ← dq_insert q i x; run_ops D q' ops'
  | Del i :: ops' => r ← dq_delete q i; l ← run_ops D r.2 ops'; Some (r.1 :: l)
  end.

Section queues.
Context {E : Type} (new : gmap nat (Node_t E) → nat).
Hypothesis new_fresh : ∀ h, new h ∉ dom h.

Lemma linked_out_of_range (q : queues) (qs : list (list E)) i :
  dq_rep (DieQueue := linked new) q qs → qs !! i = None → q_lists q !! i = None.
Proof.
  intros [nss Hq] Hi. pose proof (Forall2_length _ _ _ (qr_lists _ _ _ Hq)) as Hl.
  rewrite (qr_view _ _ _ Hq), list_lookup_fmap in Hi. apply lookup_ge_None.
  rewrite Hl. apply lookup_ge_None. by destruct (nss !! i).
Qed.

Lemma linked_simulates ops (q : queues) (qs : list (list E)) :
  dq_rep (DieQueue := linked new) q qs → run_ops (linked new) q ops = run_ops (listDQ E) qs ops.
Proof.
  pose proof (linked_ok new new_fresh) as Hok.
  revert q qs. induction ops as [|[i x|i] ops IH]; intros q qs Hrep; [done| |].
  - cbn [run_ops]. destruct (qs !! i) as [xs|] eqn:Hi.
    + destruct (dq_insert_ok _ _ _ _ x Hrep Hi) as (q' & Hins & Hrep'). rewrite Hins.
      cbn [dq_insert listDQ]. rewrite Hi. cbn [mbind option_bind]. by apply IH.
    + cbn [dq_insert listDQ linked]. unfold insert_at.
      by rewrite (linked_out_of_range _ _ _ Hrep Hi), Hi.
  - cbn [run_ops]. destruct (qs !! i) as [[|x xs]|] eqn:Hi.
    + rewrite (dq_delete_nil _ _ _ Hrep Hi). cbn [dq_delete listDQ]. rewrite Hi.
      cbn [mbind option_bind fst snd]. by rewrite (IH _ _ Hrep).
    + destruct (dq_delete_cons _ _ _ _ _ Hrep Hi) as (q' & Hdel & Hrep'). rewrite Hdel.
      cbn [dq_delete listDQ]. rewrite Hi. cbn [mbind option_bind fst snd]. by rewrite (IH _ _ Hrep').
    + cbn [dq_delete listDQ linked]. unfold delete_at.
      by rewrite (linked_out_of_range _ _ _ Hrep Hi), Hi.
Qed.

(** C24: the doubly linked lists of the dies ([InitList], [InsertInTail],
    [DeleteInHead] on a heap of nodes) are first-in first-out queues: any sequence of
    operations on any number of them gives the results it gives on plain lists, for every
    allocator that returns unused addresses. *)
Theorem queue_fifo k (ops : list (queue_op E)) :
  run_ops (linked new) (init_lists new k ∅) ops = run_ops (listDQ E) (replicate k []) ops.
Proof.
  apply linked_simulates. pose proof (linked_ok new new_fresh) as Hok.
  exact (dq_init_ok (D := linked new) k).
Qed.
End queues.

(** ** The mapping *)

(** [alloc_fbg] for a whole FBG ends whenever the count of the die group says that
    one is left (the count is accurate by the invariant): it returns an FBG that was free,
    marks it, decrements the count and changes no other group. *)
Theorem alloc_fbg_ok (m : dymap_t) (i part0 : Z) (g : die_group_t) :
  aget (die_group m) i = Some g → group_ok (fbgs_per_dg m) g → 0 < remain_fbgs_num g →
  ∃ k g', alloc_fbg 1 i part0 m =
      Done (k, part0) (dm_set_die_group (<[Z.to_nat i := g']> (die_group m)) m) ∧
    aget (fbgs_used_bitmap g) k = Some 0 ∧
    fbgs_used_bitmap g' = <[Z.to_nat k := 1]> (fbgs_used_bitmap g) ∧
    remain_fbgs_num g' = remain_fbgs_num g - 1 ∧ group_ok (fbgs_per_dg m) g'.
Proof.
  intros Hg Hok Hr. pose proof (wp_alloc_fbg_whole i part0 g m Hg Hok Hr) as Hwp.
  apply wp_done in Hwp as (r & m' & Hrun & k & -> & Hk & ->).
  exists k, (take_fbg (fbgs_per_dg m) k g). split_and!; try done. by apply take_fbg_ok.
Qed.

(** Opening a zone that has no FBG and is not open succeeds when the chosen group has
    room: the zone gets a free FBG of a group that the fewest open zones use among those
    considered, it becomes live and open, the other zones stay where they are, and the
    invariant of the mapping is kept. *)
Theorem open_ok (N : Z) (m : dymap_t) (live : gset Z) (opened : list Z) (z g u : Z) :
  map_inv N m live opened → 0 ≤ z < N → z ∉ live → z ∉ opened →
  Z.of_nat (length opened) < MAXOPENZONES → open_choice m = Some (g, u) →
  ∃ m' k, zone_open N z m = Done tt m' ∧ map_inv N m' ({[z]} ∪ live) (opened ++ [z]) ∧
    zone_loc m' z = Some (g, k) ∧ fbg_used m g k = Some 0 ∧
    (∀ z', z' ≠ z → zone_loc m' z' = zone_loc m z') ∧
    (∀ g' u', g' ∈ candidates m → aget (die_group_used_bitmap m) g' = Some u' → u ≤ u').
Proof.
  intros Hinv Hz Hnl Hno Hlen Hch.
  pose proof (wp_zone_open _ _ _ _ _ _ _ Hinv Hz Hlen Hch) as Hwp.
  apply wp_done in Hwp as ([] & m' & Hrun & Hpost).
  pose proof (open_post_inv _ _ _ _ _ _ Hinv Hnl Hno Hlen Hpost) as Hinv'.
  destruct Hpost as (g0 & u0 & k & pz & dg & Hch0 & Hpz & Hdg & Hk & ->).
  rewrite Hch in Hch0. injection Hch0 as <- <-. set (m0 := dm_set_used _ _) in *.
  assert (flash_inv N m0 live) as Hfi by (by apply (flash_inv_ext N m); [..|apply Hinv]).
  eexists _, k. split; [exact Hrun|]. split; [done|].
  split; [by apply (map_zone_loc_eq N m0 live)|]. split; [by apply (fbg_used_Some _ _ dg)|].
  split; [intros z' Hne; by rewrite (map_zone_loc_ne m0)|].
  apply (open_choice_spec _ _ _ Hch).
Qed.

Section layer.
Context {Q : DieQueue nat} {HQ : DieQueueOk Q} {B : PpaBits} {M : Malloc} {HM : MallocOk M}.

(** Resetting a live zone puts one erase transaction on the queue of each die of its
    group, behind what waits there, makes its FBG free again and keeps the invariant with
    the zone no longer live; the request is then outstanding and not yet submitted. *)
Theorem reset_ok (n : ftl_ctrl) (s : zns_ssd) (live : gset Z) (opened : list Z)
    (qs : list (list nat)) (req : nat) (z : Z) :
  ftl_inv n s live opened qs → z ∈ live → is_Some (req_store s !! req) →
  ∃ s' g k ids, zone_reset req z s = Done true s' ∧ zone_loc (dymap s) z = Some (g, k) ∧
    reset_post n req z g k s live opened qs s' ids.
Proof.
  intros Hinv Hl Hreq. pose proof (wp_zone_reset _ _ _ _ _ _ _ Hinv Hl Hreq) as Hwp.
  apply wp_done in Hwp as (b & s' & Hrun & -> & g & k & ids & Hloc & Hpost). by exists s', g, k, ids.
Qed.

(** C7: every page of a live zone has an address of the array, and no two pages of live
    zones, be it the same zone or different ones, have the same address. *)
Theorem pages_disjoint (N : Z) (m : dymap_t) (live : gset Z) (opened : list Z) (spp : ssdparams)
    (z z' w w' : Z) :
  map_inv N m live opened → array_ok spp (die_group_sum m) → fbgs_per_dg m = blks_per_pl spp →
  z ∈ live → z' ∈ live → 0 ≤ w < zone_pages spp * secs_per_pg spp →
  0 ≤ w' < zone_pages spp * secs_per_pg spp →
  ∃ a a', get_ppa_by_lba_base spp z w m = Done a m ∧ get_ppa_by_lba_base spp z' w' m = Done a' m ∧
    valid_ppa spp a = true ∧
    (a = a' ↔ z = z' ∧ w / secs_per_pg spp = w' / secs_per_pg spp).
Proof.
  intros [Hfi _] Ha Hf Hl Hl' Hw Hw'. pose proof (ao_secs _ _ Ha) as Hs.
  assert (∀ x v, x ∈ live → 0 ≤ v < zone_pages spp * secs_per_pg spp → ∃ g k,
    zone_loc m x = Some (g, k) ∧ 0 ≤ g < die_group_sum m ∧ 0 ≤ k < blks_per_pl spp ∧
    0 ≤ v / secs_per_pg spp < zone_pages spp ∧
    get_ppa_by_lba_base spp x v m = Done (page_addr spp g k (v / secs_per_pg spp)) m) as Hget.
  { intros x v Hx Hv. destruct (live_zone _ _ _ _ Hfi Hx) as
      (pz & g & k & dg & Hpz & Hn1 & _ & _ & Hloc & _ & _ & _ & _ & Hg & Hk).
    assert (0 ≤ v / secs_per_pg spp < zone_pages spp)
      by (split; [apply Z.div_pos; lia|apply Z.div_lt_upper_bound; lia]).
    exists g, k. split_and!; try done; try lia.
    pose proof (wp_get_ppa N m live spp x g k v (λ a m', a = page_addr spp g k (v / secs_per_pg spp) ∧ m' = m)) as Hwp.
    destruct (proj1 (wp_done _ _ _) (Hwp Hfi Ha ltac:(lia) ltac:(by exists pz) Hloc Hg ltac:(lia) ltac:(lia)
      ltac:(lia) (conj eq_refl eq_refl))) as (a & m' & Hrun & -> & ->). exact Hrun. }
  destruct (Hget _ _ Hl Hw) as (g & k & Hloc & Hg & Hk & Hp & ->).
  destruct (Hget _ _ Hl' Hw') as (g' & k' & Hloc' & _ & _ & _ & ->).
  eexists _, _. split_and!; [done|done|by eapply page_addr_valid|]. split.
  - intros (-> & -> & Hpp)%(page_addr_inj _ _ _ _ _ _ _ _ Ha). split; [|done].
    by apply (fi_inj _ _ _ Hfi z z' (g', k')).
  - intros [-> ->]. rewrite Hloc in Hloc'. by injection Hloc' as -> ->.
Qed.

(** C23: a read or write of a live zone that covers the start of at least one page becomes
    one transaction for each die involved, at most 16, each on the queue of its die; the
    pages are dealt to them round-robin, none is lost and no share is empty. *)
Theorem rw_splits (n : ftl_ctrl) (s : zns_ssd) (live : gset Z) (opened : list Z)
    (qs : list (list nat)) (req : nat) (rq : ftl_req) (z w : Z) :
  let spp := sp s in
  let nlb := rw_nlb (fr_cmd rq) + 1 in
  ftl_inv n s live opened qs → lba_ok n spp → zone_pages spp * secs_per_pg spp < 2 ^ 32 →
  z ∈ live → req_store s !! req = Some rq → is_rw (fr_cmd rq) →
  0 ≤ rw_nlb (fr_cmd rq) < 2 ^ 16 → 0 ≤ w → w + nlb ≤ zone_pages spp * secs_per_pg spp →
  0 < rw_pages spp w nlb →
  ∃ s' g k ids, zone_rw n req z w s = Done tt s' ∧ zone_loc (dymap s) z = Some (g, k) ∧
    let pages := Z.to_nat (rw_pages spp w nlb) in
    rw_post req (fr_cmd rq) z g (page_from spp w) pages s qs s' ids ∧
    sum_list (share (length ids) pages <$> seq 0 (length ids)) = pages ∧
    ∀ x, (x < length ids)%nat → (0 < share (length ids) pages x)%nat.
Proof.
  intros spp nlb Hinv Hlba Hu Hl Hrq Hrw Hnlb Hw Hend Hpos.
  pose proof (wp_zone_rw n s live opened qs req rq z w Hinv Hlba Hu Hl Hrq Hrw Hnlb Hw Hend) as Hwp.
  apply wp_done in Hwp as ([] & s' & Hrun & [[H0 _]|(_ & g & k & ids & Hloc & Hpost)]);
    [unfold spp, nlb in Hpos; lia|].
  pose proof (rw_count _ _ _ _ _ _ _ _ _ _ Hpost) as Hcount. unfold spp, nlb in *.
  exists s', g, k, ids. split_and!; [done|done|done|apply share_total; lia|].
  intros x Hx. apply share_pos; lia.
Qed.

(** C22: a command the mapping supports ([admissible]) is distributed without a failed
    assertion or an access out of bounds, the invariant of the layer is kept, and the
    request is submitted, or outstanding, or (a read or write inside a page already
    touched) dropped. *)
Theorem distribute_safe (n : ftl_ctrl) (s : zns_ssd) (live live' : gset Z) (opened opened' : list Z)
    (qs : list (list nat)) (p : Z) (req : nat) (rq : ftl_req) :
  ftl_inv n s live opened qs → ctrl_ok n → lba_ok n (sp s) →
  zone_pages (sp s) * secs_per_pg (sp s) < 2 ^ 32 → req_store s !! req = Some rq →
  admissible n s live opened (fr_cmd rq) live' opened' →
  ∃ s' qs' f, zns_req_distribute req n p s = Done tt s' ∧ ftl_inv n s' live' opened' qs' ∧
    accounted p req f s s' ∧ (f = Dropped → sub_page n (sp s) (fr_cmd rq)).
Proof.
  intros Hinv Hc Hlba Hu Hrq Hadm.
  pose proof (wp_zns_req_distribute n s live opened qs live' opened' p req rq Hinv Hc Hlba Hu Hrq Hadm) as Hwp.
  apply wp_done in Hwp as ([] & s' & Hrun & qs' & f & Hi & Hacc & Hd & _). by exists s', qs', f.
Qed.


(** C21: polling as often as the longest queue is long, with the dies found idle each
    time, submits every outstanding request, each once, and leaves none. *)
Theorem drain_ok (n : ftl_ctrl) (s : zns_ssd) (live : gset Z) (opened : list Z)
    (qs : list (list nat)) (clocks : list (Z → Z)) (p : Z) :
  ftl_inv n s live opened qs → (∀ q, q ∈ qs → (length q ≤ length clocks)%nat) →
  finds_idle clocks p s →
  ∃ s' done, poll clocks p s = Done tt s' ∧ outstanding s' = [] ∧
    enqueued s' = enqueued s ++ (pair p <$> done) ∧ done ≡ₚ outstanding s.
Proof.
  intros Hinv Hlen Hidle. pose proof (wp_poll _ _ _ _ (fv_io _ _ _ _ _ Hinv) Hlen Hidle) as Hwp.
  apply wp_done in Hwp as ([] & s' & Hrun & Ho & done & He & Hp). exists s', done.
  split_and!; try done. rewrite Hp, Ho, app_nil_r. done.
Qed.

(** [zns_ssd_init] followed by [zns_ftl_init] establishes the invariant of the layer
    for the built-in geometry, with no zone mapped, every queue empty and no request; only
    the strategy name "tradition map" is accepted. *)
Theorem ftl_init_ok (n : ftl_ctrl) (rd wr er zone_size_bs : Z) (t : sup_zns_phy_map_tradition_t) :
  wide → 0 ≤ fc_num_zones n → 0 < zone_size_bs →
  ∃ t' st s s', zns_ssd_init rd wr er MAP_TRADITION_NAME zone_size_bs t = Done (st, s) t' ∧
    zns_ftl_init n s = Done tt s' ∧ ftl_inv n s' ∅ [] (replicate 64 []) ∧
    enqueued s' = [] ∧ outstanding s' = [] ∧
    block_group_num_per_die t' = 2 ^ 33 / zone_size_bs.
Proof.
  intros Hw HN Hz. unfold zns_ssd_init, sup_zns_phy_m_strategy_select.
  rewrite bool_decide_eq_true_2 by done. cbn [load bind ret phy_zone_mapping_init sup_zns_phy_m_tradition_register].
  unfold phy_zone_mapping_init_tradition. rewrite bool_decide_eq_true_2 by done.
  unfold cdiv. rewrite (proj2 (Z.eqb_neq zone_size_bs 0)) by lia.
  set (q := dq_init 0). pose proof (built_in_unused rd wr er q Hw) as Hun. cbn zeta in Hun.
  set (s := mk_ssd _ _ _ _ _ _ _ _ _ _ _ _) in Hun.
  pose proof (wp_zns_ftl_init n s Hun HN) as Hwp.
  apply wp_done in Hwp as ([] & s' & Hrun & Hinv & He & Ho & _).
  eexists _, _, s, s'. split_and!; [reflexivity|done|exact Hinv|done|done|].
  cbn [block_group_num_per_die].
  replace (u64 _) with (2 ^ 33) by (vm_compute; reflexivity). by rewrite Z.quot_div_nonneg by lia.
Qed.

(** Under the traditional mapping with block groups that fill the dies, every page of
    a zone that fits on the device has an address of the array, and pages of the same or of
    different zones never share one. *)
Theorem trad_disjoint (spp : ssdparams) (t : sup_zns_phy_map_tradition_t) (per z z' w w' : Z) :
  let num := block_group_num_per_die t in
  let L := secs_per_pg spp in
  trad_ok spp num per → 0 ≤ w → 0 ≤ w' →
  trad_in spp num per z (w / L) → trad_in spp num per z' (w' / L) →
  ∃ a a' t1 t2, get_ppa_by_zone_info_tradition spp z w (secsz spp) t = Done a t1 ∧
    get_ppa_by_zone_info_tradition spp z' w' (secsz spp) t1 = Done a' t2 ∧
    valid_ppa spp a = true ∧ (a = a' ↔ z = z' ∧ w / L = w' / L).
Proof.
  intros num L Hok Hw Hw' Hin Hin'.
  pose proof (wp_get_ppa_trad spp t num per z w (λ a t1, a = trad_addr spp num per z (w / L) ∧
    block_group_num_per_die t1 = num) Hok eq_refl Hw Hin ltac:(done)) as H1.
  apply wp_done in H1 as (a & t1 & Hrun1 & -> & Ht1).
  pose proof (wp_get_ppa_trad spp t1 num per z' w' (λ a _, a = trad_addr spp num per z' (w' / L))
    Hok Ht1 Hw' Hin' ltac:(done)) as H2.
  apply wp_done in H2 as (a' & t2 & Hrun2 & ->). eexists _, _, t1, t2.
  split_and!; [exact Hrun1|exact Hrun2|by apply trad_addr_valid|]. split.
  - by apply trad_addr_inj.
  - by intros [-> ->].
Qed.
End layer.
