(* ===== verification/FtlRuns.v ===== *)
(** * Runs of the flash translation layer on a small device

    A device of 64 dies with one plane of two blocks of two pages each, and ten zones; the
    properties of [FtlTheorems] at states of its runs, and three runs the mapping does not
    support. *)

From stdpp Require Import base numbers option list list_numbers gmap infinite.
From S2P Require Import Prelude ZnsTypes ZnsOps FtlList FtlTypes FtlMap FtlOps FtlStatic FtlAlloc FtlMapInv FtlOpen FtlAddr FtlTxn FtlServe FtlIssue FtlRw FtlDistribute FtlRun FtlTrad FtlTheorems.

(** ** The device *)

#[local] Instance ex_bits : PpaBits := {|
  ch_bits := 7; lun_bits := 8; pl_bits := 8; blk_bits := 16; pg_bits := 16; sec_bits := 8 |}.
#[local] Instance ex_malloc : Malloc := {|
  new_ts h := fresh (dom h : gset nat); new_rp h := fresh (dom h : gset nat) |}.
#[local] Instance ex_malloc_ok : MallocOk ex_malloc.
Proof. split; intros h; exact (is_fresh (dom h : gset nat)). Qed.

Definition ex_sp : ssdparams :=
  mk_sp 512 8 2 2 1 8 8 40000 200000 2000000 0 16 32 32 256 2048 4 4 32 256 2 16 128 8 64 64.
Definition ex_lun : nand_lun := mk_lun [] 1 0 false.
Definition ex_ch : ssd_channel := mk_channel (replicate 8 ex_lun) 8 0 false.

Definition ex_blank : zns_ssd :=
  mk_ssd ex_sp (replicate 8 ex_ch) ([] : list (list nat)) null_dymap 1 zero_stats ∅ ∅ ∅ 0 0 [].

(** Zones of 256 blocks. *)
Definition ex_n : ftl_ctrl :=
  mk_ftl_ctrl 10 256 8 ((λ i : nat, Z.of_nat i * 256) <$> seq 0 10) 9.

Definition after {A} (c : ST zns_ssd A) (s : zns_ssd) : zns_ssd :=
  match c s with Done _ s' => s' | Crash => s end.

Definition ex_s0 : zns_ssd := after (zns_ftl_init ex_n) ex_blank.

(** A zone management command for zone [z], and a write of [nlb] blocks. *)
Definition ex_mgmt (action z : Z) : ftl_req :=
  mk_ftl_req (mk_cmd NVME_CMD_ZONE_MGMT_SEND true 0 0 (z * 256) 0 0 0 0 action) 0 0 0.
Definition ex_write (slba nlb : Z) : ftl_req :=
  mk_ftl_req (mk_cmd NVME_CMD_WRITE true 0 0 slba (nlb - 1) 0 0 0 0) 0 0 0.

Definition give (req : nat) (rq : ftl_req) (s : zns_ssd) : zns_ssd :=
  after (zns_req_distribute req ex_n 0) (arrive req rq s).

Lemma ex_unused : unused ex_blank.
Proof.
  split; try (vm_compute; reflexivity).
  - split; try (vm_compute; reflexivity); [vm_compute; discriminate|vm_compute; split; discriminate|].
    intros i c [-> _]%aget_replicate. reflexivity.
  - split; cbn; unfold INITIAL_OPEN_LIMIT, ZONE_MAX_DIE_PARA; lia.
Qed.

Lemma ex_inv0 : ftl_inv ex_n ex_s0 ∅ [] (no_transactions ex_blank) ∧ enqueued ex_s0 = [] ∧
  outstanding ex_s0 = [] ∧ sp ex_s0 = ex_sp ∧ start_up_flag ex_s0 = 1.
Proof.
  pose proof (wp_zns_ftl_init ex_n ex_blank ex_unused ltac:(done)) as Hwp.
  unfold ex_s0, after. unfold wp in Hwp. destruct (zns_ftl_init ex_n ex_blank); [|done].
  by destruct Hwp as (H1 & H2 & H3 & H4 & H5 & _).
Qed.

Lemma ex_ctrl : ctrl_ok ex_n.
Proof.
  split; try done. intros i Hi. cbn in Hi. apply aget_Some. split; [lia|].
  cbn [fc_zslba ex_n]. rewrite list_lookup_fmap, lookup_seq_lt by lia. cbn. f_equal. lia.
Qed.

Lemma ex_lba : lba_ok ex_n ex_sp.
Proof. split; done. Qed.

(** One command of the run. *)
Lemma ex_give req rq s live opened qs live' opened' :
  ftl_inv ex_n s live opened qs → sp s = ex_sp →
  admissible ex_n (arrive req rq s) live opened (fr_cmd rq) live' opened' →
  (∃ qs', ftl_inv ex_n (give req rq s) live' opened' qs') ∧ sp (give req rq s) = ex_sp ∧
  zns_req_distribute req ex_n 0 (arrive req rq s) = Done tt (give req rq s).
Proof.
  intros Hinv Hsp Hadm.
  assert (wp (zns_req_distribute req ex_n 0)
    (λ _, dist_post ex_n 0 req (fr_cmd rq) live' opened' (arrive req rq s)) (arrive req rq s)) as Hwp.
  { eapply wp_zns_req_distribute; [by apply ftl_inv_arrive|exact ex_ctrl|cbn; rewrite Hsp; exact ex_lba
      |by cbn; rewrite Hsp|cbn; apply lookup_insert_eq|done]. }
  unfold give, after. unfold wp in Hwp.
  destruct (zns_req_distribute req ex_n 0 (arrive req rq s)) as [[] s'|]; [|done].
  destruct Hwp as (qs' & f & Hi & _ & _ & _ & Hsp'). split; [by exists qs'|]. by rewrite Hsp'.
Qed.

(** Zone 0 open, then written: 40 blocks from block 0 on. *)
Definition ex_s1 : zns_ssd := give 1 (ex_mgmt 3 0) ex_s0.
Definition ex_s2 : zns_ssd := give 2 (ex_write 0 40) ex_s1.

Lemma ex_adm1 : admissible ex_n (arrive 1 (ex_mgmt 3 0) ex_s0) ∅ [] (fr_cmd (ex_mgmt 3 0)) ({[0]} ∪ ∅) ([] ++ [0]).
Proof.
  apply (adm_open _ _ _ _ _ 0 0 0).
  - by intros [?|?].
  - reflexivity.
  - split; [reflexivity|]. split; cbn; lia.
  - apply not_elem_of_empty.
  - by intros ?%elem_of_nil.
  - reflexivity.
  - vm_compute. reflexivity.
Qed.

Lemma ex_inv1 : (∃ qs, ftl_inv ex_n ex_s1 ({[0]} ∪ ∅) ([] ++ [0]) qs) ∧ sp ex_s1 = ex_sp ∧
  zns_req_distribute 1 ex_n 0 (arrive 1 (ex_mgmt 3 0) ex_s0) = Done tt ex_s1.
Proof.
  destruct ex_inv0 as (Hi & _ & _ & Hsp & _). eapply ex_give; [exact Hi|exact Hsp|exact ex_adm1].
Qed.

Lemma ex_adm_write s req slba nlb live opened :
  sp s = ex_sp → 0 ∈ live → 0 ≤ slba < 256 → 1 ≤ nlb ≤ 2 ^ 16 → slba + nlb ≤ 256 →
  admissible ex_n (arrive req (ex_write slba nlb) s) live opened (fr_cmd (ex_write slba nlb)) live opened.
Proof.
  intros Hsp Hl Hs Hn He. apply (adm_rw _ _ _ _ _ 0 slba).
  - by left.
  - split; [cbn; lia|]. split; cbn; lia.
  - done.
  - cbn. lia.
  - cbn [sp arrive set_req_store]. rewrite Hsp. cbn [fr_cmd ex_write rw_nlb].
    change (zone_pages ex_sp * secs_per_pg ex_sp) with 256. lia.
Qed.

Lemma ex_inv2 : (∃ qs, ftl_inv ex_n ex_s2 ({[0]} ∪ ∅) ([] ++ [0]) qs) ∧ sp ex_s2 = ex_sp ∧
  zns_req_distribute 2 ex_n 0 (arrive 2 (ex_write 0 40) ex_s1) = Done tt ex_s2.
Proof.
  destruct ex_inv1 as ([qs Hi] & Hsp & _).
  eapply ex_give; [exact Hi|exact Hsp|]. apply ex_adm_write; [exact Hsp|set_solver|lia..].
Qed.

(** ** The properties at these states *)

Lemma queue_fifo_witness :
  run_ops (linked (λ h : gmap nat (Node_t nat), fresh (dom h : gset nat)))
    (init_lists (λ h : gmap nat (Node_t nat), fresh (dom h : gset nat)) 2 ∅)
    [Ins 1 5; Ins 1 6; Ins 0 7; Del 1; Del 1; Del 1; Del 0]%nat =
  run_ops (listDQ nat) (replicate 2 []) [Ins 1 5; Ins 1 6; Ins 0 7; Del 1; Del 1; Del 1; Del 0]%nat.
Proof. apply queue_fifo. intros h. exact (is_fresh (dom h : gset nat)). Defined.

Definition ex_map : dymap_t := zns_dynamic_mapping_init ex_sp 10.

Lemma ex_map_inv : map_inv 10 ex_map ∅ [].
Proof. apply init_map_inv; [reflexivity|cbn; lia|lia]. Qed.

Lemma alloc_fbg_ok_witness : ∃ k g', alloc_fbg 1 2 0 ex_map =
    Done (k, 0) (dm_set_die_group (<[2%nat := g']> (die_group ex_map)) ex_map) ∧
  remain_fbgs_num g' = 1.
Proof.
  destruct (alloc_fbg_ok ex_map 2 0 (init_die_group 2 2)) as (k & g' & Hrun & _ & _ & Hr & _).
  - reflexivity.
  - apply (init_die_group_ok 2 2); lia.
  - reflexivity.
  - exists k, g'. split; [exact Hrun|exact Hr].
Defined.

Lemma open_ok_witness : ∃ m' k, zone_open 10 7 ex_map = Done tt m' ∧
  map_inv 10 m' ({[7]} ∪ ∅) ([] ++ [7]) ∧ zone_loc m' 7 = Some (0, k).
Proof.
  destruct (open_ok 10 ex_map ∅ [] 7 0 0) as (m' & k & Hrun & Hinv & Hloc & _).
  - exact ex_map_inv.
  - lia.
  - apply not_elem_of_empty.
  - by intros ?%elem_of_nil.
  - reflexivity.
  - vm_compute. reflexivity.
  - exists m', k. split; [exact Hrun|]. split; [exact Hinv|exact Hloc].
Defined.

Lemma ex_req1 : is_Some (req_store ex_s1 !! 1%nat).
Proof. eexists. vm_compute. reflexivity. Qed.

Lemma ex_live0 : (0 : Z) ∈ ({[0]} ∪ ∅ : gset Z).
Proof. set_solver. Qed.

Lemma reset_ok_witness : ∃ s' g k, zone_reset 1 0 ex_s1 = Done true s' ∧
  zone_loc (dymap ex_s1) 0 = Some (g, k) ∧ fbg_used (dymap s') g k = Some 0.
Proof.
  destruct ex_inv1 as ([qs Hi] & _).
  destruct (reset_ok ex_n ex_s1 _ _ qs 1 0 Hi ex_live0 ex_req1) as (s' & g & k & ids & Hrun & Hloc & Hp).
  exists s', g, k. split; [exact Hrun|]. split; [exact Hloc|]. apply (rs_free _ _ _ _ _ _ _ _ _ _ _ Hp).
Defined.

Lemma pages_disjoint_witness : ∃ a a', get_ppa_by_lba_base ex_sp 0 0 (dymap ex_s1) = Done a (dymap ex_s1) ∧
  get_ppa_by_lba_base ex_sp 0 255 (dymap ex_s1) = Done a' (dymap ex_s1) ∧ a ≠ a'.
Proof.
  destruct ex_inv1 as ([qs Hi] & Hsp & _). revert Hi Hsp. generalize ex_s1 as s. intros s Hi Hsp.
  destruct (pages_disjoint 10 (dymap s) ({[0]} ∪ ∅) ([] ++ [0]) ex_sp 0 0 0 255)
    as (a & a' & Ha & Ha' & _ & Heq).
  - exact (fv_map _ _ _ _ _ Hi).
  - rewrite <-Hsp. exact (fv_array _ _ _ _ _ Hi).
  - rewrite <-Hsp. exact (fv_fbgs _ _ _ _ _ Hi).
  - exact ex_live0.
  - exact ex_live0.
  - cbn; unfold zone_pages, ZONE_MAX_DIE_PARA; cbn. lia.
  - cbn; unfold zone_pages, ZONE_MAX_DIE_PARA; cbn. lia.
  - exists a, a'. split; [exact Ha|]. split; [exact Ha'|]. intros [_ Hbad]%Heq. cbn in Hbad. discriminate.
Defined.

Lemma rw_splits_witness : ∃ s' g ids, zone_rw ex_n 2 0 0 (arrive 2 (ex_write 0 40) ex_s1) = Done tt s' ∧
  rw_post 2 (fr_cmd (ex_write 0 40)) 0 g 0 5 (arrive 2 (ex_write 0 40) ex_s1)
    (queues_of ex_s1) s' ids.
Proof.
  destruct ex_inv1 as ([qs Hi] & Hsp & _). revert Hi Hsp. generalize ex_s1 as s. intros s Hi Hsp.
  pose proof (qi_rep _ _ (io_queue _ _ (fv_io _ _ _ _ _ Hi))) as Hq. cbn in Hq. subst qs.
  destruct (rw_splits ex_n (arrive 2 (ex_write 0 40) s) ({[0]} ∪ ∅) ([] ++ [0]) (queues_of s) 2
    (ex_write 0 40) 0 0) as (s' & g & k & ids & Hrun & _ & Hp & _).
  - apply ftl_inv_arrive. exact Hi.
  - cbn [sp arrive set_req_store]. rewrite Hsp. exact ex_lba.
  - cbn [sp arrive set_req_store]. rewrite Hsp. reflexivity.
  - exact ex_live0.
  - apply lookup_insert_eq.
  - left. reflexivity.
  - cbn. lia.
  - lia.
  - cbn [sp arrive set_req_store]. rewrite Hsp. vm_compute. discriminate.
  - cbn [sp arrive set_req_store]. rewrite Hsp. reflexivity.
  - exists s', g, ids. split; [exact Hrun|]. cbn [sp arrive set_req_store] in Hp. rewrite Hsp in Hp. exact Hp.
Defined.

Lemma distribute_safe_witness : ∃ s' qs' f,
  zns_req_distribute 2 ex_n 0 (arrive 2 (ex_write 0 40) ex_s1) = Done tt s' ∧
  ftl_inv ex_n s' ({[0]} ∪ ∅) ([] ++ [0]) qs' ∧
  accounted 0 2 f (arrive 2 (ex_write 0 40) ex_s1) s'.
Proof.
  destruct ex_inv1 as ([qs Hi] & Hsp & _). revert Hi Hsp. generalize ex_s1 as s. intros s Hi Hsp.
  destruct (distribute_safe ex_n (arrive 2 (ex_write 0 40) s) ({[0]} ∪ ∅) ({[0]} ∪ ∅) ([] ++ [0]) ([] ++ [0])
    qs 0 2 (ex_write 0 40)) as (s' & qs' & f & Hrun & Hi' & Hf & _).
  - apply ftl_inv_arrive. exact Hi.
  - exact ex_ctrl.
  - cbn [sp arrive set_req_store]. rewrite Hsp. exact ex_lba.
  - cbn [sp arrive set_req_store]. rewrite Hsp. reflexivity.
  - apply lookup_insert_eq.
  - apply ex_adm_write; [exact Hsp|exact ex_live0|lia..].
  - exists s', qs', f. split; [exact Hrun|]. split; [exact Hi'|exact Hf].
Defined.

Lemma ex_ftl_started : ftl_started ex_n ex_s0.
Proof.
  destruct ex_inv0 as (Hi & He & Ho & Hsp & _). revert Hi He Ho Hsp. generalize ex_s0 as s.
  intros s Hi He Ho Hsp. split; rewrite ?Hsp.
  - by eexists.
  - exact ex_ctrl.
  - exact ex_lba.
  - reflexivity.
  - by split.
Qed.


(** The write has five pages, so five dies have one transaction each. *)
Definition ex_clock (i : Z) : Z := 1000.

Lemma ex_short : forallb (λ q, Nat.leb (length q) 1) (queues_of ex_s2) = true.
Proof. vm_compute. reflexivity. Qed.
Lemma ex_idle : forallb (is_idle ex_clock ex_s2) (seqZ 0 64) = true.
Proof. vm_compute. reflexivity. Qed.

Lemma drain_ok_witness : ∃ s' done, poll [ex_clock] 0 ex_s2 = Done tt s' ∧ outstanding s' = [] ∧
  done ≡ₚ outstanding ex_s2.
Proof.
  destruct ex_inv2 as ([qs Hi] & Hsp & _). pose proof ex_short as Hshort. pose proof ex_idle as Hidle.
  revert Hi Hsp Hshort Hidle. generalize ex_s2 as s. intros s Hi Hsp Hshort Hidle.
  pose proof (qi_rep _ _ (io_queue _ _ (fv_io _ _ _ _ _ Hi))) as Hq. cbn in Hq. subst qs.
  destruct (drain_ok ex_n s _ _ (queues_of s) [ex_clock] 0 Hi) as (s' & done & Hrun & Ho & _ & Hp).
  - intros q Hq. rewrite forallb_forall in Hshort. apply Nat.leb_le, Hshort. by apply list_elem_of_In.
  - split; [|by destruct (zns_process_die_queue ex_clock 0 s)]. rewrite Hsp. intros i Hi'.
    rewrite forallb_forall in Hidle. apply Hidle, list_elem_of_In, elem_of_seqZ. cbn in Hi'. lia.
  - exists s', done. split; [exact Hrun|]. split; [exact Ho|exact Hp].
Defined.

Lemma ftl_init_ok_witness : ∃ t' st s s',
  zns_ssd_init 40000 200000 2000000 MAP_TRADITION_NAME (2 ^ 27) (mk_trad [] 0) = Done (st, s) t' ∧
  zns_ftl_init ex_n s = Done tt s' ∧ outstanding s' = [].
Proof.
  destruct (ftl_init_ok ex_n 40000 200000 2000000 (2 ^ 27) (mk_trad [] 0))
    as (t' & st & s & s' & H1 & H2 & _ & _ & H3 & _).
  - split; cbn; lia.
  - cbn. lia.
  - lia.
  - exists t', st, s, s'. split; [exact H1|]. split; [exact H2|exact H3].
Defined.

(** Zones of 128 MiB on the built-in array: 64 block groups of two blocks. *)
Definition ex_built_in : ssdparams := zns_ssd_init_params 40000 200000 2000000.

Lemma ex_trad_ok : trad_ok ex_built_in 64 2.
Proof. split; cbn; unfold PARA_LEVEL; lia. Qed.

Lemma trad_disjoint_witness : ∃ a a' t1 t2,
  get_ppa_by_zone_info_tradition ex_built_in 3 100 512 (mk_trad [] 64) = Done a t1 ∧
  get_ppa_by_zone_info_tradition ex_built_in 67 100 512 t1 = Done a' t2 ∧ a ≠ a'.
Proof.
  destruct (trad_disjoint ex_built_in (mk_trad [] 64) 2 3 67 100 100) as (a & a' & t1 & t2 & H1 & H2 & _ & He).
  - exact ex_trad_ok.
  - lia.
  - lia.
  - split_and!; vm_compute; (reflexivity || discriminate).
  - split_and!; vm_compute; (reflexivity || discriminate).
  - exists a, a', t1, t2. split; [exact H1|]. split; [exact H2|]. intros [Hbad _]%He. discriminate.
Defined.

(** ** Runs the mapping does not support *)


(** The reset of a zone that was never opened, while zone 0 has the first FBG: the request
    is wrapped with no transaction at all, so nothing will ever complete it. *)
Theorem reset_unopened_hangs :
  let s := give 4 (ex_mgmt 4 5) (give 3 (ex_mgmt 3 0) ex_s0) in
  outstanding s = [4%nat] ∧ enqueued s = [(0, 3%nat)] ∧ queues_of s = replicate 64 [].
Proof. vm_compute. split; [reflexivity|]. split; reflexivity. Qed.

(** A reset leaves an open zone among the open ones; opened again it is there twice, and
    closing it then fails the assertion on their number. *)
Theorem reopened_close_crashes :
  let s := give 5 (ex_mgmt 3 0) (give 4 (ex_mgmt 4 0) (give 3 (ex_mgmt 3 0) ex_s0)) in
  take 2 (opened_zones (dymap s)) = [0; 0] ∧
  zns_req_distribute 6 ex_n 0 (arrive 6 (ex_mgmt 1 0) s) = Crash.
Proof. vm_compute. split; reflexivity. Qed.
