(* ===== verification/ZenCoding.v ===== *)
(** * ZenFS: the byte encodings of its metadata

    RocksDB's [util/coding.h], [coding_lean.h] and [coding.cc] (fixed-width integers,
    varints, length-prefixed strings) and the masking of checksums of [util/crc32c.h].
    A [Slice] or [std::string] is the list of its bytes; the [Put...] functions return the
    extended string, the [Get...] functions the value and the rest of the slice, or
    [None] where the code returns [false].  A [Get...] that fails may leave the slice
    advanced; no caller in ZenFS reads the slice again then. *)

From stdpp Require Import base numbers option list.
From S2P Require Import Prelude.

Notation slice := (list Z).

Definition bytes (l : slice) : Prop := Forall (λ b, 0 ≤ b < 2 ^ 8) l.
(** [Slice::size]. *)
Definition size (l : slice) : Z := Z.of_nat (length l).

(** ** Fixed-width integers *)

Definition EncodeFixed16 (value : Z) : slice := le_bytes 2 value.
Definition EncodeFixed32 (value : Z) : slice := le_bytes 4 value.
Definition EncodeFixed64 (value : Z) : slice := le_bytes 8 value.
Definition DecodeFixed16 (ptr : slice) : Z := le_val (take 2 ptr).
Definition DecodeFixed32 (ptr : slice) : Z := le_val (take 4 ptr).
Definition DecodeFixed64 (ptr : slice) : Z := le_val (take 8 ptr).

Definition PutFixed16 (dst : slice) (value : Z) : slice := dst ++ EncodeFixed16 value.
Definition PutFixed32 (dst : slice) (value : Z) : slice := dst ++ EncodeFixed32 value.
Definition PutFixed64 (dst : slice) (value : Z) : slice := dst ++ EncodeFixed64 value.

Definition GetFixed16 (input : slice) : option (Z * slice) :=
  if size input <? 2 then None else Some (DecodeFixed16 input, drop 2 input).
Definition GetFixed32 (input : slice) : option (Z * slice) :=
  if size input <? 4 then None else Some (DecodeFixed32 input, drop 4 input).
Definition GetFixed64 (input : slice) : option (Z * slice) :=
  if size input <? 8 then None else Some (DecodeFixed64 input, drop 8 input).

(** ** Varints *)

Definition EncodeVarint32 (v : Z) : slice :=
  let B := 128 in
  if v <? Z.shiftl 1 7 then [u8 v]
  else if v <? Z.shiftl 1 14 then [u8 (Z.lor v B); u8 (Z.shiftr v 7)]
  else if v <? Z.shiftl 1 21 then
    [u8 (Z.lor v B); u8 (Z.lor (Z.shiftr v 7) B); u8 (Z.shiftr v 14)]
  else if v <? Z.shiftl 1 28 then
    [u8 (Z.lor v B); u8 (Z.lor (Z.shiftr v 7) B); u8 (Z.lor (Z.shiftr v 14) B); u8 (Z.shiftr v 21)]
  else
    [u8 (Z.lor v B); u8 (Z.lor (Z.shiftr v 7) B); u8 (Z.lor (Z.shiftr v 14) B);
     u8 (Z.lor (Z.shiftr v 21) B); u8 (Z.shiftr v 28)].

Definition PutVarint32 (dst : slice) (v : Z) : slice := dst ++ EncodeVarint32 v.

(** The loop of [GetVarint32PtrFallback]; [p] is what lies between [p] and [limit]. *)
Fixpoint varint32_loop (shift result : Z) (p : slice) : option (Z * slice) :=
  match p with
  | [] => None
  | byte :: p' =>
      if shift <=? 28 then
        if negb (Z.land byte 128 =? 0) then
          varint32_loop (shift + 7) (Z.lor result (u32 (Z.shiftl (Z.land byte 127) shift))) p'
        else Some (Z.lor result (u32 (Z.shiftl byte shift)), p')
      else None
  end.
Definition GetVarint32PtrFallback (p : slice) : option (Z * slice) := varint32_loop 0 0 p.

Definition GetVarint32Ptr (p : slice) : option (Z * slice) :=
  match p with
  | byte :: p' => if Z.land byte 128 =? 0 then Some (byte, p') else GetVarint32PtrFallback p
  | [] => GetVarint32PtrFallback p
  end.
Definition GetVarint32 (input : slice) : option (Z * slice) := GetVarint32Ptr input.

(** ** Length-prefixed strings *)

Definition PutLengthPrefixedSlice (dst value : slice) : slice :=
  PutVarint32 dst (u32 (size value)) ++ value.

Definition GetLengthPrefixedSlice (input : slice) : option (slice * slice) :=
  match GetVarint32 input with
  | Some (len, input) =>
      if len <=? size input
      then Some (take (Z.to_nat len) input, drop (Z.to_nat len) input) else None
  | None => None
  end.

(** ** Checksums

    The checksum itself is [crc32c::Extend], of which the code only uses that it is a
    function of the bytes with a 32-bit result. *)

Class Crc32c := { crc32c_Extend : Z → slice → Z }.
Class Crc32cOk (K : Crc32c) : Prop := {
  crc_range : ∀ c l, 0 ≤ crc32c_Extend c l < 2 ^ 32
}.

Definition crc32c_Value `{Crc32c} (data : slice) : Z := crc32c_Extend 0 data.

Definition kMaskDelta : Z := 0xa282ead8.
Definition crc32c_Mask (crc : Z) : Z :=
  u32 (Z.lor (Z.shiftr crc 15) (u32 (Z.shiftl crc 17)) + kMaskDelta).
Definition crc32c_Unmask (masked_crc : Z) : Z :=
  let rot := u32 (masked_crc - kMaskDelta) in
  Z.lor (Z.shiftr rot 17) (u32 (Z.shiftl rot 15)).

(** * ZenFS: round trips of the byte encodings *)

Create HintDb codec.

(** ** Bytes *)

Lemma bytes_app l1 l2 : bytes (l1 ++ l2) ↔ bytes l1 ∧ bytes l2.
Proof. apply Forall_app. Qed.

Lemma bytes_le k x : bytes (le_bytes k x).
Proof.
  revert x. induction k; intros x; cbn [le_bytes]; constructor; [|apply IHk].
  unfold u8. pose proof (Z.mod_pos_bound x (2 ^ 8)). lia.
Qed.

Lemma bytes_replicate k b : 0 ≤ b < 2 ^ 8 → bytes (replicate k b).
Proof. intros Hb. apply Forall_replicate. lia. Qed.

Lemma size_app l1 l2 : size (l1 ++ l2) = size l1 + size l2.
Proof. unfold size. rewrite length_app. lia. Qed.

Lemma size_nonneg l : 0 ≤ size l.
Proof. unfold size. lia. Qed.

(** ** Fixed-width integers *)

Lemma length_Fixed32 v : length (EncodeFixed32 v) = 4%nat.
Proof. apply length_le_bytes. Qed.
Lemma length_Fixed64 v : length (EncodeFixed64 v) = 8%nat.
Proof. apply length_le_bytes. Qed.

Lemma take_app_n {A} n (l1 l2 : list A) : length l1 = n → take n (l1 ++ l2) = l1.
Proof. intros <-. apply take_app_length. Qed.
Lemma drop_app_n {A} n (l1 l2 : list A) : length l1 = n → drop n (l1 ++ l2) = l2.
Proof. intros <-. apply drop_app_length. Qed.

Lemma GetFixed32_Put v rest :
  0 ≤ v < 2 ^ 32 → GetFixed32 (EncodeFixed32 v ++ rest) = Some (v, rest).
Proof.
  intros Hv. unfold GetFixed32, DecodeFixed32, size. rewrite length_app, length_Fixed32.
  rewrite (proj2 (Z.ltb_ge _ _)) by lia. rewrite take_app_n, drop_app_n by apply length_Fixed32.
  unfold EncodeFixed32. by rewrite le_val_bytes.
Qed.

Lemma GetFixed64_Put v rest :
  0 ≤ v < 2 ^ 64 → GetFixed64 (EncodeFixed64 v ++ rest) = Some (v, rest).
Proof.
  intros Hv. unfold GetFixed64, DecodeFixed64, size. rewrite length_app, length_Fixed64.
  rewrite (proj2 (Z.ltb_ge _ _)) by lia. rewrite take_app_n, drop_app_n by apply length_Fixed64.
  unfold EncodeFixed64. by rewrite le_val_bytes.
Qed.

Lemma GetFixed32_nil : GetFixed32 [] = None.
Proof. done. Qed.

(** ** Varints *)

Lemma lor_add a b k : 0 ≤ k → 0 ≤ a < 2 ^ k → Z.lor a (Z.shiftl b k) = a + b * 2 ^ k.
Proof.
  intros Hk Ha. rewrite Z.shiftl_mul_pow2 by done.
  assert (Z.land a (b * 2 ^ k) = 0) as Hl; [|by rewrite <-Z.lxor_lor, <-Z.add_nocarry_lxor].
  apply Z.bits_inj'. intros i Hi. rewrite Z.bits_0, Z.land_spec.
  destruct (decide (i < k)).
  - by rewrite (Z.mul_pow2_bits_low b) by lia; rewrite andb_false_r.
  - destruct (decide (a = 0)) as [->|]; [by rewrite Z.bits_0|].
    rewrite (Z.bits_above_log2 a); [done|lia|]. apply Z.log2_lt_pow2; [lia|].
    apply Z.lt_le_trans with (2 ^ k); [lia|]. apply Z.pow_le_mono_r; lia.
Qed.

(** A byte with the continuation bit. *)
Lemma more_byte x : 0 ≤ x → u8 (Z.lor x 128) = x mod 2 ^ 7 + 2 ^ 7.
Proof.
  intros Hx. pose proof (Z.mod_pos_bound x (2 ^ 7)).
  transitivity (Z.lor (x mod 2 ^ 7) (Z.shiftl 1 7)); [|rewrite lor_add; lia].
  unfold u8. apply Z.bits_inj'. intros i Hi. rewrite Z.lor_spec.
  destruct (decide (i < 8)).
  - rewrite Z.mod_pow2_bits_low, Z.lor_spec by lia. destruct (decide (i = 7)) as [->|].
    + by rewrite !orb_true_r.
    + by rewrite Z.mod_pow2_bits_low by lia.
  - rewrite !Z.mod_pow2_bits_high by lia. rewrite Z.shiftl_spec, (Z.bits_above_log2 1) by (cbn; lia). done.
Qed.

Lemma more_byte_flag r : 0 ≤ r < 2 ^ 7 → (Z.land (r + 2 ^ 7) 128 =? 0) = false.
Proof.
  intros Hr. apply negb_true_iff. rewrite (land_bit_testbit _ 7) by lia.
  rewrite Z.testbit_odd, Z.shiftr_div_pow2 by lia.
  replace ((r + 2 ^ 7) / 2 ^ 7) with 1; [done|]. apply Z.div_unique with r; lia.
Qed.

Lemma last_byte_flag r : 0 ≤ r < 2 ^ 7 → (Z.land r 128 =? 0) = true.
Proof.
  intros Hr. apply negb_false_iff. rewrite (land_bit_testbit _ 7) by lia.
  rewrite Z.testbit_odd, Z.shiftr_div_pow2, Z.div_small by lia. done.
Qed.

Lemma varint32_more shift res x p :
  0 ≤ x → 0 ≤ shift ≤ 25 → 0 ≤ res < 2 ^ shift →
  varint32_loop shift res (u8 (Z.lor x 128) :: p) =
  varint32_loop (shift + 7) (res + x mod 2 ^ 7 * 2 ^ shift) p.
Proof.
  intros Hx Hs Hr. pose proof (Z.mod_pos_bound x (2 ^ 7)). cbn [varint32_loop].
  rewrite (proj2 (Z.leb_le shift 28)), more_byte, more_byte_flag by lia. cbn [negb].
  rewrite (Z.land_ones _ 7) by lia. rewrite (Z.add_mod _ (2 ^ 7)), Z.mod_same, Z.add_0_r by lia.
  rewrite !Z.mod_mod by lia. rewrite u32_small, lor_add by
    (rewrite ?Z.shiftl_mul_pow2 by lia; assert (2 ^ shift ≤ 2 ^ 25) by (apply Z.pow_le_mono_r; lia); nia).
  done.
Qed.

Lemma varint32_last shift res b p :
  0 ≤ b < 2 ^ 7 → 0 ≤ shift ≤ 28 → 0 ≤ res < 2 ^ shift → b * 2 ^ shift < 2 ^ 32 →
  varint32_loop shift res (b :: p) = Some (res + b * 2 ^ shift, p).
Proof.
  intros Hb Hs Hr Hsmall. cbn [varint32_loop]. rewrite (proj2 (Z.leb_le shift 28)), last_byte_flag by lia.
  cbn [negb]. rewrite u32_small, lor_add by (rewrite ?Z.shiftl_mul_pow2; nia). done.
Qed.

Lemma GetVarint32_Put v rest :
  0 ≤ v < 2 ^ 32 → GetVarint32 (EncodeVarint32 v ++ rest) = Some (v, rest).
Proof.
  intros Hv. unfold GetVarint32, EncodeVarint32.
  change (Z.shiftl 1 7) with (2 ^ 7). change (Z.shiftl 1 14) with (2 ^ 14).
  change (Z.shiftl 1 21) with (2 ^ 21). change (Z.shiftl 1 28) with (2 ^ 28).
  assert (∀ x p, 0 ≤ x →
    GetVarint32Ptr (u8 (Z.lor x 128) :: p) = varint32_loop 7 (x mod 2 ^ 7) p) as Hmore.
  { intros x p Hx. cbn [GetVarint32Ptr]. rewrite more_byte, more_byte_flag, <-more_byte by
      (pose proof (Z.mod_pos_bound x (2 ^ 7)); lia).
    unfold GetVarint32PtrFallback. rewrite varint32_more by lia. f_equal. lia. }
  pose proof (Z.mod_pos_bound v (2 ^ 7)). rewrite !Z.shiftr_div_pow2 by lia.
  pose proof (Z.mod_pos_bound (v / 2 ^ 7) (2 ^ 7)). pose proof (Z.mod_pos_bound (v / 2 ^ 14) (2 ^ 7)).
  pose proof (Z.mod_pos_bound (v / 2 ^ 21) (2 ^ 7)).
  assert (∀ k, 0 ≤ k → v / 2 ^ k = v / 2 ^ k mod 2 ^ 7 + 2 ^ 7 * (v / 2 ^ (k + 7))) as Hstep.
  { intros k Hk. rewrite Z.pow_add_r, <-Z.div_div by lia. pose proof (Z.div_mod (v / 2 ^ k) (2 ^ 7)). lia. }
  pose proof (Hstep 0 ltac:(lia)) as Hs0. rewrite Z.div_1_r in Hs0.
  pose proof (Hstep 7 ltac:(lia)) as Hs7. pose proof (Hstep 14 ltac:(lia)) as Hs14.
  pose proof (Hstep 21 ltac:(lia)) as Hs21.
  change (0 + 7) with 7 in Hs0. change (7 + 7) with 14 in Hs7. change (14 + 7) with 21 in Hs14.
  change (21 + 7) with 28 in Hs21.
  assert (∀ k m, 0 ≤ m → v < 2 ^ (k + m) → 0 ≤ k → v / 2 ^ k < 2 ^ m) as Hlt.
  { intros k m Hm Hlt Hk. apply Z.div_lt_upper_bound; [lia|]. rewrite <-Z.pow_add_r by lia. done. }
  assert (∀ k, 0 ≤ k → 0 ≤ v / 2 ^ k) as Hpos by (intros; apply Z.div_pos; lia).
  assert (∀ x, 0 ≤ x < 2 ^ 8 → u8 x = x) as Hu8 by (intros; unfold u8; apply Z.mod_small; lia).
  pose proof (Hpos 7). pose proof (Hpos 14). pose proof (Hpos 21). pose proof (Hpos 28).
  repeat case_match; rewrite ?Z.ltb_lt, ?Z.ltb_ge in *; cbn [app].
  - cbn [GetVarint32Ptr]. rewrite Hu8, last_byte_flag by lia. done.
  - pose proof (Hlt 7 7). rewrite Hmore, Hu8, varint32_last by lia. do 2 f_equal. lia.
  - pose proof (Hlt 14 7). rewrite Hmore, varint32_more, Hu8, varint32_last by lia. do 2 f_equal. lia.
  - pose proof (Hlt 21 7). rewrite Hmore, !varint32_more, Hu8, varint32_last by lia. do 2 f_equal. lia.
  - pose proof (Hlt 28 4). rewrite Hmore, !varint32_more, Hu8, varint32_last by lia. do 2 f_equal. lia.
Qed.

(** ** Length-prefixed strings *)

Lemma GetLengthPrefixedSlice_Put value rest :
  size value < 2 ^ 32 →
  GetLengthPrefixedSlice (PutLengthPrefixedSlice [] value ++ rest) = Some (value, rest).
Proof.
  intros Hv. pose proof (size_nonneg value).
  unfold GetLengthPrefixedSlice, PutLengthPrefixedSlice, PutVarint32. rewrite app_nil_l, <-app_assoc.
  rewrite u32_small, GetVarint32_Put by lia.
  rewrite (proj2 (Z.leb_le _ _)) by (rewrite size_app; pose proof (size_nonneg rest); lia).
  unfold size. rewrite Nat2Z.id, take_app_n, drop_app_n; done.
Qed.

Lemma GetLengthPrefixedSlice_nil : GetLengthPrefixedSlice [] = None.
Proof. done. Qed.

Lemma Put_app32 dst v : PutFixed32 dst v = dst ++ PutFixed32 [] v.
Proof. done. Qed.
Lemma Put_app64 dst v : PutFixed64 dst v = dst ++ PutFixed64 [] v.
Proof. done. Qed.
Lemma Put_appL dst v : PutLengthPrefixedSlice dst v = dst ++ PutLengthPrefixedSlice [] v.
Proof. unfold PutLengthPrefixedSlice, PutVarint32. by rewrite app_nil_l, <-app_assoc. Qed.

(** ** Checksums *)

Lemma Unmask_Mask c : 0 ≤ c < 2 ^ 32 → crc32c_Unmask (crc32c_Mask c) = c.
Proof.
  intros Hc. unfold crc32c_Unmask, crc32c_Mask.
  assert (∀ x, 0 ≤ x < 2 ^ 32 → u32 (u32 (x + kMaskDelta) - kMaskDelta) = x) as Hd.
  { intros x Hx. unfold u32. rewrite Zminus_mod_idemp_l. replace (x + kMaskDelta - kMaskDelta) with x by lia.
    by apply Z.mod_small. }
  assert (0 ≤ c / 2 ^ 15 < 2 ^ 17) as Hhi
    by (split; [apply Z.div_pos; lia|apply Z.div_lt_upper_bound; lia]).
  pose proof (Z.mod_pos_bound c (2 ^ 15)) as Hlo.
  assert (u32 (Z.shiftl c 17) = Z.shiftl (c mod 2 ^ 15) 17) as E1.
  { rewrite !Z.shiftl_mul_pow2 by lia. unfold u32. change (2 ^ 32) with (2 ^ 15 * 2 ^ 17).
    by rewrite Z.mul_mod_distr_r by lia. }
  rewrite E1, (Z.shiftr_div_pow2 c), lor_add by lia. rewrite Hd by lia.
  set (rot := c / 2 ^ 15 + c mod 2 ^ 15 * 2 ^ 17).
  assert (rot / 2 ^ 17 = c mod 2 ^ 15) as E2 by (symmetry; apply Z.div_unique with (c / 2 ^ 15); lia).
  assert (rot mod 2 ^ 17 = c / 2 ^ 15) as E3 by (symmetry; apply Z.mod_unique with (c mod 2 ^ 15); lia).
  assert (u32 (Z.shiftl rot 15) = Z.shiftl (c / 2 ^ 15) 15) as E4.
  { rewrite !Z.shiftl_mul_pow2 by lia. unfold u32. change (2 ^ 32) with (2 ^ 17 * 2 ^ 15).
    by rewrite Z.mul_mod_distr_r, E3 by lia. }
  rewrite E4, Z.shiftr_div_pow2, E2, lor_add by lia. pose proof (Z.div_mod c (2 ^ 15)). lia.
Qed.
