(* ===== verification/CrcOps.v ===== *)
(** * RocksDB: CRC-32C

    [util/crc32c.cc] on x86: the portable computation with its four tables, the three-way
    computation with the CRC and carry-less multiplication instructions, the choice
    between them when the library is built, and the combination of two checksums into
    that of the concatenation.  A buffer is the list of its bytes together with its
    address, of which the code uses the alignment; pointers into it are offsets, and a
    result is [None] where the code would read outside the buffer or a table. *)

From stdpp Require Import base numbers option list.
From S2P Require Import Prelude ZenCoding CrcTables.

(** ** Reading memory *)

(** A little-endian load of [w] bytes at offset [off]. *)
Definition load_le (w : nat) (buf : slice) (off : Z) : option Z :=
  if (0 <=? off) && (off + Z.of_nat w <=? size buf)
  then Some (le_val (take w (drop (Z.to_nat off) buf))) else None.

(** ** The processor's instructions

    [crc32] (Intel SDM): the remainder, modulo the CRC-32C polynomial, of the
    bit-reflected operands.  [pclmulqdq]: the carry-less product of one 64-bit half of
    each operand, chosen by bits 0 and 4 of the immediate. *)

Fixpoint bit_reflect (w : nat) (x : Z) : Z :=
  match w with
  | O => 0
  | S w' => Z.lxor (if Z.odd x then 2 ^ Z.of_nat w' else 0) (bit_reflect w' (Z.shiftr x 1))
  end.

(** The remainder of a polynomial of [32 + k] bits. *)
Fixpoint mod2 (k : nat) (x : Z) : Z :=
  match k with
  | O => x
  | S k' =>
      mod2 k' (if Z.testbit x (32 + Z.of_nat k')
               then Z.lxor x (Z.shiftl 0x11EDC6F41 (Z.of_nat k')) else x)
  end.

Definition crc32_insn (w : nat) (crc v : Z) : Z :=
  bit_reflect 32 (mod2 w (Z.lxor (Z.shiftl (bit_reflect w v) 32)
                                 (Z.shiftl (bit_reflect 32 crc) (Z.of_nat w)))).

Definition _mm_crc32_u8 : Z → Z → Z := crc32_insn 8.
Definition _mm_crc32_u16 : Z → Z → Z := crc32_insn 16.
Definition _mm_crc32_u32 : Z → Z → Z := crc32_insn 32.
Definition _mm_crc32_u64 : Z → Z → Z := crc32_insn 64.

Fixpoint clmul (k : nat) (a b : Z) : Z :=
  match k with
  | O => 0
  | S k' => Z.lxor (if Z.odd a then b else 0) (clmul k' (Z.shiftr a 1) (Z.shiftl b 1))
  end.

Definition _mm_set_epi64x (e1 e0 : Z) : Z := e0 + Z.shiftl e1 64.
Definition _mm_cvtsi128_si64 (a : Z) : Z := u64 a.
Definition _mm_clmulepi64_si128 (a b imm8 : Z) : Z :=
  clmul 64 (u64 (if Z.testbit imm8 0 then Z.shiftr a 64 else a))
           (u64 (if Z.testbit imm8 4 then Z.shiftr b 64 else b)).

(** ** The portable computation *)

(** What the preprocessor sees when the library is built for x86. *)
Record Build := mk_build {
  __SSE4_2__ : bool;
  __LP64__ : bool;
  __PCLMUL__ : bool;
  NO_THREEWAY_CRC32C : bool;
}.

Definition LE_LOAD32 (buf : slice) (p : Z) : option Z := load_le 4 buf p.

(** Four bytes through the four tables. *)
Definition tables_step (buf : slice) (l p : Z) : option (Z * Z) :=
  w ← LE_LOAD32 buf p;
  let c := u32 (Z.lxor l w) in
  t3 ← table3_ !! Z.to_nat (Z.land c 0xff);
  t2 ← table2_ !! Z.to_nat (Z.land (Z.shiftr c 8) 0xff);
  t1 ← table1_ !! Z.to_nat (Z.land (Z.shiftr c 16) 0xff);
  t0 ← table0_ !! Z.to_nat (Z.shiftr c 24);
  Some (Z.lxor (Z.lxor (Z.lxor t3 t2) t1) t0, p + 4).

Definition DefaultCRC32 (b : Build) (buf : slice) (lp : Z * Z) : option (Z * Z) :=
  let '(l, p) := lp in
  if negb (__SSE4_2__ b) then
    '(l, p) ← tables_step buf l p;
    tables_step buf l p
  else if __LP64__ b then
    w ← load_le 8 buf p;
    Some (_mm_crc32_u64 l w, p + 8)
  else
    w ← LE_LOAD32 buf p;
    let l := _mm_crc32_u32 (u32 l) w in
    w ← LE_LOAD32 buf (p + 4);
    Some (_mm_crc32_u32 (u32 l) w, p + 4 + 4).

Definition STEP1 (buf : slice) (lp : Z * Z) : option (Z * Z) :=
  let '(l, p) := lp in
  byte ← load_le 1 buf p;
  t ← table0_ !! Z.to_nat (Z.lxor (Z.land l 0xff) byte);
  Some (Z.lxor t (Z.shiftr l 8), p + 1).

(** [while (cond) body]; the fuel is the number of bytes of the buffer and one more,
    since every iteration advances the pointer. *)
Fixpoint while (fuel : nat) (cond : Z * Z → bool) (body : Z * Z → option (Z * Z))
    (lp : Z * Z) : option (Z * Z) :=
  match fuel with
  | O => None
  | S fuel => if cond lp then lp ← body lp; while fuel cond body lp else Some lp
  end.

(** [ALIGN(n, m)] on addresses. *)
Definition ALIGN (n m : Z) : Z := Z.land (u64 (n + (Z.shiftl 1 m - 1))) (Z.lnot (Z.shiftl 1 m - 1)).

Section extend_impl.
Variable CRC32 : slice → Z * Z → option (Z * Z).

Definition ExtendImpl (addr crc : Z) (buf : slice) : option Z :=
  let fuel := S (length buf) in
  let e := size buf in
  let lp := (Z.lxor crc 0xffffffff, 0) in
  let x := ALIGN addr 4 - addr in
  lp ← if x <=? e then while fuel (λ '(_, p), negb (p =? x)) (STEP1 buf) lp else Some lp;
  lp ← while fuel (λ '(_, p), 16 <=? e - p) (λ lp, lp ← CRC32 buf lp; CRC32 buf lp) lp;
  lp ← while fuel (λ '(_, p), 8 <=? e - p) (CRC32 buf) lp;
  '(l, _) ← while fuel (λ '(_, p), negb (p =? e)) (STEP1 buf) lp;
  Some (u32 (Z.lxor l 0xffffffff)).

End extend_impl.

(** ** The three-way computation *)

Definition align_to_8 (len crc0 : Z) (buf : slice) (next : Z) : option (Z * Z) :=
  let crc32bit := u32 crc0 in
  '(crc32bit, next) ← (if negb (Z.land len 4 =? 0)
    then w ← load_le 4 buf next; Some (_mm_crc32_u32 crc32bit w, next + 4)
    else Some (crc32bit, next));
  '(crc32bit, next) ← (if negb (Z.land len 2 =? 0)
    then w ← load_le 2 buf next; Some (_mm_crc32_u16 crc32bit w, next + 2)
    else Some (crc32bit, next));
  if negb (Z.land len 1 =? 0)
  then w ← load_le 1 buf next; Some (_mm_crc32_u8 crc32bit w, next + 1)
  else Some (crc32bit, next).

Definition CombineCRC (block_size crc0 crc1 crc2 : Z) (buf : slice) (next2 : Z) : option Z :=
  lo ← clmul_constants !! Z.to_nat (2 * (block_size - 1));
  hi ← clmul_constants !! Z.to_nat (2 * (block_size - 1) + 1);
  let multiplier := _mm_set_epi64x hi lo in
  let crc0_xmm := _mm_set_epi64x 0 crc0 in
  let res0 := _mm_clmulepi64_si128 crc0_xmm multiplier 0x00 in
  let crc1_xmm := _mm_set_epi64x 0 crc1 in
  let res1 := _mm_clmulepi64_si128 crc1_xmm multiplier 0x10 in
  let res := Z.lxor res0 res1 in
  w ← load_le 8 buf (next2 - 8);
  let crc0 := Z.lxor (_mm_cvtsi128_si64 res) w in
  Some (_mm_crc32_u64 crc2 crc0).

(** The words [off], [off - 1], ... before the three ends, the switch entered at [off]:
    triplets down to the second, and the pair of the first. *)
Fixpoint duff (off : nat) (buf : slice) (next0 next1 next2 crc0 crc1 crc2 : Z) :
    option (Z * Z * Z) :=
  match off with
  | O => Some (crc0, crc1, crc2)
  | S off' =>
      w0 ← load_le 8 buf (next0 - 8 * Z.of_nat off);
      w1 ← load_le 8 buf (next1 - 8 * Z.of_nat off);
      let crc0 := _mm_crc32_u64 crc0 w0 in
      let crc1 := _mm_crc32_u64 crc1 w1 in
      if Nat.eqb off 1 then Some (crc0, crc1, crc2)
      else
        w2 ← load_le 8 buf (next2 - 8 * Z.of_nat off);
        duff off' buf next0 next1 next2 crc0 crc1 (_mm_crc32_u64 crc2 w2)
  end.

(** The [do ... while (n > 0)] in the switch; the fuel is [n]. *)
Fixpoint triplet_blocks (fuel : nat) (n block_size : Z) (buf : slice)
    (next0 next1 next2 crc0 : Z) : option (Z * Z) :=
  match fuel with
  | O => None
  | S fuel =>
      '(crc0, crc1, crc2) ← duff (Z.to_nat block_size) buf next0 next1 next2 crc0 0 0;
      crc0 ← CombineCRC block_size crc0 crc1 crc2 buf next2;
      if 0 <? n - 1 then
        let next0 := next2 + 8 * 128 in
        let next1 := next0 + 8 * 128 in
        triplet_blocks fuel (n - 1) 128 buf next0 next1 (next1 + 8 * 128) crc0
      else Some (crc0, next2)
  end.

(** The switch over the single words: [count] words that end at [next]. *)
Fixpoint singlets (count : nat) (buf : slice) (next crc0 : Z) : option Z :=
  match count with
  | O => Some crc0
  | S count' =>
      w ← load_le 8 buf (next - 8 * Z.of_nat count);
      singlets count' buf next (_mm_crc32_u64 crc0 w)
  end.

(** Buffers of more than 216 bytes: align, then the triplets. *)
Definition triplets (addr len crc0 : Z) (buf : slice) : option (Z * Z * Z) :=
  let align_bytes := Z.land (u64 (8 - addr)) 7 in
  let len := len - align_bytes in
  '(crc0, next) ← align_to_8 align_bytes crc0 buf 0;
  let count := len / 24 in
  let len := len mod 24 in
  let n := Z.shiftr count 7 in
  let block_size := Z.land count 127 in
  let '(block_size, n) := if block_size =? 0 then (128, n) else (block_size, n + 1) in
  let next0 := next + 8 * block_size in
  let next1 := next0 + 8 * block_size in
  let next2 := next1 + 8 * block_size in
  '(crc0, next) ← triplet_blocks (Z.to_nat n) n block_size buf next0 next1 next2 crc0;
  Some (len, crc0, next).

(** The [if (len >= 8)] of the function: all whole words. *)
Definition words (addr len crc0 : Z) (buf : slice) : option (Z * Z * Z) :=
  '(len, crc0, next) ← (if 216 <? len then triplets addr len crc0 buf else Some (len, crc0, 0));
  let count2 := Z.shiftr len 3 in
  let len := Z.land len 7 in
  let next := next + count2 * 8 in
  crc0 ← (if count2 <=? 27 then singlets (Z.to_nat count2) buf next crc0 else Some crc0);
  Some (len, crc0, next).

Definition crc32c_3way (addr crc : Z) (buf : slice) : option Z :=
  let len := size buf in
  let crc0 := Z.lxor crc 0xffffffff in
  '(len, crc0, next) ← (if 8 <=? len then words addr len crc0 buf else Some (len, crc0, 0));
  '(crc0, _) ← align_to_8 len crc0 buf next;
  Some (Z.lxor (u32 crc0) 0xffffffff).

(** ** The build's choice *)

Definition Choose_Extend (b : Build) : Z → Z → slice → option Z :=
  if __SSE4_2__ b && __PCLMUL__ b && negb (NO_THREEWAY_CRC32C b)
  then crc32c_3way else ExtendImpl (DefaultCRC32 b).

Definition Extend (b : Build) (addr crc : Z) (buf : slice) : option Z := Choose_Extend b addr crc buf.

(** ** Combining checksums *)

(** The recursion of [gf_multiply_sw_1] from [i] to 32; [k] is [32 - i]. *)
Fixpoint gf_multiply_sw_1 (k : nat) (p a b m : Z) : Z :=
  match k with
  | O => p
  | S k' =>
      gf_multiply_sw_1 k'
        (Z.lxor p (Z.land (u32 (0 - Z.land (Z.shiftr b 31) 1)) a))
        (Z.lxor (Z.shiftr a 1) (Z.land (u32 (0 - Z.land a 1)) m))
        (u32 (Z.shiftl b 1)) m
  end.
Definition gf_multiply_sw (a b m : Z) : Z := gf_multiply_sw_1 32 0 a b m.
Definition gf_square_sw (a m : Z) : Z := gf_multiply_sw a a m.

Fixpoint gf_powers_memo (i : nat) (m : Z) : Z :=
  match i with O => m | S i' => gf_square_sw (gf_powers_memo i' m) m end.

Definition gf_powers_make (n : nat) (m : Z) : list Z := (λ i, gf_powers_memo i m) <$> seq 0 n.

Definition crc32c_m : Z := 0x82f63b78.
Definition crc32c_powers : list Z := gf_powers_make 62 crc32c_m.

(** [CountTrailingZeroBits] of a nonzero number. *)
Fixpoint CountTrailingZeroBits_pos (p : positive) : Z :=
  match p with xO p => 1 + CountTrailingZeroBits_pos p | _ => 0 end.
Definition CountTrailingZeroBits (v : Z) : Z :=
  match v with Zpos p => CountTrailingZeroBits_pos p | _ => 0 end.

(** The loop of [Crc32AppendZeroes]; [i] is the distance of [powers] from the array's
    start.  Each iteration drops a bit of [len_bits], so 64 of them are enough. *)
Fixpoint append_zeroes_loop (fuel : nat) (crc len_bits i polynomial : Z) (powers : list Z) : option Z :=
  if len_bits =? 0 then Some crc else
  match fuel with
  | O => None
  | S fuel =>
      let r := CountTrailingZeroBits len_bits in
      let len_bits := Z.shiftr len_bits r in
      let i := i + r in
      power ← powers !! Z.to_nat i;
      append_zeroes_loop fuel (gf_multiply_sw crc power polynomial)
        (Z.shiftr len_bits 1) (i + 1) polynomial powers
  end.
Definition Crc32AppendZeroes (crc len_over_4 polynomial : Z) (powers_array : list Z) : option Z :=
  append_zeroes_loop 64 crc len_over_4 0 polynomial powers_array.

Definition InvertedToPure (crc : Z) : Z := u32 (Z.lnot crc).
Definition PureToInverted (crc : Z) : Z := u32 (Z.lnot crc).
Definition PureExtend (b : Build) (addr crc : Z) (buf : slice) : option Z :=
  InvertedToPure <$> Extend b addr (PureToInverted crc) buf.

(** [addr] is where the array [zeros] lies. *)
Definition Crc32cCombine (b : Build) (addr crc1 crc2 crc2len : Z) : option Z :=
  let pure_crc1_with_init := InvertedToPure crc1 in
  let pure_crc2_with_init := InvertedToPure crc2 in
  let pure_crc2_init := 0xffffffff in
  let zeros := [0; 0; 0; 0] in
  let len := Z.land crc2len 3 in
  let tmp := Z.lxor pure_crc1_with_init pure_crc2_init in
  tmp ← (if negb (len =? 0) then PureExtend b addr tmp (take (Z.to_nat len) zeros) else Some tmp);
  appended ← Crc32AppendZeroes tmp (crc2len / 4) crc32c_m crc32c_powers;
  Some (PureToInverted (Z.lxor appended pure_crc2_with_init)).
