(* ===== verification/CrcAlgebra.v ===== *)
(** * RocksDB: the algebra of CRC-32C

    A checksum of 32 bits is a polynomial over GF(2), bit 31 the constant term.  One bit
    of the computation multiplies it by x modulo the CRC-32C polynomial ([bit_step]), and
    everything the implementations do is linear over exclusive or.  This file has the
    linear functions, the laws of [steps], and the checksum of a buffer in one formula
    ([crc_fold_le]): multiply what was there, together with the buffer read as one
    little-endian number, by x as often as the buffer has bits. *)

From stdpp Require Import base numbers option list.
From S2P Require Import Prelude ZenCoding CrcTables CrcOps.

(** ** The reference computation, bit by bit *)

Definition bit_step (c : Z) : Z := Z.lxor (Z.shiftr c 1) (if Z.odd c then crc32c_m else 0).
Definition steps (n : N) (c : Z) : Z := N.iter n bit_step c.
Definition byte_step (c b : Z) : Z := steps 8 (Z.lxor c b).
Definition crc_fold (c : Z) (l : slice) : Z := foldl byte_step c l.

(** The CRC-32C of [l], continuing from the checksum [crc]. *)
Definition crc32c (crc : Z) (l : slice) : Z :=
  Z.lxor (crc_fold (Z.lxor crc 0xffffffff) l) 0xffffffff.

(** ** Linear functions *)

Class Linear (f : Z → Z) : Prop := linear a b : f (Z.lxor a b) = Z.lxor (f a) (f b).

Lemma linear_0 f `{!Linear f} : f 0 = 0.
Proof. pose proof (linear 0 0) as H. change (Z.lxor 0 0) with 0 in H. by rewrite Z.lxor_nilpotent in H. Qed.

Lemma lxor_4 a b c d : Z.lxor (Z.lxor a b) (Z.lxor c d) = Z.lxor (Z.lxor a c) (Z.lxor b d).
Proof.
  apply Z.bits_inj'. intros i _. rewrite !Z.lxor_spec.
  by destruct (Z.testbit a i), (Z.testbit b i), (Z.testbit c i), (Z.testbit d i).
Qed.

#[export] Instance linear_id : Linear (λ x, x).
Proof. done. Qed.
#[export] Instance linear_lxor f g : Linear f → Linear g → Linear (λ x, Z.lxor (f x) (g x)).
Proof. intros Hf Hg a b. rewrite Hf, Hg. apply lxor_4. Qed.
#[export] Instance linear_shiftr f n : Linear f → Linear (λ x, Z.shiftr (f x) n).
Proof. intros Hf a b. rewrite Hf. apply Z.shiftr_lxor. Qed.
#[export] Instance linear_shiftl f n : Linear f → Linear (λ x, Z.shiftl (f x) n).
Proof. intros Hf a b. rewrite Hf. apply Z.shiftl_lxor. Qed.
#[export] Instance linear_u64 f : Linear f → Linear (λ x, u64 (f x)).
Proof.
  intros Hf a b. rewrite Hf. unfold u64. rewrite <- !Z.land_ones by lia.
  apply Z.bits_inj'. intros i _. rewrite !Z.lxor_spec, !Z.land_spec, Z.lxor_spec.
  by destruct (Z.testbit (f a) i), (Z.testbit (f b) i), (Z.testbit (Z.ones 64) i).
Qed.
Lemma linear_testbit f i m : Linear f → Linear (λ x, if Z.testbit (f x) i then m else 0).
Proof.
  intros Hf a b. rewrite Hf, Z.lxor_spec.
  destruct (Z.testbit (f a) i), (Z.testbit (f b) i); cbn [xorb];
    by rewrite ?Z.lxor_nilpotent, ?Z.lxor_0_r, ?Z.lxor_0_l.
Qed.
#[export] Instance linear_odd f m : Linear f → Linear (λ x, if Z.odd (f x) then m else 0).
Proof. intros Hf a b. rewrite <- !Z.bit0_odd. by apply (linear_testbit f 0 m). Qed.
#[export] Instance linear_bit_step : Linear bit_step.
Proof. unfold bit_step. apply _. Qed.
#[export] Instance linear_steps n f : Linear f → Linear (λ x, steps n (f x)).
Proof.
  intros Hf a b. unfold steps. rewrite Hf. induction n as [|n IH] using N.peano_ind; [done|].
  rewrite !N.iter_succ, IH. apply linear_bit_step.
Qed.

Lemma steps_lxor n a b : steps n (Z.lxor a b) = Z.lxor (steps n a) (steps n b).
Proof. apply (linear_steps n _ linear_id). Qed.
#[export] Instance linear_steps_fun n : Linear (steps n).
Proof. exact (steps_lxor n). Qed.

(** ** Bounds *)

Lemma lxor_range n a b :
  0 ≤ n → 0 ≤ a < 2 ^ n → 0 ≤ b < 2 ^ n → 0 ≤ Z.lxor a b < 2 ^ n.
Proof.
  intros Hn Ha Hb. assert (Hx : 0 ≤ Z.lxor a b) by (apply Z.lxor_nonneg; lia).
  split; [done|]. apply Z.bounded_iff_bits_nonneg; [done..|]. intros i Hi.
  rewrite Z.lxor_spec, (proj1 (Z.bounded_iff_bits_nonneg n a Hn ltac:(lia))) by lia.
  by rewrite (proj1 (Z.bounded_iff_bits_nonneg n b Hn ltac:(lia))) by lia.
Qed.

Lemma bit_step_range c : 0 ≤ c < 2 ^ 32 → 0 ≤ bit_step c < 2 ^ 32.
Proof.
  intros Hc. unfold bit_step. apply lxor_range; [done| |case_match; unfold crc32c_m; lia].
  rewrite Z.shiftr_div_pow2 by lia. split; [apply Z.div_pos; lia|].
  apply Z.div_lt_upper_bound; lia.
Qed.

Lemma steps_range n c : 0 ≤ c < 2 ^ 32 → 0 ≤ steps n c < 2 ^ 32.
Proof.
  intros Hc. unfold steps. induction n as [|n IH] using N.peano_ind; [done|].
  rewrite N.iter_succ. by apply bit_step_range.
Qed.

(** ** Laws of [steps] *)

Lemma steps_0 c : steps 0 c = c.
Proof. done. Qed.
Lemma steps_add m n c : steps (m + n) c = steps m (steps n c).
Proof. apply N.iter_add. Qed.
Lemma steps_swap m n c : steps m (steps n c) = steps n (steps m c).
Proof. rewrite <- !steps_add. f_equal. lia. Qed.

Lemma bit_step_double c : bit_step (Z.shiftl c 1) = c.
Proof.
  unfold bit_step. rewrite Z.shiftr_shiftl_l, Z.sub_diag, Z.shiftl_0_r by lia.
  rewrite <- Z.bit0_odd, Z.shiftl_spec_low by lia. apply Z.lxor_0_r.
Qed.

(** What lies [n] bits up moves down unchanged. *)
Lemma steps_shiftl n c : steps n (Z.shiftl c (Z.of_N n)) = c.
Proof.
  induction n as [|n IH] using N.peano_ind; [done|].
  replace (N.succ n) with (n + 1)%N by lia. rewrite steps_add. unfold steps at 2. cbn [N.iter].
  rewrite N2Z.inj_add, <- Z.shiftl_shiftl by lia. cbn [Pos.iter]. by rewrite bit_step_double.
Qed.

Lemma steps_shiftl_le m n c :
  (n ≤ m)%N → steps m (Z.shiftl c (Z.of_N n)) = steps (m - n) c.
Proof.
  intros Hn. replace m with ((m - n) + n)%N at 1 by lia. by rewrite steps_add, steps_shiftl.
Qed.

(** The step loses nothing: only zero becomes zero. *)
Lemma bit_step_inj0 c : 0 ≤ c < 2 ^ 32 → bit_step c = 0 → c = 0.
Proof.
  intros Hc Heq. unfold bit_step in Heq. apply Z.lxor_eq in Heq.
  rewrite Z.shiftr_div_pow2 in Heq by lia. pose proof (Z.div_mod c 2 ltac:(lia)) as Hd.
  rewrite Zmod_odd in Hd. change (2 ^ 1) with 2 in Heq. unfold crc32c_m in Heq.
  destruct (Z.odd c); lia.
Qed.
Lemma steps_inj0 n c : 0 ≤ c < 2 ^ 32 → steps n c = 0 → c = 0.
Proof.
  intros Hc. induction n as [|n IH] using N.peano_ind; [done|].
  unfold steps. rewrite N.iter_succ. intros H%bit_step_inj0; [by apply IH|].
  by apply (steps_range n).
Qed.

#[global] Opaque steps.

(** ** Linear functions are given by their values on the powers of two *)

Definition agree (n : nat) (f g : Z → Z) : bool :=
  forallb (λ i, f (2 ^ Z.of_nat i) =? g (2 ^ Z.of_nat i)) (seq 0 n).

Lemma agree_ext n f g `{!Linear f, !Linear g} x :
  agree n f g = true → 0 ≤ x < 2 ^ Z.of_nat n → f x = g x.
Proof.
  unfold agree. rewrite forallb_forall. intros Hag. revert x.
  assert (∀ k, (k ≤ n)%nat → ∀ x, 0 ≤ x < 2 ^ Z.of_nat k → f x = g x) as H.
  { induction k as [|k IH]; intros Hk x Hx.
    { assert (x = 0) as -> by (change (2 ^ Z.of_nat 0) with 1 in Hx; lia).
      by rewrite !linear_0. }
    set (d := 2 ^ Z.of_nat k) in *. assert (Hd : 0 < d) by (apply Z.pow_pos_nonneg; lia).
    replace (2 ^ Z.of_nat (S k)) with (2 * d) in Hx
      by (subst d; rewrite Nat2Z.inj_succ, Z.pow_succ_r; lia).
    destruct (decide (x < d)) as [Hlt|Hge]; [apply IH; lia|].
    assert (x = Z.lxor (x - d) d) as ->.
    { rewrite <- Z.add_nocarry_lxor; [lia|]. subst d. apply Z.bits_inj'. intros i Hi.
      rewrite Z.land_spec, Z.pow2_bits_eqb, Z.bits_0 by lia.
      destruct (Z.eqb_spec (Z.of_nat k) i) as [<-|]; [|by rewrite andb_false_r].
      rewrite andb_true_r. apply (Z.bounded_iff_bits_nonneg (Z.of_nat k)); lia. }
    rewrite !linear. f_equal; [apply IH; lia|].
    apply Z.eqb_eq, Hag, in_seq. lia. }
  intros x. apply H. done.
Qed.

(** ** The checksum of a buffer *)

Lemma lxor_low b v : 0 ≤ b < 2 ^ 8 → 0 ≤ v → b + 2 ^ 8 * v = Z.lxor b (Z.shiftl v 8).
Proof.
  intros Hb Hv. rewrite Z.shiftl_mul_pow2 by lia. rewrite <- Z.add_nocarry_lxor; [lia|].
  rewrite <- Z.shiftl_mul_pow2 by lia. apply Z.bits_inj'. intros i Hi.
  rewrite Z.land_spec, Z.bits_0. destruct (decide (i < 8)).
  - rewrite Z.shiftl_spec_low by lia. apply andb_false_r.
  - by rewrite (proj1 (Z.bounded_iff_bits_nonneg 8 b ltac:(lia) ltac:(lia))) by lia.
Qed.

Lemma crc_fold_app c l1 l2 : crc_fold c (l1 ++ l2) = crc_fold (crc_fold c l1) l2.
Proof. apply foldl_app. Qed.

Lemma crc_fold_le c l :
  bytes l → crc_fold c l = steps (8 * N.of_nat (length l)) (Z.lxor c (le_val l)).
Proof.
  intros Hl. revert c. induction Hl as [|b l Hb Hl IH]; intros c.
  { cbn. by rewrite Z.lxor_0_r. }
  cbn [length le_val]. change (crc_fold c (b :: l)) with (crc_fold (byte_step c b) l). rewrite IH.
  pose proof (le_val_range l Hl). rewrite lxor_low, <- Z.lxor_assoc by lia.
  replace (8 * N.of_nat (S (length l)))%N with (8 * N.of_nat (length l) + 8)%N by lia.
  rewrite steps_add. f_equal. rewrite steps_lxor. unfold byte_step. f_equal.
  symmetry. apply (steps_shiftl 8).
Qed.

Lemma crc_fold_range c l : 0 ≤ c < 2 ^ 32 → bytes l → 0 ≤ crc_fold c l < 2 ^ 32.
Proof.
  intros Hc Hl. revert c Hc. induction Hl as [|b l Hb Hl IH]; intros c Hc; [done|].
  apply IH. apply steps_range, lxor_range; lia.
Qed.

(** The start value and the buffer contribute separately. *)
Lemma crc_fold_lxor c d l :
  crc_fold (Z.lxor c d) l = Z.lxor (steps (8 * N.of_nat (length l)) c) (crc_fold d l).
Proof.
  revert c d. induction l as [|b l IH]; intros c d; [done|].
  cbn [length]. change (crc_fold ?c (b :: l)) with (crc_fold (byte_step c b) l).
  unfold byte_step at 1. rewrite Z.lxor_assoc, steps_lxor, IH, <- steps_add.
  f_equal. f_equal. lia.
Qed.
Lemma crc_fold_0 c l : crc_fold c l = Z.lxor (steps (8 * N.of_nat (length l)) c) (crc_fold 0 l).
Proof. rewrite <- crc_fold_lxor. by rewrite Z.lxor_0_r. Qed.

(** ** The processor's instruction does as many steps as its operand has bits *)

#[export] Instance linear_bit_reflect w f : Linear f → Linear (λ x, bit_reflect w (f x)).
Proof. revert f. induction w as [|w IH]; intros f Hf; cbn [bit_reflect]; [done|]. apply _. Qed.

#[export] Instance linear_mod2 k f : Linear f → Linear (λ x, mod2 k (f x)).
Proof.
  revert f. induction k as [|k IH]; intros f Hf; cbn [mod2]; [done|]. apply IH.
  intros a b. pose proof (linear_lxor _ _ Hf
    (linear_testbit f (32 + Z.of_nat k) (Z.shiftl 0x11EDC6F41 (Z.of_nat k)) Hf) a b) as H.
  cbv beta in H. revert H. repeat case_match; by rewrite ?Z.lxor_0_r.
Qed.

(** What the register and the operand contribute. *)
Definition insn_reg (w : nat) (c : Z) : Z :=
  bit_reflect 32 (mod2 w (Z.shiftl (bit_reflect 32 c) (Z.of_nat w))).
Definition insn_val (w : nat) (v : Z) : Z := bit_reflect 32 (mod2 w (Z.shiftl (bit_reflect w v) 32)).
#[export] Instance linear_insn_reg w : Linear (insn_reg w).
Proof. exact (linear_bit_reflect 32 _ (linear_mod2 w _ (linear_shiftl _ _ (linear_bit_reflect 32 _ linear_id)))). Qed.
#[export] Instance linear_insn_val w : Linear (insn_val w).
Proof. exact (linear_bit_reflect 32 _ (linear_mod2 w _ (linear_shiftl _ _ (linear_bit_reflect w _ linear_id)))). Qed.

Definition insn_ok (w : nat) : bool :=
  agree 32 (insn_reg w) (steps (N.of_nat w)) && agree w (insn_val w) (steps (N.of_nat w)).

Lemma crc32_insn_steps w c v :
  insn_ok w = true → 0 ≤ c < 2 ^ 32 → 0 ≤ v < 2 ^ Z.of_nat w →
  crc32_insn w c v = steps (N.of_nat w) (Z.lxor c v).
Proof.
  intros [Hc Hv]%andb_true_iff Hcr Hvr.
  trans (Z.lxor (insn_val w v) (insn_reg w c)).
  { exact (linear_bit_reflect 32 _ (linear_mod2 w _ linear_id) _ _). }
  rewrite (Z.lxor_comm c), steps_lxor. f_equal.
  - by apply (agree_ext w (insn_val w) (steps (N.of_nat w))).
  - by apply (agree_ext 32 (insn_reg w) (steps (N.of_nat w))).
Qed.

Lemma crc32_u8 c v : 0 ≤ c < 2 ^ 32 → 0 ≤ v < 2 ^ 8 → _mm_crc32_u8 c v = steps 8 (Z.lxor c v).
Proof. intros. apply (crc32_insn_steps 8); [vm_compute; reflexivity|done..]. Qed.
Lemma crc32_u16 c v : 0 ≤ c < 2 ^ 32 → 0 ≤ v < 2 ^ 16 → _mm_crc32_u16 c v = steps 16 (Z.lxor c v).
Proof. intros. apply (crc32_insn_steps 16); [vm_compute; reflexivity|done..]. Qed.
Lemma crc32_u32 c v : 0 ≤ c < 2 ^ 32 → 0 ≤ v < 2 ^ 32 → _mm_crc32_u32 c v = steps 32 (Z.lxor c v).
Proof. intros. apply (crc32_insn_steps 32); [vm_compute; reflexivity|done..]. Qed.
Lemma crc32_u64 c v : 0 ≤ c < 2 ^ 32 → 0 ≤ v < 2 ^ 64 → _mm_crc32_u64 c v = steps 64 (Z.lxor c v).
Proof. intros. apply (crc32_insn_steps 64); [vm_compute; reflexivity|done..]. Qed.
