(* ===== verification/CrcSpec.v ===== *)
(** * RocksDB: the computations of CRC-32C against the reference

    Each computation advances a checksum over a buffer.  [crc_at c buf p] is the checksum
    of the first [p] bytes; every step of the code takes it from one offset to a later
    one, and never reads outside the buffer. *)

From stdpp Require Import base numbers option list.
From S2P Require Import Prelude ZenCoding CrcTables CrcOps CrcAlgebra.

(** ** Parts of a buffer *)

Definition part (buf : slice) (off len : Z) : slice := take (Z.to_nat len) (drop (Z.to_nat off) buf).

Lemma part_app buf off a b :
  0 ≤ off → 0 ≤ a → 0 ≤ b → part buf off (a + b) = part buf off a ++ part buf (off + a) b.
Proof.
  intros. unfold part. rewrite !Z2Nat.inj_add, <- take_take_drop, drop_drop by lia. done.
Qed.

Lemma part_bytes buf off len : bytes buf → bytes (part buf off len).
Proof. intros. by apply Forall_take, Forall_drop. Qed.

Lemma part_length buf off len :
  0 ≤ off → 0 ≤ len → off + len ≤ size buf → length (part buf off len) = Z.to_nat len.
Proof. unfold part, size. intros. rewrite length_take, length_drop. lia. Qed.

Lemma part_all buf : part buf 0 (size buf) = buf.
Proof. unfold part, size. rewrite Nat2Z.id, drop_0. by apply take_ge. Qed.

Lemma load_le_part w buf off :
  0 ≤ off → off + Z.of_nat w ≤ size buf → load_le w buf off = Some (le_val (part buf off (Z.of_nat w))).
Proof.
  intros Ho Hw. unfold load_le, part. rewrite Nat2Z.id.
  rewrite (proj2 (Z.leb_le 0 off)), (proj2 (Z.leb_le _ _)) by lia. done.
Qed.

(** Loading [w] bytes and stepping over their bits is the checksum of those bytes. *)
Lemma word_fold (w : nat) buf c off :
  bytes buf → 0 ≤ off → off + Z.of_nat w ≤ size buf →
  ∃ v, load_le w buf off = Some v ∧ 0 ≤ v < 2 ^ (8 * Z.of_nat w) ∧
       steps (8 * N.of_nat w) (Z.lxor c v) = crc_fold c (part buf off (Z.of_nat w)).
Proof.
  intros Hbuf Hp Hw. exists (le_val (part buf off (Z.of_nat w))).
  pose proof (part_length buf off (Z.of_nat w) ltac:(lia) ltac:(lia) ltac:(lia)) as Hl.
  pose proof (part_bytes buf off (Z.of_nat w) Hbuf) as Hb.
  split; [by apply load_le_part|]. rewrite Nat2Z.id in Hl. split.
  { pose proof (le_val_range _ Hb) as Hr. by rewrite Hl in Hr. }
  rewrite crc_fold_le by done. by rewrite Hl.
Qed.

Lemma word64 buf c off :
  bytes buf → 0 ≤ c < 2 ^ 32 → 0 ≤ off → off + 8 ≤ size buf →
  ∃ v, load_le 8 buf off = Some v ∧ 0 ≤ v < 2 ^ 64 ∧ _mm_crc32_u64 c v = crc_fold c (part buf off 8).
Proof.
  intros Hbuf Hc Ho Hw. destruct (word_fold 8 buf c off Hbuf Ho Hw) as (v & Hl & Hv & Hs).
  exists v. split; [done|]. split; [exact Hv|]. rewrite crc32_u64 by done. exact Hs.
Qed.
Lemma word32 buf c off :
  bytes buf → 0 ≤ c < 2 ^ 32 → 0 ≤ off → off + 4 ≤ size buf →
  ∃ v, load_le 4 buf off = Some v ∧ _mm_crc32_u32 c v = crc_fold c (part buf off 4).
Proof.
  intros Hbuf Hc Ho Hw. destruct (word_fold 4 buf c off Hbuf Ho Hw) as (v & Hl & Hv & Hs).
  exists v. split; [done|]. rewrite crc32_u32 by done. exact Hs.
Qed.
Lemma word16 buf c off :
  bytes buf → 0 ≤ c < 2 ^ 32 → 0 ≤ off → off + 2 ≤ size buf →
  ∃ v, load_le 2 buf off = Some v ∧ _mm_crc32_u16 c v = crc_fold c (part buf off 2).
Proof.
  intros Hbuf Hc Ho Hw. destruct (word_fold 2 buf c off Hbuf Ho Hw) as (v & Hl & Hv & Hs).
  exists v. split; [done|]. rewrite crc32_u16 by done. exact Hs.
Qed.
Lemma word8 buf c off :
  bytes buf → 0 ≤ c < 2 ^ 32 → 0 ≤ off → off + 1 ≤ size buf →
  ∃ v, load_le 1 buf off = Some v ∧ _mm_crc32_u8 c v = crc_fold c (part buf off 1).
Proof.
  intros Hbuf Hc Ho Hw. destruct (word_fold 1 buf c off Hbuf Ho Hw) as (v & Hl & Hv & Hs).
  exists v. split; [done|]. rewrite crc32_u8 by done. exact Hs.
Qed.

Section buffer.
Variable buf : slice.
Hypothesis Hbuf : bytes buf.
Variable c : Z.
Hypothesis Hc : 0 ≤ c < 2 ^ 32.

Definition crc_at (p : Z) : Z := crc_fold c (part buf 0 p).

Lemma crc_at_range p : 0 ≤ crc_at p < 2 ^ 32.
Proof using Hbuf Hc. apply crc_fold_range; [done|]. by apply part_bytes. Qed.

Lemma crc_at_0 : crc_at 0 = c.
Proof. done. Qed.

Lemma crc_at_add p w : 0 ≤ p → 0 ≤ w → crc_at (p + w) = crc_fold (crc_at p) (part buf p w).
Proof. intros. unfold crc_at. by rewrite (part_app buf 0 p w), crc_fold_app by lia. Qed.

(** ** The tables *)

Definition table_ok (t : list Z) (n : N) : bool :=
  forallb (λ i, bool_decide (t !! i = Some (steps n (Z.of_nat i)))) (seq 0 256).

Lemma table_lookup t n i :
  table_ok t n = true → 0 ≤ i < 2 ^ 8 → t !! Z.to_nat i = Some (steps n i).
Proof.
  unfold table_ok. rewrite forallb_forall. intros Ht Hi.
  specialize (Ht (Z.to_nat i) ltac:(apply in_seq; lia)). apply bool_decide_eq_true in Ht.
  by rewrite Ht, Z2Nat.id by lia.
Qed.

Lemma table0_ok : table_ok table0_ 8 = true.
Proof. vm_compute. reflexivity. Qed.
Lemma table1_ok : table_ok table1_ 16 = true.
Proof. vm_compute. reflexivity. Qed.
Lemma table2_ok : table_ok table2_ 24 = true.
Proof. vm_compute. reflexivity. Qed.
Lemma table3_ok : table_ok table3_ 32 = true.
Proof. vm_compute. reflexivity. Qed.

Lemma land_ff x : Z.land x 0xff = x mod 2 ^ 8.
Proof. apply (Z.land_ones x 8). lia. Qed.

Lemma split_low x : 0 ≤ x → x = Z.lxor (Z.land x 0xff) (Z.shiftl (Z.shiftr x 8) 8).
Proof.
  intros Hx. rewrite land_ff. pose proof (Z.mod_pos_bound x (2 ^ 8) ltac:(lia)).
  rewrite Z.shiftr_div_pow2 by lia. pose proof (Z.div_pos x (2 ^ 8) Hx ltac:(lia)).
  rewrite <- lxor_low by lia. pose proof (Z.div_mod x (2 ^ 8) ltac:(lia)). lia.
Qed.

Lemma STEP1_at p :
  0 ≤ p → p + 1 ≤ size buf → STEP1 buf (crc_at p, p) = Some (crc_at (p + 1), p + 1).
Proof using Hbuf Hc.
  intros Hp Hp1. destruct (word_fold 1 buf (crc_at p) p Hbuf Hp Hp1) as (v & Hload & Hv & Hs).
  change (Z.of_nat 1) with 1 in Hs, Hv. rewrite <- crc_at_add in Hs by lia. change (8 * N.of_nat 1)%N with 8%N in Hs. pose proof (crc_at_range p) as Hr. set (l := crc_at p) in *.
  assert (Hi : 0 ≤ Z.lxor (Z.land l 0xff) v < 2 ^ 8).
  { apply lxor_range; [lia| |lia]. rewrite land_ff. apply Z.mod_pos_bound. lia. }
  cbn [STEP1]. rewrite Hload. cbn [mbind option_bind].
  rewrite (table_lookup table0_ 8 _ table0_ok Hi). cbn [mbind option_bind].
  do 2 f_equal. rewrite <- Hs. rewrite (split_low l) at 3 by lia.
  rewrite !steps_lxor. rewrite (steps_shiftl 8 (Z.shiftr l 8) : steps 8 (Z.shiftl _ 8) = _).
  rewrite !Z.lxor_assoc. f_equal. apply Z.lxor_comm.
Qed.

(** ** Four bytes through the tables *)

Lemma split_word x :
  0 ≤ x < 2 ^ 32 →
  steps 32 x =
  Z.lxor (Z.lxor (Z.lxor (steps 32 (Z.land x 0xff)) (steps 24 (Z.land (Z.shiftr x 8) 0xff)))
                 (steps 16 (Z.land (Z.shiftr x 16) 0xff))) (steps 8 (Z.shiftr x 24)).
Proof.
  intros Hx. assert (Hs : ∀ n, 0 ≤ n → 0 ≤ Z.shiftr x n) by (intros; apply Z.shiftr_nonneg; lia).
  rewrite (split_low x) at 1 by lia. rewrite (split_low (Z.shiftr x 8)) at 1 by auto with lia.
  rewrite (Z.shiftr_shiftr x 8 8) by lia. change (8 + 8) with 16.
  rewrite (split_low (Z.shiftr x 16)) at 1 by auto with lia.
  rewrite (Z.shiftr_shiftr x 16 8) by lia. change (16 + 8) with 24.
  rewrite !Z.shiftl_lxor, !Z.shiftl_shiftl by lia. rewrite !steps_lxor.
  rewrite !Z.lxor_assoc. do 2 f_equal; [exact (steps_shiftl_le 32 8 _ ltac:(lia))|].
  f_equal; [exact (steps_shiftl_le 32 16 _ ltac:(lia))|exact (steps_shiftl_le 32 24 _ ltac:(lia))].
Qed.

Lemma tables_step_at p :
  0 ≤ p → p + 4 ≤ size buf → tables_step buf (crc_at p) p = Some (crc_at (p + 4), p + 4).
Proof using Hbuf Hc.
  intros Hp Hp4. destruct (word_fold 4 buf (crc_at p) p Hbuf Hp Hp4) as (v & Hload & Hv & Hs).
  change (Z.of_nat 4) with 4 in *. rewrite <- crc_at_add in Hs by lia. change (8 * N.of_nat 4)%N with 32%N in Hs. pose proof (crc_at_range p) as Hr.
  unfold tables_step, LE_LOAD32. rewrite Hload. cbn [mbind option_bind].
  assert (Hx : 0 ≤ Z.lxor (crc_at p) v < 2 ^ 32) by (apply lxor_range; lia).
  set (x := Z.lxor (crc_at p) v) in *. replace (u32 x) with x by (symmetry; by apply Z.mod_small).
  assert (Hb : ∀ y, 0 ≤ Z.land y 0xff < 2 ^ 8) by (intros; rewrite land_ff; apply Z.mod_pos_bound; lia).
  assert (H24 : 0 ≤ Z.shiftr x 24 < 2 ^ 8).
  { rewrite Z.shiftr_div_pow2 by lia. split; [apply Z.div_pos|apply Z.div_lt_upper_bound]; lia. }
  rewrite (table_lookup table3_ 32 _ table3_ok (Hb _)). cbn [mbind option_bind].
  rewrite (table_lookup table2_ 24 _ table2_ok (Hb _)). cbn [mbind option_bind].
  rewrite (table_lookup table1_ 16 _ table1_ok (Hb _)). cbn [mbind option_bind].
  rewrite (table_lookup table0_ 8 _ table0_ok H24). cbn [mbind option_bind].
  rewrite <- split_word by done. do 2 f_equal. done.
Qed.

Lemma DefaultCRC32_at b p :
  0 ≤ p → p + 8 ≤ size buf → DefaultCRC32 b buf (crc_at p, p) = Some (crc_at (p + 8), p + 8).
Proof using Hbuf Hc.
  intros Hp Hp8. unfold DefaultCRC32. destruct (__SSE4_2__ b); cbn [negb]; [destruct (__LP64__ b)|].
  - destruct (word64 buf (crc_at p) p Hbuf (crc_at_range p) Hp Hp8) as (v & -> & Hv & Hs).
    cbn [mbind option_bind]. by rewrite Hs, <- crc_at_add by lia.
  - unfold LE_LOAD32.
    destruct (word32 buf (crc_at p) p Hbuf (crc_at_range p) Hp ltac:(lia)) as (v & -> & Hs).
    cbn [mbind option_bind]. rewrite (u32_small (crc_at p)) by apply crc_at_range.
    rewrite Hs, <- crc_at_add by lia.
    destruct (word32 buf (crc_at (p + 4)) (p + 4) Hbuf (crc_at_range _) ltac:(lia) ltac:(lia))
      as (v' & -> & Hs').
    cbn [mbind option_bind]. rewrite (u32_small (crc_at (p + 4))) by apply crc_at_range.
    rewrite Hs', <- crc_at_add, <- Z.add_assoc by lia. done.
  - rewrite tables_step_at by lia. cbn [mbind option_bind]. rewrite tables_step_at by lia.
    by rewrite <- Z.add_assoc.
Qed.

(** ** Loops *)

Lemma while_run (f : Z → Z * Z) cond body k (m fuel : nat) p :
  (m < fuel)%nat →
  (∀ j, 0 ≤ j < Z.of_nat m →
    cond (f (p + k * j)) = true ∧ body (f (p + k * j)) = Some (f (p + k * j + k))) →
  cond (f (p + k * Z.of_nat m)) = false →
  while fuel cond body (f p) = Some (f (p + k * Z.of_nat m)).
Proof.
  revert fuel p. induction m as [|m IH]; intros [|fuel] p Hm Hstep Hend; try lia; cbn [while].
  - rewrite Z.mul_0_r, Z.add_0_r in *. by rewrite Hend.
  - destruct (Hstep 0 ltac:(lia)) as [Hc0 Hb0]. rewrite Z.mul_0_r, Z.add_0_r in *.
    rewrite Hc0, Hb0. cbn [mbind option_bind].
    replace (p + k * Z.of_nat (S m)) with ((p + k) + k * Z.of_nat m) in * by lia.
    apply IH; [lia| |done]. intros j Hj.
    replace (p + k + k * j) with (p + k * (j + 1)) by lia. apply Hstep. lia.
Qed.

(** A loop that advances by [k] while [k] bytes are left. *)
Lemma while_blocks k body p :
  0 < k → 0 ≤ p ≤ size buf →
  (∀ q, 0 ≤ q → q + k ≤ size buf → body (crc_at q, q) = Some (crc_at (q + k), q + k)) →
  ∃ q, p ≤ q ≤ size buf ∧ size buf - q < k ∧
    while (S (length buf)) (λ '(_, q), k <=? size buf - q) body (crc_at p, p) = Some (crc_at q, q).
Proof.
  intros Hk Hp Hbody. set (m := Z.to_nat ((size buf - p) / k)).
  pose proof (Z.div_mod (size buf - p) k ltac:(lia)). pose proof (Z.mod_pos_bound (size buf - p) k Hk).
  assert (Hm : Z.of_nat m = (size buf - p) / k) by (apply Z2Nat.id, Z.div_pos; lia).
  exists (p + k * Z.of_nat m). split; [nia|]. split; [nia|].
  apply (while_run (λ q, (crc_at q, q))).
  - unfold size in *. nia.
  - intros j Hj. split; [apply Z.leb_le; nia|]. apply Hbody; nia.
  - apply Z.leb_gt. nia.
Qed.

(** A loop over single bytes up to [x]. *)
Lemma while_bytes x p :
  0 ≤ p → p ≤ x ≤ size buf →
  while (S (length buf)) (λ '(_, q), negb (q =? x)) (STEP1 buf) (crc_at p, p) = Some (crc_at x, x).
Proof using Hbuf Hc.
  intros Hp Hx. assert (Heq : p + 1 * Z.of_nat (Z.to_nat (x - p)) = x) by lia.
  pose proof (while_run (λ q, (crc_at q, q)) (λ '(_, q), negb (q =? x)) (STEP1 buf) 1
    (Z.to_nat (x - p)) (S (length buf)) p) as H. cbv beta in H. rewrite Heq in H. apply H.
  - unfold size in *. lia.
  - intros j Hj. split; [apply negb_true_iff, Z.eqb_neq; lia|]. apply STEP1_at; lia.
  - apply negb_false_iff, Z.eqb_eq. done.
Qed.

End buffer.

Lemma ALIGN_ge n : 0 ≤ n → n + 15 < 2 ^ 64 → n ≤ ALIGN n 4.
Proof.
  intros Hn Hw. unfold ALIGN. change (Z.shiftl 1 4 - 1) with 15. rewrite u64_small by lia.
  rewrite <- Z.ldiff_land. change 15 with (Z.ones 4) at 2. rewrite Z.ldiff_ones_r by lia.
  rewrite Z.shiftl_mul_pow2, Z.shiftr_div_pow2 by lia.
  pose proof (Z.div_mod (n + 15) (2 ^ 4) ltac:(lia)).
  pose proof (Z.mod_pos_bound (n + 15) (2 ^ 4) ltac:(lia)). lia.
Qed.

Lemma inverted_range crc : 0 ≤ crc < 2 ^ 32 → 0 ≤ Z.lxor crc 0xffffffff < 2 ^ 32.
Proof. intros. apply lxor_range; lia. Qed.

Lemma crc32c_range crc buf : 0 ≤ crc < 2 ^ 32 → bytes buf → 0 ≤ crc32c crc buf < 2 ^ 32.
Proof. intros. apply inverted_range, crc_fold_range; [by apply inverted_range|done]. Qed.

Lemma ExtendImpl_ok b addr crc buf :
  bytes buf → 0 ≤ crc < 2 ^ 32 → 0 ≤ addr → addr + 15 < 2 ^ 64 →
  ExtendImpl (DefaultCRC32 b) addr crc buf = Some (crc32c crc buf).
Proof.
  intros Hbuf Hcrc Ha Hw. unfold ExtendImpl. pose proof (inverted_range crc Hcrc) as Hc.
  set (c := Z.lxor crc 0xffffffff) in *. pose proof (ALIGN_ge addr Ha Hw) as Hx.
  set (x := ALIGN addr 4 - addr). assert (0 ≤ x) by (subst x; lia).
  pose proof (size_nonneg buf). change (c, 0) with (crc_at buf c 0, 0).
  assert (∃ p, 0 ≤ p ≤ size buf ∧
    (if x <=? size buf
     then while (S (length buf)) (λ '(_, p), negb (p =? x)) (STEP1 buf) (crc_at buf c 0, 0)
     else Some (crc_at buf c 0, 0)) = Some (crc_at buf c p, p)) as (p & Hp & ->).
  { destruct (Z.leb_spec x (size buf)); [exists x|exists 0]; (split; [lia|]); [|done].
    by apply while_bytes. }
  cbn [mbind option_bind].
  edestruct (while_blocks buf c 16 (λ lp, lp ← DefaultCRC32 b buf lp; DefaultCRC32 b buf lp)) as (p1 & Hp1 & _ & ->); [lia|exact Hp| |].
  { intros q Hq Hq16. rewrite DefaultCRC32_at by (done || lia). cbn [mbind option_bind].
    rewrite DefaultCRC32_at by (done || lia). by rewrite <- Z.add_assoc. }
  cbn [mbind option_bind].
  edestruct (while_blocks buf c 8 (DefaultCRC32 b buf)) as (p2 & Hp2 & _ & ->); [lia|split; [lia|exact (proj2 Hp1)]| |].
  { intros q Hq Hq8. by apply DefaultCRC32_at. }
  cbn [mbind option_bind]. rewrite while_bytes by (done || lia). cbn [mbind option_bind].
  unfold crc_at. rewrite part_all. fold c. f_equal. apply u32_small, inverted_range.
  by apply crc_fold_range.
Qed.
