(* ===== verification/CrcThreeWay.v ===== *)
(** * RocksDB: the three-way computation of CRC-32C

    [crc32c_3way] splits a block of [24 * k] bytes in three parts of [8 * k], runs the
    three checksums side by side and joins them with carry-less products.  The multipliers
    of [clmul_constants] are right for every block size ([constants_ok], evaluated), so a
    block advances the checksum as the reference does, and so does the whole buffer. *)

From stdpp Require Import base numbers option list.
From S2P Require Import Prelude ZenCoding CrcTables CrcOps CrcAlgebra CrcSpec.

(** ** The multipliers *)

#[export] Instance linear_clmul k b f : Linear f → Linear (λ x, clmul k (f x) b).
Proof. revert b f. induction k as [|k IH]; intros b f Hf; cbn [clmul]; [done|]. apply _. Qed.

(** The powers of two after [n] steps. *)
Definition basis (n : N) : list Z := (λ i, steps n (2 ^ Z.of_nat i)) <$> seq 0 32.

(** Multiplying by [k] and stepping over a word. *)
Definition fold_by (k c : Z) : Z := steps 64 (u64 (clmul 64 c k)).

#[export] Instance linear_fold_by k : Linear (fold_by k).
Proof. unfold fold_by. exact (linear_steps 64 _ (linear_u64 _ (linear_clmul 64 k _ linear_id))). Qed.

Definition constant_ok (k : Z) (img : list Z) : bool :=
  (0 <=? k) && (k <? 2 ^ 64) &&
  bool_decide ((λ i, fold_by k (2 ^ Z.of_nat i)) <$> seq 0 32 = img).

Fixpoint constants_ok (l : list Z) (img0 img1 : list Z) : bool :=
  match l with
  | lo :: hi :: l' =>
      let img0 := steps 128 <$> img0 in
      let img1 := steps 64 <$> img1 in
      constant_ok lo img0 && constant_ok hi img1 && constants_ok l' img0 img1
  | _ => true
  end.

Lemma clmul_constants_ok : constants_ok clmul_constants (basis 0) (basis 0) = true.
Proof. vm_compute. reflexivity. Qed.

Lemma basis_step m n : steps m <$> basis n = basis (m + n).
Proof. unfold basis. rewrite <- list_fmap_compose. apply list_fmap_ext. intros. symmetry. apply steps_add. Qed.

Lemma constant_ok_fold k n :
  constant_ok k (basis n) = true →
  0 ≤ k < 2 ^ 64 ∧ ∀ c, 0 ≤ c < 2 ^ 32 → fold_by k c = steps n c.
Proof.
  unfold constant_ok. rewrite !andb_true_iff, Z.leb_le, Z.ltb_lt, bool_decide_eq_true.
  intros [[H0 H1] Heq]. split; [done|]. intros c Hc.
  apply (agree_ext 32 (fold_by k) (steps n)); [|done]. apply forallb_forall. intros i [_ Hi]%in_seq.
  apply Z.eqb_eq. apply (f_equal (.!! i)) in Heq. unfold basis in Heq.
  rewrite !list_lookup_fmap, lookup_seq_lt in Heq by lia. by simplify_eq/=.
Qed.

Lemma constants_ok_lookup l m n0 n1 lo hi :
  constants_ok l (basis n0) (basis n1) = true →
  l !! (2 * m)%nat = Some lo → l !! S (2 * m) = Some hi →
  constant_ok lo (basis (128 * N.of_nat (S m) + n0)) = true ∧
  constant_ok hi (basis (64 * N.of_nat (S m) + n1)) = true.
Proof.
  revert l n0 n1. induction m as [|m IH]; intros [|lo' [|hi' l]] n0 n1 Hok Hlo Hhi; try done.
  all: cbn [constants_ok] in Hok; rewrite !basis_step, !andb_true_iff in Hok;
    destruct Hok as [[Hk0 Hk1] Hok].
  { cbn in Hlo, Hhi. simplify_eq. done. }
  replace (2 * S m)%nat with (S (S (2 * m))) in Hlo, Hhi by lia.
  destruct (IH _ _ _ Hok Hlo Hhi) as [H0 H1].
  replace (128 * N.of_nat (S (S m)) + n0)%N with (128 * N.of_nat (S m) + (128 + n0))%N by lia.
  by replace (64 * N.of_nat (S (S m)) + n1)%N with (64 * N.of_nat (S m) + (64 + n1))%N by lia.
Qed.

(** The multipliers of block size [k]. *)
Lemma multipliers k :
  1 ≤ k ≤ 128 →
  ∃ lo hi,
    clmul_constants !! Z.to_nat (2 * (k - 1)) = Some lo ∧
    clmul_constants !! Z.to_nat (2 * (k - 1) + 1) = Some hi ∧
    0 ≤ lo < 2 ^ 64 ∧ 0 ≤ hi < 2 ^ 64 ∧
    (∀ c, 0 ≤ c < 2 ^ 32 → fold_by lo c = steps (128 * Z.to_N k) c) ∧
    (∀ c, 0 ≤ c < 2 ^ 32 → fold_by hi c = steps (64 * Z.to_N k) c).
Proof.
  intros Hk. set (m := Z.to_nat (k - 1)).
  replace (Z.to_nat (2 * (k - 1))) with (2 * m)%nat by lia.
  replace (Z.to_nat (2 * (k - 1) + 1)) with (S (2 * m)) by lia.
  assert (Hlen : length clmul_constants = 256%nat) by done.
  destruct (lookup_lt_is_Some_2 clmul_constants (2 * m)) as [lo Hlo]; [lia|].
  destruct (lookup_lt_is_Some_2 clmul_constants (S (2 * m))) as [hi Hhi]; [lia|].
  destruct (constants_ok_lookup _ m 0 0 lo hi clmul_constants_ok Hlo Hhi) as [H0 H1].
  apply constant_ok_fold in H0 as [Hlor H0]. apply constant_ok_fold in H1 as [Hhir H1].
  exists lo, hi. do 4 (split; [done|]). split; intros c Hc; [rewrite H0|rewrite H1]; try done.
  all: f_equal; lia.
Qed.

(** ** Joining the three checksums *)

Lemma CombineCRC_ok k c0 c1 c2 buf next2 :
  bytes buf → 1 ≤ k ≤ 128 → 0 ≤ c0 < 2 ^ 32 → 0 ≤ c1 < 2 ^ 32 → 0 ≤ c2 < 2 ^ 32 →
  8 ≤ next2 ≤ size buf →
  CombineCRC k c0 c1 c2 buf next2 =
  Some (Z.lxor (Z.lxor (steps (128 * Z.to_N k) c0) (steps (64 * Z.to_N k) c1))
               (crc_fold c2 (part buf (next2 - 8) 8))).
Proof.
  intros Hbuf Hk H0 H1 H2 Hn. destruct (multipliers k Hk) as (lo & hi & Hlo & Hhi & Hlor & Hhir & F0 & F1).
  unfold CombineCRC. rewrite Hlo, Hhi. cbn [mbind option_bind].
  destruct (word64 buf c2 (next2 - 8) Hbuf H2 ltac:(lia) ltac:(lia)) as (w & -> & Hw & Hs).
  cbn [mbind option_bind]. rewrite crc32_u64 in Hs by done. f_equal.
  assert (Hset : ∀ c, 0 ≤ c < 2 ^ 32 → u64 (_mm_set_epi64x 0 c) = c).
  { intros c Hc. unfold _mm_set_epi64x. rewrite Z.shiftl_0_l, Z.add_0_r. apply u64_small. lia. }
  assert (Hm0 : u64 (_mm_set_epi64x hi lo) = lo).
  { unfold _mm_set_epi64x, u64. rewrite Z.shiftl_mul_pow2, Z.mod_add by lia. by apply Z.mod_small. }
  assert (Hm1 : u64 (Z.shiftr (_mm_set_epi64x hi lo) 64) = hi).
  { unfold _mm_set_epi64x. rewrite Z.shiftl_mul_pow2, Z.shiftr_div_pow2, Z.div_add by lia.
    rewrite Z.div_small by done. by apply u64_small. }
  unfold _mm_clmulepi64_si128, _mm_cvtsi128_si64.
  change (Z.testbit 0 0) with false. change (Z.testbit 0 4) with false.
  change (Z.testbit 0x10 4) with true. change (Z.testbit 0x10 0) with false. cbv iota.
  rewrite !Hset, Hm0, Hm1 by done.
  rewrite crc32_u64; [|done|apply lxor_range; [lia|apply u64_range|done]].
  rewrite (linear_u64 _ linear_id), <- Hs, <- F0, <- F1 by done. unfold fold_by.
  rewrite !steps_lxor. rewrite <- !Z.lxor_assoc. f_equal. rewrite Z.lxor_assoc. apply Z.lxor_comm.
Qed.

Lemma duff_ok off buf n0 n1 n2 c0 c1 c2 :
  bytes buf → (1 ≤ off)%nat →
  8 * Z.of_nat off ≤ n0 ≤ size buf → 8 * Z.of_nat off ≤ n1 ≤ size buf →
  8 * Z.of_nat off ≤ n2 ≤ size buf →
  0 ≤ c0 < 2 ^ 32 → 0 ≤ c1 < 2 ^ 32 → 0 ≤ c2 < 2 ^ 32 →
  duff off buf n0 n1 n2 c0 c1 c2 =
  Some (crc_fold c0 (part buf (n0 - 8 * Z.of_nat off) (8 * Z.of_nat off)),
        crc_fold c1 (part buf (n1 - 8 * Z.of_nat off) (8 * Z.of_nat off)),
        crc_fold c2 (part buf (n2 - 8 * Z.of_nat off) (8 * (Z.of_nat off - 1)))).
Proof.
  intros Hbuf Hoff. revert c0 c1 c2. induction off as [|off IH]; [lia|]. intros c0 c1 c2 Hn0 Hn1 Hn2 H0 H1 H2.
  cbn [duff].
  destruct (word64 buf c0 (n0 - 8 * Z.of_nat (S off)) Hbuf H0 ltac:(lia) ltac:(lia)) as (w0 & -> & _ & Hs0).
  destruct (word64 buf c1 (n1 - 8 * Z.of_nat (S off)) Hbuf H1 ltac:(lia) ltac:(lia)) as (w1 & -> & _ & Hs1).
  cbn [mbind option_bind]. destruct off as [|off].
  { cbn [Nat.eqb]. by rewrite Hs0, Hs1. }
  cbn [Nat.eqb].
  destruct (word64 buf c2 (n2 - 8 * Z.of_nat (S (S off))) Hbuf H2 ltac:(lia) ltac:(lia)) as (w2 & -> & _ & Hs2).
  cbn [mbind option_bind]. rewrite Hs0, Hs1, Hs2.
  assert (Hr : ∀ c o, 0 ≤ c < 2 ^ 32 → 0 ≤ crc_fold c (part buf o 8) < 2 ^ 32).
  { intros. apply crc_fold_range; [done|]. by apply part_bytes. }
  rewrite IH by (lia || auto). set (k := Z.of_nat (S off)) in *.
  replace (Z.of_nat (S (S off))) with (1 + k) in * by lia.
  assert (Hp : ∀ c n a b, 8 * (1 + k) ≤ n → 0 ≤ a → b = 8 + a →
    crc_fold (crc_fold c (part buf (n - 8 * (1 + k)) 8)) (part buf (n - 8 * k) a) =
    crc_fold c (part buf (n - 8 * (1 + k)) b)).
  { intros c n a b Hn Ha ->. rewrite part_app, crc_fold_app by lia. do 2 f_equal. lia. }
  rewrite !Hp with (b := 8 * (1 + k)) by lia. rewrite Hp with (b := 8 * (1 + k - 1)) by lia. done.
Qed.

(** ** Blocks *)

(** The checksum of a block from those of its three parts, the last word of the third
    apart. *)
Lemma block_join buf s k c :
  0 ≤ s → 1 ≤ k → s + 24 * k ≤ size buf →
  Z.lxor (Z.lxor (steps (128 * Z.to_N k) (crc_fold c (part buf s (8 * k))))
                 (steps (64 * Z.to_N k) (crc_fold 0 (part buf (s + 8 * k) (8 * k)))))
         (crc_fold (crc_fold 0 (part buf (s + 16 * k) (8 * (k - 1)))) (part buf (s + 24 * k - 8) 8)) =
  crc_fold c (part buf s (24 * k)).
Proof.
  intros Hs Hk Hb.
  replace (24 * k) with (8 * k + (8 * k + (8 * (k - 1) + 8))) at 2 by lia.
  rewrite !part_app, !crc_fold_app by lia.
  replace (s + 8 * k + 8 * k) with (s + 16 * k) by lia.
  replace (s + 16 * k + 8 * (k - 1)) with (s + 24 * k - 8) by lia.
  set (A := part buf s (8 * k)). set (B := part buf (s + 8 * k) (8 * k)).
  set (C := part buf (s + 16 * k) (8 * (k - 1))). set (D := part buf (s + 24 * k - 8) 8).
  assert (HB : length B = Z.to_nat (8 * k)) by (apply part_length; lia).
  assert (HC : length C = Z.to_nat (8 * (k - 1))) by (apply part_length; lia).
  assert (HD : length D = 8%nat) by (apply part_length; lia).
  rewrite <- !(crc_fold_app _ C D). rewrite (crc_fold_0 (crc_fold (crc_fold c A) B) (C ++ D)), (crc_fold_0 (crc_fold c A) B).
  rewrite steps_lxor, <- steps_add, length_app, HB, HC, HD.
  f_equal. f_equal; f_equal; lia.
Qed.

Ltac one_block s k :=
  cbn [triplet_blocks]; rewrite duff_ok by (lia || done); cbn [mbind option_bind];
  rewrite Z2Nat.id by lia;
  replace (s + 8 * k - 8 * k) with s by lia;
  replace (s + 8 * k + 8 * k - 8 * k) with (s + 8 * k) by lia;
  replace (s + 8 * k + 8 * k + 8 * k - 8 * k) with (s + 16 * k) by lia;
  rewrite CombineCRC_ok by (lia || done || (apply crc_fold_range; [lia || done|by apply part_bytes]));
  cbn [mbind option_bind];
  replace (s + 8 * k + 8 * k + 8 * k) with (s + 24 * k) by lia;
  rewrite block_join by lia.

Lemma triplet_blocks_ok (m : nat) k buf s c :
  bytes buf → 0 ≤ c < 2 ^ 32 → 0 ≤ s → 1 ≤ k ≤ 128 →
  s + 24 * k + 3072 * Z.of_nat m ≤ size buf →
  triplet_blocks (S m) (Z.of_nat (S m)) k buf (s + 8 * k) (s + 8 * k + 8 * k) (s + 8 * k + 8 * k + 8 * k) c =
  Some (crc_fold c (part buf s (24 * k + 3072 * Z.of_nat m)), s + (24 * k + 3072 * Z.of_nat m)).
Proof.
  intros Hbuf. revert k s c. induction m as [|m IH]; intros k s c Hc Hs Hk Hb.
  - one_block s k. rewrite (proj2 (Z.ltb_ge 0 _)) by lia. by rewrite Z.mul_0_r, Z.add_0_r.
  - set (f := S m). one_block s k. subst f. rewrite (proj2 (Z.ltb_lt 0 _)) by lia.
    replace (Z.of_nat (S (S m)) - 1) with (Z.of_nat (S m)) by lia.
    rewrite (IH 128 (s + 24 * k)); [|apply crc_fold_range; [done|by apply part_bytes]|lia..].
    replace (24 * k + 3072 * Z.of_nat (S m)) with (24 * k + (24 * 128 + 3072 * Z.of_nat m)) by lia.
    rewrite (part_app buf s), crc_fold_app by lia. do 2 f_equal. lia.
Qed.

(** ** The bytes around the words *)

Lemma align_stage (n : Z) (b : bool) (insn : Z → Z → Z) (w : nat) buf c s :
  0 ≤ s → n = Z.of_nat w → (b = true → s + n ≤ size buf) →
  (s + n ≤ size buf → ∃ v, load_le w buf s = Some v ∧ insn c v = crc_fold c (part buf s n)) →
  (if b then v ← load_le w buf s; Some (insn c v, s + n) else Some (c, s)) =
  Some (crc_fold c (part buf s (if b then n else 0)), s + (if b then n else 0)).
Proof.
  intros Hs Hn Hb Hw. destruct b; [|by rewrite Z.add_0_r].
  destruct (Hw (Hb eq_refl)) as (v & -> & Hv). cbn [mbind option_bind]. by rewrite Hv.
Qed.

Lemma low_bits len :
  0 ≤ len < 8 →
  len = (if negb (Z.land len 4 =? 0) then 4 else 0) + ((if negb (Z.land len 2 =? 0) then 2 else 0)
        + (if negb (Z.land len 1 =? 0) then 1 else 0)).
Proof.
  intros H. assert (len = 0 ∨ len = 1 ∨ len = 2 ∨ len = 3 ∨ len = 4 ∨ len = 5 ∨ len = 6 ∨ len = 7) by lia.
  by destruct_or!; subst.
Qed.

Lemma align_to_8_ok len c buf s :
  bytes buf → 0 ≤ c < 2 ^ 32 → 0 ≤ s → 0 ≤ len < 8 → s + len ≤ size buf →
  align_to_8 len c buf s = Some (crc_fold c (part buf s len), s + len).
Proof.
  intros Hbuf Hc Hs Hlen Hb. pose proof (low_bits len Hlen) as Heq. unfold align_to_8.
  rewrite (u32_small c Hc).
  set (b4 := negb (Z.land len 4 =? 0)) in *. set (b2 := negb (Z.land len 2 =? 0)) in *.
  set (b1 := negb (Z.land len 1 =? 0)) in *. clearbody b4 b2 b1.
  assert (Hr : ∀ o l, 0 ≤ crc_fold c (part buf o l) < 2 ^ 32).
  { intros. apply crc_fold_range; [done|]. by apply part_bytes. }
  rewrite (align_stage 4 b4 _mm_crc32_u32 4); [|done..|destruct b4, b2, b1; lia|by apply word32].
  cbn [mbind option_bind].
  rewrite (align_stage 2 b2 _mm_crc32_u16 2); [|destruct b4; lia|done|destruct b4, b2, b1; lia|].
  2: { intros. apply word16; [done|apply Hr|destruct b4; lia|done]. }
  cbn [mbind option_bind]. rewrite <- crc_fold_app, <- part_app by (destruct b4, b2; lia).
  rewrite <- (Z.add_assoc s).
  rewrite (align_stage 1 b1 _mm_crc32_u8 1); [|destruct b4, b2; lia|done|destruct b4, b2, b1; lia|].
  2: { intros. apply word8; [done|apply Hr|destruct b4, b2; lia|done]. }
  rewrite <- crc_fold_app, <- part_app by (destruct b4, b2, b1; lia).
  rewrite <- (Z.add_assoc s). rewrite Z.add_assoc in Heq. by rewrite <- Heq.
Qed.

Lemma singlets_ok (m : nat) buf s c :
  bytes buf → 0 ≤ c < 2 ^ 32 → 0 ≤ s → s + 8 * Z.of_nat m ≤ size buf →
  singlets m buf (s + 8 * Z.of_nat m) c = Some (crc_fold c (part buf s (8 * Z.of_nat m))).
Proof.
  intros Hbuf. revert s c. induction m as [|m IH]; intros s c Hc Hs Hb; [done|].
  cbn [singlets]. replace (s + 8 * Z.of_nat (S m) - 8 * Z.of_nat (S m)) with s by lia.
  destruct (word64 buf c s Hbuf Hc Hs ltac:(lia)) as (w & -> & _ & Hw). cbn [mbind option_bind]. rewrite Hw.
  replace (s + 8 * Z.of_nat (S m)) with ((s + 8) + 8 * Z.of_nat m) by lia.
  rewrite IH; [|apply crc_fold_range; [done|by apply part_bytes]|lia..].
  replace (8 * Z.of_nat (S m)) with (8 + 8 * Z.of_nat m) by lia.
  by rewrite part_app, crc_fold_app by lia.
Qed.

(** ** Whole buffers *)

Lemma land_low n x : 0 ≤ n → Z.land x (2 ^ n - 1) = x mod 2 ^ n.
Proof. intros. rewrite <- Z.land_ones, Z.ones_equiv by done. f_equal. Qed.

(** Whatever the alignment, the triplets leave fewer than 24 bytes. *)
Lemma triplets_ok addr buf c :
  bytes buf → 0 ≤ c < 2 ^ 32 → 216 < size buf →
  ∃ len, 0 ≤ len < 24 ∧ len ≤ size buf ∧
    triplets addr (size buf) c buf = Some (len, crc_at buf c (size buf - len), size buf - len).
Proof.
  intros Hbuf Hc Hlen. unfold triplets.
  assert (Ha : 0 ≤ Z.land (u64 (8 - addr)) 7 < 8).
  { rewrite (land_low 3) by lia. apply Z.mod_pos_bound. lia. }
  set (a := Z.land (u64 (8 - addr)) 7) in *. clearbody a.
  rewrite align_to_8_ok by (done || lia). cbn [mbind option_bind]. rewrite Z.add_0_l.
  set (L := size buf - a). pose proof (Z.div_mod L 24 ltac:(lia)) as HL.
  pose proof (Z.mod_pos_bound L 24 ltac:(lia)). set (count := L / 24) in *.
  assert (8 ≤ count) by lia. rewrite Z.shiftr_div_pow2, (land_low 7) by lia.
  pose proof (Z.div_mod count (2 ^ 7) ltac:(lia)) as Hd.
  pose proof (Z.mod_pos_bound count (2 ^ 7) ltac:(lia)).
  assert (∃ k (m : nat), 1 ≤ k ≤ 128 ∧ 24 * count = 24 * k + 3072 * Z.of_nat m ∧
    (if count mod 2 ^ 7 =? 0 then (128, count / 2 ^ 7) else (count mod 2 ^ 7, count / 2 ^ 7 + 1)) =
    (k, Z.of_nat (S m))) as (k & m & Hk & Hcount & ->).
  { destruct (Z.eqb_spec (count mod 2 ^ 7) 0).
    - exists 128, (Z.to_nat (count / 2 ^ 7 - 1)). split; [lia|]. split; [lia|]. f_equal. lia.
    - exists (count mod 2 ^ 7), (Z.to_nat (count / 2 ^ 7)). split; [lia|]. split; [lia|]. f_equal. lia. }
  rewrite Nat2Z.id.
  rewrite triplet_blocks_ok; [|done|apply crc_fold_range; [done|by apply part_bytes]|lia..].
  cbn [mbind option_bind]. rewrite <- Hcount. rewrite <- crc_fold_app, <- part_app by lia.
  exists (L mod 24). split; [done|]. split; [lia|]. unfold crc_at.
  replace (size buf - L mod 24) with (a + 24 * count) by lia. done.
Qed.

Lemma words_ok addr buf c :
  bytes buf → 0 ≤ c < 2 ^ 32 →
  ∃ len, 0 ≤ len < 8 ∧ len ≤ size buf ∧
    words addr (size buf) c buf = Some (len, crc_at buf c (size buf - len), size buf - len).
Proof.
  intros Hbuf Hc. unfold words. pose proof (size_nonneg buf).
  assert (∃ len, 0 ≤ len ≤ 216 ∧ len ≤ size buf ∧
    (if 216 <? size buf then triplets addr (size buf) c buf else Some (size buf, c, 0)) =
    Some (len, crc_at buf c (size buf - len), size buf - len)) as (len & Hlen & Hle & ->).
  { destruct (Z.ltb_spec 216 (size buf)).
    - destruct (triplets_ok addr buf c) as (len & ? & ? & Heq); [done..|]. exists len.
      split; [lia|]. split; [lia|]. exact Heq.
    - exists (size buf). rewrite Z.sub_diag. split; [lia|]. done. }
  cbn [mbind option_bind]. rewrite Z.shiftr_div_pow2, (land_low 3) by lia. change (2 ^ 3) with 8.
  pose proof (Z.div_mod len 8 ltac:(lia)). pose proof (Z.mod_pos_bound len 8 ltac:(lia)).
  rewrite (proj2 (Z.leb_le _ 27)) by lia.
  replace (size buf - len + len / 8 * 8) with ((size buf - len) + 8 * Z.of_nat (Z.to_nat (len / 8))) by lia.
  rewrite singlets_ok; [|done|by apply crc_at_range|lia..]. cbn [mbind option_bind].
  rewrite <- crc_at_add by lia. exists (len mod 8). split; [done|]. split; [lia|].
  by replace (size buf - len + 8 * Z.of_nat (Z.to_nat (len / 8))) with (size buf - len mod 8) by lia.
Qed.

Lemma crc32c_3way_ok addr crc buf :
  bytes buf → 0 ≤ crc < 2 ^ 32 → crc32c_3way addr crc buf = Some (crc32c crc buf).
Proof.
  intros Hbuf Hcrc. unfold crc32c_3way. pose proof (inverted_range crc Hcrc) as Hc.
  set (c := Z.lxor crc 0xffffffff) in *. pose proof (size_nonneg buf).
  assert (∃ len, 0 ≤ len < 8 ∧ len ≤ size buf ∧
    (if 8 <=? size buf then words addr (size buf) c buf else Some (size buf, c, 0)) =
    Some (len, crc_at buf c (size buf - len), size buf - len)) as (len & Hlen & Hle & ->).
  { destruct (Z.leb_spec 8 (size buf)); [by apply words_ok|].
    exists (size buf). rewrite Z.sub_diag. split; [lia|]. done. }
  cbn [mbind option_bind]. rewrite align_to_8_ok; [|done|by apply crc_at_range|lia..].
  cbn [mbind option_bind]. rewrite <- crc_at_add by lia.
  replace (size buf - len + len) with (size buf) by lia.
  rewrite u32_small by (by apply crc_at_range). unfold crc_at. by rewrite part_all.
Qed.

(** Every build computes the reference. *)
Lemma Extend_ok b addr crc buf :
  bytes buf → 0 ≤ crc < 2 ^ 32 → 0 ≤ addr → addr + 15 < 2 ^ 64 →
  Extend b addr crc buf = Some (crc32c crc buf).
Proof.
  intros. unfold Extend, Choose_Extend. case_match; [by apply crc32c_3way_ok|by apply ExtendImpl_ok].
Qed.
