(* ===== verification/CrcCombine.v ===== *)
(** * RocksDB: combining checksums, and what they detect

    [Crc32cCombine] multiplies the first checksum by a power of x, found by repeated
    squaring; the product of the code is bilinear and commutes with [bit_step], which
    makes the combination the checksum of the concatenated buffers.  The last section
    shows that a burst of up to 32 changed bits always changes the checksum. *)

From stdpp Require Import base numbers option list.
From S2P Require Import Prelude ZenCoding CrcTables CrcOps CrcAlgebra CrcSpec CrcThreeWay.

(** ** The product *)

Lemma select_land x a :
  Z.land (u32 (0 - Z.land x 1)) a = if Z.odd x then Z.land 0xffffffff a else 0.
Proof.
  change 1 with (Z.ones 1). rewrite Z.land_ones by lia. change (2 ^ 1) with 2. rewrite Zmod_odd.
  by destruct (Z.odd x).
Qed.

Lemma linear_land m f : Linear f → Linear (λ x, Z.land m (f x)).
Proof.
  intros Hf a b. rewrite Hf. apply Z.bits_inj'. intros i _.
  rewrite !Z.lxor_spec, !Z.land_spec, Z.lxor_spec.
  by destruct (Z.testbit m i), (Z.testbit (f a) i), (Z.testbit (f b) i).
Qed.
#[export] Instance linear_u32 f : Linear f → Linear (λ x, u32 (f x)).
Proof.
  intros Hf a b. unfold u32. rewrite <- !Z.land_ones, !(Z.land_comm _ (Z.ones 32)) by lia.
  by apply (linear_land (Z.ones 32) f).
Qed.

Lemma gf_linear_a k p p' a a' b m :
  gf_multiply_sw_1 k (Z.lxor p p') (Z.lxor a a') b m =
  Z.lxor (gf_multiply_sw_1 k p a b m) (gf_multiply_sw_1 k p' a' b m).
Proof.
  revert p p' a a' b. induction k as [|k IH]; intros p p' a a' b; cbn [gf_multiply_sw_1]; [done|].
  rewrite !select_land, <- IH. f_equal.
  - rewrite lxor_4. f_equal. destruct (Z.odd _); [apply (linear_land 0xffffffff _ linear_id)|done].
  - rewrite lxor_4. f_equal; [apply Z.shiftr_lxor|apply (linear_odd _ _ linear_id)].
Qed.

Lemma gf_linear_b k p p' a b b' m :
  gf_multiply_sw_1 k (Z.lxor p p') a (Z.lxor b b') m =
  Z.lxor (gf_multiply_sw_1 k p a b m) (gf_multiply_sw_1 k p' a b' m).
Proof.
  revert p p' a b b'. induction k as [|k IH]; intros p p' a b b'; cbn [gf_multiply_sw_1]; [done|].
  rewrite !select_land, <- IH. f_equal.
  - rewrite lxor_4. f_equal. rewrite Z.shiftr_lxor. apply (linear_odd _ _ linear_id).
  - apply (linear_u32 _ (linear_shiftl _ 1 linear_id)).
Qed.

Definition mul (a b : Z) : Z := gf_multiply_sw a b crc32c_m.

#[export] Instance linear_mul_l b : Linear (λ a, mul a b).
Proof. intros a a'. exact (gf_linear_a 32 0 0 a a' b crc32c_m). Qed.
#[export] Instance linear_mul_r a : Linear (mul a).
Proof. intros b b'. exact (gf_linear_b 32 0 0 a b b' crc32c_m). Qed.

Lemma mul_eq a b : gf_multiply_sw a b crc32c_m = mul a b.
Proof. unfold mul. reflexivity. Qed.

#[local] Opaque mul.

(** Bit 31 is the constant term, so [2 ^ 31] is one. *)
Lemma mul_one a : 0 ≤ a < 2 ^ 32 → mul a (2 ^ 31) = a.
Proof.
  intros Ha. apply (agree_ext 32 (λ a, mul a (2 ^ 31)) (λ a, a) a); [vm_compute; reflexivity|done].
Qed.

Definition mul_step_ok : bool :=
  forallb (λ i, agree 32 (λ b, mul (2 ^ Z.of_nat i) (bit_step b))
                         (λ b, bit_step (mul (2 ^ Z.of_nat i) b))) (seq 0 32).

#[local] Instance linear_mul_step_l b : Linear (λ a, bit_step (mul a b)).
Proof. intros x y. by rewrite (linear_mul_l b), linear_bit_step. Qed.
#[local] Instance linear_step_mul_r a : Linear (λ b, mul a (bit_step b)).
Proof. intros x y. by rewrite linear_bit_step, (linear_mul_r a). Qed.
#[local] Instance linear_mul_step_r a : Linear (λ b, bit_step (mul a b)).
Proof. intros x y. by rewrite (linear_mul_r a), linear_bit_step. Qed.

Lemma mul_bit_step a b :
  0 ≤ a < 2 ^ 32 → 0 ≤ b < 2 ^ 32 → mul a (bit_step b) = bit_step (mul a b).
Proof.
  intros Ha Hb.
  apply (agree_ext 32 (λ a, mul a (bit_step b)) (λ a, bit_step (mul a b)) a); [|done].
  apply forallb_forall. intros i Hi. apply Z.eqb_eq.
  apply (agree_ext 32 (λ b, mul (2 ^ Z.of_nat i) (bit_step b))
                      (λ b, bit_step (mul (2 ^ Z.of_nat i) b)) b); [|done].
  assert (H : mul_step_ok = true) by (vm_compute; reflexivity).
  unfold mul_step_ok in H. rewrite forallb_forall in H. by apply H.
Qed.

Lemma steps_succ n c : steps (N.succ n) c = bit_step (steps n c).
Proof. replace (N.succ n) with (1 + n)%N by lia. apply steps_add. Qed.

(** Multiplying by x^n is doing [n] steps. *)
Lemma mul_steps n a : 0 ≤ a < 2 ^ 32 → mul a (steps n (2 ^ 31)) = steps n a.
Proof.
  intros Ha. induction n as [|n IH] using N.peano_ind; [by apply mul_one|].
  rewrite !steps_succ, mul_bit_step, IH; [done..|]. apply steps_range. lia.
Qed.

Lemma gf_powers_memo_ok i : gf_powers_memo i crc32c_m = steps (32 * 2 ^ N.of_nat i) (2 ^ 31).
Proof.
  induction i as [|i IH]; [vm_compute; reflexivity|]. cbn [gf_powers_memo]. rewrite IH.
  unfold gf_square_sw. rewrite mul_eq, mul_steps by (apply steps_range; lia). rewrite <- steps_add. f_equal.
  rewrite Nat2N.inj_succ, N.pow_succ_r'. lia.
Qed.

Lemma crc32c_powers_lookup i :
  0 ≤ i < 62 → crc32c_powers !! Z.to_nat i = Some (steps (32 * 2 ^ Z.to_N i) (2 ^ 31)).
Proof.
  intros Hi. unfold crc32c_powers, gf_powers_make. rewrite list_lookup_fmap, lookup_seq_lt by lia.
  cbn [fmap option_fmap option_map]. f_equal. rewrite gf_powers_memo_ok. do 3 f_equal. lia.
Qed.

(** ** Appending zeroes *)

Lemma CountTrailingZeroBits_ok v :
  0 < v → ∃ q, 0 ≤ q ∧ 0 ≤ CountTrailingZeroBits v ∧ v = 2 ^ CountTrailingZeroBits v * (2 * q + 1).
Proof.
  intros Hv. destruct v as [|p|p]; [lia| |lia]. cbn [CountTrailingZeroBits].
  induction p as [p _|p IH|]; cbn [CountTrailingZeroBits_pos].
  - exists (Zpos p). lia.
  - destruct (IH ltac:(lia)) as (q & Hq & Hr & Heq). exists q. split; [done|]. split; [lia|].
    rewrite Z.pow_add_r by lia. lia.
  - exists 0. lia.
Qed.

Lemma append_zeroes_loop_ok fuel crc len i :
  0 ≤ crc < 2 ^ 32 → 0 ≤ i ≤ 62 → 0 ≤ len < 2 ^ (62 - i) → len < 2 ^ Z.of_nat fuel →
  append_zeroes_loop fuel crc len i crc32c_m crc32c_powers =
  Some (steps (32 * (Z.to_N len * 2 ^ Z.to_N i)) crc).
Proof.
  revert crc len i. induction fuel as [|fuel IH]; intros crc len i Hcrc Hi Hlen Hfuel.
  { change (2 ^ Z.of_nat 0) with 1 in Hfuel. by assert (len = 0) as -> by lia. }
  unfold append_zeroes_loop; fold append_zeroes_loop.
  destruct (Z.eqb_spec len 0) as [->|Hne]; [done|].
  destruct (CountTrailingZeroBits_ok len) as (q & Hq & Hr & Heq); [lia|].
  set (r := CountTrailingZeroBits len) in *. clearbody r.
  assert (Hpr : 0 < 2 ^ r) by (apply Z.pow_pos_nonneg; lia).
  assert (Hri : i + r < 62).
  { assert (2 ^ r < 2 ^ (62 - i)) as Hlt by nia. apply Z.pow_lt_mono_r_iff in Hlt; lia. }
  rewrite crc32c_powers_lookup by lia. cbn [mbind option_bind]. rewrite mul_eq, mul_steps by done.
  assert (Hshift : Z.shiftr (Z.shiftr len r) 1 = q).
  { rewrite !Z.shiftr_div_pow2 by lia. rewrite Heq, Z.mul_comm, Z.div_mul by lia.
    symmetry. apply (Z.div_unique _ 2 _ 1); lia. }
  rewrite Hshift, IH; [|by apply steps_range|lia| |].
  - f_equal. rewrite <- steps_add. f_equal. rewrite Heq.
    replace (Z.to_N (i + r + 1)) with (Z.to_N i + Z.to_N r + 1)%N by lia.
    replace (Z.to_N (i + r)) with (Z.to_N i + Z.to_N r)%N by lia.
    rewrite Z2N.inj_mul, Z2N.inj_pow by lia. change (Z.to_N 2) with 2%N.
    rewrite !N.pow_add_r, N.pow_1_r. lia.
  - replace (62 - i) with (r + 1 + (62 - (i + r + 1))) in Hlen by lia.
    rewrite Z.pow_add_r, Z.pow_add_r in Hlen by lia. change (2 ^ 1) with 2 in Hlen. nia.
  - rewrite Nat2Z.inj_succ, Z.pow_succ_r in Hfuel by lia. nia.
Qed.

Lemma Crc32AppendZeroes_ok crc n :
  0 ≤ crc < 2 ^ 32 → 0 ≤ n < 2 ^ 62 →
  Crc32AppendZeroes crc n crc32c_m crc32c_powers = Some (steps (32 * Z.to_N n) crc).
Proof.
  intros Hcrc Hn. unfold Crc32AppendZeroes. rewrite append_zeroes_loop_ok; [|done|lia|lia|lia].
  do 2 f_equal. cbn. lia.
Qed.

Lemma crc_fold_zeroes c n : crc_fold c (replicate n 0) = steps (8 * N.of_nat n) c.
Proof.
  revert c. induction n as [|n IH]; intros c; [done|]. cbn [replicate].
  change (crc_fold c (0 :: replicate n 0)) with (crc_fold (byte_step c 0) (replicate n 0)).
  rewrite IH. unfold byte_step. rewrite Z.lxor_0_r, <- steps_add. f_equal. lia.
Qed.

(** ** The combination *)

Lemma not_u32 x : 0 ≤ x < 2 ^ 32 → u32 (Z.lnot x) = Z.lxor x 0xffffffff.
Proof.
  intros Hx. unfold u32. rewrite <- Z.land_ones by lia. change 0xffffffff with (Z.ones 32).
  apply Z.bits_inj'. intros i Hi. rewrite Z.land_spec, Z.lnot_spec, Z.lxor_spec by done.
  destruct (decide (i < 32)).
  - rewrite Z.ones_spec_low by lia. by destruct (Z.testbit x i).
  - rewrite Z.ones_spec_high by lia.
    by rewrite (proj1 (Z.bounded_iff_bits_nonneg 32 x ltac:(lia) ltac:(lia))) by lia.
Qed.

Lemma invert_twice x : Z.lxor (Z.lxor x 0xffffffff) 0xffffffff = x.
Proof. by rewrite Z.lxor_assoc, Z.lxor_nilpotent, Z.lxor_0_r. Qed.

Lemma PureExtend_zeroes b addr crc n :
  0 ≤ crc < 2 ^ 32 → 0 ≤ addr → addr + 15 < 2 ^ 64 →
  PureExtend b addr crc (replicate n 0) = Some (steps (8 * N.of_nat n) crc).
Proof.
  intros Hcrc Ha Hw. unfold PureExtend, PureToInverted, InvertedToPure.
  assert (bytes (replicate n 0)) by (apply bytes_replicate; lia).
  rewrite not_u32, Extend_ok by (done || by apply inverted_range).
  cbn [fmap option_fmap option_map]. f_equal.
  rewrite not_u32 by (apply crc32c_range; [by apply inverted_range|done]).
  unfold crc32c. rewrite !invert_twice. apply crc_fold_zeroes.
Qed.

(** The bytes that do not fill a word. *)
Lemma PureExtend_tail b addr crc len :
  0 ≤ crc < 2 ^ 32 → 0 ≤ addr → addr + 15 < 2 ^ 64 → 0 ≤ len < 4 →
  (if negb (len =? 0) then PureExtend b addr crc (take (Z.to_nat len) [0; 0; 0; 0]) else Some crc) =
  Some (steps (8 * Z.to_N len) crc).
Proof.
  intros Hcrc Ha Hw Hlen.
  assert (take (Z.to_nat len) [0; 0; 0; 0] = replicate (Z.to_nat len) 0) as ->.
  { assert (len = 0 ∨ len = 1 ∨ len = 2 ∨ len = 3) by lia. by destruct_or!; subst. }
  destruct (Z.eqb_spec len 0) as [->|Hz]; cbn [negb]; [done|].
  rewrite PureExtend_zeroes by done. do 2 f_equal. lia.
Qed.

Lemma bind_some {A B} (x : A) (f : A → option B) : Some x ≫= f = f x.
Proof. done. Qed.

Lemma Crc32cCombine_ok b addr crc1 l2 :
  bytes l2 → 0 ≤ crc1 < 2 ^ 32 → size l2 < 2 ^ 64 → 0 ≤ addr → addr + 15 < 2 ^ 64 →
  Crc32cCombine b addr crc1 (crc32c 0 l2) (size l2) = Some (crc32c crc1 l2).
Proof.
  intros Hl2 Hcrc1 Hsz Ha Hw. unfold Crc32cCombine, InvertedToPure, PureToInverted.
  pose proof (crc32c_range 0 l2 ltac:(lia) Hl2) as Hcrc2.
  rewrite (not_u32 crc1), (not_u32 (crc32c 0 l2)), invert_twice by done.
  assert (Hland : Z.land (size l2) 3 = size l2 mod 4) by (apply (land_low 2); lia).
  rewrite Hland. pose proof (size_nonneg l2).
  pose proof (Z.div_mod (size l2) 4 ltac:(lia)). pose proof (Z.mod_pos_bound (size l2) 4 ltac:(lia)).
  rewrite PureExtend_tail, bind_some by done. cbv beta.
  rewrite Crc32AppendZeroes_ok; [|by apply steps_range|].
  2: { split; [apply Z.div_pos; lia|]. apply Z.div_lt_upper_bound; lia. }
  rewrite bind_some. f_equal. rewrite <- steps_add.
  replace (32 * Z.to_N (size l2 / 4) + 8 * Z.to_N (size l2 mod 4))%N with (8 * N.of_nat (length l2))%N
    by (unfold size in *; lia).
  unfold crc32c at 1. rewrite invert_twice, Z.lxor_0_l, <- crc_fold_lxor.
  rewrite not_u32 by (apply crc_fold_range; [by apply inverted_range|done]). done.
Qed.

(** ** Bursts *)

(** Two buffers that differ in bits which lie within 32 consecutive ones, the first bit of
    a byte its lowest. *)
Definition burst (l1 l2 : slice) : Prop :=
  ∃ w k, 0 < w < 2 ^ 32 ∧ 0 ≤ k ∧ Z.lxor (le_val l1) (le_val l2) = Z.shiftl w k.

Lemma lxor_cancel a b c : Z.lxor (Z.lxor c a) (Z.lxor c b) = Z.lxor a b.
Proof. by rewrite lxor_4, Z.lxor_nilpotent, Z.lxor_0_l. Qed.

Lemma crc_fold_burst c l1 l2 :
  bytes l1 → bytes l2 → length l1 = length l2 → burst l1 l2 → crc_fold c l1 ≠ crc_fold c l2.
Proof.
  intros Hl1 Hl2 Hlen (w & k & Hw & Hk & Hx) Heq. rewrite !crc_fold_le, Hlen in Heq by done.
  apply (f_equal (Z.lxor (steps (8 * N.of_nat (length l2)) (Z.lxor c (le_val l1))))) in Heq.
  rewrite Z.lxor_nilpotent, <- steps_lxor, lxor_cancel, Hx in Heq.
  assert (Hr : 0 ≤ Z.shiftl w k < 2 ^ (8 * Z.of_nat (length l2))).
  { rewrite <- Hx. apply lxor_range; [lia| |by apply le_val_range].
    rewrite <- Hlen. by apply le_val_range. }
  rewrite Z.shiftl_mul_pow2 in Hr by done. assert (Hk2 : k < 8 * Z.of_nat (length l2)).
  { apply (Z.pow_lt_mono_r_iff 2); [lia|lia|]. assert (0 < 2 ^ k) by (apply Z.pow_pos_nonneg; lia). nia. }
  rewrite <- (Z2N.id k Hk), steps_shiftl_le in Heq by lia.
  symmetry in Heq. apply steps_inj0 in Heq; lia.
Qed.

Lemma crc32c_burst crc l1 l2 :
  bytes l1 → bytes l2 → length l1 = length l2 → burst l1 l2 → crc32c crc l1 ≠ crc32c crc l2.
Proof.
  intros H1 H2 Hlen Hb Heq. unfold crc32c in Heq.
  apply (f_equal (λ x, Z.lxor x 0xffffffff)) in Heq. rewrite !invert_twice in Heq.
  by apply crc_fold_burst in Heq.
Qed.

Lemma crc32c_app crc l1 l2 : crc32c (crc32c crc l1) l2 = crc32c crc (l1 ++ l2).
Proof. unfold crc32c. by rewrite invert_twice, crc_fold_app. Qed.

(** ** The checksum ZenFS is given *)

(** [crc32c::Extend] of a build, the buffers at some address: a 32-bit checksum of
    bytes. *)
Definition built_crc (b : Build) (addr : Z) : Crc32c := {|
  crc32c_Extend c l := default 0 (Extend b addr (u32 c) (u8 <$> l))
|}.

Lemma bytes_u8 l : bytes (u8 <$> l).
Proof. apply Forall_fmap, Forall_true. intros x. apply Z.mod_pos_bound. done. Qed.
Lemma u8_bytes l : bytes l → u8 <$> l = l.
Proof.
  intros Hl. rewrite <- (list_fmap_id l) at 2. apply list_fmap_ext. intros i x Hx.
  apply Z.mod_small. by apply (Forall_lookup_1 _ _ _ _ Hl Hx).
Qed.

Section built.
Variable b : Build.
Variable addr : Z.
Hypothesis Ha : 0 ≤ addr ∧ addr + 15 < 2 ^ 64.

Lemma built_crc_eq c l :
  0 ≤ c < 2 ^ 32 → bytes l → crc32c_Extend (Crc32c := built_crc b addr) c l = crc32c c l.
Proof using Ha.
  intros Hc Hl. cbn [crc32c_Extend built_crc]. rewrite u8_bytes, u32_small, Extend_ok by (done || apply Ha).
  done.
Qed.

Lemma built_crc_ok : Crc32cOk (built_crc b addr).
Proof using Ha.
  split. intros c l. cbn [crc32c_Extend built_crc].
  rewrite Extend_ok; [|apply bytes_u8|apply u32_range|apply Ha|apply Ha].
  apply crc32c_range; [apply u32_range|apply bytes_u8].
Qed.
End built.
