(* ===== verification/ZenTypes.v ===== *)
(** * ZenFS: data

    Statuses, the zones and the zoned block device of [zbd_zenfs.h], extents and files of
    [io_zenfs.h], the superblock, the metadata log and the file system of [fs_zenfs.h].
    A [Zone *] is a reference to an element of one of the two zone vectors, a
    [shared_ptr<ZoneFile>] the key of an object in a store.  The device behind the file
    descriptors (libzbd, the kernel and the disk) is an interface. *)

From stdpp Require Import base numbers option list gmap.
From S2P Require Import Prelude ZenCoding.

(** ** Statuses

    The codes of RocksDB's [Status] and [IOStatus] that ZenFS uses, messages left out.
    [NoSpace] is an [IOError] with a subcode, and [operator==] compares only codes. *)

Inductive IOStatus := OK | NotFound | Corruption | NotSupported | InvalidArgument | IOError
  | NoSpace | Aborted | Busy.

#[global] Instance IOStatus_eq_dec : EqDecision IOStatus.
Proof. solve_decision. Defined.

Definition code_ (s : IOStatus) : Z :=
  match s with
  | OK => 0 | NotFound => 1 | Corruption => 2 | NotSupported => 3 | InvalidArgument => 4
  | IOError => 5 | NoSpace => 5 | Aborted => 10 | Busy => 11
  end.
Definition status_eq (s t : IOStatus) : bool := code_ s =? code_ t.
Definition ok (s : IOStatus) : bool := code_ s =? 0.

Definition IsNotFound (s : IOStatus) : bool := code_ s =? 1.

(** ** The device *)

Inductive zbd_zone_cond := ZBD_ZONE_COND_NOT_WP | ZBD_ZONE_COND_EMPTY | ZBD_ZONE_COND_IMP_OPEN
  | ZBD_ZONE_COND_EXP_OPEN | ZBD_ZONE_COND_CLOSED | ZBD_ZONE_COND_FULL | ZBD_ZONE_COND_READONLY
  | ZBD_ZONE_COND_OFFLINE.

#[global] Instance zbd_zone_cond_eq_dec : EqDecision zbd_zone_cond.
Proof. solve_decision. Defined.

Record zbd_zone := mk_zbd_zone {
  zz_start : Z; zz_capacity : Z; zz_wp : Z; zz_swr : bool; zz_cond : zbd_zone_cond }.

(** The calls on a device: [zbd_reset_zones], [zbd_finish_zones], [zbd_close_zones] at an
    offset and length ([true]: the call returned 0), the report of one zone, and
    [pwrite] and [pread] at an offset.  [pwrite] gives the number of bytes written, [pread]
    the bytes; [None] is an error.  Callers that repeat a [pread] interrupted by a signal do
    so with the same arguments, so [pread] stands for the repeated call. *)
Class ZbdDev := {
  dev : Type;
  zbd_reset_zones : Z → Z → dev → bool * dev;
  zbd_finish_zones : Z → Z → dev → bool * dev;
  zbd_close_zones : Z → Z → dev → bool * dev;
  zbd_report_zone : Z → dev → option zbd_zone;
  pwrite : Z → slice → dev → option Z * dev;
  pread : Z → Z → dev → option slice * dev
}.

(** ** Zones and the zoned block device *)

(** [Env::WriteLifeTimeHint] as its number: the code casts any 32-bit value to it. *)
Definition WLTH_NOT_SET : Z := 0.
Definition WLTH_NONE : Z := 1.
Definition WLTH_MEDIUM : Z := 3.
Definition WLTH_EXTREME : Z := 5.

Record Zone := mk_zone {
  start_ : Z;
  capacity_ : Z; (* remaining *)
  max_capacity_ : Z;
  wp_ : Z;
  zlifetime_ : Z;
  used_capacity_ : Z;
  busy_ : bool
}.

Inductive zref := IoZone (i : nat) | MetaZone (i : nat).

#[global] Instance zref_eq_dec : EqDecision zref.
Proof. solve_decision. Defined.

Section zen_types.
Context {D : ZbdDev}.

Record ZonedBlockDevice := mk_zbd {
  block_sz_ : Z;
  zone_sz_ : Z;
  nr_zones_ : Z;
  io_zones : list Zone;
  meta_zones : list Zone;
  finish_threshold_ : Z;
  active_io_zones_ : Z;
  open_io_zones_ : Z;
  zone_deferred_status_ : IOStatus;
  migrating_ : bool;
  max_nr_active_io_zones_ : Z;
  max_nr_open_io_zones_ : Z;
  device : dev
}.

Definition set_io_zones (x : list Zone) (b : ZonedBlockDevice) : ZonedBlockDevice :=
  mk_zbd (block_sz_ b) (zone_sz_ b) (nr_zones_ b) x (meta_zones b) (finish_threshold_ b)
    (active_io_zones_ b) (open_io_zones_ b) (zone_deferred_status_ b) (migrating_ b)
    (max_nr_active_io_zones_ b) (max_nr_open_io_zones_ b) (device b).
Definition set_meta_zones (x : list Zone) (b : ZonedBlockDevice) : ZonedBlockDevice :=
  mk_zbd (block_sz_ b) (zone_sz_ b) (nr_zones_ b) (io_zones b) x (finish_threshold_ b)
    (active_io_zones_ b) (open_io_zones_ b) (zone_deferred_status_ b) (migrating_ b)
    (max_nr_active_io_zones_ b) (max_nr_open_io_zones_ b) (device b).
Definition set_tokens (active open : Z) (b : ZonedBlockDevice) : ZonedBlockDevice :=
  mk_zbd (block_sz_ b) (zone_sz_ b) (nr_zones_ b) (io_zones b) (meta_zones b) (finish_threshold_ b)
    active open (zone_deferred_status_ b) (migrating_ b)
    (max_nr_active_io_zones_ b) (max_nr_open_io_zones_ b) (device b).
Definition set_deferred (x : IOStatus) (b : ZonedBlockDevice) : ZonedBlockDevice :=
  mk_zbd (block_sz_ b) (zone_sz_ b) (nr_zones_ b) (io_zones b) (meta_zones b) (finish_threshold_ b)
    (active_io_zones_ b) (open_io_zones_ b) x (migrating_ b)
    (max_nr_active_io_zones_ b) (max_nr_open_io_zones_ b) (device b).
Definition set_migrating (x : bool) (b : ZonedBlockDevice) : ZonedBlockDevice :=
  mk_zbd (block_sz_ b) (zone_sz_ b) (nr_zones_ b) (io_zones b) (meta_zones b) (finish_threshold_ b)
    (active_io_zones_ b) (open_io_zones_ b) (zone_deferred_status_ b) x
    (max_nr_active_io_zones_ b) (max_nr_open_io_zones_ b) (device b).
Definition set_device (x : dev) (b : ZonedBlockDevice) : ZonedBlockDevice :=
  mk_zbd (block_sz_ b) (zone_sz_ b) (nr_zones_ b) (io_zones b) (meta_zones b) (finish_threshold_ b)
    (active_io_zones_ b) (open_io_zones_ b) (zone_deferred_status_ b) (migrating_ b)
    (max_nr_active_io_zones_ b) (max_nr_open_io_zones_ b) x.
Definition SetFinishTreshold (x : Z) (b : ZonedBlockDevice) : ZonedBlockDevice :=
  mk_zbd (block_sz_ b) (zone_sz_ b) (nr_zones_ b) (io_zones b) (meta_zones b) x
    (active_io_zones_ b) (open_io_zones_ b) (zone_deferred_status_ b) (migrating_ b)
    (max_nr_active_io_zones_ b) (max_nr_open_io_zones_ b) (device b).
End zen_types.

(** ** Files *)

Record ZoneExtent := mk_extent { e_start : Z; e_length : Z; e_zone : nat }.

#[global] Instance ZoneExtent_eq_dec : EqDecision ZoneExtent.
Proof. solve_decision. Defined.

Definition NO_EXTENT : Z := 0xffffffffffffffff.

(** The [IOType] of a file: only whether it is a write-ahead log matters. *)
Inductive IOType := kWAL | kUnknown.

Record ZoneFile := mk_file {
  extents_ : list ZoneExtent;
  linkfiles_ : list slice;
  active_zone_ : option nat;
  extent_start_ : Z;
  extent_filepos_ : Z;
  lifetime_ : Z;
  io_type_ : IOType;
  file_size_ : Z;
  file_id_ : Z;
  nr_synced_extents_ : Z;
  open_for_wr_ : bool;
  m_time_ : Z;
  is_sparse_ : bool;
  is_deleted_ : bool
}.

(** The constructor [ZoneFile::ZoneFile]. *)
Definition new_ZoneFile (file_id : Z) : ZoneFile :=
  mk_file [] [] None NO_EXTENT 0 WLTH_NOT_SET kUnknown 0 file_id 0 false 0 false false.

Definition f_set_extents (x : list ZoneExtent) (f : ZoneFile) : ZoneFile :=
  mk_file x (linkfiles_ f) (active_zone_ f) (extent_start_ f) (extent_filepos_ f) (lifetime_ f)
    (io_type_ f) (file_size_ f) (file_id_ f) (nr_synced_extents_ f) (open_for_wr_ f) (m_time_ f)
    (is_sparse_ f) (is_deleted_ f).
Definition f_set_links (x : list slice) (f : ZoneFile) : ZoneFile :=
  mk_file (extents_ f) x (active_zone_ f) (extent_start_ f) (extent_filepos_ f) (lifetime_ f)
    (io_type_ f) (file_size_ f) (file_id_ f) (nr_synced_extents_ f) (open_for_wr_ f) (m_time_ f)
    (is_sparse_ f) (is_deleted_ f).
Definition f_set_active (x : option nat) (f : ZoneFile) : ZoneFile :=
  mk_file (extents_ f) (linkfiles_ f) x (extent_start_ f) (extent_filepos_ f) (lifetime_ f)
    (io_type_ f) (file_size_ f) (file_id_ f) (nr_synced_extents_ f) (open_for_wr_ f) (m_time_ f)
    (is_sparse_ f) (is_deleted_ f).
Definition f_set_extent_start (x : Z) (f : ZoneFile) : ZoneFile :=
  mk_file (extents_ f) (linkfiles_ f) (active_zone_ f) x (extent_filepos_ f) (lifetime_ f)
    (io_type_ f) (file_size_ f) (file_id_ f) (nr_synced_extents_ f) (open_for_wr_ f) (m_time_ f)
    (is_sparse_ f) (is_deleted_ f).
Definition f_set_filepos (x : Z) (f : ZoneFile) : ZoneFile :=
  mk_file (extents_ f) (linkfiles_ f) (active_zone_ f) (extent_start_ f) x (lifetime_ f)
    (io_type_ f) (file_size_ f) (file_id_ f) (nr_synced_extents_ f) (open_for_wr_ f) (m_time_ f)
    (is_sparse_ f) (is_deleted_ f).
Definition f_set_lifetime (x : Z) (f : ZoneFile) : ZoneFile :=
  mk_file (extents_ f) (linkfiles_ f) (active_zone_ f) (extent_start_ f) (extent_filepos_ f) x
    (io_type_ f) (file_size_ f) (file_id_ f) (nr_synced_extents_ f) (open_for_wr_ f) (m_time_ f)
    (is_sparse_ f) (is_deleted_ f).
Definition f_set_io_type (x : IOType) (f : ZoneFile) : ZoneFile :=
  mk_file (extents_ f) (linkfiles_ f) (active_zone_ f) (extent_start_ f) (extent_filepos_ f) (lifetime_ f)
    x (file_size_ f) (file_id_ f) (nr_synced_extents_ f) (open_for_wr_ f) (m_time_ f)
    (is_sparse_ f) (is_deleted_ f).
Definition f_set_size (x : Z) (f : ZoneFile) : ZoneFile :=
  mk_file (extents_ f) (linkfiles_ f) (active_zone_ f) (extent_start_ f) (extent_filepos_ f) (lifetime_ f)
    (io_type_ f) x (file_id_ f) (nr_synced_extents_ f) (open_for_wr_ f) (m_time_ f)
    (is_sparse_ f) (is_deleted_ f).
Definition f_set_id (x : Z) (f : ZoneFile) : ZoneFile :=
  mk_file (extents_ f) (linkfiles_ f) (active_zone_ f) (extent_start_ f) (extent_filepos_ f) (lifetime_ f)
    (io_type_ f) (file_size_ f) x (nr_synced_extents_ f) (open_for_wr_ f) (m_time_ f)
    (is_sparse_ f) (is_deleted_ f).
Definition f_set_synced (x : Z) (f : ZoneFile) : ZoneFile :=
  mk_file (extents_ f) (linkfiles_ f) (active_zone_ f) (extent_start_ f) (extent_filepos_ f) (lifetime_ f)
    (io_type_ f) (file_size_ f) (file_id_ f) x (open_for_wr_ f) (m_time_ f)
    (is_sparse_ f) (is_deleted_ f).
Definition f_set_open (x : bool) (f : ZoneFile) : ZoneFile :=
  mk_file (extents_ f) (linkfiles_ f) (active_zone_ f) (extent_start_ f) (extent_filepos_ f) (lifetime_ f)
    (io_type_ f) (file_size_ f) (file_id_ f) (nr_synced_extents_ f) x (m_time_ f)
    (is_sparse_ f) (is_deleted_ f).
Definition f_set_mtime (x : Z) (f : ZoneFile) : ZoneFile :=
  mk_file (extents_ f) (linkfiles_ f) (active_zone_ f) (extent_start_ f) (extent_filepos_ f) (lifetime_ f)
    (io_type_ f) (file_size_ f) (file_id_ f) (nr_synced_extents_ f) (open_for_wr_ f) x
    (is_sparse_ f) (is_deleted_ f).
Definition f_set_sparse (x : bool) (f : ZoneFile) : ZoneFile :=
  mk_file (extents_ f) (linkfiles_ f) (active_zone_ f) (extent_start_ f) (extent_filepos_ f) (lifetime_ f)
    (io_type_ f) (file_size_ f) (file_id_ f) (nr_synced_extents_ f) (open_for_wr_ f) (m_time_ f)
    x (is_deleted_ f).
Definition f_set_deleted (x : bool) (f : ZoneFile) : ZoneFile :=
  mk_file (extents_ f) (linkfiles_ f) (active_zone_ f) (extent_start_ f) (extent_filepos_ f) (lifetime_ f)
    (io_type_ f) (file_size_ f) (file_id_ f) (nr_synced_extents_ f) (open_for_wr_ f) (m_time_ f)
    (is_sparse_ f) x.

(** ** The file system *)

Record Superblock := mk_super {
  magic_ : Z;
  uuid_ : slice; (* char[37] *)
  sequence_ : Z;
  superblock_version_ : Z;
  flags_ : Z;
  block_size_ : Z;
  zone_size_ : Z;
  sb_nr_zones_ : Z;
  aux_fs_path_ : slice; (* char[256] *)
  finish_treshold_ : Z;
  zenfs_version_ : slice; (* char[64] *)
  reserved_ : slice (* char[123] *)
}.

Record ZenMetaLog := mk_log { read_pos_ : Z; log_zone : nat; bs_ : Z }.

Section zen_fs_type.
Context {D : ZbdDev}.

(** [files_] is the [std::map] from names to files, in the order of its keys; [objs] the
    [ZoneFile] objects the shared pointers refer to; [handles] the open writers, which
    hold a shared pointer to their file too. *)
Record ZenFS := mk_fs {
  zbd_ : ZonedBlockDevice;
  files_ : list (slice * nat);
  objs : gmap nat ZoneFile;
  next_obj : nat;
  next_file_id_ : Z;
  meta_log_ : option ZenMetaLog;
  superblock_ : option Superblock;
  handles : list nat
}.

Definition set_zbd (x : ZonedBlockDevice) (s : ZenFS) : ZenFS :=
  mk_fs x (files_ s) (objs s) (next_obj s) (next_file_id_ s) (meta_log_ s) (superblock_ s) (handles s).
Definition set_files (x : list (slice * nat)) (s : ZenFS) : ZenFS :=
  mk_fs (zbd_ s) x (objs s) (next_obj s) (next_file_id_ s) (meta_log_ s) (superblock_ s) (handles s).
Definition set_objs (x : gmap nat ZoneFile) (s : ZenFS) : ZenFS :=
  mk_fs (zbd_ s) (files_ s) x (next_obj s) (next_file_id_ s) (meta_log_ s) (superblock_ s) (handles s).
Definition set_next_obj (x : nat) (s : ZenFS) : ZenFS :=
  mk_fs (zbd_ s) (files_ s) (objs s) x (next_file_id_ s) (meta_log_ s) (superblock_ s) (handles s).
Definition set_next_file_id (x : Z) (s : ZenFS) : ZenFS :=
  mk_fs (zbd_ s) (files_ s) (objs s) (next_obj s) x (meta_log_ s) (superblock_ s) (handles s).
Definition set_meta_log (x : option ZenMetaLog) (s : ZenFS) : ZenFS :=
  mk_fs (zbd_ s) (files_ s) (objs s) (next_obj s) (next_file_id_ s) x (superblock_ s) (handles s).
Definition set_superblock (x : option Superblock) (s : ZenFS) : ZenFS :=
  mk_fs (zbd_ s) (files_ s) (objs s) (next_obj s) (next_file_id_ s) (meta_log_ s) x (handles s).
Definition set_handles (x : list nat) (s : ZenFS) : ZenFS :=
  mk_fs (zbd_ s) (files_ s) (objs s) (next_obj s) (next_file_id_ s) (meta_log_ s) (superblock_ s) x.
End zen_fs_type.
