(* ===== verification/WalOps.v ===== *)
(** * RocksDB: the write-ahead log

    [log::Writer] and [log::Reader] of [db/log_writer.cc] and [db/log_reader.cc]: records
    cut into fragments that do not cross the blocks of 32768 bytes of the file, each with
    a header of checksum, length and type, and in a recycled log the number of the log.
    The file the writer appends to ([LogDest]), the one the reader reads ([LogSource]) and
    the compression library ([StreamingCompression]) are interfaces.  The state of a
    writer or a reader is a record; what the reader reports to its reporter is the list
    [reported].  [ReadRecord] is the call without a record checksum. *)

From stdpp Require Import base numbers option list gmap strings.
From S2P Require Import Prelude ZenCoding ZenTypes.

(** ** The format ([db/log_format.h]) *)

Definition kZeroType : Z := 0.
Definition kFullType : Z := 1.
Definition kFirstType : Z := 2.
Definition kMiddleType : Z := 3.
Definition kLastType : Z := 4.
Definition kRecyclableFullType : Z := 5.
Definition kRecyclableFirstType : Z := 6.
Definition kRecyclableMiddleType : Z := 7.
Definition kRecyclableLastType : Z := 8.
Definition kSetCompressionType : Z := 9.
Definition kUserDefinedTimestampSizeType : Z := 10.
Definition kRecyclableUserDefinedTimestampSizeType : Z := 11.
Definition kMaxRecordType : Z := kRecyclableUserDefinedTimestampSizeType.

Definition kBlockSize : Z := 32768.
Definition kHeaderSize : Z := 4 + 2 + 1.
Definition kRecyclableHeaderSize : Z := 4 + 2 + 1 + 4.

(** What [ReadPhysicalRecord] returns besides the types. *)
Definition kEof : Z := kMaxRecordType + 1.
Definition kBadRecord : Z := kMaxRecordType + 2.
Definition kBadHeader : Z := kMaxRecordType + 3.
Definition kOldRecord : Z := kMaxRecordType + 4.
Definition kBadRecordLen : Z := kMaxRecordType + 5.
Definition kBadRecordChecksum : Z := kMaxRecordType + 6.

Inductive WALRecoveryMode := kTolerateCorruptedTailRecords | kAbsoluteConsistency
  | kPointInTimeRecovery | kSkipAnyCorruptedRecords.

(** ** Interfaces *)

(** [WritableFileWriter]: the checksum passed to [Append] is for the file's own use. *)
Class LogDest (D : Type) := {
  dest_Append : slice → Z → ST D IOStatus;
  dest_Flush : ST D IOStatus;
  dest_Close : ST D IOStatus;
  dest_seen_error : D → bool
}.

(** [SequentialFileReader]. *)
Class LogSource (F : Type) := { src_Read : Z → ST F (IOStatus * slice) }.

(** [crc32c::Crc32cCombine]. *)
Class CrcCombine := { crc32c_Combine : Z → Z → Z → Z }.

(** [StreamingCompress] and [StreamingUncompress]: [Compress] takes the whole input and
    gives what remains, the bytes it put out and its new state; [Uncompress] is first
    called with its input and then without. *)
Class StreamingCompression := {
  comp : Type;
  comp_Create : Z → comp;
  comp_Reset : comp → comp;
  Compress : comp → slice → Z * slice * comp;
  uncomp : Type;
  uncomp_Create : Z → uncomp;
  uncomp_Reset : uncomp → uncomp;
  Uncompress : uncomp → option slice → Z → Z * slice * uncomp;
  StreamingCompressionTypeSupported : Z → bool
}.

Definition kNoCompression : Z := 0.

(** ** Records about the log *)

(** [CompressionTypeRecord]; decoding also gives what is left of the slice. *)
Definition CompressionTypeRecord_EncodeTo (compression_type : Z) : slice := PutFixed32 [] compression_type.
Definition CompressionTypeRecord_DecodeFrom `{StreamingCompression} (src : slice) : option Z * slice :=
  match GetFixed32 src with
  | Some (val, src) => (if StreamingCompressionTypeSupported val then Some val else None, src)
  | None => (None, src)
  end.

(** [UserDefinedTimestampSizeRecord]: pairs of a column family and a size, which is not
    zero in what the writer encodes. *)
Definition kSizePerColumnFamily : Z := 4 + 2.
Definition TimestampSizeRecord_EncodeTo (cf_to_ts_sz : list (Z * Z)) : slice :=
  foldl (λ dst '(cf_id, ts_sz), PutFixed16 (PutFixed32 dst cf_id) (u16 ts_sz)) [] cf_to_ts_sz.

Fixpoint timestamp_entries (num : nat) (src : slice) : option (list (Z * Z) * slice) :=
  match num with
  | O => Some ([], src)
  | S num =>
      '(cf_id, src) ← GetFixed32 src;
      '(ts_sz, src) ← GetFixed16 src;
      '(l, src) ← timestamp_entries num src;
      Some ((cf_id, ts_sz) :: l, src)
  end.
(** The entries and what is left of the slice, which is nothing where the length fits. *)
Definition TimestampSizeRecord_DecodeFrom (src : slice) : option (list (Z * Z) * slice) :=
  if negb (size src mod kSizePerColumnFamily =? 0) then None
  else timestamp_entries (Z.to_nat (size src / kSizePerColumnFamily)) src.

(** ** The writer *)

Section writer.
Context {D : Type} {LD : LogDest D} {K : Crc32c} {KC : CrcCombine} {Z_ : StreamingCompression}.

Record Writer := mk_Writer {
  dest_ : D;
  block_offset_ : Z;
  log_number_ : Z;
  recycle_log_files_ : bool;
  type_crc_ : list Z;
  manual_flush_ : bool;
  compression_type_ : Z;
  compress_ : option comp;
  recorded_cf_to_ts_sz_ : gmap Z Z
}.

Definition set_dest (d : D) (w : Writer) : Writer :=
  mk_Writer d (block_offset_ w) (log_number_ w) (recycle_log_files_ w) (type_crc_ w)
    (manual_flush_ w) (compression_type_ w) (compress_ w) (recorded_cf_to_ts_sz_ w).
Definition set_block_offset (o : Z) (w : Writer) : Writer :=
  mk_Writer (dest_ w) o (log_number_ w) (recycle_log_files_ w) (type_crc_ w)
    (manual_flush_ w) (compression_type_ w) (compress_ w) (recorded_cf_to_ts_sz_ w).
Definition set_compress (t : Z) (c : option comp) (w : Writer) : Writer :=
  mk_Writer (dest_ w) (block_offset_ w) (log_number_ w) (recycle_log_files_ w) (type_crc_ w)
    (manual_flush_ w) t c (recorded_cf_to_ts_sz_ w).
Definition set_recorded (m : gmap Z Z) (w : Writer) : Writer :=
  mk_Writer (dest_ w) (block_offset_ w) (log_number_ w) (recycle_log_files_ w) (type_crc_ w)
    (manual_flush_ w) (compression_type_ w) (compress_ w) m.

Notation prog := (ST Writer).

Definition in_dest {A} (c : ST D A) : prog A := λ w,
  match c (dest_ w) with Done a d => Done a (set_dest d w) | Crash => Crash end.

Definition new_Writer (dest : D) (log_number : Z) (recycle_log_files manual_flush : bool)
    (compression_type : Z) : Writer :=
  mk_Writer dest 0 log_number recycle_log_files
    ((λ i, crc32c_Value [i]) <$> seqZ 0 (kMaxRecordType + 1)) manual_flush compression_type None ∅.

Definition Writer_WriteBuffer : prog IOStatus :=
  w <- get ;;
  if dest_seen_error (dest_ w) then ret IOError else in_dest dest_Flush.

Definition Writer_Close : prog IOStatus := in_dest dest_Close.

Definition header_size (w : Writer) : Z :=
  if recycle_log_files_ w then kRecyclableHeaderSize else kHeaderSize.

Definition EmitPhysicalRecord (t : Z) (ptr : slice) : prog IOStatus :=
  w <- get ;;
  let n := size ptr in
  assert (n <=? 0xffff) ;;
  let buf := [u8 (Z.land n 0xff); u8 (Z.shiftr n 8); u8 t] in
  crc <- load (type_crc_ w !! Z.to_nat t) ;;
  hdr <- (if (t <? kRecyclableFullType) || (t =? kSetCompressionType)
             || (t =? kUserDefinedTimestampSizeType) then
      assert (block_offset_ w + kHeaderSize + n <=? kBlockSize) ;;
      ret (kHeaderSize, [], crc)
    else
      assert (block_offset_ w + kRecyclableHeaderSize + n <=? kBlockSize) ;;
      let num := EncodeFixed32 (u32 (log_number_ w)) in
      ret (kRecyclableHeaderSize, num, crc32c_Extend crc num)) ;;
  let '(header_size, num, crc) := hdr in
  let payload_crc := crc32c_Value ptr in
  let crc := crc32c_Mask (crc32c_Combine crc payload_crc n) in
  s <- in_dest (dest_Append (EncodeFixed32 crc ++ buf ++ num) 0) ;;
  s <- (if ok s then in_dest (dest_Append ptr payload_crc) else ret s) ;;
  modify (λ w, set_block_offset (block_offset_ w + (header_size + n)) w) ;;
  ret s.

(** The switch to a new block at the start of an iteration. *)
Definition switch_block : prog IOStatus :=
  w <- get ;;
  let leftover := kBlockSize - block_offset_ w in
  assert (0 <=? leftover) ;;
  if leftover <? header_size w then
    s <- (if 0 <? leftover then
        assert (header_size w <=? 11) ;;
        in_dest (dest_Append (replicate (Z.to_nat leftover) 0) 0)
      else ret OK) ;;
    if ok s then modify (set_block_offset 0) ;; ret s else ret s
  else ret OK.

(** The next chunk of compressed bytes, when there is compression: [inl] where the loop
    is left. *)
Definition compress_chunk (slice_ ptr : slice) (compress_remaining : Z) (compress_start : bool) :
    prog (IOStatus + slice * Z * bool) :=
  w <- get ;;
  match compress_ w with
  | Some c =>
      if compress_start || (size ptr =? 0) then
        let '(remaining, out, c) := Compress c slice_ in
        modify (set_compress (compression_type_ w) (Some c)) ;;
        if remaining <? 0 then ret (inl IOError)
        else if (size out =? 0) && negb compress_start then ret (inl OK)
        else ret (inr (out, remaining, false))
      else ret (inr (ptr, compress_remaining, compress_start))
  | None => ret (inr (ptr, compress_remaining, compress_start))
  end.

Definition record_type (recycle begin end_ : bool) : Z :=
  if begin && end_ then if recycle then kRecyclableFullType else kFullType
  else if begin then if recycle then kRecyclableFirstType else kFirstType
  else if end_ then if recycle then kRecyclableLastType else kLastType
  else if recycle then kRecyclableMiddleType else kMiddleType.

(** The loop of [AddRecord]; [ptr] is what is left of the slice. *)
Fixpoint add_loop (fuel : nat) (slice_ ptr : slice) (begin : bool) (compress_remaining : Z)
    (compress_start : bool) : prog IOStatus :=
  match fuel with
  | O => crash
  | S fuel =>
      s <- switch_block ;;
      if negb (ok s) then ret s else
      w <- get ;;
      assert (header_size w <=? kBlockSize - block_offset_ w) ;;
      let avail := kBlockSize - block_offset_ w - header_size w in
      chunk <- compress_chunk slice_ ptr compress_remaining compress_start ;;
      match chunk with
      | inl s => ret s
      | inr (ptr, compress_remaining, compress_start) =>
          let left := size ptr in
          let fragment_length := if left <? avail then left else avail in
          let end_ := (left =? fragment_length) && (compress_remaining =? 0) in
          s <- EmitPhysicalRecord (record_type (recycle_log_files_ w) begin end_)
                 (take (Z.to_nat fragment_length) ptr) ;;
          let ptr := drop (Z.to_nat fragment_length) ptr in
          if ok s && ((0 <? size ptr) || (0 <? compress_remaining))
          then add_loop fuel slice_ ptr false compress_remaining compress_start else ret s
      end
  end.

(** Without compression the loop needs at most one round per byte, and two more. *)
Definition Writer_AddRecord (fuel : nat) (slice_ : slice) : prog IOStatus :=
  w <- get ;;
  compress_start <- (match compress_ w with
    | Some c => modify (set_compress (compression_type_ w) (Some (comp_Reset c))) ;; ret true
    | None => ret false
    end) ;;
  s <- add_loop fuel slice_ slice_ true 0 compress_start ;;
  if ok s && negb (manual_flush_ w) then in_dest dest_Flush else ret s.

Definition AddCompressionTypeRecord : prog IOStatus :=
  w <- get ;;
  assert (block_offset_ w =? 0) ;;
  if compression_type_ w =? kNoCompression then ret OK else
  s <- EmitPhysicalRecord kSetCompressionType (CompressionTypeRecord_EncodeTo (compression_type_ w)) ;;
  if ok s then
    s <- (if negb (manual_flush_ w) then in_dest dest_Flush else ret s) ;;
    modify (set_compress (compression_type_ w) (Some (comp_Create (compression_type_ w)))) ;;
    ret s
  else modify (set_compress kNoCompression (compress_ w)) ;; ret s.

(** The column families to record; the list is the map in the order of its iteration. *)
Fixpoint ts_to_record (cf_to_ts_sz : list (Z * Z)) (acc : list (Z * Z)) : prog (list (Z * Z)) :=
  match cf_to_ts_sz with
  | [] => ret acc
  | (cf_id, ts_sz) :: rest =>
      w <- get ;;
      match recorded_cf_to_ts_sz_ w !! cf_id with
      | Some recorded => assert (recorded =? ts_sz) ;; ts_to_record rest acc
      | None =>
          if negb (ts_sz =? 0) then
            modify (set_recorded (<[cf_id := ts_sz]> (recorded_cf_to_ts_sz_ w))) ;;
            ts_to_record rest (acc ++ [(cf_id, ts_sz)])
          else ts_to_record rest acc
      end
  end.

Definition MaybeAddUserDefinedTimestampSizeRecord (cf_to_ts_sz : list (Z * Z)) : prog IOStatus :=
  ts_sz_to_record <- ts_to_record cf_to_ts_sz [] ;;
  if Nat.eqb (length ts_sz_to_record) 0 then ret OK else
  w <- get ;;
  EmitPhysicalRecord (if recycle_log_files_ w then kRecyclableUserDefinedTimestampSizeType
                      else kUserDefinedTimestampSizeType)
    (TimestampSizeRecord_EncodeTo ts_sz_to_record).

End writer.
Arguments Writer D {Z_}.

(** ** The reader *)

Section reader.
Context {F : Type} {LS : LogSource F} {K : Crc32c} {Z_ : StreamingCompression}.

Record Reader := mk_Reader {
  file_ : F;
  reported : list (Z * string);
  checksum_ : bool;
  buffer_ : slice;
  eof_ : bool;
  read_error_ : bool;
  eof_offset_ : Z;
  last_record_offset_ : Z;
  end_of_buffer_offset_ : Z;
  reader_log_number_ : Z;
  recycled_ : bool;
  first_record_read_ : bool;
  reader_compression_type_ : Z;
  compression_type_record_read_ : bool;
  uncompress_ : option uncomp;
  reader_cf_to_ts_sz_ : gmap Z Z
}.

Definition new_Reader (file : F) (checksum : bool) (log_num : Z) : Reader :=
  mk_Reader file [] checksum [] false false 0 0 0 log_num false false kNoCompression false None ∅.

Definition set_file (f : F) (r : Reader) : Reader :=
  mk_Reader f (reported r) (checksum_ r) (buffer_ r) (eof_ r) (read_error_ r) (eof_offset_ r)
    (last_record_offset_ r) (end_of_buffer_offset_ r) (reader_log_number_ r) (recycled_ r)
    (first_record_read_ r) (reader_compression_type_ r) (compression_type_record_read_ r)
    (uncompress_ r) (reader_cf_to_ts_sz_ r).
Definition set_buffer (b : slice) (r : Reader) : Reader :=
  mk_Reader (file_ r) (reported r) (checksum_ r) b (eof_ r) (read_error_ r) (eof_offset_ r)
    (last_record_offset_ r) (end_of_buffer_offset_ r) (reader_log_number_ r) (recycled_ r)
    (first_record_read_ r) (reader_compression_type_ r) (compression_type_record_read_ r)
    (uncompress_ r) (reader_cf_to_ts_sz_ r).
Definition set_eof (eof : bool) (off : Z) (r : Reader) : Reader :=
  mk_Reader (file_ r) (reported r) (checksum_ r) (buffer_ r) eof (read_error_ r) off
    (last_record_offset_ r) (end_of_buffer_offset_ r) (reader_log_number_ r) (recycled_ r)
    (first_record_read_ r) (reader_compression_type_ r) (compression_type_record_read_ r)
    (uncompress_ r) (reader_cf_to_ts_sz_ r).
Definition set_read_error (r : Reader) : Reader :=
  mk_Reader (file_ r) (reported r) (checksum_ r) (buffer_ r) (eof_ r) true (eof_offset_ r)
    (last_record_offset_ r) (end_of_buffer_offset_ r) (reader_log_number_ r) (recycled_ r)
    (first_record_read_ r) (reader_compression_type_ r) (compression_type_record_read_ r)
    (uncompress_ r) (reader_cf_to_ts_sz_ r).
Definition set_end_of_buffer (o : Z) (r : Reader) : Reader :=
  mk_Reader (file_ r) (reported r) (checksum_ r) (buffer_ r) (eof_ r) (read_error_ r) (eof_offset_ r)
    (last_record_offset_ r) o (reader_log_number_ r) (recycled_ r)
    (first_record_read_ r) (reader_compression_type_ r) (compression_type_record_read_ r)
    (uncompress_ r) (reader_cf_to_ts_sz_ r).
Definition set_recycled (r : Reader) : Reader :=
  mk_Reader (file_ r) (reported r) (checksum_ r) (buffer_ r) (eof_ r) (read_error_ r) (eof_offset_ r)
    (last_record_offset_ r) (end_of_buffer_offset_ r) (reader_log_number_ r) true
    (first_record_read_ r) (reader_compression_type_ r) (compression_type_record_read_ r)
    (uncompress_ r) (reader_cf_to_ts_sz_ r).
Definition set_last_record (o : Z) (first : bool) (r : Reader) : Reader :=
  mk_Reader (file_ r) (reported r) (checksum_ r) (buffer_ r) (eof_ r) (read_error_ r) (eof_offset_ r)
    o (end_of_buffer_offset_ r) (reader_log_number_ r) (recycled_ r)
    first (reader_compression_type_ r) (compression_type_record_read_ r)
    (uncompress_ r) (reader_cf_to_ts_sz_ r).
Definition set_uncompress (t : Z) (read : bool) (u : option uncomp) (r : Reader) : Reader :=
  mk_Reader (file_ r) (reported r) (checksum_ r) (buffer_ r) (eof_ r) (read_error_ r) (eof_offset_ r)
    (last_record_offset_ r) (end_of_buffer_offset_ r) (reader_log_number_ r) (recycled_ r)
    (first_record_read_ r) t read u (reader_cf_to_ts_sz_ r).
Definition set_reader_ts (m : gmap Z Z) (r : Reader) : Reader :=
  mk_Reader (file_ r) (reported r) (checksum_ r) (buffer_ r) (eof_ r) (read_error_ r) (eof_offset_ r)
    (last_record_offset_ r) (end_of_buffer_offset_ r) (reader_log_number_ r) (recycled_ r)
    (first_record_read_ r) (reader_compression_type_ r) (compression_type_record_read_ r)
    (uncompress_ r) m.

Notation prog := (ST Reader).

Definition in_file {A} (c : ST F A) : prog A := λ r,
  match c (file_ r) with Done a f => Done a (set_file f r) | Crash => Crash end.

(** [ReportDrop] and [ReportCorruption]: the bytes dropped and the reason. *)
Definition ReportDrop (bytes : Z) (reason : string) : prog unit :=
  modify (λ r, mk_Reader (file_ r) (reported r ++ [(bytes, reason)]) (checksum_ r) (buffer_ r) (eof_ r)
    (read_error_ r) (eof_offset_ r) (last_record_offset_ r) (end_of_buffer_offset_ r)
    (reader_log_number_ r) (recycled_ r) (first_record_read_ r) (reader_compression_type_ r)
    (compression_type_record_read_ r) (uncompress_ r) (reader_cf_to_ts_sz_ r)).
Definition ReportCorruption (bytes : Z) (reason : string) : prog unit := ReportDrop bytes reason.

Definition LastRecordEnd (r : Reader) : Z := end_of_buffer_offset_ r - size (buffer_ r).

(** [ReadMore]: [None] where it returns true, or the error and the bytes dropped. *)
Definition ReadMore : prog (option (Z * Z)) :=
  r <- get ;;
  if negb (eof_ r) && negb (read_error_ r) then
    res <- in_file (src_Read kBlockSize) ;;
    let '(status, buffer) := res in
    modify (set_buffer buffer) ;;
    modify (set_end_of_buffer (end_of_buffer_offset_ r + size buffer)) ;;
    if negb (ok status) then
      modify (set_buffer []) ;; ReportDrop kBlockSize "read error" ;; modify set_read_error ;;
      ret (Some (kEof, 0))
    else
      when (size buffer <? kBlockSize) (modify (set_eof true (size buffer))) ;;
      ret None
  else
    modify (set_buffer []) ;;
    if negb (size (buffer_ r) =? 0) then ret (Some (kBadHeader, size (buffer_ r)))
    else ret (Some (kEof, 0)).

(** The loop that uncompresses a fragment; [None] where it fails. *)
Fixpoint uncompress_loop (fuel : nat) (u : uncomp) (input : option slice) (length : Z) (acc : slice) :
    prog (option slice) :=
  match fuel with
  | O => crash
  | S fuel =>
      let '(remaining, out, u) := Uncompress u input length in
      modify (λ r, set_uncompress (reader_compression_type_ r) (compression_type_record_read_ r) (Some u) r) ;;
      if remaining <? 0 then modify (set_buffer []) ;; ret None
      else if (0 <? remaining) || (size out =? kBlockSize)
      then uncompress_loop fuel u None length (acc ++ out) else ret (Some (acc ++ out))
  end.

(** [unsigned int type = header[6]], a signed [char]. *)
Definition char_type (b : Z) : Z := if b <? 128 then b else u32 (b - 256).

Definition is_recyclable_type (type : Z) : bool :=
  ((kRecyclableFullType <=? type) && (type <=? kRecyclableLastType))
  || (type =? kRecyclableUserDefinedTimestampSizeType).

(** The loop of [ReadPhysicalRecord]: the type, the fragment and the bytes dropped. *)
Fixpoint read_physical (fuel ufuel : nat) : prog (Z * slice * Z) :=
  match fuel with
  | O => crash
  | S fuel =>
      let more := (m <- ReadMore ;;
        match m with Some (e, drop_size) => ret (e, [], drop_size) | None => read_physical fuel ufuel end) in
      r <- get ;;
      if size (buffer_ r) <? kHeaderSize then more else
      let header := buffer_ r in
      a <- load (header !! 4%nat) ;;
      b <- load (header !! 5%nat) ;;
      t <- load (header !! 6%nat) ;;
      let type := char_type t in
      let length := Z.lor a (Z.shiftl b 8) in
      let recyclable := is_recyclable_type type in
      let header_size := if recyclable then kRecyclableHeaderSize else kHeaderSize in
      when (recyclable && (end_of_buffer_offset_ r - size (buffer_ r) =? 0)) (modify set_recycled) ;;
      if recyclable && (size (buffer_ r) <? kRecyclableHeaderSize) then more else
      if size (buffer_ r) <? header_size + length then
        modify (set_buffer []) ;; ret (kBadRecordLen, [], size (buffer_ r))
      else
      if recyclable && negb (DecodeFixed32 (drop 7 header) =? reader_log_number_ r) then
        modify (set_buffer (drop (Z.to_nat (header_size + length)) (buffer_ r))) ;;
        ret (kOldRecord, [], 0)
      else
      if (type =? kZeroType) && (length =? 0) then modify (set_buffer []) ;; ret (kBadRecord, [], 0)
      else
      let expected_crc := crc32c_Unmask (DecodeFixed32 header) in
      let actual_crc := crc32c_Value (take (Z.to_nat (length + header_size - 6)) (drop 6 header)) in
      if checksum_ r && negb (actual_crc =? expected_crc) then
        modify (set_buffer []) ;; ret (kBadRecordChecksum, [], size (buffer_ r))
      else
      modify (set_buffer (drop (Z.to_nat (header_size + length)) (buffer_ r))) ;;
      let fragment := take (Z.to_nat length) (drop (Z.to_nat header_size) header) in
      match uncompress_ r with
      | Some u =>
          if (type =? kSetCompressionType) || (type =? kUserDefinedTimestampSizeType)
             || (type =? kRecyclableUserDefinedTimestampSizeType)
          then ret (type, fragment, 0)
          else
            res <- uncompress_loop ufuel u (Some fragment) length [] ;;
            match res with
            | Some record => ret (type, record, 0)
            | None => ret (kBadRecord, [], 0)
            end
      | None => ret (type, fragment, 0)
      end
  end.
(** A short read sets [eof_], after which [ReadMore] ends the loop: at most three rounds. *)
Definition ReadPhysicalRecord (ufuel : nat) : prog (Z * slice * Z) := read_physical 3 ufuel.

Definition InitCompression (compression_type : Z) : prog unit :=
  modify (set_uncompress compression_type true (Some (uncomp_Create compression_type))).

(** [UpdateRecordedTimestampSize]: [None], or the reason of the corruption. *)
Fixpoint UpdateRecordedTimestampSize (cf_to_ts_sz : list (Z * Z)) : prog (option string) :=
  match cf_to_ts_sz with
  | [] => ret None
  | (cf, ts_sz) :: rest =>
      r <- get ;;
      if ts_sz =? 0 then ret (Some "zero timestamp size"%string)
      else match reader_cf_to_ts_sz_ r !! cf with
      | Some _ => ret (Some "update to recorded column family"%string)
      | None =>
          modify (set_reader_ts (<[cf := ts_sz]> (reader_cf_to_ts_sz_ r))) ;;
          UpdateRecordedTimestampSize rest
      end
  end.

(** The modes in which an incomplete record is reported. *)
Definition strict (mode : WALRecoveryMode) : bool :=
  match mode with kAbsoluteConsistency | kPointInTimeRecovery => true | _ => false end.
Definition skip_any (mode : WALRecoveryMode) : bool :=
  match mode with kSkipAnyCorruptedRecords => true | _ => false end.
Definition tolerate_tail (mode : WALRecoveryMode) : bool :=
  match mode with kTolerateCorruptedTailRecords => true | _ => false end.

(** What an iteration of [ReadRecord] ends with: a record, no record, or the next round
    with [scratch], [in_fragmented_record] and the offset of the record. *)
Inductive round :=
| Return (record : option slice)
| Continue (scratch : slice) (in_fragmented_record : bool) (prospective_record_offset : Z).

(** The end of the log. *)
Definition at_eof (mode : WALRecoveryMode) (scratch : slice) (in_fragmented_record : bool) : prog round :=
  when (in_fragmented_record && strict mode)
    (ReportCorruption (size scratch) "error reading trailing data") ;;
  ret (Return None).

(** A record that cannot be used in the middle of the log. *)
Definition bad_record (scratch : slice) (in_fragmented_record : bool) (off : Z) : prog round :=
  when in_fragmented_record (ReportCorruption (size scratch) "error in middle of record") ;;
  ret (Continue (if in_fragmented_record then [] else scratch) false off).

Definition bad_checksum (mode : WALRecoveryMode) (reason : string) (drop_size : Z) (scratch : slice)
    (in_fragmented_record : bool) (off : Z) : prog round :=
  r <- get ;;
  if recycled_ r && tolerate_tail mode then ret (Return None) else
  ReportCorruption drop_size reason ;;
  bad_record scratch in_fragmented_record off.

Definition set_compression_record (fragment : slice) (physical_record_offset : Z)
    (in_fragmented_record : bool) : prog round :=
  r <- get ;;
  when (compression_type_record_read_ r)
    (ReportCorruption (size fragment) "read multiple SetCompressionType records") ;;
  when (first_record_read_ r)
    (ReportCorruption (size fragment) "SetCompressionType not the first record") ;;
  modify (set_last_record physical_record_offset (first_record_read_ r)) ;;
  let '(type, fragment) := CompressionTypeRecord_DecodeFrom fragment in
  match type with
  | None => ReportCorruption (size fragment) "could not decode SetCompressionType record"
  | Some t => InitCompression t
  end ;;
  ret (Continue [] in_fragmented_record physical_record_offset).

Definition timestamp_record (fragment : slice) (physical_record_offset : Z) (scratch : slice)
    (in_fragmented_record : bool) : prog round :=
  r <- get ;;
  when (in_fragmented_record && negb (size scratch =? 0))
    (ReportCorruption (size scratch)
       "user-defined timestamp size record interspersed partial record") ;;
  modify (set_last_record physical_record_offset (first_record_read_ r)) ;;
  match TimestampSizeRecord_DecodeFrom fragment with
  | None => ReportCorruption (size fragment) "could not decode user-defined timestamp size record"
  | Some (l, fragment) =>
      s <- UpdateRecordedTimestampSize l ;;
      match s with Some reason => ReportCorruption (size fragment) reason | None => ret tt end
  end ;;
  ret (Continue [] in_fragmented_record physical_record_offset).

(** The switch over the type of a physical record. *)
Definition dispatch (mode : WALRecoveryMode) (record_type : Z) (fragment : slice) (drop_size : Z)
    (physical_record_offset : Z) (scratch : slice) (in_fragmented_record : bool) (off : Z) : prog round :=
  r <- get ;;
  if (record_type =? kFullType) || (record_type =? kRecyclableFullType) then
    when (in_fragmented_record && negb (size scratch =? 0))
      (ReportCorruption (size scratch) "partial record without end(1)") ;;
    modify (set_last_record physical_record_offset true) ;;
    ret (Return (Some fragment))
  else if (record_type =? kFirstType) || (record_type =? kRecyclableFirstType) then
    when (in_fragmented_record && negb (size scratch =? 0))
      (ReportCorruption (size scratch) "partial record without end(2)") ;;
    ret (Continue fragment true physical_record_offset)
  else if (record_type =? kMiddleType) || (record_type =? kRecyclableMiddleType) then
    if negb in_fragmented_record then
      ReportCorruption (size fragment) "missing start of fragmented record(1)" ;;
      ret (Continue scratch in_fragmented_record off)
    else ret (Continue (scratch ++ fragment) in_fragmented_record off)
  else if (record_type =? kLastType) || (record_type =? kRecyclableLastType) then
    if negb in_fragmented_record then
      ReportCorruption (size fragment) "missing start of fragmented record(2)" ;;
      ret (Continue scratch in_fragmented_record off)
    else
      modify (set_last_record off true) ;;
      ret (Return (Some (scratch ++ fragment)))
  else if record_type =? kSetCompressionType then
    set_compression_record fragment physical_record_offset in_fragmented_record
  else if (record_type =? kUserDefinedTimestampSizeType)
          || (record_type =? kRecyclableUserDefinedTimestampSizeType) then
    timestamp_record fragment physical_record_offset scratch in_fragmented_record
  else if record_type =? kBadHeader then
    when (strict mode) (ReportCorruption drop_size "truncated header") ;;
    at_eof mode scratch in_fragmented_record
  else if record_type =? kEof then at_eof mode scratch in_fragmented_record
  else if record_type =? kOldRecord then
    if negb (skip_any mode) then at_eof mode scratch in_fragmented_record
    else bad_record scratch in_fragmented_record off
  else if record_type =? kBadRecord then bad_record scratch in_fragmented_record off
  else if record_type =? kBadRecordLen then
    if eof_ r then
      when (strict mode) (ReportCorruption drop_size "truncated record body") ;;
      ret (Return None)
    else bad_checksum mode "bad record length" drop_size scratch in_fragmented_record off
  else if record_type =? kBadRecordChecksum then
    bad_checksum mode "checksum mismatch" drop_size scratch in_fragmented_record off
  else
    ReportCorruption (size fragment + (if in_fragmented_record then size scratch else 0))
      "unknown record type" ;;
    ret (Continue [] false off).

(** The loop of [ReadRecord]; every round that continues has read from the log, so its
    length bounds the rounds. *)
Fixpoint read_record_loop (fuel ufuel : nat) (mode : WALRecoveryMode) (scratch : slice)
    (in_fragmented_record : bool) (off : Z) : prog (option slice) :=
  match fuel with
  | O => crash
  | S fuel =>
      r <- get ;;
      let physical_record_offset := end_of_buffer_offset_ r - size (buffer_ r) in
      res <- ReadPhysicalRecord ufuel ;;
      let '(record_type, fragment, drop_size) := res in
      next <- dispatch mode record_type fragment drop_size physical_record_offset scratch
                in_fragmented_record off ;;
      match next with
      | Return record => ret record
      | Continue scratch in_fragmented_record off =>
          read_record_loop fuel ufuel mode scratch in_fragmented_record off
      end
  end.

Definition Reader_ReadRecord (fuel ufuel : nat) (mode : WALRecoveryMode) : prog (option slice) :=
  modify (λ r, set_uncompress (reader_compression_type_ r) (compression_type_record_read_ r)
                 (uncomp_Reset <$> uncompress_ r) r) ;;
  read_record_loop fuel ufuel mode [] false 0.

Definition UnmarkEOFInternal : prog unit :=
  r <- get ;;
  let remaining := kBlockSize - eof_offset_ r in
  res <- in_file (src_Read remaining) ;;
  let '(status, read_buffer) := res in
  let added := size read_buffer in
  modify (set_end_of_buffer (end_of_buffer_offset_ r + added)) ;;
  if negb (ok status) then
    when (0 <? added) (ReportDrop added "read error") ;; modify set_read_error
  else
    modify (set_buffer (buffer_ r ++ read_buffer)) ;;
    if added <? remaining then modify (set_eof true (eof_offset_ r + added))
    else modify (λ r, set_eof (eof_ r) 0 r).

Definition UnmarkEOF : prog unit :=
  r <- get ;;
  if read_error_ r then ret tt else
  modify (set_eof false (eof_offset_ r)) ;;
  if eof_offset_ r =? 0 then ret tt else UnmarkEOFInternal.

End reader.
Arguments Reader F {Z_}.
