(* ===== verification/FileOps.v ===== *)
(** * RocksDB: buffered writers and sequential readers of files

    The model of src/rocksdb-8.11.4/util/aligned_buffer.h, of
    file/writable_file_writer.cc and of file/sequence_file_reader.cc, which stand between
    the write-ahead log (and every other file RocksDB writes) and the files of a file
    system such as ZenFS.

    The files are an interface ([FSWritableFile], [FSSequentialFile]).  Listeners, timers,
    statistics and the generator of a checksum of the whole file are left out; the rate
    limiter is, of what the code uses, which operations it limits and the size of a burst. *)

From stdpp Require Import base numbers option list gmap.
From S2P Require Import Prelude ZenCoding ZenTypes WalOps.

(** ** Interfaces *)

Inductive IOPriority := IO_LOW | IO_MID | IO_HIGH | IO_USER | IO_TOTAL.
#[global] Instance IOPriority_eq_dec : EqDecision IOPriority.
Proof. solve_decision. Defined.

(** [FSWritableFile]; appends come with the checksum that is handed off, if any. *)
Class FSWritableFile (W : Type) := {
  f_use_direct_io : W → bool;
  f_GetRequiredBufferAlignment : W → Z;
  f_GetIOPriority : W → IOPriority;
  f_IsSyncThreadSafe : W → bool;
  f_PrepareWrite : Z → Z → ST W unit;
  f_Append : slice → option slice → ST W IOStatus;
  f_PositionedAppend : slice → Z → option slice → ST W IOStatus;
  f_Truncate : Z → ST W IOStatus;
  f_Flush : ST W IOStatus;
  f_Sync : ST W IOStatus;
  f_Fsync : ST W IOStatus;
  f_RangeSync : Z → Z → ST W IOStatus;
  f_Close : ST W IOStatus
}.

(** ** Alignment *)

Definition TruncateToPageBoundary (page_size s : Z) : Z := s - Z.land s (page_size - 1).
Definition Roundup (x y : Z) : Z := (x + y - 1) / y * y.

(** The bytes of the buffer up to its current size. *)
Record AlignedBuffer := mk_abuf { alignment_ : Z; capacity_of : Z; contents : slice }.

Definition CurrentSize (b : AlignedBuffer) : Z := size (contents b).
Definition buf_room (b : AlignedBuffer) : Z := capacity_of b - CurrentSize b.
Definition buf_Size (n : Z) (b : AlignedBuffer) : AlignedBuffer :=
  mk_abuf (alignment_ b) (capacity_of b) (take (Z.to_nat n) (contents b)).

(** [AllocateNewBuffer] that copies the data, and a first one.  Its assertion, that the
    alignment is a power of two, is a hypothesis where a writer is made. *)
Definition AllocateNewBuffer (requested_capacity : Z) (copy_data : bool) (b : AlignedBuffer) : AlignedBuffer :=
  if copy_data && (requested_capacity <? CurrentSize b) then b
  else mk_abuf (alignment_ b) (Roundup requested_capacity (alignment_ b)) (if copy_data then contents b else []).

(** [Append]: how many bytes were taken. *)
Definition buf_Append (src : slice) (b : AlignedBuffer) : Z * AlignedBuffer :=
  let to_copy := Z.min (size src) (buf_room b) in
  (to_copy, mk_abuf (alignment_ b) (capacity_of b) (contents b ++ take (Z.to_nat to_copy) src)).

(** [PadToAlignmentWith] and [PadWith]; [None] where the assertion on the capacity fails. *)
Definition PadWith (pad_size : Z) (padding : Z) (b : AlignedBuffer) : option AlignedBuffer :=
  if pad_size + CurrentSize b <=? capacity_of b
  then Some (mk_abuf (alignment_ b) (capacity_of b) (contents b ++ replicate (Z.to_nat pad_size) padding))
  else None.
Definition PadToAlignmentWith (padding : Z) (b : AlignedBuffer) : option AlignedBuffer :=
  let pad_size := Roundup (CurrentSize b) (alignment_ b) - CurrentSize b in
  if 0 <? pad_size then PadWith pad_size padding b else Some b.

Definition RefitTail (tail_offset tail_size : Z) (b : AlignedBuffer) : AlignedBuffer :=
  mk_abuf (alignment_ b) (capacity_of b)
    (take (Z.to_nat tail_size) (drop (Z.to_nat tail_offset) (contents b))).

(** ** The rate limiter *)

Inductive OpType := kRead | kWrite.
Record RateLimiter := mk_limiter { IsRateLimited : OpType → bool; GetSingleBurstBytes : Z }.

Definition RequestToken (rl : RateLimiter) (bytes alignment : Z) (io_priority : IOPriority) (op_type : OpType) : Z :=
  if bool_decide (io_priority ≠ IO_TOTAL) && IsRateLimited rl op_type then
    let bytes := Z.min bytes (GetSingleBurstBytes rl) in
    if 0 <? alignment then Z.max alignment (TruncateToPageBoundary alignment bytes) else bytes
  else bytes.

(** ** The writer *)

Section writer.
Context {W : Type} {FW : FSWritableFile W} {K : Crc32c} {KC : CrcCombine}.

Record WritableFileWriter := mk_fw {
  writable_file_ : option W;
  buf_ : AlignedBuffer;
  max_buffer_size_ : Z;
  filesize_ : Z;
  flushed_size_ : Z;
  next_write_offset_ : Z;
  pending_sync_ : bool;
  seen_error_ : bool;
  sync_without_flush_called_ : bool;
  last_sync_size_ : Z;
  bytes_per_sync_ : Z;
  rate_limiter_ : option RateLimiter;
  perform_data_verification_ : bool;
  buffered_data_crc32c_checksum_ : Z;
  buffered_data_with_checksum_ : bool
}.
Implicit Types w : WritableFileWriter.

Definition set_wfile (f : option W) w : WritableFileWriter :=
  mk_fw f (buf_ w) (max_buffer_size_ w) (filesize_ w) (flushed_size_ w) (next_write_offset_ w) (pending_sync_ w)
    (seen_error_ w) (sync_without_flush_called_ w) (last_sync_size_ w) (bytes_per_sync_ w) (rate_limiter_ w)
    (perform_data_verification_ w) (buffered_data_crc32c_checksum_ w) (buffered_data_with_checksum_ w).
Definition set_buf (b : AlignedBuffer) w : WritableFileWriter :=
  mk_fw (writable_file_ w) b (max_buffer_size_ w) (filesize_ w) (flushed_size_ w) (next_write_offset_ w)
    (pending_sync_ w) (seen_error_ w) (sync_without_flush_called_ w) (last_sync_size_ w) (bytes_per_sync_ w)
    (rate_limiter_ w) (perform_data_verification_ w) (buffered_data_crc32c_checksum_ w) (buffered_data_with_checksum_ w).
Definition set_sizes (filesize flushed next : Z) w : WritableFileWriter :=
  mk_fw (writable_file_ w) (buf_ w) (max_buffer_size_ w) filesize flushed next
    (pending_sync_ w) (seen_error_ w) (sync_without_flush_called_ w) (last_sync_size_ w) (bytes_per_sync_ w)
    (rate_limiter_ w) (perform_data_verification_ w) (buffered_data_crc32c_checksum_ w) (buffered_data_with_checksum_ w).
Definition set_flags (pending seen sync_called : bool) w : WritableFileWriter :=
  mk_fw (writable_file_ w) (buf_ w) (max_buffer_size_ w) (filesize_ w) (flushed_size_ w) (next_write_offset_ w)
    pending seen sync_called (last_sync_size_ w) (bytes_per_sync_ w)
    (rate_limiter_ w) (perform_data_verification_ w) (buffered_data_crc32c_checksum_ w) (buffered_data_with_checksum_ w).
Definition set_last_sync (n : Z) w : WritableFileWriter :=
  mk_fw (writable_file_ w) (buf_ w) (max_buffer_size_ w) (filesize_ w) (flushed_size_ w) (next_write_offset_ w)
    (pending_sync_ w) (seen_error_ w) (sync_without_flush_called_ w) n (bytes_per_sync_ w)
    (rate_limiter_ w) (perform_data_verification_ w) (buffered_data_crc32c_checksum_ w) (buffered_data_with_checksum_ w).
Definition set_data_crc (c : Z) w : WritableFileWriter :=
  mk_fw (writable_file_ w) (buf_ w) (max_buffer_size_ w) (filesize_ w) (flushed_size_ w) (next_write_offset_ w)
    (pending_sync_ w) (seen_error_ w) (sync_without_flush_called_ w) (last_sync_size_ w) (bytes_per_sync_ w)
    (rate_limiter_ w) (perform_data_verification_ w) c (buffered_data_with_checksum_ w).

Definition set_filesize n w := set_sizes n (flushed_size_ w) (next_write_offset_ w) w.
Definition set_flushed n w := set_sizes (filesize_ w) n (next_write_offset_ w) w.
Definition set_next n w := set_sizes (filesize_ w) (flushed_size_ w) n w.
Definition set_pending b w := set_flags b (seen_error_ w) (sync_without_flush_called_ w) w.
Definition set_seen_error w := set_flags (pending_sync_ w) true (sync_without_flush_called_ w) w.

Notation prog := (ST WritableFileWriter).

(** The constructor: file, options, and what checksums are asked for. *)
Definition new_WritableFileWriter (file : W) (max_buffer_size bytes_per_sync : Z) (rl : option RateLimiter)
    (perform_data_verification buffered_data_with_checksum : bool) : WritableFileWriter :=
  mk_fw (Some file)
    (AllocateNewBuffer (Z.min 65536 max_buffer_size) false (mk_abuf (f_GetRequiredBufferAlignment file) 0 []))
    max_buffer_size 0 0 0 false false false 0 bytes_per_sync rl perform_data_verification 0 buffered_data_with_checksum.

(** A call of the file; there is none after [Close]. *)
Definition on_file {A} (c : ST W A) : prog A := λ w,
  match writable_file_ w with
  | Some f => match c f with Done a f' => Done a (set_wfile (Some f') w) | Crash => Crash end
  | None => Crash
  end.

Definition AssertFalseAndGetStatusForPrevError : prog IOStatus :=
  w <- get ;; assert (sync_without_flush_called_ w) ;; ret IOError.

Definition DecideRateLimiterPriority (writable_file_io_priority op_rate_limiter_priority : IOPriority) : IOPriority :=
  if bool_decide (writable_file_io_priority = IO_TOTAL) && bool_decide (op_rate_limiter_priority = IO_TOTAL) then IO_TOTAL
  else if bool_decide (writable_file_io_priority = IO_TOTAL) then op_rate_limiter_priority
  else if bool_decide (op_rate_limiter_priority = IO_TOTAL) then writable_file_io_priority
  else op_rate_limiter_priority.

(** Of the options, the priority for the rate limiter. *)
Definition FinalizeIOOptions (opts : IOPriority) w : IOPriority :=
  match writable_file_ w with
  | Some f => DecideRateLimiterPriority (f_GetIOPriority f) opts
  | None => opts
  end.

Definition use_direct_io : prog bool := on_file (gets f_use_direct_io).

(** The failure of a write. *)
Definition fail (s : IOStatus) : prog IOStatus := modify set_seen_error ;; ret s.

Definition Crc32cHandoffChecksumCalculation (data : slice) : slice := EncodeFixed32 (crc32c_Extend 0 data).

(** How much of [left] bytes may be written at once. *)
Definition allowed (rl : option RateLimiter) (opts : IOPriority) (left alignment : Z) : Z :=
  match rl with
  | Some rl => if bool_decide (opts ≠ IO_TOTAL) then RequestToken rl left alignment opts kWrite else left
  | None => left
  end.

(** The loop of [WriteBuffered]; each round writes at least a byte, so the data bound
    the rounds. *)
Fixpoint write_buffered_loop (fuel : nat) (opts : IOPriority) (src : slice) : prog IOStatus :=
  if Nat.eqb (length src) 0 then
    modify (λ w, set_data_crc 0 (set_buf (buf_Size 0 (buf_ w)) w)) ;; ret OK
  else
  match fuel with
  | O => crash
  | S fuel =>
      w <- get ;;
      let n := allowed (rate_limiter_ w) opts (size src) 0 in
      let part := take (Z.to_nat n) src in
      s <- on_file (f_Append part
             (if perform_data_verification_ w then Some (Crc32cHandoffChecksumCalculation part) else None)) ;;
      if negb (ok s) then
        modify (λ w, set_data_crc 0 (set_buf (buf_Size 0 (buf_ w)) w)) ;; fail s
      else
        modify (λ w, set_flushed (u64 (flushed_size_ w + n)) w) ;;
        write_buffered_loop fuel opts (drop (Z.to_nat n) src)
  end.

Definition WriteBuffered (opts : IOPriority) (data : slice) : prog IOStatus :=
  w <- get ;;
  if seen_error_ w then AssertFalseAndGetStatusForPrevError else
  direct <- use_direct_io ;; assert (negb direct) ;;
  write_buffered_loop (length data) opts data.

(** The loop that asks the rate limiter for the whole of [data_size], which is a
    [size_t]; [None]: still asking after [fuel] rounds. *)
Fixpoint request_all (fuel : nat) (rl : RateLimiter) (opts : IOPriority) (data_size alignment : Z) : option unit :=
  if data_size =? 0 then Some tt else
  match fuel with
  | O => None
  | S fuel => request_all fuel rl opts (u64 (data_size - RequestToken rl data_size alignment opts kWrite)) alignment
  end.
(** Each round is to take at least a byte of [left], so as many rounds are enough, unless
    [data_size] wraps around. *)
Definition wait_for_limiter (opts : IOPriority) (left : Z) : prog unit :=
  w <- get ;;
  match rate_limiter_ w with
  | Some rl =>
      if bool_decide (opts ≠ IO_TOTAL) then load (request_all (Z.to_nat left) rl opts left (alignment_ (buf_ w)))
      else ret tt
  | None => ret tt
  end.

Definition WriteBufferedWithChecksum (opts : IOPriority) (data : slice) : prog IOStatus :=
  w <- get ;;
  if seen_error_ w then AssertFalseAndGetStatusForPrevError else
  direct <- use_direct_io ;; assert (negb direct) ;;
  assert (perform_data_verification_ w && buffered_data_with_checksum_ w) ;;
  wait_for_limiter opts (size data) ;;
  s <- on_file (f_Append data (Some (EncodeFixed32 (buffered_data_crc32c_checksum_ w)))) ;;
  modify (λ w, set_data_crc 0 (set_buf (buf_Size 0 (buf_ w)) w)) ;;
  if negb (ok s) then fail s else
  modify (λ w, set_flushed (u64 (flushed_size_ w + size data)) w) ;;
  ret s.

(** The loop of [WriteDirect]; [keep] is the size the buffer had before it was padded. *)
Fixpoint write_direct_loop (fuel : nat) (opts : IOPriority) (src : slice) (write_offset keep : Z) : prog IOStatus :=
  if Nat.eqb (length src) 0 then ret OK else
  match fuel with
  | O => crash
  | S fuel =>
      w <- get ;;
      let n := allowed (rate_limiter_ w) opts (size src) (alignment_ (buf_ w)) in
      let part := take (Z.to_nat n) src in
      s <- on_file (f_PositionedAppend part write_offset
             (if perform_data_verification_ w then Some (Crc32cHandoffChecksumCalculation part) else None)) ;;
      if negb (ok s) then modify (λ w, set_buf (buf_Size keep (buf_ w)) w) ;; fail s
      else
        modify (λ w, set_flushed (u64 (flushed_size_ w + n)) w) ;;
        assert (next_write_offset_ w mod alignment_ (buf_ w) =? 0) ;;
        write_direct_loop fuel opts (drop (Z.to_nat n) src) (u64 (write_offset + n)) keep
  end.

Definition WriteDirect (opts : IOPriority) : prog IOStatus :=
  w <- get ;;
  assert (negb (seen_error_ w)) ;;
  direct <- use_direct_io ;; assert direct ;;
  let alignment := alignment_ (buf_ w) in
  assert (next_write_offset_ w mod alignment =? 0) ;;
  let file_advance := TruncateToPageBoundary alignment (CurrentSize (buf_ w)) in
  let leftover_tail := CurrentSize (buf_ w) - file_advance in
  b <- load (PadToAlignmentWith 0 (buf_ w)) ;;
  modify (set_buf b) ;;
  s <- write_direct_loop (length (contents b)) opts (contents b) (next_write_offset_ w) (file_advance + leftover_tail) ;;
  if negb (ok s) then ret s else
  modify (λ w, set_next (u64 (next_write_offset_ w + file_advance))
                 (set_buf (RefitTail file_advance leftover_tail (buf_ w)) w)) ;;
  ret s.

Definition WriteDirectWithChecksum (opts : IOPriority) : prog IOStatus :=
  w <- get ;;
  if seen_error_ w then AssertFalseAndGetStatusForPrevError else
  direct <- use_direct_io ;; assert direct ;;
  assert (perform_data_verification_ w && buffered_data_with_checksum_ w) ;;
  let alignment := alignment_ (buf_ w) in
  assert (next_write_offset_ w mod alignment =? 0) ;;
  let file_advance := TruncateToPageBoundary alignment (CurrentSize (buf_ w)) in
  let leftover_tail := CurrentSize (buf_ w) - file_advance in
  let last_cur_size := CurrentSize (buf_ w) in
  b <- load (PadToAlignmentWith 0 (buf_ w)) ;;
  modify (set_buf b) ;;
  let padded_size := CurrentSize b - last_cur_size in
  let padded_checksum := crc32c_Value (drop (Z.to_nat last_cur_size) (contents b)) in
  modify (set_data_crc (crc32c_Combine (buffered_data_crc32c_checksum_ w) padded_checksum padded_size)) ;;
  wait_for_limiter opts (CurrentSize b) ;;
  crc <- gets buffered_data_crc32c_checksum_ ;;
  s <- on_file (f_PositionedAppend (contents b) (next_write_offset_ w) (Some (EncodeFixed32 crc))) ;;
  if negb (ok s) then
    modify (λ w, set_buf (buf_Size (file_advance + leftover_tail) (buf_ w)) w) ;;
    modify (λ w, set_data_crc (crc32c_Value (contents (buf_ w))) w) ;;
    fail s
  else
  modify (λ w, set_flushed (u64 (flushed_size_ w + CurrentSize b)) w) ;;
  modify (λ w, set_buf (RefitTail file_advance leftover_tail (buf_ w)) w) ;;
  modify (λ w, set_data_crc (crc32c_Value (contents (buf_ w))) w) ;;
  modify (λ w, set_next (u64 (next_write_offset_ w + file_advance)) w) ;;
  ret s.

Definition WFW_RangeSync (opts : IOPriority) (offset nbytes : Z) : prog IOStatus :=
  w <- get ;;
  if seen_error_ w then AssertFalseAndGetStatusForPrevError else
  s <- on_file (f_RangeSync offset nbytes) ;;
  if negb (ok s) then fail s else ret s.

(** The sync of what lies a megabyte behind the end, every [bytes_per_sync_] bytes. *)
Definition sync_behind (opts : IOPriority) (s : IOStatus) : prog IOStatus :=
  let kBytesNotSyncRange := 1024 * 1024 in
  let kBytesAlignWhenSync := 4 * 1024 in
  w <- get ;;
  direct <- use_direct_io ;;
  if negb direct && negb (bytes_per_sync_ w =? 0) && (kBytesNotSyncRange <? filesize_ w) then
    let offset_sync_to := filesize_ w - kBytesNotSyncRange in
    let offset_sync_to := offset_sync_to - offset_sync_to mod kBytesAlignWhenSync in
    assert (last_sync_size_ w <=? offset_sync_to) ;;
    if (0 <? offset_sync_to) && (bytes_per_sync_ w <=? offset_sync_to - last_sync_size_ w) then
      s <- WFW_RangeSync opts (last_sync_size_ w) (offset_sync_to - last_sync_size_ w) ;;
      when (negb (ok s)) (modify set_seen_error) ;;
      modify (set_last_sync offset_sync_to) ;;
      ret s
    else ret s
  else ret s.

(** What [Flush] does with a buffer that is not empty. *)
Definition write_out (opts : IOPriority) : prog IOStatus :=
  w <- get ;;
  let checked := perform_data_verification_ w && buffered_data_with_checksum_ w in
  direct <- use_direct_io ;;
  if direct then
    if pending_sync_ w then if checked then WriteDirectWithChecksum opts else WriteDirect opts else ret OK
  else if checked then WriteBufferedWithChecksum opts (contents (buf_ w))
  else WriteBuffered opts (contents (buf_ w)).

Definition WFW_Flush (opts : IOPriority) : prog IOStatus :=
  w <- get ;;
  if seen_error_ w then AssertFalseAndGetStatusForPrevError else
  let io_options := FinalizeIOOptions opts w in
  s <- (if 0 <? CurrentSize (buf_ w) then write_out io_options else ret OK) ;;
  if negb (ok s) then fail s else
  s <- on_file f_Flush ;;
  if negb (ok s) then fail s else
  sync_behind io_options s.

(** The search for a larger buffer in [Append]: 65 doublings pass any [size_t]. *)
Fixpoint grow_buffer (fuel : nat) (direct : bool) (cap left max : Z) (b : AlignedBuffer) : option AlignedBuffer :=
  if cap <? max then
    match fuel with
    | O => None
    | S fuel =>
        let desired_capacity := Z.min (u64 (cap * 2)) max in
        if (left <=? u64 (desired_capacity - CurrentSize b)) || (direct && (desired_capacity =? max))
        then Some (AllocateNewBuffer desired_capacity true b)
        else grow_buffer fuel direct (u64 (cap * 2)) left max b
    end
  else Some b.

(** The loops that fill the buffer, flushing it when it is full; every round takes a byte. *)
Fixpoint fill_loop (fuel : nat) (opts : IOPriority) (extend_crc : bool) (src : slice) : prog IOStatus :=
  if Nat.eqb (length src) 0 then ret OK else
  match fuel with
  | O => crash
  | S fuel =>
      w <- get ;;
      let '(appended, b) := buf_Append src (buf_ w) in
      modify (set_buf b) ;;
      when extend_crc (modify (λ w, set_data_crc
        (crc32c_Extend (buffered_data_crc32c_checksum_ w) (take (Z.to_nat appended) src)) w)) ;;
      let src := drop (Z.to_nat appended) src in
      if Nat.eqb (length src) 0 then ret OK else
      s <- WFW_Flush opts ;;
      if negb (ok s) then ret s else fill_loop fuel opts extend_crc src
  end.

(** Where the bytes go: with the checksum that the caller gives, or without. *)
Definition append_with_checksum (opts : IOPriority) (src : slice) (crc32c_checksum : Z) : prog IOStatus :=
  w <- get ;;
  direct <- use_direct_io ;;
  let left := size src in
  if direct || (left <=? buf_room (buf_ w)) then
    if left <=? buf_room (buf_ w) then
      let '(appended, b) := buf_Append src (buf_ w) in
      modify (set_buf b) ;;
      modify (λ w, set_data_crc (crc32c_Combine (buffered_data_crc32c_checksum_ w) crc32c_checksum appended) w) ;;
      ret (if appended =? left then OK else Corruption)
    else fill_loop (S (length src)) opts true src
  else
    assert (CurrentSize (buf_ w) =? 0) ;;
    modify (set_data_crc crc32c_checksum) ;;
    WriteBufferedWithChecksum opts src.

Definition append_plain (opts : IOPriority) (src : slice) : prog IOStatus :=
  w <- get ;;
  direct <- use_direct_io ;;
  let checked := perform_data_verification_ w && buffered_data_with_checksum_ w in
  if direct || (size src <=? capacity_of (buf_ w)) then fill_loop (S (length src)) opts checked src
  else
    assert (CurrentSize (buf_ w) =? 0) ;;
    if checked then modify (set_data_crc (crc32c_Value src)) ;; WriteBufferedWithChecksum opts src
    else WriteBuffered opts src.

(** Make room: a larger buffer, or, with buffered input and output, an empty one. *)
Definition make_room (opts : IOPriority) (left : Z) : prog IOStatus :=
  w <- get ;;
  direct <- use_direct_io ;;
  b <- load (if buf_room (buf_ w) <? left
             then grow_buffer 65 direct (capacity_of (buf_ w)) left (max_buffer_size_ w) (buf_ w)
             else Some (buf_ w)) ;;
  modify (set_buf b) ;;
  if negb direct && (buf_room b <? left) then
    s <- (if 0 <? CurrentSize b then WFW_Flush opts else ret OK) ;;
    if negb (ok s) then fail s else
    w <- get ;; assert (CurrentSize (buf_ w) =? 0) ;; ret OK
  else ret OK.

Definition WFW_Append (opts : IOPriority) (data : slice) (crc32c_checksum : Z) : prog IOStatus :=
  w <- get ;;
  if seen_error_ w then AssertFalseAndGetStatusForPrevError else
  let io_options := FinalizeIOOptions opts w in
  modify (set_pending true) ;;
  on_file (f_PrepareWrite (filesize_ w) (size data)) ;;
  s <- make_room io_options (size data) ;;
  if negb (ok s) then ret s else
  s <- (if perform_data_verification_ w && buffered_data_with_checksum_ w && negb (crc32c_checksum =? 0)
        then append_with_checksum io_options data crc32c_checksum
        else append_plain io_options data) ;;
  if ok s then modify (λ w, set_filesize (u64 (filesize_ w + size data)) w) ;; ret s else fail s.

(** The loop of [Pad]. *)
Fixpoint pad_loop (fuel : nat) (opts : IOPriority) (left : Z) : prog IOStatus :=
  if left =? 0 then ret OK else
  match fuel with
  | O => crash
  | S fuel =>
      w <- get ;;
      let append_bytes := Z.min (buf_room (buf_ w)) left in
      b <- load (PadWith append_bytes 0 (buf_ w)) ;;
      modify (set_buf b) ;;
      let left := left - append_bytes in
      if 0 <? left then
        s <- WFW_Flush opts ;;
        if negb (ok s) then fail s else pad_loop fuel opts left
      else ret OK
  end.

Definition kDefaultPageSize : Z := 4 * 1024.

(** The checksum is taken of [pad_bytes] bytes from where the padding started; past the
    current size of the buffer they are not defined. *)
Definition WFW_Pad (opts : IOPriority) (pad_bytes : Z) : prog IOStatus :=
  w <- get ;;
  if seen_error_ w then AssertFalseAndGetStatusForPrevError else
  let io_options := FinalizeIOOptions opts w in
  assert (pad_bytes <? kDefaultPageSize) ;;
  let pad_start := CurrentSize (buf_ w) in
  s <- pad_loop (S (Z.to_nat pad_bytes)) io_options pad_bytes ;;
  if negb (ok s) then ret s else
  modify (set_pending true) ;;
  modify (λ w, set_filesize (u64 (filesize_ w + pad_bytes)) w) ;;
  when (perform_data_verification_ w)
    (w <- get ;;
     assert (pad_start + pad_bytes <=? CurrentSize (buf_ w)) ;;
     modify (set_data_crc (crc32c_Extend (buffered_data_crc32c_checksum_ w)
       (take (Z.to_nat pad_bytes) (drop (Z.to_nat pad_start) (contents (buf_ w))))))) ;;
  ret OK.

Definition SyncInternal (opts : IOPriority) (use_fsync : bool) : prog IOStatus :=
  on_file (if use_fsync then f_Fsync else f_Sync).

Definition WFW_Sync (opts : IOPriority) (use_fsync : bool) : prog IOStatus :=
  w <- get ;;
  if seen_error_ w then AssertFalseAndGetStatusForPrevError else
  let io_options := FinalizeIOOptions opts w in
  s <- WFW_Flush io_options ;;
  if negb (ok s) then fail s else
  w <- get ;;
  direct <- use_direct_io ;;
  s <- (if negb direct && pending_sync_ w then SyncInternal io_options use_fsync else ret OK) ;;
  if negb (ok s) then fail s else
  modify (set_pending false) ;; ret OK.

Definition SyncWithoutFlush (opts : IOPriority) (use_fsync : bool) : prog IOStatus :=
  w <- get ;;
  if seen_error_ w then AssertFalseAndGetStatusForPrevError else
  safe <- on_file (gets f_IsSyncThreadSafe) ;;
  if negb safe then ret NotSupported else
  s <- SyncInternal (FinalizeIOOptions opts w) use_fsync ;;
  when (negb (ok s)) (modify (λ w, set_flags (pending_sync_ w) true true w)) ;;
  ret s.

(** The status that goes on: the first that is not OK. *)
Definition first_error (s interim : IOStatus) : IOStatus := if negb (ok interim) && ok s then interim else s.

(** With direct input and output whole pages were written: cut the file to its size. *)
Definition cut_to_size (s : IOStatus) : prog IOStatus :=
  direct <- use_direct_io ;;
  if direct then
    w <- get ;;
    interim <- on_file (f_Truncate (filesize_ w)) ;;
    interim <- (if ok interim then on_file f_Fsync else ret interim) ;;
    ret (first_error s interim)
  else ret s.

(** What [Close] writes before the file is closed. *)
Definition write_rest (io_options : IOPriority) : prog IOStatus :=
  s <- WFW_Flush io_options ;; cut_to_size s.

Definition WFW_Close (opts : IOPriority) : prog IOStatus :=
  w <- get ;;
  let io_options := FinalizeIOOptions opts w in
  if seen_error_ w then
    interim <- (match writable_file_ w with
                | Some _ => s <- on_file f_Close ;; modify (set_wfile None) ;; ret s
                | None => ret OK end) ;;
    ret (if ok interim then IOError else interim)
  else
  match writable_file_ w with
  | None => ret OK
  | Some _ =>
      s <- write_rest io_options ;;
      interim <- on_file f_Close ;;
      modify (set_wfile None) ;;
      let s := first_error s interim in
      if ok s then ret s else fail s
  end.

End writer.
Arguments WritableFileWriter W : clear implicits.

(** ** The reader *)

(** [FSSequentialFile], which fills the scratch space it is given. *)
Class FSSequentialFile (F : Type) := {
  s_use_direct_io : F → bool;
  s_GetRequiredBufferAlignment : F → Z;
  s_Read : Z → ST F (IOStatus * slice);
  s_PositionedRead : Z → Z → ST F (IOStatus * slice);
  s_Skip : Z → ST F IOStatus
}.

Section reader.
Context {F : Type} {SF : FSSequentialFile F}.

Record SequentialFileReader := mk_sfr { seq_file_ : F; offset_ : Z; seq_rate_limiter_ : option RateLimiter }.

Definition new_SequentialFileReader (file : F) (rl : option RateLimiter) : SequentialFileReader := mk_sfr file 0 rl.

Notation prog := (ST SequentialFileReader).

Definition on_seq_file {A} (c : ST F A) : prog A := λ r,
  match c (seq_file_ r) with
  | Done a f => Done a (mk_sfr f (offset_ r) (seq_rate_limiter_ r))
  | Crash => Crash
  end.

(** How much may be read at once: the limiter's answer, or [otherwise]. *)
Definition read_allowed (rl : option RateLimiter) (prio : IOPriority) (n alignment otherwise : Z) : Z :=
  match rl with
  | Some rl => if bool_decide (prio ≠ IO_TOTAL) then RequestToken rl n alignment prio kRead else otherwise
  | None => otherwise
  end.
Definition is_limited (rl : option RateLimiter) (prio : IOPriority) : bool :=
  match rl with Some _ => bool_decide (prio ≠ IO_TOTAL) | None => false end.

(** The loop of a buffered read: [acc] is what was read. *)
Fixpoint seq_read_loop (fuel : nat) (n : Z) (prio : IOPriority) (acc : slice) : prog (IOStatus * slice) :=
  if size acc <? n then
    match fuel with
    | O => crash
    | S fuel =>
        r <- get ;;
        let allowed := read_allowed (seq_rate_limiter_ r) prio (n - size acc) 0 n in
        res <- on_seq_file (s_Read allowed) ;;
        let '(io_s, tmp) := res in
        if negb (ok io_s) || (size tmp <? allowed) then ret (io_s, acc ++ tmp)
        else seq_read_loop fuel n prio (acc ++ tmp)
    end
  else ret (OK, acc).

(** The loop of a direct read of the pages from [aligned_offset] on. *)
Fixpoint seq_direct_loop (fuel : nat) (aligned_offset sz alignment : Z) (prio : IOPriority) (acc : slice) :
    prog (IOStatus * slice) :=
  if size acc <? sz then
    match fuel with
    | O => crash
    | S fuel =>
        r <- get ;;
        let allowed := read_allowed (seq_rate_limiter_ r) prio (Roundup sz alignment - size acc) alignment sz in
        assert (is_limited (seq_rate_limiter_ r) prio || (size acc =? 0)) ;;
        res <- on_seq_file (s_PositionedRead (aligned_offset + size acc) allowed) ;;
        let '(io_s, tmp) := res in
        if negb (ok io_s) || (size tmp <? allowed) then ret (io_s, acc ++ tmp)
        else seq_direct_loop fuel aligned_offset sz alignment prio (acc ++ tmp)
    end
  else ret (OK, acc).

Definition SFR_Read (n : Z) (prio : IOPriority) : prog (IOStatus * slice) :=
  r <- get ;;
  if s_use_direct_io (seq_file_ r) then
    let offset := offset_ r in
    put (mk_sfr (seq_file_ r) (u64 (offset + n)) (seq_rate_limiter_ r)) ;;
    let alignment := s_GetRequiredBufferAlignment (seq_file_ r) in
    let aligned_offset := TruncateToPageBoundary alignment offset in
    let offset_advance := offset - aligned_offset in
    let sz := Roundup (offset + n) alignment - aligned_offset in
    res <- seq_direct_loop (Z.to_nat sz) aligned_offset sz alignment prio [] ;;
    let '(io_s, buf) := res in
    ret (io_s, if ok io_s && (offset_advance <? size buf)
               then take (Z.to_nat n) (drop (Z.to_nat offset_advance) buf) else [])
  else seq_read_loop (Z.to_nat n) n prio [].

Definition SFR_Skip (n : Z) : prog IOStatus :=
  r <- get ;;
  if s_use_direct_io (seq_file_ r)
  then put (mk_sfr (seq_file_ r) (u64 (offset_ r + n)) (seq_rate_limiter_ r)) ;; ret OK
  else on_seq_file (s_Skip n).
End reader.
Arguments SequentialFileReader F : clear implicits.
