(* ===== verification/WalWrite.v ===== *)
(** * RocksDB: what the writer of a write-ahead log puts in the file

    The interfaces' promises, the bytes of a fragment ([phys]), the fragments of a record
    ([laid]) and their bytes with the padding between blocks ([lay]); [AddRecord] appends
    the bytes of the fragments of its record.  The logs are without compression. *)

From stdpp Require Import base numbers option list gmap.
From S2P Require Import Prelude ZenCoding ZenTypes WalOps.

(** ** What the interfaces promise *)

(** A file accepts bytes at its end or returns an error; the checksum given with them is
    theirs, or 0 for none. *)
Class LogDestOk D (LD : LogDest D) (K : Crc32c) := {
  holds_log : D → slice → Prop;
  dest_Append_ok d l data crc : holds_log d l → bytes data → crc = 0 ∨ crc = crc32c_Value data →
    wp (dest_Append data crc) (λ s d', ok s = true → holds_log d' (l ++ data)) d;
  dest_Flush_ok d l : holds_log d l → wp dest_Flush (λ s d', ok s = true → holds_log d' l) d
}.

(** A file that is read without errors: fewer bytes than asked for only at its end. *)
Class LogSourceOk F (LS : LogSource F) := {
  left_to_read : F → slice → Prop;
  src_Read_ok f l n : left_to_read f l → 0 ≤ n →
    wp (src_Read n) (λ res f', res = (OK, take (Z.to_nat n) l) ∧ left_to_read f' (drop (Z.to_nat n) l)) f
}.

(** Checksums: of concatenations, by extension and by combination. *)
Class CrcLogOk (K : Crc32c) (KC : CrcCombine) : Prop := {
  log_crc_nil : crc32c_Value [] = 0;
  log_crc_range c l : 0 ≤ crc32c_Extend c l < 2 ^ 32;
  log_crc_app c l1 l2 : 0 ≤ c < 2 ^ 32 → bytes l1 → bytes l2 →
    crc32c_Extend (crc32c_Extend c l1) l2 = crc32c_Extend c (l1 ++ l2);
  log_crc_combine c l : 0 ≤ c < 2 ^ 32 → bytes l → size l < 2 ^ 64 →
    crc32c_Combine c (crc32c_Value l) (size l) = crc32c_Extend c l
}.

Ltac wal_lia :=
  unfold kZeroType, kFullType, kFirstType, kMiddleType, kLastType, kRecyclableFullType,
    kRecyclableFirstType, kRecyclableMiddleType, kRecyclableLastType, kSetCompressionType,
    kMaxRecordType, kRecyclableUserDefinedTimestampSizeType, kUserDefinedTimestampSizeType,
    kBlockSize, kHeaderSize, kRecyclableHeaderSize in *; lia.

(** ** Fragments *)

Notation frag := (Z * slice)%type.

Section layout.
Context {K : Crc32c}.
(** Whether the log is a recycled one, and its number. *)
Variables (rc : bool) (log : Z).

Definition log_bytes : slice := if rc then EncodeFixed32 log else [].
Definition hs : Z := if rc then kRecyclableHeaderSize else kHeaderSize.

Definition phys (f : frag) : slice :=
  EncodeFixed32 (crc32c_Mask (crc32c_Value (f.1 :: log_bytes ++ f.2))) ++
  [size f.2 mod 2 ^ 8; size f.2 / 2 ^ 8; f.1] ++ log_bytes ++ f.2.

(** Where a fragment starts: a block with no room for a header is padded. *)
Definition start_off (off : Z) : Z := if kBlockSize - off <? hs then 0 else off.
Definition padding (off : Z) : slice :=
  if kBlockSize - off <? hs then replicate (Z.to_nat (kBlockSize - off)) 0 else [].
Definition room_at (off : Z) : Z := kBlockSize - start_off off - hs.

Fixpoint lay (off : Z) (fs : list frag) : slice :=
  match fs with
  | [] => []
  | f :: fs => padding off ++ phys f ++ lay (start_off off + hs + size f.2) fs
  end.
Fixpoint lay_end (off : Z) (fs : list frag) : Z :=
  match fs with [] => off | f :: fs => lay_end (start_off off + hs + size f.2) fs end.

(** The fragments of a record, or of what is left of it, from an offset in a block on. *)
Inductive laid : Z → bool → slice → list frag → Prop :=
| laid_end off begin p :
    size p ≤ room_at off → laid off begin p [(record_type rc begin true, p)]
| laid_more off begin p fs :
    room_at off < size p → laid kBlockSize false (drop (Z.to_nat (room_at off)) p) fs →
    laid off begin p ((record_type rc begin false, take (Z.to_nat (room_at off)) p) :: fs).

(** The fragments of a log of records. *)
Inductive wal : Z → list slice → list frag → Prop :=
| wal_nil off : wal off [] []
| wal_cons off r rs fs gs :
    laid off true r fs → wal (lay_end off fs) rs gs → wal off (r :: rs) (fs ++ gs).

Lemma hs_range : 7 ≤ hs ≤ 11.
Proof. unfold hs. destruct rc; cbv; split; congruence. Qed.

Lemma lay_app off fs gs : lay off (fs ++ gs) = lay off fs ++ lay (lay_end off fs) gs.
Proof.
  revert off. induction fs as [|f fs IH]; intros off; [done|]. cbn [app lay lay_end].
  by rewrite IH, !app_assoc.
Qed.
Lemma lay_end_app off fs gs : lay_end off (fs ++ gs) = lay_end (lay_end off fs) gs.
Proof. revert off. induction fs as [|f fs IH]; intros off; cbn [app lay_end]; auto. Qed.

Lemma start_off_range off : 0 ≤ off ≤ kBlockSize → 0 ≤ start_off off ≤ kBlockSize - hs.
Proof.
  intros Ho. pose proof hs_range. unfold start_off, kBlockSize in *.
  destruct (Z.ltb_spec (32768 - off) hs); lia.
Qed.
Lemma room_at_range off : 0 ≤ off ≤ kBlockSize → 0 ≤ room_at off ≤ kBlockSize - hs.
Proof. intros Ho. pose proof (start_off_range off Ho). unfold room_at. lia. Qed.

Lemma laid_lay_end off begin p fs :
  0 ≤ off ≤ kBlockSize → laid off begin p fs → 0 ≤ lay_end off fs ≤ kBlockSize.
Proof.
  intros Ho Hl. induction Hl as [off begin p Hp|off begin p fs Hp Hl IH].
  - pose proof (start_off_range off Ho). pose proof hs_range. pose proof (size_nonneg p).
    unfold room_at in Hp. cbn [lay_end snd]. lia.
  - cbn [lay_end snd]. pose proof (room_at_range off Ho).
    replace (start_off off + hs + size (take (Z.to_nat (room_at off)) p)) with kBlockSize.
    + apply IH. unfold kBlockSize. lia.
    + unfold size in *. rewrite length_take. unfold room_at in *. lia.
Qed.

Lemma wal_snoc off rs fs r gs :
  wal off rs fs → laid (lay_end off fs) true r gs → wal off (rs ++ [r]) (fs ++ gs).
Proof.
  intros Hw Hl. induction Hw as [off|off r' rs fs fs' Hl' Hw IH]; cbn [app lay_end] in *.
  - rewrite <- (app_nil_r gs). econstructor; [done|constructor].
  - rewrite <- app_assoc. rewrite lay_end_app in Hl. constructor; auto.
Qed.

Lemma wal_lay_end off rs fs : 0 ≤ off ≤ kBlockSize → wal off rs fs → 0 ≤ lay_end off fs ≤ kBlockSize.
Proof.
  intros Ho Hw. induction Hw as [off|off r rs fs gs Hl Hw IH]; [done|].
  rewrite lay_end_app. apply IH. by eapply laid_lay_end.
Qed.

Lemma size_log_bytes : size log_bytes = hs - 7.
Proof. unfold log_bytes, hs. by destruct rc. Qed.
Lemma bytes_log : bytes log_bytes.
Proof. unfold log_bytes. destruct rc; [apply bytes_le|constructor]. Qed.

Lemma size_phys f : size (phys f) = hs + size f.2.
Proof.
  unfold phys. rewrite !size_app, size_log_bytes.
  change (size (EncodeFixed32 _)) with 4. change (size [_; _; _]) with 3. lia.
Qed.
End layout.

(** ** The writer *)

Section writer.
Context {K : Crc32c} {KC : CrcCombine} {KOk : CrcLogOk K KC} {Z_ : StreamingCompression}.
Context {D : Type} {LD : LogDest D} {LDOk : LogDestOk D LD K}.
Implicit Types (w : Writer D).

Definition type_crcs : list Z := (λ i, crc32c_Value [i]) <$> seqZ 0 (kMaxRecordType + 1).

(** A writer of a log without compression, whose file holds [l]. *)
Definition good_writer w (l : slice) : Prop :=
  holds_log (dest_ w) l ∧ 0 ≤ block_offset_ w ≤ kBlockSize ∧ compress_ w = None ∧ type_crc_ w = type_crcs.

(** What stays as it is. *)
Definition moved_on w w' : Prop := ∃ d o, w' = set_block_offset o (set_dest d w).

Lemma moved_on_trans w1 w2 w3 : moved_on w1 w2 → moved_on w2 w3 → moved_on w1 w3.
Proof. intros (d1 & o1 & ->) (d2 & o2 & ->). by exists d2, o2. Qed.

Lemma wp_in_dest {A} (c : ST D A) (Q : A → D → Prop) w :
  wp c Q (dest_ w) → wp (in_dest c) (λ a w', ∃ d, w' = set_dest d w ∧ Q a d) w.
Proof. unfold wp, in_dest. destruct (c (dest_ w)) as [a d|]; [|done]. intros H. by exists d. Qed.

Lemma wp_append w l data crc :
  holds_log (dest_ w) l → bytes data → crc = 0 ∨ crc = crc32c_Value data →
  wp (in_dest (dest_Append data crc)) (λ s w', ∃ d, w' = set_dest d w ∧ (ok s = true → holds_log d (l ++ data))) w.
Proof. intros Hl Hb Hc. apply wp_in_dest. by apply dest_Append_ok. Qed.

Lemma type_crcs_lookup t : 0 ≤ t ≤ kMaxRecordType → type_crcs !! Z.to_nat t = Some (crc32c_Value [t]).
Proof.
  intros Ht. unfold type_crcs. rewrite list_lookup_fmap, lookup_seqZ_lt by (unfold kMaxRecordType in *; lia).
  cbn [fmap option_fmap option_map]. by rewrite Z2Nat.id, Z.add_0_l by lia.
Qed.

(** The types of the fragments of a log. *)
Definition frag_type (rc : bool) (t : Z) : Prop :=
  if rc then kRecyclableFullType ≤ t ≤ kRecyclableLastType else kFullType ≤ t ≤ kLastType.
Lemma record_type_frag rc begin end_ : frag_type rc (record_type rc begin end_).
Proof. destruct rc, begin, end_; cbv; split; congruence. Qed.

Lemma frag_type_range rc t : frag_type rc t → 1 ≤ t ≤ 8.
Proof. unfold frag_type. destruct rc; wal_lia. Qed.

Lemma len_bytes n :
  0 ≤ n ≤ 0xffff → u8 (Z.land n 0xff) = n mod 2 ^ 8 ∧ u8 (Z.shiftr n 8) = n / 2 ^ 8.
Proof.
  intros Hn. unfold u8. change 0xff with (Z.ones 8). rewrite Z.land_ones, Z.shiftr_div_pow2 by lia.
  rewrite Z.mod_mod by lia. split; [done|]. apply Z.mod_small.
  split; [apply Z.div_pos|apply Z.div_lt_upper_bound]; lia.
Qed.

(** The checksum of a fragment as the writer puts it together. *)
Lemma frag_crc rc log t p :
  frag_type rc t → bytes p → size p < 2 ^ 64 →
  crc32c_Combine (if rc then crc32c_Extend (crc32c_Value [t]) (EncodeFixed32 log) else crc32c_Value [t])
    (crc32c_Value p) (size p) =
  crc32c_Value (t :: log_bytes rc log ++ p).
Proof.
  intros Ht%frag_type_range Hp Hs. unfold crc32c_Value at 1 2.
  assert (bytes [t]) by (repeat constructor; lia). pose proof (bytes_le 4 log).
  assert (0 ≤ 0 < 2 ^ 32) by lia. rewrite log_crc_combine by (done || (destruct rc; apply log_crc_range)).
  unfold crc32c_Value, log_bytes. destruct rc.
  - rewrite (log_crc_app 0 [t]), (log_crc_app 0 ([t] ++ _)) by (done || by apply bytes_app). done.
  - by rewrite (log_crc_app 0 [t]).
Qed.

Lemma wp_Emit w l t p :
  let rc := recycle_log_files_ w in
  good_writer w l → frag_type rc t → bytes p → block_offset_ w + hs rc + size p ≤ kBlockSize →
  wp (EmitPhysicalRecord t p)
    (λ s w', moved_on w w' ∧ block_offset_ w' = block_offset_ w + hs rc + size p ∧
      (ok s = true → good_writer w' (l ++ phys rc (u32 (log_number_ w)) (t, p)))) w.
Proof.
  intros rc (Hl & Ho & Hc & Ht) Hty Hp Hfit. pose proof (frag_type_range rc t Hty) as Htr.
  pose proof (size_nonneg p). pose proof (hs_range rc).
  unfold EmitPhysicalRecord. wp_step. wp_step. wp_step. wp_step; [apply Z.leb_le; wal_lia|].
  wp_step. rewrite Ht. apply (wp_load _ (crc32c_Value [t])); [apply type_crcs_lookup; wal_lia|].
  wp_step. set (num := log_bytes rc (u32 (log_number_ w))).
  set (crc := if rc then crc32c_Extend (crc32c_Value [t]) num else crc32c_Value [t]).
  match goal with |- wp ?c ?Q _ => assert (Hhdr : c w = Done (hs rc, num, crc) w) end.
  { unfold frag_type in Hty. subst crc num. unfold hs, log_bytes in *. destruct rc.
    - rewrite (proj2 (Z.ltb_ge _ _)) by wal_lia. cbn [orb].
      rewrite !(proj2 (Z.eqb_neq _ _)) by wal_lia. cbn [orb].
      rewrite (proj2 (Z.leb_le _ _)) by wal_lia. done.
    - rewrite (proj2 (Z.ltb_lt _ _)) by wal_lia. cbn [orb].
      rewrite (proj2 (Z.leb_le _ _)) by wal_lia. done. }
  apply wp_done. exists (hs rc, num, crc), w. split; [exact Hhdr|]. clear Hhdr. cbv beta iota.
  wp_step. eapply wp_mono; [apply (wp_append w l); [done| |by left]|].
  { apply Forall_app; split; [apply bytes_le|]. apply Forall_app; split; [|unfold num, log_bytes; destruct rc; [apply bytes_le|constructor]].
    repeat constructor; unfold u8; apply Z.mod_pos_bound; done. }
  intros s1 w1 (d1 & -> & Hs1). wp_step.
  assert (Hbuf : EncodeFixed32 (crc32c_Mask (crc32c_Combine crc (crc32c_Value p) (size p))) ++
    [u8 (Z.land (size p) 0xff); u8 (Z.shiftr (size p) 8); u8 t] ++ num ++ p =
    phys rc (u32 (log_number_ w)) (t, p)).
  { subst crc num. unfold phys. cbn [fst snd]. rewrite <- frag_crc by (done || wal_lia).
    destruct (len_bytes (size p)) as [-> ->]; [wal_lia|].
    replace (u8 t) with t by (symmetry; apply Z.mod_small; lia). unfold log_bytes. by destruct rc. }
  apply (wp_mono _ (λ s w', ∃ d, w' = set_dest d w ∧ (ok s = true → holds_log d (l ++ phys rc (u32 (log_number_ w)) (t, p))))).
  { destruct (ok s1) eqn:Hok.
    - eapply wp_mono; [exact (wp_append (set_dest d1 w) _ p _ (Hs1 eq_refl) Hp (or_intror eq_refl))|].
      intros s2 w2 (d2 & -> & Hs2). exists d2. split; [done|]. intros Hs. specialize (Hs2 Hs).
      rewrite <- !app_assoc in Hs2. by rewrite <- Hbuf.
    - wp_step. exists d1. split; [done|]. by rewrite Hok. }
  intros s2 w2 (d2 & -> & Hs2). wp_step. wp_step. wp_step. split; [by eexists _, _|].
  cbn [block_offset_ set_block_offset set_dest]. split; [lia|]. intros Hs. split; [by apply Hs2|]. split; [|done].
  cbn [block_offset_ set_block_offset set_dest]. lia.
Qed.

(** ** Adding a record *)

Lemma wp_switch_block w l :
  let rc := recycle_log_files_ w in
  good_writer w l →
  wp switch_block
    (λ s w', moved_on w w' ∧
      (ok s = true → good_writer w' (l ++ padding rc (block_offset_ w)) ∧
        block_offset_ w' = start_off rc (block_offset_ w))) w.
Proof.
  intros rc (Hl & Ho & Hc & Ht). pose proof (hs_range rc) as Hhs. unfold switch_block. wp_step. wp_step.
  wp_step. wp_step; [apply Z.leb_le; lia|]. unfold header_size, padding, start_off. fold rc.
  fold (hs rc). destruct (Z.ltb_spec (kBlockSize - block_offset_ w) (hs rc)) as [Hlt|Hge].
  2: { wp_step. split; [exists (dest_ w), (block_offset_ w); by destruct w|].
    intros _. rewrite app_nil_r. done. }
  wp_step. apply (wp_mono _ (λ s w', ∃ d, w' = set_dest d w ∧
    (ok s = true → holds_log d (l ++ replicate (Z.to_nat (kBlockSize - block_offset_ w)) 0)))).
  { destruct (Z.ltb_spec 0 (kBlockSize - block_offset_ w)).
    - wp_step. wp_step; [apply Z.leb_le; lia|]. apply wp_append; [done| |by left].
      apply Forall_replicate. lia.
    - wp_step. exists (dest_ w). split; [by destruct w|]. intros _.
      replace (kBlockSize - block_offset_ w) with 0 by lia. by rewrite app_nil_r. }
  intros s w1 (d & -> & Hs). destruct (ok s) eqn:Hok.
  - wp_step. wp_step. wp_step. split; [by eexists _, _|]. intros _. split; [|done].
    split; [by apply Hs|]. split; [|done]. cbn [block_offset_ set_block_offset]. wal_lia.
  - wp_step. split; [exists d, (block_offset_ w); by destruct w|]. by rewrite Hok.
Qed.

(** One round of the loop emits what fits in the block. *)
Lemma wp_add_round fuel r p begin w l (Q : IOStatus → Writer D → Prop) :
  let rc := recycle_log_files_ w in
  let off := block_offset_ w in
  let n := Z.min (size p) (room_at rc off) in
  let f := (record_type rc begin (size p =? n), take (Z.to_nat n) p) in
  good_writer w l → bytes p →
  (∀ s w', ok s = false → moved_on w w' → Q s w') →
  (∀ s w', ok s = true → moved_on w w' →
    good_writer w' (l ++ padding rc off ++ phys rc (u32 (log_number_ w)) f) →
    block_offset_ w' = start_off rc off + hs rc + n →
    wp (if 0 <? size (drop (Z.to_nat n) p)
        then add_loop fuel r (drop (Z.to_nat n) p) false 0 false else ret s) Q w') →
  wp (add_loop (S fuel) r p begin 0 false) Q w.
Proof.
  intros rc off n f Hw Hp Hbad Hgood. cbn [add_loop]. wp_step.
  eapply wp_mono; [by apply wp_switch_block|]. intros s w1 (Hm1 & Hs1). fold rc off in Hs1.
  destruct (ok s) eqn:Hok; cbn [negb]; [|wp_step; by apply Hbad].
  destruct (Hs1 eq_refl) as [Hw1 Ho1]. clear Hs1. destruct Hm1 as (d1 & o1 & ->).
  assert (Hrange : 0 ≤ off ≤ kBlockSize) by apply Hw. pose proof (start_off_range rc _ Hrange) as Hst.
  cbn [block_offset_ set_block_offset] in Ho1. subst o1. set (so := start_off rc off) in *.
  wp_step. wp_step. wp_step. unfold header_size.
  cbn [recycle_log_files_ block_offset_ set_block_offset set_dest]. fold rc. fold (hs rc).
  wp_step; [apply Z.leb_le; lia|]. wp_step. unfold compress_chunk. wp_step. wp_step.
  replace (compress_ (set_block_offset so (set_dest d1 w))) with (@None comp) by (symmetry; apply Hw).
  wp_step. change (kBlockSize - so - hs rc) with (room_at rc off).
  pose proof (room_at_range rc _ Hrange) as Hroom. pose proof (size_nonneg p) as Hsz.
  replace (if size p <? room_at rc off then size p else room_at rc off) with n
    by (subst n; destruct (Z.ltb_spec (size p) (room_at rc off)); lia).
  rewrite Z.eqb_refl, andb_true_r. wp_step.
  assert (Htk : size (take (Z.to_nat n) p) = n) by (unfold size in *; rewrite length_take; lia).
  eapply wp_mono.
  { apply (wp_Emit _ _ _ (take (Z.to_nat n) p) Hw1); [apply record_type_frag|by apply Forall_take|].
    cbn [block_offset_ set_block_offset set_dest recycle_log_files_]. fold rc. rewrite Htk.
    subst n. unfold room_at in *. fold so. lia. }
  cbn [block_offset_ set_block_offset set_dest recycle_log_files_ log_number_]. fold rc. rewrite Htk.
  intros s2 w2 (Hm2 & Ho2 & Hs2). assert (Hm : moved_on w w2) by (destruct Hm2 as (? & ? & ->); by eexists _, _).
  destruct (ok s2) eqn:Hok2; cbn [andb]; [|wp_step; by apply Hbad].
  rewrite orb_false_r, <- app_assoc in *. by apply Hgood; [| |apply Hs2|].
Qed.

Lemma wp_add_loop fuel r p begin w l :
  let rc := recycle_log_files_ w in
  good_writer w l → bytes p →
  (length p + (if (kBlockSize <=? block_offset_ w)%Z then 1 else 2) ≤ fuel)%nat →
  wp (add_loop fuel r p begin 0 false)
    (λ s w', moved_on w w' ∧
      (ok s = true → ∃ fs, laid rc (block_offset_ w) begin p fs ∧
        good_writer w' (l ++ lay rc (u32 (log_number_ w)) (block_offset_ w) fs) ∧
        block_offset_ w' = lay_end rc (block_offset_ w) fs)) w.
Proof.
  intros rc. revert p begin w l rc. induction fuel as [|fuel IH]; intros p begin w l rc Hw Hp Hf.
  { destruct (kBlockSize <=? block_offset_ w); lia. }
  apply (wp_add_round _ _ _ _ _ l); [done..|intros s w' Hs Hm; by rewrite Hs|]. fold rc.
  set (off := block_offset_ w) in *. set (room := room_at rc off).
  assert (Hrange : 0 ≤ off ≤ kBlockSize) by apply Hw. pose proof (room_at_range rc _ Hrange) as Hroom.
  assert (Hfull : start_off rc off + hs rc + room = kBlockSize) by (unfold room, room_at; lia).
  fold room in Hroom. intros s2 w2 Hok2 Hm Hs2 Ho2. pose proof (size_nonneg p) as Hsz.
  destruct (Z.ltb_spec 0 (size (drop (Z.to_nat (Z.min (size p) room)) p))) as [Hmore|Hlast].
  - assert (Hlt : room < size p) by (unfold size in *; rewrite length_drop in Hmore; lia).
    rewrite Z.min_r in * by lia. rewrite (proj2 (Z.eqb_neq _ _)) in Hs2 by lia.
    assert (Htk : size (take (Z.to_nat room) p) = room) by (unfold size in *; rewrite length_take; lia).
    rewrite Hfull in Ho2. destruct Hm as (d2 & o2 & ->). eapply wp_mono.
    { apply (IH _ _ _ _ Hs2); [by apply Forall_drop|]. rewrite Ho2, Z.leb_refl, length_drop.
      destruct (Z.leb_spec kBlockSize off); [|lia]. pose proof (hs_range rc).
      assert (start_off rc off = 0) by (unfold start_off; rewrite (proj2 (Z.ltb_lt _ _)); lia).
      unfold size in *. wal_lia. }
    cbn [recycle_log_files_ log_number_ set_block_offset set_dest]. fold rc. intros s3 w3 [Hm3 Hs3].
    split; [destruct Hm3 as (? & ? & ->); by eexists _, _|]. intros Hok3.
    destruct (Hs3 Hok3) as (fs & Hlaid & Hw3 & Ho3). rewrite Ho2 in Hlaid, Hw3, Ho3.
    eexists. split; [by apply laid_more|]. cbn [lay lay_end fst snd]. fold room. rewrite Htk, Hfull.
    split; [|done]. by rewrite !app_assoc in *.
  - assert (Hle : size p ≤ room) by (unfold size in *; rewrite length_drop in Hlast; lia).
    rewrite Z.min_l in * by lia. rewrite Z.eqb_refl in Hs2.
    replace (take (Z.to_nat (size p)) p) with p in * by (unfold size; by rewrite Nat2Z.id, take_ge).
    wp_step. split; [done|]. intros _. exists [(record_type rc begin true, p)].
    split; [by apply laid_end|]. cbn [lay lay_end fst snd]. by rewrite app_nil_r.
Qed.

(** [AddRecord] appends the fragments of the record. *)
Lemma wp_AddRecord_wal fuel r w l :
  let rc := recycle_log_files_ w in
  good_writer w l → bytes r → (length r + 2 ≤ fuel)%nat →
  wp (Writer_AddRecord fuel r)
    (λ s w', moved_on w w' ∧
      (ok s = true → ∃ fs, laid rc (block_offset_ w) true r fs ∧
        good_writer w' (l ++ lay rc (u32 (log_number_ w)) (block_offset_ w) fs) ∧
        block_offset_ w' = lay_end rc (block_offset_ w) fs)) w.
Proof.
  intros rc Hw Hr Hf. unfold Writer_AddRecord. wp_step. wp_step.
  replace (compress_ w) with (@None comp) by (symmetry; apply Hw). wp_step. wp_step. wp_step.
  eapply wp_mono; [apply (wp_add_loop fuel r r true w l Hw Hr); destruct (kBlockSize <=? block_offset_ w); lia|].
  intros s w1 [Hm Hs]. destruct (ok s) eqn:Hok; cbn [andb]; [|wp_step; by rewrite Hok].
  destruct (manual_flush_ w); cbn [negb]; [wp_step; split; [done|]; intros _; by apply Hs|].
  destruct (Hs eq_refl) as (fs & Hlaid & (Hh & Hrest) & Ho). eapply wp_mono; [apply wp_in_dest; by apply dest_Flush_ok|].
  intros s2 w2 (d & -> & Hs2). split.
  { eapply moved_on_trans; [done|]. exists d, (block_offset_ w1). by destruct w1. }
  intros Hok2. exists fs. split; [done|]. split; [|done]. split; [by apply Hs2|]. done.
Qed.

End writer.
