(* ===== verification/WalRead.v ===== *)
(** * RocksDB: reading a write-ahead log back

    A reader of a log without compression holds the rest of a block and has the rest of
    the file before it ([reading]).  A fragment that lies in what is left of the file is
    read as it was written; a record is put together from its fragments; and what is left
    of a record that was cut off anywhere ends the log without a record. *)

From stdpp Require Import base numbers option list gmap strings.
From S2P Require Import Prelude ZenCoding ZenTypes WalOps WalWrite.

Section reader.
Context {F : Type} {LS : LogSource F} {LSOk : LogSourceOk F LS}.
Context {K : Crc32c} {KC : CrcCombine} {KOk : CrcLogOk K KC} {Z_ : StreamingCompression}.
Implicit Types (r : Reader F) (R : slice).

(** The reader is at [pos] in the file, [R] is the rest: in its buffer the rest of a block,
    or of the last one, and in the file what follows. *)
Definition reading r (pos : Z) R : Prop := ∃ rest,
  left_to_read (file_ r) rest ∧ R = buffer_ r ++ rest ∧ read_error_ r = false ∧ uncompress_ r = None ∧
  end_of_buffer_offset_ r = pos + size (buffer_ r) ∧ 0 ≤ pos ∧
  (if eof_ r then rest = [] ∧ pos mod kBlockSize + size (buffer_ r) < kBlockSize ∧
     eof_offset_ r = pos mod kBlockSize + size (buffer_ r)
   else (pos + size (buffer_ r)) mod kBlockSize = 0 ∧ size (buffer_ r) ≤ kBlockSize).

(** What reading does not change, nothing reported. *)
Definition quiet r r' : Prop :=
  reported r' = reported r ∧ checksum_ r' = checksum_ r ∧ reader_log_number_ r' = reader_log_number_ r.

Lemma quiet_refl r : quiet r r.
Proof. done. Qed.
Lemma quiet_trans r1 r2 r3 : quiet r1 r2 → quiet r2 r3 → quiet r1 r3.
Proof. intros (? & ? & ?) (? & ? & ?). repeat split; congruence. Qed.

Lemma wp_in_file {A} (c : ST F A) (Q : A → F → Prop) r :
  wp c Q (file_ r) → wp (in_file c) (λ a r', ∃ f, r' = set_file f r ∧ Q a f) r.
Proof. unfold wp, in_file. destruct (c (file_ r)) as [a f|]; [|done]. intros H. by exists f. Qed.

Lemma size_take_n n (l : slice) : 0 ≤ n → size (take (Z.to_nat n) l) = Z.min n (size l).
Proof. intros. unfold size. rewrite length_take. lia. Qed.
Lemma size_drop_n n (l : slice) : 0 ≤ n → size (drop (Z.to_nat n) l) = Z.max 0 (size l - n).
Proof. intros. unfold size. rewrite length_drop. lia. Qed.

(** ** The next block *)

Lemma wp_ReadMore r pos R :
  reading r pos R → eof_ r = false →
  let n := size (buffer_ r) in
  wp ReadMore (λ m r', m = None ∧ reading r' (pos + n) (drop (Z.to_nat n) R) ∧ quiet r r' ∧
    buffer_ r' = take (Z.to_nat kBlockSize) (drop (Z.to_nat n) R) ∧
    eof_ r' = (size (buffer_ r') <? kBlockSize)) r.
Proof.
  intros (rest & Hf & -> & He & Hu & Hend & Hpos & Hblk) Heof n. rewrite Heof in Hblk.
  rewrite drop_app_n by (unfold n, size; lia).
  unfold ReadMore. wp_step. wp_step. rewrite Heof, He. cbn [negb andb]. wp_step.
  eapply wp_mono; [apply wp_in_file, src_Read_ok; [done|wal_lia]|].
  intros res r1 (f & -> & -> & Hf'). do 4 wp_step. change (ok OK) with true. cbn [negb].
  pose proof (size_nonneg rest) as Hrs. pose proof (size_nonneg (buffer_ r)).
  assert (Hsz : size (take (Z.to_nat kBlockSize) rest) = Z.min kBlockSize (size rest))
    by (apply size_take_n; wal_lia).
  wp_step. wp_step; [wp_step|]; wp_step;
    cbn [set_eof set_end_of_buffer set_buffer set_file buffer_ eof_ read_error_ uncompress_ file_
         end_of_buffer_offset_ reported checksum_ reader_log_number_].
  all: (split; [done|]); (split; [|split; [done|]; split; [done|congruence]]).
  - rewrite Z.ltb_lt, Hsz in *. exists (drop (Z.to_nat kBlockSize) rest). cbn.
    split; [done|]. split; [by rewrite take_drop|]. do 2 (split; [done|]). split; [lia|]. split; [lia|].
    rewrite drop_ge by (unfold size in *; lia). split; [done|]. fold n in Hblk. rewrite (proj1 Hblk). split; lia.
  - rewrite Z.ltb_ge, Hsz in *. exists (drop (Z.to_nat kBlockSize) rest).
    cbn [set_eof set_end_of_buffer set_buffer set_file buffer_ eof_ read_error_ uncompress_ file_
         end_of_buffer_offset_ reported checksum_ reader_log_number_]. rewrite Heof.
    split; [done|]. split; [by rewrite take_drop|]. do 2 (split; [done|]). split; [lia|]. split; [lia|].
    rewrite Hsz. split; [|lia]. fold n in Hblk. rewrite Z.min_l by lia.
    rewrite <- Z.add_mod_idemp_l, (proj1 Hblk), Z.add_0_l, Z.mod_same by wal_lia. done.
Qed.

(** ** One fragment *)

Lemma lor_len n : 0 ≤ n ≤ 0xffff → Z.lor (n mod 2 ^ 8) (Z.shiftl (n / 2 ^ 8) 8) = n.
Proof.
  intros Hn. apply Z.bits_inj'. intros i Hi. rewrite Z.lor_spec. destruct (decide (i < 8)).
  - rewrite Z.mod_pow2_bits_low, Z.shiftl_spec_low by lia. apply orb_false_r.
  - rewrite Z.mod_pow2_bits_high, Z.shiftl_spec, Z.div_pow2_bits by lia. cbn [orb]. f_equal. lia.
Qed.

Lemma frag_type_facts rc t :
  frag_type rc t → char_type t = t ∧ is_recyclable_type t = rc ∧ t ≠ kZeroType.
Proof.
  intros Ht. pose proof (frag_type_range rc t Ht). unfold char_type, is_recyclable_type, frag_type in *.
  rewrite (proj2 (Z.ltb_lt t 128)) by lia. split; [done|]. split; [|wal_lia]. destruct rc.
  - rewrite (proj2 (Z.leb_le _ _)), (proj2 (Z.leb_le _ _)) by wal_lia. done.
  - rewrite (proj2 (Z.leb_gt _ _)), (proj2 (Z.eqb_neq _ _)) by wal_lia. done.
Qed.

(** The parts of a header. *)
Section header.
Variables (rc : bool) (log t : Z) (p b : slice).
Notation header := (phys rc log (t, p) ++ b).

Lemma header_crc : DecodeFixed32 header = crc32c_Mask (crc32c_Value (t :: log_bytes rc log ++ p)).
Proof.
  unfold DecodeFixed32, phys. rewrite <- !app_assoc, take_app_n by apply length_Fixed32.
  unfold EncodeFixed32. apply le_val_bytes. apply u32_range.
Qed.
Lemma header_len : header !! 4%nat = Some (size p mod 2 ^ 8) ∧ header !! 5%nat = Some (size p / 2 ^ 8).
Proof. done. Qed.
Lemma header_type : header !! 6%nat = Some t.
Proof. done. Qed.
Lemma header_rest : drop 6 header = (t :: log_bytes rc log ++ p) ++ b.
Proof. done. Qed.
Lemma header_payload : drop (Z.to_nat (hs rc)) header = p ++ b.
Proof.
  unfold phys, log_bytes, hs. destruct rc; [|done]. cbn [fst snd]. rewrite <- !app_assoc. done.
Qed.
Lemma header_log : rc = true → 0 ≤ log < 2 ^ 32 → DecodeFixed32 (drop 7 header) = log.
Proof.
  intros Hrc Hlog. unfold phys, log_bytes. rewrite Hrc. cbn [fst snd].
  change (drop 7 _) with ((EncodeFixed32 log ++ p) ++ b). unfold DecodeFixed32.
  rewrite <- app_assoc, take_app_n by apply length_Fixed32. by apply le_val_bytes.
Qed.
End header.

Lemma reading_advance r pos R n r' :
  reading r pos R → 0 ≤ n ≤ size (buffer_ r) →
  r' = set_buffer (drop (Z.to_nat n) (buffer_ r)) r →
  reading r' (pos + n) (drop (Z.to_nat n) R).
Proof.
  intros (rest & Hf & -> & He & Hu & Hend & Hpos & Hblk) Hn ->. exists rest.
  cbn [set_buffer buffer_ eof_ read_error_ uncompress_ file_ end_of_buffer_offset_].
  rewrite size_drop_n by lia. split; [done|]. split; [apply drop_app_le; unfold size in *; lia|].
  do 2 (split; [done|]). split; [lia|]. split; [lia|]. destruct (eof_ r).
  - split; [apply Hblk|]. destruct Hblk as (_ & Hblk & Hoff).
    assert ((pos + n) mod kBlockSize = pos mod kBlockSize + n).
    { rewrite <- Z.add_mod_idemp_l by wal_lia. apply Z.mod_small.
      pose proof (Z.mod_pos_bound pos kBlockSize). wal_lia. }
    cbn [set_buffer eof_offset_]. split; lia.
  - split; [|lia]. rewrite <- (proj1 Hblk). f_equal. lia.
Qed.

Lemma reading_recycled r pos R : reading r pos R → reading (set_recycled r) pos R.
Proof. done. Qed.

(** What a reader makes of a fragment: a record of a log with another number is old. *)
Definition seen (rc : bool) (log : Z) r (t : Z) (p : slice) : Z * slice * Z :=
  if rc && negb (log =? reader_log_number_ r) then (kOldRecord, [], 0) else (t, p, 0).

Lemma seen_quiet rc log r r' t p : quiet r r' → seen rc log r' t p = seen rc log r t p.
Proof. intros (_ & _ & Hn). unfold seen. by rewrite Hn. Qed.

Lemma wp_parse rc log fuel uf r pos R t p b :
  reading r pos R → buffer_ r = phys rc log (t, p) ++ b → frag_type rc t → size p ≤ 0xffff →
  (rc = true → 0 ≤ log < 2 ^ 32) →
  wp (read_physical (S fuel) uf)
    (λ res r', res = seen rc log r t p ∧ reading r' (pos + (hs rc + size p)) (drop (Z.to_nat (hs rc + size p)) R) ∧
      quiet r r' ∧ buffer_ r' = b) r.
Proof.
  intros Hr Hb Ht Hlen Hnum. pose proof (hs_range rc) as Hhs. pose proof (size_nonneg p) as Hsp.
  destruct (frag_type_facts rc t Ht) as (Hct & Hrec & Hzero).
  assert (Hsz : size (buffer_ r) = hs rc + size p + size b) by (rewrite Hb, size_app, size_phys; done).
  pose proof (size_nonneg b) as Hsb. cbn [read_physical]. wp_step. wp_step.
  rewrite (proj2 (Z.ltb_ge _ kHeaderSize)) by wal_lia.
  destruct (header_len rc log t p b) as [H4 H5]. rewrite Hb.
  wp_step. eapply wp_load; [exact H4|]. wp_step. eapply wp_load; [exact H5|].
  wp_step. eapply wp_load; [exact (header_type rc log t p b)|]. cbv zeta.
  rewrite Hct, Hrec, lor_len by lia. fold (hs rc). rewrite <- Hb.
  apply (wp_seq (λ _ r1, reading r1 pos R ∧ quiet r r1 ∧ buffer_ r1 = buffer_ r)).
  { wp_step; [wp_step|]; done. }
  intros _ r1 (Hr1 & Hq1 & Hb1).
  assert (rc && (size (buffer_ r) <? kRecyclableHeaderSize) = false) as ->.
  { unfold hs in Hsz. destruct rc; [|done]. apply Z.ltb_ge. lia. }
  rewrite (proj2 (Z.ltb_ge _ (hs rc + size p))) by lia. rewrite Hb.
  assert (Hadv : ∀ r2, r2 = set_buffer (drop (Z.to_nat (hs rc + size p)) (buffer_ r1)) r1 →
    reading r2 (pos + (hs rc + size p)) (drop (Z.to_nat (hs rc + size p)) R) ∧ quiet r r2 ∧ buffer_ r2 = b).
  { intros r2 ->. split; [eapply reading_advance; [exact Hr1|rewrite Hb1, Hsz; lia|by rewrite Hb1, Hb]|].
    split; [done|]. cbn [set_buffer buffer_]. rewrite Hb1, Hb.
    apply drop_app_n. pose proof (size_phys rc log (t, p)) as Hph. unfold size in *. cbn [snd] in Hph. lia. }
  assert (rc && negb (DecodeFixed32 (drop 7 (phys rc log (t, p) ++ b)) =? reader_log_number_ r)
    = rc && negb (log =? reader_log_number_ r)) as ->.
  { destruct rc eqn:Hrc; [|done]. by rewrite header_log by auto. }
  unfold seen. destruct (rc && negb (log =? reader_log_number_ r)).
  { rewrite <- Hb, <- Hb1. do 2 wp_step. split; [done|]. by apply Hadv. }
  rewrite (proj2 (Z.eqb_neq t kZeroType)) by done. cbn [andb].
  rewrite header_crc, header_rest, Unmask_Mask by apply log_crc_range.
  rewrite take_app_n.
  2: { pose proof (size_log_bytes rc log) as Hlb. unfold size in *. cbn [length]. rewrite length_app. lia. }
  rewrite Z.eqb_refl, andb_false_r. rewrite <- Hb, <- Hb1. do 2 wp_step.
  assert (uncompress_ r = None) as -> by (by destruct Hr as (? & _ & _ & _ & ? & _)).
  wp_step. rewrite Hb1 at 1. rewrite Hb, header_payload, take_app_n by (unfold size; lia).
  split; [done|]. by apply Hadv.
Qed.

(** The buffer ends with the block, or with the file. *)
Lemma reading_buffer r pos R :
  reading r pos R → buffer_ r ≠ [] →
  if eof_ r then buffer_ r = R ∧ pos mod kBlockSize + size R < kBlockSize
  else pos mod kBlockSize + size (buffer_ r) = kBlockSize ∧ size (buffer_ r) ≤ size R.
Proof.
  intros (rest & _ & -> & _ & _ & _ & Hpos & Hblk) Hne. destruct (eof_ r).
  { destruct Hblk as (-> & Hlt & _). by rewrite app_nil_r. }
  destruct Hblk as [Hmod Hle]. rewrite size_app. pose proof (size_nonneg rest).
  assert (0 < size (buffer_ r)) by (unfold size; destruct (buffer_ r); [done|cbn [length]; lia]).
  split; [|lia]. pose proof (Z.mod_pos_bound pos kBlockSize ltac:(wal_lia)) as Hp.
  rewrite <- Z.add_mod_idemp_l in Hmod by wal_lia. apply Z.mod_divide in Hmod as [q Hq]; [|wal_lia].
  wal_lia.
Qed.

Lemma reading_empty r pos R : reading r pos R → buffer_ r = [] → R ≠ [] → eof_ r = false.
Proof.
  intros (rest & _ & -> & _ & _ & _ & _ & Hblk) -> Hne. destruct (eof_ r); [|done].
  by destruct Hblk as (-> & _).
Qed.

(** After [ReadMore] the loop goes on with the next block. *)
Lemma wp_refill fuel uf r pos R (Q : Z * slice * Z → Reader F → Prop) :
  reading r pos R → eof_ r = false → size (buffer_ r) < kHeaderSize →
  (∀ r1, reading r1 (pos + size (buffer_ r)) (drop (length (buffer_ r)) R) → quiet r r1 →
    buffer_ r1 = take (Z.to_nat kBlockSize) (drop (length (buffer_ r)) R) →
    eof_ r1 = (size (buffer_ r1) <? kBlockSize) →
    wp (read_physical fuel uf) Q r1) →
  wp (read_physical (S fuel) uf) Q r.
Proof.
  intros Hr Heof Hsz Hk. cbn [read_physical]. wp_step. wp_step. rewrite (proj2 (Z.ltb_lt _ _)) by done.
  wp_step. eapply wp_mono; [by apply wp_ReadMore|]. unfold size. rewrite Nat2Z.id.
  intros m r1 (-> & Hr1 & Hq & Hb & He). by apply Hk.
Qed.

(** A fragment that is there is read. *)
Lemma wp_read_frag rc log fuel uf r pos t p R :
  reading r pos (phys rc log (t, p) ++ R) → frag_type rc t →
  pos mod kBlockSize + hs rc + size p ≤ kBlockSize → (rc = true → 0 ≤ log < 2 ^ 32) →
  wp (read_physical (S (S fuel)) uf)
    (λ res r', res = seen rc log r t p ∧ reading r' (pos + (hs rc + size p)) R ∧ quiet r r') r.
Proof.
  intros Hr Ht Hfit Hnum. pose proof (hs_range rc). pose proof (size_nonneg p).
  pose proof (Z.mod_pos_bound pos kBlockSize ltac:(wal_lia)).
  pose proof (size_phys rc log (t, p)) as Hph. cbn [snd] in Hph.
  assert (Hd : drop (Z.to_nat (hs rc + size p)) (phys rc log (t, p) ++ R) = R)
    by (apply drop_app_n; unfold size in *; lia).
  assert (Hlen : size p ≤ 0xffff) by wal_lia.
  assert (Hin : ∀ r1 fuel b, buffer_ r1 = phys rc log (t, p) ++ b →
    reading r1 pos (phys rc log (t, p) ++ R) → quiet r r1 →
    wp (read_physical (S fuel) uf)
      (λ res r', res = seen rc log r t p ∧ reading r' (pos + (hs rc + size p)) R ∧ quiet r r') r1).
  { intros r1 fu b Hb Hr1 Hq1. eapply wp_mono; [by eapply wp_parse|]. rewrite Hd, (seen_quiet _ _ _ _ _ _ Hq1).
    intros res r2 (-> & Hr2 & Hq2 & _). split; [done|]. split; [done|]. by eapply quiet_trans. }
  destruct (decide (buffer_ r = [])) as [Hb|Hb].
  - assert (Heof : eof_ r = false).
    { apply (reading_empty _ _ _ Hr Hb). intros E. apply (f_equal size) in E. rewrite size_app in E.
      pose proof (size_nonneg R). rewrite Hph in E. change (size []) with 0 in E. lia. }
    apply (wp_refill _ _ _ _ _ _ Hr Heof); [by rewrite Hb|]. rewrite Hb.
    change (size []) with 0. rewrite Z.add_0_r, drop_0. intros r1 Hr1 Hq1 Hb1 _.
    rewrite take_app_ge in Hb1 by (unfold size in *; wal_lia). by eapply Hin.
  - pose proof (reading_buffer _ _ _ Hr Hb) as Hrb. destruct (eof_ r) eqn:Heof.
    { destruct Hrb as [Hrb _]. by eapply Hin. }
    destruct Hr as (rest & Hr). pose proof Hr as (_ & Happ & _). symmetry in Happ.
    apply app_eq_inv in Happ as [(k & Hk & _)|(k & Hk & _)].
    + eapply Hin; [exact Hk|by exists rest|done].
    + assert (k = []) as ->.
      { apply (f_equal size) in Hk. rewrite size_app in Hk.
        destruct k; [done|unfold size in *; cbn [length] in *; lia]. }
      eapply (Hin _ _ []); [by rewrite Hk, !app_nil_r|by exists rest|done].
Qed.

(** ** Padding *)

(** Zeros that could be a header are no record, and end the block. *)
Lemma wp_zero_pad fuel uf r pos R j :
  reading r pos R → buffer_ r = replicate j 0 → (7 ≤ j)%nat →
  wp (read_physical (S fuel) uf)
    (λ res r', res = (kBadRecord, [], 0) ∧ reading r' (pos + Z.of_nat j) (drop j R) ∧ quiet r r') r.
Proof.
  intros Hr Hb Hj. assert (Hsz : size (buffer_ r) = Z.of_nat j) by (rewrite Hb; unfold size; by rewrite length_replicate).
  cbn [read_physical]. wp_step. wp_step. rewrite (proj2 (Z.ltb_ge _ kHeaderSize)) by wal_lia. rewrite Hb.
  do 3 (wp_step; eapply wp_load; [apply lookup_replicate_2; lia|]). cbv zeta.
  change (char_type 0) with 0. change (is_recyclable_type 0) with false. cbn [andb].
  change (Z.lor 0 (Z.shiftl 0 8)) with 0. wp_step. wp_step; [done|].
  rewrite <- Hb, Hsz, (proj2 (Z.ltb_ge _ _)) by wal_lia.
  change (0 =? kZeroType) with true. change (0 =? 0) with true. cbn [andb]. wp_step. wp_step. wp_step.
  split; [done|]. split; [|done]. replace (drop j R) with (drop (Z.to_nat (Z.of_nat j)) R) by (by rewrite Nat2Z.id).
  eapply (reading_advance r); [done|lia|]. by rewrite Hb, drop_ge by (rewrite length_replicate; lia).
Qed.

(** Padding is in the buffer, and no more than it. *)
Lemma pad_in_buffer r pos k R :
  reading r pos (replicate k 0 ++ R) → (0 < k < 11)%nat → (pos + Z.of_nat k) mod kBlockSize = 0 →
  eof_ r = false ∧ buffer_ r = replicate k 0.
Proof.
  intros Hr Hk Hmod. pose proof (size_nonneg R) as HR.
  pose proof (Z.mod_pos_bound pos kBlockSize ltac:(wal_lia)) as Hp.
  assert (Hpk : pos mod kBlockSize + Z.of_nat k = kBlockSize).
  { rewrite <- Z.add_mod_idemp_l in Hmod by wal_lia. apply Z.mod_divide in Hmod as [q Hq]; [|wal_lia]. wal_lia. }
  assert (Hb : buffer_ r ≠ []).
  { intros Hb. pose proof (reading_empty _ _ _ Hr Hb) as Heof. destruct Hr as (rest & _ & _ & _ & _ & _ & _ & Hblk).
    rewrite Heof, Hb in Hblk; [|destruct k; [lia|done]]. change (size []) with 0 in Hblk.
    rewrite Z.add_0_r in Hblk. wal_lia. }
  pose proof (reading_buffer _ _ _ Hr Hb) as Hrb. rewrite size_app in Hrb.
  assert (Hrep : size (replicate k 0) = Z.of_nat k) by (unfold size; by rewrite length_replicate).
  rewrite Hrep in Hrb. destruct (eof_ r); [lia|]. split; [done|]. destruct Hr as (rest & _ & Happ & _).
  apply app_inj_1 in Happ as [-> _]; [done|]. unfold size in *. lia.
Qed.

(** The rest of a block that is too short for a header is skipped. *)
Lemma wp_skip_pad fuel uf r pos k R (Q : Z * slice * Z → Reader F → Prop) :
  reading r pos (replicate k 0 ++ R) → (0 < k < 7)%nat → (pos + Z.of_nat k) mod kBlockSize = 0 →
  (∀ r1, reading r1 (pos + Z.of_nat k) R → quiet r r1 → wp (read_physical fuel uf) Q r1) →
  wp (read_physical (S fuel) uf) Q r.
Proof.
  intros Hr Hk Hmod HQ. destruct (pad_in_buffer r pos k R Hr ltac:(lia) Hmod) as [Heof Hb].
  assert (Hrep : size (replicate k 0) = Z.of_nat k) by (unfold size; by rewrite length_replicate).
  apply (wp_refill _ _ _ _ _ _ Hr Heof); [rewrite Hb, Hrep; wal_lia|].
  rewrite Hb, Hrep, drop_app_length. intros r1 Hr1 Hq1 _ _. by apply HQ.
Qed.

(** ** The end of the file *)

(** When the rest of the file does not fill its block it is all in the buffer. *)
Lemma wp_last_block fuel uf r pos R (Q : Z * slice * Z → Reader F → Prop) :
  reading r pos R → pos mod kBlockSize + size R < kBlockSize →
  (∀ fuel' r1, reading r1 pos R → quiet r r1 → buffer_ r1 = R → eof_ r1 = true →
    wp (read_physical (S fuel') uf) Q r1) →
  wp (read_physical (S (S fuel)) uf) Q r.
Proof.
  intros Hr Hlt HQ. pose proof (size_nonneg R). pose proof (Z.mod_pos_bound pos kBlockSize ltac:(wal_lia)).
  destruct (decide (buffer_ r = [])) as [Hb|Hb].
  - destruct (eof_ r) eqn:Heof.
    + apply HQ; [done|apply quiet_refl| |done]. destruct Hr as (rest & _ & -> & _ & _ & _ & _ & Hblk).
      rewrite Heof in Hblk. destruct Hblk as [-> _]. by rewrite app_nil_r.
    + apply (wp_refill _ _ _ _ _ _ Hr Heof); [by rewrite Hb|]. rewrite Hb. change (size []) with 0.
      rewrite Z.add_0_r, drop_0, take_ge by (unfold size in *; wal_lia).
      intros r1 Hr1 Hq1 Hb1 He1. apply HQ; [done..|]. by rewrite He1, Hb1, (proj2 (Z.ltb_lt _ _)) by lia.
  - pose proof (reading_buffer _ _ _ Hr Hb) as Hrb. destruct (eof_ r) eqn:Heof; [|lia].
    apply HQ; [done|apply quiet_refl|apply Hrb|done].
Qed.

(** What [ReadPhysicalRecord] returns at the end of the log. *)
Definition at_end (res : Z * slice * Z) r : Prop :=
  res.1.1 = kEof ∨ res.1.1 = kBadHeader ∨ (res.1.1 = kBadRecordLen ∧ eof_ r = true).

Lemma wp_ReadMore_eof r :
  eof_ r = true →
  wp ReadMore (λ m r', ∃ e n, m = Some (e, n) ∧ (e = kEof ∨ e = kBadHeader) ∧ quiet r r') r.
Proof.
  intros Heof. unfold ReadMore. wp_step. wp_step. rewrite Heof. cbn [negb andb]. wp_step. wp_step.
  destruct (negb _); wp_step; eexists _, _; (split; [done|]); (split; [|done]); [by right|by left].
Qed.

Lemma wp_short fuel uf r :
  eof_ r = true → size (buffer_ r) < kHeaderSize →
  wp (read_physical (S fuel) uf) (λ res r', at_end res r' ∧ quiet r r') r.
Proof.
  intros Heof Hsz. cbn [read_physical]. wp_step. wp_step. rewrite (proj2 (Z.ltb_lt _ _)) by done.
  wp_step. eapply wp_mono; [by apply wp_ReadMore_eof|]. intros m r1 (e & n & -> & He & Hq).
  wp_step. split; [|done]. unfold at_end. cbn [fst]. tauto.
Qed.

(** A fragment that is cut off. *)
Lemma wp_read_cut rc log fuel uf r pos t p R X :
  reading r pos R → R ++ X = phys rc log (t, p) → X ≠ [] → frag_type rc t → bytes p →
  pos mod kBlockSize + hs rc + size p ≤ kBlockSize →
  wp (read_physical (S (S fuel)) uf) (λ res r', at_end res r' ∧ quiet r r') r.
Proof.
  intros Hr HX Hne Ht Hp Hfit. pose proof (size_phys rc log (t, p)) as Hph. cbn [snd] in Hph.
  pose proof (f_equal size HX) as Hsz. rewrite size_app, Hph in Hsz.
  assert (0 < size X) by (unfold size; destruct X; [done|cbn [length]; lia]).
  pose proof (size_nonneg p). pose proof (hs_range rc). pose proof (Z.mod_pos_bound pos kBlockSize ltac:(wal_lia)).
  apply (wp_last_block _ _ _ _ _ _ Hr); [lia|]. intros fuel' r1 Hr1 Hq1 Hb1 He1.
  destruct (decide (size R < kHeaderSize)) as [Hs|Hs].
  { eapply wp_mono; [apply wp_short; [done|by rewrite Hb1]|]. intros res r2 [Ha2 Hq2].
    split; [done|]. by eapply quiet_trans. }
  destruct (frag_type_facts rc t Ht) as (Hct & Hrec & Hzero).
  destruct (header_len rc log t p []) as [H4 H5]. pose proof (header_type rc log t p []) as H6.
  rewrite app_nil_r, <- HX in H4, H5, H6.
  rewrite lookup_app_l in H4, H5, H6 by (unfold size, kHeaderSize in *; lia).
  cbn [read_physical]. wp_step. wp_step. rewrite Hb1, (proj2 (Z.ltb_ge _ _)) by lia.
  wp_step. eapply wp_load; [exact H4|]. wp_step. eapply wp_load; [exact H5|].
  wp_step. eapply wp_load; [exact H6|]. cbv zeta. rewrite Hct, Hrec, lor_len by wal_lia. fold (hs rc).
  apply (wp_seq (λ _ r2, eof_ r2 = true ∧ quiet r1 r2)); [wp_step; [wp_step|]; done|].
  intros _ r2 [He2 Hq2]. destruct (rc && (size R <? kRecyclableHeaderSize)).
  - wp_step. eapply wp_mono; [by apply wp_ReadMore_eof|]. intros m r3 (e & n & -> & He & Hq).
    wp_step. split; [unfold at_end; cbn [fst]; tauto|]. eauto using quiet_trans.
  - rewrite (proj2 (Z.ltb_lt _ _)) by lia. do 3 wp_step. split; [right; right; done|].
    eapply quiet_trans; [done|]. by eapply quiet_trans.
Qed.

End reader.
