(* ===== verification/WalLog.v ===== *)
(** * RocksDB: records of a write-ahead log

    [ReadRecord] puts a record together from the fragments the writer made of it, and a
    whole log is read as the records written to it; of a log cut off within its last
    record all the others are read. *)

From stdpp Require Import base numbers option list gmap strings.
From S2P Require Import Prelude ZenCoding ZenTypes WalOps WalWrite WalRead.

Section log.
Context {F : Type} {LS : LogSource F} {LSOk : LogSourceOk F LS}.
Context {K : Crc32c} {KC : CrcCombine} {KOk : CrcLogOk K KC} {Z_ : StreamingCompression}.
Implicit Types (r : Reader F) (R : slice).
Variables (rc : bool) (log : Z).

(** The reader of a recycled log knows its number. *)
Definition knows_log r : Prop := rc = true → 0 ≤ log < 2 ^ 32 ∧ reader_log_number_ r = log.

Lemma quiet_knows r r' : knows_log r → quiet r r' → knows_log r'.
Proof. intros Hk (_ & _ & Hn). unfold knows_log. by rewrite Hn. Qed.

(** The reader is at offset [off] of a block, or at its end. *)
Definition aligned (pos off : Z) : Prop := 0 ≤ off ≤ kBlockSize ∧ (pos - off) mod kBlockSize = 0.

Lemma aligned_mod pos off : aligned pos off → pos mod kBlockSize = off mod kBlockSize.
Proof.
  intros [_ Hm]. apply Z.mod_divide in Hm as [q Hq]; [|wal_lia].
  replace pos with (off + q * kBlockSize) by lia. apply Z.mod_add. wal_lia.
Qed.

Lemma aligned_trans pos q off off' : aligned pos off → aligned q off → aligned q off' → aligned pos off'.
Proof.
  intros [_ Hp] [_ Hq] [Ho' Hq']. split; [done|].
  replace (pos - off') with (pos - off - (q - off) + (q - off')) by lia.
  rewrite Z.add_mod, Zminus_mod, Hp, Hq, Hq' by wal_lia. done.
Qed.

(** What becomes of the next round after [dispatch]. *)
Definition finish_round (fuel uf : nat) (mode : WALRecoveryMode) (n : round) : ST (Reader F) (option slice) :=
  match n with
  | Return record => ret record
  | Continue scratch infrag off => read_record_loop fuel uf mode scratch infrag off
  end.

Lemma wp_loop fuel uf mode scratch infrag o r (P : Z * slice * Z → Reader F → Prop) Q :
  wp (read_physical 3 uf) P r →
  (∀ res r1 po, P res r1 →
    wp (n <- dispatch mode res.1.1 res.1.2 res.2 po scratch infrag o ;; finish_round fuel uf mode n) Q r1) →
  wp (read_record_loop (S fuel) uf mode scratch infrag o) Q r.
Proof.
  intros HP HQ. cbn [read_record_loop]. do 3 wp_step. eapply wp_mono; [exact HP|].
  intros [[t p] d] r1 H1. exact (HQ _ r1 _ H1).
Qed.

(** A block's padding, as long as a header, is not a record; it is passed over between
    records. *)
Lemma wp_bad_record fuel uf mode po o r Q :
  wp (read_record_loop fuel uf mode [] false o) Q r →
  wp (n <- dispatch mode kBadRecord [] 0 po [] false o ;; finish_round fuel uf mode n) Q r.
Proof. done. Qed.

(** A first or middle fragment is kept for the next round. *)
Lemma wp_dispatch_more fuel uf mode scratch begin o po f r Q :
  (begin = true → scratch = []) →
  (∀ o', wp (read_record_loop fuel uf mode (scratch ++ f) true o') Q r) →
  wp (n <- dispatch mode (record_type rc begin false) f 0 po scratch (negb begin) o ;;
      finish_round fuel uf mode n) Q r.
Proof.
  intros Hsc Hnext. unfold dispatch. destruct begin.
  - rewrite (Hsc eq_refl) in *. destruct rc; apply Hnext.
  - destruct rc; apply Hnext.
Qed.

Lemma wp_round_seen fuel uf mode scratch infrag o r pos off t p R Q :
  reading r pos (padding rc off ++ phys rc log (t, p) ++ R) → aligned pos off → frag_type rc t →
  start_off rc off + hs rc + size p ≤ kBlockSize → (rc = true → 0 ≤ log < 2 ^ 32) →
  (infrag = true ∨ scratch ≠ [] → off = kBlockSize) →
  (length (padding rc off ++ phys rc log (t, p) ++ R) < fuel)%nat →
  (∀ fuel' r1 po, (length R + 1 < fuel')%nat → reading r1 (pos + size (padding rc off) + (hs rc + size p)) R →
    quiet r r1 → let '(t', p', _) := seen rc log r t p in
    wp (n <- dispatch mode t' p' 0 po scratch infrag o ;; finish_round fuel' uf mode n) Q r1) →
  wp (read_record_loop fuel uf mode scratch infrag o) Q r.
Proof.
  intros Hr Hal Ht Hfit Hnum Hinf Hfuel HQ. destruct fuel as [|fuel]; [lia|].
  pose proof (aligned_mod _ _ Hal) as Hpm. destruct Hal as [Ho Hal].
  pose proof (hs_range rc) as Hhs. pose proof (size_nonneg p) as Hsp.
  pose proof (size_phys rc log (t, p)) as Hph. cbn [snd] in Hph.
  assert (Hgive : ∀ fuel' r1 po, (length R + 1 < fuel')%nat →
    reading r1 (pos + size (padding rc off) + (hs rc + size p)) R → quiet r r1 →
    wp (n <- dispatch mode (seen rc log r t p).1.1 (seen rc log r t p).1.2 (seen rc log r t p).2 po scratch infrag o ;;
        finish_round fuel' uf mode n) Q r1).
  { intros fuel' r1 po Hf' Hr1 Hq1. specialize (HQ fuel' r1 po Hf' Hr1 Hq1). unfold seen in *.
    by destruct (rc && negb (log =? reader_log_number_ r)). }
  clear HQ.
  assert (Hgo : ∀ fuel r1 q, (length (phys rc log (t, p) ++ R) ≤ fuel)%nat →
    reading r1 q (phys rc log (t, p) ++ R) → q mod kBlockSize + hs rc + size p ≤ kBlockSize →
    q = pos + size (padding rc off) → quiet r r1 →
    wp (read_record_loop (S fuel) uf mode scratch infrag o) Q r1).
  { intros fu r1 q Hfu Hr1 Hq -> Hq1. eapply wp_loop.
    - by eapply (wp_read_frag rc log).
    - intros res r2 po (-> & Hr2 & Hq2). rewrite (seen_quiet _ _ _ _ _ _ Hq1). apply Hgive; [|done|by eapply quiet_trans].
      rewrite length_app in Hfu. unfold size in *. lia. }
  unfold padding, start_off in *.
  destruct (Z.ltb_spec (kBlockSize - off) (hs rc)) as [Hk|Hk].
  2: { apply (Hgo fuel r pos); [cbn [app] in Hfuel; lia|done| |change (size []) with 0; lia|apply quiet_refl].
    rewrite Hpm, Z.mod_small by lia. lia. }
  set (k := Z.to_nat (kBlockSize - off)) in *.
  assert (Hrep : size (replicate k 0) = Z.of_nat k) by (unfold size; by rewrite length_replicate).
  assert (Hmod : (pos + Z.of_nat k) mod kBlockSize = 0).
  { replace (pos + Z.of_nat k) with (pos - off + 1 * kBlockSize) by lia. rewrite Z.mod_add by wal_lia. done. }
  rewrite length_app, length_replicate in Hfuel. rewrite Hrep in *. destruct (decide (k = 0%nat)) as [E|Hk0].
  { rewrite E in *. apply (Hgo fuel r pos); [lia|done| |lia|apply quiet_refl].
    rewrite Z.add_0_r in Hmod. lia. }
  destruct (decide (k < 7)%nat) as [Hk7|Hk7].
  - apply (wp_loop _ _ _ _ _ _ _ (λ res r2, res = seen rc log r t p ∧
      reading r2 (pos + Z.of_nat k + (hs rc + size p)) R ∧ quiet r r2)).
    + eapply wp_skip_pad; [exact Hr|lia|done|]. intros r1 Hr1 Hq1.
      eapply wp_mono; [eapply (wp_read_frag rc log); [exact Hr1|done|lia|done]|].
      rewrite (seen_quiet _ _ _ _ _ _ Hq1). intros res r2 (-> & Hr2 & Hq2). split; [done|]. split; [done|]. by eapply quiet_trans.
    + intros res r2 po (-> & Hr2 & Hq2). apply Hgive; [|done..].
      rewrite length_app in Hfuel. unfold size in *. lia.
  - assert (infrag = false ∧ scratch = []) as [-> ->].
    { split; [destruct infrag|destruct scratch]; try done; exfalso; (assert (off = kBlockSize); [|lia]);
        apply Hinf; [by left|by right]. }
    destruct (pad_in_buffer r pos k _ Hr) as [_ Hb]; [lia|done|].
    eapply wp_loop; [eapply wp_zero_pad; [exact Hr|exact Hb|lia]|].
    rewrite drop_app_n by apply length_replicate. intros res r1 po (-> & Hr1 & Hq1). apply wp_bad_record.
    destruct fuel as [|fuel]; [lia|]. apply (Hgo _ r1 (pos + Z.of_nat k)); [lia|done|lia|done|done].
Qed.

(** The reader of the log itself sees the fragment. *)
Lemma wp_round fuel uf mode scratch infrag o r pos off t p R Q :
  reading r pos (padding rc off ++ phys rc log (t, p) ++ R) → aligned pos off → frag_type rc t →
  start_off rc off + hs rc + size p ≤ kBlockSize → knows_log r →
  (infrag = true ∨ scratch ≠ [] → off = kBlockSize) →
  (length (padding rc off ++ phys rc log (t, p) ++ R) < fuel)%nat →
  (∀ fuel' r1 po, (length R + 1 < fuel')%nat → reading r1 (pos + size (padding rc off) + (hs rc + size p)) R →
    quiet r r1 → wp (n <- dispatch mode t p 0 po scratch infrag o ;; finish_round fuel' uf mode n) Q r1) →
  wp (read_record_loop fuel uf mode scratch infrag o) Q r.
Proof.
  intros Hr Hal Ht Hfit Hnum Hinf Hfuel HQ. eapply wp_round_seen; [done..|by apply Hnum|done|done|].
  intros fuel' r1 po Hf Hr1 Hq1. assert (seen rc log r t p = (t, p, 0)) as ->; [|by apply HQ].
  unfold seen. destruct rc eqn:Hrc; [|done]. destruct (Hnum Hrc) as [_ ->]. by rewrite Z.eqb_refl.
Qed.

(** A reader with another number takes the fragment for the end of the log. *)
Lemma wp_round_old fuel uf mode o r pos off t p R :
  reading r pos (padding rc off ++ phys rc log (t, p) ++ R) → aligned pos off → frag_type rc t →
  start_off rc off + hs rc + size p ≤ kBlockSize → rc = true → 0 ≤ log < 2 ^ 32 →
  reader_log_number_ r ≠ log → skip_any mode = false →
  (length (padding rc off ++ phys rc log (t, p) ++ R) < fuel)%nat →
  wp (read_record_loop fuel uf mode [] false o) (λ res r', res = None ∧ quiet r r') r.
Proof.
  intros Hr Hal Ht Hfit Hrc Hlog Hne Hm Hfuel. eapply wp_round_seen; [done..| |done|].
  { intros [E|E]; done. }
  intros fuel' r1 po _ _ Hq. unfold seen. rewrite Hrc, (proj2 (Z.eqb_neq _ _)) by done. cbn [andb negb].
  unfold dispatch. destruct mode; done.
Qed.

(** ** Records that are there *)

Lemma quiet_last r o b : quiet r (set_last_record o b r).
Proof. done. Qed.
Lemma reading_last r pos R o b : reading r pos R → reading (set_last_record o b r) pos R.
Proof. done. Qed.

Lemma aligned_next pos off n :
  aligned pos off → 0 ≤ n → start_off rc off + hs rc + n ≤ kBlockSize →
  aligned (pos + size (padding rc off) + (hs rc + n)) (start_off rc off + hs rc + n).
Proof.
  intros [Ho Hal] Hn Hfit. pose proof (hs_range rc). pose proof (start_off_range rc off Ho).
  split; [lia|]. unfold padding, start_off in *. destruct (Z.ltb_spec (kBlockSize - off) (hs rc)).
  - unfold size. rewrite length_replicate.
    replace (pos + Z.of_nat (Z.to_nat (kBlockSize - off)) + (hs rc + n) - (0 + hs rc + n))
      with (pos - off + 1 * kBlockSize) by lia. rewrite Z.mod_add by wal_lia. done.
  - change (size []) with 0. rewrite <- Hal. f_equal. lia.
Qed.

(** A reader that has passed a log is where its writer stopped. *)
Lemma aligned_laid pos off begin p fs :
  laid rc off begin p fs → aligned pos off → aligned (pos + size (lay rc log off fs)) (lay_end rc off fs).
Proof.
  intros Hl. revert pos. induction Hl as [off begin p Hp|off begin p fs Hp Hl IH]; intros pos Hal;
    pose proof (proj1 Hal) as Ho; pose proof (room_at_range rc off Ho) as Hroom; cbn [lay lay_end snd];
    rewrite !size_app, size_phys; cbn [snd].
  - change (size []) with 0. rewrite Z.add_0_r, Z.add_assoc.
    apply aligned_next; [done|apply size_nonneg|unfold room_at in *; lia].
  - rewrite size_take_n by lia. rewrite Z.min_l by lia.
    replace (start_off rc off + hs rc + room_at rc off) with kBlockSize by (unfold room_at; lia).
    rewrite !Z.add_assoc. apply IH.
    rewrite <- Z.add_assoc. replace kBlockSize with (start_off rc off + hs rc + room_at rc off) by (unfold room_at; lia).
    apply aligned_next; [done|lia|unfold room_at; lia].
Qed.
Lemma aligned_wal pos off rs fs :
  wal rc off rs fs → aligned pos off → aligned (pos + size (lay rc log off fs)) (lay_end rc off fs).
Proof.
  intros Hw. revert pos. induction Hw as [off|off p rs fs gs Hl Hw IH]; intros pos Hal.
  - cbn [lay lay_end]. change (size []) with 0. by rewrite Z.add_0_r.
  - rewrite lay_app, lay_end_app, size_app, Z.add_assoc. apply IH. by eapply aligned_laid.
Qed.

(** The fragments of a record give the record. *)
Lemma wp_read_laid fuel uf mode scratch infrag o r pos off begin p fs R :
  laid rc off begin p fs → reading r pos (lay rc log off fs ++ R) → aligned pos off →
  knows_log r → infrag = negb begin → (begin = true → scratch = []) →
  (begin = false → off = kBlockSize) → (length (lay rc log off fs ++ R) < fuel)%nat →
  wp (read_record_loop fuel uf mode scratch infrag o)
    (λ res r', res = Some (scratch ++ p) ∧ ∃ pos', reading r' pos' R ∧ aligned pos' (lay_end rc off fs) ∧
      quiet r r') r.
Proof using KOk.
  intros Hl. revert fuel scratch infrag o r pos. induction Hl as [off begin p Hp|off begin p fs Hp Hl IH];
    intros fuel scratch infrag o r pos Hr Hal Hnum -> Hsc Hbeg Hfuel; cbn [lay lay_end fst snd] in *.
  - rewrite app_nil_r, <- app_assoc in *. pose proof (size_nonneg p). unfold room_at in Hp.
    eapply wp_round; [exact Hr|done|apply record_type_frag|lia|done| |exact Hfuel|].
    { intros H'. apply Hbeg. destruct begin; [|done]. destruct H' as [|[]]; [done|by apply Hsc]. }
    intros fuel' r1 po _ Hr1 Hq1.
    apply (wp_mono _ (λ res r', res = Some (scratch ++ p) ∧ ∃ o b, r' = set_last_record o b r1)).
    { unfold dispatch. destruct begin.
      - rewrite (Hsc eq_refl). destruct rc; cbn; eauto 6.
      - destruct rc; cbn; eauto 6. }
    intros res r2 (-> & o' & b' & ->). split; [done|]. eexists. split; [by apply reading_last|].
    split; [apply aligned_next; [done|done|lia]|]. by eapply quiet_trans.
  - assert (Ho : 0 ≤ off ≤ kBlockSize) by apply Hal. pose proof (room_at_range rc off Ho) as Hroom.
    set (room := room_at rc off) in *.
    assert (Htk : size (take (Z.to_nat room) p) = room) by (rewrite size_take_n; lia).
    assert (Hfull : start_off rc off + hs rc + room = kBlockSize) by (unfold room, room_at; lia).
    rewrite Htk, Hfull, <- !app_assoc in *.
    eapply wp_round; [exact Hr|done|apply record_type_frag|rewrite Htk; lia|done| |exact Hfuel|].
    { intros H'. apply Hbeg. destruct begin; [|done]. destruct H' as [|[]]; [done|by apply Hsc]. }
    rewrite Htk. intros fuel' r1 po Hfu Hr1 Hq1.
    pose proof (aligned_next _ _ room Hal ltac:(lia) ltac:(lia)) as Hal1. rewrite Hfull in Hal1.
    eapply (wp_mono _ (λ res r', res = Some ((scratch ++ take (Z.to_nat room) p) ++ drop (Z.to_nat room) p) ∧
      ∃ pos', reading r' pos' R ∧ aligned pos' (lay_end rc kBlockSize fs) ∧ quiet r1 r')).
    { apply wp_dispatch_more; [done|]. intros o'.
      eapply IH; [exact Hr1|done| |done|done|done|lia]. by apply (quiet_knows r). }
    intros res r2 (-> & pos' & Hr2 & Hal2 & Hq2). rewrite <- app_assoc, take_drop. split; [done|].
    exists pos'. split; [done|]. split; [done|]. by eapply quiet_trans.
Qed.

(** ** Records that are cut off *)

(** The log ends: no record, and nothing reported unless the mode asks for it. *)
Definition stops (mode : WALRecoveryMode) r (res : option slice) r' : Prop :=
  res = None ∧ (strict mode = false → quiet r r').

Lemma stops_quiet mode r r1 res r' : quiet r r1 → stops mode r1 res r' → stops mode r res r'.
Proof. intros Hq [-> Hs]. split; [done|]. intros Hm. eapply quiet_trans; eauto. Qed.

Lemma wp_dispatch_end fuel uf mode scratch infrag o po res r r0 :
  at_end res r → quiet r0 r →
  wp (n <- dispatch mode res.1.1 res.1.2 res.2 po scratch infrag o ;; finish_round fuel uf mode n)
    (stops mode r0) r.
Proof.
  intros He Hq. destruct res as [[t p] d]. cbn [fst snd]. eapply wp_mono; [|intros ??; by apply (stops_quiet mode r0 r)].
  unfold dispatch, at_eof. destruct He as [He|[He|[He Heof]]]; cbn [fst] in He; subst t.
  - destruct mode, infrag; by cbn.
  - destruct mode, infrag; by cbn.
  - wp_step. wp_step. wp_step. rewrite Heof. destruct mode; by cbn.
Qed.

(** Nothing is left. *)
Lemma wp_end fuel uf mode scratch infrag o r pos :
  reading r pos [] → wp (read_record_loop (S fuel) uf mode scratch infrag o) (stops mode r) r.
Proof.
  intros Hr. eapply wp_loop with (P := λ res r1, at_end res r1 ∧ quiet r r1);
    [|intros res r1 po [He Hq]; by apply wp_dispatch_end].
  apply (wp_last_block _ _ _ _ _ _ Hr).
  { pose proof (Z.mod_pos_bound pos kBlockSize ltac:(wal_lia)). change (size []) with 0. lia. }
  intros fuel' r1 Hr1 Hq1 Hb He. eapply wp_mono; [apply wp_short; [done|by rewrite Hb]|].
  intros res r2 [H1 H2]. split; [done|]. by eapply quiet_trans.
Qed.

(** Padding, or the beginning of it. *)
Lemma wp_cut_pad fuel uf mode o r pos j :
  reading r pos (replicate j 0) → (j < 11)%nat → pos mod kBlockSize + Z.of_nat j ≤ kBlockSize →
  wp (read_record_loop (S (S fuel)) uf mode [] false o) (stops mode r) r.
Proof.
  intros Hr Hj Hfit. assert (Hrep : size (replicate j 0) = Z.of_nat j) by (unfold size; by rewrite length_replicate).
  destruct (decide (j = 0%nat)) as [->|Hj0]; [by eapply wp_end|].
  pose proof (Z.mod_pos_bound pos kBlockSize ltac:(wal_lia)) as Hp.
  assert (Hbad : ∀ r1 fuel', reading r1 pos (replicate j 0) → quiet r r1 → buffer_ r1 = replicate j 0 → (7 ≤ j)%nat →
    wp (read_physical (S fuel') uf) (λ res r2, (at_end res r2 ∧ quiet r r2) ∨
      (res = (kBadRecord, [], 0) ∧ (∃ pos', reading r2 pos' []) ∧ quiet r r2)) r1).
  { intros r1 fu Hr1 Hq1 Hb H7. eapply wp_mono; [by apply (wp_zero_pad _ _ _ _ _ _ Hr1 Hb)|].
    intros res r2 (-> & Hr2 & Hq2). right. split; [done|]. rewrite drop_ge in Hr2 by (rewrite length_replicate; lia).
    split; [by eexists|]. by eapply quiet_trans. }
  eapply wp_loop with (P := λ res r2, (at_end res r2 ∧ quiet r r2) ∨
      (res = (kBadRecord, [], 0) ∧ (∃ pos', reading r2 pos' []) ∧ quiet r r2)).
  2: { intros res r2 po [[He Hq]|(-> & (pos' & Hr2) & Hq)]; [by apply wp_dispatch_end|].
    apply wp_bad_record. eapply wp_mono; [by eapply wp_end|]. intros ??. by apply stops_quiet. }
  assert (Hshort : ∀ r1 fuel', eof_ r1 = true → size (buffer_ r1) < kHeaderSize → quiet r r1 →
    wp (read_physical (S fuel') uf) (λ res r2, (at_end res r2 ∧ quiet r r2) ∨
      (res = (kBadRecord, [], 0) ∧ (∃ pos', reading r2 pos' []) ∧ quiet r r2)) r1).
  { intros r1 fu He Hs Hq1. eapply wp_mono; [by apply wp_short|]. intros res r2 [H1 H2]. left.
    split; [done|]. by eapply quiet_trans. }
  destruct (decide (pos mod kBlockSize + Z.of_nat j = kBlockSize)) as [Hfull|Hnot].
  - rewrite <- (app_nil_r (replicate j 0)) in Hr.
    assert (Hmod : (pos + Z.of_nat j) mod kBlockSize = 0)
      by (rewrite <- Z.add_mod_idemp_l, Hfull, Z.mod_same by wal_lia; done).
    destruct (decide (j < 7)%nat).
    + eapply wp_skip_pad; [exact Hr|lia|done|]. intros r1 Hr1 Hq1. apply (wp_last_block _ _ _ _ _ _ Hr1).
      { rewrite Hmod. done. }
      intros fu r2 Hr2 Hq2 Hb2 He2. apply Hshort; [done|by rewrite Hb2|by eapply quiet_trans].
    + destruct (pad_in_buffer r pos j [] Hr) as [_ Hb]; [lia|done|]. rewrite app_nil_r in Hr. apply Hbad; [done|apply quiet_refl|done|lia].
  - apply (wp_last_block _ _ _ _ _ _ Hr); [lia|]. intros fu r1 Hr1 Hq1 Hb1 He1.
    destruct (decide (j < 7)%nat); [apply Hshort; [done|rewrite Hb1, Hrep; wal_lia|done]|apply Hbad; [done..|lia]].
Qed.

(** A fragment cut off in its padding, its header or its payload. *)
Lemma wp_cut_frag fuel uf mode scratch infrag o r pos off t p T X :
  reading r pos T → T ++ X = padding rc off ++ phys rc log (t, p) → X ≠ [] → aligned pos off →
  frag_type rc t → bytes p → start_off rc off + hs rc + size p ≤ kBlockSize →
  (infrag = true ∨ scratch ≠ [] → off = kBlockSize) →
  wp (read_record_loop (S (S fuel)) uf mode scratch infrag o) (stops mode r) r.
Proof.
  intros Hr HX Hne Hal Ht Hp Hfit Hinf. pose proof (aligned_mod _ _ Hal) as Hpm. destruct Hal as [Ho Hal].
  pose proof (hs_range rc) as Hhs. pose proof (size_nonneg p) as Hsp.
  assert (Hgo : ∀ fuel r1 q T2, reading r1 q T2 → T2 ++ X = phys rc log (t, p) →
    q mod kBlockSize + hs rc + size p ≤ kBlockSize → quiet r r1 →
    wp (read_record_loop (S fuel) uf mode scratch infrag o) (stops mode r) r1).
  { intros fu r1 q T2 Hr1 HT2 Hq Hq1. eapply wp_loop; [by eapply wp_read_cut|].
    intros res r2 po [He Hq2]. apply wp_dispatch_end; [done|]. by eapply quiet_trans. }
  unfold padding, start_off in *. destruct (Z.ltb_spec (kBlockSize - off) (hs rc)) as [Hk|Hk].
  2: { apply (Hgo _ r pos T Hr HX); [|apply quiet_refl]. rewrite Hpm, Z.mod_small by lia. lia. }
  set (k := Z.to_nat (kBlockSize - off)) in *.
  assert (Hmod : (pos + Z.of_nat k) mod kBlockSize = 0).
  { replace (pos + Z.of_nat k) with (pos - off + 1 * kBlockSize) by lia. rewrite Z.mod_add by wal_lia. done. }
  destruct (decide (k = 0%nat)) as [E|Hk0].
  { rewrite E in *. apply (Hgo _ r pos T Hr HX); [|apply quiet_refl]. rewrite Z.add_0_r in Hmod. lia. }
  assert (infrag = false ∧ scratch = []) as [-> ->].
  { split; [destruct infrag|destruct scratch]; try done; exfalso; (assert (off = kBlockSize); [|lia]);
      apply Hinf; [by left|by right]. }
  apply app_eq_inv in HX as [(T2 & -> & HT2)|(Y & HY & _)].
  2: { assert (T = replicate (length T) 0) as E.
    { symmetry. apply replicate_as_Forall. split; [done|].
      assert (Forall (eq 0) (replicate k 0)) as Hf by (by apply Forall_replicate).
      rewrite HY in Hf. by apply Forall_app in Hf as [? _]. }
    apply (f_equal length) in HY. rewrite length_app, length_replicate in HY. rewrite E in Hr.
    eapply wp_cut_pad; [exact Hr|lia|]. rewrite Hpm, Z.mod_small by lia. lia. }
  destruct (decide (k < 7)%nat) as [Hk7|Hk7].
  - eapply wp_loop with (P := λ res r2, at_end res r2 ∧ quiet r r2);
      [|intros res r2 po [He Hq2]; by apply wp_dispatch_end].
    eapply wp_skip_pad; [exact Hr|lia|done|]. intros r1 Hr1 Hq1.
    eapply wp_mono; [eapply (wp_read_cut rc log); [exact Hr1|exact (eq_sym HT2)|done..|lia]|].
    intros res r2 [He Hq2]. split; [done|]. by eapply quiet_trans.
  - destruct (pad_in_buffer r pos k _ Hr) as [_ Hb]; [lia|done|].
    eapply wp_loop; [eapply wp_zero_pad; [exact Hr|exact Hb|lia]|].
    rewrite drop_app_n by apply length_replicate. intros res r1 po (-> & Hr1 & Hq1). apply wp_bad_record.
    apply (Hgo _ r1 _ T2 Hr1); [done|lia|done].
Qed.

Lemma laid_bytes off begin p fs : laid rc off begin p fs → bytes p → Forall (λ f, bytes f.2) fs.
Proof.
  induction 1 as [off begin p Hp|off begin p fs Hp Hl IH]; intros Hb; constructor; cbn [snd]; auto.
  - by apply Forall_take.
  - apply IH. by apply Forall_drop.
Qed.

(** A record cut off anywhere. *)
Lemma wp_cut_laid fuel uf mode scratch infrag o r pos off begin p fs T X :
  laid rc off begin p fs → bytes p → reading r pos T → T ++ X = lay rc log off fs → X ≠ [] → aligned pos off →
  knows_log r → infrag = negb begin → (begin = true → scratch = []) →
  (begin = false → off = kBlockSize) → (length T + 1 < fuel)%nat →
  wp (read_record_loop fuel uf mode scratch infrag o) (stops mode r) r.
Proof using KOk.
  intros Hl. revert fuel scratch infrag o r pos T. induction Hl as [off begin p Hp|off begin p fs Hp Hl IH];
    intros fuel scratch infrag o r pos T Hb Hr HT HX Hal Hnum -> Hsc Hbeg Hfuel; cbn [lay lay_end fst snd] in *.
  all: assert (Hinf : negb begin = true ∨ scratch ≠ [] → off = kBlockSize)
    by (intros H'; apply Hbeg; destruct begin; [|done]; destruct H' as [|[]]; [done|by apply Hsc]).
  all: destruct fuel as [|[|fuel]]; [lia..|].
  - rewrite app_nil_r in HT. unfold room_at in Hp.
    eapply wp_cut_frag; [exact Hr|exact HT|done|done|apply record_type_frag|done|lia|done].
  - assert (Ho : 0 ≤ off ≤ kBlockSize) by apply Hal. pose proof (room_at_range rc off Ho) as Hroom.
    set (room := room_at rc off) in *.
    assert (Htk : size (take (Z.to_nat room) p) = room) by (rewrite size_take_n; lia).
    assert (Hfull : start_off rc off + hs rc + room = kBlockSize) by (unfold room, room_at; lia).
    rewrite Htk, Hfull, app_assoc in HT. set (f := (record_type rc begin false, take (Z.to_nat room) p)) in *.
    assert ((∃ T2, T = (padding rc off ++ phys rc log f) ++ T2 ∧ T2 ++ X = lay rc log kBlockSize fs) ∨
      (∃ Y, Y ≠ [] ∧ T ++ Y = padding rc off ++ phys rc log f)) as [(T2 & -> & HT2)|(Y & HY0 & HY)].
    { apply app_eq_inv in HT as [(T2 & -> & HT2)|(Y & HY & HX2)]; [left; by exists T2|].
      destruct (decide (Y = [])) as [->|HY0]; [|right; by exists Y].
      left. exists []. by rewrite app_nil_r in *. }
    + rewrite <- !app_assoc in *.
      eapply wp_round; [exact Hr|done|apply record_type_frag|rewrite Htk; lia|done|done|fold f; lia|].
      rewrite Htk. intros fuel' r1 po Hfu Hr1 Hq1. eapply wp_mono; [|intros ??; by apply (stops_quiet mode r r1)].
      pose proof (aligned_next _ _ room Hal ltac:(lia) ltac:(lia)) as Hal1. rewrite Hfull in Hal1.
      apply wp_dispatch_more; [done|]. intros o'.
      eapply IH; [by apply Forall_drop|exact Hr1|done|done|done| |done|done|done|lia].
      by apply (quiet_knows r).
    + eapply wp_cut_frag; [exact Hr|exact HY|done|done|apply record_type_frag|by apply Forall_take|rewrite Htk; lia|done].
Qed.

(** ** Whole logs *)

(** Reading records until there is none. *)
Fixpoint read_all (n fuel uf : nat) (mode : WALRecoveryMode) : ST (Reader F) (list slice) :=
  match n with
  | O => crash
  | S n =>
      record <- Reader_ReadRecord fuel uf mode ;;
      match record with
      | Some record => rest <- read_all n fuel uf mode ;; ret (record :: rest)
      | None => ret []
      end
  end.

Lemma reading_reset r pos R :
  reading r pos R →
  reading (set_uncompress (reader_compression_type_ r) (compression_type_record_read_ r)
             (uncomp_Reset <$> uncompress_ r) r) pos R.
Proof.
  intros (rest & Hf & HR & He & Hu & H). exists rest. rewrite Hu. done.
Qed.

(** The records of a log, and then what the rest of the file makes of the last call. *)
Lemma wp_read_wal_then (P : Reader F → Reader F → Prop) fuel uf mode rs fs off r pos T :
  (∀ r r1 r2, quiet r r1 → P r1 r2 → P r r2) →
  (∀ r1 pos, quiet r r1 → reading r1 pos T → aligned pos (lay_end rc off fs) → knows_log r1 →
    wp (Reader_ReadRecord fuel uf mode) (λ res r', res = None ∧ P r1 r') r1) →
  wal rc off rs fs → reading r pos (lay rc log off fs ++ T) → aligned pos off → knows_log r →
  (length (lay rc log off fs ++ T) < fuel)%nat →
  wp (read_all (S (length rs)) fuel uf mode) (λ res r', res = rs ∧ P r r') r.
Proof using KOk.
  intros HP Htail Hw. revert r pos Htail. induction Hw as [off|off p' rs fs fs' Hl Hw IH];
    intros r pos Htail Hr Hal Hnum Hfuel; cbn [length].
  - cbn [read_all]. wp_step. eapply wp_mono; [by eapply Htail; [apply quiet_refl|..]|]. intros res r' [-> Hs]. by wp_step.
  - rewrite lay_end_app in Htail. rewrite lay_app, <- app_assoc in Hr, Hfuel. cbn [read_all]. wp_step.
    unfold Reader_ReadRecord at 1. wp_step. wp_step. eapply wp_mono.
    { eapply wp_read_laid; [exact Hl|by apply reading_reset|done|done|done|done|done|lia]. }
    intros res r1 (-> & pos' & Hr1 & Hal1 & Hq1). wp_step. change (length (p' :: rs)) with (S (length rs)).
    eapply wp_mono; [eapply (IH r1 pos'); [|done..|by apply (quiet_knows r)|]|].
    { intros r2 pos2 Hq2. apply Htail. by eapply quiet_trans. }
    { rewrite length_app in Hfuel. lia. }
    intros res r2 [-> Hs]. wp_step. split; [done|]. eapply HP; [exact Hq1|done].
Qed.

(** A record that is cut off ends the log. *)
Lemma wp_read_wal_cut fuel uf mode rs fs off r pos p gs T X :
  wal rc off rs fs → laid rc (lay_end rc off fs) true p gs → bytes p →
  T ++ X = lay rc log (lay_end rc off fs) gs → X ≠ [] →
  reading r pos (lay rc log off fs ++ T) → aligned pos off → knows_log r →
  (length (lay rc log off fs ++ T) + 1 < fuel)%nat →
  wp (read_all (S (length rs)) fuel uf mode)
    (λ res r', res = rs ∧ (strict mode = false → quiet r r')) r.
Proof using KOk.
  intros Hw Hg Hp HT HX Hr Hal Hnum Hfuel.
  eapply (wp_read_wal_then (λ r r', strict mode = false → quiet r r')); [..|exact Hw|exact Hr|done|done|lia].
  { intros r0 r1 r2 Hq Hs Hm. eapply quiet_trans; [exact Hq|by apply Hs]. }
  intros r0 pos0 _ Hr0 Hal0 Hnum0. unfold Reader_ReadRecord. wp_step. wp_step.
  eapply wp_mono; [eapply wp_cut_laid; [exact Hg|done|by apply reading_reset|exact HT|done|done|done|done..|]|].
  { rewrite length_app in Hfuel. lia. }
  intros res r' [-> Hs]. done.
Qed.

(** At the end of the file nothing is reported in any mode. *)
Lemma wp_eof_end fuel uf mode o r pos :
  reading r pos [] →
  wp (read_record_loop (S fuel) uf mode [] false o)
    (λ res r', res = None ∧ reading r' pos [] ∧ eof_ r' = true ∧ quiet r r') r.
Proof.
  intros Hr. eapply wp_loop with (P := λ res r1, res = (kEof, [], 0) ∧ reading r1 pos [] ∧ eof_ r1 = true ∧ quiet r r1).
  2: { intros res r1 po (-> & Hr1 & He & Hq). destruct mode; by cbn. }
  apply (wp_last_block _ _ _ _ _ _ Hr).
  { pose proof (Z.mod_pos_bound pos kBlockSize ltac:(wal_lia)). change (size []) with 0. lia. }
  intros fuel' r1 Hr1 Hq1 Hb He. cbn [read_physical]. wp_step. wp_step.
  rewrite Hb. change (size [] <? kHeaderSize) with true. cbv iota. wp_step. unfold ReadMore. wp_step. wp_step.
  rewrite He. cbn [negb andb]. wp_step. wp_step. rewrite Hb. change (size [] =? 0) with true. cbn [negb].
  wp_step. split; [done|]. split; [|done]. replace (set_buffer [] r1) with r1; [done|].
  rewrite <- Hb. by destruct r1.
Qed.

Lemma wp_read_wal_end fuel uf mode rs fs off r pos :
  wal rc off rs fs → reading r pos (lay rc log off fs) → aligned pos off → knows_log r →
  (length (lay rc log off fs) < fuel)%nat →
  wp (read_all (S (length rs)) fuel uf mode)
    (λ res r', res = rs ∧ quiet r r' ∧ eof_ r' = true ∧
      ∃ pos', reading r' pos' [] ∧ aligned pos' (lay_end rc off fs)) r.
Proof using KOk.
  intros Hw Hr Hal Hnum Hfuel. rewrite <- (app_nil_r (lay rc log off fs)) in Hr, Hfuel.
  eapply (wp_read_wal_then (λ r r', quiet r r' ∧ eof_ r' = true ∧ ∃ pos', reading r' pos' [] ∧
    aligned pos' (lay_end rc off fs))); [..|exact Hw|exact Hr|done|done|done].
  { intros r0 r1 r2 Hq [Hs H]. split; [by eapply quiet_trans|done]. }
  intros r0 pos0 _ Hr0 Hal0 Hnum0. unfold Reader_ReadRecord. wp_step. wp_step. destruct fuel as [|fuel]; [lia|].
  eapply wp_mono; [by eapply wp_eof_end, reading_reset|]. intros res r' (-> & Hr' & He & Hq). split; [done|].
  split; [done|]. split; [done|]. by exists pos0.
Qed.

(** ** A file that held another log *)

(** A record of a log with another number ends the log. *)
Lemma wp_ReadRecord_old fuel uf mode rs fs off r pos R :
  wal rc off rs fs → rs ≠ [] → reading r pos (lay rc log off fs ++ R) → aligned pos off →
  rc = true → 0 ≤ log < 2 ^ 32 → reader_log_number_ r ≠ log → skip_any mode = false →
  (length (lay rc log off fs ++ R) < fuel)%nat →
  wp (Reader_ReadRecord fuel uf mode) (λ res r', res = None ∧ quiet r r') r.
Proof.
  intros Hw Hrs Hr Hal Hrc Hlog Hne Hm Hfuel. unfold Reader_ReadRecord. wp_step. wp_step.
  pose proof Hal as [Ho _]. pose proof (room_at_range rc off Ho) as Hroom.
  destruct Hw as [|off p rs fs gs Hl Hw]; [done|]. apply reading_reset in Hr.
  inversion Hl as [? ? ? Hp|? ? ? fs' Hp Hl']; subst fs.
  all: cbn [app lay] in Hr, Hfuel; rewrite <- !app_assoc in Hr, Hfuel;
    eapply wp_mono; [eapply wp_round_old; [exact Hr|done|apply record_type_frag| |exact Hrc|exact Hlog|exact Hne|exact Hm|exact Hfuel]|intros res r' [-> Hq]; done].
  all: unfold room_at in *; pose proof (size_take_n (kBlockSize - start_off rc off - hs rc) p); lia.
Qed.

(** ** A file that grows *)

(** After [UnmarkEOF] the reader goes on with what was added to the file. *)
Lemma wp_UnmarkEOF r pos f l :
  reading r pos [] → eof_ r = true → left_to_read f l →
  wp UnmarkEOF (λ _ r', reading r' pos l ∧ quiet r r') (set_file f r).
Proof.
  intros (rest & _ & HR & He & Hu & Hend & Hpos & Hblk) Heof Hl. rewrite Heof in Hblk.
  destruct Hblk as (-> & Hlt & Hoff). rewrite app_nil_r in HR. rewrite <- HR in *.
  change (size []) with 0 in *. rewrite Z.add_0_r in *. pose proof (size_nonneg l) as Hsl.
  pose proof (Z.mod_pos_bound pos kBlockSize ltac:(wal_lia)) as Hm.
  unfold UnmarkEOF. wp_step. wp_step. cbn [read_error_ set_file eof_offset_]. rewrite He. do 2 wp_step.
  destruct (Z.eqb_spec (eof_offset_ r) 0) as [H0|H0].
  { wp_step. split; [|done]. exists l. cbn [set_eof set_file buffer_ file_ read_error_ uncompress_ end_of_buffer_offset_ eof_].
    rewrite <- HR. change (size []) with 0. rewrite !Z.add_0_r.
    do 6 (split; [done|]). split; [lia|wal_lia]. }
  unfold UnmarkEOFInternal. wp_step. wp_step. cbn [eof_offset_ set_eof set_file]. wp_step.
  eapply wp_mono; [apply wp_in_file, src_Read_ok; [exact Hl|lia]|]. intros res r1 (f' & -> & -> & Hf').
  set (n := Z.to_nat (kBlockSize - eof_offset_ r)) in *.
  assert (Htk : size (take n l) = Z.min (kBlockSize - eof_offset_ r) (size l)) by (apply size_take_n; lia).
  do 2 wp_step. change (ok OK) with true. cbn [negb]. wp_step. wp_step.
  cbn [buffer_ set_file set_eof set_end_of_buffer]. rewrite <- HR. cbn [app].
  destruct (Z.ltb_spec (size (take n l)) (kBlockSize - eof_offset_ r)) as [Hs|Hs].
  all: wp_step; (split; [|done]); exists (drop n l);
    cbn [set_eof set_file set_buffer set_end_of_buffer buffer_ file_ read_error_ uncompress_
         end_of_buffer_offset_ eof_ eof_offset_];
    (split; [done|]); (split; [by rewrite take_drop|]); do 2 (split; [done|]); (split; [lia|]); (split; [done|]).
  - rewrite drop_ge by (unfold size in *; lia). split; [done|]. lia.
  - split; [|wal_lia]. rewrite <- Z.add_mod_idemp_l, <- Hoff, Htk by wal_lia.
    rewrite Z.min_l by lia. replace (eof_offset_ r + (kBlockSize - eof_offset_ r)) with kBlockSize by lia.
    apply Z.mod_same. wal_lia.
Qed.

End log.

(** * RocksDB: a damaged record of a write-ahead log

    What the reader does with a fragment whose checksum is not that of its bytes: it gives
    up the rest of the block, and reports what it dropped. *)

Section corrupt.
Context {F : Type} {LS : LogSource F} {LSOk : LogSourceOk F LS}.
Context {K : Crc32c} {KC : CrcCombine} {KOk : CrcLogOk K KC} {Z_ : StreamingCompression}.
Implicit Types (r : Reader F) (R : slice).
Variables (rc : bool) (log : Z).

(** The fragment of [p] with other bytes in the place of its payload. *)
Definition tampered (t : Z) (p p' : slice) : slice :=
  EncodeFixed32 (crc32c_Mask (crc32c_Value (t :: log_bytes rc log ++ p))) ++
  [size p' mod 2 ^ 8; size p' / 2 ^ 8; t] ++ log_bytes rc log ++ p'.

Lemma phys_tampered t p : phys rc log (t, p) = tampered t p p.
Proof. done. Qed.
Lemma size_tampered t p p' : size (tampered t p p') = hs rc + size p'.
Proof. exact (size_phys rc log (t, p')). Qed.

(** The header of the fragment. *)
Definition header_of (t : Z) (p : slice) : slice :=
  EncodeFixed32 (crc32c_Mask (crc32c_Value (t :: log_bytes rc log ++ p))) ++
  [size p mod 2 ^ 8; size p / 2 ^ 8; t] ++ log_bytes rc log.

Lemma tampered_header t p p' : length p = length p' → tampered t p p' = header_of t p ++ p'.
Proof. intros Hlen. unfold tampered, header_of, size. by rewrite <- Hlen, <- !app_assoc. Qed.

(** A record that ends before its block does is one fragment. *)
Lemma laid_last off p gs q :
  laid rc off true p gs → aligned q off → q mod kBlockSize + size (lay rc log off gs) < kBlockSize →
  gs = [(record_type rc true true, p)] ∧ padding rc off = [].
Proof.
  intros Hl Hal. rewrite (aligned_mod _ _ Hal). destruct Hal as [Ho _]. intros Hlt.
  pose proof (hs_range rc) as Hhs. pose proof (size_nonneg p) as Hp.
  assert (Hfirst : ∀ f fs, lay rc log off (f :: fs) = lay rc log off gs →
    size (padding rc off) + (hs rc + size f.2) ≤ size (lay rc log off gs)).
  { intros f fs <-. cbn [lay]. rewrite !size_app, size_phys. pose proof (size_nonneg (lay rc log
      (start_off rc off + hs rc + size f.2) fs)). lia. }
  assert (Hpad : padding rc off = [] ∧ off mod kBlockSize = start_off rc off).
  { assert (∃ f fs, gs = f :: fs) as (f & fs & Hgs) by (inversion Hl; eauto). subst gs.
    specialize (Hfirst f fs eq_refl). pose proof (size_nonneg f.2). unfold padding, start_off in *.
    destruct (Z.ltb_spec (kBlockSize - off) (hs rc)).
    - unfold size in Hfirst at 1. rewrite length_replicate in Hfirst. assert (off = kBlockSize) as ->.
      { destruct (decide (off = kBlockSize)); [done|]. rewrite Z.mod_small in Hlt by lia. lia. }
      rewrite Z.sub_diag. done.
    - split; [done|]. apply Z.mod_small. lia. }
  destruct Hpad as [Hpad Hmod]. split; [|done].
  inversion Hl as [? ? ? Hroom|? ? ? fs Hroom Hl']; subst; [done|]. exfalso.
  specialize (Hfirst _ fs eq_refl). pose proof (room_at_range rc off Ho). cbn [snd] in Hfirst.
  rewrite size_take_n, Z.min_l, Hpad in Hfirst by lia. change (size []) with 0 in Hfirst.
  unfold room_at in *. lia.
Qed.

Lemma wp_parse_bad fuel uf r pos t p p' :
  reading r pos (tampered t p p') → buffer_ r = tampered t p p' → frag_type rc t → size p' ≤ 0xffff →
  knows_log rc log r → checksum_ r = true →
  crc32c_Value (t :: log_bytes rc log ++ p') ≠ crc32c_Value (t :: log_bytes rc log ++ p) →
  wp (read_physical (S fuel) uf)
    (λ res r', res = (kBadRecordChecksum, [], hs rc + size p') ∧
      reading r' (pos + (hs rc + size p')) [] ∧ quiet r r') r.
Proof.
  intros Hr Hb Ht Hlen Hnum Hck Hcrc. pose proof (hs_range rc) as Hhs. pose proof (size_nonneg p') as Hsp.
  destruct (frag_type_facts rc t Ht) as (Hct & Hrec & Hzero).
  assert (Hsz : size (buffer_ r) = hs rc + size p') by (by rewrite Hb, size_tampered).
  cbn [read_physical]. wp_step. wp_step. rewrite (proj2 (Z.ltb_ge _ kHeaderSize)) by wal_lia. rewrite Hb.
  do 3 (wp_step; eapply wp_load; [reflexivity|]). cbv zeta.
  rewrite Hct, Hrec, lor_len by lia. fold (hs rc). rewrite <- Hb.
  apply (wp_seq (λ _ r1, reading r1 pos (tampered t p p') ∧ quiet r r1 ∧ buffer_ r1 = buffer_ r)).
  { wp_step; [wp_step|]; done. }
  intros _ r1 (Hr1 & Hq1 & Hb1).
  assert (rc && (size (buffer_ r) <? kRecyclableHeaderSize) = false) as ->.
  { unfold hs in Hsz. destruct rc; [|done]. apply Z.ltb_ge. lia. }
  rewrite (proj2 (Z.ltb_ge _ (hs rc + size p'))) by lia. rewrite Hb.
  assert (rc && negb (DecodeFixed32 (drop 7 (tampered t p p')) =? reader_log_number_ r) = false) as ->.
  { assert (Hh : rc = true → DecodeFixed32 (drop 7 (tampered t p p')) = reader_log_number_ r).
    { intros Hrc. destruct (Hnum Hrc) as [Hlog ->]. rewrite <- (app_nil_r (tampered t p p')).
      exact (header_log rc log t p' [] Hrc Hlog). }
    apply andb_false_iff. destruct (bool_decide (rc = true)) eqn:Hd.
    - right. apply bool_decide_eq_true in Hd. by rewrite (Hh Hd), Z.eqb_refl.
    - left. apply bool_decide_eq_false in Hd. by destruct rc. }
  rewrite (proj2 (Z.eqb_neq t kZeroType)) by done. cbn [andb].
  assert (DecodeFixed32 (tampered t p p') = crc32c_Mask (crc32c_Value (t :: log_bytes rc log ++ p))) as ->
    by (rewrite <- (header_crc rc log t p []); done).
  rewrite Unmask_Mask by apply log_crc_range. change (drop 6 (tampered t p p')) with (t :: log_bytes rc log ++ p').
  rewrite take_ge by (pose proof (size_log_bytes rc log); unfold size in *; cbn [length]; rewrite length_app; lia).
  rewrite (proj2 (Z.eqb_neq _ _)) by done. rewrite Hck. cbn [negb andb].
  wp_step. wp_step. rewrite size_tampered. split; [done|]. split; [|done].
  replace [] with (drop (Z.to_nat (hs rc + size p')) (tampered t p p'))
    by (apply drop_ge; pose proof (size_tampered t p p'); unfold size in *; lia).
  eapply reading_advance; [exact Hr1|rewrite Hb1, Hsz; lia|].
  by rewrite Hb1, Hb, drop_ge by (pose proof (size_tampered t p p'); unfold size in *; lia).
Qed.

(** A damaged record at the end of the log, in the last block. *)
Lemma wp_ReadRecord_bad fuel uf mode r pos begin end_ p p' :
  reading r pos (tampered (record_type rc begin end_) p p') →
  pos mod kBlockSize + (hs rc + size p') < kBlockSize → knows_log rc log r → checksum_ r = true →
  crc32c_Value (record_type rc begin end_ :: log_bytes rc log ++ p') ≠
    crc32c_Value (record_type rc begin end_ :: log_bytes rc log ++ p) → (1 < fuel)%nat →
  wp (Reader_ReadRecord fuel uf mode) (λ res r', res = None ∧
    (tolerate_tail mode = false →
      reported r' = reported r ++ [(hs rc + size p', "checksum mismatch"%string)])) r.
Proof using KOk.
  intros Hr Hfit Hnum Hck Hcrc Hfuel. unfold Reader_ReadRecord. wp_step. wp_step.
  apply reading_reset in Hr. revert Hr. set (r0 := set_uncompress _ _ _ r). intros Hr.
  destruct fuel as [|[|fuel]]; [lia..|].
  eapply wp_loop with (P := λ res r1, res = (kBadRecordChecksum, [], hs rc + size p') ∧
    reading r1 (pos + (hs rc + size p')) [] ∧ quiet r0 r1).
  - pose proof (hs_range rc) as Hhs. pose proof (Z.mod_pos_bound pos kBlockSize ltac:(wal_lia)) as Hpm.
    apply (wp_last_block _ _ _ _ _ _ Hr); [by rewrite size_tampered|]. intros fu r1 Hr1 Hq1 Hb1 _.
    eapply wp_mono; [eapply wp_parse_bad; [exact Hr1|exact Hb1|apply record_type_frag|wal_lia|..|exact Hcrc]|].
    + by eapply (quiet_knows rc log r0).
    + destruct Hq1 as (_ & -> & _). done.
    + intros res r2 (-> & Hr2 & Hq2). split; [done|]. split; [done|]. by eapply quiet_trans.
  - intros res r1 po (-> & Hr1 & Hq1). cbn [fst snd].
    change (dispatch mode kBadRecordChecksum [] (hs rc + size p') po [] false 0)
      with (_ <- get ;; bad_checksum (F := F) mode "checksum mismatch" (hs rc + size p') [] false 0).
    unfold bad_checksum. do 5 wp_step. destruct (recycled_ r1 && tolerate_tail mode) eqn:Ht.
    { wp_step. cbn [finish_round]. wp_step. split; [done|]. intros Hm. by rewrite Hm, andb_false_r in Ht. }
    unfold ReportCorruption, ReportDrop, bad_record. cbn [when]. do 5 wp_step. cbn [finish_round].
    eapply wp_mono; [by eapply wp_eof_end|]. intros res r2 (-> & _ & _ & (Hq & _)). split; [done|].
    intros _. rewrite Hq. cbn [reported]. by destruct Hq1 as (-> & _).
Qed.
End corrupt.
