(* ===== verification/FileSpec.v ===== *)
(** * RocksDB: what a buffered writer writes

    The laws of a file, and the specification of [WritableFileWriter] on a file with
    buffered input and output: what was appended is in the file and in the buffer, and
    after a flush it is in the file. *)

From stdpp Require Import base numbers option list gmap.
From S2P Require Import Prelude ZenCoding ZenTypes WalOps FileOps WalWrite.

(** ** Files that work

    [file_holds f l]: the bytes of the file.  A call may fail, and then nothing is said of
    the file; a call that returns OK has done what it was asked for.  The checksum that is
    handed off with data must be theirs, and positioned appends of a file with direct input
    and output must be of whole pages. *)

Definition handed_off `{Crc32c} (data : slice) (c : option slice) : Prop :=
  c = None ∨ c = Some (EncodeFixed32 (crc32c_Value data)).

(** What does not change over the life of a file. *)
Definition same_file `{FSWritableFile W} (f f' : W) : Prop :=
  f_use_direct_io f' = f_use_direct_io f ∧ f_GetRequiredBufferAlignment f' = f_GetRequiredBufferAlignment f.

Class FSWritableFileOk W (FW : FSWritableFile W) (K : Crc32c) := {
  file_holds : W → slice → Prop;
  file_bound f l : file_holds f l → size l < 2 ^ 63;
  f_PrepareWrite_ok f l o n : file_holds f l →
    wp (f_PrepareWrite o n) (λ _ f', file_holds f' l ∧ same_file f f') f;
  f_Append_ok f l data c : file_holds f l → handed_off data c →
    wp (f_Append data c) (λ s f', ok s = true → file_holds f' (l ++ data) ∧ same_file f f') f;
  f_PositionedAppend_ok f l data off c : file_holds f l → handed_off data c → 0 ≤ off ≤ size l →
    off mod f_GetRequiredBufferAlignment f = 0 → size data mod f_GetRequiredBufferAlignment f = 0 →
    wp (f_PositionedAppend data off c) (λ s f', ok s = true →
      file_holds f' (take (Z.to_nat off) l ++ data ++ drop (Z.to_nat (off + size data)) l) ∧ same_file f f') f;
  f_Truncate_ok f l n : file_holds f l → 0 ≤ n ≤ size l →
    wp (f_Truncate n) (λ s f', ok s = true → file_holds f' (take (Z.to_nat n) l) ∧ same_file f f') f;
  f_Flush_ok f l : file_holds f l →
    wp f_Flush (λ s f', ok s = true → file_holds f' l ∧ same_file f f') f;
  f_Fsync_ok f l : file_holds f l →
    wp f_Fsync (λ s f', ok s = true → file_holds f' l ∧ same_file f f') f;
  f_Sync_ok f l : file_holds f l →
    wp f_Sync (λ s f', ok s = true → file_holds f' l ∧ same_file f f') f;
  f_RangeSync_ok f l o n : file_holds f l →
    wp (f_RangeSync o n) (λ s f', ok s = true → file_holds f' l ∧ same_file f f') f
}.

Section spec.
Context {W : Type} {FW : FSWritableFile W} {K : Crc32c} {KC : CrcCombine}.
Context {KOk : CrcLogOk K KC} {FOk : FSWritableFileOk W FW K}.
Implicit Types (w : WritableFileWriter W) (f : W) (l : slice).

Lemma same_refl f : same_file f f.
Proof. done. Qed.
Lemma same_trans f1 f2 f3 : same_file f1 f2 → same_file f2 f3 → same_file f1 f3.
Proof. intros [] []. split; congruence. Qed.

Lemma wp_on_file {A} (c : ST W A) (Q : A → W → Prop) w f :
  writable_file_ w = Some f → wp c Q f →
  wp (on_file c) (λ a w', ∃ f', w' = set_wfile (Some f') w ∧ Q a f') w.
Proof.
  intros Hf Hc. unfold on_file, wp in *. rewrite Hf. destruct (c f) as [a f'|]; [|done]. by exists f'.
Qed.

Lemma wp_use_direct w f Q :
  writable_file_ w = Some f → Q (f_use_direct_io f) w → wp use_direct_io Q w.
Proof.
  intros Hf HQ. eapply wp_mono; [apply (wp_on_file _ (λ d f', d = f_use_direct_io f ∧ f' = f) _ _ Hf); done|].
  intros d w' (f' & -> & -> & ->). destruct w. cbn in Hf. subst. done.
Qed.

Lemma wp_fail s w Q : Q s (set_seen_error w) → wp (fail s) Q w.
Proof. done. Qed.

(** Whether checksums are kept of what is in the buffer. *)
Definition checked w : bool := perform_data_verification_ w && buffered_data_with_checksum_ w.

(** Up to where the writer may have synced a file of a size. *)
Definition sync_point (n : Z) : Z :=
  if 1024 * 1024 <? n then (n - 1024 * 1024) - (n - 1024 * 1024) mod (4 * 1024) else 0.

(** The writer of a file with buffered input and output, to which [l] was appended. *)
Record buffered w l : Prop := {
  bf_file : ∃ f l0, writable_file_ w = Some f ∧ f_use_direct_io f = false ∧ file_holds f l0 ∧
    l = l0 ++ contents (buf_ w);
  bf_err : seen_error_ w = false;
  bf_size : filesize_ w = size l;
  bf_cap : CurrentSize (buf_ w) ≤ capacity_of (buf_ w) < 2 ^ 63;
  bf_grow : 0 < capacity_of (buf_ w) ∨ max_buffer_size_ w ≤ 0;
  bf_max : 0 < alignment_ (buf_ w) ∧ max_buffer_size_ w + alignment_ (buf_ w) ≤ 2 ^ 63;
  bf_bytes : bytes (contents (buf_ w));
  bf_crc : checked w = true → buffered_data_crc32c_checksum_ w = crc32c_Value (contents (buf_ w)) ∧ rate_limiter_ w = None;
  bf_limiter : ∀ rl, rate_limiter_ w = Some rl → 0 < GetSingleBurstBytes rl;
  bf_sync : last_sync_size_ w ≤ sync_point (filesize_ w)
}.

(** ** Writing the buffer *)

(** What writing changes of a writer. *)
Definition put_out (f : W) (n c : Z) (b : AlignedBuffer) w : WritableFileWriter W :=
  set_data_crc c (set_buf b (set_flushed n (set_wfile (Some f) w))).

Lemma allowed_range rl opts left :
  0 < left → (∀ rl', rl = Some rl' → 0 < GetSingleBurstBytes rl') → 0 < allowed rl opts left 0 ≤ left.
Proof.
  intros Hl Hrl. unfold allowed, RequestToken. destruct rl as [rl|]; [|lia]. specialize (Hrl rl eq_refl).
  destruct (bool_decide (opts ≠ IO_TOTAL)); [|lia]. destruct (IsRateLimited rl kWrite); cbn [andb]; [|lia].
  change (0 <? 0) with false. cbv iota. lia.
Qed.

Lemma wp_buffered_loop fuel opts src w f l0 :
  writable_file_ w = Some f → file_holds f l0 → (∀ rl, rate_limiter_ w = Some rl → 0 < GetSingleBurstBytes rl) →
  (length src ≤ fuel)%nat →
  wp (write_buffered_loop fuel opts src) (λ s w', ok s = true → ∃ f' n,
    w' = put_out f' n 0 (buf_Size 0 (buf_ w)) w ∧ file_holds f' (l0 ++ src) ∧ same_file f f') w.
Proof.
  revert src w f l0. induction fuel as [|fuel IH]; intros src w f l0 Hf Hl Hrl Hfuel.
  all: cbn [write_buffered_loop]; destruct (Nat.eqb_spec (length src) 0) as [E|E]; [|lia || idtac].
  1, 2: apply nil_length_inv in E as ->; do 2 wp_step; wp_step; intros _; exists f, (flushed_size_ w);
    rewrite app_nil_r; (split; [|done]); destruct w; cbn in Hf; by subst.
  do 2 wp_step. set (n := allowed _ _ _ _).
  assert (Hn : 0 < n ≤ size src) by (apply allowed_range; [unfold size; lia|done]).
  wp_step. eapply wp_mono; [eapply wp_on_file; [exact Hf|apply (f_Append_ok f l0); [done|]]|].
  { destruct (perform_data_verification_ w); [by right|by left]. }
  intros s w1 (f1 & -> & Hs). destruct (ok s) eqn:Hok; cbn [negb]; [|do 2 wp_step; apply wp_fail; congruence].
  destruct (Hs eq_refl) as [Hl1 Hsame1]. wp_step. wp_step. eapply wp_mono; [eapply (IH _ _ f1); [done|exact Hl1|done|]|].
  { rewrite length_drop. unfold size in *. lia. }
  intros s2 w2 Hs2 Hok2. destruct (Hs2 Hok2) as (f2 & m & -> & Hl2 & Hsame2). exists f2, m.
  rewrite <- app_assoc, take_drop in Hl2. split; [done|]. split; [done|]. by eapply same_trans.
Qed.

Lemma wp_WriteBuffered opts data w f l0 :
  writable_file_ w = Some f → f_use_direct_io f = false → file_holds f l0 → seen_error_ w = false →
  (∀ rl, rate_limiter_ w = Some rl → 0 < GetSingleBurstBytes rl) →
  wp (WriteBuffered opts data) (λ s w', ok s = true → ∃ f' n,
    w' = put_out f' n 0 (buf_Size 0 (buf_ w)) w ∧ file_holds f' (l0 ++ data) ∧ same_file f f') w.
Proof.
  intros Hf Hd Hl Hs Hrl. unfold WriteBuffered. do 2 wp_step. rewrite Hs. wp_step.
  apply (wp_use_direct _ _ _ Hf). rewrite Hd. do 2 wp_step; [done|]. by apply wp_buffered_loop.
Qed.

(** With checksums: that of the data was computed before. *)
Lemma wp_WriteChecked opts data w f l0 :
  writable_file_ w = Some f → f_use_direct_io f = false → file_holds f l0 → seen_error_ w = false →
  rate_limiter_ w = None → checked w = true → buffered_data_crc32c_checksum_ w = crc32c_Value data →
  wp (WriteBufferedWithChecksum opts data) (λ s w', ok s = true → ∃ f' n,
    w' = put_out f' n 0 (buf_Size 0 (buf_ w)) w ∧ file_holds f' (l0 ++ data) ∧ same_file f f') w.
Proof.
  intros Hf Hd Hl Hs Hrl Hck Hcrc. unfold WriteBufferedWithChecksum. do 2 wp_step. rewrite Hs. wp_step.
  apply (wp_use_direct _ _ _ Hf). rewrite Hd. do 2 wp_step; [done|]. do 2 wp_step; [exact Hck|].
  unfold wait_for_limiter. do 3 wp_step. rewrite Hrl. wp_step. wp_step. rewrite Hcrc.
  eapply wp_mono; [eapply wp_on_file; [exact Hf|apply (f_Append_ok f l0); [done|by right]]|].
  intros s w1 (f1 & -> & Hs1). do 2 wp_step. destruct (ok s) eqn:Hok; cbn [negb]; [|apply wp_fail; congruence].
  do 3 wp_step. intros _. destruct (Hs1 eq_refl). eexists f1, _. done.
Qed.

Lemma wp_write_out opts w l :
  buffered w l →
  wp (write_out opts) (λ s w', ok s = true → ∃ f f' n, writable_file_ w = Some f ∧
    w' = put_out f' n 0 (buf_Size 0 (buf_ w)) w ∧ file_holds f' l ∧ same_file f f') w.
Proof.
  intros H. destruct (bf_file _ _ H) as (f & l0 & Hf & Hd & Hl & ->). unfold write_out. do 3 wp_step.
  apply (wp_use_direct _ _ _ Hf). rewrite Hd. fold (checked w). destruct (checked w) eqn:Hck.
  - destruct (bf_crc _ _ H Hck) as [Hcrc Hrl].
    eapply wp_mono; [apply wp_WriteChecked; try done; apply H|]. intros s w' Hs Hok.
    destruct (Hs Hok) as (f' & n & ?). by exists f, f', n.
  - eapply wp_mono; [apply wp_WriteBuffered; try done; apply H|]. intros s w' Hs Hok.
    destruct (Hs Hok) as (f' & n & ?). by exists f, f', n.
Qed.

Lemma sync_point_range n : 0 ≤ n → 0 ≤ sync_point n ≤ n.
Proof.
  intros Hn. unfold sync_point. destruct (Z.ltb_spec (1024 * 1024) n); [|lia].
  pose proof (Z.mod_pos_bound (n - 1024 * 1024) (4 * 1024) ltac:(lia)).
  pose proof (Z.mod_le (n - 1024 * 1024) (4 * 1024) ltac:(lia) ltac:(lia)). lia.
Qed.
Lemma sync_point_mono n m : n ≤ m → sync_point n ≤ sync_point m.
Proof.
  intros Hn. unfold sync_point. destruct (Z.ltb_spec (1024 * 1024) n), (Z.ltb_spec (1024 * 1024) m); [|lia| |lia].
  - rewrite !Zmod_eq_full by lia. pose proof (Z.div_le_mono (n - 1024 * 1024) (m - 1024 * 1024) (4 * 1024)). lia.
  - pose proof (Z.mod_le (m - 1024 * 1024) (4 * 1024)). lia.
Qed.

Lemma wp_sync_behind opts s w f l0 :
  writable_file_ w = Some f → f_use_direct_io f = false → file_holds f l0 → seen_error_ w = false →
  last_sync_size_ w ≤ sync_point (filesize_ w) → ok s = true →
  wp (sync_behind opts s) (λ s' w', ok s' = true → ∃ f' m, w' = set_last_sync m (set_wfile (Some f') w) ∧
    file_holds f' l0 ∧ same_file f f' ∧ m ≤ sync_point (filesize_ w)) w.
Proof.
  intros Hf Hd Hl He Hls Hs.
  assert (Hsame : ∃ f' m, w = set_last_sync m (set_wfile (Some f') w) ∧
    file_holds f' l0 ∧ same_file f f' ∧ m ≤ sync_point (filesize_ w)).
  { exists f, (last_sync_size_ w). split_and!; try done. destruct w. cbn in Hf. by subst. }
  unfold sync_behind. do 3 wp_step. apply (wp_use_direct _ _ _ Hf). rewrite Hd. cbn [negb andb].
  destruct (negb (bytes_per_sync_ w =? 0)); cbn [andb]; [|by wp_step].
  destruct (Z.ltb_spec (1024 * 1024) (filesize_ w)) as [Hbig|Hbig]; [|by wp_step].
  assert (Hsp : sync_point (filesize_ w) = filesize_ w - 1024 * 1024 - (filesize_ w - 1024 * 1024) mod (4 * 1024)).
  { unfold sync_point. by rewrite (proj2 (Z.ltb_lt _ _)). }
  rewrite <- Hsp. do 2 wp_step; [by apply Z.leb_le|].
  destruct ((0 <? sync_point (filesize_ w)) && _); [|by wp_step]. wp_step. unfold WFW_RangeSync. do 2 wp_step.
  rewrite He. wp_step. eapply wp_mono; [eapply wp_on_file; [exact Hf|by apply (f_RangeSync_ok f l0)]|].
  intros s1 w1 (f1 & -> & Hs1). destruct (ok s1) eqn:Hok; cbn [negb].
  - do 2 wp_step. rewrite Hok. cbn [negb when]. do 4 wp_step. intros _. destruct (Hs1 eq_refl).
    exists f1, (sync_point (filesize_ w)). done.
  - apply wp_fail. wp_step. rewrite Hok. cbn [negb when]. do 4 wp_step. congruence.
Qed.

(** ** Flush *)

(** The writer after its buffer was written. *)
Definition flushed (f : W) (n c m : Z) w : WritableFileWriter W :=
  set_last_sync m (put_out f n c (buf_Size 0 (buf_ w)) w).

Lemma buffered_flushed w l f f' n c m :
  buffered w l → writable_file_ w = Some f → same_file f f' → file_holds f' l →
  (checked w = true → c = crc32c_Value []) → m ≤ sync_point (filesize_ w) →
  buffered (flushed f' n c m w) l.
Proof.
  intros H Hf [Hd _] Hl Hc Hm. destruct (bf_file _ _ H) as (f0 & l0 & Hf0 & Hd0 & _). rewrite Hf in Hf0.
  injection Hf0 as <-. pose proof (bf_cap _ _ H) as Hcap. pose proof (size_nonneg (contents (buf_ w))).
  split; try apply H.
  - exists f', l. cbn. rewrite app_nil_r, Hd. done.
  - change (0 ≤ capacity_of (buf_ w) < 2 ^ 63). unfold CurrentSize in Hcap. lia.
  - constructor.
  - intros Hck. split; [by apply Hc|]. by apply (bf_crc _ _ H).
  - done.
Qed.

Lemma wp_WFW_Flush opts w l :
  buffered w l →
  wp (WFW_Flush opts) (λ s w', ok s = true → ∃ f n c m, w' = flushed f n c m w ∧ file_holds f l ∧ buffered w' l) w.
Proof.
  intros H. pose proof log_crc_nil as H0. destruct (bf_file _ _ H) as (f & l0 & Hf & Hd & Hl & Hll). unfold WFW_Flush. do 2 wp_step.
  rewrite (bf_err _ _ H). wp_step.
  apply (wp_mono _ (λ s w', ok s = true → ∃ f' n c, w' = put_out f' n c (buf_Size 0 (buf_ w)) w ∧
    file_holds f' l ∧ same_file f f' ∧ (checked w = true → c = crc32c_Value []))).
  { destruct (Z.ltb_spec 0 (CurrentSize (buf_ w))) as [Hne|Hne].
    - eapply wp_mono; [by apply wp_write_out|]. intros s w' Hs Hok.
      destruct (Hs Hok) as (f0 & f' & n & Hf0 & -> & Hl' & Hsame). rewrite Hf in Hf0. injection Hf0 as <-.
      exists f', n, 0. done.
    - wp_step. intros _. exists f, (flushed_size_ w), (buffered_data_crc32c_checksum_ w).
      assert (Hnil : contents (buf_ w) = []).
      { apply nil_length_inv. unfold CurrentSize, size in Hne. lia. }
      split; [|split; [by rewrite Hll, Hnil, app_nil_r|split; [done|]]].
      + destruct w as [fo b ? ? ? ? ? ? ? ? ? ? ? ? ?]. cbn in *. subst. destruct b. cbn in Hnil. by subst.
      + intros Hck. destruct (bf_crc _ _ H Hck) as [-> _]. by rewrite Hnil. }
  intros s w1 Hs. destruct (ok s) eqn:Hok; cbn [negb]; [|apply wp_fail; congruence].
  destruct (Hs eq_refl) as (f1 & n & c & -> & Hl1 & Hs1 & Hc). wp_step.
  eapply wp_mono; [eapply wp_on_file; [reflexivity|by apply (f_Flush_ok f1 l)]|].
  intros s2 w2 (f2 & -> & Hs2). destruct (ok s2) eqn:Hok2; cbn [negb]; [|apply wp_fail; congruence].
  destruct (Hs2 eq_refl) as [Hl2 Hsame2]. assert (Hs12 := same_trans _ _ _ Hs1 Hsame2).
  eapply wp_mono; [apply (wp_sync_behind _ _ _ f2 l); [done| |done|apply H|apply H|done]|].
  { destruct Hs12 as [-> _]. done. }
  intros s3 w3 Hs3 Hok3. destruct (Hs3 Hok3) as (f3 & m & -> & Hl3 & Hsame3 & Hm).
  exists f3, n, c, m. split; [done|]. split; [done|].
  eapply (buffered_flushed w l f f3 n c m); [done|done|by eapply same_trans|done|done|exact Hm].
Qed.

(** ** Append *)

Lemma Roundup_range x y : 0 < y → x ≤ Roundup x y < x + y.
Proof.
  intros Hy. unfold Roundup. pose proof (Z.div_mod (x + y - 1) y ltac:(lia)).
  pose proof (Z.mod_pos_bound (x + y - 1) y Hy). lia.
Qed.

Lemma grow_ok fuel direct cap left max b :
  0 < cap → max ≤ 2 ^ Z.of_nat fuel * cap → CurrentSize b ≤ cap → 0 < alignment_ b →
  max + alignment_ b ≤ 2 ^ 63 → CurrentSize b ≤ capacity_of b < 2 ^ 63 → 0 < capacity_of b →
  ∃ b', grow_buffer fuel direct cap left max b = Some b' ∧ contents b' = contents b ∧
    alignment_ b' = alignment_ b ∧ CurrentSize b' ≤ capacity_of b' < 2 ^ 63 ∧ 0 < capacity_of b' ∧
    (capacity_of b mod alignment_ b = 0 → capacity_of b' mod alignment_ b = 0).
Proof.
  revert cap. induction fuel as [|fuel IH]; intros cap Hc Hmax Hcur Ha Hlim Hcap Hpos; cbn [grow_buffer].
  all: destruct (Z.ltb_spec cap max) as [Hlt|Hge]; [|by exists b].
  - change (2 ^ Z.of_nat 0) with 1 in Hmax. lia.
  - rewrite (u64_small (cap * 2)) by lia. rewrite Nat2Z.inj_succ, Z.pow_succ_r in Hmax by lia.
    destruct ((left <=? _) || _); [|apply IH; lia].
    exists (AllocateNewBuffer (Z.min (cap * 2) max) true b). unfold AllocateNewBuffer. cbn [andb].
    rewrite (proj2 (Z.ltb_ge _ _)) by lia. cbn [contents alignment_ capacity_of]. unfold CurrentSize in *.
    cbn [contents]. pose proof (Roundup_range (Z.min (cap * 2) max) (alignment_ b) Ha).
    split_and!; [done..|lia|lia|lia|]. intros _. apply Z_mod_mult.
Qed.

(** What the operations leave alone. *)
Definition kept w w' : Prop :=
  perform_data_verification_ w' = perform_data_verification_ w ∧
  buffered_data_with_checksum_ w' = buffered_data_with_checksum_ w.

Lemma checked_kept w w' : kept w w' → checked w' = checked w.
Proof. unfold checked. by intros [-> ->]. Qed.

Lemma buffered_set_buf w l b :
  buffered w l → contents b = contents (buf_ w) → alignment_ b = alignment_ (buf_ w) →
  CurrentSize b ≤ capacity_of b < 2 ^ 63 → 0 < capacity_of b ∨ max_buffer_size_ w ≤ 0 → buffered (set_buf b w) l.
Proof.
  intros H Hb Ha Hc Hg. split; cbn; rewrite ?Hb, ?Ha; try done; try apply H.
Qed.

Lemma wp_buffer_room opts left w l :
  buffered w l →
  wp (make_room opts left) (λ s w', ok s = true → buffered w' l ∧ kept w w' ∧
    (left ≤ buf_room (buf_ w') ∨ CurrentSize (buf_ w') = 0)) w.
Proof.
  intros H. destruct (bf_file _ _ H) as (f & l0 & Hf & Hd & Hl & Hll). unfold make_room. do 3 wp_step.
  apply (wp_use_direct _ _ _ Hf). rewrite Hd. cbn [negb andb].
  assert (∃ b, (if buf_room (buf_ w) <? left
      then grow_buffer 65 false (capacity_of (buf_ w)) left (max_buffer_size_ w) (buf_ w) else Some (buf_ w)) = Some b ∧
    buffered (set_buf b w) l) as (b & Hb & Hw).
  { destruct (buf_room (buf_ w) <? left); [|exists (buf_ w); split; [done|by destruct w]].
    pose proof (bf_cap _ _ H) as Hcap. destruct (bf_max _ _ H) as [Ha Hm]. destruct (bf_grow _ _ H) as [Hp|Hp].
    - destruct (grow_ok 65 false (capacity_of (buf_ w)) left (max_buffer_size_ w) (buf_ w)) as
        (b & Hb & Hc & Hal & Hcap' & Hpos & _); [lia| |lia|lia|lia|lia|lia|].
      { change (Z.of_nat 65) with 65. lia. }
      exists b. split; [done|]. apply buffered_set_buf; [done..|by left].
    - exists (buf_ w). split; [|by destruct w]. cbn [grow_buffer]. pose proof (size_nonneg (contents (buf_ w))).
      unfold CurrentSize in Hcap. by rewrite (proj2 (Z.ltb_ge _ _)) by lia. }
  wp_step. eapply wp_load; [exact Hb|]. do 2 wp_step. destruct (Z.ltb_spec (buf_room b) left) as [Hr|Hr].
  2: { wp_step. intros _. split; [done|]. split; [done|]. by left. }
  wp_step. apply (wp_mono _ (λ s w', ok s = true → buffered w' l ∧ kept w w' ∧ CurrentSize (buf_ w') = 0)).
  - destruct (Z.ltb_spec 0 (CurrentSize b)) as [Hne|Hne].
    + eapply wp_mono; [by apply wp_WFW_Flush|]. intros s w' Hs Hok.
      destruct (Hs Hok) as (f' & n & c & m & -> & _ & Hw'). done.
    + wp_step. intros _. split; [done|]. split; [done|]. cbn. pose proof (size_nonneg (contents b)).
      unfold CurrentSize in *. lia.
  - intros s w1 Hs. destruct (ok s) eqn:Hok; cbn [negb]; [|apply wp_fail; congruence].
    destruct (Hs eq_refl) as (Hw1 & Hk & Hz). do 2 wp_step. wp_step. wp_step; [by apply Z.eqb_eq|]. wp_step. auto.
Qed.

(** The writer after data went to the file and to the buffer, its size counted. *)
Lemma buffered_append w l data f f' l0 n c b :
  buffered w l → writable_file_ w = Some f → same_file f f' → file_holds f' l0 → l ++ data = l0 ++ contents b →
  alignment_ b = alignment_ (buf_ w) → capacity_of b = capacity_of (buf_ w) → CurrentSize b ≤ capacity_of b →
  bytes (contents b) → (checked w = true → c = crc32c_Value (contents b)) →
  let w' := put_out f' n c b w in
  buffered (set_filesize (u64 (filesize_ w' + size data)) w') (l ++ data).
Proof.
  intros H Hf [Hd _] Hl Hll Ha Hc Hcap Hb Hcrc w'. destruct (bf_file _ _ H) as (f0 & l1 & Hf0 & Hd0 & _).
  rewrite Hf in Hf0. injection Hf0 as <-. pose proof (file_bound _ _ Hl) as Hbd. pose proof (bf_cap _ _ H) as Hcap0.
  assert (Hsz : u64 (filesize_ w' + size data) = size (l ++ data)).
  { change (filesize_ w') with (filesize_ w). rewrite (bf_size _ _ H), <- size_app. apply u64_small.
    split; [apply size_nonneg|]. rewrite Hll, size_app. unfold CurrentSize in *. lia. }
  split; rewrite ?Hsz; cbn; rewrite ?Ha, ?Hc; try apply H; try done.
  - exists f', l0. by rewrite Hd.
  - rewrite <- Hc. lia.
  - intros Hck. split; [by apply Hcrc|]. by apply (bf_crc _ _ H).
  - etrans; [apply H|]. apply sync_point_mono. rewrite (bf_size _ _ H), size_app. pose proof (size_nonneg data). lia.
Qed.

Lemma put_out_same w f c b :
  writable_file_ w = Some f → set_data_crc c (set_buf b w) = put_out f (flushed_size_ w) c b w.
Proof. destruct w. cbn. by intros ->. Qed.

(** What the two ways of appending establish. *)
Definition took (data : slice) l w (s : IOStatus) w' : Prop :=
  ok s = true → buffered (set_filesize (u64 (filesize_ w' + size data)) w') (l ++ data).

(** Data that fits is copied to the buffer. *)
Lemma buf_Append_fits src (b : AlignedBuffer) :
  size src ≤ buf_room b → buf_Append src b = (size src, mk_abuf (alignment_ b) (capacity_of b) (contents b ++ src)).
Proof.
  intros Hr. unfold buf_Append. rewrite Z.min_l by done. f_equal. f_equal. f_equal.
  apply take_ge. unfold size. lia.
Qed.

Lemma buffered_fits w l data f c :
  buffered w l → writable_file_ w = Some f → size data ≤ buf_room (buf_ w) → bytes data →
  (checked w = true → c = crc32c_Value (contents (buf_ w) ++ data)) →
  took data l w OK (set_data_crc c (set_buf (mk_abuf (alignment_ (buf_ w)) (capacity_of (buf_ w))
    (contents (buf_ w) ++ data)) w)).
Proof.
  intros H Hf Hr Hb Hc _. destruct (bf_file _ _ H) as (f0 & l0 & Hf0 & Hd & Hl & ->). rewrite Hf in Hf0.
  injection Hf0 as <-. rewrite (put_out_same _ f) by done.
  eapply (buffered_append w (l0 ++ contents (buf_ w)) data f f l0); try done.
  - by rewrite <- app_assoc.
  - unfold buf_room, CurrentSize in *. cbn [contents capacity_of]. rewrite size_app. lia.
  - apply bytes_app. split; [apply H|done].
Qed.

(** Data that does not fit goes to the file, the buffer being empty. *)
Lemma buffered_written w l data f f' n :
  buffered w l → writable_file_ w = Some f → CurrentSize (buf_ w) = 0 → same_file f f' → file_holds f' (l ++ data) →
  took data l w OK (put_out f' n 0 (buf_Size 0 (buf_ w)) w).
Proof.
  intros H Hf Hz Hs Hl _. pose proof (bf_cap _ _ H).
  eapply (buffered_append w l data f f' (l ++ data)); try done.
  - by rewrite app_nil_r.
  - change (0 ≤ capacity_of (buf_ w)). lia.
  - constructor.
  - intros _. symmetry. apply log_crc_nil.
Qed.

Lemma wp_append_with_checksum opts data crc w l :
  buffered w l → checked w = true → bytes data → crc = crc32c_Value data →
  size data ≤ buf_room (buf_ w) ∨ CurrentSize (buf_ w) = 0 →
  wp (append_with_checksum opts data crc) (took data l w) w.
Proof.
  intros H Hck Hb -> Hroom. destruct (bf_file _ _ H) as (f & l0 & Hf & Hd & Hl & Hll).
  destruct (bf_crc _ _ H Hck) as [Hcrc Hrl]. pose proof (bf_cap _ _ H) as Hcap. pose proof (size_nonneg data) as Hsd.
  unfold append_with_checksum. do 3 wp_step. apply (wp_use_direct _ _ _ Hf). rewrite Hd. cbn [orb].
  destruct (Z.leb_spec (size data) (buf_room (buf_ w))) as [Hfit|Hbig].
  - rewrite buf_Append_fits by done. do 4 wp_step. rewrite Z.eqb_refl. wp_step.
    eapply (buffered_fits w l data f); [done..|]. intros _. cbn [buffered_data_crc32c_checksum_ set_buf].
    rewrite Hcrc. unfold buf_room, CurrentSize in *. pose proof (size_nonneg (contents (buf_ w))).
    unfold crc32c_Value at 1. rewrite log_crc_combine; [|apply log_crc_range|done|lia].
    by rewrite log_crc_app; [|lia|apply H|].
  - destruct Hroom as [Hroom|Hz]; [lia|]. wp_step. wp_step; [by apply Z.eqb_eq|]. do 2 wp_step.
    eapply wp_mono; [apply (wp_WriteChecked _ _ _ f l0); try done; apply H|].
    intros s w' Hs Hok. destruct (Hs Hok) as (f' & n & -> & Hl' & Hsame).
    assert (contents (buf_ w) = []) as Hnil by (apply nil_length_inv; unfold CurrentSize, size in Hz; lia).
    rewrite Hnil, app_nil_r in Hll. subst l0. exact (buffered_written w l data f f' n H Hf Hz Hsame Hl' eq_refl).
Qed.

Lemma wp_fill_fits fuel opts ck data w :
  size data ≤ buf_room (buf_ w) →
  wp (fill_loop (S fuel) opts ck data) (λ s w', s = OK ∧
    w' = set_data_crc (if ck then crc32c_Extend (buffered_data_crc32c_checksum_ w) data else buffered_data_crc32c_checksum_ w)
      (set_buf (mk_abuf (alignment_ (buf_ w)) (capacity_of (buf_ w)) (contents (buf_ w) ++ data)) w) ∨
    s = OK ∧ data = [] ∧ w' = w) w.
Proof.
  intros Hfit. cbn [fill_loop]. destruct (Nat.eqb_spec (length data) 0) as [E|E].
  { apply nil_length_inv in E as ->. wp_step. by right. }
  do 2 wp_step. rewrite buf_Append_fits by done. do 3 wp_step.
  assert (Hd : drop (Z.to_nat (size data)) data = []) by (apply drop_ge; unfold size; lia).
  assert (Ht : take (Z.to_nat (size data)) data = data) by (apply take_ge; unfold size; lia).
  wp_step; [wp_step|]; rewrite ?Hd, ?Ht; cbn [length Nat.eqb]; wp_step; left; (split; [done|]).
  - by subst.
  - subst. by destruct w.
Qed.

Lemma wp_append_plain opts data w l :
  buffered w l → bytes data → size data ≤ buf_room (buf_ w) ∨ CurrentSize (buf_ w) = 0 →
  wp (append_plain opts data) (took data l w) w.
Proof.
  intros H Hb Hroom. destruct (bf_file _ _ H) as (f & l0 & Hf & Hd & Hl & Hll).
  unfold append_plain. do 3 wp_step. apply (wp_use_direct _ _ _ Hf). rewrite Hd. cbn [orb]. fold (checked w).
  destruct (Z.leb_spec (size data) (capacity_of (buf_ w))) as [Hfit|Hbig].
  - assert (Hr : size data ≤ buf_room (buf_ w)) by (unfold buf_room in *; lia).
    eapply wp_mono; [by apply wp_fill_fits|]. intros s w' [[-> ->]|(-> & -> & ->)].
    + eapply (buffered_fits w l data f); [done..|]. intros Hck. rewrite Hck.
      destruct (bf_crc _ _ H Hck) as [-> _]. unfold crc32c_Value. by rewrite log_crc_app; [|lia|apply H|].
    + intros _. rewrite app_nil_r. change (size []) with 0. rewrite Z.add_0_r, u64_small.
      * by destruct w.
      * rewrite (bf_size _ _ H), Hll, size_app. pose proof (file_bound _ _ Hl). pose proof (bf_cap _ _ H).
        pose proof (size_nonneg l0). pose proof (size_nonneg (contents (buf_ w))). unfold CurrentSize in *. lia.
  - assert (Hz : CurrentSize (buf_ w) = 0).
    { destruct Hroom as [Hroom|]; [|done]. unfold buf_room, CurrentSize in *. pose proof (size_nonneg (contents (buf_ w))). lia. }
    assert (contents (buf_ w) = []) as Hnil by (apply nil_length_inv; unfold CurrentSize, size in Hz; lia).
    rewrite Hnil, app_nil_r in Hll. subst l0. wp_step. wp_step; [by apply Z.eqb_eq|]. destruct (checked w) eqn:Hck.
    + do 2 wp_step. eapply wp_mono; [apply (wp_WriteChecked _ _ _ f l); try done; try apply H; exact Hck|].
      intros s w' Hs Hok. destruct (Hs Hok) as (f' & n & -> & Hl' & Hsame).
      exact (buffered_written w l data f f' n H Hf Hz Hsame Hl' eq_refl).
    + eapply wp_mono; [apply (wp_WriteBuffered _ _ _ f l); try done; apply H|].
      intros s w' Hs Hok. destruct (Hs Hok) as (f' & n & -> & Hl' & Hsame).
      exact (buffered_written w l data f f' n H Hf Hz Hsame Hl' eq_refl).
Qed.

Lemma wp_WFW_Append opts data crc w l :
  buffered w l → bytes data → crc = 0 ∨ crc = crc32c_Value data →
  wp (WFW_Append opts data crc) (λ s w', ok s = true → buffered w' (l ++ data)) w.
Proof.
  intros H Hb Hcrc. destruct (bf_file _ _ H) as (f & l0 & Hf & Hd & Hl & Hll). unfold WFW_Append. do 2 wp_step.
  rewrite (bf_err _ _ H). do 3 wp_step.
  eapply wp_mono; [eapply wp_on_file; [exact Hf|by apply (f_PrepareWrite_ok f l0)]|].
  intros [] w1 (f1 & -> & Hl1 & Hsame). set (w1 := set_wfile _ _).
  assert (H1 : buffered w1 l).
  { split; try apply H. exists f1, l0. destruct Hsame as [Hd1 _]. by rewrite Hd1. }
  assert (Hk1 : kept w w1) by done. wp_step. eapply wp_mono; [by apply wp_buffer_room|].
  intros s w2 Hs. destruct (ok s) eqn:Hok; cbn [negb]; [|wp_step; congruence].
  destruct (Hs Hok) as (H2 & Hk2 & Hroom). clear Hs. wp_step.
  assert (Hck : checked w2 = checked w) by (rewrite (checked_kept _ _ Hk2); by apply checked_kept).
  apply (wp_mono _ (took data l w2)).
  { fold (checked w). destruct (checked w && negb (crc =? 0)) eqn:E; [|by apply wp_append_plain].
    apply andb_true_iff in E as [E1 E2]. apply negb_true_iff, Z.eqb_neq in E2.
    apply wp_append_with_checksum; [done|by rewrite Hck|done|by destruct Hcrc|done]. }
  intros s3 w3 Hs3. destruct (ok s3) eqn:Hok3; [|apply wp_fail; congruence].
  do 3 wp_step. intros _. exact (Hs3 Hok3).
Qed.

(** ** A new writer *)

Lemma buffered_new f max bps rl verify ck :
  file_holds f [] → f_use_direct_io f = false → 0 ≤ max → 0 < f_GetRequiredBufferAlignment f →
  max + f_GetRequiredBufferAlignment f ≤ 2 ^ 63 →
  match rl with Some rl => verify && ck = false ∧ 0 < GetSingleBurstBytes rl | None => True end →
  buffered (new_WritableFileWriter f max bps rl verify ck) [].
Proof.
  intros Hf Hd Hm Ha Hlim Hrl. set (al := f_GetRequiredBufferAlignment f) in *.
  pose proof (Roundup_range (Z.min 65536 max) al Ha) as Hr. split; try done.
  - by exists f, [].
  - change (0 ≤ Roundup (Z.min 65536 max) al < 2 ^ 63). lia.
  - change (0 < Roundup (Z.min 65536 max) al ∨ max ≤ 0). destruct (Z.eqb_spec max 0); [right; lia|left; lia].
  - constructor.
  - intros Hck. unfold checked in Hck. cbn in Hck. split; [symmetry; apply log_crc_nil|].
    destruct rl; [|done]. destruct Hrl. congruence.
  - intros rl' E. cbn in E. subst rl. apply Hrl.
Qed.
End spec.

(** ** The writer as the file of a log *)

#[export] Instance file_dest {W} {FW : FSWritableFile W} {K : Crc32c} {KC : CrcCombine} :
    LogDest (WritableFileWriter W) := {|
  dest_Append data crc := WFW_Append IO_TOTAL data crc;
  dest_Flush := WFW_Flush IO_TOTAL;
  dest_Close := WFW_Close IO_TOTAL;
  dest_seen_error := seen_error_
|}.

#[export] Instance file_dest_ok {W} {FW : FSWritableFile W} {K : Crc32c} {KC : CrcCombine}
    {KOk : CrcLogOk K KC} {FOk : FSWritableFileOk W FW K} : LogDestOk (WritableFileWriter W) file_dest K.
Proof.
  refine {| holds_log w l := buffered w l |}.
  - intros w l data crc. apply wp_WFW_Append.
  - intros w l H. eapply wp_mono; [by apply wp_WFW_Flush|]. intros s w' Hs Hok.
    by destruct (Hs Hok) as (f & n & c & m & _ & _ & ?).
Defined.

(** ** Reading

    [rest_of f l]: what is left to read of a file with buffered input; [pages_of f l]: the
    bytes of a file with direct input.  Fewer bytes than asked for are read only at the
    end of the file. *)

Class FSSequentialFileOk F (SF : FSSequentialFile F) := {
  rest_of : F → slice → Prop;
  pages_of : F → slice → Prop;
  s_Read_ok f l n : rest_of f l → 0 ≤ n →
    wp (s_Read n) (λ res f', res = (OK, take (Z.to_nat n) l) ∧ rest_of f' (drop (Z.to_nat n) l) ∧
      s_use_direct_io f' = s_use_direct_io f) f;
  s_PositionedRead_ok f l o n : pages_of f l → 0 ≤ o → 0 ≤ n →
    o mod s_GetRequiredBufferAlignment f = 0 → n mod s_GetRequiredBufferAlignment f = 0 →
    wp (s_PositionedRead o n) (λ res f', res = (OK, take (Z.to_nat n) (drop (Z.to_nat o) l)) ∧ pages_of f' l) f
}.

Section reading.
Context {F : Type} {SF : FSSequentialFile F} {SOk : FSSequentialFileOk F SF}.
Implicit Types (r : SequentialFileReader F).

Lemma wp_on_seq_file {A} (c : ST F A) (Q : A → F → Prop) r :
  wp c Q (seq_file_ r) →
  wp (on_seq_file c) (λ a r', ∃ f', r' = mk_sfr f' (offset_ r) (seq_rate_limiter_ r) ∧ Q a f') r.
Proof. unfold wp, on_seq_file. destruct (c (seq_file_ r)) as [a f|]; [|done]. intros H. by exists f. Qed.

Lemma wp_SFR_Read r l n :
  rest_of (seq_file_ r) l → s_use_direct_io (seq_file_ r) = false → 0 ≤ n →
  wp (SFR_Read n IO_TOTAL) (λ res r', res = (OK, take (Z.to_nat n) l) ∧
    rest_of (seq_file_ r') (drop (Z.to_nat n) l) ∧ s_use_direct_io (seq_file_ r') = false) r.
Proof.
  intros Hl Hd Hn. unfold SFR_Read. do 2 wp_step. rewrite Hd.
  destruct (Z.to_nat n) as [|m] eqn:E; cbn [seq_read_loop].
  - change (size []) with 0. rewrite (proj2 (Z.ltb_ge _ _)) by lia. by wp_step.
  - change (size []) with 0. rewrite (proj2 (Z.ltb_lt _ _)) by lia. do 3 wp_step.
    assert (read_allowed (seq_rate_limiter_ r) IO_TOTAL (n - 0) 0 n = n) as ->.
    { unfold read_allowed. by destruct (seq_rate_limiter_ r). }
    eapply wp_mono; [by apply wp_on_seq_file, (s_Read_ok _ l n)|]. intros res r' (f' & -> & -> & Hl' & Hd').
    rewrite <- E. change (negb (ok OK)) with false. cbn [orb app].
    rewrite Hd in Hd'. destruct (Z.ltb_spec (size (take (Z.to_nat n) l)) n) as [Hs|Hs].
    + wp_step. done.
    + assert (Hr : ∀ k, wp (seq_read_loop k n IO_TOTAL (take (Z.to_nat n) l)) (λ res r', res = (OK, take (Z.to_nat n) l) ∧
        rest_of (seq_file_ r') (drop (Z.to_nat n) l) ∧ s_use_direct_io (seq_file_ r') = false)
        (mk_sfr f' (offset_ r) (seq_rate_limiter_ r))).
      { intros k. destruct k; cbn [seq_read_loop]; rewrite (proj2 (Z.ltb_ge _ _)) by done; by wp_step. }
      apply Hr.
Qed.
End reading.

#[export] Instance file_source {F} {SF : FSSequentialFile F} : LogSource (SequentialFileReader F) := {|
  src_Read n := SFR_Read n IO_TOTAL
|}.
#[export] Instance file_source_ok {F} {SF : FSSequentialFile F} {SOk : FSSequentialFileOk F SF} :
  LogSourceOk (SequentialFileReader F) file_source.
Proof.
  refine {| left_to_read r l := rest_of (seq_file_ r) l ∧ s_use_direct_io (seq_file_ r) = false |}.
  intros r l n [Hl Hd] Hn. eapply wp_mono; [by apply (wp_SFR_Read r l n)|]. intros res r' (-> & Hl' & Hd'). done.
Defined.
