(* ===== verification/FileDirect.v ===== *)
(** * RocksDB: what a writer with direct input and output writes

    Whole pages are written: the last one is padded with zeros, stays in the buffer and is
    written again when it has grown; at the end the file is cut to its size. *)

From stdpp Require Import base numbers option list gmap.
From S2P Require Import Prelude ZenCoding ZenTypes WalOps FileOps WalWrite WalRead FileSpec.

(** ** Overwriting a part of a list *)

Definition splice (off : nat) (d l : slice) : slice := take off l ++ d ++ drop (off + length d) l.

Lemma splice_splice off d1 d2 l :
  (off ≤ length l)%nat → splice (off + length d1) d2 (splice off d1 l) = splice off (d1 ++ d2) l.
Proof.
  intros Ho. unfold splice. rewrite (app_assoc (take off l) d1).
  assert (Hl : length (take off l ++ d1) = (off + length d1)%nat) by (rewrite length_app, length_take; lia).
  rewrite take_app_le, take_ge by lia. rewrite <- !app_assoc. do 3 f_equal.
  rewrite (app_assoc (take off l) d1), drop_app_ge, drop_drop by lia. f_equal.
  rewrite Hl, (length_app d1 d2). lia.
Qed.

Lemma splice_length off d l : (off ≤ length l)%nat → (off + length d ≤ length (splice off d l))%nat.
Proof. intros Ho. unfold splice. rewrite !length_app, length_take. lia. Qed.

Lemma splice_nil off l : splice off [] l = l.
Proof. unfold splice. rewrite Nat.add_0_r. apply take_drop. Qed.

Lemma take_splice off d l n :
  (off ≤ length l)%nat → (n ≤ length d)%nat → take (off + n) (splice off d l) = take off l ++ take n d.
Proof.
  intros Ho Hn. unfold splice. rewrite take_app_ge by (rewrite length_take; lia). f_equal.
  rewrite length_take, Nat.min_l by done. replace (off + n - off)%nat with n by lia. by rewrite take_app_le.
Qed.

(** ** Pages *)

Lemma truncate_pow2 k s : 0 ≤ k → TruncateToPageBoundary (2 ^ k) s = s - s mod 2 ^ k.
Proof.
  intros Hk. unfold TruncateToPageBoundary. rewrite <- Z.land_ones by done. do 2 f_equal.
  rewrite Z.ones_equiv. lia.
Qed.

Lemma Roundup_mod x y : 0 < y → Roundup x y mod y = 0.
Proof. intros Hy. apply Z_mod_mult. Qed.

Lemma Roundup_le x y c : 0 < y → x ≤ c → c mod y = 0 → Roundup x y ≤ c.
Proof.
  intros Hy Hx [q ->]%Z.mod_divide; [|lia]. unfold Roundup.
  assert ((x + y - 1) / y ≤ q); [|nia]. apply Z.lt_succ_r, Z.div_lt_upper_bound; lia.
Qed.

(** The rate limiter grants whole pages. *)
Lemma allowed_pages rl opts left k :
  0 ≤ k → 0 < left → left mod 2 ^ k = 0 → (∀ rl', rl = Some rl' → 0 < GetSingleBurstBytes rl') →
  0 < allowed rl opts left (2 ^ k) ≤ left ∧ allowed rl opts left (2 ^ k) mod 2 ^ k = 0.
Proof.
  intros Hk Hl Hm Hrl. assert (Hp : 0 < 2 ^ k) by (apply Z.pow_pos_nonneg; lia).
  assert (Hpl : 2 ^ k ≤ left).
  { apply Z.mod_divide in Hm as [q ->]; [|lia]. assert (0 < q) by nia. nia. }
  unfold allowed, RequestToken. destruct rl as [rl|]; [|lia]. specialize (Hrl rl eq_refl).
  destruct (bool_decide (opts ≠ IO_TOTAL)); [|lia]. destruct (IsRateLimited rl kWrite); cbn [andb]; [|lia].
  rewrite (proj2 (Z.ltb_lt _ _)), truncate_pow2 by lia. set (m := Z.min left (GetSingleBurstBytes rl)).
  pose proof (Z.mod_pos_bound m (2 ^ k) Hp). pose proof (Z.mod_le m (2 ^ k) ltac:(lia) Hp). split; [lia|].
  destruct (Z.max_spec (2 ^ k) (m - m mod 2 ^ k)) as [[_ ->]|[_ ->]]; [|apply Z_mod_same_full].
  rewrite Zminus_mod_idemp_r, Z.sub_diag. done.
Qed.

Section direct.
Context {W : Type} {FW : FSWritableFile W} {K : Crc32c} {KC : CrcCombine}.
Context {KOk : CrcLogOk K KC} {FOk : FSWritableFileOk W FW K}.
Implicit Types (w : WritableFileWriter W) (f : W) (l : slice).

(** The writer of a file with direct input and output, to which [l] was appended; [l0] is
    what the file holds: [l] up to the page that is next to be written, and that page as it
    was when it was last written. *)
Record direct_at w f l0 l : Prop := {
  df_file : writable_file_ w = Some f ∧ f_use_direct_io f = true ∧
    f_GetRequiredBufferAlignment f = alignment_ (buf_ w) ∧ file_holds f l0;
  df_next : 0 ≤ next_write_offset_ w ≤ size l0 ∧ next_write_offset_ w mod alignment_ (buf_ w) = 0;
  df_list : l = take (Z.to_nat (next_write_offset_ w)) l0 ++ contents (buf_ w);
  df_err : seen_error_ w = false;
  df_page : ∃ k, 0 ≤ k ∧ alignment_ (buf_ w) = 2 ^ k;
  df_cap : CurrentSize (buf_ w) ≤ capacity_of (buf_ w) < 2 ^ 63 ∧ 0 < capacity_of (buf_ w) ∧
    capacity_of (buf_ w) mod alignment_ (buf_ w) = 0;
  df_max : max_buffer_size_ w + alignment_ (buf_ w) ≤ 2 ^ 63;
  df_bytes : bytes (contents (buf_ w));
  df_crc : checked w = true → buffered_data_crc32c_checksum_ w = crc32c_Value (contents (buf_ w)) ∧ rate_limiter_ w = None;
  df_limiter : ∀ rl, rate_limiter_ w = Some rl → 0 < GetSingleBurstBytes rl;
  df_pending : pending_sync_ w = true ∨ take (length l) l0 = l
}.
Definition direct w l : Prop := ∃ f l0, direct_at w f l0 l.

(** ** Writing pages *)

Lemma wp_direct_loop fuel opts src off keep w f l0 k :
  writable_file_ w = Some f → file_holds f l0 → f_GetRequiredBufferAlignment f = 2 ^ k → alignment_ (buf_ w) = 2 ^ k →
  0 ≤ k → 0 ≤ off ≤ size l0 → off mod 2 ^ k = 0 → size src mod 2 ^ k = 0 → next_write_offset_ w mod 2 ^ k = 0 →
  (∀ rl, rate_limiter_ w = Some rl → 0 < GetSingleBurstBytes rl) → (length src ≤ fuel)%nat →
  wp (write_direct_loop fuel opts src off keep) (λ s w', ok s = true → ∃ f' n,
    w' = set_flushed n (set_wfile (Some f') w) ∧ same_file f f' ∧ file_holds f' (splice (Z.to_nat off) src l0)) w.
Proof.
  revert src off w f l0. induction fuel as [|fuel IH]; intros src off w f l0 Hf Hl Hfa Hwa Hk Ho Hom Hsm Hnm Hrl Hfu.
  all: cbn [write_direct_loop]; destruct (Nat.eqb_spec (length src) 0) as [E|E]; [|lia || idtac].
  1, 2: apply nil_length_inv in E as ->; wp_step; intros _; exists f, (flushed_size_ w); rewrite splice_nil;
    (split; [|done]); destruct w; cbn in Hf; by subst.
  do 2 wp_step. rewrite Hwa. set (n := allowed _ _ _ _).
  destruct (allowed_pages (rate_limiter_ w) opts (size src) k) as [Hn Hnk]; [done|unfold size; lia|done|done|].
  fold n in Hn, Hnk. assert (Hsz : size (take (Z.to_nat n) src) = n) by (rewrite size_take_n; lia).
  assert (Hlen : length (take (Z.to_nat n) src) = Z.to_nat n) by (unfold size in Hsz; lia).
  wp_step. eapply wp_mono; [eapply wp_on_file; [exact Hf|apply (f_PositionedAppend_ok f l0); [done| |done|..]]|].
  { destruct (perform_data_verification_ w); [by right|by left]. }
  { by rewrite Hfa. }
  { by rewrite Hfa, Hsz. }
  intros s w1 (f1 & -> & Hs). destruct (ok s) eqn:Hok; cbn [negb]; [|do 2 wp_step; apply wp_fail; congruence].
  destruct (Hs eq_refl) as [Hl1 Hs1]. rewrite Hsz in Hl1. do 3 wp_step. wp_step; [by apply Z.eqb_eq|].
  replace (take (Z.to_nat off) l0 ++ take (Z.to_nat n) src ++ drop (Z.to_nat (off + n)) l0)
    with (splice (Z.to_nat off) (take (Z.to_nat n) src) l0) in Hl1
    by (unfold splice; do 3 f_equal; lia).
  pose proof (splice_length (Z.to_nat off) (take (Z.to_nat n) src) l0 ltac:(unfold size in Ho; lia)) as Hsp.
  pose proof (file_bound _ _ Hl1) as Hbd. rewrite u64_small by (unfold size in *; lia).
  eapply wp_mono; [eapply (IH _ _ _ f1); [done|exact Hl1| |done|done|unfold size in *; lia| | |done|done|]|].
  { by destruct Hs1 as [_ ->]. }
  { by rewrite Z.add_mod, Hom, Hnk by lia. }
  { rewrite size_drop_n, Z.max_r by lia. by rewrite Zminus_mod, Hsm, Hnk. }
  { rewrite length_drop. unfold size in *. lia. }
  intros s2 w2 Hs2 Hok2. destruct (Hs2 Hok2) as (f2 & m & -> & Hsame & Hl2). exists f2, m.
  split; [done|]. split; [by eapply same_trans|].
  replace (Z.to_nat (off + n)) with (Z.to_nat off + length (take (Z.to_nat n) src))%nat in Hl2 by lia.
  rewrite splice_splice, take_drop in Hl2 by (unfold size in Ho; lia). done.
Qed.

(** ** The buffer, padded and refitted *)

Section page.
Variables (b : AlignedBuffer) (k : Z).
Hypothesis Hk : 0 ≤ k.
Hypothesis Ha : alignment_ b = 2 ^ k.
Hypothesis Hcap : CurrentSize b ≤ capacity_of b.
Hypothesis Hmod : capacity_of b mod alignment_ b = 0.

(** The whole pages of the buffer, and the zeros that fill the last. *)
Definition whole : Z := CurrentSize b - CurrentSize b mod 2 ^ k.
Definition zeros : slice := replicate (Z.to_nat (Roundup (CurrentSize b) (2 ^ k) - CurrentSize b)) 0.

Lemma page_pos : 0 < 2 ^ k.
Proof using Hk. apply Z.pow_pos_nonneg; lia. Qed.

Lemma whole_range : 0 ≤ whole ≤ CurrentSize b ∧ whole mod 2 ^ k = 0 ∧ CurrentSize b - whole < 2 ^ k.
Proof using Hk.
  pose proof page_pos. pose proof (size_nonneg (contents b)). unfold whole, CurrentSize in *.
  pose proof (Z.mod_pos_bound (size (contents b)) (2 ^ k) ltac:(lia)).
  pose proof (Z.mod_le (size (contents b)) (2 ^ k) ltac:(lia) ltac:(lia)).
  rewrite Zminus_mod_idemp_r, Z.sub_diag, Z.mod_0_l by lia. lia.
Qed.

Lemma pad_page :
  PadToAlignmentWith 0 b = Some (mk_abuf (alignment_ b) (capacity_of b) (contents b ++ zeros)).
Proof using Hk Ha Hcap Hmod.
  pose proof page_pos. rewrite Ha in Hmod. pose proof (Roundup_range (CurrentSize b) (2 ^ k) ltac:(lia)).
  pose proof (Roundup_le (CurrentSize b) (2 ^ k) _ ltac:(lia) Hcap Hmod) as Hle.
  unfold PadToAlignmentWith, PadWith, zeros. rewrite Ha. destruct (Z.ltb_spec 0 (Roundup (CurrentSize b) (2 ^ k) - CurrentSize b)).
  - by rewrite (proj2 (Z.leb_le _ _)) by lia.
  - replace (Roundup (CurrentSize b) (2 ^ k) - CurrentSize b) with 0 by lia. rewrite app_nil_r, <- Ha. by destruct b.
Qed.

Lemma size_padded : size (contents b ++ zeros) = Roundup (CurrentSize b) (2 ^ k).
Proof using Hk.
  pose proof page_pos. pose proof (Roundup_range (CurrentSize b) (2 ^ k) ltac:(lia)).
  unfold zeros, size, CurrentSize in *. rewrite length_app, length_replicate. unfold size in *. lia.
Qed.

Lemma refit_page :
  take (Z.to_nat (CurrentSize b - whole)) (drop (Z.to_nat whole) (contents b ++ zeros)) = drop (Z.to_nat whole) (contents b).
Proof using Hk.
  destruct whole_range as (Hw & _ & _). unfold CurrentSize, size in *. rewrite drop_app_le by lia.
  rewrite take_app_le, take_ge; rewrite ?length_drop; [done|lia|lia].
Qed.
End page.

(** The writer after its pages were written. *)
Definition paged (f : W) (n c k : Z) w : WritableFileWriter W :=
  set_next (u64 (next_write_offset_ w + whole (buf_ w) k)) (set_data_crc c
    (set_buf (mk_abuf (alignment_ (buf_ w)) (capacity_of (buf_ w)) (drop (Z.to_nat (whole (buf_ w) k)) (contents (buf_ w))))
      (set_flushed n (set_wfile (Some f) w)))).

Definition pages_out (k : Z) w l0 : slice :=
  splice (Z.to_nat (next_write_offset_ w)) (contents (buf_ w) ++ zeros (buf_ w) k) l0.

Lemma direct_paged w f f' l0 l n c k :
  direct_at w f l0 l → 0 ≤ k → alignment_ (buf_ w) = 2 ^ k → same_file f f' → file_holds f' (pages_out k w l0) →
  (checked w = true → c = crc32c_Value (drop (Z.to_nat (whole (buf_ w) k)) (contents (buf_ w)))) →
  direct_at (paged f' n c k w) f' (pages_out k w l0) l ∧ take (length l) (pages_out k w l0) = l.
Proof.
  intros H Hk Ha [Hd Hal] Hl Hc. destruct (df_file _ _ _ _ H) as (Hf & Hd0 & Hfa & Hl0).
  destruct (df_next _ _ _ _ H) as [Hn Hnm]. destruct (df_cap _ _ _ _ H) as (Hcap & Hpos & Hcm).
  pose proof (df_list _ _ _ _ H) as Hll. destruct (whole_range (buf_ w) k Hk) as (Hw & Hwm & _).
  pose proof (file_bound _ _ Hl0) as Hbd. set (b := buf_ w) in *. set (nx := next_write_offset_ w) in *.
  assert (Hnx : (Z.to_nat nx ≤ length l0)%nat) by (unfold size in Hn; lia).
  assert (Hu : u64 (nx + whole b k) = nx + whole b k) by (apply u64_small; unfold size in *; lia).
  assert (Hall : take (length l) (pages_out k w l0) = l).
  { rewrite Hll at 1. rewrite length_app, length_take, Nat.min_l by done. unfold pages_out.
    fold b nx. rewrite take_splice; [|done|rewrite length_app; lia].
    rewrite take_app_le, (take_ge (contents b)) by lia. done. }
  split; [|done]. split; try apply H; try done.
  - cbn. fold b. by rewrite Hd, Hal.
  - cbn. fold b nx. rewrite Hu, Ha, Z.add_mod, Hwm by (pose proof (page_pos k Hk); lia). rewrite <- Ha, Hnm. split; [|done].
    pose proof (splice_length (Z.to_nat nx) (contents b ++ zeros b k) l0 Hnx) as Hsp. rewrite length_app in Hsp.
    unfold pages_out, CurrentSize, size in *. fold b nx. lia.
  - cbn. fold b nx. rewrite Hu. replace (Z.to_nat (nx + whole b k)) with (Z.to_nat nx + Z.to_nat (whole b k))%nat by lia.
    unfold pages_out. fold b nx. unfold CurrentSize, size in Hw. rewrite take_splice; [|done|rewrite length_app; lia].
    rewrite take_app_le by lia. by rewrite <- app_assoc, take_drop.
  - cbn. fold b. unfold CurrentSize in *. cbn [contents]. rewrite size_drop_n by lia. lia.
  - apply Forall_drop, H.
  - intros Hck. split; [by apply Hc|]. by apply (df_crc _ _ _ _ H).
  - by right.
Qed.

Lemma wp_WriteDirect opts w f l0 l k :
  direct_at w f l0 l → 0 ≤ k → alignment_ (buf_ w) = 2 ^ k → checked w = false →
  wp (WriteDirect opts) (λ s w', ok s = true → ∃ f' n c, w' = paged f' n c k w ∧ same_file f f' ∧
    file_holds f' (pages_out k w l0)) w.
Proof.
  intros H Hk Ha Hck. destruct (df_file _ _ _ _ H) as (Hf & Hd & Hfa & Hl). destruct (df_next _ _ _ _ H) as [Hn Hnm].
  destruct (df_cap _ _ _ _ H) as (Hcap & Hpos & Hcm). unfold WriteDirect. do 2 wp_step. rewrite (df_err _ _ _ _ H).
  wp_step. wp_step; [done|]. wp_step. apply (wp_use_direct _ _ _ Hf). rewrite Hd. wp_step. wp_step; [done|].
  wp_step. wp_step; [by apply Z.eqb_eq|]. wp_step. eapply wp_load; [apply (pad_page _ k); try done; lia|].
  rewrite Ha, truncate_pow2 by done. fold (whole (buf_ w) k). do 3 wp_step. cbn [contents].
  replace (whole (buf_ w) k + (CurrentSize (buf_ w) - whole (buf_ w) k)) with (CurrentSize (buf_ w)) by lia.
  eapply wp_mono; [apply (wp_direct_loop _ _ _ _ _ _ f l0 k); try done|].
  { by rewrite Hfa. }
  { by rewrite <- Ha. }
  { rewrite size_padded by done. apply Roundup_mod, page_pos, Hk. }
  { by rewrite <- Ha. }
  { apply H. }
  intros s w1 Hs. destruct (ok s) eqn:Hok; cbn [negb]; [|wp_step; congruence].
  destruct (Hs Hok) as (f' & n & -> & Hsame & Hl'). do 3 wp_step. intros _.
  exists f', n, (buffered_data_crc32c_checksum_ w). split; [|done].
  unfold RefitTail. unfold paged. cbn. by rewrite refit_page, Ha by done.
Qed.

Lemma wp_WriteDirectChecked opts w f l0 l k :
  direct_at w f l0 l → 0 ≤ k → alignment_ (buf_ w) = 2 ^ k → checked w = true →
  wp (WriteDirectWithChecksum opts) (λ s w', ok s = true → ∃ f' n, let c := crc32c_Value (drop (Z.to_nat (whole (buf_ w) k))
    (contents (buf_ w))) in w' = paged f' n c k w ∧ same_file f f' ∧ file_holds f' (pages_out k w l0)) w.
Proof.
  intros H Hk Ha Hck. destruct (df_file _ _ _ _ H) as (Hf & Hd & Hfa & Hl). destruct (df_next _ _ _ _ H) as [Hn Hnm].
  destruct (df_cap _ _ _ _ H) as (Hcap & Hpos & Hcm). destruct (df_crc _ _ _ _ H Hck) as [Hcrc Hrl].
  pose proof (size_padded (buf_ w) k Hk) as Hsp.
  pose proof (Roundup_range (CurrentSize (buf_ w)) (2 ^ k) (page_pos k Hk)) as Hru.
  unfold WriteDirectWithChecksum. do 2 wp_step. rewrite (df_err _ _ _ _ H).
  wp_step. apply (wp_use_direct _ _ _ Hf). rewrite Hd. wp_step. wp_step; [done|]. wp_step. wp_step; [exact Hck|].
  wp_step. wp_step; [by apply Z.eqb_eq|]. wp_step. eapply wp_load; [apply (pad_page _ k); try done; lia|].
  rewrite Ha, truncate_pow2 by done. fold (whole (buf_ w) k). do 4 wp_step. cbn [contents].
  unfold wait_for_limiter. do 3 wp_step. cbn [rate_limiter_ set_data_crc set_buf]. rewrite Hrl. do 4 wp_step.
  cbn [buffered_data_crc32c_checksum_ set_data_crc].
  assert (Hnz : size (contents (buf_ w)) = CurrentSize (buf_ w)) by done.
  assert (Hz : crc32c_Combine (buffered_data_crc32c_checksum_ w)
      (crc32c_Value (drop (Z.to_nat (CurrentSize (buf_ w))) (contents (buf_ w) ++ zeros (buf_ w) k)))
      (CurrentSize (mk_abuf (2 ^ k) (capacity_of (buf_ w)) (contents (buf_ w) ++ zeros (buf_ w) k)) - CurrentSize (buf_ w))
    = crc32c_Value (contents (buf_ w) ++ zeros (buf_ w) k)).
  { rewrite Hcrc, drop_app_n by (unfold CurrentSize, size; lia). unfold CurrentSize at 1. cbn [contents].
    rewrite size_app. replace (size (contents (buf_ w)) + size (zeros (buf_ w) k) - CurrentSize (buf_ w))
      with (size (zeros (buf_ w) k)) by lia. rewrite size_app in Hsp.
    assert (bytes (zeros (buf_ w) k)) by (apply Forall_replicate; lia).
    unfold crc32c_Value at 1. rewrite log_crc_combine; [|apply log_crc_range|done|].
    - by rewrite log_crc_app; [|lia|apply H|].
    - pose proof (Roundup_le (CurrentSize (buf_ w)) (2 ^ k) (capacity_of (buf_ w)) (page_pos k Hk) ltac:(lia) ltac:(by rewrite <- Ha)).
      pose proof (size_nonneg (contents (buf_ w))). lia. }
  rewrite Hz. eapply wp_mono; [eapply wp_on_file; [exact Hf|apply (f_PositionedAppend_ok f l0); [done|by right|done|..]]|].
  { by rewrite Hfa. }
  { rewrite Hfa, Ha, Hsp. apply Roundup_mod, page_pos, Hk. }
  intros s w1 (f1 & -> & Hs). destruct (ok s) eqn:Hok; cbn [negb]; [|do 4 wp_step; apply wp_fail; congruence].
  destruct (Hs eq_refl) as [Hl1 Hs1]. do 9 wp_step. intros _. eexists f1, _. cbv zeta. split; [|split; [done|]].
  - unfold RefitTail. unfold paged. cbn. rewrite refit_page, Ha by done. reflexivity.
  - unfold pages_out, splice. replace (Z.to_nat (next_write_offset_ w) + length (contents (buf_ w) ++ zeros (buf_ w) k))%nat
      with (Z.to_nat (next_write_offset_ w + size (contents (buf_ w) ++ zeros (buf_ w) k))); [done|]. unfold size. lia.
Qed.

(** ** Flush *)

Definition steady w w' : Prop :=
  kept w w' ∧ filesize_ w' = filesize_ w ∧ pending_sync_ w' = pending_sync_ w ∧
  capacity_of (buf_ w') = capacity_of (buf_ w) ∧ alignment_ (buf_ w') = alignment_ (buf_ w).

(** All that was appended is in the file. *)
Definition on_disk w l : Prop := ∃ f l0, direct_at w f l0 l ∧ take (length l) l0 = l.

Lemma wp_direct_out opts w f l0 l k :
  direct_at w f l0 l → 0 ≤ k → alignment_ (buf_ w) = 2 ^ k → pending_sync_ w = true →
  wp (write_out opts) (λ s w', ok s = true → ∃ f' n c, w' = paged f' n c k w ∧ on_disk w' l) w.
Proof.
  intros H Hk Ha Hp. destruct (df_file _ _ _ _ H) as (Hf & Hd & _ & _). unfold write_out. do 3 wp_step.
  apply (wp_use_direct _ _ _ Hf). rewrite Hd, Hp. fold (checked w). destruct (checked w) eqn:Hck.
  - eapply wp_mono; [by apply (wp_WriteDirectChecked opts w f l0 l k)|]. intros s w' Hs Hok. destruct (Hs Hok) as (f' & n & -> & Hsame & Hl).
    eexists f', n, _. split; [done|]. exists f', (pages_out k w l0). by apply (direct_paged w f).
  - eapply wp_mono; [by apply (wp_WriteDirect opts w f l0 l k)|]. intros s w' Hs Hok. destruct (Hs Hok) as (f' & n & c & -> & Hsame & Hl).
    exists f', n, c. split; [done|]. exists f', (pages_out k w l0). apply (direct_paged w f); try done. congruence.
Qed.

Lemma wp_direct_Flush opts w l :
  direct w l →
  wp (WFW_Flush opts) (λ s w', ok s = true → on_disk w' l ∧ steady w w' ∧
    (pending_sync_ w = true → CurrentSize (buf_ w) = capacity_of (buf_ w) → contents (buf_ w') = [])) w.
Proof.
  intros (f & l0 & H). destruct (df_page _ _ _ _ H) as (k & Hk & Ha). unfold WFW_Flush. do 2 wp_step.
  destruct (df_cap _ _ _ _ H) as (Hcap & Hpos & Hcm).
  rewrite (df_err _ _ _ _ H). wp_step. apply (wp_mono _ (λ s w', ok s = true → on_disk w' l ∧ steady w w' ∧
    (pending_sync_ w = true → CurrentSize (buf_ w) = capacity_of (buf_ w) → contents (buf_ w') = []))).
  { destruct (Z.ltb_spec 0 (CurrentSize (buf_ w))) as [Hne|Hne].
    - destruct (pending_sync_ w) eqn:Hp.
      + eapply wp_mono; [by apply (wp_direct_out _ w f l0 l k)|]. intros s w' Hs Hok.
        destruct (Hs Hok) as (f' & n & c & -> & Hw). split; [done|]. split; [done|]. intros _ Hfull. cbn.
        apply drop_ge. unfold whole. rewrite Hfull, <- Ha, Hcm, <- Hfull. unfold CurrentSize, size. lia.
      + unfold write_out. do 3 wp_step. destruct (df_file _ _ _ _ H) as (Hf & Hd & _ & _).
        apply (wp_use_direct _ _ _ Hf). rewrite Hd, Hp. wp_step. intros _.
        destruct (df_pending _ _ _ _ H) as [?|Hd2]; [congruence|]. split; [by exists f, l0|]. done.
    - wp_step. intros _. assert (Hnil : contents (buf_ w) = []).
      { apply nil_length_inv. unfold CurrentSize, size in Hne. lia. }
      split; [|done]. exists f, l0. split; [done|]. pose proof (df_list _ _ _ _ H) as Hll. rewrite Hnil, app_nil_r in Hll.
      destruct (df_next _ _ _ _ H) as [Hn _]. rewrite Hll at 1. rewrite length_take, Nat.min_l by (unfold size in Hn; lia). done. }
  intros s w1 Hs. destruct (ok s) eqn:Hok; cbn [negb]; [|apply wp_fail; congruence].
  destruct (Hs eq_refl) as ((f1 & l1 & H1 & Hall) & Hst & Hfull). clear Hs.
  destruct (df_file _ _ _ _ H1) as (Hf1 & Hd1 & Ha1 & Hl1). wp_step.
  eapply wp_mono; [eapply wp_on_file; [exact Hf1|by apply (f_Flush_ok f1 l1)]|].
  intros s2 w2 (f2 & -> & Hs2). destruct (ok s2) eqn:Hok2; cbn [negb]; [|apply wp_fail; congruence].
  destruct (Hs2 eq_refl) as [Hl2 [Hd2 Ha2]]. unfold sync_behind. do 3 wp_step.
  eapply wp_use_direct; [reflexivity|]. rewrite Hd2, Hd1. cbn [negb andb]. wp_step. intros _.
  split; [|done]. exists f2, l1. split; [|done]. split; try apply H1. cbn. rewrite Hd2, Ha2. done.
Qed.

(** ** Append *)

(** Data copied to the buffer. *)
Lemma direct_buffer w l data c :
  direct w l → pending_sync_ w = true → size data ≤ buf_room (buf_ w) → bytes data →
  (checked w = true → c = crc32c_Value (contents (buf_ w) ++ data)) →
  direct (set_data_crc c (set_buf (mk_abuf (alignment_ (buf_ w)) (capacity_of (buf_ w)) (contents (buf_ w) ++ data)) w))
    (l ++ data).
Proof.
  intros (f & l0 & H) Hp Hr Hb Hc. exists f, l0. destruct (df_cap _ _ _ _ H) as (Hcap & Hpos & Hcm).
  split; try apply H; try done.
  - cbn. by rewrite (df_list _ _ _ _ H), <- app_assoc.
  - cbn. split; [|done]. unfold buf_room, CurrentSize in *. cbn [contents]. rewrite size_app. lia.
  - cbn. apply bytes_app. split; [apply H|done].
  - intros Hck. split; [by apply Hc|]. by apply (df_crc _ _ _ _ H).
  - by left.
Qed.

Lemma steady_trans w1 w2 w3 : steady w1 w2 → steady w2 w3 → steady w1 w3.
Proof. intros ([] & ? & ? & ? & ?) ([] & ? & ? & ? & ?). repeat split; congruence. Qed.

Lemma on_disk_direct w l : on_disk w l → direct w l.
Proof. intros (f & l0 & H & _). by exists f, l0. Qed.

Lemma wp_direct_fill fuel opts src w l :
  direct w l → pending_sync_ w = true → bytes src →
  (length src < fuel)%nat ∨ 0 < buf_room (buf_ w) ∧ (length src ≤ fuel)%nat →
  wp (fill_loop fuel opts (checked w) src) (λ s w', ok s = true → direct w' (l ++ src) ∧ steady w w') w.
Proof.
  revert src w l. induction fuel as [|fuel IH]; intros src w l H Hp Hb Hfuel.
  all: cbn [fill_loop]; destruct (Nat.eqb_spec (length src) 0) as [E|E]; [|lia || idtac].
  1, 2: apply nil_length_inv in E as ->; wp_step; intros _; by rewrite app_nil_r.
  pose proof H as (f & l0 & H0). destruct (df_cap _ _ _ _ H0) as (Hcap & Hpos & _).
  set (n := Z.min (size src) (buf_room (buf_ w))). pose proof (size_nonneg src) as Hss.
  assert (Hn : 0 ≤ n ≤ size src) by (unfold n, buf_room in *; lia).
  set (part := take (Z.to_nat n) src). assert (Hpart : size part = n) by (unfold part; rewrite size_take_n; lia).
  do 2 wp_step. unfold buf_Append. fold n part. do 2 wp_step.
  set (w1 := set_data_crc (if checked w then crc32c_Extend (buffered_data_crc32c_checksum_ w) part
    else buffered_data_crc32c_checksum_ w) (set_buf (mk_abuf (alignment_ (buf_ w)) (capacity_of (buf_ w))
    (contents (buf_ w) ++ part)) w)).
  assert (H1 : direct w1 (l ++ part)).
  { apply direct_buffer; [done|done|unfold n in Hpart; lia|by apply Forall_take|]. intros Hck. rewrite Hck.
    destruct (df_crc _ _ _ _ H0 Hck) as [-> _]. unfold crc32c_Value.
    by rewrite log_crc_app; [|lia|apply H0|apply Forall_take]. }
  wp_step. apply (wp_mono _ (λ _ w', w' = w1)).
  { unfold w1. destruct (checked w); cbn [when]; wp_step; by destruct w. }
  intros [] ? ->. destruct (Nat.eqb_spec (length (drop (Z.to_nat n) src)) 0) as [E2|E2].
  { wp_step. intros _. rewrite length_drop in E2. unfold part in H1. rewrite take_ge in H1 by lia. done. }
  rewrite length_drop in E2. assert (Hfull : CurrentSize (buf_ w1) = capacity_of (buf_ w1)).
  { unfold CurrentSize. cbn. rewrite size_app, Hpart. unfold n, buf_room, CurrentSize, size in *. lia. }
  wp_step. eapply wp_mono; [by apply wp_direct_Flush|]. intros s w2 Hs.
  destruct (ok s) eqn:Hok; cbn [negb]; [|wp_step; congruence]. destruct (Hs Hok) as (H2 & Hst & Hnil).
  specialize (Hnil Hp Hfull). destruct Hst as (Hkept & Hfs & Hpe & Hca & Hal).
  assert (Hst : steady w w2) by (split_and!; done).
  assert (Hroom : 0 < buf_room (buf_ w2)).
  { unfold buf_room, CurrentSize. rewrite Hnil, Hca. change (size []) with 0. cbn. lia. }
  assert (Hck : checked w = checked w2) by (symmetry; by apply checked_kept).
  rewrite Hck. eapply wp_mono; [apply (IH _ w2); [by apply on_disk_direct|by rewrite Hpe|by apply Forall_drop|right]|].
  { split; [done|]. rewrite length_drop. unfold n, size in *. lia. }
  intros s3 w3 Hs3 Hok3. destruct (Hs3 Hok3) as [H3 Hst3]. rewrite <- app_assoc in H3. unfold part in H3.
  rewrite take_drop in H3. split; [done|]. by eapply steady_trans.
Qed.

(** The writer, with the size that it keeps of the file. *)
Definition direct_file w l : Prop := direct w l ∧ filesize_ w = size l.

Definition took_direct data l w (s : IOStatus) w' : Prop :=
  ok s = true → direct w' (l ++ data) ∧ filesize_ w' = filesize_ w.

Lemma wp_direct_room opts left w l :
  direct w l →
  wp (make_room opts left) (λ s w', s = OK ∧ direct w' l ∧ kept w w' ∧ filesize_ w' = filesize_ w ∧
    pending_sync_ w' = pending_sync_ w) w.
Proof.
  intros (f & l0 & H). destruct (df_file _ _ _ _ H) as (Hf & Hd & _). destruct (df_cap _ _ _ _ H) as (Hcap & Hpos & Hcm).
  destruct (df_page _ _ _ _ H) as (k & Hk & Ha). pose proof (page_pos k Hk) as Hp. unfold make_room. do 3 wp_step.
  apply (wp_use_direct _ _ _ Hf). rewrite Hd. cbn [negb andb].
  assert (∃ b, (if buf_room (buf_ w) <? left
      then grow_buffer 65 true (capacity_of (buf_ w)) left (max_buffer_size_ w) (buf_ w) else Some (buf_ w)) = Some b ∧
    direct (set_buf b w) l) as (b & Hb & Hw).
  { destruct (buf_room (buf_ w) <? left); [|exists (buf_ w); split; [done|destruct w; by exists f, l0]].
    pose proof (df_max _ _ _ _ H) as Hm.
    destruct (grow_ok 65 true (capacity_of (buf_ w)) left (max_buffer_size_ w) (buf_ w)) as
      (b & Hb & Hc & Hal & Hcap' & Hpos' & Hmod); [lia| |lia|lia|lia|lia|lia|].
    { change (Z.of_nat 65) with 65. lia. }
    exists b. split; [done|]. exists f, l0. split; try apply H; cbn; rewrite ?Hal, ?Hc; try apply H; auto. }
  wp_step. eapply wp_load; [exact Hb|]. do 2 wp_step. wp_step. done.
Qed.

Lemma wp_direct_with_checksum opts data crc w l :
  direct w l → pending_sync_ w = true → checked w = true → bytes data → crc = crc32c_Value data →
  wp (append_with_checksum opts data crc) (took_direct data l w) w.
Proof.
  intros H Hp Hck Hb ->. pose proof H as (f & l0 & H0). destruct (df_file _ _ _ _ H0) as (Hf & Hd & _).
  destruct (df_crc _ _ _ _ H0 Hck) as [Hcrc _]. destruct (df_cap _ _ _ _ H0) as (Hcap & _).
  unfold append_with_checksum. do 3 wp_step. apply (wp_use_direct _ _ _ Hf). rewrite Hd. cbn [orb].
  destruct (Z.leb_spec (size data) (buf_room (buf_ w))) as [Hfit|Hbig].
  - rewrite buf_Append_fits by done. do 4 wp_step. rewrite Z.eqb_refl. wp_step. intros _. split; [|done].
    apply direct_buffer; try done. intros _. cbn [buffered_data_crc32c_checksum_ set_buf].
    rewrite Hcrc. unfold buf_room, CurrentSize in *. pose proof (size_nonneg (contents (buf_ w))).
    unfold crc32c_Value at 1. rewrite log_crc_combine; [|apply log_crc_range|done|lia].
    by rewrite log_crc_app; [|lia|apply H0|].
  - rewrite <- Hck at 1. eapply wp_mono; [apply (wp_direct_fill _ _ _ w l); try done; left; lia|].
    intros s w' Hs Hok. destruct (Hs Hok) as (Hw & _ & Hfs & _). done.
Qed.

Lemma wp_direct_plain opts data w l :
  direct w l → pending_sync_ w = true → bytes data → wp (append_plain opts data) (took_direct data l w) w.
Proof.
  intros H Hp Hb. pose proof H as (f & l0 & H0). destruct (df_file _ _ _ _ H0) as (Hf & Hd & _).
  unfold append_plain. do 3 wp_step. apply (wp_use_direct _ _ _ Hf). rewrite Hd. cbn [orb]. fold (checked w).
  eapply wp_mono; [apply (wp_direct_fill _ _ _ w l); try done; left; lia|].
  intros s w' Hs Hok. destruct (Hs Hok) as (Hw & _ & Hfs & _). done.
Qed.

Lemma direct_size w l : direct w l → size l < 2 ^ 64.
Proof.
  intros (f & l0 & H). rewrite (df_list _ _ _ _ H), size_app. destruct (df_cap _ _ _ _ H) as (Hcap & _).
  destruct (df_file _ _ _ _ H) as (_ & _ & _ & Hl). pose proof (file_bound _ _ Hl). unfold CurrentSize, size in *.
  rewrite length_take. lia.
Qed.

Lemma wp_direct_Append opts data crc w l :
  direct_file w l → bytes data → crc = 0 ∨ crc = crc32c_Value data →
  wp (WFW_Append opts data crc) (λ s w', ok s = true → direct_file w' (l ++ data)) w.
Proof.
  intros [(f & l0 & H) Hsz] Hb Hcrc. destruct (df_file _ _ _ _ H) as (Hf & Hd & Ha & Hl). unfold WFW_Append. do 2 wp_step.
  rewrite (df_err _ _ _ _ H). do 3 wp_step.
  eapply wp_mono; [eapply wp_on_file; [exact Hf|by apply (f_PrepareWrite_ok f l0)]|].
  intros [] w1 (f1 & -> & Hl1 & Hsame). set (w1 := set_wfile _ _).
  assert (H1 : direct w1 l).
  { exists f1, l0. split; try apply H; [|by left]. destruct Hsame as [Hd1 Ha1]. cbn. by rewrite Hd1, Ha1. }
  wp_step. eapply wp_mono; [by apply wp_direct_room|]. intros s w2 (-> & H2 & Hk & Hfs & Hp). change (negb (ok OK)) with false. cbv iota. wp_step.
  assert (Hck : checked w2 = checked w) by (by rewrite (checked_kept _ _ Hk)).
  apply (wp_mono _ (took_direct data l w2)).
  { fold (checked w). destruct (checked w && negb (crc =? 0)) eqn:E; [|by apply wp_direct_plain].
    apply andb_true_iff in E as [E1 E2]. apply negb_true_iff, Z.eqb_neq in E2.
    apply wp_direct_with_checksum; [done|done|by rewrite Hck|done|by destruct Hcrc]. }
  intros s3 w3 Hs3. destruct (ok s3) eqn:Hok3; [|apply wp_fail; congruence]. destruct (Hs3 Hok3) as [H3 Hf3].
  do 3 wp_step. intros _. pose proof (direct_size _ _ H3) as Hlim. split; [destruct H3 as (f3 & l3 & H3); exists f3, l3; split; apply H3|].
  cbn [filesize_ set_filesize]. rewrite Hf3, Hfs, size_app in *. change (filesize_ w1) with (filesize_ w). rewrite Hsz.
  apply u64_small. pose proof (size_nonneg l). pose proof (size_nonneg data). lia.
Qed.

(** ** Closing: the zeros of the last page are cut off *)

Lemma wp_direct_cut w l :
  on_disk w l → filesize_ w = size l →
  wp (cut_to_size OK) (λ s w', ok s = true → ∃ f, writable_file_ w' = Some f ∧ file_holds f l) w.
Proof.
  intros (f & l0 & H & Hl0) Hsz. destruct (df_file _ _ _ _ H) as (Hf & Hd & _ & Hl). unfold cut_to_size. wp_step.
  apply (wp_use_direct _ _ _ Hf). rewrite Hd. do 3 wp_step. rewrite Hsz.
  assert (Hle : size l ≤ size l0) by (rewrite <- Hl0; unfold size; rewrite !length_take; lia).
  eapply wp_mono; [eapply wp_on_file; [exact Hf|apply (f_Truncate_ok f l0); [done|]]|].
  { pose proof (size_nonneg l). lia. }
  intros s w1 (f1 & -> & Hs). replace (Z.to_nat (size l)) with (length l) in Hs by (unfold size; lia). rewrite Hl0 in Hs.
  wp_step. destruct (ok s) eqn:Hok; [|do 2 wp_step; unfold first_error; rewrite Hok; cbn; congruence].
  destruct (Hs eq_refl) as [Hl1 _].
  eapply wp_mono; [eapply wp_on_file; [reflexivity|by apply (f_Fsync_ok f1 l)]|].
  intros s2 w2 (f2 & -> & Hs2). wp_step. unfold first_error. destruct (ok s2) eqn:Hok2; cbn; [|congruence].
  intros _. exists f2. by destruct (Hs2 eq_refl).
Qed.

(** ** A new writer *)

Lemma direct_new f max bps rl verify ck :
  file_holds f [] → f_use_direct_io f = true → 0 < max → (∃ k, 0 ≤ k ∧ f_GetRequiredBufferAlignment f = 2 ^ k) →
  max + f_GetRequiredBufferAlignment f ≤ 2 ^ 63 →
  match rl with Some rl => verify && ck = false ∧ 0 < GetSingleBurstBytes rl | None => True end →
  direct_file (new_WritableFileWriter f max bps rl verify ck) [].
Proof.
  intros Hf Hd Hm Ha Hlim Hrl. set (al := f_GetRequiredBufferAlignment f) in *.
  assert (Hal : 0 < al) by (destruct Ha as (k & Hk & ->); by apply page_pos).
  pose proof (Roundup_range (Z.min 65536 max) al Hal) as Hr. split; [|done]. exists f, []. split; try done.
  - change (0 ≤ Roundup (Z.min 65536 max) al < 2 ^ 63 ∧ 0 < Roundup (Z.min 65536 max) al ∧
      Roundup (Z.min 65536 max) al mod al = 0). split; [lia|]. split; [lia|]. by apply Roundup_mod.
  - constructor.
  - intros Hck. unfold checked in Hck. cbn in Hck. split; [symmetry; apply log_crc_nil|].
    destruct rl; [|done]. destruct Hrl. congruence.
  - intros rl' E. cbn in E. subst rl. apply Hrl.
  - by right.
Qed.
End direct.
