(* ===== verification/ZenZbd.v ===== *)
(** * ZenFS: operations on zones and on the zoned block device

    [fs/zbd_zenfs.cc].  Locks and atomics are taken as one step each; a wait on a
    condition that does not hold, like a failed [assert], is a crash of this
    single-threaded reading.  Logging and metrics are left out. *)

From stdpp Require Import base numbers option list gmap.
From S2P Require Import Prelude ZenCoding ZenTypes.

Definition ZENFS_META_ZONES : Z := 3.
Definition LIFETIME_DIFF_NOT_GOOD : Z := 100.
Definition LIFETIME_DIFF_COULD_BE_WORSE : Z := 50.

(** ** Zones *)

Definition z_set_busy (x : bool) (z : Zone) : Zone :=
  mk_zone (start_ z) (capacity_ z) (max_capacity_ z) (wp_ z) (zlifetime_ z) (used_capacity_ z) x.
Definition z_set_used (x : Z) (z : Zone) : Zone :=
  mk_zone (start_ z) (capacity_ z) (max_capacity_ z) (wp_ z) (zlifetime_ z) x (busy_ z).
Definition z_set_lifetime (x : Z) (z : Zone) : Zone :=
  mk_zone (start_ z) (capacity_ z) (max_capacity_ z) (wp_ z) x (used_capacity_ z) (busy_ z).

(** The constructor [Zone::Zone]. *)
Definition new_Zone (z : zbd_zone) : Zone :=
  let closed_for_writes := bool_decide (zz_cond z = ZBD_ZONE_COND_FULL ∨
    zz_cond z = ZBD_ZONE_COND_OFFLINE ∨ zz_cond z = ZBD_ZONE_COND_READONLY) in
  mk_zone (zz_start z)
    (if closed_for_writes then 0 else u64 (zz_capacity z - (zz_wp z - zz_start z)))
    (zz_capacity z) (zz_wp z) WLTH_NOT_SET 0 false.

Definition IsUsed (z : Zone) : bool := 0 <? used_capacity_ z.
Definition GetCapacityLeft (z : Zone) : Z := capacity_ z.
Definition IsFull (z : Zone) : bool := capacity_ z =? 0.
Definition IsEmpty (z : Zone) : bool := wp_ z =? start_ z.

(** Effects on the record of a zone of a reset, a finish and a write of [n] bytes. *)
Definition z_reset (zz : zbd_zone) (z : Zone) : Zone :=
  if bool_decide (zz_cond zz = ZBD_ZONE_COND_OFFLINE)
  then mk_zone (start_ z) 0 (max_capacity_ z) (start_ z) WLTH_NOT_SET (used_capacity_ z) (busy_ z)
  else mk_zone (start_ z) (zz_capacity zz) (zz_capacity zz) (start_ z) WLTH_NOT_SET
    (used_capacity_ z) (busy_ z).
Definition z_finish (zone_sz : Z) (z : Zone) : Zone :=
  mk_zone (start_ z) 0 (max_capacity_ z) (u64 (start_ z + zone_sz)) (zlifetime_ z)
    (used_capacity_ z) (busy_ z).
Definition z_written (n : Z) (z : Zone) : Zone :=
  mk_zone (start_ z) (u64 (capacity_ z - n)) (max_capacity_ z) (u64 (wp_ z + n)) (zlifetime_ z)
    (used_capacity_ z) (busy_ z).

Section zen_zbd.
Context {D : ZbdDev}.
Notation prog := (ST ZonedBlockDevice).

Definition zone_of (r : zref) (b : ZonedBlockDevice) : option Zone :=
  match r with IoZone i => io_zones b !! i | MetaZone i => meta_zones b !! i end.
Definition set_zone (r : zref) (z : Zone) (b : ZonedBlockDevice) : ZonedBlockDevice :=
  match r with
  | IoZone i => set_io_zones (<[i := z]> (io_zones b)) b
  | MetaZone i => set_meta_zones (<[i := z]> (meta_zones b)) b
  end.

Definition zone_at (r : zref) : prog Zone := b <- get ;; load (zone_of r b).
Definition zone_upd (r : zref) (f : Zone → Zone) : prog unit :=
  z <- zone_at r ;; modify (set_zone r (f z)).

(** A call on the device that changes it. *)
Definition dev_call {A} (f : dev → A * dev) : prog A :=
  b <- get ;; let '(a, d) := f (device b) in put (set_device d b) ;; ret a.

Definition Acquire (r : zref) : prog bool :=
  z <- zone_at r ;;
  if busy_ z then ret false else zone_upd r (z_set_busy true) ;; ret true.
Definition Release (r : zref) : prog bool :=
  z <- zone_at r ;;
  if busy_ z then zone_upd r (z_set_busy false) ;; ret true else ret false.
Definition CheckRelease (r : zref) : prog IOStatus :=
  done <- Release r ;; if negb done then assert false ;; ret Corruption else ret OK.

Definition Zone_Reset (r : zref) : prog IOStatus :=
  z <- zone_at r ;; zone_sz <- gets zone_sz_ ;;
  assert (negb (IsUsed z)) ;;
  assert (busy_ z) ;;
  done <- dev_call (zbd_reset_zones (start_ z) zone_sz) ;;
  if negb done then ret IOError else
  report <- gets (λ b, zbd_report_zone (start_ z) (device b)) ;;
  match report with
  | None => ret IOError
  | Some zz => zone_upd r (z_reset zz) ;; ret OK
  end.

Definition Zone_Finish (r : zref) : prog IOStatus :=
  z <- zone_at r ;; zone_sz <- gets zone_sz_ ;;
  assert (busy_ z) ;;
  done <- dev_call (zbd_finish_zones (start_ z) zone_sz) ;;
  if negb done then ret IOError else
  zone_upd r (z_finish zone_sz) ;; ret OK.

Definition Zone_Close (r : zref) : prog IOStatus :=
  z <- zone_at r ;; zone_sz <- gets zone_sz_ ;;
  assert (busy_ z) ;;
  if negb (IsEmpty z || IsFull z) then
    done <- dev_call (zbd_close_zones (start_ z) zone_sz) ;;
    if negb done then ret IOError else ret OK
  else ret OK.

(** The loop of [Zone::Append]: [ptr] is what is left to write.  Every write of at least
    one byte shortens it, so its length bounds the iterations. *)
Fixpoint append_loop (fuel : nat) (r : zref) (ptr : slice) : prog IOStatus :=
  match ptr with
  | [] => ret OK
  | _ =>
      match fuel with
      | O => crash
      | S fuel' =>
          z <- zone_at r ;;
          res <- dev_call (pwrite (wp_ z) ptr) ;;
          match res with
          | None => ret IOError
          | Some n => zone_upd r (z_written n) ;; append_loop fuel' r (drop (Z.to_nat n) ptr)
          end
      end
  end.

(** [Zone::Append] of [data], all of it. *)
Definition Zone_Append (r : zref) (data : slice) : prog IOStatus :=
  z <- zone_at r ;; block_sz <- gets block_sz_ ;;
  if capacity_ z <? size data then ret NoSpace else
  assert (size data mod block_sz =? 0) ;;
  append_loop (length data) r data.

(** ** Space accounting *)

(** The first zone that holds [offset], counting from [i]. *)
Fixpoint find_zone (zone_sz offset : Z) (zs : list Zone) (i : nat) : option nat :=
  match zs with
  | [] => None
  | z :: zs' =>
      if (start_ z <=? offset) && (offset <? u64 (start_ z + zone_sz)) then Some i
      else find_zone zone_sz offset zs' (S i)
  end.
Definition GetIOZone (b : ZonedBlockDevice) (offset : Z) : option nat :=
  find_zone (zone_sz_ b) offset (io_zones b) 0.

Definition GetFreeSpace (b : ZonedBlockDevice) : Z :=
  foldl (λ free z, u64 (free + capacity_ z)) 0 (io_zones b).
Definition GetUsedSpace (b : ZonedBlockDevice) : Z :=
  foldl (λ used z, u64 (used + used_capacity_ z)) 0 (io_zones b).
Definition GetReclaimableSpace (b : ZonedBlockDevice) : Z :=
  foldl (λ r z, if IsFull z then u64 (r + (max_capacity_ z - used_capacity_ z)) else r) 0 (io_zones b).

Definition GetZoneDeferredStatus : prog IOStatus := gets zone_deferred_status_.
Definition SetZoneDeferredStatus (status : IOStatus) : prog unit :=
  s <- gets zone_deferred_status_ ;; when (negb (ok s)) (modify (set_deferred status)).

(** ** Tokens *)

(** [zone_resources_.wait]: the token is taken when one is free. *)
Definition WaitForOpenIOZoneToken (prioritized : bool) : prog unit :=
  b <- get ;;
  let allocator_open_limit := if prioritized then max_nr_open_io_zones_ b
    else u32 (max_nr_open_io_zones_ b - 1) in
  assert (open_io_zones_ b <? allocator_open_limit) ;;
  put (set_tokens (active_io_zones_ b) (open_io_zones_ b + 1) b).

Definition GetActiveIOZoneTokenIfAvailable : prog bool :=
  b <- get ;;
  if active_io_zones_ b <? max_nr_active_io_zones_ b
  then put (set_tokens (active_io_zones_ b + 1) (open_io_zones_ b) b) ;; ret true
  else ret false.

Definition PutOpenIOZoneToken : prog unit :=
  modify (λ b, set_tokens (active_io_zones_ b) (open_io_zones_ b - 1) b).
Definition PutActiveIOZoneToken : prog unit :=
  modify (λ b, set_tokens (active_io_zones_ b - 1) (open_io_zones_ b) b).

(** ** Allocation *)

(** The indices of a vector of zones, in the order of a range-based [for]. *)
Definition io_indices : prog (list nat) := gets (λ b, seq 0 (length (io_zones b))).

Definition GetLifeTimeDiff (zone_lifetime file_lifetime : Z) : prog Z :=
  assert (file_lifetime <=? WLTH_EXTREME) ;;
  if (file_lifetime =? WLTH_NOT_SET) || (file_lifetime =? WLTH_NONE) then
    if file_lifetime =? zone_lifetime then ret 0 else ret LIFETIME_DIFF_NOT_GOOD
  else if file_lifetime <? zone_lifetime then ret (zone_lifetime - file_lifetime)
  else if zone_lifetime =? file_lifetime then ret LIFETIME_DIFF_COULD_BE_WORSE
  else ret LIFETIME_DIFF_NOT_GOOD.

(** Body and loop of [AllocateMetaZone]: the zone, or [NoSpace]. *)
Fixpoint meta_zone_loop (zs : list nat) : prog (IOStatus * option nat) :=
  match zs with
  | [] => ret (NoSpace, None)
  | i :: zs' =>
      let r := MetaZone i in
      got <- Acquire r ;;
      if got then
        z <- zone_at r ;;
        if negb (IsUsed z) then
          s <- (if negb (IsEmpty z) then Zone_Reset r else ret OK) ;;
          if negb (ok s) then
            status <- CheckRelease r ;;
            if negb (ok status) then ret (status, None) else meta_zone_loop zs'
          else ret (OK, Some i)
        else meta_zone_loop zs'
      else meta_zone_loop zs'
  end.
Definition AllocateMetaZone : prog (IOStatus * option nat) :=
  zs <- gets (λ b, seq 0 (length (meta_zones b))) ;; meta_zone_loop zs.

Fixpoint reset_unused_loop (zs : list nat) : prog IOStatus :=
  match zs with
  | [] => ret OK
  | i :: zs' =>
      let r := IoZone i in
      got <- Acquire r ;;
      if got then
        z <- zone_at r ;;
        if negb (IsEmpty z) && negb (IsUsed z) then
          let full := IsFull z in
          reset_status <- Zone_Reset r ;;
          release_status <- CheckRelease r ;;
          if negb (ok reset_status) then ret reset_status
          else if negb (ok release_status) then ret release_status
          else when (negb full) PutActiveIOZoneToken ;; reset_unused_loop zs'
        else
          release_status <- CheckRelease r ;;
          if negb (ok release_status) then ret release_status else reset_unused_loop zs'
      else reset_unused_loop zs'
  end.
Definition ResetUnusedIOZones : prog IOStatus := zs <- io_indices ;; reset_unused_loop zs.

Fixpoint finish_threshold_loop (zs : list nat) : prog IOStatus :=
  match zs with
  | [] => ret OK
  | i :: zs' =>
      let r := IoZone i in
      got <- Acquire r ;;
      if got then
        z <- zone_at r ;; threshold <- gets finish_threshold_ ;;
        let within := capacity_ z <? Z.quot (u64 (max_capacity_ z * threshold)) 100 in
        if negb (IsEmpty z || IsFull z) && within then
          s <- Zone_Finish r ;;
          if negb (ok s) then Release r ;; ret s else
          s <- CheckRelease r ;;
          if negb (ok s) then ret s else
          PutActiveIOZoneToken ;; finish_threshold_loop zs'
        else
          s <- CheckRelease r ;;
          if negb (ok s) then ret s else finish_threshold_loop zs'
      else finish_threshold_loop zs'
  end.
Definition ApplyFinishThreshold : prog IOStatus :=
  threshold <- gets finish_threshold_ ;;
  if threshold =? 0 then ret OK else zs <- io_indices ;; finish_threshold_loop zs.

(** The search for the zone with the least capacity left. *)
Fixpoint victim_loop (zs : list nat) (finish_victim : option nat) : prog (IOStatus * option nat) :=
  match zs with
  | [] => ret (OK, finish_victim)
  | i :: zs' =>
      let r := IoZone i in
      got <- Acquire r ;;
      if got then
        z <- zone_at r ;;
        if IsEmpty z || IsFull z then
          s <- CheckRelease r ;;
          if negb (ok s) then ret (s, finish_victim) else victim_loop zs' finish_victim
        else
          match finish_victim with
          | None => victim_loop zs' (Some i)
          | Some j =>
              v <- zone_at (IoZone j) ;;
              if capacity_ z <? capacity_ v then
                s <- CheckRelease (IoZone j) ;;
                if negb (ok s) then ret (s, finish_victim) else victim_loop zs' (Some i)
              else
                s <- CheckRelease r ;;
                if negb (ok s) then ret (s, finish_victim) else victim_loop zs' finish_victim
          end
      else victim_loop zs' finish_victim
  end.
Definition FinishCheapestIOZone : prog IOStatus :=
  zs <- io_indices ;; found <- victim_loop zs None ;;
  let '(s, finish_victim) := found in
  if negb (ok s) then ret s else
  match finish_victim with
  | None => ret OK
  | Some j =>
      s <- Zone_Finish (IoZone j) ;;
      release_status <- CheckRelease (IoZone j) ;;
      when (ok s) PutActiveIOZoneToken ;;
      if negb (ok release_status) then ret release_status else ret s
  end.

Fixpoint best_loop (file_lifetime min_capacity : Z) (zs : list nat) (best_diff : Z)
    (allocated_zone : option nat) : prog (IOStatus * Z * option nat) :=
  match zs with
  | [] => ret (OK, best_diff, allocated_zone)
  | i :: zs' =>
      let r := IoZone i in
      got <- Acquire r ;;
      if got then
        z <- zone_at r ;;
        if (0 <? used_capacity_ z) && negb (IsFull z) && (min_capacity <=? capacity_ z) then
          diff <- GetLifeTimeDiff (zlifetime_ z) file_lifetime ;;
          if diff <=? best_diff then
            s <- (match allocated_zone with Some j => CheckRelease (IoZone j) | None => ret OK end) ;;
            if negb (ok s) then
              s' <- CheckRelease r ;;
              if negb (ok s') then ret (s', best_diff, allocated_zone)
              else ret (s, best_diff, allocated_zone)
            else best_loop file_lifetime min_capacity zs' diff (Some i)
          else
            s <- CheckRelease r ;;
            if negb (ok s) then ret (s, best_diff, allocated_zone)
            else best_loop file_lifetime min_capacity zs' best_diff allocated_zone
        else
          s <- CheckRelease r ;;
          if negb (ok s) then ret (s, best_diff, allocated_zone)
          else best_loop file_lifetime min_capacity zs' best_diff allocated_zone
      else best_loop file_lifetime min_capacity zs' best_diff allocated_zone
  end.
Definition GetBestOpenZoneMatch (file_lifetime min_capacity : Z) : prog (IOStatus * Z * option nat) :=
  zs <- io_indices ;; best_loop file_lifetime min_capacity zs LIFETIME_DIFF_NOT_GOOD None.

Fixpoint empty_loop (zs : list nat) : prog (IOStatus * option nat) :=
  match zs with
  | [] => ret (OK, None)
  | i :: zs' =>
      let r := IoZone i in
      got <- Acquire r ;;
      if got then
        z <- zone_at r ;;
        if IsEmpty z then ret (OK, Some i) else
        s <- CheckRelease r ;;
        if negb (ok s) then ret (s, None) else empty_loop zs'
      else empty_loop zs'
  end.
Definition AllocateEmptyZone : prog (IOStatus * option nat) := zs <- io_indices ;; empty_loop zs.

(** [while (!got_token && !GetActiveIOZoneTokenIfAvailable())] finish a zone.  Every
    iteration that finds a zone to finish gives a token back; one more iteration than
    there are zones is enough, unless nothing can be finished. *)
Fixpoint token_loop (fuel : nat) (got_token : bool) : prog IOStatus :=
  if got_token then ret OK else
  got <- GetActiveIOZoneTokenIfAvailable ;;
  if got then ret OK else
  match fuel with
  | O => crash
  | S fuel' => s <- FinishCheapestIOZone ;; if negb (ok s) then ret s else token_loop fuel' false
  end.

(** Opening a new zone, once a token is at hand. *)
Definition take_empty (file_lifetime : Z) : prog (IOStatus * option nat) :=
  found <- AllocateEmptyZone ;;
  let '(s, allocated_zone) := found in
  if negb (ok s) then PutActiveIOZoneToken ;; PutOpenIOZoneToken ;; ret (s, None) else
  match allocated_zone with
  | Some i =>
      z <- zone_at (IoZone i) ;; assert (busy_ z) ;;
      zone_upd (IoZone i) (z_set_lifetime file_lifetime) ;; ret (OK, Some i)
  | None => PutActiveIOZoneToken ;; ret (OK, None)
  end.

(** The branch [best_diff >= LIFETIME_DIFF_COULD_BE_WORSE]. *)
Definition open_new (file_lifetime best_diff : Z) (allocated_zone : option nat) :
    prog (IOStatus * option nat) :=
  got_token <- GetActiveIOZoneTokenIfAvailable ;;
  kept <- (match allocated_zone with
    | Some i =>
        if negb got_token && (best_diff =? LIFETIME_DIFF_COULD_BE_WORSE) then ret (OK, Some i)
        else
          s <- CheckRelease (IoZone i) ;;
          if negb (ok s) then
            PutOpenIOZoneToken ;; when got_token PutActiveIOZoneToken ;; ret (s, None)
          else ret (OK, None)
    | None => ret (OK, None)
    end) ;;
  let '(s, allocated_zone) := kept in
  if negb (ok s) then ret (s, None) else
  match allocated_zone with
  | Some i => ret (OK, Some i)
  | None =>
      zones <- io_indices ;;
      s <- token_loop (S (length zones)) got_token ;;
      if negb (ok s) then PutOpenIOZoneToken ;; ret (s, None) else take_empty file_lifetime
  end.

Definition AllocateIOZone (file_lifetime : Z) (io_type : IOType) : prog (IOStatus * option nat) :=
  let wal := match io_type with kWAL => true | kUnknown => false end in
  s <- GetZoneDeferredStatus ;;
  if negb (ok s) then ret (s, None) else
  s <- (if negb wal then ApplyFinishThreshold else ret OK) ;;
  if negb (ok s) then ret (s, None) else
  WaitForOpenIOZoneToken wal ;;
  best <- GetBestOpenZoneMatch file_lifetime 0 ;;
  let '(s, best_diff, allocated_zone) := best in
  if negb (ok s) then PutOpenIOZoneToken ;; ret (s, None) else
  chosen <- (if LIFETIME_DIFF_COULD_BE_WORSE <=? best_diff
    then open_new file_lifetime best_diff allocated_zone else ret (OK, allocated_zone)) ;;
  let '(s, allocated_zone) := chosen in
  if negb (ok s) then ret (s, None) else
  match allocated_zone with
  | Some i => z <- zone_at (IoZone i) ;; assert (busy_ z) ;; ret (OK, Some i)
  | None => PutOpenIOZoneToken ;; ret (OK, None)
  end.

(** ** The migration zone *)

Definition ReleaseMigrateZone (zone : option nat) : prog IOStatus :=
  modify (set_migrating false) ;;
  match zone with Some i => CheckRelease (IoZone i) | None => ret OK end.

Definition TakeMigrateZone (file_lifetime min_capacity : Z) : prog (IOStatus * option nat) :=
  busy <- gets migrating_ ;; assert (negb busy) ;;
  modify (set_migrating true) ;;
  best <- GetBestOpenZoneMatch file_lifetime min_capacity ;;
  let '(s, _, out_zone) := best in
  when (negb (ok s && match out_zone with Some _ => true | None => false end))
    (modify (set_migrating false)) ;;
  ret (s, out_zone).
End zen_zbd.
