(* ===== verification/ZenFile.v ===== *)
(** * ZenFS: file metadata

    Extents, links and the encoding of files of [fs/io_zenfs.cc].  An operation that
    changes the space accounting of the zones runs on the zoned block device and returns
    the changed file. *)

From stdpp Require Import base numbers option list gmap.
From S2P Require Import Prelude ZenCoding ZenTypes ZenZbd.

Definition kFileID : Z := 1.
Definition kFileSize : Z := 3.
Definition kWriteLifeTimeHint : Z := 4.
Definition kExtent : Z := 5.
Definition kModificationTime : Z := 6.
Definition kActiveExtentStart : Z := 7.
Definition kIsSparse : Z := 8.
Definition kLinkedFilename : Z := 9.

(** The conversion of a [uint64_t] to [time_t]. *)
Definition s64 (x : Z) : Z := (x + 2 ^ 63) mod 2 ^ 64 - 2 ^ 63.

(** ** Encoding *)

Definition Extent_EncodeTo (e : ZoneExtent) (output : slice) : slice :=
  PutFixed64 (PutFixed64 output (e_start e)) (e_length e).

Definition put_extent (output : slice) (e : ZoneExtent) : slice :=
  PutLengthPrefixedSlice (PutFixed32 output kExtent) (Extent_EncodeTo e []).
Definition put_link (output : slice) (linkf : slice) : slice :=
  PutLengthPrefixedSlice (PutFixed32 output kLinkedFilename) linkf.

Definition ZoneFile_EncodeTo (f : ZoneFile) (output : slice) (extent_start : Z) : slice :=
  let output := PutFixed64 (PutFixed32 output kFileID) (file_id_ f) in
  let output := PutFixed64 (PutFixed32 output kFileSize) (file_size_ f) in
  let output := PutFixed32 (PutFixed32 output kWriteLifeTimeHint) (u32 (lifetime_ f)) in
  let output := foldl put_extent output (drop (Z.to_nat extent_start) (extents_ f)) in
  let output := PutFixed64 (PutFixed32 output kModificationTime) (u64 (m_time_ f)) in
  let output := PutFixed64 (PutFixed32 output kActiveExtentStart) (extent_start_ f) in
  let output := if is_sparse_ f then PutFixed32 output kIsSparse else output in
  foldl put_link output (linkfiles_ f).

Definition EncodeUpdateTo (f : ZoneFile) (output : slice) : slice :=
  ZoneFile_EncodeTo f output (nr_synced_extents_ f).
Definition File_EncodeSnapshotTo (f : ZoneFile) (output : slice) : slice := ZoneFile_EncodeTo f output 0.

Definition MetadataSynced (f : ZoneFile) : ZoneFile := f_set_synced (u32 (Z.of_nat (length (extents_ f)))) f.
Definition MetadataUnsynced (f : ZoneFile) : ZoneFile := f_set_synced 0 f.
Definition HasActiveExtent (f : ZoneFile) : bool := negb (extent_start_ f =? NO_EXTENT).

(** ** Links *)

(** [vector::erase] of the first element found by [std::find]. *)
Fixpoint erase_first (x : slice) (l : list slice) : list slice :=
  match l with [] => [] | y :: l' => if decide (y = x) then l' else y :: erase_first x l' end.

Definition AddLinkName (linkf : slice) (f : ZoneFile) : ZoneFile :=
  f_set_links (linkfiles_ f ++ [linkf]) f.
Definition RenameLink (src dest : slice) (f : ZoneFile) : IOStatus * ZoneFile :=
  if decide (src ∈ linkfiles_ f)
  then (OK, f_set_links (erase_first src (linkfiles_ f) ++ [dest]) f) else (IOError, f).
(** [RemoveLinkName] after its assertion that the file has links. *)
Definition RemoveLinkName (linkf : slice) (f : ZoneFile) : IOStatus * ZoneFile :=
  if decide (linkf ∈ linkfiles_ f)
  then (OK, f_set_links (erase_first linkf (linkfiles_ f)) f) else (IOError, f).

(** ** Extents *)

Fixpoint get_extent (es : list ZoneExtent) (file_offset : Z) : option (ZoneExtent * Z) :=
  match es with
  | [] => None
  | e :: es' =>
      if file_offset <? e_length e then Some (e, u64 (e_start e + file_offset))
      else get_extent es' (file_offset - e_length e)
  end.
(** The extent that holds an offset of the file, and the offset on the device. *)
Definition GetExtent (f : ZoneFile) (file_offset : Z) : option (ZoneExtent * Z) :=
  get_extent (extents_ f) file_offset.

(** [ZoneExtent::DecodeFrom]: start and length, or a length mismatch. *)
Definition Extent_DecodeFrom (input : slice) : option (Z * Z) :=
  if size input =? 16 then
    match GetFixed64 input with
    | Some (start, input) =>
        match GetFixed64 input with Some (length, _) => Some (start, length) | None => None end
    | None => None
    end
  else None.

Section zen_file.
Context {D : ZbdDev}.
Notation prog := (ST ZonedBlockDevice).

Definition used_add (i : nat) (n : Z) : prog unit :=
  zone_upd (IoZone i) (λ z, z_set_used (u64 (used_capacity_ z + n)) z).

(** [zone->used_capacity_ -= length] behind its assertion. *)
Definition used_sub (e : ZoneExtent) : prog unit :=
  z <- zone_at (IoZone (e_zone e)) ;;
  assert (e_length e <=? used_capacity_ z) ;;
  zone_upd (IoZone (e_zone e)) (z_set_used (u64 (used_capacity_ z - e_length e))).

Fixpoint each_extent (c : ZoneExtent → prog unit) (es : list ZoneExtent) : prog unit :=
  match es with [] => ret tt | e :: es' => c e ;; each_extent c es' end.

Definition ClearExtents (f : ZoneFile) : prog ZoneFile :=
  each_extent used_sub (extents_ f) ;; ret (f_set_extents [] f).

(** ** Decoding *)

(** The loop of [ZoneFile::DecodeFrom]; every round consumes at least the four bytes of a
    tag. *)
Fixpoint decode_loop (fuel : nat) (f : ZoneFile) (input : slice) : prog (IOStatus * ZoneFile) :=
  match GetFixed32 input with
  | None => ret (OK, MetadataSynced f)
  | Some (tag, input) =>
      match fuel with
      | O => crash
      | S fuel' =>
          if tag =? kFileSize then
            match GetFixed64 input with
            | Some (sz, input) => decode_loop fuel' (f_set_size sz f) input
            | None => ret (Corruption, f)
            end
          else if tag =? kWriteLifeTimeHint then
            match GetFixed32 input with
            | Some (lt, input) => decode_loop fuel' (f_set_lifetime lt f) input
            | None => ret (Corruption, f)
            end
          else if tag =? kExtent then
            match GetLengthPrefixedSlice input with
            | Some (sl, input) =>
                match Extent_DecodeFrom sl with
                | Some (start, length) =>
                    b <- get ;;
                    match GetIOZone b start with
                    | Some i =>
                        used_add i length ;;
                        decode_loop fuel' (f_set_extents (extents_ f ++ [mk_extent start length i]) f) input
                    | None => ret (Corruption, f)
                    end
                | None => ret (Corruption, f)
                end
            | None => ret (Corruption, f) (* the empty slice is no extent *)
            end
          else if tag =? kModificationTime then
            match GetFixed64 input with
            | Some (ct, input) => decode_loop fuel' (f_set_mtime (s64 ct) f) input
            | None => ret (Corruption, f)
            end
          else if tag =? kActiveExtentStart then
            match GetFixed64 input with
            | Some (es, input) => decode_loop fuel' (f_set_extent_start es f) input
            | None => ret (Corruption, f)
            end
          else if tag =? kIsSparse then decode_loop fuel' (f_set_sparse true f) input
          else if tag =? kLinkedFilename then
            match GetLengthPrefixedSlice input with
            | Some (sl, input) =>
                if size sl =? 0 then ret (Corruption, f)
                else decode_loop fuel' (f_set_links (linkfiles_ f ++ [sl]) f) input
            | None => ret (Corruption, f)
            end
          else ret (Corruption, f)
      end
  end.

Definition ZoneFile_DecodeFrom (f : ZoneFile) (input : slice) : prog (IOStatus * ZoneFile) :=
  match GetFixed32 input with
  | Some (tag, input) =>
      if negb (tag =? kFileID) then ret (Corruption, f) else
      match GetFixed64 input with
      | Some (id, input) => decode_loop (length input) (f_set_id id f) input
      | None => ret (Corruption, f)
      end
  | None => ret (Corruption, f)
  end.

(** [MergeUpdate] of [update] into [f]. *)
Definition MergeUpdate (f update : ZoneFile) (replace : bool) : prog (IOStatus * ZoneFile) :=
  if negb (file_id_ f =? file_id_ update) then ret (Corruption, f) else
  let f := f_set_mtime (m_time_ update) (f_set_lifetime (lifetime_ update)
    (f_set_size (file_size_ update) f)) in
  f <- (if replace then ClearExtents f else ret f) ;;
  each_extent (λ e, used_add (e_zone e) (e_length e)) (extents_ update) ;;
  let f := f_set_extents (extents_ f ++ extents_ update) f in
  let f := MetadataSynced (f_set_sparse (is_sparse_ update) (f_set_extent_start (extent_start_ update) f)) in
  ret (OK, f_set_links (linkfiles_ update) f).

(** [ReplaceExtentList]. *)
Definition ReplaceExtentList (f : ZoneFile) (new_list : list ZoneExtent) : prog ZoneFile :=
  assert (negb (open_for_wr_ f) && negb (bool_decide (new_list = []))) ;;
  assert (Nat.eqb (length new_list) (length (extents_ f))) ;;
  ret (f_set_extents new_list f).
End zen_file.
