(* ===== verification/ZenLog.v ===== *)
(** * ZenFS: the metadata log

    [ZenMetaLog] of [fs/fs_zenfs.cc]: records with a checksum and a length, padded to
    whole blocks, in one metadata zone.  The allocation of the write buffer is taken to
    succeed. *)

From stdpp Require Import base numbers option list gmap.
From S2P Require Import Prelude ZenCoding ZenTypes ZenZbd.

Definition zMetaHeaderSize : Z := 8.

Section zen_log.
Context {D : ZbdDev} {K : Crc32c}.
Notation prog := (ST ZonedBlockDevice).

(** The constructor: the log starts at the beginning of its zone. *)
Definition new_ZenMetaLog (zone : nat) : prog ZenMetaLog :=
  b <- get ;; z <- zone_at (MetaZone zone) ;;
  assert (busy_ z) ;; ret (mk_log (start_ z) zone (block_sz_ b)).

(** The destructor releases the zone. *)
Definition delete_ZenMetaLog (log : ZenMetaLog) : prog unit :=
  done <- Release (MetaZone (log_zone log)) ;; assert done.

(** The size of a record on the device. *)
Definition phys_size (bs record_sz : Z) : Z :=
  let phys_sz := record_sz + zMetaHeaderSize in
  if phys_sz mod bs =? 0 then phys_sz else phys_sz + (bs - phys_sz mod bs).

Definition record_crc (record_sz : Z) (data : slice) : Z :=
  crc32c_Extend (crc32c_Extend 0 (EncodeFixed32 record_sz)) data.

(** The buffer [AddRecord] fills. *)
Definition record_buffer (bs : Z) (data : slice) : slice :=
  let record_sz := u32 (size data) in
  let phys_sz := phys_size bs record_sz in
  let body := EncodeFixed32 (crc32c_Mask (record_crc record_sz data)) ++ EncodeFixed32 record_sz ++ data in
  body ++ replicate (Z.to_nat (phys_sz - size body)) 0.

Definition AddRecord (log : ZenMetaLog) (data : slice) : prog IOStatus :=
  assert (phys_size (bs_ log) (u32 (size data)) mod bs_ log =? 0) ;;
  Zone_Append (MetaZone (log_zone log)) (record_buffer (bs_ log) data).

(** The loop of [Read]: [left] bytes from [pos] on, [data] read so far. *)
Fixpoint read_loop (fuel : nat) (pos left : Z) (data : slice) : prog (IOStatus * slice * Z) :=
  if left <=? 0 then ret (OK, data, pos) else
  match fuel with
  | O => crash
  | S fuel' =>
      res <- dev_call (pread pos left) ;;
      match res with
      | None => ret (IOError, data, pos)
      | Some got => read_loop fuel' (u64 (pos + size got)) (left - size got) (data ++ got)
      end
  end.

(** [Read] of [to_read] bytes: status, bytes and the log moved on; no bytes at the end of
    the log. *)
Definition Log_Read (log : ZenMetaLog) (to_read : Z) : prog (IOStatus * slice * ZenMetaLog) :=
  z <- zone_at (MetaZone (log_zone log)) ;;
  if wp_ z <=? read_pos_ log then ret (OK, [], log)
  else if u64 (start_ z + max_capacity_ z) <? u64 (read_pos_ log + to_read) then ret (IOError, [], log)
  else
    res <- read_loop (Z.to_nat to_read) (read_pos_ log) to_read [] ;;
    let '(s, data, pos) := res in
    ret (s, data, mk_log pos (log_zone log) (bs_ log)).

(** [ReadRecord]: status, record (empty at the end of the log) and the log moved on. *)
Definition ReadRecord (log : ZenMetaLog) : prog (IOStatus * slice * ZenMetaLog) :=
  res <- Log_Read log zMetaHeaderSize ;;
  let '(s, header, log) := res in
  if negb (ok s) then ret (s, [], log) else
  if size header =? 0 then ret (OK, [], log) else
  (* a [GetFixed32] that fails leaves the zero it is given *)
  let '(crc, header) := default (0, header) (GetFixed32 header) in
  let '(record_sz, _) := default (0, header) (GetFixed32 header) in
  res <- Log_Read log record_sz ;;
  let '(s, record, log) := res in
  if negb (ok s) then ret (s, record, log) else
  if negb (record_crc record_sz record =? crc32c_Unmask crc) then ret (IOError, record, log) else
  let pos := read_pos_ log in
  let pos := if pos mod bs_ log =? 0 then pos else u64 (pos + (bs_ log - pos mod bs_ log)) in
  ret (OK, record, mk_log pos (log_zone log) (bs_ log)).
End zen_log.
