(* ===== verification/ZenFs.v ===== *)
(** * ZenFS: superblock and names

    The superblock of [fs/fs_zenfs.cc] and [fs/fs_zenfs.h], the [std::map] of names, and
    the path names that are its keys. *)

From stdpp Require Import base numbers option list gmap.
From S2P Require Import Prelude ZenCoding ZenTypes ZenZbd ZenFile ZenLog.

(** ** Superblock *)

Definition MAGIC : Z := 0x5a454e46.
Definition ENCODED_SIZE : Z := 512.
Definition CURRENT_SUPERBLOCK_VERSION : Z := 2.
Definition DEFAULT_FLAGS : Z := 0.

(** [sequence_] is advanced by the encoding. *)
Definition sb_next (sb : Superblock) : Superblock :=
  mk_super (magic_ sb) (uuid_ sb) (u32 (sequence_ sb + 1)) (superblock_version_ sb) (flags_ sb)
    (block_size_ sb) (zone_size_ sb) (sb_nr_zones_ sb) (aux_fs_path_ sb) (finish_treshold_ sb)
    (zenfs_version_ sb) (reserved_ sb).

(** [Superblock::EncodeTo] before its assertion on the size: the string and the superblock
    with the next sequence number. *)
Definition Superblock_EncodeTo (sb : Superblock) : slice * Superblock :=
  let sb := sb_next sb in
  let output := PutFixed32 [] (magic_ sb) ++ uuid_ sb in
  let output := PutFixed32 output (sequence_ sb) in
  let output := PutFixed32 output (superblock_version_ sb) in
  let output := PutFixed32 output (flags_ sb) in
  let output := PutFixed32 output (block_size_ sb) in
  let output := PutFixed32 output (zone_size_ sb) in
  let output := PutFixed32 output (sb_nr_zones_ sb) in
  let output := PutFixed32 output (finish_treshold_ sb) in
  (output ++ aux_fs_path_ sb ++ zenfs_version_ sb ++ reserved_ sb, sb).

(** A read of [n] bytes and of a 32-bit integer, off a slice known to be long enough. *)
Definition take_bytes (n : nat) (input : slice) : slice * slice := (take n input, drop n input).
Definition take32 (input : slice) : Z * slice := default (0, input) (GetFixed32 input).

Definition Superblock_DecodeFrom (input : slice) : IOStatus * option Superblock :=
  if negb (size input =? ENCODED_SIZE) then (Corruption, None) else
  let '(magic, input) := take32 input in
  let '(uuid, input) := take_bytes 37 input in
  let '(sequence, input) := take32 input in
  let '(version, input) := take32 input in
  let '(flags, input) := take32 input in
  let '(block_size, input) := take32 input in
  let '(zone_size, input) := take32 input in
  let '(nr_zones, input) := take32 input in
  let '(finish_treshold, input) := take32 input in
  let '(aux_fs_path, input) := take_bytes 256 input in
  let '(zenfs_version, input) := take_bytes 64 input in
  let '(reserved, input) := take_bytes 123 input in
  let sb := mk_super magic uuid sequence version flags block_size zone_size nr_zones
    aux_fs_path finish_treshold zenfs_version reserved in
  if negb (magic =? MAGIC) then (Corruption, Some sb)
  else if negb (version =? CURRENT_SUPERBLOCK_VERSION) then (Corruption, Some sb)
  else (OK, Some sb).

(** A [char] array as a string: up to its first zero. *)
Fixpoint c_string (l : slice) : slice :=
  match l with [] => [] | b :: l' => if b =? 0 then [] else b :: c_string l' end.
Definition GetAuxFsPath (sb : Superblock) : slice := c_string (aux_fs_path_ sb).

(** [strncpy] into an array of [n] zeros, the last of which is kept. *)
Definition char_array (n : nat) (s : slice) : slice :=
  let s := take (n - 1) (c_string s) in s ++ replicate (n - length s) 0.

Section zen_fs.
Context {D : ZbdDev} {K : Crc32c}.

(** The constructor for a new file system; [uuid] and [version] are what
    [GenerateUniqueId] gives and [ZENFS_VERSION]. *)
Definition new_Superblock (b : ZonedBlockDevice) (uuid version aux_fs_path : slice) (finish_threshold : Z) :
    Superblock :=
  let uuid := take 36 uuid in
  mk_super MAGIC (uuid ++ replicate (37 - length uuid) 0) 0 CURRENT_SUPERBLOCK_VERSION DEFAULT_FLAGS
    (u32 (block_sz_ b)) (u32 (Z.quot (zone_sz_ b) (block_sz_ b))) (nr_zones_ b)
    (char_array 256 aux_fs_path) finish_threshold (char_array 64 version) (replicate 123 0).

Definition CompatibleWith (sb : Superblock) (b : ZonedBlockDevice) : IOStatus :=
  if negb (block_size_ sb =? block_sz_ b) then Corruption
  else if negb (zone_size_ sb =? Z.quot (zone_sz_ b) (block_size_ sb)) then Corruption
  else if nr_zones_ b <? sb_nr_zones_ sb then Corruption
  else OK.
End zen_fs.

(** ** The map of names *)

(** [std::string::operator<]. *)
Fixpoint name_lt (x y : slice) : bool :=
  match x, y with
  | _, [] => false
  | [], _ :: _ => true
  | a :: x', b :: y' => if a <? b then true else if b <? a then false else name_lt x' y'
  end.

Definition files_find (fs : list (slice * nat)) (k : slice) : option nat :=
  snd <$> find (λ e, bool_decide (e.1 = k)) fs.
(** [std::map::insert] keeps an entry that exists. *)
Fixpoint files_insert (k : slice) (h : nat) (fs : list (slice * nat)) : list (slice * nat) :=
  match fs with
  | [] => [(k, h)]
  | (k', h') :: fs' =>
      if decide (k = k') then fs
      else if name_lt k k' then (k, h) :: fs else (k', h') :: files_insert k h fs'
  end.
Definition files_erase (k : slice) (fs : list (slice * nat)) : list (slice * nat) :=
  filter (λ e, e.1 ≠ k) fs.

(** ** Path names *)

Definition slash : Z := 47.
Definition dot : Z := 46.

(** The segments of a path between separators. *)
Fixpoint segments (p : slice) (cur : slice) : list slice :=
  match p with
  | [] => [cur]
  | b :: p' => if b =? slash then cur :: segments p' [] else segments p' (cur ++ [b])
  end.

(** Normal form of the components; the flag says whether what is left ends with a
    separator. *)
Fixpoint norm_segments (absolute : bool) (segs : list slice) (stack : list slice) (dir : bool) :
    list slice * bool :=
  match segs with
  | [] => (reverse stack, dir)
  | s :: segs' =>
      if bool_decide (s = []) then norm_segments absolute segs' stack true
      else if bool_decide (s = [dot]) then norm_segments absolute segs' stack true
      else if bool_decide (s = [dot; dot]) then
        match stack with
        | t :: stack' =>
            if bool_decide (t = [dot; dot]) then norm_segments absolute segs' (s :: stack) false
            else norm_segments absolute segs' stack' true
        | [] => if absolute then norm_segments absolute segs' [] true
                else norm_segments absolute segs' [s] false
        end
      else norm_segments absolute segs' (s :: stack) false
  end.

Fixpoint join (segs : list slice) : slice :=
  match segs with
  | [] => []
  | [s] => s
  | s :: segs' => s ++ [slash] ++ join segs'
  end.

Definition is_absolute (p : slice) : bool := match p with b :: _ => b =? slash | [] => false end.

(** [std::filesystem::path::lexically_normal] on a POSIX system. *)
Definition lexically_normal (p : slice) : slice :=
  match p with
  | [] => []
  | _ =>
      let absolute := is_absolute p in
      let '(segs, dir) := norm_segments absolute (segments p []) [] false in
      let root := if absolute then [slash] else [] in
      match segs with
      | [] => if absolute then [slash] else [dot]
      | _ => root ++ join segs ++
          (if dir && negb (bool_decide (last segs = Some [dot; dot])) then [slash] else [])
      end
  end.

(** ["/" / filepath.lexically_normal()]: an absolute path replaces the left one. *)
Definition FormatPathLexically (filepath : slice) : slice :=
  let p := lexically_normal filepath in if is_absolute p then p else slash :: p.
