(* ===== verification/ZenMeta.v ===== *)
(** * ZenFS: metadata records and recovery

    Snapshot, update and deletion records, the functions that persist them, and
    [RecoverFrom], of [fs/fs_zenfs.cc], on the state of the file system.  A shared pointer
    to a file is a key of [objs]; an object is destroyed when the last of the names and
    open writers that refer to it is gone. *)

From stdpp Require Import base numbers option list gmap.
From S2P Require Import Prelude ZenCoding ZenTypes ZenZbd ZenFile ZenLog ZenFs.

Definition kCompleteFilesSnapshot : Z := 1.
Definition kFileUpdate : Z := 2.
Definition kFileDeletion : Z := 3.
Definition kEndRecord : Z := 4.
Definition kFileReplace : Z := 5.

Section zen_meta.
Context {D : ZbdDev} {K : Crc32c}.
Notation prog := (ST ZenFS).

Definition in_zbd {A} (c : ST ZonedBlockDevice A) : prog A := λ s,
  match c (zbd_ s) with Done a b => Done a (set_zbd b s) | Crash => Crash end.

(** ** Objects *)

Definition file_at (h : nat) : prog ZoneFile := s <- get ;; load (objs s !! h).
Definition file_put (h : nat) (f : ZoneFile) : prog unit := modify (λ s, set_objs (<[h := f]> (objs s)) s).
Definition new_file (f : ZoneFile) : prog nat :=
  s <- get ;; put (set_next_obj (S (next_obj s)) (set_objs (<[next_obj s := f]> (objs s)) s)) ;;
  ret (next_obj s).

Definition referenced (s : ZenFS) (h : nat) : bool :=
  existsb (λ e, Nat.eqb e.2 h) (files_ s) || existsb (Nat.eqb h) (handles s).

(** ** Snapshots *)

Definition put_file (os : gmap nat ZoneFile) (files_string : slice) (e : slice * nat) : slice :=
  match os !! e.2 with
  | Some f => PutLengthPrefixedSlice files_string (File_EncodeSnapshotTo f [])
  | None => files_string
  end.
(** [ZenFS::EncodeSnapshotTo]; every entry of [files_] refers to an object. *)
Definition EncodeSnapshotTo (s : ZenFS) : slice :=
  PutLengthPrefixedSlice (PutFixed32 [] kCompleteFilesSnapshot) (foldl (put_file (objs s)) [] (files_ s)).

Definition EncodeFileDeletionTo (f : ZoneFile) (linkf : slice) : slice :=
  let file_string := PutLengthPrefixedSlice (PutFixed64 [] (file_id_ f)) linkf in
  PutLengthPrefixedSlice (PutFixed32 [] kFileDeletion) file_string.

(** All files of [files_] are synced after a snapshot. *)
Definition all_synced : prog unit :=
  modify (λ s, set_objs (foldr (λ e os, alter MetadataSynced e.2 os) (objs s) (files_ s)) s).

Definition WriteSnapshotLocked (log : ZenMetaLog) : prog IOStatus :=
  snapshot <- gets EncodeSnapshotTo ;;
  s <- in_zbd (AddRecord log snapshot) ;;
  when (ok s) all_synced ;; ret s.

Definition WriteEndRecord (log : ZenMetaLog) : prog IOStatus :=
  in_zbd (AddRecord log (PutFixed32 [] kEndRecord)).

(** ** Persisting *)

Definition log_capacity (log : ZenMetaLog) : prog Z :=
  z <- in_zbd (zone_at (MetaZone (log_zone log))) ;; ret (GetCapacityLeft z).

(** The end record of a log that is given up, if there is room; the zone is finished. *)
Definition end_log (old_meta_log : ZenMetaLog) : prog unit :=
  left <- log_capacity old_meta_log ;;
  when (negb (left =? 0)) (WriteEndRecord old_meta_log ;; ret tt) ;;
  left <- log_capacity old_meta_log ;;
  when (negb (left =? 0)) (in_zbd (Zone_Finish (MetaZone (log_zone old_meta_log))) ;; ret tt).

Definition RollMetaZoneLocked : prog IOStatus :=
  r <- in_zbd AllocateMetaZone ;;
  let '(status, new_meta_zone) := r in
  if negb (ok status) then ret status else
  zone <- load new_meta_zone ;;
  new_meta_log <- in_zbd (new_ZenMetaLog zone) ;;
  old <- gets meta_log_ ;; old_meta_log <- load old ;;
  modify (set_meta_log (Some new_meta_log)) ;;
  end_log old_meta_log ;;
  sb <- gets superblock_ ;; sb <- load sb ;;
  let '(super_string, sb) := Superblock_EncodeTo sb in
  modify (set_superblock (Some sb)) ;;
  assert (size super_string =? ENCODED_SIZE) ;;
  s <- in_zbd (AddRecord new_meta_log super_string) ;;
  s <- (if negb (ok s) then ret IOError else
    s <- WriteSnapshotLocked new_meta_log ;;
    when (ok s) (in_zbd (Zone_Reset (MetaZone (log_zone old_meta_log))) ;; ret tt) ;;
    ret s) ;;
  in_zbd (delete_ZenMetaLog old_meta_log) ;;
  ret s.

Definition PersistSnapshot (log : ZenMetaLog) : prog IOStatus :=
  s <- WriteSnapshotLocked log ;;
  if status_eq s NoSpace then RollMetaZoneLocked else ret s.

Definition PersistRecord (record : slice) : prog IOStatus :=
  log <- gets meta_log_ ;; log <- load log ;;
  s <- in_zbd (AddRecord log record) ;;
  if status_eq s NoSpace then RollMetaZoneLocked else ret s.

(** [SyncFileMetadataNoLock] at time [now]; the message for a deleted file reads its
    first name. *)
Definition SyncFileMetadataNoLock (now : Z) (h : nat) (replace : bool) : prog IOStatus :=
  f <- file_at h ;;
  if is_deleted_ f then load (head (linkfiles_ f)) ;; ret OK else
  f <- (if replace then ret f else let f := f_set_mtime now f in file_put h f ;; ret f) ;;
  let output := PutFixed32 [] (if replace then kFileReplace else kFileUpdate) in
  let output := PutLengthPrefixedSlice output (EncodeUpdateTo f []) in
  s <- PersistRecord output ;;
  when (ok s) (f <- file_at h ;; file_put h (MetadataSynced f)) ;; ret s.

(** [ZenFSMetadataWriter::Persist], whose message reads the first name of the file. *)
Definition Persist (now : Z) (h : nat) : prog IOStatus :=
  f <- file_at h ;; load (head (linkfiles_ f)) ;; SyncFileMetadataNoLock now h false.

(** ** Closing files *)

(** [CloseActiveZone] of [fs/io_zenfs.cc]. *)
Definition CloseActiveZone (h : nat) : prog IOStatus :=
  f <- file_at h ;;
  match active_zone_ f with
  | None => ret OK
  | Some i =>
      z <- in_zbd (zone_at (IoZone i)) ;;
      let full := IsFull z in
      s <- in_zbd (Zone_Close (IoZone i)) ;;
      done <- in_zbd (Release (IoZone i)) ;; assert done ;;
      file_put h (f_set_active None f) ;;
      if negb (ok s) then ret s else
      in_zbd PutOpenIOZoneToken ;;
      when full (in_zbd PutActiveIOZoneToken) ;; ret s
  end.

(** [CloseWR] of [fs/io_zenfs.cc]. *)
Definition CloseWR (now : Z) (h : nat) : prog IOStatus :=
  f <- file_at h ;;
  if open_for_wr_ f then
    file_put h (f_set_extent_start NO_EXTENT f) ;;
    s <- Persist now h ;;
    if negb (ok s) then ret s else
    f <- file_at h ;; file_put h (f_set_open false f) ;;
    CloseActiveZone h
  else ret OK.

(** The destructor [ZoneFile::~ZoneFile]. *)
Definition delete_ZoneFile (now : Z) (h : nat) : prog unit :=
  f <- file_at h ;;
  f <- in_zbd (ClearExtents f) ;; file_put h f ;;
  s <- CloseWR now h ;;
  when (negb (ok s)) (in_zbd (SetZoneDeferredStatus s)) ;;
  modify (λ s, set_objs (delete h (objs s)) s).

(** The end of the life of a shared pointer. *)
Definition drop_file (now : Z) (h : nat) : prog unit :=
  s <- get ;; when (negb (referenced s h)) (delete_ZoneFile now h).

(** ** Recovery *)

(** The pointers of [files_] are reset one after the other. *)
Fixpoint drop_files (now : Z) (fs : list (slice * nat)) : prog unit :=
  match fs with
  | [] => ret tt
  | e :: fs' => modify (set_files fs') ;; drop_file now e.2 ;; drop_files now fs'
  end.
Definition ClearFiles (now : Z) : prog unit := fs <- gets files_ ;; drop_files now fs.

Definition insert_names (names : list slice) (h : nat) : prog unit :=
  modify (λ s, set_files (foldl (λ fs name, files_insert name h fs) (files_ s) names) s).

(** Erase all names; [false] when one is missing. *)
Fixpoint erase_names (names : list slice) : prog bool :=
  match names with
  | [] => ret true
  | name :: names' =>
      fs <- gets files_ ;;
      match files_find fs name with
      | Some _ => modify (set_files (files_erase name fs)) ;; erase_names names'
      | None => ret false
      end
  end.

Definition see_id (id : Z) : prog unit :=
  s <- get ;; when (next_file_id_ s <=? id) (modify (set_next_file_id (u64 (id + 1)))).

(** The first file of [files_] with an id. *)
Definition find_id (s : ZenFS) (id : Z) : option nat :=
  snd <$> find (λ e, match objs s !! e.2 with Some f => file_id_ f =? id | None => false end) (files_ s).

(** A new object, filled by [ZoneFile::DecodeFrom]. *)
Definition decode_new (sl : slice) : prog (IOStatus * nat * ZoneFile) :=
  h <- new_file (new_ZoneFile 0) ;;
  f <- file_at h ;;
  r <- in_zbd (ZoneFile_DecodeFrom f sl) ;;
  let '(s, f) := r in file_put h f ;; ret (s, h, f).

Definition DecodeFileUpdateFrom (now : Z) (sl : slice) (replace : bool) : prog IOStatus :=
  r <- decode_new sl ;;
  let '(s, update, u) := r in
  if negb (ok s) then drop_file now update ;; ret s else
  see_id (file_id_ u) ;;
  found <- gets (λ fs, find_id fs (file_id_ u)) ;;
  match found with
  | Some h =>
      f <- file_at h ;;
      erased <- erase_names (linkfiles_ f) ;;
      if negb erased then drop_file now h ;; drop_file now update ;; ret Corruption else
      r <- in_zbd (MergeUpdate f u replace) ;;
      let '(s, f) := r in
      file_put h f ;;
      drop_file now update ;;
      if negb (ok s) then drop_file now h ;; ret s else
      insert_names (linkfiles_ f) h ;;
      drop_file now h ;; ret OK
  | None =>
      name <- load (head (linkfiles_ u)) ;;
      fs <- gets files_ ;;
      assert (bool_decide (files_find fs (FormatPathLexically name) = None)) ;;
      insert_names [name] update ;;
      drop_file now update ;; ret OK
  end.

(** The loop of [DecodeSnapshotFrom]; every round consumes at least one byte. *)
Fixpoint snapshot_loop (now : Z) (fuel : nat) (input : slice) : prog IOStatus :=
  match GetLengthPrefixedSlice input with
  | None => ret OK
  | Some (sl, input) =>
      match fuel with
      | O => crash
      | S fuel' =>
          r <- decode_new sl ;;
          let '(s, h, f) := r in
          if negb (ok s) then drop_file now h ;; ret s else
          see_id (file_id_ f) ;;
          insert_names (linkfiles_ f) h ;;
          drop_file now h ;;
          snapshot_loop now fuel' input
      end
  end.
Definition DecodeSnapshotFrom (now : Z) (input : slice) : prog IOStatus :=
  fs <- gets files_ ;; assert (bool_decide (fs = [])) ;; snapshot_loop now (length input) input.

Definition DecodeFileDeletionFrom (now : Z) (input : slice) : prog IOStatus :=
  match GetFixed64 input with
  | None => ret Corruption
  | Some (fileID, input) =>
      match GetLengthPrefixedSlice input with
      | None => ret Corruption
      | Some (fileName, _) =>
          fs <- gets files_ ;;
          match files_find fs fileName with
          | None => ret Corruption
          | Some h =>
              f <- file_at h ;;
              if negb (file_id_ f =? fileID) then ret Corruption else
              modify (set_files (files_erase fileName fs)) ;;
              assert (negb (bool_decide (linkfiles_ f = []))) ;;
              let '(s, f) := RemoveLinkName fileName f in
              file_put h f ;;
              drop_file now h ;;
              if negb (ok s) then ret Corruption else ret OK
          end
      end
  end.

(** What one record does to the loop of [RecoverFrom]: go on, stop reading, or return. *)
Inductive recovery := Continue (snapshot : bool) | Stop | Return (s : IOStatus).

Definition recover_record (now : Z) (record : slice) : prog recovery :=
  match GetFixed32 record with
  | None => ret Stop
  | Some (tag, record) =>
      if tag =? kEndRecord then ret Stop else
      match GetLengthPrefixedSlice record with
      | None => ret (Return Corruption)
      | Some (data, _) =>
          if tag =? kCompleteFilesSnapshot then
            ClearFiles now ;; s <- DecodeSnapshotFrom now data ;;
            ret (if negb (ok s) then Return s else Continue true)
          else if tag =? kFileUpdate then
            s <- DecodeFileUpdateFrom now data false ;;
            ret (if negb (ok s) then Return s else Continue false)
          else if tag =? kFileReplace then
            s <- DecodeFileUpdateFrom now data true ;;
            ret (if negb (ok s) then Return s else Continue false)
          else if tag =? kFileDeletion then
            s <- DecodeFileDeletionFrom now data ;;
            ret (if negb (ok s) then Return s else Continue false)
          else ret (Return Corruption)
      end
  end.

(** [RecoverFrom]: a record takes at least one block of the zone of the log, so the number
    of blocks left, and one for the end of the log, bounds the iterations. *)
Fixpoint recover_loop (now : Z) (fuel : nat) (log : ZenMetaLog) (at_least_one_snapshot : bool) :
    prog IOStatus :=
  match fuel with
  | O => crash
  | S fuel' =>
      r <- in_zbd (ReadRecord log) ;;
      let '(rs, record, log) := r in
      if negb (ok rs) then ret Corruption else
      c <- recover_record now record ;;
      match c with
      | Continue snapshot => recover_loop now fuel' log (at_least_one_snapshot || snapshot)
      | Stop => ret (if at_least_one_snapshot then OK else NotFound)
      | Return s => ret s
      end
  end.
Definition RecoverFrom (now : Z) (log : ZenMetaLog) : prog IOStatus :=
  z <- in_zbd (zone_at (MetaZone (log_zone log))) ;;
  recover_loop now (S (Z.to_nat (wp_ z - read_pos_ log))) log false.
End zen_meta.
