(* ===== verification/ZenIo.v ===== *)
(** * ZenFS: file input and output

    Reading, appending, recovering and migrating a [ZoneFile] of [fs/io_zenfs.cc].  Reads
    need only the device; appends may allocate a zone and persist metadata, so they run on
    the file system and name the file by its object.  Allocations of memory succeed. *)

From stdpp Require Import base numbers option list gmap.
From S2P Require Import Prelude ZenCoding ZenTypes ZenZbd ZenFile ZenLog ZenFs ZenMeta.

Definition SPARSE_HEADER_SIZE : Z := 8.

(** Bytes of [data] at offset [off] of a buffer. *)
Definition buf_write (off : Z) (data buf : slice) : slice :=
  take (Z.to_nat off) buf ++ data ++ drop (Z.to_nat off + length data) buf.
Definition buf_read (off n : Z) (buf : slice) : slice := take (Z.to_nat n) (drop (Z.to_nat off) buf).

(** Zeros up to the next block boundary. *)
Definition pad_size (wr_size block_sz : Z) : Z :=
  let align := wr_size mod block_sz in if align =? 0 then 0 else block_sz - align.
Definition pad_buffer (wr_size block_sz : Z) (buf : slice) : slice :=
  let pad_sz := pad_size wr_size block_sz in
  if pad_sz =? 0 then buf else buf_write wr_size (replicate (Z.to_nat pad_sz) 0) buf.

Definition SetActiveZone_ok (z : Zone) (f : ZoneFile) : bool :=
  bool_decide (active_zone_ f = None) && busy_ z.

Section zen_io.
Context {D : ZbdDev} {K : Crc32c}.

(** ** Reading *)

(** The loop of [PositionedRead]: bytes read so far, and whether the last [pread] failed.
    A [pread] that returns at least one byte adds at least one byte, so what is left to
    read bounds the iterations. *)
Fixpoint pread_loop (fuel : nat) (f : ZoneFile) (direct : bool) (offset r_sz r_off extent_end : Z)
    (read : slice) : ST ZonedBlockDevice (bool * slice) :=
  if size read =? r_sz then ret (false, read) else
  match fuel with
  | O => crash
  | S fuel' =>
      block_sz <- gets block_sz_ ;;
      let pread_sz := r_sz - size read in
      let pread_sz := if extent_end <? u64 (pread_sz + r_off) then u64 (extent_end - r_off) else pread_sz in
      let bytes_to_align := if direct then pad_size pread_sz block_sz else 0 in
      r <- dev_call (pread r_off (pread_sz + bytes_to_align)) ;;
      match r with
      | None => ret (true, read)
      | Some [] => ret (false, read)
      | Some got =>
          let got := take (Z.to_nat pread_sz) got in
          let read := read ++ got in
          let r_off := u64 (r_off + size got) in
          if negb (size read =? r_sz) && (r_off =? extent_end) then
            match GetExtent f (u64 (offset + size read)) with
            | None => ret (false, read)
            | Some (extent, _) =>
                pread_loop fuel' f direct offset r_sz (e_start extent)
                  (u64 (e_start extent + e_length extent)) read
            end
          else pread_loop fuel' f direct offset r_sz r_off extent_end read
      end
  end.

(** [ZoneFile::PositionedRead]: the status and the result. *)
Definition PositionedRead (f : ZoneFile) (offset n : Z) (direct : bool) : ST ZonedBlockDevice (IOStatus * slice) :=
  if file_size_ f <=? offset then ret (OK, []) else
  match GetExtent f offset with
  | None => ret (OK, [])
  | Some (extent, r_off) =>
      let extent_end := u64 (e_start extent + e_length extent) in
      let r_sz := if file_size_ f <? u64 (offset + n) then file_size_ f - offset else n in
      res <- pread_loop (Z.to_nat r_sz) f direct offset r_sz r_off extent_end [] ;;
      let '(failed, read) := res in
      ret (if failed : bool then (IOError, []) else (OK, read))
  end.

(** ** Appending *)

Notation prog := (ST ZenFS).

Definition PushExtent (h : nat) : prog unit :=
  f <- file_at h ;;
  assert (extent_filepos_ f <=? file_size_ f) ;;
  match active_zone_ f with
  | None => ret tt
  | Some i =>
      let length := file_size_ f - extent_filepos_ f in
      if length =? 0 then ret tt else
      z <- in_zbd (zone_at (IoZone i)) ;;
      assert (length <=? u64 (wp_ z - extent_start_ f)) ;;
      in_zbd (used_add i length) ;;
      file_put h (f_set_filepos (file_size_ f) (f_set_extent_start (wp_ z)
        (f_set_extents (extents_ f ++ [mk_extent (extent_start_ f) length i]) f)))
  end.

(** [AllocateNewZone] and [SetActiveZone]. *)
Definition AllocateNewZone (now : Z) (h : nat) : prog IOStatus :=
  f <- file_at h ;;
  r <- in_zbd (AllocateIOZone (lifetime_ f) (io_type_ f)) ;;
  let '(s, zone) := r in
  if negb (ok s) then ret s else
  match zone with
  | None => ret NoSpace
  | Some i =>
      z <- in_zbd (zone_at (IoZone i)) ;;
      assert (SetActiveZone_ok z f) ;;
      file_put h (f_set_filepos (file_size_ f) (f_set_extent_start (wp_ z) (f_set_active (Some i) f))) ;;
      Persist now h
  end.

Definition need_zone (now : Z) (h : nat) : prog IOStatus :=
  f <- file_at h ;;
  match active_zone_ f with None => AllocateNewZone now h | Some _ => ret OK end.

(** A new extent of [length] bytes at [start], after its bytes are on the device. *)
Definition add_extent (h i : nat) (start length : Z) : prog unit :=
  f <- file_at h ;; z <- in_zbd (zone_at (IoZone i)) ;;
  in_zbd (used_add i length) ;;
  file_put h (f_set_size (u64 (file_size_ f + length)) (f_set_extent_start (wp_ z)
    (f_set_extents (extents_ f ++ [mk_extent start length i]) f))).

(** The loop of [BufferedAppend]; the buffer is returned as it is left.  [memcpy] on
    overlapping ranges is undefined.  Every iteration on a zone with capacity writes at
    least one byte. *)
Fixpoint buffered_loop (now : Z) (fuel : nat) (h : nat) (buffer : slice) (left : Z) : prog (IOStatus * slice) :=
  if left =? 0 then ret (OK, buffer) else
  match fuel with
  | O => crash
  | S fuel' =>
      f <- file_at h ;; block_sz <- gets (λ s, block_sz_ (zbd_ s)) ;;
      i <- load (active_zone_ f) ;; z <- in_zbd (zone_at (IoZone i)) ;;
      let wr_size := if capacity_ z <? left then capacity_ z else left in
      let buffer := pad_buffer wr_size block_sz buffer in
      s <- in_zbd (Zone_Append (IoZone i) (buf_read 0 (u32 (wr_size + pad_size wr_size block_sz)) buffer)) ;;
      if negb (ok s) then ret (s, buffer) else
      add_extent h i (extent_start_ f) wr_size ;;
      let left := left - wr_size in
      z <- in_zbd (zone_at (IoZone i)) ;;
      if capacity_ z =? 0 then
        s <- CloseActiveZone h ;;
        if negb (ok s) then ret (s, buffer) else
        assert (left <=? wr_size) ;;
        let buffer := buf_write 0 (buf_read wr_size left buffer) buffer in
        s <- AllocateNewZone now h ;;
        if negb (ok s) then ret (s, buffer) else buffered_loop now fuel' h buffer left
      else buffered_loop now fuel' h buffer left
  end.
Definition BufferedAppend (now : Z) (h : nat) (buffer : slice) (data_size : Z) : prog (IOStatus * slice) :=
  s <- need_zone now h ;;
  if negb (ok s) then ret (s, buffer) else buffered_loop now (Z.to_nat data_size) h buffer data_size.

(** The loop of [SparseAppend]: every extent has a header with its length.  A zone with
    less room than the header makes the length wrap around. *)
Fixpoint sparse_loop (now : Z) (fuel : nat) (h : nat) (sparse_buffer : slice) (left : Z) : prog (IOStatus * slice) :=
  if left =? 0 then ret (OK, sparse_buffer) else
  match fuel with
  | O => crash
  | S fuel' =>
      f <- file_at h ;; block_sz <- gets (λ s, block_sz_ (zbd_ s)) ;;
      i <- load (active_zone_ f) ;; z <- in_zbd (zone_at (IoZone i)) ;;
      let wr_size := u32 (left + SPARSE_HEADER_SIZE) in
      let wr_size := if capacity_ z <? wr_size then capacity_ z else wr_size in
      let sparse_buffer := pad_buffer wr_size block_sz sparse_buffer in
      let extent_length := u32 (wr_size - SPARSE_HEADER_SIZE) in
      let sparse_buffer := buf_write 0 (EncodeFixed64 extent_length) sparse_buffer in
      s <- in_zbd (Zone_Append (IoZone i) (buf_read 0 (u32 (wr_size + pad_size wr_size block_sz)) sparse_buffer)) ;;
      if negb (ok s) then ret (s, sparse_buffer) else
      add_extent h i (u64 (extent_start_ f + SPARSE_HEADER_SIZE)) extent_length ;;
      let left := u32 (left - extent_length) in
      z <- in_zbd (zone_at (IoZone i)) ;;
      if capacity_ z =? 0 then
        s <- CloseActiveZone h ;;
        if negb (ok s) then ret (s, sparse_buffer) else
        assert (left <=? extent_length) ;;
        let sparse_buffer := buf_write SPARSE_HEADER_SIZE (buf_read wr_size left sparse_buffer) sparse_buffer in
        s <- AllocateNewZone now h ;;
        if negb (ok s) then ret (s, sparse_buffer) else sparse_loop now fuel' h sparse_buffer left
      else sparse_loop now fuel' h sparse_buffer left
  end.
Definition SparseAppend (now : Z) (h : nat) (sparse_buffer : slice) (data_size : Z) : prog (IOStatus * slice) :=
  s <- need_zone now h ;;
  if negb (ok s) then ret (s, sparse_buffer) else sparse_loop now (Z.to_nat data_size) h sparse_buffer data_size.

(** The loop of [ZoneFile::Append]: [data] is what is left to write. *)
Fixpoint direct_loop (now : Z) (fuel : nat) (h : nat) (data : slice) : prog IOStatus :=
  match data with
  | [] => ret OK
  | _ =>
      match fuel with
      | O => crash
      | S fuel' =>
          f <- file_at h ;; i <- load (active_zone_ f) ;; z <- in_zbd (zone_at (IoZone i)) ;;
          s <- (if capacity_ z =? 0 then
                  PushExtent h ;;
                  s <- CloseActiveZone h ;;
                  if negb (ok s) then ret s else AllocateNewZone now h
                else ret OK) ;;
          if negb (ok s) then ret s else
          f <- file_at h ;; i <- load (active_zone_ f) ;; z <- in_zbd (zone_at (IoZone i)) ;;
          let wr_size := if capacity_ z <? size data then capacity_ z else size data in
          s <- in_zbd (Zone_Append (IoZone i) (take (Z.to_nat wr_size) data)) ;;
          if negb (ok s) then ret s else
          f <- file_at h ;; file_put h (f_set_size (u64 (file_size_ f + wr_size)) f) ;;
          direct_loop now fuel' h (drop (Z.to_nat wr_size) data)
      end
  end.
(** [ZoneFile::Append]: the size is passed as 32 bits. *)
Definition File_Append (now : Z) (h : nat) (data : slice) : prog IOStatus :=
  let data := take (Z.to_nat (u32 (size data))) data in
  s <- need_zone now h ;;
  if negb (ok s) then ret s else direct_loop now (length data) h data.

(** ** Recovery of the extents that were not persisted *)

(** The loop of [RecoverSparseExtents].  A header moves on by at least one block, unless
    its length wraps around. *)
Fixpoint sparse_recover_loop (fuel : nat) (next_extent_start end_ : Z) (i : nat) (f : ZoneFile) :
    ST ZonedBlockDevice (IOStatus * ZoneFile) :=
  if end_ <=? next_extent_start then ret (OK, f) else
  match fuel with
  | O => crash
  | S fuel' =>
      block_sz <- gets block_sz_ ;;
      r <- dev_call (pread next_extent_start block_sz) ;;
      match r with
      | None => ret (IOError, f)
      | Some buffer =>
          if negb (size buffer =? block_sz) then ret (IOError, f) else
          let extent_length := DecodeFixed64 buffer in
          if extent_length =? 0 then ret (IOError, f) else
          used_add i extent_length ;;
          let f := f_set_extents (extents_ f ++
            [mk_extent (u64 (next_extent_start + SPARSE_HEADER_SIZE)) extent_length i]) f in
          let seg := u64 (extent_length + SPARSE_HEADER_SIZE) in
          let extent_blocks := seg / block_sz + (if seg mod block_sz =? 0 then 0 else 1) in
          sparse_recover_loop fuel' (u64 (next_extent_start + extent_blocks * block_sz)) end_ i f
      end
  end.
Definition RecoverSparseExtents (start end_ : Z) (i : nat) (f : ZoneFile) :
    ST ZonedBlockDevice (IOStatus * ZoneFile) :=
  sparse_recover_loop (Z.to_nat (end_ - start)) start end_ i f.

Definition extents_size (es : list ZoneExtent) : Z := foldl (λ n e, u64 (n + e_length e)) 0 es.

(** [ZoneFile::Recover]. *)
Definition File_Recover (f : ZoneFile) : ST ZonedBlockDevice (IOStatus * ZoneFile) :=
  if negb (HasActiveExtent f) then ret (OK, f) else
  b <- get ;;
  match GetIOZone b (extent_start_ f) with
  | None => ret (IOError, f)
  | Some i =>
      z <- zone_at (IoZone i) ;;
      if wp_ z <? extent_start_ f then ret (IOError, f) else
      let to_recover := wp_ z - extent_start_ f in
      if to_recover =? 0 then ret (OK, f_set_extent_start NO_EXTENT f) else
      r <- (if is_sparse_ f then RecoverSparseExtents (extent_start_ f) (wp_ z) i f
            else used_add i to_recover ;;
                 ret (OK, f_set_extents (extents_ f ++ [mk_extent (extent_start_ f) to_recover i]) f)) ;;
      let '(s, f) := r in
      if negb (ok s) then ret (s, f) else
      ret (OK, f_set_size (extents_size (extents_ f)) (f_set_extent_start NO_EXTENT f))
  end.

(** ** Migration *)

(** [ZonedBlockDevice::DirectRead]: what was read before the end, or an error; reading
    nothing is an error. *)
Fixpoint direct_read_loop (fuel : nat) (offset left : Z) (buf : slice) : ST ZonedBlockDevice (option slice) :=
  if left =? 0 then ret (Some buf) else
  match fuel with
  | O => crash
  | S fuel' =>
      r <- dev_call (pread offset left) ;;
      match r with
      | None => ret None
      | Some [] => ret (Some buf)
      | Some got => direct_read_loop fuel' (u64 (offset + size got)) (left - size got) (buf ++ got)
      end
  end.
Definition DirectRead (offset n : Z) : ST ZonedBlockDevice (option slice) :=
  if n =? 0 then ret None else direct_read_loop (Z.to_nat n) offset n [].

Definition MIGRATE_STEP : Z := Z.shiftl 128 10.

(** The loop of [MigrateData]; the status of the append is not looked at. *)
Fixpoint migrate_loop (fuel : nat) (offset length read_sz : Z) (target_zone : nat) : ST ZonedBlockDevice IOStatus :=
  if length <=? 0 then ret OK else
  match fuel with
  | O => crash
  | S fuel' =>
      block_sz <- gets block_sz_ ;;
      let read_sz := if read_sz <? length then read_sz else length in
      let pad_sz := pad_size read_sz block_sz in
      r <- DirectRead offset (read_sz + pad_sz) ;;
      match r with
      | None => ret IOError
      | Some buf =>
          Zone_Append (IoZone target_zone) buf ;;
          migrate_loop fuel' (u64 (offset + size buf)) (length - read_sz) read_sz target_zone
      end
  end.
Definition MigrateData (offset length : Z) (target_zone : nat) : ST ZonedBlockDevice IOStatus :=
  block_sz <- gets block_sz_ ;;
  assert (offset mod block_sz =? 0) ;;
  migrate_loop (Z.to_nat length) offset length MIGRATE_STEP target_zone.
End zen_io.
