(* ===== verification/ZenWriter.v ===== *)
(** * ZenFS: open files

    [ZonedWritableFile], [ZonedSequentialFile] and [ZonedRandomAccessFile] of
    [fs/io_zenfs.cc].  The memory of a buffer is an argument of the constructor: it is what
    [posix_memalign] gives, with any contents. *)

From stdpp Require Import base numbers option list gmap.
From S2P Require Import Prelude ZenCoding ZenTypes ZenZbd ZenFile ZenLog ZenFs ZenMeta ZenIo.

(** [sparse_buffer] is the buffer from its header on when the file is sparse, the buffer
    itself when it is not. *)
Record ZonedWritableFile := mk_writer {
  buffered : bool;
  sparse_buffer : slice;
  buffer_sz : Z;
  buffer_pos : Z;
  w_wp : Z;
  zoneFile_ : nat
}.
Definition w_set_buffer (x : slice) (w : ZonedWritableFile) : ZonedWritableFile :=
  mk_writer (buffered w) x (buffer_sz w) (buffer_pos w) (w_wp w) (zoneFile_ w).
Definition w_set_pos (x : Z) (w : ZonedWritableFile) : ZonedWritableFile :=
  mk_writer (buffered w) (sparse_buffer w) (buffer_sz w) x (w_wp w) (zoneFile_ w).
Definition w_set_wp (x : Z) (w : ZonedWritableFile) : ZonedWritableFile :=
  mk_writer (buffered w) (sparse_buffer w) (buffer_sz w) (buffer_pos w) x (zoneFile_ w).

Definition BUFFER_SIZE : Z := 1024 * 1024.

(** Bytes to allocate for the buffer, and its usable size. *)
Definition buffer_alloc (is_sparse : bool) (block_sz : Z) : Z :=
  if is_sparse then BUFFER_SIZE + block_sz else BUFFER_SIZE.
Definition buffer_usable (is_sparse : bool) (block_sz : Z) : Z :=
  if is_sparse then buffer_alloc true block_sz - SPARSE_HEADER_SIZE - block_sz else BUFFER_SIZE.

Record ZonedSequentialFile := mk_seq { sq_file : nat; rp : Z; direct_ : bool }.

(** One reference less. *)
Fixpoint erase_handle (h : nat) (hs : list nat) : list nat :=
  match hs with [] => [] | h' :: hs' => if Nat.eqb h h' then hs' else h' :: erase_handle h hs' end.

Section zen_writer.
Context {D : ZbdDev} {K : Crc32c}.
Notation prog := (ST ZenFS).

(** The constructor, with [OpenWR]. *)
Definition new_ZonedWritableFile (mem : slice) (is_buffered : bool) (h : nat) : prog ZonedWritableFile :=
  f <- file_at h ;; block_sz <- gets (λ s, block_sz_ (zbd_ s)) ;;
  file_put h (f_set_open true f) ;;
  modify (λ s, set_handles (h :: handles s) s) ;;
  ret (mk_writer is_buffered (if is_buffered then mem else [])
    (if is_buffered then buffer_usable (is_sparse_ f) block_sz else 0) 0 (file_size_ f) h).

Definition data_offset (f : ZoneFile) : Z := if is_sparse_ f then SPARSE_HEADER_SIZE else 0.

Definition FlushBuffer (now : Z) (w : ZonedWritableFile) : prog (IOStatus * ZonedWritableFile) :=
  if buffer_pos w =? 0 then ret (OK, w) else
  f <- file_at (zoneFile_ w) ;;
  r <- (if is_sparse_ f then SparseAppend now (zoneFile_ w) (sparse_buffer w) (buffer_pos w)
        else BufferedAppend now (zoneFile_ w) (sparse_buffer w) (buffer_pos w)) ;;
  let '(s, buffer) := r in
  let w := w_set_buffer buffer w in
  if negb (ok s) then ret (s, w) else
  ret (OK, w_set_pos 0 (w_set_wp (u64 (w_wp w + buffer_pos w)) w)).

(** The loop of [BufferedWrite]; [data] is what is left.  Every iteration takes at least one
    byte. *)
Fixpoint write_loop (now : Z) (fuel : nat) (data : slice) (w : ZonedWritableFile) : prog (IOStatus * ZonedWritableFile) :=
  match data with
  | [] => ret (OK, w)
  | _ =>
      match fuel with
      | O => crash
      | S fuel' =>
          r <- (if buffer_sz w - buffer_pos w =? 0 then FlushBuffer now w else ret (OK, w)) ;;
          let '(s, w) := r in
          if negb (ok s) then ret (s, w) else
          f <- file_at (zoneFile_ w) ;;
          let buffer_left := buffer_sz w - buffer_pos w in
          let to_buffer := if buffer_left <? size data then buffer_left else size data in
          let buffer := buf_write (data_offset f + buffer_pos w) (take (Z.to_nat to_buffer) data) (sparse_buffer w) in
          write_loop now fuel' (drop (Z.to_nat to_buffer) data)
            (w_set_pos (buffer_pos w + to_buffer) (w_set_buffer buffer w))
      end
  end.
Definition BufferedWrite (now : Z) (data : slice) (w : ZonedWritableFile) : prog (IOStatus * ZonedWritableFile) :=
  let data := take (Z.to_nat (u32 (size data))) data in write_loop now (length data) data w.

Definition Writer_Append (now : Z) (data : slice) (w : ZonedWritableFile) : prog (IOStatus * ZonedWritableFile) :=
  if buffered w then BufferedWrite now data w else
  s <- File_Append now (zoneFile_ w) data ;;
  ret (s, if ok s then w_set_wp (u64 (w_wp w + size data)) w else w).

Definition PositionedAppend (now : Z) (data : slice) (offset : Z) (w : ZonedWritableFile) :
    prog (IOStatus * ZonedWritableFile) :=
  assert (offset =? w_wp w) ;; Writer_Append now data w.

Definition DataSync (now : Z) (w : ZonedWritableFile) : prog (IOStatus * ZonedWritableFile) :=
  if buffered w then
    r <- FlushBuffer now w ;;
    let '(s, w) := r in
    if negb (ok s) then ret (s, w) else
    f <- file_at (zoneFile_ w) ;;
    if negb (is_sparse_ f) then s <- Persist now (zoneFile_ w) ;; ret (s, w) else ret (OK, w)
  else PushExtent (zoneFile_ w) ;; ret (OK, w).

Definition Fsync (now : Z) (w : ZonedWritableFile) : prog (IOStatus * ZonedWritableFile) :=
  r <- DataSync now w ;;
  let '(s, w) := r in
  if negb (ok s) then ret (s, w) else
  f <- file_at (zoneFile_ w) ;;
  if buffered w && negb (is_sparse_ f) then ret (OK, w) else
  s <- Persist now (zoneFile_ w) ;; ret (s, w).

Definition Sync (now : Z) (w : ZonedWritableFile) : prog (IOStatus * ZonedWritableFile) := DataSync now w.
Definition RangeSync (now offset nbytes : Z) (w : ZonedWritableFile) : prog (IOStatus * ZonedWritableFile) :=
  if w_wp w <? u64 (offset + nbytes) then DataSync now w else ret (OK, w).

Definition CloseInternal (now : Z) (w : ZonedWritableFile) : prog (IOStatus * ZonedWritableFile) :=
  f <- file_at (zoneFile_ w) ;;
  if negb (open_for_wr_ f) then ret (OK, w) else
  r <- DataSync now w ;;
  let '(s, w) := r in
  if negb (ok s) then ret (s, w) else
  s <- CloseWR now (zoneFile_ w) ;; ret (s, w).

(** The destructor, which gives up the reference to the file. *)
Definition delete_ZonedWritableFile (now : Z) (w : ZonedWritableFile) : prog unit :=
  r <- CloseInternal now w ;;
  when (negb (ok r.1)) (in_zbd (SetZoneDeferredStatus r.1)) ;;
  modify (λ s, set_handles (erase_handle (zoneFile_ w) (handles s)) s) ;;
  drop_file now (zoneFile_ w).

Definition Truncate (sz : Z) (w : ZonedWritableFile) : prog IOStatus :=
  f <- file_at (zoneFile_ w) ;; file_put (zoneFile_ w) (f_set_size sz f) ;; ret OK.

(** ** Readers *)

Definition Seq_Read (n : Z) (r : ZonedSequentialFile) : prog (IOStatus * slice * ZonedSequentialFile) :=
  f <- file_at (sq_file r) ;;
  res <- in_zbd (PositionedRead f (rp r) n (direct_ r)) ;;
  let '(s, result) := res in
  ret (s, result, if ok s then mk_seq (sq_file r) (u64 (rp r + size result)) (direct_ r) else r).

Definition Seq_Skip (n : Z) (r : ZonedSequentialFile) : prog (IOStatus * ZonedSequentialFile) :=
  f <- file_at (sq_file r) ;;
  if file_size_ f <=? u64 (rp r + n) then ret (InvalidArgument, r)
  else ret (OK, mk_seq (sq_file r) (u64 (rp r + n)) (direct_ r)).

Definition Random_Read (h : nat) (direct : bool) (offset n : Z) : prog (IOStatus * slice) :=
  f <- file_at h ;; in_zbd (PositionedRead f offset n direct).
End zen_writer.
