(* ===== verification/ZenOps.v ===== *)
(** * ZenFS: operations on files and directories

    The [FileSystem] interface of [fs/fs_zenfs.cc].  Files that are not ZenFS's own, and all
    directories, live on an auxiliary file system, RocksDB's [target()], which is an
    interface here.  The operations run on the state of ZenFS and of that file system. *)

From stdpp Require Import base numbers option list gmap.
From S2P Require Import Prelude ZenCoding ZenTypes ZenZbd ZenFile ZenLog ZenFs ZenMeta ZenIo ZenWriter.

Class AuxFs := {
  aux : Type;
  aux_DeleteFile : slice → aux → IOStatus * aux;
  aux_DeleteDir : slice → aux → IOStatus * aux;
  aux_RenameFile : slice → slice → aux → IOStatus * aux;
  aux_LinkFile : slice → slice → aux → IOStatus * aux;
  aux_CreateDirIfMissing : slice → aux → IOStatus * aux;
  aux_NewSequentialFile : slice → aux → IOStatus * aux;
  aux_NewRandomAccessFile : slice → aux → IOStatus * aux;
  aux_FileExists : slice → aux → IOStatus;
  aux_GetChildren : slice → aux → IOStatus * list slice;
  aux_IsDirectory : slice → aux → IOStatus * bool;
  aux_GetFileSize : slice → aux → IOStatus * Z;
  aux_GetFileModificationTime : slice → aux → IOStatus * Z;
  aux_NumFileLinks : slice → aux → IOStatus * Z;
  aux_AreFilesSame : slice → slice → aux → IOStatus * bool
}.

(** ** Paths *)

Definition ends_with (value ending : slice) : bool :=
  (length ending <=? length value)%nat && bool_decide (drop (length value - length ending) value = ending).
Definition starts_with (string needle : slice) : bool := bool_decide (take (length needle) string = needle).

Definition has_filename (p : slice) : bool :=
  match last p with Some b => negb (b =? slash) | None => false end.
(** [operator/] of [std::filesystem::path]. *)
Definition path_append (p q : slice) : slice :=
  if is_absolute q then q else if has_filename p then p ++ slash :: q else p ++ q.

Fixpoint drop_until_slash (p : slice) : slice :=
  match p with [] => [] | b :: p' => if b =? slash then p else drop_until_slash p' end.
Fixpoint drop_slashes (p : slice) : slice :=
  match p with b :: p' => if b =? slash then drop_slashes p' else p | [] => [] end.
(** [std::filesystem::path::parent_path]. *)
Definition parent_path (p : slice) : slice :=
  match reverse (drop_slashes (drop_until_slash (reverse p))) with
  | [] => if is_absolute p then [slash] else []
  | q => q
  end.
Definition with_separator (p : slice) : slice := lexically_normal (path_append p []).

Definition dot_log : slice := [46; 108; 111; 103].
Definition dot_sst : slice := [46; 115; 115; 116].

Record FileOptions := mk_opts { use_direct_reads : bool; use_direct_writes : bool }.

(** The names below [dir], relative to it: [GetZenFSChildrenNoLock]; [None] when the
    assertion fails. *)
Definition GetZenFSChildrenNoLock (s : list (slice * nat)) (dir : slice) (include_grandchildren : bool) :
    option (list slice) :=
  let d := with_separator dir in
  if forallb (λ e, has_filename e.1) s then
    Some (flat_map (λ e,
      let file_dir := with_separator (parent_path e.1) in
      if starts_with file_dir d && (include_grandchildren || (length file_dir =? length d)%nat)
      then [drop (length d) e.1] else []) s)
  else None.

Section zen_ops.
Context {D : ZbdDev} {K : Crc32c} {A : AuxFs}.

Record ZenSystem := mk_system { zen : ZenFS; target : aux }.
Notation prog := (ST ZenSystem).

Definition in_fs {X} (c : ST ZenFS X) : prog X := λ w,
  match c (zen w) with Done x s => Done x (mk_system s (target w)) | Crash => Crash end.
Definition in_aux {X} (c : aux → X * aux) : prog X := λ w,
  let '(x, a) := c (target w) in Done x (mk_system (zen w) a).
Definition ask_aux {X} (c : aux → X) : prog X := gets (λ w, c (target w)).

Definition ToAuxPath (path : slice) : prog slice :=
  sb <- in_fs (gets superblock_) ;; sb <- load sb ;; ret (GetAuxFsPath sb ++ path).

(** A local shared pointer to [h] while [c] runs. *)
Definition with_ref {X} (now : Z) (h : nat) (c : ST ZenFS X) : ST ZenFS X :=
  modify (λ s, set_handles (h :: handles s) s) ;;
  x <- c ;;
  modify (λ s, set_handles (erase_handle h (handles s)) s) ;;
  drop_file now h ;; ret x.

(** The same around operations that may use the auxiliary file system. *)
Definition hold {X} (now : Z) (h : nat) (c : prog X) : prog X :=
  in_fs (modify (λ s, set_handles (h :: handles s) s)) ;;
  x <- c ;;
  in_fs (modify (λ s, set_handles (erase_handle h (handles s)) s)) ;;
  in_fs (drop_file now h) ;; ret x.

Definition GetFileNoLock (s : ZenFS) (fname : slice) : option nat := files_find (files_ s) (FormatPathLexically fname).

(** ** Deletion *)

(** [DeleteFileNoLock] of the ZenFS file [h]. *)
Definition delete_zen (now : Z) (h : nat) (fname : slice) : ST ZenFS IOStatus :=
  f <- file_at h ;;
  if open_for_wr_ f then ret Busy else
  modify (λ s, set_files (files_erase fname (files_ s)) s) ;;
  assert (negb (bool_decide (linkfiles_ f = []))) ;;
  let '(s, f) := RemoveLinkName fname f in
  file_put h f ;;
  if negb (ok s) then ret s else
  s <- PersistRecord (EncodeFileDeletionTo f fname) ;;
  f <- file_at h ;;
  if negb (ok s) then
    modify (λ s, set_files (files_insert (c_string fname) h (files_ s)) s) ;;
    file_put h (AddLinkName fname f) ;; ret s
  else if bool_decide (linkfiles_ f = []) then file_put h (f_set_deleted true f) ;; ret s
  else ret s.

Definition DeleteFileNoLock (now : Z) (fname : slice) : prog IOStatus :=
  let fname := FormatPathLexically fname in
  found <- in_fs (gets (λ s, GetFileNoLock s fname)) ;;
  match found with
  | Some h => in_fs (with_ref now h (delete_zen now h fname))
  | None => path <- ToAuxPath fname ;; in_aux (aux_DeleteFile path)
  end.

Definition reset_unused : prog IOStatus := in_fs (in_zbd ResetUnusedIOZones).

Definition DeleteFile (now : Z) (fname : slice) : prog IOStatus :=
  s <- DeleteFileNoLock now fname ;; if ok s then reset_unused else ret s.

(** ** Opening files *)

(** The file that [OpenWritableFile] creates, before it is persisted. *)
Definition created_file (now : Z) (id : Z) (fname : slice) (opts : FileOptions) : ZoneFile :=
  let f := AddLinkName fname (f_set_mtime now (new_ZoneFile id)) in
  if ends_with fname dot_log then f_set_sparse (negb (use_direct_writes opts)) (f_set_io_type kWAL f)
  else f_set_io_type kUnknown f.

Definition create_zen (now : Z) (mem fname : slice) (opts : FileOptions) :
    ST ZenFS (IOStatus * option ZonedWritableFile) :=
  id <- gets next_file_id_ ;;
  modify (set_next_file_id (u64 (id + 1))) ;;
  h <- new_file (created_file now id fname opts) ;;
  with_ref now h (
    s <- SyncFileMetadataNoLock now h false ;;
    if negb (ok s) then ret (s, None) else
    modify (λ s, set_files (files_insert (c_string fname) h (files_ s)) s) ;;
    w <- new_ZonedWritableFile mem (negb (use_direct_writes opts)) h ;; ret (s, Some w)).

Definition OpenWritableFile (now : Z) (mem filename : slice) (opts : FileOptions) (reopen : bool) :
    prog (IOStatus * option ZonedWritableFile) :=
  let fname := FormatPathLexically filename in
  found <- in_fs (gets (λ s, GetFileNoLock s fname)) ;;
  match found with
  | Some h =>
      if reopen then
        w <- in_fs (new_ZonedWritableFile mem (negb (use_direct_writes opts)) h) ;; ret (OK, Some w)
      else
        s <- hold now h (DeleteFileNoLock now fname) ;;
        if negb (ok s) then ret (s, None) else
        r <- in_fs (create_zen now mem fname opts) ;;
        let '(s, w) := r in
        if negb (ok s) then ret (s, w) else s <- reset_unused ;; ret (s, w)
  | None => in_fs (create_zen now mem fname opts)
  end.

Definition NewWritableFile (now : Z) (mem filename : slice) (opts : FileOptions) :
    prog (IOStatus * option ZonedWritableFile) :=
  OpenWritableFile now mem (FormatPathLexically filename) opts false.
Definition ReopenWritableFile (now : Z) (mem filename : slice) (opts : FileOptions) :
    prog (IOStatus * option ZonedWritableFile) :=
  OpenWritableFile now mem (FormatPathLexically filename) opts true.

Definition ReuseWritableFile (now : Z) (mem filename old_filename : slice) (opts : FileOptions) :
    prog (IOStatus * option ZonedWritableFile) :=
  let fname := FormatPathLexically filename in
  let old_fname := FormatPathLexically old_filename in
  found <- in_fs (gets (λ s, GetFileNoLock s old_fname)) ;;
  match found with
  | None => ret (NotFound, None)
  | Some _ =>
      s <- DeleteFile now old_fname ;;
      if negb (ok s) then ret (s, None) else OpenWritableFile now mem fname opts false
  end.

Definition NewSequentialFile (filename : slice) (opts : FileOptions) : prog (IOStatus * option ZonedSequentialFile) :=
  let fname := FormatPathLexically filename in
  found <- in_fs (gets (λ s, GetFileNoLock s fname)) ;;
  match found with
  | None => path <- ToAuxPath fname ;; s <- in_aux (aux_NewSequentialFile path) ;; ret (s, None)
  | Some h =>
      f <- in_fs (file_at h) ;;
      in_fs (modify (λ s, set_handles (h :: handles s) s)) ;;
      ret (OK, Some (mk_seq h 0 (use_direct_reads opts && negb (is_sparse_ f))))
  end.

(** The reader is the file and whether it reads directly. *)
Definition NewRandomAccessFile (filename : slice) (opts : FileOptions) : prog (IOStatus * option (nat * bool)) :=
  let fname := FormatPathLexically filename in
  found <- in_fs (gets (λ s, GetFileNoLock s fname)) ;;
  match found with
  | None => path <- ToAuxPath fname ;; s <- in_aux (aux_NewRandomAccessFile path) ;; ret (s, None)
  | Some _ =>
      (* [files_[fname]], which would be a null pointer if [fname] is not a key *)
      fs <- in_fs (gets files_) ;; h <- load (files_find fs fname) ;;
      f <- in_fs (file_at h) ;;
      in_fs (modify (λ s, set_handles (h :: handles s) s)) ;;
      ret (OK, Some (h, use_direct_reads opts && negb (is_sparse_ f)))
  end.

(** ** Queries *)

Definition zen_file (fname : slice) : prog (option ZoneFile) :=
  in_fs (gets (λ s, h ← GetFileNoLock s fname; objs s !! h)).

Definition FileExists (filename : slice) : prog IOStatus :=
  let fname := FormatPathLexically filename in
  found <- in_fs (gets (λ s, GetFileNoLock s fname)) ;;
  match found with
  | None => path <- ToAuxPath fname ;; ask_aux (aux_FileExists path)
  | Some _ => ret OK
  end.

(** [GetFileSize] and [GetFileModificationTime] look the name up as it is. *)
Definition query (filename : slice) (of_zen : ZoneFile → Z) (of_aux : slice → aux → IOStatus * Z) :
    prog (IOStatus * Z) :=
  let f := FormatPathLexically filename in
  fs <- in_fs (gets files_) ;;
  match files_find fs f with
  | Some h => zf <- in_fs (file_at h) ;; ret (OK, of_zen zf)
  | None => path <- ToAuxPath f ;; ask_aux (of_aux path)
  end.
Definition GetFileSize (filename : slice) : prog (IOStatus * Z) := query filename file_size_ aux_GetFileSize.
Definition GetFileModificationTime (filename : slice) : prog (IOStatus * Z) :=
  query filename (λ f, u64 (m_time_ f)) aux_GetFileModificationTime.

Definition NumFileLinks (file : slice) : prog (IOStatus * Z) :=
  let fname := FormatPathLexically file in
  found <- zen_file fname ;;
  match found with
  | Some f => ret (OK, Z.of_nat (length (linkfiles_ f)))
  | None => path <- ToAuxPath fname ;; ask_aux (aux_NumFileLinks path)
  end.

(** The auxiliary file system is asked about the names without its path. *)
Definition AreFilesSame (file linkf : slice) : prog (IOStatus * bool) :=
  let fname := FormatPathLexically file in
  let link := FormatPathLexically linkf in
  src <- zen_file fname ;; dst <- zen_file link ;;
  match src, dst with
  | Some f, Some g => ret (OK, file_id_ f =? file_id_ g)
  | _, _ => ask_aux (aux_AreFilesSame fname link)
  end.

(** ** Directories *)

Definition GetChildrenNoLock (dir_path : slice) : prog (IOStatus * list slice) :=
  let dir := FormatPathLexically dir_path in
  path <- ToAuxPath dir ;;
  r <- ask_aux (aux_GetChildren path) ;;
  let '(s, auxfiles) := r in
  if negb (ok s) then ret (if IsNotFound s then OK else s, []) else
  fs <- in_fs (gets files_) ;;
  own <- load (GetZenFSChildrenNoLock fs dir false) ;;
  ret (s, filter (λ f, f ≠ [dot] ∧ f ≠ [dot; dot]) auxfiles ++ own).
Definition GetChildren (dir : slice) : prog (IOStatus * list slice) := GetChildrenNoLock dir.

Definition IsDirectoryNoLock (path : slice) : prog (IOStatus * bool) :=
  found <- in_fs (gets (λ s, GetFileNoLock s path)) ;;
  match found with
  | Some _ => ret (OK, false)
  | None => p <- ToAuxPath path ;; ask_aux (aux_IsDirectory p)
  end.

(** The loop of [DeleteDirRecursiveNoLock], given the deletion of a directory. *)
Fixpoint delete_children (delete_dir : slice → prog IOStatus) (now : Z) (d : slice) (children : list slice) :
    prog IOStatus :=
  match children with
  | [] => ret OK
  | child :: children' =>
      let file_to_delete := path_append d child in
      r <- IsDirectoryNoLock file_to_delete ;;
      let '(s, is_dir) := r in
      if negb (ok s) then ret s else
      s <- (if is_dir : bool then delete_dir file_to_delete else DeleteFileNoLock now file_to_delete) ;;
      if negb (ok s) then ret s else delete_children delete_dir now d children'
  end.
(** [DeleteDirRecursiveNoLock]; [fuel] bounds the depth of the directory. *)
Fixpoint DeleteDirRecursiveNoLock (now : Z) (fuel : nat) (dir : slice) : prog IOStatus :=
  match fuel with
  | O => crash
  | S fuel' =>
      let d := FormatPathLexically dir in
      r <- GetChildrenNoLock d ;;
      let '(s, children) := r in
      if negb (ok s) then ret s else
      s <- delete_children (DeleteDirRecursiveNoLock now fuel') now d children ;;
      if negb (ok s) then ret s else path <- ToAuxPath d ;; in_aux (aux_DeleteDir path)
  end.
Definition DeleteDirRecursive (now : Z) (fuel : nat) (d : slice) : prog IOStatus :=
  s <- DeleteDirRecursiveNoLock now fuel d ;; if ok s then reset_unused else ret s.

(** ** Renaming and linking *)

(** [RenameFileNoLock] of the ZenFS file [h], once the destination is free. *)
Definition rename_zen (now : Z) (h : nat) (source_path dest_path : slice) : ST ZenFS IOStatus :=
  f <- file_at h ;;
  let '(s, f) := RenameLink source_path dest_path f in
  file_put h f ;;
  if negb (ok s) then ret s else
  modify (λ s, set_files (files_insert dest_path h (files_erase source_path (files_ s))) s) ;;
  s <- SyncFileMetadataNoLock now h false ;;
  if negb (ok s) then
    modify (λ s, set_files (files_erase dest_path (files_ s)) s) ;;
    f <- file_at h ;;
    let '(s, f) := RenameLink dest_path source_path f in
    file_put h f ;;
    if negb (ok s) then ret s else
    modify (λ s, set_files (files_insert source_path h (files_ s)) s) ;; ret s
  else ret s.

Section rename.
Variable rename : slice → slice → prog IOStatus.

Definition RenameChildNoLock (source_dir dest_dir child : slice) : prog IOStatus :=
  rename (path_append source_dir child) (path_append dest_dir child).

Fixpoint rollback_children (source_path dest_path : slice) (renamed_children : list slice) : prog IOStatus :=
  match renamed_children with
  | [] => ret OK
  | child :: children =>
      s <- RenameChildNoLock dest_path source_path child ;;
      if negb (ok s) then ret Corruption else rollback_children source_path dest_path children
  end.
Definition RollbackAuxDirRenameNoLock (source_path dest_path : slice) (renamed_children : list slice) : prog IOStatus :=
  s <- rollback_children source_path dest_path renamed_children ;;
  if negb (ok s) then ret s else
  to <- ToAuxPath source_path ;; from <- ToAuxPath dest_path ;;
  s <- in_aux (aux_RenameFile from to) ;;
  if negb (ok s) then ret Corruption else ret s.

Fixpoint rename_children (source_path dest_path : slice) (children renamed_children : list slice) : prog IOStatus :=
  match children with
  | [] => ret OK
  | child :: children' =>
      s <- RenameChildNoLock source_path dest_path child ;;
      if negb (ok s) then
        rs <- RollbackAuxDirRenameNoLock source_path dest_path renamed_children ;;
        ret (if negb (ok rs) then rs else s)
      else rename_children source_path dest_path children' (renamed_children ++ [child])
  end.
Definition RenameAuxPathNoLock (source_path dest_path : slice) : prog IOStatus :=
  from <- ToAuxPath source_path ;; to <- ToAuxPath dest_path ;;
  s <- in_aux (aux_RenameFile from to) ;;
  if negb (ok s) then ret s else
  fs <- in_fs (gets files_) ;;
  children <- load (GetZenFSChildrenNoLock fs source_path true) ;;
  rename_children source_path dest_path children [].
End rename.

(** [RenameFileNoLock]; [fuel] bounds the recursion.  The children of a directory are ZenFS
    files, and renaming those does not recurse. *)
Fixpoint RenameFileNoLock (now : Z) (fuel : nat) (src_path dst_path : slice) : prog IOStatus :=
  match fuel with
  | O => crash
  | S fuel' =>
      let source_path := FormatPathLexically src_path in
      let dest_path := FormatPathLexically dst_path in
      source_file <- in_fs (gets (λ s, GetFileNoLock s source_path)) ;;
      match source_file with
      | Some h =>
          existing_dest_file <- in_fs (gets (λ s, GetFileNoLock s dest_path)) ;;
          hold now h (
            match existing_dest_file with
            | Some g =>
                hold now g (
                  s <- DeleteFileNoLock now dest_path ;;
                  if negb (ok s) then ret s else in_fs (rename_zen now h source_path dest_path))
            | None => in_fs (rename_zen now h source_path dest_path)
            end)
      | None => RenameAuxPathNoLock (RenameFileNoLock now fuel') source_path dest_path
      end
  end.
Definition RenameFile (now : Z) (fuel : nat) (source_path dest_path : slice) : prog IOStatus :=
  s <- RenameFileNoLock now fuel source_path dest_path ;; if ok s then reset_unused else ret s.

(** [LinkFile] of the ZenFS file [h]. *)
Definition link_zen (now : Z) (h : nat) (lname : slice) : ST ZenFS IOStatus :=
  f <- file_at h ;; file_put h (AddLinkName lname f) ;;
  modify (λ s, set_files (files_insert lname h (files_ s)) s) ;;
  s <- SyncFileMetadataNoLock now h false ;;
  if negb (ok s) then
    f <- file_at h ;;
    assert (negb (bool_decide (linkfiles_ f = []))) ;;
    let '(s, f) := RemoveLinkName lname f in
    file_put h f ;;
    if negb (ok s) then ret s else
    modify (λ s, set_files (files_erase lname (files_ s)) s) ;; ret s
  else ret s.

Definition LinkFile (now : Z) (file link : slice) : prog IOStatus :=
  let fname := FormatPathLexically file in
  let lname := FormatPathLexically link in
  target_file <- in_fs (gets (λ s, GetFileNoLock s lname)) ;;
  match target_file with
  | Some _ => ret InvalidArgument
  | None =>
      src_file <- in_fs (gets (λ s, GetFileNoLock s fname)) ;;
      match src_file with
      | Some h => in_fs (link_zen now h lname)
      | None => from <- ToAuxPath fname ;; to <- ToAuxPath lname ;; in_aux (aux_LinkFile from to)
      end
  end.
End zen_ops.
