(* ===== verification/ZenMount.v ===== *)
(** * ZenFS: opening, formatting, mounting and migrating

    [ZonedBlockDevice::Open] of [fs/zbd_zenfs.cc]; [MkFS], [Mount], [Repair] and the
    migration of extents of [fs/fs_zenfs.cc]. *)

From stdpp Require Import base numbers option list gmap.
From S2P Require Import Prelude ZenCoding ZenTypes ZenZbd ZenFile ZenLog ZenFs ZenMeta ZenIo ZenWriter ZenOps.

Definition ZENFS_MIN_ZONES : Z := 32.

(** What [zbd_open] says about the device, and what else [Open] finds out: whether the
    three descriptors could be opened, and whether the scheduler is the right one. *)
Record zbd_info := mk_info {
  zi_host_managed : bool;
  zi_nr_zones : Z;
  zi_pblock_size : Z;
  zi_zone_size : Z;
  zi_max_nr_active_zones : Z;
  zi_max_nr_open_zones : Z
}.
Record open_env := mk_env {
  oe_read : option zbd_info;
  oe_read_direct : bool;
  oe_write : bool;
  oe_scheduler : IOStatus;
  oe_zones : option (list zbd_zone)
}.

Definition zone_offline (z : zbd_zone) : bool := bool_decide (zz_cond z = ZBD_ZONE_COND_OFFLINE).
Definition zone_is_open (z : zbd_zone) : bool :=
  bool_decide (zz_cond z = ZBD_ZONE_COND_IMP_OPEN ∨ zz_cond z = ZBD_ZONE_COND_EXP_OPEN).
Definition zone_is_active (z : zbd_zone) : bool := zone_is_open z || bool_decide (zz_cond z = ZBD_ZONE_COND_CLOSED).

(** The first loop of [Open]: the first three sequential zones are for metadata, offline
    ones left out; with the zones that are left. *)
Fixpoint take_meta (m : nat) (zs : list zbd_zone) : list Zone * list zbd_zone :=
  match m, zs with
  | S m', z :: zs' =>
      if zz_swr z then
        let '(ms, rest) := take_meta m' zs' in (if zone_offline z then ms else new_Zone z :: ms, rest)
      else take_meta m zs'
  | _, _ => ([], zs)
  end.

Section zen_open.
Context {D : ZbdDev}.
Notation prog := (ST ZonedBlockDevice).

(** One zone of the second loop. *)
Definition open_io_zone (readonly : bool) (zz : zbd_zone) : prog IOStatus :=
  n <- gets (λ b, length (io_zones b)) ;;
  modify (λ b, set_io_zones (io_zones b ++ [new_Zone zz]) b) ;;
  let r := IoZone n in
  got <- Acquire r ;; assert got ;;
  when (zone_is_active zz) (
    modify (λ b, set_tokens (active_io_zones_ b + 1) (open_io_zones_ b) b) ;;
    when (zone_is_open zz && negb readonly) (Zone_Close r ;; ret tt)) ;;
  CheckRelease r.
Fixpoint open_io_zones (readonly : bool) (zs : list zbd_zone) : prog IOStatus :=
  match zs with
  | [] => ret OK
  | zz :: zs' =>
      if zz_swr zz && negb (zone_offline zz) then
        s <- open_io_zone readonly zz ;; if negb (ok s) then ret s else open_io_zones readonly zs'
      else open_io_zones readonly zs'
  end.

(** [u32 (x - 2)]: two zones are reserved, or there is no limit. *)
Definition zone_limit (max nr : Z) : Z := if max =? 0 then nr else u32 (max - 2).

(** [Open] on a device just constructed. *)
Definition Open (readonly exclusive : bool) (e : open_env) : prog IOStatus :=
  if negb readonly && negb exclusive then ret InvalidArgument else
  match oe_read e with
  | None => ret InvalidArgument
  | Some info =>
      if negb (oe_read_direct e) then ret InvalidArgument else
      if negb readonly && negb (oe_write e) then ret InvalidArgument else
      if negb (zi_host_managed info) then ret NotSupported else
      if zi_nr_zones info <? ZENFS_MIN_ZONES then ret NotSupported else
      if negb (status_eq (oe_scheduler e) OK) then ret (oe_scheduler e) else
      modify (λ b, mk_zbd (zi_pblock_size info) (zi_zone_size info) (zi_nr_zones info) (io_zones b) (meta_zones b)
        (finish_threshold_ b) (active_io_zones_ b) (open_io_zones_ b) (zone_deferred_status_ b) (migrating_ b)
        (zone_limit (zi_max_nr_active_zones info) (zi_nr_zones info))
        (zone_limit (zi_max_nr_open_zones info) (zi_nr_zones info)) (device b)) ;;
      match oe_zones e with
      | None => ret IOError
      | Some zs =>
          if negb (Z.of_nat (length zs) =? zi_nr_zones info) then ret IOError else
          let '(ms, rest) := take_meta (Z.to_nat ZENFS_META_ZONES) zs in
          modify (λ b, set_tokens 0 0 (set_meta_zones (meta_zones b ++ ms) b)) ;;
          open_io_zones readonly rest
      end
  end.
End zen_open.

(** ** Migration *)

Record ZoneExtentSnapshot := mk_snap { sn_start : Z; sn_length : Z; sn_zone_start : Z; sn_filename : slice }.

Definition find_snapshot (migrate_exts : list ZoneExtentSnapshot) (e : ZoneExtent) : bool :=
  existsb (λ x, (sn_start x =? e_start e) && (sn_length x =? e_length e)) migrate_exts.

(** ** Snapshots *)

Record ZBDSnapshot := mk_zbd_snap { free_space : Z; used_space : Z; reclaimable_space : Z }.
Record ZoneSnapshot := mk_zone_snap {
  zs_start : Z; zs_wp : Z; zs_capacity : Z; zs_used_capacity : Z; zs_max_capacity : Z }.
Record ZoneFileSnapshot := mk_file_snap {
  fsn_file_id : Z; fsn_filename : slice; fsn_extents : list ZoneExtentSnapshot }.
Record ZenFSSnapshot := mk_fs_snap {
  ss_zbd : option ZBDSnapshot;
  ss_zones : list ZoneSnapshot;
  ss_zone_files : list ZoneFileSnapshot;
  ss_extents : list ZoneExtentSnapshot
}.
Record ZenFSSnapshotOptions := mk_snap_options { so_zbd_ : bool; so_zone_ : bool; so_zone_file_ : bool }.

Definition new_ZoneSnapshot (z : Zone) : ZoneSnapshot :=
  mk_zone_snap (start_ z) (wp_ z) (capacity_ z) (used_capacity_ z) (max_capacity_ z).

Section zen_snapshot.
Context {D : ZbdDev} {K : Crc32c}.
Notation prog := (ST ZenFS).

Definition new_ZBDSnapshot (b : ZonedBlockDevice) : ZBDSnapshot :=
  mk_zbd_snap (GetFreeSpace b) (GetUsedSpace b) (GetReclaimableSpace b).

(** The extents of a file, each with the start of its zone. *)
Fixpoint extent_snapshots (es : list ZoneExtent) (fname : slice) : prog (list ZoneExtentSnapshot) :=
  match es with
  | [] => ret []
  | e :: es' =>
      z <- in_zbd (zone_at (IoZone (e_zone e))) ;;
      rest <- extent_snapshots es' fname ;;
      ret (mk_snap (e_start e) (e_length e) (start_ z) fname :: rest)
  end.
(** One entry for each name; the name is the first of the file. *)
Fixpoint file_snapshots (fs : list (slice * nat)) : prog (list ZoneFileSnapshot) :=
  match fs with
  | [] => ret []
  | (_, h) :: fs' =>
      f <- file_at h ;; fname <- load (head (linkfiles_ f)) ;;
      es <- extent_snapshots (extents_ f) fname ;;
      rest <- file_snapshots fs' ;;
      ret (mk_file_snap (file_id_ f) fname es :: rest)
  end.
(** [GetZenFSSnapshot], without reports and logging. *)
Definition GetZenFSSnapshot (options : ZenFSSnapshotOptions) : prog ZenFSSnapshot :=
  s <- get ;;
  files <- (if so_zone_file_ options then file_snapshots (files_ s) else ret []) ;;
  ret (mk_fs_snap (if so_zbd_ options then Some (new_ZBDSnapshot (zbd_ s)) else None)
    (if so_zone_ options then new_ZoneSnapshot <$> io_zones (zbd_ s) else [])
    files (concat (fsn_extents <$> files))).
End zen_snapshot.

(** Extents grouped by name, in the order of a [std::map]. *)
Fixpoint group_insert (x : ZoneExtentSnapshot) (g : list (slice * list ZoneExtentSnapshot)) :
    list (slice * list ZoneExtentSnapshot) :=
  match g with
  | [] => [(sn_filename x, [x])]
  | (n, xs) :: g' =>
      if decide (sn_filename x = n) then (n, xs ++ [x]) :: g'
      else if name_lt (sn_filename x) n then (sn_filename x, [x]) :: g else (n, xs) :: group_insert x g'
  end.

Section zen_migrate.
Context {D : ZbdDev} {K : Crc32c}.
Notation prog := (ST ZenFS).

(** The loop of [SyncFileExtents]: space of extents that moved is given back. *)
Fixpoint free_moved (old_extents new_extents : list ZoneExtent) : ST ZonedBlockDevice unit :=
  match old_extents, new_extents with
  | o :: os, n :: ns =>
      when (negb (e_start o =? e_start n))
        (zone_upd (IoZone (e_zone o)) (λ z, z_set_used (u64 (used_capacity_ z - e_length o)) z)) ;;
      free_moved os ns
  | _, _ => ret tt
  end.
Definition SyncFileExtents (now : Z) (h : nat) (new_extents : list ZoneExtent) : prog IOStatus :=
  f <- file_at h ;;
  let old_extents := extents_ f in
  f <- in_zbd (ReplaceExtentList f new_extents) ;;
  file_put h (MetadataUnsynced f) ;;
  s <- SyncFileMetadataNoLock now h true ;;
  if negb (ok s) then ret s else
  in_zbd (free_moved old_extents new_extents) ;; ret OK.

(** One extent of [MigrateFileExtents]: the extent, moved or not, or [None] when the file
    is gone.  The status of [MigrateData] is not looked at. *)
Definition migrate_extent (h : nat) (fname : slice) (migrate_exts : list ZoneExtentSnapshot) (e : ZoneExtent) :
    prog (option ZoneExtent) :=
  if negb (find_snapshot migrate_exts e) then ret (Some e) else
  f <- file_at h ;;
  r <- in_zbd (TakeMigrateZone (lifetime_ f) (u32 (e_length e))) ;;
  let '(s, target_zone) := r in
  if negb (ok s) then ret (Some e) else
  match target_zone with
  | None => in_zbd (ReleaseMigrateZone None) ;; ret (Some e)
  | Some i =>
      z <- in_zbd (zone_at (IoZone i)) ;;
      let hdr := if is_sparse_ f then SPARSE_HEADER_SIZE else 0 in
      in_zbd (MigrateData (u64 (e_start e - hdr)) (u32 (e_length e + hdr)) i) ;;
      s <- get ;;
      match GetFileNoLock s fname with
      | None => in_zbd (ReleaseMigrateZone (Some i)) ;; ret None
      | Some _ =>
          in_zbd (used_add i (e_length e)) ;;
          in_zbd (ReleaseMigrateZone (Some i)) ;;
          ret (Some (mk_extent (u64 (wp_ z + hdr)) (e_length e) i))
      end
  end.
(** The rest of the list is kept when the loop is left. *)
Fixpoint migrate_extents (h : nat) (fname : slice) (migrate_exts : list ZoneExtentSnapshot) (es : list ZoneExtent) :
    prog (list ZoneExtent) :=
  match es with
  | [] => ret []
  | e :: es' =>
      r <- migrate_extent h fname migrate_exts e ;;
      match r with
      | None => ret es
      | Some e' => rest <- migrate_extents h fname migrate_exts es' ;; ret (e' :: rest)
      end
  end.
Definition MigrateFileExtents (now : Z) (fname : slice) (migrate_exts : list ZoneExtentSnapshot) : prog IOStatus :=
  s <- get ;;
  match GetFileNoLock s fname with
  | None => ret OK
  | Some h =>
      f <- file_at h ;;
      if open_for_wr_ f then ret OK else
      with_ref now h (
        new_extent_list <- migrate_extents h fname migrate_exts (extents_ f) ;;
        SyncFileExtents now h new_extent_list ;; ret OK)
  end.

Fixpoint migrate_files (now : Z) (g : list (slice * list ZoneExtentSnapshot)) : prog IOStatus :=
  match g with
  | [] => ret OK
  | (fname, exts) :: g' =>
      s <- MigrateFileExtents now fname exts ;;
      if negb (ok s) then ret s else
      s <- in_zbd ResetUnusedIOZones ;;
      if negb (ok s) then ret s else migrate_files now g'
  end.
Definition MigrateExtents (now : Z) (extents : list ZoneExtentSnapshot) : prog IOStatus :=
  migrate_files now (foldl (λ g x, if ends_with (sn_filename x) dot_sst then group_insert x g else g) [] extents).

(** ** Formatting *)

(** The loop of [MkFS]: every metadata zone is reset; the first that could be is kept
    busy. *)
Fixpoint reset_meta_zones (zs : list nat) (meta_zone : option nat) : ST ZonedBlockDevice (option nat) :=
  match zs with
  | [] => ret meta_zone
  | i :: zs' =>
      let mz := MetaZone i in
      got <- Acquire mz ;; assert got ;;
      s <- Zone_Reset mz ;;
      let meta_zone := match meta_zone with None => if ok s then Some i else None | Some j => Some j end in
      (if bool_decide (meta_zone = Some i) then ret tt
       else released <- Release mz ;; assert released) ;;
      reset_meta_zones zs' meta_zone
  end.

(** [MkFS]; [uuid] and [version] as for [new_Superblock]. *)
Definition MkFS (now : Z) (uuid version aux_fs_p : slice) (finish_threshold : Z) : prog IOStatus :=
  let aux_fs_path := FormatPathLexically aux_fs_p in
  if 255 <? size aux_fs_path then ret InvalidArgument else
  ClearFiles now ;;
  s <- in_zbd ResetUnusedIOZones ;;
  if negb (ok s) then ret s else
  mz <- in_zbd (zs <- gets (λ b, seq 0 (length (meta_zones b))) ;; reset_meta_zones zs None) ;;
  match mz with
  | None => ret IOError
  | Some i =>
      log <- in_zbd (new_ZenMetaLog i) ;;
      b <- gets zbd_ ;;
      let '(super_string, _) := Superblock_EncodeTo (new_Superblock b uuid version aux_fs_path finish_threshold) in
      assert (size super_string =? ENCODED_SIZE) ;;
      s <- in_zbd (AddRecord log super_string) ;;
      s <- (if negb (ok s) then ret s else
        s <- PersistSnapshot log ;; ret (if negb (ok s) then IOError else OK)) ;;
      in_zbd (delete_ZenMetaLog log) ;; ret s
  end.

(** ** Mounting *)

(** [Repair]. *)
Fixpoint repair_loop (fs : list (slice * nat)) : prog IOStatus :=
  match fs with
  | [] => ret OK
  | (_, h) :: fs' =>
      f <- file_at h ;;
      if HasActiveExtent f then
        r <- in_zbd (File_Recover f) ;;
        let '(s, f) := r in
        file_put h f ;; if negb (ok s) then ret s else repair_loop fs'
      else repair_loop fs'
  end.
Definition Repair : prog IOStatus := fs <- gets files_ ;; repair_loop fs.
End zen_migrate.

Section zen_mount.
Context {D : ZbdDev} {K : Crc32c} {A : AuxFs}.

Fixpoint release_logs (logs : list (Superblock * ZenMetaLog)) : ST ZenFS unit :=
  match logs with
  | [] => ret tt
  | (_, log) :: logs' => in_zbd (delete_ZenMetaLog log) ;; release_logs logs'
  end.

(** By descending sequence number, the later of equals first. *)
Fixpoint insert_desc {X} (x : Superblock * X) (l : list (Superblock * X)) : list (Superblock * X) :=
  match l with
  | [] => [x]
  | y :: l' => if sequence_ y.1 <=? sequence_ x.1 then x :: l else y :: insert_desc x l'
  end.

(** The loop that finds all valid superblocks, sorted as they are found. *)
Fixpoint find_superblocks (zs : list nat) (valid : list (Superblock * ZenMetaLog)) :
    ST ZenFS (IOStatus * list (Superblock * ZenMetaLog)) :=
  match zs with
  | [] => ret (OK, valid)
  | i :: zs' =>
      got <- in_zbd (Acquire (MetaZone i)) ;; assert got ;;
      log <- in_zbd (new_ZenMetaLog i) ;;
      r <- in_zbd (ReadRecord log) ;;
      let '(s, super_record, log) := r in
      if negb (ok s) || (size super_record =? 0) then
        in_zbd (delete_ZenMetaLog log) ;; find_superblocks zs' valid
      else
        b <- gets zbd_ ;;
        let '(s, sb) := Superblock_DecodeFrom super_record in
        match sb with
        | Some sb =>
            let s := if ok s then CompatibleWith sb b else s in
            if negb (ok s) then release_logs ((sb, log) :: valid) ;; ret (s, [])
            else find_superblocks zs' (insert_desc (sb, log) valid)
        | None => in_zbd (delete_ZenMetaLog log) ;; release_logs valid ;; ret (s, [])
        end
  end.

(** Recover from the newest log that has a snapshot: its superblock and the logs that were
    not tried. *)
Fixpoint try_recover (now : Z) (logs : list (Superblock * ZenMetaLog)) :
    ST ZenFS (IOStatus * option (Superblock * list (Superblock * ZenMetaLog))) :=
  match logs with
  | [] => ret (IOError, None)
  | (sb, log) :: logs' =>
      s <- RecoverFrom now log ;;
      if ok s then modify (set_meta_log (Some log)) ;; ret (OK, Some (sb, logs')) else
      in_zbd (delete_ZenMetaLog log) ;;
      if IsNotFound s then try_recover now logs' else release_logs logs' ;; ret (s, None)
  end.

(** The end of [Mount], after recovery. *)
Definition finish_mount (now : Z) (readonly : bool) : ST ZenFS IOStatus :=
  s <- Repair ;;
  if negb (ok s) then ret s else
  if readonly then ret OK else
  s <- RollMetaZoneLocked ;;
  if negb (ok s) then ret s else in_zbd ResetUnusedIOZones.

(** [Mount] from the sorted superblocks on. *)
Definition mount_logs (now : Z) (readonly : bool) (logs : list (Superblock * ZenMetaLog)) : ST ZenSystem IOStatus :=
  if bool_decide (logs = []) then ret NotFound else
  r <- in_fs (try_recover now logs) ;;
  match r with
  | (s, None) => ret s
  | (_, Some (sb, logs)) =>
      in_fs (modify (set_superblock (Some sb))) ;;
      in_fs (in_zbd (modify (SetFinishTreshold (finish_treshold_ sb)))) ;;
      s <- in_aux (aux_CreateDirIfMissing (GetAuxFsPath sb)) ;;
      in_fs (release_logs logs) ;;
      if negb (ok s) then ret s else in_fs (finish_mount now readonly)
  end.

Definition Mount (now : Z) (readonly : bool) : ST ZenSystem IOStatus :=
  n <- in_fs (gets (λ s, length (meta_zones (zbd_ s)))) ;;
  if (n <? 2)%nat then ret NotSupported else
  r <- in_fs (find_superblocks (seq 0 n) []) ;;
  let '(s, logs) := r in
  if negb (ok s) then ret s else mount_logs now readonly logs.
End zen_mount.
