(* ===== verification/ZenFileCodec.v ===== *)
(** * ZenFS: decoding an encoded file gives it back

    [decode_encoded]: [ZoneFile::DecodeFrom] on the output of [ZoneFile::EncodeTo] gives the
    file, with the extents from the given one on, and accounts for these extents in their
    zones. *)

From stdpp Require Import base numbers option list gmap.
From S2P Require Import Prelude ZenCoding ZenTypes ZenZbd ZenFile.

(** Evaluate the tests on closed integers. *)
Ltac closed_tests :=
  repeat match goal with
  | |- context [?a =? ?b] =>
      let v := eval vm_compute in (a =? b) in
      lazymatch v with
      | true => change (a =? b) with true
      | false => change (a =? b) with false
      end
  end; cbv iota; cbn [negb].

(** ** Space accounting *)

Definition use (n : Z) (z : Zone) : Zone := z_set_used (u64 (used_capacity_ z + n)) z.
(** The zones after the extents [es] are counted. *)
Definition account (es : list ZoneExtent) (zs : list Zone) : list Zone :=
  foldl (λ zs e, alter (use (e_length e)) (e_zone e) zs) zs es.

Lemma alter_insert {A} (f : A → A) (l : list A) i x : l !! i = Some x → <[i := f x]> l = alter f i l.
Proof.
  intros Hx. apply list_eq. intros j. destruct (decide (i = j)) as [<-|].
  - rewrite list_lookup_insert_eq, list_lookup_alter_eq, Hx; [done|by eapply lookup_lt_Some].
  - by rewrite list_lookup_insert_ne, list_lookup_alter_ne by done.
Qed.

Lemma account_cons e es zs : account (e :: es) zs = account es (alter (use (e_length e)) (e_zone e) zs).
Proof. done. Qed.

Lemma length_account es zs : length (account es zs) = length zs.
Proof. revert zs. induction es as [|e es IH]; intros zs; [done|]. by rewrite account_cons, IH, length_alter. Qed.

Lemma account_app es es' zs : account (es ++ es') zs = account es' (account es zs).
Proof. apply foldl_app. Qed.

(** Where a zone lies does not depend on the accounting. *)
Lemma find_zone_alter zsz off (f : Zone → Zone) j zs i :
  (∀ z, start_ (f z) = start_ z) → find_zone zsz off (alter f j zs) i = find_zone zsz off zs i.
Proof.
  intros Hf. revert j i. induction zs as [|z zs IH]; intros j i; [done|].
  destruct j as [|j]; cbn; [by rewrite Hf|]. by rewrite IH.
Qed.

Lemma find_zone_account zsz off es zs i : find_zone zsz off (account es zs) i = find_zone zsz off zs i.
Proof.
  revert zs. induction es as [|e es IH]; intros zs; [done|]. rewrite account_cons, IH. by apply find_zone_alter.
Qed.

Lemma find_zone_lt zsz off zs i j : find_zone zsz off zs i = Some j → (i ≤ j < i + length zs)%nat.
Proof.
  revert i. induction zs as [|z zs IH]; intros i; [done|]. cbn [find_zone length].
  case_match; [intros [= ->]; lia|]. intros H'%IH. lia.
Qed.

(** ** Well-formed files *)

Section file_codec.
Context {D : ZbdDev}.
Implicit Types (b : ZonedBlockDevice) (f : ZoneFile) (e : ZoneExtent).

Definition extent_ok b e : Prop :=
  0 ≤ e_start e < 2 ^ 64 ∧ 0 ≤ e_length e < 2 ^ 64 ∧ GetIOZone b (e_start e) = Some (e_zone e).

Definition name_ok (n : slice) : Prop := n ≠ [] ∧ size n < 2 ^ 32.

Record file_ok b f : Prop := {
  fo_id : 0 ≤ file_id_ f < 2 ^ 64;
  fo_size : 0 ≤ file_size_ f < 2 ^ 64;
  fo_lifetime : 0 ≤ lifetime_ f < 2 ^ 32;
  fo_mtime : - 2 ^ 63 ≤ m_time_ f < 2 ^ 63;
  fo_start : 0 ≤ extent_start_ f < 2 ^ 64;
  fo_extents : Forall (extent_ok b) (extents_ f);
  fo_names : Forall name_ok (linkfiles_ f)
}.

(** The part of a file that its encoding from extent [k] on carries. *)
Definition decoded f (k : nat) : ZoneFile :=
  mk_file (drop k (extents_ f)) (linkfiles_ f) None (extent_start_ f) 0 (lifetime_ f) kUnknown
    (file_size_ f) (file_id_ f) (u32 (Z.of_nat (length (extents_ f) - k))) false (m_time_ f)
    (is_sparse_ f) false.

Lemma GetIOZone_account b es off :
  GetIOZone (set_io_zones (account es (io_zones b)) b) off = GetIOZone b off.
Proof. apply find_zone_account. Qed.

Lemma GetIOZone_lt b off i : GetIOZone b off = Some i → (i < length (io_zones b))%nat.
Proof. unfold GetIOZone. intros H%find_zone_lt. lia. Qed.

Lemma run_used_add i n b z :
  io_zones b !! i = Some z → used_add i n b = Done tt (set_io_zones (alter (use n) i (io_zones b)) b).
Proof.
  intros Hz. unfold used_add, zone_upd, zone_at. unfold bind, get, modify. cbn [zone_of]. rewrite Hz.
  cbn [load ret set_zone]. by rewrite <-(alter_insert (use n) _ _ z).
Qed.

(** ** The encoding, flat *)

Definition enc_extent e : slice := PutFixed32 [] kExtent ++ PutLengthPrefixedSlice [] (Extent_EncodeTo e []).
Definition enc_link (n : slice) : slice := PutFixed32 [] kLinkedFilename ++ PutLengthPrefixedSlice [] n.

Lemma put_extents out es : foldl put_extent out es = out ++ concat (enc_extent <$> es).
Proof.
  revert out. induction es as [|e es IH]; intros out; cbn [foldl fmap list_fmap concat]; [by rewrite app_nil_r|].
  rewrite IH. unfold put_extent at 1, enc_extent. rewrite Put_appL, (Put_app32 out).
  by rewrite <-!app_assoc.
Qed.

Lemma put_links out ns : foldl put_link out ns = out ++ concat (enc_link <$> ns).
Proof.
  revert out. induction ns as [|n ns IH]; intros out; cbn [foldl fmap list_fmap concat]; [by rewrite app_nil_r|].
  rewrite IH. unfold put_link at 1, enc_link. rewrite Put_appL, (Put_app32 out).
  by rewrite <-!app_assoc.
Qed.

Lemma EncodeTo_flat f k :
  ZoneFile_EncodeTo f [] k =
  PutFixed32 [] kFileID ++ PutFixed64 [] (file_id_ f) ++
  PutFixed32 [] kFileSize ++ PutFixed64 [] (file_size_ f) ++
  PutFixed32 [] kWriteLifeTimeHint ++ PutFixed32 [] (u32 (lifetime_ f)) ++
  concat (enc_extent <$> drop (Z.to_nat k) (extents_ f)) ++
  PutFixed32 [] kModificationTime ++ PutFixed64 [] (u64 (m_time_ f)) ++
  PutFixed32 [] kActiveExtentStart ++ PutFixed64 [] (extent_start_ f) ++
  (if is_sparse_ f then PutFixed32 [] kIsSparse else []) ++
  concat (enc_link <$> linkfiles_ f).
Proof.
  unfold ZoneFile_EncodeTo. rewrite put_links, put_extents. unfold PutFixed32, PutFixed64.
  rewrite !app_nil_l. destruct (is_sparse_ f); rewrite <-?app_assoc; [done|]. by rewrite app_nil_l.
Qed.

(** ** One field at a time *)

Ltac field :=
  cbn [decode_loop]; unfold PutFixed32, PutFixed64; rewrite ?app_nil_l;
  rewrite GetFixed32_Put by done; closed_tests.

Lemma dl_size n f v rest :
  0 ≤ v < 2 ^ 64 →
  decode_loop (S n) f (PutFixed32 [] kFileSize ++ PutFixed64 [] v ++ rest) = decode_loop n (f_set_size v f) rest.
Proof. intros Hv. field. by rewrite GetFixed64_Put. Qed.

Lemma dl_lifetime n f v rest :
  0 ≤ v < 2 ^ 32 →
  decode_loop (S n) f (PutFixed32 [] kWriteLifeTimeHint ++ PutFixed32 [] v ++ rest) =
  decode_loop n (f_set_lifetime v f) rest.
Proof. intros Hv. field. by rewrite GetFixed32_Put. Qed.

Lemma dl_mtime n f v rest :
  0 ≤ v < 2 ^ 64 →
  decode_loop (S n) f (PutFixed32 [] kModificationTime ++ PutFixed64 [] v ++ rest) =
  decode_loop n (f_set_mtime (s64 v) f) rest.
Proof. intros Hv. field. by rewrite GetFixed64_Put. Qed.

Lemma dl_start n f v rest :
  0 ≤ v < 2 ^ 64 →
  decode_loop (S n) f (PutFixed32 [] kActiveExtentStart ++ PutFixed64 [] v ++ rest) =
  decode_loop n (f_set_extent_start v f) rest.
Proof. intros Hv. field. by rewrite GetFixed64_Put. Qed.

Lemma dl_sparse n f rest :
  decode_loop (S n) f (PutFixed32 [] kIsSparse ++ rest) = decode_loop n (f_set_sparse true f) rest.
Proof. by field. Qed.

Lemma dl_link n f name rest :
  name_ok name →
  decode_loop (S n) f (enc_link name ++ rest) = decode_loop n (f_set_links (linkfiles_ f ++ [name]) f) rest.
Proof.
  intros [Hne Hsz]. unfold enc_link. rewrite <-app_assoc. field.
  rewrite GetLengthPrefixedSlice_Put by done. rewrite (proj2 (Z.eqb_neq (size name) 0)); [done|].
  unfold size. destruct name; [done|cbn; lia].
Qed.

Lemma Extent_roundtrip e :
  0 ≤ e_start e < 2 ^ 64 → 0 ≤ e_length e < 2 ^ 64 →
  Extent_DecodeFrom (Extent_EncodeTo e []) = Some (e_start e, e_length e).
Proof.
  intros Hs Hl. unfold Extent_DecodeFrom, Extent_EncodeTo, PutFixed64. rewrite app_nil_l.
  rewrite size_app. unfold size. rewrite !length_Fixed64. closed_tests.
  rewrite GetFixed64_Put by done. by rewrite <-(app_nil_r (EncodeFixed64 (e_length e))), GetFixed64_Put.
Qed.

Lemma size_extent e : size (Extent_EncodeTo e []) = 16.
Proof. unfold Extent_EncodeTo, PutFixed64, size. rewrite app_nil_l, length_app, !length_Fixed64. done. Qed.

Lemma dl_extent n f e rest b :
  extent_ok b e →
  decode_loop (S n) f (enc_extent e ++ rest) b =
  decode_loop n (f_set_extents (extents_ f ++ [e]) f) rest (set_io_zones (account [e] (io_zones b)) b).
Proof.
  intros (Hs & Hl & Hz). unfold enc_extent. rewrite <-app_assoc. field.
  rewrite GetLengthPrefixedSlice_Put by (rewrite size_extent; lia). rewrite Extent_roundtrip by done.
  unfold bind, get. rewrite Hz.
  destruct (lookup_lt_is_Some_2 (io_zones b) (e_zone e)) as [z Hz']; [by eapply GetIOZone_lt|].
  rewrite (run_used_add _ _ _ z) by done. by destruct e.
Qed.

(** ** Runs of fields *)

Lemma set_io_zones_twice b zs zs' : set_io_zones zs' (set_io_zones zs b) = set_io_zones zs' b.
Proof. done. Qed.

Lemma dl_extents es : ∀ n f rest b,
  Forall (extent_ok b) es →
  decode_loop (length es + n) f (concat (enc_extent <$> es) ++ rest) b =
  decode_loop n (f_set_extents (extents_ f ++ es) f) rest (set_io_zones (account es (io_zones b)) b).
Proof.
  induction es as [|e es IH]; intros n f rest b Hok.
  - cbn [length fmap list_fmap concat Nat.add app account foldl]. rewrite app_nil_r. by destruct f, b.
  - apply Forall_cons in Hok as [He Hok]. cbn [length fmap list_fmap concat Nat.add]. rewrite <-app_assoc.
    rewrite dl_extent by done. rewrite IH.
    + rewrite set_io_zones_twice. cbn [extents_ f_set_extents]. by rewrite <-app_assoc.
    + eapply Forall_impl; [exact Hok|]. intros e' (H1 & H2 & H3). split_and!; try lia.
      by rewrite GetIOZone_account.
Qed.

Lemma dl_links ns : ∀ n f,
  Forall name_ok ns →
  decode_loop (length ns + n) f (concat (enc_link <$> ns)) =
  decode_loop n (f_set_links (linkfiles_ f ++ ns) f) [].
Proof.
  induction ns as [|m ns IH]; intros n f Hok.
  - cbn. rewrite app_nil_r. by destruct f.
  - apply Forall_cons in Hok as [Hm Hok]. cbn [length fmap list_fmap concat Nat.add].
    rewrite dl_link by done. rewrite IH by done. cbn [linkfiles_ f_set_links]. by rewrite <-app_assoc.
Qed.

(** ** Whole files *)

Lemma length_concat_ge {A} (g : A → slice) l k :
  (∀ x, (k ≤ length (g x))%nat) → (k * length l ≤ length (concat (g <$> l)))%nat.
Proof.
  intros Hg. induction l as [|x l IH]; cbn [fmap list_fmap concat length]; [lia|].
  rewrite length_app. specialize (Hg x). lia.
Qed.

Lemma length_enc_extent e : (4 ≤ length (enc_extent e))%nat.
Proof. unfold enc_extent, PutFixed32. rewrite !length_app, length_Fixed32. lia. Qed.
Lemma length_enc_link m : (4 ≤ length (enc_link m))%nat.
Proof. unfold enc_link, PutFixed32. rewrite !length_app, length_Fixed32. lia. Qed.

(** The fields after the id. *)
Definition enc_body f (es : list ZoneExtent) : slice :=
  PutFixed32 [] kFileSize ++ PutFixed64 [] (file_size_ f) ++
  PutFixed32 [] kWriteLifeTimeHint ++ PutFixed32 [] (u32 (lifetime_ f)) ++
  concat (enc_extent <$> es) ++
  PutFixed32 [] kModificationTime ++ PutFixed64 [] (u64 (m_time_ f)) ++
  PutFixed32 [] kActiveExtentStart ++ PutFixed64 [] (extent_start_ f) ++
  (if is_sparse_ f then PutFixed32 [] kIsSparse else []) ++
  concat (enc_link <$> linkfiles_ f).

Lemma enc_body_fuel f es :
  ∃ n, length (enc_body f es) =
    S (S (length es + S (S ((if is_sparse_ f then 1 else 0) + (length (linkfiles_ f) + n))))).
Proof.
  pose proof (length_concat_ge _ es 4 length_enc_extent).
  pose proof (length_concat_ge _ (linkfiles_ f) 4 length_enc_link).
  eexists (length (enc_body f es) - (4 + length es + (if is_sparse_ f then 1 else 0) + length (linkfiles_ f)))%nat.
  assert (4 + length es + (if is_sparse_ f then 1 else 0) + length (linkfiles_ f) ≤ length (enc_body f es))%nat.
  { unfold enc_body, PutFixed32, PutFixed64. rewrite !length_app, !length_Fixed32, !length_Fixed64.
    destruct (is_sparse_ f); [rewrite length_app, length_Fixed32|]; cbn [length]; lia. }
  lia.
Qed.

Lemma s64_u64 x : - 2 ^ 63 ≤ x < 2 ^ 63 → s64 (u64 x) = x.
Proof.
  intros Hx. unfold s64, u64. rewrite Zplus_mod_idemp_l, Z.mod_small; lia.
Qed.

(** Into a fresh object, as recovery does. *)
Lemma decode_encoded f b k :
  file_ok b f →
  ZoneFile_DecodeFrom (new_ZoneFile 0) (ZoneFile_EncodeTo f [] (Z.of_nat k)) b =
  Done (OK, decoded f k) (set_io_zones (account (drop k (extents_ f)) (io_zones b)) b).
Proof.
  intros Hok. destruct Hok as [Hid Hsz Hlt Hmt Hst Hes Hns]. rewrite EncodeTo_flat, Nat2Z.id.
  set (es := drop k (extents_ f)). assert (Forall (extent_ok b) es) as Hes' by (by apply Forall_drop).
  fold (enc_body f es). unfold ZoneFile_DecodeFrom, PutFixed32 at 1, PutFixed64 at 1. rewrite !app_nil_l.
  rewrite GetFixed32_Put by done. closed_tests. rewrite GetFixed64_Put by done.
  destruct (enc_body_fuel f es) as [n ->]. unfold enc_body.
  rewrite dl_size by done. rewrite (u32_small (lifetime_ f)), dl_lifetime by done.
  rewrite dl_extents by done. rewrite dl_mtime by apply u64_range. rewrite dl_start by done.
  rewrite s64_u64 by done.
  destruct (is_sparse_ f) eqn:Esp; cbn [Nat.add app].
  - rewrite dl_sparse, dl_links by done. destruct n; cbn; unfold MetadataSynced, decoded; cbn;
      unfold es; rewrite length_drop, Esp; done.
  - rewrite dl_links by done. destruct n; cbn; unfold MetadataSynced, decoded; cbn;
      unfold es; rewrite length_drop, Esp; done.
Qed.
End file_codec.
