(* ===== verification/ZenLogSpec.v ===== *)
(** * ZenFS: what is written to the metadata log is read back

    The laws of a device that works, and the specifications of [AddRecord] and
    [ReadRecord]: a record that is appended lies at the write pointer of the zone of the
    log, and reading at the place of a record gives the record and moves to the next. *)

From stdpp Require Import base numbers option list list_numbers gmap.
From S2P Require Import Prelude ZenCoding ZenTypes ZenZbd ZenLog.

(** ** A device that works

    [byte_at] is what the device stores; [readable]: reads do not fail; [writable d a n]:
    the device takes up to [n] more bytes in order from [a] on (the write pointer of a
    zone), and writing them does not stop it from taking bytes elsewhere.  Reads and writes
    may be short. *)

Class ZbdDevOk (D : ZbdDev) := {
  byte_at : dev → Z → Z;
  readable : dev → Prop;
  writable : dev → Z → Z → Prop;
  pread_ok : ∀ d a n, readable d → 0 < n → ∃ data d',
    pread a n d = (Some data, d') ∧ 0 < size data ≤ n ∧
    (∀ i x, data !! i = Some x → x = byte_at d (a + Z.of_nat i)) ∧
    readable d' ∧ (∀ a, byte_at d' a = byte_at d a) ∧
    (∀ a n, writable d a n → writable d' a n);
  pwrite_ok : ∀ d a n data, readable d → writable d a n → data ≠ [] → size data ≤ n → ∃ k d',
    pwrite a data d = (Some (Z.of_nat k), d') ∧ (0 < k ≤ length data)%nat ∧
    readable d' ∧ writable d' (a + Z.of_nat k) (n - Z.of_nat k) ∧
    (∀ i x, take k data !! i = Some x → byte_at d' (a + Z.of_nat i) = x) ∧
    (∀ a', a' < a ∨ a + Z.of_nat k ≤ a' → byte_at d' a' = byte_at d a') ∧
    (∀ a' n', a' + n' ≤ a ∨ a + n ≤ a' → writable d a' n' → writable d' a' n')
}.

Section log_spec.
Context {D : ZbdDev} {DOk : ZbdDevOk D} {K : Crc32c} {KOk : Crc32cOk K}.
Implicit Types (b : ZonedBlockDevice) (d : dev) (l : slice).

(** The device stores [l] from [a] on. *)
Definition stores d (a : Z) l : Prop := ∀ i x, l !! i = Some x → byte_at d (a + Z.of_nat i) = x.

Lemma stores_app d a l1 l2 : stores d a (l1 ++ l2) ↔ stores d a l1 ∧ stores d (a + size l1) l2.
Proof.
  split.
  - intros H. split; intros i x Hi.
    + apply H. by rewrite lookup_app_l by (by eapply lookup_lt_Some).
    + unfold size. replace (a + Z.of_nat (length l1) + Z.of_nat i) with (a + Z.of_nat (length l1 + i)) by lia.
      apply H. rewrite lookup_app_r by lia. by replace (length l1 + i - length l1)%nat with i by lia.
  - intros [H1 H2] i x [Hi|[Hge Hi]]%lookup_app_Some; [by apply H1|].
    apply H2 in Hi. rewrite <-Hi. f_equal. unfold size. lia.
Qed.

Lemma stores_unique d a l1 l2 : stores d a l1 → stores d a l2 → length l1 = length l2 → l1 = l2.
Proof.
  intros H1 H2 Hlen. apply list_eq_same_length with (length l1); [done|done|].
  intros i x y _ Hx Hy. apply H1 in Hx. apply H2 in Hy. congruence.
Qed.

(** ** Reading *)

(** The device of [b'] is that of [b] after reads. *)
Definition dev_same d d' : Prop :=
  readable d' ∧ (∀ a, byte_at d' a = byte_at d a) ∧ (∀ a n, writable d a n → writable d' a n).
Definition after_reads b b' : Prop := ∃ d', b' = set_device d' b ∧ dev_same (device b) d'.

Lemma after_reads_trans b1 b2 b3 : after_reads b1 b2 → after_reads b2 b3 → after_reads b1 b3.
Proof.
  intros (d1 & -> & _ & Hb1 & Hw1) (d2 & -> & Hr2 & Hb2 & Hw2). cbn in *. exists d2. split; [done|].
  split; [done|]. split; [intros; by rewrite Hb2, Hb1|auto].
Qed.

Lemma after_reads_refl b : readable (device b) → after_reads b b.
Proof. intros Hr. exists (device b). split; [by destruct b|]. by split_and!. Qed.

Lemma after_reads_stores b b' a l : after_reads b b' → stores (device b) a l → stores (device b') a l.
Proof. intros (d' & -> & _ & Hb & _) H i x Hi. cbn. rewrite Hb. by apply H. Qed.

Lemma after_reads_readable b b' : after_reads b b' → readable (device b').
Proof. by intros (d' & -> & Hr & _). Qed.

Lemma after_reads_zone b b' r : after_reads b b' → zone_of r b' = zone_of r b.
Proof. by intros (d' & -> & _). Qed.

Lemma wp_read_loop : ∀ fuel pos l acc b,
  readable (device b) → stores (device b) pos l → (length l ≤ fuel)%nat →
  0 ≤ pos → pos + size l < 2 ^ 64 →
  wp (read_loop fuel pos (size l) acc)
    (λ r b', r = (OK, acc ++ l, pos + size l) ∧ after_reads b b') b.
Proof.
  induction fuel as [|fuel IH]; intros pos l acc b Hr Hs Hf Hp Hlim; cbn [read_loop].
  - destruct l; [|cbn in Hf; lia]. change (size [] <=? 0) with true. cbv iota. wp_step.
    rewrite app_nil_r. split; [by rewrite Z.add_0_r|by apply after_reads_refl].
  - destruct (Z.leb_spec (size l) 0).
    { destruct l; [|unfold size in *; cbn in *; lia]. wp_step. rewrite app_nil_r.
      split; [by rewrite Z.add_0_r|by apply after_reads_refl]. }
    destruct (pread_ok (device b) pos (size l) Hr) as (data & d' & Hrd & Hsz & Hdata & Hr' & Hb' & Hw'); [lia|].
    unfold dev_call. repeat wp_step. rewrite Hrd. repeat wp_step.
    assert (data = take (length data) l) as Htake.
    { apply (stores_unique (device b) pos).
      - intros i x Hx. by rewrite (Hdata _ _ Hx).
      - rewrite <-(take_drop (length data) l) in Hs. by apply stores_app in Hs as [Hs _].
      - rewrite length_take. unfold size in *. lia. }
    assert (size l - size data = size (drop (length data) l)) as Hleft.
    { unfold size in *. rewrite length_drop. lia. }
    rewrite Hleft, u64_small by (unfold size in *; lia). eapply wp_mono.
    + apply IH.
      * done.
      * intros i x Hx. cbn. rewrite Hb'. rewrite <-(take_drop (length data) l), <-Htake in Hs.
        apply stores_app in Hs as [_ Hs]. by apply Hs.
      * rewrite length_drop. unfold size in *. lia.
      * unfold size. lia.
      * unfold size in *. rewrite length_drop. lia.
    + intros r b' [-> Har]. split.
      * rewrite <-app_assoc. rewrite Htake at 1. rewrite take_drop. f_equal.
        unfold size in *. rewrite length_drop. lia.
      * eapply after_reads_trans; [|exact Har]. exists d'. by split_and!.
Qed.

Lemma wp_Log_Read b log z l :
  zone_of (MetaZone (log_zone log)) b = Some z → readable (device b) →
  stores (device b) (read_pos_ log) l → l = [] ∨ read_pos_ log < wp_ z →
  0 ≤ read_pos_ log → read_pos_ log + size l ≤ start_ z + max_capacity_ z < 2 ^ 64 →
  wp (Log_Read log (size l))
    (λ r b', r = (OK, l, mk_log (read_pos_ log + size l) (log_zone log) (bs_ log)) ∧ after_reads b b') b.
Proof.
  intros Hz Hr Hs Hpos H0 Hlim. pose proof (size_nonneg l). unfold Log_Read, zone_at. repeat wp_step.
  destruct (Z.leb_spec (wp_ z) (read_pos_ log)).
  { destruct Hpos as [->|]; [|lia]. wp_step. split; [|by apply after_reads_refl].
    rewrite Z.add_0_r. by destruct log. }
  rewrite !u64_small, (proj2 (Z.ltb_ge _ _)) by lia. wp_step.
  eapply wp_mono; [apply wp_read_loop; try done; unfold size in *; lia|].
  intros r b' [-> Har]. wp_step. by split.
Qed.

(** ** Records *)

(** Records of a size the code can write: the padded size is passed on as 32 bits. *)
Definition record_fits (bs : Z) (r : slice) : Prop := phys_size bs (size r) < 2 ^ 32.

Lemma phys_size_spec bs n :
  0 < bs → 0 ≤ n → phys_size bs n mod bs = 0 ∧ n + 8 ≤ phys_size bs n < n + 8 + bs.
Proof.
  intros Hbs Hn. unfold phys_size, zMetaHeaderSize.
  pose proof (Z.mod_pos_bound (n + 8) bs). case_match eqn:E.
  - rewrite Z.eqb_eq in E. lia.
  - split; [|lia]. replace (n + 8 + (bs - (n + 8) mod bs)) with ((1 + (n + 8) / bs) * bs)
      by (pose proof (Z.div_mod (n + 8) bs); lia). apply Z.mod_mul. lia.
Qed.

Lemma size_replicate k x : size (replicate k x) = Z.of_nat k.
Proof. unfold size. by rewrite length_replicate. Qed.

Lemma size_record bs r : 0 < bs → record_fits bs r → size (record_buffer bs r) = phys_size bs (size r).
Proof.
  intros Hbs Hr. unfold record_fits in Hr. pose proof (size_nonneg r).
  destruct (phys_size_spec bs (size r) Hbs) as [_ Hp]; [lia|].
  unfold record_buffer. rewrite u32_small by lia. rewrite size_app, size_replicate.
  rewrite !size_app. unfold size in *. rewrite !length_Fixed32. lia.
Qed.

(** Up to the next block boundary. *)
Lemma align_up bs pos n :
  0 < bs → pos mod bs = 0 → 0 ≤ n →
  (if (pos + 8 + n) mod bs =? 0 then pos + 8 + n else pos + 8 + n + (bs - (pos + 8 + n) mod bs)) =
  pos + phys_size bs n.
Proof.
  intros Hbs Hpos Hn. unfold phys_size, zMetaHeaderSize.
  replace ((pos + 8 + n) mod bs) with ((n + 8) mod bs); [case_match; lia|].
  rewrite <-(Z.add_mod_idemp_l (pos + 8)), <-(Z.add_mod_idemp_l pos), Hpos by lia.
  rewrite Z.add_mod_idemp_l by lia. f_equal. lia.
Qed.

(** What [ReadRecord] makes of a header and a payload, whatever the checksum in it. *)
Lemma wp_ReadRecord_raw b zn bs z pos c r :
  zone_of (MetaZone zn) b = Some z → readable (device b) →
  0 < bs → 0 ≤ c < 2 ^ 32 → size r < 2 ^ 32 →
  stores (device b) pos (EncodeFixed32 (crc32c_Mask c) ++ EncodeFixed32 (size r) ++ r) →
  0 ≤ pos → pos + 8 + size r ≤ wp_ z ≤ start_ z + max_capacity_ z →
  start_ z + max_capacity_ z < 2 ^ 64 →
  wp (ReadRecord (mk_log pos zn bs))
    (λ res b', after_reads b b' ∧
      let p := pos + 8 + size r in
      res = if record_crc (size r) r =? c
            then (OK, r, mk_log (if p mod bs =? 0 then p else u64 (p + (bs - p mod bs))) zn bs)
            else (IOError, r, mk_log p zn bs)) b.
Proof.
  intros Hz Hr Hbs Hc Hfit Hs Hp Hwp Hlim. pose proof (size_nonneg r).
  set (crc := crc32c_Mask c) in Hs. assert (0 ≤ crc < 2 ^ 32) as Hcrc by apply u32_range.
  rewrite app_assoc in Hs. apply stores_app in Hs as [Hh Hd].
  assert (size (EncodeFixed32 crc ++ EncodeFixed32 (size r)) = 8) as Hh8
    by (unfold size; by rewrite length_app, !length_Fixed32).
  rewrite Hh8 in Hd. unfold ReadRecord, zMetaHeaderSize. wp_step. rewrite <-Hh8 at 1.
  eapply wp_mono;
    [eapply wp_Log_Read; cbn [read_pos_ log_zone]; [done..|right; lia|lia|rewrite Hh8; lia]|].
  cbn [read_pos_ log_zone bs_]. intros res b1 [-> Har1]. cbv iota. change (ok OK) with true. cbn [negb].
  rewrite Hh8. change (8 =? 0) with false. cbv iota.
  rewrite GetFixed32_Put by done. cbn [default id].
  pose proof (GetFixed32_Put (size r) [] ltac:(lia)) as Hsz. rewrite app_nil_r in Hsz. rewrite Hsz.
  cbn [default id]. wp_step. eapply wp_mono.
  { eapply (wp_Log_Read b1 _ z); cbn [read_pos_ log_zone bs_].
    - by rewrite (after_reads_zone b).
    - by eapply after_reads_readable.
    - by eapply after_reads_stores.
    - destruct r as [|x r]; [by left|right]. unfold size in *. cbn [length] in *. lia.
    - lia.
    - lia. }
  cbn [read_pos_ log_zone bs_]. intros res b2 [-> Har2]. cbv iota. change (ok OK) with true. cbn [negb].
  unfold crc. rewrite Unmask_Mask by done.
  destruct (record_crc (size r) r =? c); cbn [negb]; wp_step; (split; [by eapply after_reads_trans|done]).
Qed.

Lemma wp_ReadRecord b zn bs z pos r :
  zone_of (MetaZone zn) b = Some z → readable (device b) →
  0 < bs → record_fits bs r → stores (device b) pos (record_buffer bs r) →
  0 ≤ pos → pos mod bs = 0 → pos + phys_size bs (size r) ≤ wp_ z ≤ start_ z + max_capacity_ z →
  start_ z + max_capacity_ z < 2 ^ 64 →
  wp (ReadRecord (mk_log pos zn bs))
    (λ res b', res = (OK, r, mk_log (pos + phys_size bs (size r)) zn bs) ∧ after_reads b b') b.
Proof.
  intros Hz Hr Hbs Hfit Hs Hp Hal Hwp Hlim. pose proof (size_nonneg r).
  destruct (phys_size_spec bs (size r) Hbs) as [_ Hps]; [lia|].
  unfold record_fits in Hfit. unfold record_buffer in Hs. rewrite u32_small in Hs by lia.
  apply stores_app in Hs as [Hs _].
  eapply wp_mono; [apply (wp_ReadRecord_raw b zn bs z pos (record_crc (size r) r) r); (done || lia || idtac)|].
  { apply crc_range. }
  cbv zeta. rewrite Z.eqb_refl. intros res b2 [Har2 ->].
  split; [|done]. do 2 f_equal. pose proof (align_up bs pos (size r) Hbs Hal ltac:(lia)) as E.
  rewrite <-E. case_match eqn:Em; [done|]. apply u64_small. lia.
Qed.

(** At the end of the log there is no record. *)
Lemma wp_ReadRecord_end b zn bs z pos :
  zone_of (MetaZone zn) b = Some z → readable (device b) → wp_ z ≤ pos →
  wp (ReadRecord (mk_log pos zn bs)) (λ res b', res = (OK, [], mk_log pos zn bs) ∧ after_reads b b') b.
Proof.
  intros Hz Hr Hp. unfold ReadRecord, Log_Read, zone_at. cbn [log_zone read_pos_]. repeat wp_step.
  rewrite (proj2 (Z.leb_le _ _)) by done. repeat wp_step. split; [done|by apply after_reads_refl].
Qed.

(** ** Appending *)

Lemma zone_of_set r z z' b : zone_of r b = Some z → zone_of r (set_zone r z' b) = Some z'.
Proof.
  destruct r; cbn; intros Hz; apply list_lookup_insert_eq; by eapply lookup_lt_Some.
Qed.

Lemma set_zone_same r z b : zone_of r b = Some z → set_zone r z b = b.
Proof. destruct r, b; cbn; intros Hz; by rewrite list_insert_id. Qed.

Lemma set_zone_twice r z1 z2 d1 d2 b :
  set_zone r z2 (set_device d2 (set_zone r z1 (set_device d1 b))) = set_zone r z2 (set_device d2 b).
Proof. destruct r, b; cbn; by rewrite list_insert_insert_eq. Qed.

Lemma z_written_add n1 n2 z : z_written n2 (z_written n1 z) = z_written (n1 + n2) z.
Proof.
  unfold z_written, u64. cbn. rewrite Zminus_mod_idemp_l, Zplus_mod_idemp_l. f_equal; f_equal; lia.
Qed.

Lemma z_written_0 z : 0 ≤ capacity_ z < 2 ^ 64 → 0 ≤ wp_ z < 2 ^ 64 → z_written 0 z = z.
Proof. intros Hc Hw. unfold z_written. rewrite Z.sub_0_r, Z.add_0_r, !u64_small by lia. by destruct z. Qed.

(** [data] was written at the write pointer of zone [z], the rest is as before. *)
Definition appended r (z : Zone) (data : slice) b b' : Prop := ∃ d',
  b' = set_zone r (z_written (size data) z) (set_device d' b) ∧ readable d' ∧
  writable d' (wp_ z + size data) (capacity_ z - size data) ∧ stores d' (wp_ z) data ∧
  (∀ a, a < wp_ z ∨ wp_ z + size data ≤ a → byte_at d' a = byte_at (device b) a) ∧
  (∀ a n, a + n ≤ wp_ z ∨ wp_ z + capacity_ z ≤ a → writable (device b) a n → writable d' a n).

(** A zone whose record agrees with the device. *)
Definition appendable r (z : Zone) b : Prop :=
  zone_of r b = Some z ∧ readable (device b) ∧ writable (device b) (wp_ z) (capacity_ z) ∧
  0 ≤ capacity_ z ∧ 0 ≤ wp_ z ∧ wp_ z + capacity_ z < 2 ^ 64.

Lemma appended_nil r z b : appendable r z b → appended r z [] b b.
Proof.
  intros (Hz & Hr & Hw & Hc & Hp & Hlim). exists (device b). change (size []) with 0.
  rewrite !Z.add_0_r, Z.sub_0_r, z_written_0 by lia.
  split_and!; [|done|done|by intros i x Hx|done|done].
  replace (set_device (device b) b) with b by (by destruct b). by rewrite set_zone_same.
Qed.

Lemma wp_append_loop : ∀ fuel r ptr z b,
  appendable r z b → size ptr ≤ capacity_ z → (length ptr ≤ fuel)%nat →
  wp (append_loop fuel r ptr) (λ s b', s = OK ∧ appended r z ptr b b') b.
Proof.
  induction fuel as [|fuel IH]; intros r ptr z b Ho Hsz Hf;
    (destruct ptr as [|x ptr]; [cbn [append_loop]; wp_step; split; [done|by apply appended_nil]|]).
  { cbn in Hf. lia. }
  destruct Ho as (Hz & Hr & Hw & Hc & Hp & Hlim).
  cbn [append_loop]. set (data := x :: ptr) in *. unfold zone_at, dev_call, zone_upd, zone_at.
  repeat wp_step.
  destruct (pwrite_ok (device b) (wp_ z) (capacity_ z) data Hr Hw) as
    (k & d1 & Hwr & Hk & Hr1 & Hw1 & Hst & Hsame & Hkeep); [done|done|].
  rewrite Hwr. repeat wp_step. cbv iota. repeat wp_step.
  assert (zone_of r (set_device d1 b) = Some z) as Hz1 by (by destruct r).
  assert (0 < Z.of_nat k ≤ size data) as Hks by (unfold size; lia).
  assert (size data = Z.of_nat k + size (drop k data)) as Hsplit.
  { unfold size. rewrite length_drop. lia. }
  rewrite Nat2Z.id. eapply wp_mono; [apply (IH r (drop k data) (z_written (Z.of_nat k) z))|].
  - assert (device (set_zone r (z_written (Z.of_nat k) z) (set_device d1 b)) = d1) as Hdev by (by destruct r).
    unfold appendable. rewrite Hdev. cbn [z_written wp_ capacity_]. rewrite !u64_small by lia.
    split_and!; [by eapply zone_of_set|done|done|lia..].
  - cbn [z_written capacity_]. rewrite u64_small by lia. lia.
  - rewrite length_drop. lia.
  - intros s b' (-> & d' & -> & Hr' & Hw' & Hst' & Hsame' & Hkeep'). split; [done|]. exists d'.
    rewrite set_zone_twice, z_written_add, <-Hsplit.
    cbn [z_written wp_ capacity_] in *. rewrite !(u64_small (wp_ z + _)) in Hw', Hst', Hsame', Hkeep' by lia.
    rewrite (u64_small (capacity_ z - _)) in Hw', Hkeep' by lia.
    assert (∀ a, byte_at (device (set_zone r (z_written (Z.of_nat k) z) (set_device d1 b))) a = byte_at d1 a)
      as Hd1 by (by destruct r).
    split_and!; [done|done| | | |].
    + replace (wp_ z + size data) with (wp_ z + Z.of_nat k + size (drop k data)) by lia.
      replace (capacity_ z - size data) with (capacity_ z - Z.of_nat k - size (drop k data)) by lia. done.
    + rewrite <-(take_drop k data). apply stores_app. split.
      * intros i y Hy. rewrite Hsame'; [rewrite Hd1; by apply Hst|]. left.
        apply lookup_lt_Some in Hy. rewrite length_take in Hy. lia.
      * unfold size at 1. rewrite length_take. replace (Z.of_nat (k `min` length data)) with (Z.of_nat k) by lia.
        done.
    + intros a Ha. rewrite Hsame', Hd1 by lia. apply Hsame. lia.
    + intros a n Ha Hwa. apply Hkeep'; [lia|]. destruct r; by apply Hkeep.
Qed.

Lemma wp_Zone_Append r data z b :
  appendable r z b → size data mod block_sz_ b = 0 → size data ≤ capacity_ z →
  wp (Zone_Append r data) (λ s b', s = OK ∧ appended r z data b b') b.
Proof.
  intros Ho Hal Hsz. pose proof Ho as (Hz & _). unfold Zone_Append, zone_at. repeat wp_step.
  rewrite (proj2 (Z.ltb_ge _ _)) by done. wp_step. wp_step; [by apply Z.eqb_eq|].
  by apply wp_append_loop.
Qed.

Lemma wp_Zone_Append_full r data z b :
  zone_of r b = Some z → capacity_ z < size data →
  wp (Zone_Append r data) (λ s b', s = NoSpace ∧ b' = b) b.
Proof.
  intros Hz Hsz. unfold Zone_Append, zone_at. repeat wp_step. rewrite (proj2 (Z.ltb_lt _ _)) by done.
  by wp_step.
Qed.

Lemma wp_AddRecord log r z b :
  appendable (MetaZone (log_zone log)) z b → bs_ log = block_sz_ b → 0 < block_sz_ b →
  record_fits (bs_ log) r → phys_size (bs_ log) (size r) ≤ capacity_ z →
  wp (AddRecord log r)
    (λ s b', s = OK ∧ appended (MetaZone (log_zone log)) z (record_buffer (bs_ log) r) b b') b.
Proof.
  intros Ho Hbs Hpos Hfit Hcap. rewrite Hbs in *. unfold record_fits in Hfit. pose proof (size_nonneg r).
  destruct (phys_size_spec (block_sz_ b) (size r) Hpos) as [Hal Hps]; [lia|].
  unfold AddRecord. rewrite Hbs, u32_small by lia. wp_step. wp_step; [by apply Z.eqb_eq|].
  apply wp_Zone_Append; [done|..]; rewrite size_record by done; done.
Qed.
End log_spec.
