(* ===== verification/ZenSpace.v ===== *)
(** * ZenFS: space accounting

    The extents of all files are counted in the zones they lie in.  [account] does not
    depend on the order, and [ClearExtents] undoes it as long as no counter wraps. *)

From stdpp Require Import base numbers option list gmap.
From Stdlib Require Import Sorted.
From S2P Require Import Prelude ZenCoding ZenTypes ZenZbd ZenFile ZenLog ZenFs ZenMeta ZenFileCodec.

(** Bytes of [es] in zone [i]. *)
Fixpoint bytes_in (i : nat) (es : list ZoneExtent) : Z :=
  match es with
  | [] => 0
  | e :: es' => (if decide (e_zone e = i) then e_length e else 0) + bytes_in i es'
  end.

(** The counters of [zs] can take the extents [es] without wrapping. *)
Definition room (zs : list Zone) (es : list ZoneExtent) : Prop :=
  Forall (λ e, 0 ≤ e_length e ∧ (e_zone e < length zs)%nat) es ∧
  ∀ i z, zs !! i = Some z → 0 ≤ used_capacity_ z ∧ used_capacity_ z + bytes_in i es < 2 ^ 64.

Lemma bytes_in_app i es es' : bytes_in i (es ++ es') = bytes_in i es + bytes_in i es'.
Proof. induction es; cbn [bytes_in app]; [lia|]. case_decide; lia. Qed.

Lemma bytes_in_nonneg i es : Forall (λ e, 0 ≤ e_length e) es → 0 ≤ bytes_in i es.
Proof. induction 1; cbn [bytes_in]; [lia|]. case_decide; lia. Qed.

Lemma bytes_in_perm i es es' : es ≡ₚ es' → bytes_in i es = bytes_in i es'.
Proof. induction 1; cbn [bytes_in]; try lia. Qed.

Lemma room_perm zs es es' : es ≡ₚ es' → room zs es → room zs es'.
Proof.
  intros Hp [Hf Hz]. split; [by rewrite <-Hp|]. intros i z Hi. by rewrite <-(bytes_in_perm i _ _ Hp); apply Hz.
Qed.

#[export] Instance room_Proper zs : Proper ((≡ₚ) ==> iff) (room zs).
Proof. intros es es' Hp. split; apply room_perm; [|symmetry]; exact Hp. Qed.

Lemma room_app_l zs es es' : room zs (es ++ es') → room zs es.
Proof.
  intros [Hf Hz]. apply Forall_app in Hf as [Hf Hf']. split; [done|]. intros i z Hi.
  destruct (Hz i z Hi) as [H0 H1]. rewrite bytes_in_app in H1.
  assert (0 ≤ bytes_in i es'); [|lia]. apply bytes_in_nonneg. eapply Forall_impl; [exact Hf'|naive_solver].
Qed.

Lemma room_sub zs es es' : es' ⊆+ es → room zs es → room zs es'.
Proof.
  intros [k Hk]%submseteq_Permutation Hr. eapply room_app_l, room_perm; [exact Hk|exact Hr].
Qed.

Lemma use_use m n z : use m (use n z) = use (n + m) z.
Proof. unfold use, z_set_used, u64. cbn. rewrite Zplus_mod_idemp_l. f_equal. f_equal. lia. Qed.

Lemma alter_use_comm m n i j (zs : list Zone) :
  alter (use m) i (alter (use n) j zs) = alter (use n) j (alter (use m) i zs).
Proof.
  apply list_eq. intros k. destruct (decide (i = j)) as [->|].
  - destruct (decide (j = k)) as [->|].
    + rewrite !list_lookup_alter_eq. destruct (zs !! k); [|done]. cbn. rewrite !use_use. do 2 f_equal. lia.
    + by rewrite !list_lookup_alter_ne by done.
  - destruct (decide (i = k)) as [<-|]; [|destruct (decide (j = k)) as [<-|]].
    + by rewrite (list_lookup_alter_ne _ _ j), !list_lookup_alter_eq, list_lookup_alter_ne by done.
    + by rewrite (list_lookup_alter_ne _ _ i), !list_lookup_alter_eq, list_lookup_alter_ne by done.
    + by rewrite !list_lookup_alter_ne by done.
Qed.

Lemma account_cons_last e es zs : account (e :: es) zs = alter (use (e_length e)) (e_zone e) (account es zs).
Proof.
  rewrite account_cons. revert zs. induction es as [|e' es IH]; intros zs; [done|].
  rewrite !account_cons, <-IH. f_equal. apply alter_use_comm.
Qed.

Lemma account_perm es es' zs : es ≡ₚ es' → account es zs = account es' zs.
Proof.
  intros Hp. revert zs. induction Hp; intros zs; [done|..].
  - by rewrite !account_cons, IHHp.
  - rewrite !account_cons. f_equal. apply alter_use_comm.
  - by rewrite IHHp1.
Qed.

#[export] Instance account_Proper : Proper ((≡ₚ) ==> (=) ==> (=)) account.
Proof. intros es es' Hp zs zs' ->. by apply account_perm. Qed.

(** What the counters hold. *)
Lemma account_lookup es zs i z :
  zs !! i = Some z → room zs es →
  account es zs !! i = Some (z_set_used (used_capacity_ z + bytes_in i es) z).
Proof.
  revert i z. induction es as [|e es IH]; intros i z Hz Hr.
  - cbn. rewrite Hz, Z.add_0_r. by destruct z.
  - assert (room zs es) as Hr' by (eapply (room_app_l _ _ [e]), room_perm; [|exact Hr]; by rewrite Permutation_app_comm).
    rewrite account_cons_last. destruct (decide (e_zone e = i)) as [He|].
    + subst i. rewrite list_lookup_alter_eq, (IH _ _ Hz Hr'). cbn. rewrite decide_True by done.
      destruct Hr as [Hf Hr]. apply Forall_cons in Hf as [[Hl _] Hf].
      destruct (Hr _ _ Hz) as [H0 H1]. cbn [bytes_in] in H1. rewrite decide_True in H1 by done.
      assert (0 ≤ bytes_in (e_zone e) es) by (apply bytes_in_nonneg; eapply Forall_impl; [exact Hf|naive_solver]).
      unfold use, z_set_used. cbn. rewrite u64_small by lia. do 2 f_equal. lia.
    + rewrite list_lookup_alter_ne, (IH _ _ Hz Hr') by done. cbn. by rewrite decide_False by done.
Qed.

Section space.
Context {D : ZbdDev}.
Implicit Types b : ZonedBlockDevice.

(** [ClearExtents] gives back what was counted. *)
Lemma wp_each_used_sub es : ∀ rest b zs,
  io_zones b = account (es ++ rest) zs → room zs (es ++ rest) →
  wp (each_extent used_sub es) (λ _ b', b' = set_io_zones (account rest zs) b) b.
Proof.
  induction es as [|e es IH]; intros rest b zs Hb Hr; cbn [each_extent].
  - wp_step. destruct b; cbn in *. by rewrite Hb.
  - cbn [app] in Hb, Hr. destruct Hr as [Hf Hr].
    pose proof Hf as Hf'. apply Forall_cons in Hf' as [[Hl Hi] Hf2].
    destruct (lookup_lt_is_Some_2 zs (e_zone e)) as [z Hz]; [done|].
    pose proof (account_lookup _ _ _ _ Hz (conj Hf Hr)) as Hlk.
    destruct (Hr _ _ Hz) as [H0 H1]. cbn [bytes_in] in H1, Hlk. rewrite decide_True in H1, Hlk by done.
    assert (0 ≤ bytes_in (e_zone e) (es ++ rest)) by (apply bytes_in_nonneg; eapply Forall_impl; [exact Hf2|naive_solver]).
    rewrite <-Hb in Hlk. wp_step. unfold used_sub, zone_at, zone_upd, zone_at. repeat wp_step; [apply Z.leb_le; cbn; lia|].
    assert (room zs (es ++ rest)) as Hr'.
    { eapply (room_app_l _ _ [e]), room_perm; [|exact (conj Hf Hr)]. apply (Permutation_app_comm [e]). }
    eapply wp_mono; [apply (IH rest _ zs); [|done]|].
    + cbn [set_zone io_zones set_io_zones]. rewrite Hb, account_cons_last. apply list_eq. intros k.
      destruct (decide (e_zone e = k)) as [<-|].
      * rewrite list_lookup_insert_eq by (rewrite length_alter, length_account; done).
        rewrite (account_lookup _ _ _ _ Hz Hr'). f_equal. unfold z_set_used. cbn. f_equal.
        rewrite u64_small; lia.
      * by rewrite list_lookup_insert_ne, list_lookup_alter_ne by done.
    + by intros [] b' ->.
Qed.

Lemma wp_ClearExtents f rest b zs :
  io_zones b = account (extents_ f ++ rest) zs → room zs (extents_ f ++ rest) →
  wp (ClearExtents f) (λ f' b', f' = f_set_extents [] f ∧ b' = set_io_zones (account rest zs) b) b.
Proof.
  intros Hb Hr. unfold ClearExtents. wp_step. eapply wp_mono; [by apply wp_each_used_sub|].
  intros [] b' ->. by wp_step.
Qed.

(** The counting loop of [MergeUpdate]. *)
Lemma wp_each_used_add es : ∀ b,
  Forall (λ e, (e_zone e < length (io_zones b))%nat) es →
  wp (each_extent (λ e, used_add (e_zone e) (e_length e)) es)
    (λ _ b', b' = set_io_zones (account es (io_zones b)) b) b.
Proof.
  induction es as [|e es IH]; intros b Hf; cbn [each_extent].
  - wp_step. by destruct b.
  - apply Forall_cons in Hf as [He Hf]. wp_step.
    destruct (lookup_lt_is_Some_2 _ _ He) as [z Hz]. unfold wp. rewrite (run_used_add _ _ _ z Hz).
    eapply wp_mono; [apply IH|].
    + eapply Forall_impl; [exact Hf|]. intros e' He'. cbn [io_zones set_io_zones]. by rewrite length_alter.
    + intros [] b' ->. cbn [io_zones set_io_zones]. by rewrite account_cons.
Qed.
End space.

(** * ZenFS: the table of files

    The map of names and the objects it refers to, against the abstract table: a finite map
    from file ids to files.  [table os fs F]: the objects [os] are the files of [F], one
    each, and the names [fs] are exactly their links. *)

Implicit Types (fs : list (slice * nat)) (os : gmap nat ZoneFile) (F : gmap Z ZoneFile) (f : ZoneFile).

(** ** The map of names *)

Lemma elem_of_keys fs k h : (k, h) ∈ fs → k ∈ fs.*1.
Proof. intros H. by apply (list_elem_of_fmap_2 fst) in H. Qed.

Lemma keys_functional fs k h h' : NoDup fs.*1 → (k, h) ∈ fs → (k, h') ∈ fs → h = h'.
Proof.
  induction fs as [|[k0 h0] fs IH]; [set_solver|]. cbn. intros [Hn Hnd]%NoDup_cons.
  rewrite !elem_of_cons. intros [[= -> ->]|H1] [[= ->]|H2]; try done.
  - by apply elem_of_keys in H2.
  - subst. by apply elem_of_keys in H1.
  - by apply IH.
Qed.

Lemma files_find_Some fs k h : NoDup fs.*1 → files_find fs k = Some h ↔ (k, h) ∈ fs.
Proof.
  unfold files_find. induction fs as [|[k0 h0] fs IH]; cbn [list_find find fmap list_fmap]; intros Hnd.
  - split; [done|]. by intros H%elem_of_nil.
  - apply NoDup_cons in Hnd as [Hn Hnd]. cbn [fst snd]. rewrite elem_of_cons. case_bool_decide as E.
    + cbn. subst k0. split; [intros [= ->]; by left|]. intros [[= ->]|H]; [done|]. by apply elem_of_keys in H.
    + rewrite IH by done. split; [by right|]. intros [[= -> ->]|H]; [done|done].
Qed.

Lemma files_find_None fs k : files_find fs k = None ↔ k ∉ fs.*1.
Proof.
  unfold files_find. induction fs as [|[k0 h0] fs IH]; cbn [find fmap list_fmap].
  - split; [set_solver|done].
  - cbn [fst]. case_bool_decide as E; [subst; set_solver|]. rewrite IH. set_solver.
Qed.

(** ** The order of names *)

Lemma name_lt_irrefl x : name_lt x x = false.
Proof. induction x as [|a x IH]; [done|]. cbn. by rewrite Z.ltb_irrefl. Qed.

Lemma name_lt_trans x y z : name_lt x y = true → name_lt y z = true → name_lt x z = true.
Proof.
  revert y z. induction x as [|a x IH]; intros [|b y] [|c z]; cbn; try done.
  destruct (Z.ltb_spec a b), (Z.ltb_spec b c), (Z.ltb_spec a c), (Z.ltb_spec b a),
    (Z.ltb_spec c b), (Z.ltb_spec c a); intros; try done; try lia. by eapply IH.
Qed.

Lemma name_lt_total x y : x ≠ y → name_lt x y = false → name_lt y x = true.
Proof.
  revert y. induction x as [|a x IH]; intros [|b y] Hne; cbn; try done.
  destruct (Z.ltb_spec a b), (Z.ltb_spec b a); intros; try done; try lia.
  apply IH; [|done]. intros ->. apply Hne. f_equal. lia.
Qed.

Notation below := (λ a b, name_lt a b = true).

(** A [std::map]: its keys are in order. *)
Definition ordered fs : Prop := StronglySorted below fs.*1.

Lemma ordered_NoDup fs : ordered fs → NoDup fs.*1.
Proof.
  unfold ordered. generalize (fs.*1). induction 1 as [|k ks _ IH Hk]; constructor; [|done].
  intros Hin. rewrite Forall_forall in Hk. specialize (Hk _ Hin). by rewrite name_lt_irrefl in Hk.
Qed.

Lemma files_insert_keys k h fs : ∀ x, x ∈ (files_insert k h fs).*1 → x = k ∨ x ∈ fs.*1.
Proof.
  induction fs as [|[k0 h0] fs IH]; intros x; cbn [files_insert]; [set_solver|].
  case_decide; [set_solver|]. case_match; [set_solver|]. cbn [fmap list_fmap]. rewrite !elem_of_cons.
  intros [->|H']; [set_solver|]. apply IH in H'. set_solver.
Qed.

Lemma files_insert_ordered k h fs : ordered fs → ordered (files_insert k h fs).
Proof.
  unfold ordered. induction fs as [|[k0 h0] fs IH]; cbn [files_insert fmap list_fmap fst]; intros Hs.
  - repeat constructor.
  - inversion Hs as [|? ? Hs' Hall]; subst. case_decide; [done|]. case_match eqn:E; cbn [fmap list_fmap fst].
    + constructor; [done|]. constructor; [done|]. eapply Forall_impl; [exact Hall|].
      intros y Hy. by eapply name_lt_trans.
    + constructor; [by apply IH|]. apply Forall_forall. intros y [->|Hy]%files_insert_keys.
      * by apply name_lt_total.
      * rewrite Forall_forall in Hall. by apply Hall.
Qed.

Lemma files_insert_new k h fs e : k ∉ fs.*1 → e ∈ files_insert k h fs ↔ e = (k, h) ∨ e ∈ fs.
Proof.
  induction fs as [|[k0 h0] fs IH]; cbn [files_insert fmap list_fmap fst]; [set_solver|].
  intros [Hne Hn]%not_elem_of_cons. rewrite decide_False by done. case_match; [set_solver|].
  rewrite elem_of_cons, IH by done. set_solver.
Qed.

Lemma files_insert_old k h fs : ordered fs → k ∈ fs.*1 → files_insert k h fs = fs.
Proof.
  unfold ordered. induction fs as [|[k0 h0] fs IH]; cbn [files_insert fmap list_fmap fst]; [set_solver|].
  intros Hs. inversion Hs as [|? ? Hs' Hall]; subst. case_decide; [done|].
  intros [->|Hk]%elem_of_cons; [done|]. rewrite Forall_forall in Hall. pose proof (Hall _ Hk) as Hlt.
  destruct (name_lt k k0) eqn:E; [|by rewrite IH].
  pose proof (name_lt_trans _ _ _ E Hlt) as Hbad. by rewrite name_lt_irrefl in Hbad.
Qed.

Lemma files_erase_elem k fs e : e ∈ files_erase k fs ↔ e ∈ fs ∧ e.1 ≠ k.
Proof. unfold files_erase. rewrite list_elem_of_filter. set_solver. Qed.

Lemma files_erase_ordered k fs : ordered fs → ordered (files_erase k fs).
Proof.
  unfold ordered, files_erase. induction fs as [|[k0 h0] fs IH]; intros Hs; [done|].
  cbn [fmap list_fmap fst] in Hs. inversion Hs as [|? ? Hs' Hall]; subst.
  rewrite filter_cons. case_decide; [|by apply IH]. cbn [fmap list_fmap fst]. constructor; [by apply IH|].
  apply Forall_forall. intros y [[y' h'] [-> Hy]]%list_elem_of_fmap. apply list_elem_of_filter in Hy as [_ Hy].
  rewrite Forall_forall in Hall. apply Hall. by apply elem_of_keys in Hy.
Qed.

(** Several names at once. *)
Definition files_inserts (names : list slice) (h : nat) fs : list (slice * nat) :=
  foldl (λ fs name, files_insert name h fs) fs names.
Definition files_erases (names : list slice) fs : list (slice * nat) :=
  foldl (λ fs name, files_erase name fs) fs names.

Lemma files_inserts_ordered names h fs : ordered fs → ordered (files_inserts names h fs).
Proof.
  revert fs. induction names as [|n names IH]; intros fs Hs; [done|]. by apply IH, files_insert_ordered.
Qed.

Lemma files_inserts_new names h : ∀ fs e,
  NoDup names → (∀ n, n ∈ names → n ∉ fs.*1) →
  e ∈ files_inserts names h fs ↔ (e.1 ∈ names ∧ e.2 = h) ∨ e ∈ fs.
Proof.
  induction names as [|n names IH]; intros fs [k h'] Hnd Hn; [set_solver|].
  apply NoDup_cons in Hnd as [Hni Hnd]. change (files_inserts (n :: names) h fs)
    with (files_inserts names h (files_insert n h fs)).
  rewrite IH; [|done|].
  - rewrite files_insert_new by (apply Hn; set_solver). cbn. rewrite elem_of_cons. split.
    + intros [[H1 H2]|[[= -> ->]|H3]]; [left; auto|left; auto|by right].
    + intros [[[->|H1] ->]|H3]; [right; by left|left; auto|right; by right].
  - intros m Hm [->|Hbad]%files_insert_keys; [done|]. by eapply Hn; [right|].
Qed.

Lemma files_inserts_old names h : ∀ fs,
  ordered fs → (∀ n, n ∈ names → n ∈ fs.*1) → files_inserts names h fs = fs.
Proof.
  induction names as [|n names IH]; intros fs Hs Hn; [done|].
  change (files_inserts (n :: names) h fs) with (files_inserts names h (files_insert n h fs)).
  rewrite files_insert_old by (done || apply Hn; set_solver). apply IH; [done|]. intros; apply Hn. set_solver.
Qed.

Lemma files_erases_elem names : ∀ fs e, e ∈ files_erases names fs ↔ e ∈ fs ∧ e.1 ∉ names.
Proof.
  induction names as [|n names IH]; intros fs e; [set_solver|].
  change (files_erases (n :: names) fs) with (files_erases names (files_erase n fs)).
  rewrite IH, files_erase_elem. set_solver.
Qed.

Lemma files_erases_ordered names : ∀ fs, ordered fs → ordered (files_erases names fs).
Proof. induction names as [|n names IH]; intros fs Hs; [done|]. by apply IH, files_erase_ordered. Qed.

(** ** The table *)

(** A file as recovery builds it: nothing but what its encoding carries, and at least one
    name. *)
Definition clean f : Prop := f = decoded f 0 ∧ linkfiles_ f ≠ [] ∧ NoDup (linkfiles_ f).

Record table os fs F : Prop := {
  tb_in : ∀ h f, os !! h = Some f → F !! file_id_ f = Some f;
  tb_ex : ∀ id f, F !! id = Some f → file_id_ f = id ∧ ∃ h, os !! h = Some f;
  tb_inj : ∀ h h' f f', os !! h = Some f → os !! h' = Some f' → file_id_ f = file_id_ f' → h = h';
  tb_names : ∀ n h, (n, h) ∈ fs ↔ ∃ f, os !! h = Some f ∧ n ∈ linkfiles_ f;
  tb_ordered : ordered fs;
  tb_clean : ∀ id f, F !! id = Some f → clean f
}.

Lemma table_empty : table ∅ [] ∅.
Proof.
  split; try by intros *; rewrite lookup_empty.
  - intros n h. split; [by intros ?%elem_of_nil|]. by intros (f & ? & _).
  - constructor.
Qed.

Lemma tb_clean_obj os fs F h f : table os fs F → os !! h = Some f → clean f.
Proof. intros T Hf. eapply tb_clean; [exact T|]. by eapply tb_in. Qed.

(** Names belong to one file. *)
Lemma tb_owner os fs F h h' f f' n :
  table os fs F → os !! h = Some f → os !! h' = Some f' →
  n ∈ linkfiles_ f → n ∈ linkfiles_ f' → h = h'.
Proof.
  intros T Hf Hf' Hn Hn'. eapply keys_functional; [apply ordered_NoDup, (tb_ordered _ _ _ T)|..];
    apply (tb_names _ _ _ T); eauto.
Qed.

Lemma tb_key os fs F n : table os fs F → n ∈ fs.*1 ↔ ∃ h f, os !! h = Some f ∧ n ∈ linkfiles_ f.
Proof.
  intros T. rewrite list_elem_of_fmap. split.
  - intros ([n' h] & -> & Hin). apply (tb_names _ _ _ T) in Hin as (f & ? & ?). eauto.
  - intros (h & f & Hf & Hn). exists (n, h). split; [done|]. apply (tb_names _ _ _ T). eauto.
Qed.

(** Putting the file [f] in place of the object [h], which is new or has the same id. *)
Lemma table_put os fs F h f fs' :
  table os fs F → clean f →
  (∀ g, os !! h = Some g → file_id_ g = file_id_ f) →
  (∀ h' g, h' ≠ h → os !! h' = Some g → file_id_ g ≠ file_id_ f) →
  ordered fs' →
  (∀ n h', (n, h') ∈ fs' ↔ (h' = h ∧ n ∈ linkfiles_ f) ∨ (h' ≠ h ∧ (n, h') ∈ fs)) →
  table (<[h := f]> os) fs' (<[file_id_ f := f]> F).
Proof.
  intros T Hc Hsame Hother Ho Hfs. split.
  - intros h' g. destruct (decide (h' = h)) as [->|Hne].
    + rewrite lookup_insert_eq. intros [= <-]. by rewrite lookup_insert_eq.
    + rewrite lookup_insert_ne by done. intros Hg. rewrite lookup_insert_ne by (apply not_eq_sym; eauto).
      by eapply tb_in.
  - intros id g. destruct (decide (id = file_id_ f)) as [->|Hne].
    + rewrite lookup_insert_eq. intros [= <-]. split; [done|]. exists h. by rewrite lookup_insert_eq.
    + rewrite lookup_insert_ne by done. intros Hg. destruct (tb_ex _ _ _ T _ _ Hg) as [Hid [h' Hh']].
      split; [done|]. exists h'. rewrite lookup_insert_ne; [done|]. intros <-.
      apply Hne. rewrite <-Hid. by apply Hsame.
  - intros h1 h2 f1 f2. rewrite !lookup_insert_Some.
    intros [[<- <-]|[Hn1 H1]] [[<- <-]|[Hn2 H2]] E; try done.
    + by destruct (Hother h2 f2).
    + by destruct (Hother h1 f1).
    + by eapply tb_inj.
  - intros n h'. rewrite Hfs. destruct (decide (h' = h)) as [->|Hne].
    + rewrite lookup_insert_eq. naive_solver.
    + rewrite lookup_insert_ne by done. rewrite (tb_names _ _ _ T). naive_solver.
  - done.
  - intros id g. rewrite lookup_insert_Some. intros [[_ <-]|[_ Hg]]; [done|]. by eapply tb_clean.
Qed.

Lemma table_new os fs F h f :
  table os fs F → clean f → os !! h = None → F !! file_id_ f = None →
  (∀ n, n ∈ linkfiles_ f → n ∉ fs.*1) →
  table (<[h := f]> os) (files_inserts (linkfiles_ f) h fs) (<[file_id_ f := f]> F).
Proof.
  intros T Hc Hh HF Hn. pose proof Hc as (_ & _ & Hnd). apply (table_put os fs); try done.
  - by rewrite Hh.
  - intros h' g _ Hg E. apply (tb_in _ _ _ T) in Hg. congruence.
  - by apply files_inserts_ordered, (tb_ordered _ _ _ T).
  - intros n h'. rewrite files_inserts_new by done. cbn. split; [|naive_solver].
    intros [[]|Hin]; [by left|right]. split; [|done]. intros ->.
    apply (tb_names _ _ _ T) in Hin as (g & Hg & _). congruence.
Qed.

Lemma table_update os fs F h g f :
  table os fs F → os !! h = Some g → file_id_ f = file_id_ g → clean f →
  (∀ n, n ∈ linkfiles_ f → n ∈ linkfiles_ g ∨ n ∉ fs.*1) →
  table (<[h := f]> os) (files_inserts (linkfiles_ f) h (files_erases (linkfiles_ g) fs)) (<[file_id_ f := f]> F).
Proof.
  intros T Hg Hid Hc Hn. pose proof Hc as (_ & _ & Hnd). apply (table_put os fs); try done.
  - by rewrite Hg; intros ? [= <-].
  - intros h' g' Hne Hg' E. apply Hne. eapply tb_inj; [exact T|exact Hg'|exact Hg|congruence].
  - by apply files_inserts_ordered, files_erases_ordered, (tb_ordered _ _ _ T).
  - intros n h'. rewrite files_inserts_new; [|done|].
    + cbn. rewrite files_erases_elem. cbn. split.
      * intros [[Hnf ->]|[Hin Hnl]]; [by left|right]. split; [|done]. intros ->.
        apply (tb_names _ _ _ T) in Hin as (g' & Hg' & Hng'). by rewrite Hg in Hg'; simplify_eq.
      * intros [[-> Hnf]|[Hne Hin]]; [by left|right]. split; [done|]. intros Hng. apply Hne.
        apply (tb_names _ _ _ T) in Hin as (g' & Hg' & Hng'). by eapply tb_owner.
    + intros n' Hn'. rewrite list_elem_of_fmap. intros ([k h''] & -> & Hin). cbn in Hn'.
      apply files_erases_elem in Hin as [Hin Hnl]. cbn in Hnl.
      destruct (Hn _ Hn') as [|Hk]; [done|]. by apply elem_of_keys in Hin.
Qed.

Lemma erase_first_elem x l y : NoDup l → y ∈ erase_first x l ↔ y ∈ l ∧ y ≠ x.
Proof.
  induction l as [|a l IH]; cbn [erase_first]; [set_solver|]. intros [Ha Hnd]%NoDup_cons.
  case_decide; [set_solver|]. rewrite elem_of_cons, IH by done. set_solver.
Qed.

Lemma erase_first_NoDup x l : NoDup l → NoDup (erase_first x l).
Proof.
  induction l as [|a l IH]; cbn [erase_first]; [done|]. intros [Ha Hnd]%NoDup_cons.
  case_decide; [done|]. apply NoDup_cons. rewrite erase_first_elem by done. split; [naive_solver|auto].
Qed.

Lemma table_unlink os fs F h g n :
  table os fs F → os !! h = Some g → n ∈ linkfiles_ g → erase_first n (linkfiles_ g) ≠ [] →
  let f := f_set_links (erase_first n (linkfiles_ g)) g in
  table (<[h := f]> os) (files_erase n fs) (<[file_id_ f := f]> F).
Proof.
  intros T Hg Hn Hne f. destruct (tb_clean_obj _ _ _ _ _ T Hg) as (Hd & _ & Hnd).
  apply (table_put os fs); [done|..].
  - split_and!; [|done|by apply erase_first_NoDup]. subst f. rewrite Hd. done.
  - by rewrite Hg; intros ? [= <-].
  - intros h' g' Hneh Hg' E. apply Hneh. by eapply tb_inj.
  - by apply files_erase_ordered, (tb_ordered _ _ _ T).
  - intros n' h'. rewrite files_erase_elem. cbn [fst]. subst f. cbn [linkfiles_ f_set_links].
    rewrite erase_first_elem by done. split.
    + intros [Hin Hnn]. destruct (decide (h' = h)) as [->|]; [left|by right].
      apply (tb_names _ _ _ T) in Hin as (g' & Hg' & Hng'). by rewrite Hg in Hg'; simplify_eq.
    + intros [(-> & Hn' & Hnn)|[Hneh Hin]].
      * split; [|done]. apply (tb_names _ _ _ T). eauto.
      * split; [done|]. intros ->. apply Hneh. apply (tb_names _ _ _ T) in Hin as (g' & Hg' & Hng').
        by eapply tb_owner.
Qed.

Lemma table_delete os fs F h g n :
  table os fs F → os !! h = Some g → linkfiles_ g = [n] →
  table (delete h os) (files_erase n fs) (delete (file_id_ g) F).
Proof.
  intros T Hg Hl. split.
  - intros h' f. rewrite lookup_delete_Some. intros [Hne Hf]. apply lookup_delete_Some. split.
    + intros E. apply Hne. by eapply tb_inj.
    + by eapply tb_in.
  - intros id f. rewrite lookup_delete_Some. intros [Hne Hf].
    destruct (tb_ex _ _ _ T _ _ Hf) as [Hid [h' Hh']]. split; [done|]. exists h'.
    apply lookup_delete_Some. split; [|done]. intros <-. simplify_eq.
  - intros h1 h2 f1 f2. rewrite !lookup_delete_Some. intros [_ H1] [_ H2]. by eapply tb_inj.
  - intros n' h'. rewrite files_erase_elem, (tb_names _ _ _ T). cbn [fst]. split.
    + intros [(f & Hf & Hn') Hne]. exists f. split; [|done]. apply lookup_delete_Some. split; [|done].
      intros <-. rewrite Hg in Hf. simplify_eq. rewrite Hl in Hn'. set_solver.
    + intros (f & [Hne Hf]%lookup_delete_Some & Hn'). split; [eauto|]. intros ->. apply Hne.
      eapply (tb_owner _ _ _ _ _ _ _ n); [exact T|exact Hg|exact Hf| |done]. rewrite Hl. set_solver.
  - by apply files_erase_ordered, (tb_ordered _ _ _ T).
  - intros id f. rewrite lookup_delete_Some. intros [_ Hf]. by eapply tb_clean.
Qed.

(** ** All extents *)

Definition exts os : list ZoneExtent := concat (extents_ <$> (map_to_list os).*2).

Lemma exts_insert os h f : os !! h = None → exts (<[h := f]> os) ≡ₚ extents_ f ++ exts os.
Proof.
  intros Hh. unfold exts. rewrite map_to_list_insert by done. done.
Qed.

Lemma exts_delete os h f : os !! h = Some f → exts os ≡ₚ extents_ f ++ exts (delete h os).
Proof.
  intros Hh. rewrite <-(insert_delete_id os h f) at 1 by done. apply exts_insert. apply lookup_delete_eq.
Qed.
