(* ===== verification/ZenRecover.v ===== *)
(** * ZenFS: replaying the metadata log

    The records of the log as data ([mrec]), what each does to the abstract table of files
    ([apply_rec]), and the proof that [recover_record] on the encoding of a record does just
    that to the file system. *)

From stdpp Require Import base numbers option list gmap.
From S2P Require Import Prelude ZenCoding ZenTypes ZenZbd ZenFile ZenLog ZenFs ZenMeta ZenFileCodec ZenSpace.

(** Projections of updated states. *)
Ltac fs_simpl :=
  cbn [zbd_ files_ objs next_obj next_file_id_ meta_log_ superblock_ handles set_zbd set_files set_objs
       set_next_obj set_next_file_id set_handles io_zones set_io_zones zone_sz_ extents_ linkfiles_ file_id_ open_for_wr_ decoded].

(** ** Records *)

Inductive mrec :=
| RSnapshot (fl : list ZoneFile) (* one per name *)
| RUpdate (replace : bool) (f : ZoneFile) (k : nat) (* extents from [k] on *)
| RDelete (id : Z) (n : slice).

Definition enc_files (fl : list ZoneFile) : slice :=
  foldl (λ out f, PutLengthPrefixedSlice out (File_EncodeSnapshotTo f [])) [] fl.

Definition enc_rec (r : mrec) : slice :=
  match r with
  | RSnapshot fl => PutLengthPrefixedSlice (PutFixed32 [] kCompleteFilesSnapshot) (enc_files fl)
  | RUpdate replace f k =>
      PutLengthPrefixedSlice (PutFixed32 [] (if replace then kFileReplace else kFileUpdate))
        (ZoneFile_EncodeTo f [] (Z.of_nat k))
  | RDelete id n =>
      PutLengthPrefixedSlice (PutFixed32 [] kFileDeletion) (PutLengthPrefixedSlice (PutFixed64 [] id) n)
  end.

(** [f] with its extents from [k] on after those of [g]. *)
Definition merged (replace : bool) (g f : ZoneFile) (k : nat) : ZoneFile :=
  decoded (f_set_extents ((if replace then [] else extents_ g) ++ drop k (extents_ f)) f) 0.

Implicit Types F : gmap Z ZoneFile.

Definition apply_rec (r : mrec) F : gmap Z ZoneFile :=
  match r with
  | RSnapshot fl => foldl (λ F f, <[file_id_ f := decoded f 0]> F) ∅ fl
  | RUpdate replace f k =>
      <[file_id_ f := match F !! file_id_ f with Some g => merged replace g f k | None => decoded f k end]> F
  | RDelete id n =>
      match F !! id with
      | Some g =>
          let links := erase_first n (linkfiles_ g) in
          if bool_decide (links = []) then delete id F else <[id := f_set_links links g]> F
      | None => F
      end
  end.

(** ** Valid records *)

Definition name_free F (n : slice) : Prop := ∀ id g, F !! id = Some g → n ∉ linkfiles_ g.

Definition exts_of F : list ZoneExtent := concat (extents_ <$> (map_to_list F).*2).

Section recover.
Context {D : ZbdDev} {K : Crc32c}.
Implicit Types (b : ZonedBlockDevice) (s : ZenFS).

(** A file that can be encoded and recovered. *)
Definition storable b (f : ZoneFile) : Prop :=
  file_ok b f ∧ linkfiles_ f ≠ [] ∧ NoDup (linkfiles_ f) ∧ file_id_ f + 1 < 2 ^ 64 ∧
  size (ZoneFile_EncodeTo f [] 0) < 2 ^ 32.

Definition valid_rec b F (r : mrec) : Prop :=
  match r with
  | RSnapshot fl =>
      Forall (storable b) fl ∧ size (enc_files fl) < 2 ^ 32 ∧
      (∀ f f', f ∈ fl → f' ∈ fl → file_id_ f = file_id_ f' → f = f') ∧
      (∀ f f' n, f ∈ fl → f' ∈ fl → n ∈ linkfiles_ f → n ∈ linkfiles_ f' → file_id_ f = file_id_ f') ∧
      room (io_zones b) (concat (extents_ <$> fl))
  | RUpdate replace f k =>
      storable b f ∧ size (ZoneFile_EncodeTo f [] (Z.of_nat k)) < 2 ^ 32 ∧
      room (io_zones b) (drop k (extents_ f) ++ drop k (extents_ f) ++ exts_of F) ∧
      match F !! file_id_ f with
      | Some g => ∀ n, n ∈ linkfiles_ f → n ∈ linkfiles_ g ∨ name_free F n
      | None => ∃ n, linkfiles_ f = [n] ∧ name_free F n ∧ FormatPathLexically n = n
      end
  | RDelete id n =>
      0 ≤ id < 2 ^ 64 ∧ size (PutLengthPrefixedSlice (PutFixed64 [] id) n) < 2 ^ 32 ∧ size n < 2 ^ 32 ∧
      ∃ g, F !! id = Some g ∧ n ∈ linkfiles_ g
  end.

(** ** The state represents a table *)

Record rep b s F : Prop := {
  rp_table : table (objs s) (files_ s) F;
  rp_handles : handles s = [];
  rp_fresh : ∀ h, (next_obj s ≤ h)%nat → objs s !! h = None;
  rp_zones : io_zones (zbd_ s) = account (exts (objs s)) (io_zones b);
  rp_room : room (io_zones b) (exts (objs s));
  rp_size : zone_sz_ (zbd_ s) = zone_sz_ b;
  rp_ids : ∀ id f, F !! id = Some f → id < next_file_id_ s
}.

(** Recovery changes only the table and the space accounting. *)
Definition kept_rest s s' : Prop :=
  meta_log_ s' = meta_log_ s ∧ superblock_ s' = superblock_ s ∧
  ∃ zs, zbd_ s' = set_io_zones zs (zbd_ s).

Lemma kept_rest_refl s : kept_rest s s.
Proof. split_and!; [done..|]. exists (io_zones (zbd_ s)). by destruct (zbd_ s). Qed.

Lemma kept_rest_trans s1 s2 s3 : kept_rest s1 s2 → kept_rest s2 s3 → kept_rest s1 s3.
Proof.
  intros (E1 & E2 & zs & E3) (E4 & E5 & zs' & E6). split_and!; [congruence..|]. exists zs'. by rewrite E6, E3.
Qed.

Lemma exts_table os fs F : table os fs F → exts os ≡ₚ exts_of F.
Proof.
  intros T. unfold exts, exts_of.
  assert ((map_to_list os).*2 ≡ₚ (map_to_list F).*2) as Hp; [|by rewrite Hp].
  apply NoDup_Permutation.
  - apply NoDup_fmap_2_strong; [|apply NoDup_map_to_list].
    intros [h f] [h' f'] Hx%elem_of_map_to_list Hy%elem_of_map_to_list. cbn. intros ->.
    f_equal. by eapply tb_inj.
  - apply NoDup_fmap_2_strong; [|apply NoDup_map_to_list].
    intros [i f] [i' f'] Hx%elem_of_map_to_list Hy%elem_of_map_to_list. cbn. intros ->.
    f_equal. apply (tb_ex _ _ _ T) in Hx as [<- _]. by apply (tb_ex _ _ _ T) in Hy as [<- _].
  - intros f. rewrite !list_elem_of_fmap. split.
    + intros ([h f'] & -> & Hx%elem_of_map_to_list). exists (file_id_ f', f'). split; [done|].
      apply elem_of_map_to_list. by eapply tb_in.
    + intros ([i f'] & -> & Hx%elem_of_map_to_list). destruct (tb_ex _ _ _ T _ _ Hx) as [_ [h Hh]].
      exists (h, f'). split; [done|]. by apply elem_of_map_to_list.
Qed.

Lemma file_ok_rep b b' f es :
  zone_sz_ b' = zone_sz_ b → io_zones b' = account es (io_zones b) → file_ok b f → file_ok b' f.
Proof.
  intros Hs Hz [H1 H2 H3 H4 H5 H6 H7]. split; try done. eapply Forall_impl; [exact H6|].
  intros e (He1 & He2 & He3). split_and!; [lia..|]. unfold GetIOZone in *. by rewrite Hs, Hz, find_zone_account.
Qed.

(** ** Objects that come and go *)

Lemma wp_in_zbd {A} (c : ST ZonedBlockDevice A) (Q : A → ZenFS → Prop) s :
  wp c (λ a b, Q a (set_zbd b s)) (zbd_ s) → wp (in_zbd c) Q s.
Proof. unfold wp, in_zbd. by destruct (c (zbd_ s)). Qed.

Lemma referenced_iff s h : referenced s h = true ↔ (∃ n, (n, h) ∈ files_ s) ∨ h ∈ handles s.
Proof.
  unfold referenced. rewrite orb_true_iff, !existsb_exists. split.
  - intros [([n h'] & Hin%list_elem_of_In & E%Nat.eqb_eq)|(h' & Hin%list_elem_of_In & E%Nat.eqb_eq)];
      cbn in E; subst; [left; eauto|by right].
  - intros [[n Hin]|Hin]; [left|right].
    + exists (n, h). split; [by apply list_elem_of_In|apply Nat.eqb_refl].
    + exists h. split; [by apply list_elem_of_In|apply Nat.eqb_refl].
Qed.

Lemma wp_drop_kept now h s (Q : unit → ZenFS → Prop) :
  (∃ n, (n, h) ∈ files_ s) → Q tt s → wp (drop_file now h) Q s.
Proof.
  intros Hn HQ. unfold drop_file. repeat wp_step; [|done].
  rewrite (proj2 (referenced_iff s h)) in H by (by left). done.
Qed.

Lemma wp_drop_last now h f rest zs s (Q : unit → ZenFS → Prop) :
  objs s !! h = Some f → (∀ n, (n, h) ∉ files_ s) → handles s = [] → open_for_wr_ f = false →
  io_zones (zbd_ s) = account (extents_ f ++ rest) zs → room zs (extents_ f ++ rest) →
  Q tt (set_objs (delete h (objs s)) (set_zbd (set_io_zones (account rest zs) (zbd_ s)) s)) →
  wp (drop_file now h) Q s.
Proof.
  intros Hf Hn Hh Hop Hz Hr HQ. unfold drop_file.
  assert (referenced s h = false) as Href.
  { apply not_true_is_false. rewrite referenced_iff, Hh. intros [[n Hbad]|Hbad]; [by eapply Hn|set_solver]. }
  repeat wp_step; [|by rewrite Href in *]. unfold delete_ZoneFile, file_at. repeat wp_step.
  apply wp_in_zbd. eapply wp_mono; [by eapply wp_ClearExtents|]. intros f' b' [-> ->]. repeat wp_step.
  unfold file_put. repeat wp_step. unfold CloseWR, file_at. repeat wp_step.
  eapply wp_load; [cbn; apply lookup_insert_eq|]. cbn [open_for_wr_ f_set_extents]. rewrite Hop.
  repeat wp_step; [done|]. unfold set_objs, set_zbd in *. cbn in *. by rewrite delete_insert_eq.
Qed.

(** The state with a new object for [f], whose extents are counted. *)
Definition with_new (f : ZoneFile) s : ZenFS :=
  set_next_obj (S (next_obj s)) (set_objs (<[next_obj s := f]> (objs s))
    (set_zbd (set_io_zones (account (extents_ f) (io_zones (zbd_ s))) (zbd_ s)) s)).

Lemma wp_decode_new b s F f k (Q : IOStatus * nat * ZoneFile → ZenFS → Prop) :
  rep b s F → file_ok b f →
  Q (OK, next_obj s, decoded f k) (with_new (decoded f k) s) →
  wp (decode_new (ZoneFile_EncodeTo f [] (Z.of_nat k))) Q s.
Proof.
  intros R Hok HQ. unfold decode_new, new_file, file_at. repeat wp_step.
  eapply wp_load; [cbn; apply lookup_insert_eq|]. wp_step. apply wp_in_zbd. unfold wp. cbn [zbd_ set_next_obj set_objs].
  rewrite decode_encoded by (eapply file_ok_rep; [apply (rp_size _ _ _ R)|apply (rp_zones _ _ _ R)|done]).
  unfold file_put, modify, bind, ret. unfold with_new in HQ. unfold set_next_obj, set_objs, set_zbd in *.
  cbn in *. by rewrite insert_insert_eq.
Qed.

Lemma wp_see_id id s (Q : unit → ZenFS → Prop) :
  0 ≤ id → id + 1 < 2 ^ 64 →
  (∀ n, n = Z.max (next_file_id_ s) (id + 1) → Q tt (set_next_file_id n s)) → wp (see_id id) Q s.
Proof.
  intros H0 H1 HQ. unfold see_id. repeat wp_step.
  - rewrite u64_small by lia. apply HQ. apply Z.leb_le in H. lia.
  - apply Z.leb_gt in H. replace s with (set_next_file_id (next_file_id_ s) s) by (by destruct s).
    apply HQ. lia.
Qed.

Lemma wp_erase_names names : ∀ s (Q : bool → ZenFS → Prop),
  ordered (files_ s) → NoDup names → (∀ n, n ∈ names → n ∈ (files_ s).*1) →
  Q true (set_files (files_erases names (files_ s)) s) → wp (erase_names names) Q s.
Proof.
  induction names as [|n names IH]; intros s Q Ho Hnd Hn HQ; cbn [erase_names].
  - wp_step. by destruct s.
  - apply NoDup_cons in Hnd as [Hni Hnd]. repeat wp_step.
    destruct (files_find (files_ s) n) as [h|] eqn:E.
    + repeat wp_step. apply IH; cbn [files_ set_files]; [by apply files_erase_ordered|done| |done].
      intros m Hm. specialize (Hn m ltac:(by right)). apply list_elem_of_fmap in Hn as ([m' h'] & -> & Hin).
      apply (elem_of_keys _ _ h'), files_erase_elem. split; [done|]. cbn. by intros ->.
    + apply files_find_None in E. destruct E. apply Hn. by left.
Qed.

Lemma run_insert_names names h s : insert_names names h s = Done tt (set_files (files_inserts names h (files_ s)) s).
Proof. done. Qed.

Lemma wp_MergeUpdate replace g f k rest zs b (Q : IOStatus * ZoneFile → ZonedBlockDevice → Prop) :
  clean g → file_id_ g = file_id_ f →
  io_zones b = account (extents_ g ++ rest) zs → room zs (extents_ g ++ rest) →
  Forall (λ e, (e_zone e < length zs)%nat) (drop k (extents_ f)) →
  Q (OK, merged replace g f k)
    (set_io_zones (account (extents_ (merged replace g f k) ++ rest) zs) b) →
  wp (MergeUpdate g (decoded f k) replace) Q b.
Proof.
  intros Hc Hid Hz Hr Hlt HQ. unfold MergeUpdate. cbn [file_id_ decoded]. rewrite Hid, Z.eqb_refl. cbn [negb].
  wp_step. destruct Hc as [Hg _]. set (es := drop k (extents_ f)) in *.
  destruct g as [ge gl ga gs gp glt git gsz gid gsy go gm gsp gd]. unfold decoded in Hg. cbn in Hg.
  injection Hg as -> -> -> _ -> ->. cbn [extents_ file_id_] in *. subst gid.
  unfold merged, decoded in HQ. cbn -[account app drop] in HQ. rewrite Nat.sub_0_r in HQ. fold es in HQ.
  rewrite drop_0 in HQ. destruct replace.
  - eapply wp_mono; [eapply wp_ClearExtents; [exact Hz|exact Hr]|]. intros g' b' [-> ->]. wp_step.
    eapply wp_mono; [apply wp_each_used_add|].
    + eapply Forall_impl; [exact Hlt|]. intros e He. cbn [io_zones set_io_zones]. by rewrite length_account.
    + intros [] b' ->. wp_step. cbn [io_zones set_io_zones extents_ decoded].
      rewrite set_io_zones_twice, <-account_app.
      by rewrite (account_perm (rest ++ es) (es ++ rest)) by apply Permutation_app_comm.
  - repeat wp_step. eapply wp_mono; [apply wp_each_used_add|].
    + eapply Forall_impl; [exact Hlt|]. intros e He. cbn in *. by rewrite Hz, length_account.
    + intros [] b' ->. wp_step. cbn [io_zones set_io_zones extents_ decoded]. rewrite Hz, <-account_app.
      rewrite <-app_assoc in HQ |- *.
      by rewrite (account_perm (ge ++ rest ++ es) (ge ++ es ++ rest))
        by (apply Permutation_app_head, Permutation_app_comm).
Qed.

(** ** Updates *)

Lemma find_id_Some s n h f :
  (n, h) ∈ files_ s → objs s !! h = Some f →
  (∀ n' h' f', (n', h') ∈ files_ s → objs s !! h' = Some f' → file_id_ f' = file_id_ f → h' = h) →
  find_id s (file_id_ f) = Some h.
Proof.
  intros Hin Hf Huniq. unfold find_id. destruct (find _ (files_ s)) as [[n' h']|] eqn:E.
  - apply find_some in E as [Hin' E]. apply list_elem_of_In in Hin'. cbn in E |- *.
    destruct (objs s !! h') as [f'|] eqn:Ef; [|done]. apply Z.eqb_eq in E. f_equal. by eapply Huniq.
  - pose proof (find_none _ _ E (n, h) ltac:(by apply list_elem_of_In)) as Hbad. cbn in Hbad.
    by rewrite Hf, Z.eqb_refl in Hbad.
Qed.

Lemma find_id_None s id :
  (∀ n h f, (n, h) ∈ files_ s → objs s !! h = Some f → file_id_ f ≠ id) → find_id s id = None.
Proof.
  intros Hno. unfold find_id. destruct (find _ (files_ s)) as [[n h]|] eqn:E; [|done].
  apply find_some in E as [Hin E]. apply list_elem_of_In in Hin. cbn in E.
  destruct (objs s !! h) as [f|] eqn:Ef; [|done]. apply Z.eqb_eq in E. by destruct (Hno n h f).
Qed.

(** Objects of the table are older than a new one. *)
Lemma rep_old b s F h f : rep b s F → objs s !! h = Some f → h ≠ next_obj s.
Proof. intros R Hf ->. by rewrite (rp_fresh _ _ _ R) in Hf. Qed.

Lemma rep_not_named b s F n : rep b s F → (n, next_obj s) ∉ files_ s.
Proof.
  intros R Hin. apply (tb_names _ _ _ (rp_table _ _ _ R)) in Hin as (f & Hf & _). by apply (rep_old _ _ _ _ _ R) in Hf.
Qed.

Lemma with_new_zones b s F f :
  rep b s F → io_zones (zbd_ (with_new f s)) = account (extents_ f ++ exts (objs s)) (io_zones b).
Proof.
  intros R. cbn [with_new zbd_ set_next_obj set_objs set_zbd io_zones set_io_zones].
  rewrite (rp_zones _ _ _ R), <-account_app. apply account_perm, Permutation_app_comm.
Qed.

Lemma name_free_key b s F n : rep b s F → name_free F n → n ∉ (files_ s).*1.
Proof.
  intros R Hn Hk. apply (tb_key _ _ _ _ (rp_table _ _ _ R)) in Hk as (h & f & Hf & Hin).
  apply (tb_in _ _ _ (rp_table _ _ _ R)) in Hf. by eapply Hn.
Qed.

Lemma storable_clean b f k : storable b f → clean (decoded f k).
Proof. intros (_ & Hl & Hnd & _). split_and!; [|done|done]. unfold decoded. cbn. by rewrite Nat.sub_0_r, length_drop. Qed.

Lemma storable_merged b replace g f k : storable b f → clean (merged replace g f k).
Proof. intros (_ & Hl & Hnd & _). split_and!; [|done|done]. unfold merged, decoded. cbn. by rewrite !Nat.sub_0_r. Qed.

(** The last steps of an update of object [h]: state [s] with its old names erased. *)
Lemma rep_updated b s F h g m fs' nid s' :
  rep b s F → objs s !! h = Some g → file_id_ m = file_id_ g → clean m →
  (∀ n, n ∈ linkfiles_ m → n ∈ linkfiles_ g ∨ n ∉ (files_ s).*1) →
  fs' = files_inserts (linkfiles_ m) h (files_erases (linkfiles_ g) (files_ s)) →
  room (io_zones b) (extents_ m ++ exts (delete h (objs s))) →
  next_file_id_ s ≤ nid → file_id_ m < nid → (next_obj s ≤ next_obj s')%nat →
  objs s' = <[h := m]> (objs s) → files_ s' = fs' → handles s' = [] → next_file_id_ s' = nid →
  io_zones (zbd_ s') = account (extents_ m ++ exts (delete h (objs s))) (io_zones b) →
  zone_sz_ (zbd_ s') = zone_sz_ b →
  rep b s' (<[file_id_ m := m]> F).
Proof.
  intros R Hg Hid Hc Hn -> Hr Hn1 Hn2 Hno Ho Hf Hh Hi Hz Hs.
  assert (exts (<[h := m]> (objs s)) ≡ₚ extents_ m ++ exts (delete h (objs s))) as Hp.
  { rewrite <-insert_delete_eq. apply exts_insert, lookup_delete_eq. }
  split; rewrite ?Ho, ?Hf; try done.
  - by apply table_update; [apply (rp_table _ _ _ R)|..].
  - intros h' Hh'. rewrite lookup_insert_ne; [apply (rp_fresh _ _ _ R); lia|].
    intros <-. rewrite (rp_fresh _ _ _ R) in Hg by lia. done.
  - rewrite Hz. apply account_perm. by symmetry.
  - eapply room_perm; [symmetry; exact Hp|exact Hr].
  - intros id f. rewrite lookup_insert_Some. intros [[<- <-]|[_ Hf']]; [lia|].
    apply (rp_ids _ _ _ R) in Hf'. lia.
Qed.

Lemma wp_drop_named now b s F h f (Q : unit → ZenFS → Prop) :
  rep b s F → objs s !! h = Some f → (rep b s F → Q tt s) → wp (drop_file now h) Q s.
Proof.
  intros R Hf HQ. apply wp_drop_kept; [|by apply HQ]. pose proof (rp_table _ _ _ R) as T.
  destruct (tb_clean_obj _ _ _ _ _ T Hf) as (_ & Hl & _). destruct (linkfiles_ f) as [|n l] eqn:E; [done|].
  exists n. apply (tb_names _ _ _ T). exists f. split; [done|]. rewrite E. by left.
Qed.

(** The object with the id of [g] is found, whatever the new object holds. *)
Lemma find_id_known b s F h g s' u :
  rep b s F → objs s !! h = Some g → files_ s' = files_ s → objs s' = <[next_obj s := u]> (objs s) →
  find_id s' (file_id_ g) = Some h.
Proof.
  intros R Hg Ef Eo. pose proof (rp_table _ _ _ R) as T.
  assert (∀ h' f', objs s !! h' = Some f' → objs s' !! h' = Some f') as Hlk.
  { intros h' f' Hf'. rewrite Eo, lookup_insert_ne; [done|]. apply not_eq_sym. by eapply rep_old. }
  destruct (tb_clean_obj _ _ _ _ _ T Hg) as (_ & Hl & _). destruct (linkfiles_ g) as [|n0 l] eqn:E; [done|].
  eapply (find_id_Some _ n0); [|by apply Hlk|]; rewrite Ef.
  - apply (tb_names _ _ _ T). exists g. split; [done|]. rewrite E. by left.
  - intros n' h' f' Hin. apply (tb_names _ _ _ T) in Hin as (f0 & Hf0 & _). rewrite (Hlk _ _ Hf0).
    intros [= <-] E'. by eapply tb_inj.
Qed.

Lemma storable_zones b f k :
  storable b f → Forall (λ e, (e_zone e < length (io_zones b))%nat) (drop k (extents_ f)).
Proof.
  intros (Hok & _). apply Forall_drop. eapply Forall_impl; [apply (fo_extents _ _ Hok)|].
  intros e (_ & _ & Hz). by eapply GetIOZone_lt.
Qed.

Lemma wp_update_known now b s F replace f k g :
  rep b s F → F !! file_id_ f = Some g → storable b f →
  (∀ n, n ∈ linkfiles_ f → n ∈ linkfiles_ g ∨ name_free F n) →
  room (io_zones b) (drop k (extents_ f) ++ drop k (extents_ f) ++ exts_of F) →
  wp (DecodeFileUpdateFrom now (ZoneFile_EncodeTo f [] (Z.of_nat k)) replace)
    (λ st s', st = OK ∧ rep b s' (<[file_id_ f := merged replace g f k]> F) ∧ kept_rest s s') s.
Proof.
  intros R HF Hst Hn Hroom. pose proof Hst as (Hok & Hl & Hnd & Hid & _). pose proof (fo_id _ _ Hok).
  pose proof (rp_table _ _ _ R) as T. destruct (tb_ex _ _ _ T _ _ HF) as [Hgid [h Hg]].
  pose proof (tb_clean _ _ _ T _ _ HF) as Hgc. pose proof Hgc as (_ & Hgl & Hgnd).
  assert (h ≠ next_obj s) as Hne by (by eapply rep_old).
  set (es := drop k (extents_ f)) in *. set (m := merged replace g f k).
  assert (exts_of F ≡ₚ extents_ g ++ exts (delete h (objs s))) as Hp.
  { rewrite <-(exts_table _ _ _ T). by apply exts_delete. }
  assert (extents_ m = (if replace then [] else extents_ g) ++ es) as Hm by done.
  rewrite Hp in Hroom. unfold DecodeFileUpdateFrom. wp_step. eapply wp_decode_new; [done|done|]. cbv iota.
  change (ok OK) with true. cbn [negb]. wp_step. cbn [file_id_ decoded].
  apply wp_see_id; [lia..|]. intros nid Hnid. unfold with_new in Hnid. cbn [next_file_id_ set_next_obj set_objs set_zbd] in Hnid. do 2 wp_step.
  rewrite <-Hgid, (find_id_known b s F h g _ (decoded f k) R Hg) by done.
  unfold file_at. repeat wp_step. eapply wp_load; [cbn; by rewrite lookup_insert_ne|]. wp_step.
  apply wp_erase_names; [apply (tb_ordered _ _ _ T)|done| |].
  { intros n' Hn'. apply (tb_key _ _ _ _ T). eauto. }
  cbv iota. cbn [negb]. wp_step. apply wp_in_zbd.
  eapply (wp_MergeUpdate replace g f k (exts (delete h (objs s)) ++ es) (io_zones b)); [done|congruence|..].
  { etransitivity; [exact (with_new_zones b s F (decoded f k) R)|]. apply account_perm.
    cbn [extents_ decoded]. fold es. rewrite (exts_delete _ _ _ Hg). solve_Permutation. }
  { eapply room_sub; [|exact Hroom]. solve_submseteq. }
  { by apply storable_zones. }
  fold m. cbv iota. unfold file_put. repeat wp_step.
  eapply (wp_drop_last _ _ (decoded f k) (extents_ m ++ exts (delete h (objs s))) (io_zones b));
    unfold with_new; fs_simpl; fold es.
  { rewrite lookup_insert_ne by done. apply lookup_insert_eq. }
  { intros n' [Hbad _]%files_erases_elem. by eapply rep_not_named. }
  { apply (rp_handles _ _ _ R). }
  { done. }
  { apply account_perm. solve_Permutation. }
  { eapply room_sub; [|exact Hroom]. rewrite Hm. destruct replace; solve_submseteq. }
  change (ok OK) with true. cbn [negb]. repeat wp_step. unfold wp at 1. rewrite run_insert_names.
  wp_step. eapply (wp_drop_named _ b _ (<[file_id_ f := m]> F) h m).
  { rewrite <-(eq_refl : file_id_ m = file_id_ f). eapply (rep_updated b s F h g m _ nid); fs_simpl; try done.
    - intros n [Hin|Hin]%Hn; [by left|right]. by eapply name_free_key.
    - eapply room_sub; [|exact Hroom]. rewrite Hm. destruct replace; solve_submseteq.
    - lia.
    - change (file_id_ m) with (file_id_ f). lia.
    - lia.
    - rewrite insert_insert_ne, delete_insert_eq, delete_id; [done| |done].
      rewrite lookup_insert_ne by done. by eapply rp_fresh.
    - apply (rp_handles _ _ _ R).
    - apply (rp_size _ _ _ R). }
  { fs_simpl. rewrite lookup_delete_ne by done. apply lookup_insert_eq. }
  intros R'. wp_step. rewrite Hgid. split_and!; [done|exact R'|]. split_and!; [done..|]. eexists. reflexivity.
Qed.

(** ** New files *)

Lemma exts_of_insert F id f : F !! id = None → exts_of (<[id := f]> F) ≡ₚ extents_ f ++ exts_of F.
Proof. intros Hid. unfold exts_of. by rewrite (map_to_list_insert _ _ _ Hid). Qed.

Lemma rep_new b s F m s' :
  rep b s F → F !! file_id_ m = None → clean m → (∀ n, n ∈ linkfiles_ m → name_free F n) →
  room (io_zones b) (extents_ m ++ exts_of F) → file_id_ m < next_file_id_ s' →
  next_file_id_ s ≤ next_file_id_ s' → next_obj s' = S (next_obj s) →
  objs s' = <[next_obj s := m]> (objs s) → files_ s' = files_inserts (linkfiles_ m) (next_obj s) (files_ s) →
  handles s' = [] → zbd_ s' = zbd_ (with_new m s) → rep b s' (<[file_id_ m := m]> F).
Proof.
  intros R HF Hc Hn Hr Hi1 Hi2 Hno Ho Hf Hh Hz. pose proof (rp_table _ _ _ R) as T.
  assert (objs s !! next_obj s = None) as Hfr by (by apply (rp_fresh _ _ _ R)).
  split; rewrite ?Ho, ?Hf; try done.
  - apply table_new; try done. intros n Hin. by eapply name_free_key, Hn.
  - intros h' Hh'. rewrite lookup_insert_ne by lia. apply (rp_fresh _ _ _ R). lia.
  - rewrite Hz, (with_new_zones b s F m R). apply account_perm. symmetry. by apply exts_insert.
  - rewrite (exts_insert _ _ _ Hfr), (exts_table _ _ _ T). exact Hr.
  - rewrite Hz. apply (rp_size _ _ _ R).
  - intros id f. rewrite lookup_insert_Some. intros [[<- <-]|[_ Hf']]; [lia|].
    apply (rp_ids _ _ _ R) in Hf'. lia.
Qed.

Lemma wp_update_new now b s F replace f k n :
  rep b s F → F !! file_id_ f = None → storable b f →
  linkfiles_ f = [n] → name_free F n → FormatPathLexically n = n →
  room (io_zones b) (drop k (extents_ f) ++ exts_of F) →
  wp (DecodeFileUpdateFrom now (ZoneFile_EncodeTo f [] (Z.of_nat k)) replace)
    (λ st s', st = OK ∧ rep b s' (<[file_id_ f := decoded f k]> F) ∧ kept_rest s s') s.
Proof.
  intros R HF Hst El Hn Hfmt Hroom. pose proof Hst as (Hok & Hl & Hnd & Hid & _). pose proof (fo_id _ _ Hok).
  pose proof (rp_table _ _ _ R) as T.
  unfold DecodeFileUpdateFrom. wp_step. eapply wp_decode_new; [done|done|]. cbv iota.
  change (ok OK) with true. cbn [negb]. wp_step. cbn [file_id_ decoded].
  apply wp_see_id; [lia..|]. intros nid Hnid. unfold with_new in Hnid.
  cbn [next_file_id_ set_next_obj set_objs set_zbd] in Hnid. do 2 wp_step.
  rewrite find_id_None.
  2: { intros n' h' f' Hin. unfold with_new in *. revert Hin. fs_simpl. intros Hin.
       apply (tb_names _ _ _ T) in Hin as (f0 & Hf0 & _).
       rewrite lookup_insert_ne by (apply not_eq_sym; by eapply rep_old). rewrite Hf0. intros [= <-] E.
       apply (tb_in _ _ _ T) in Hf0. by rewrite E, HF in Hf0. }
  cbn [linkfiles_ decoded]. rewrite El. cbn [head]. wp_step. eapply wp_load; [done|]. repeat wp_step.
  { apply bool_decide_eq_true. rewrite Hfmt. apply files_find_None. exact (name_free_key _ _ _ _ R Hn). }
  unfold wp at 1. rewrite run_insert_names. wp_step.
  eapply (wp_drop_named _ b _ (<[file_id_ f := decoded f k]> F) (next_obj s) (decoded f k)).
  - eapply (rep_new b s F (decoded f k)); unfold with_new; fs_simpl; try done.
    + by eapply storable_clean.
    + rewrite El. intros n' ->%list_elem_of_singleton. done.
    + lia.
    + lia.
    + by rewrite El.
    + apply (rp_handles _ _ _ R).
  - unfold with_new. fs_simpl. apply lookup_insert_eq.
  - intros R'. wp_step. split_and!; [done|exact R'|]. split_and!; [done..|]. eexists. reflexivity.
Qed.

(** ** Deletions *)

Lemma RemoveLinkName_in n g : n ∈ linkfiles_ g →
  RemoveLinkName n g = (OK, f_set_links (erase_first n (linkfiles_ g)) g).
Proof. intros Hn. unfold RemoveLinkName. by rewrite decide_True. Qed.

Lemma erase_first_nil n l : NoDup l → n ∈ l → erase_first n l = [] → l = [n].
Proof.
  intros Hnd Hn E. destruct l as [|x l]; [by apply not_elem_of_nil in Hn|].
  cbn in E. destruct (decide _) as [->|]; [by subst|done].
Qed.

Lemma erase_first_only n : erase_first n [n] = [].
Proof. cbn. by rewrite decide_True. Qed.

(** The state after a name of object [h] is erased. *)
Definition unlinked (h : nat) (g : ZoneFile) (n : slice) s : ZenFS :=
  set_objs (<[h := f_set_links (erase_first n (linkfiles_ g)) g]> (objs s)) (set_files (files_erase n (files_ s)) s).

Lemma rep_unlink b s F h g n :
  rep b s F → objs s !! h = Some g → n ∈ linkfiles_ g → erase_first n (linkfiles_ g) ≠ [] →
  rep b (unlinked h g n s) (<[file_id_ g := f_set_links (erase_first n (linkfiles_ g)) g]> F).
Proof.
  intros R Hg Hn He. pose proof (rp_table _ _ _ R) as T. set (f := f_set_links _ _).
  assert (exts (<[h := f]> (objs s)) ≡ₚ exts (objs s)) as Hp.
  { rewrite <-insert_delete_eq, exts_insert by apply lookup_delete_eq. symmetry. exact (exts_delete _ _ _ Hg). }
  split; unfold unlinked; fs_simpl; fold f.
  - by apply (table_unlink _ _ _ h g).
  - apply (rp_handles _ _ _ R).
  - intros h' Hh'. rewrite lookup_insert_ne; [by apply (rp_fresh _ _ _ R)|].
    intros <-. by rewrite (rp_fresh _ _ _ R) in Hg.
  - rewrite Hp. apply (rp_zones _ _ _ R).
  - rewrite Hp. apply (rp_room _ _ _ R).
  - apply (rp_size _ _ _ R).
  - intros id f'. rewrite lookup_insert_Some. intros [[<- _]|[_ Hf']]; [|by eapply rp_ids].
    eapply rp_ids; [exact R|]. by eapply tb_in.
Qed.

Lemma rep_remove b s F h g n s' :
  rep b s F → objs s !! h = Some g → linkfiles_ g = [n] →
  s' = set_objs (delete h (objs s)) (set_zbd (set_io_zones (account (exts (delete h (objs s))) (io_zones b)) (zbd_ s))
         (set_files (files_erase n (files_ s)) s)) →
  rep b s' (delete (file_id_ g) F).
Proof.
  intros R Hg El ->. pose proof (rp_table _ _ _ R) as T. split; fs_simpl.
  - by eapply table_delete.
  - apply (rp_handles _ _ _ R).
  - intros h' Hh'. rewrite lookup_delete_None. right. by apply (rp_fresh _ _ _ R).
  - done.
  - pose proof (rp_room _ _ _ R) as Hr. rewrite (exts_delete _ _ _ Hg) in Hr.
    eapply room_sub; [|exact Hr]. solve_submseteq.
  - apply (rp_size _ _ _ R).
  - intros id f [_ Hf]%lookup_delete_Some. by eapply rp_ids.
Qed.

Lemma wp_deletion now b s F id n g :
  rep b s F → F !! id = Some g → n ∈ linkfiles_ g → 0 ≤ id < 2 ^ 64 → size n < 2 ^ 32 →
  wp (DecodeFileDeletionFrom now (PutLengthPrefixedSlice (PutFixed64 [] id) n))
    (λ st s', st = OK ∧ rep b s' (apply_rec (RDelete id n) F) ∧ kept_rest s s') s.
Proof.
  intros R HF Hn Hid Hsz. pose proof (rp_table _ _ _ R) as T.
  destruct (tb_ex _ _ _ T _ _ HF) as [Hgid [h Hg]]. pose proof (tb_clean _ _ _ T _ _ HF) as (Hc & Hl & Hnd).
  unfold DecodeFileDeletionFrom. rewrite Put_appL. unfold PutFixed64 at 1. rewrite app_nil_l, GetFixed64_Put by done.
  rewrite <-(app_nil_r (PutLengthPrefixedSlice [] n)), GetLengthPrefixedSlice_Put by done.
  do 2 wp_step. rewrite (proj2 (files_find_Some (files_ s) n h (ordered_NoDup _ (tb_ordered _ _ _ T)))).
  2: { apply (tb_names _ _ _ T). eauto. }
  unfold file_at. repeat wp_step. rewrite Hgid, Z.eqb_refl. cbn [negb]. rewrite RemoveLinkName_in by done.
  repeat wp_step; [by rewrite bool_decide_false|]. unfold file_put. repeat wp_step.
  change (set_objs _ _) with (unlinked h g n s). change (ok OK) with true. cbn [negb].
  unfold apply_rec. rewrite HF. cbn zeta. case_bool_decide as He.
  - apply erase_first_nil in He; [|done..]. rewrite <-Hgid.
    pose proof (rp_zones _ _ _ R) as Hz. pose proof (rp_room _ _ _ R) as Hr.
    rewrite (exts_delete _ _ _ Hg) in Hz, Hr.
    eapply (wp_drop_last _ _ (f_set_links [] g) (exts (delete h (objs s))) (io_zones b)); unfold unlinked; fs_simpl.
    + by rewrite He, erase_first_only, lookup_insert_eq.
    + intros n' [Hin Hne]%files_erase_elem. apply (tb_names _ _ _ T) in Hin as (f' & Hf' & Hn').
      rewrite Hg in Hf'. injection Hf' as <-. rewrite He in Hn'. by apply list_elem_of_singleton in Hn'.
    + apply (rp_handles _ _ _ R).
    + by rewrite Hc.
    + exact Hz.
    + exact Hr.
    + wp_step. rewrite delete_insert_eq. split_and!; [done|by eapply rep_remove|]. split_and!; [done..|].
      eexists. reflexivity.
  - rewrite <-Hgid. eapply wp_drop_named; [by apply (rep_unlink b s F)|by apply lookup_insert_eq|].
    intros R'. wp_step. split_and!; [done|done|]. apply (kept_rest_refl s).
Qed.

(** ** Snapshots *)

Lemma exts_empty : exts ∅ = [].
Proof. unfold exts. by rewrite map_to_list_empty. Qed.

Lemma wp_drop_files now b fs : ∀ s (Q : unit → ZenFS → Prop),
  handles s = [] → (∀ e, e ∈ fs → is_Some (objs s !! e.2)) →
  (∀ h f, objs s !! h = Some f → h ∈ fs.*2 ∧ open_for_wr_ f = false) → (fs = [] → files_ s = []) →
  io_zones (zbd_ s) = account (exts (objs s)) (io_zones b) → room (io_zones b) (exts (objs s)) →
  Q tt (set_objs ∅ (set_zbd (set_io_zones (io_zones b) (zbd_ s)) (set_files [] s))) →
  wp (drop_files now fs) Q s.
Proof.
  induction fs as [|[n h] fs IH]; intros s Q Hh Hin Ho Hfs Hz Hr HQ; cbn [drop_files].
  - assert (objs s = ∅) as He.
    { apply map_empty. intros h. apply eq_None_not_Some. intros [f Hf].
      destruct (Ho _ _ Hf) as [Hbad _]. by apply not_elem_of_nil in Hbad. }
    wp_step. rewrite He, exts_empty in Hz. cbn [account foldl] in Hz. rewrite <-Hz, <-He, <-Hfs in HQ by done.
    by destruct s as [[]].
  - destruct (Hin (n, h)) as [f Hf]; [by left|]. cbn [snd] in *. do 2 wp_step. wp_step.
    destruct (decide (h ∈ fs.*2)) as [Hmore|Hlast].
    + pose proof Hmore as ([n' h'] & E & Hmem)%list_elem_of_fmap. cbn in E. subst h'.
      apply wp_drop_kept; fs_simpl; [eauto|]. apply IH; fs_simpl; try done.
      * intros e He. apply Hin. by right.
      * intros h' f' Hf'. destruct (Ho _ _ Hf') as [Hm ?]. split; [|done].
        rewrite fmap_cons in Hm. by apply elem_of_cons in Hm as [->|].
    + rewrite (exts_delete _ _ _ Hf) in Hz, Hr.
      eapply (wp_drop_last _ _ f (exts (delete h (objs s))) (io_zones b)); fs_simpl; try done.
      * intros n' Hn'. destruct Hlast. apply list_elem_of_fmap. by exists (n', h).
      * by apply (Ho h).
      * apply IH; fs_simpl; try done.
        -- intros [n' h'] He. cbn [snd]. rewrite lookup_delete_ne; [apply (Hin (n', h')); by right|].
           intros <-. destruct Hlast. apply list_elem_of_fmap. by exists (n', h).
        -- intros h' f' [Hne Hf']%lookup_delete_Some. destruct (Ho _ _ Hf') as [Hm ?].
           split; [|done]. rewrite fmap_cons in Hm. by apply elem_of_cons in Hm as [->|].
        -- eapply room_sub; [|exact Hr]. solve_submseteq.
Qed.

Lemma wp_ClearFiles now b s F (Q : unit → ZenFS → Prop) :
  rep b s F → (∀ s', rep b s' ∅ → kept_rest s s' → Q tt s') → wp (ClearFiles now) Q s.
Proof.
  intros R HQ. pose proof (rp_table _ _ _ R) as T. unfold ClearFiles. repeat wp_step.
  apply (wp_drop_files _ b); [apply R| | |done|apply R|apply R|].
  - intros [n h] Hin. apply (tb_names _ _ _ T) in Hin as (f & Hf & _). by exists f.
  - intros h f Hf. pose proof (tb_clean_obj _ _ _ _ _ T Hf) as (Hc & Hl & _). split; [|by rewrite Hc].
    destruct (linkfiles_ f) as [|n l] eqn:E; [done|]. apply list_elem_of_fmap. exists (n, h). split; [done|].
    apply (tb_names _ _ _ T). exists f. rewrite E. split; [done|by left].
  - apply HQ; [|split_and!; [done..|]; eexists; reflexivity]. split; fs_simpl.
    + apply table_empty.
    + apply R.
    + done.
    + done.
    + pose proof (rp_room _ _ _ R) as Hr. eapply room_sub; [|exact Hr]. rewrite exts_empty. apply submseteq_nil_l.
    + apply R.
    + done.
Qed.

Lemma enc_files_cons f fl :
  enc_files (f :: fl) = PutLengthPrefixedSlice [] (ZoneFile_EncodeTo f [] 0) ++ enc_files fl.
Proof.
  unfold enc_files. cbn [foldl]. change (File_EncodeSnapshotTo f []) with (ZoneFile_EncodeTo f [] 0).
  generalize (PutLengthPrefixedSlice [] (ZoneFile_EncodeTo f [] 0)). induction fl as [|g fl IH] using rev_ind; intros sl.
  - by rewrite app_nil_r.
  - rewrite !foldl_app. cbn [foldl]. rewrite IH, Put_appL, (Put_appL (foldl _ _ _)). by rewrite app_assoc.
Qed.

Lemma length_PutLengthPrefixed sl : (1 ≤ length (PutLengthPrefixedSlice [] sl))%nat.
Proof.
  unfold PutLengthPrefixedSlice, PutVarint32, EncodeVarint32. rewrite !length_app.
  repeat case_match; cbn [length]; lia.
Qed.

(** One entry of a snapshot: a new file, or one that another of its names brought already. *)
Definition entry_ok F (f : ZoneFile) : Prop :=
  F !! file_id_ f = Some (decoded f 0) ∨ (F !! file_id_ f = None ∧ ∀ n, n ∈ linkfiles_ f → name_free F n).

Lemma wp_entry {A} now b s F f (k : ST ZenFS A) (Q : A → ZenFS → Prop) :
  rep b s F → storable b f → entry_ok F f → room (io_zones b) (extents_ f ++ exts_of F) →
  (∀ s', rep b s' (<[file_id_ f := decoded f 0]> F) → kept_rest s s' → wp k Q s') →
  wp (see_id (file_id_ f) ;; insert_names (linkfiles_ f) (next_obj s) ;; drop_file now (next_obj s) ;; k) Q
    (with_new (decoded f 0) s).
Proof.
  intros R Hst He Hroom HQ. pose proof Hst as (Hok & Hl & Hnd & Hid & _). pose proof (fo_id _ _ Hok).
  pose proof (rp_table _ _ _ R) as T. assert (objs s !! next_obj s = None) as Hfr by (by apply R).
  wp_step. apply wp_see_id; [lia..|]. intros nid Hnid. unfold with_new in Hnid |- *.
  cbn [next_file_id_ set_next_obj set_objs set_zbd] in Hnid. wp_step. unfold wp at 1. rewrite run_insert_names. wp_step.
  destruct He as [HF|[HF Hn]].
  - destruct (tb_ex _ _ _ T _ _ HF) as [_ [h Hh]]. rewrite files_inserts_old; fs_simpl.
    2: apply T. 2: { intros n Hin. apply (tb_key _ _ _ _ T). exists h, (decoded f 0). done. }
    eapply (wp_drop_last _ _ (decoded f 0) (exts (objs s)) (io_zones b)); fs_simpl; try done.
    + apply lookup_insert_eq.
    + intros n. by eapply rep_not_named.
    + apply R.
    + exact (with_new_zones b s F (decoded f 0) R).
    + by rewrite drop_0, (exts_table _ _ _ T).
    + rewrite delete_insert_eq, delete_id by done. rewrite (insert_id F) in HQ by done. apply HQ; [|split_and!; [done..|]; eexists; reflexivity].
      split; fs_simpl; [apply R|apply R| |done|apply R|apply R|].
      * intros h' Hh'. apply R. lia.
      * intros id' f' Hf'%(rp_ids _ _ _ R). lia.
  - eapply (wp_drop_named _ b _ (<[file_id_ f := decoded f 0]> F) (next_obj s) (decoded f 0)); fs_simpl.
    + eapply (rep_new b s F (decoded f 0)); fs_simpl; try done; [lia|lia|apply R].
    + apply lookup_insert_eq.
    + intros R'. apply HQ; [exact R'|]. split_and!; [done..|]. eexists. reflexivity.
Qed.

Lemma exts_of_entry F f fl :
  entry_ok F f →
  exts_of (<[file_id_ f := decoded f 0]> F) ++ concat (extents_ <$> fl) ⊆+ exts_of F ++ concat (extents_ <$> (f :: fl)).
Proof.
  intros [HF|[HF _]]; rewrite fmap_cons; cbn [concat].
  - rewrite insert_id by done. solve_submseteq.
  - rewrite exts_of_insert by done. cbn [extents_ decoded]. rewrite drop_0. solve_submseteq.
Qed.

(** Entries of one snapshot do not collide. *)
Definition coherent (fl : list ZoneFile) : Prop :=
  (∀ f f', f ∈ fl → f' ∈ fl → file_id_ f = file_id_ f' → f = f') ∧
  (∀ f f' n, f ∈ fl → f' ∈ fl → n ∈ linkfiles_ f → n ∈ linkfiles_ f' → file_id_ f = file_id_ f').

Lemma coherent_tail f fl : coherent (f :: fl) → coherent fl.
Proof. intros [H1 H2]. split; [intros ?? ??; apply H1|intros ??? ??; apply H2]; by right. Qed.

Lemma entry_ok_next F f fl g :
  coherent (f :: fl) → g ∈ fl → entry_ok F g → entry_ok (<[file_id_ f := decoded f 0]> F) g.
Proof.
  intros [Hids Hnames] Hg He. assert (g ∈ f :: fl) as Hg' by (by right). assert (f ∈ f :: fl) as Hf by (by left).
  destruct (decide (file_id_ f = file_id_ g)) as [E|Hne].
  - left. rewrite <-(Hids f g) by done. apply lookup_insert_eq.
  - destruct He as [HF|[HF Hn]]; [left|right]; rewrite lookup_insert_ne by done; [done|]. split; [done|].
    intros n Hin id f'. rewrite lookup_insert_Some. intros [[_ <-]|[_ Hf']]; [|by eapply Hn].
    cbn [linkfiles_ decoded]. intros Hin'. destruct Hne. by eapply Hnames.
Qed.

Lemma wp_snapshot_loop now b fl : ∀ fuel s F,
  rep b s F → Forall (storable b) fl → (length (enc_files fl) ≤ fuel)%nat → coherent fl →
  Forall (entry_ok F) fl → room (io_zones b) (exts_of F ++ concat (extents_ <$> fl)) →
  wp (snapshot_loop now fuel (enc_files fl))
    (λ st s', st = OK ∧ rep b s' (foldl (λ F f, <[file_id_ f := decoded f 0]> F) F fl) ∧ kept_rest s s') s.
Proof.
  induction fl as [|f fl IH]; intros fuel s F R Hst Hfuel Hco He Hroom.
  - destruct fuel; (change (wp (ret OK) (λ st s', st = OK ∧ rep b s' F ∧ kept_rest s s') s);
      wp_step; split_and!; [done|done|apply kept_rest_refl]).
  - apply Forall_cons in Hst as [Hf Hst]. apply Forall_cons in He as [He Hes]. pose proof Hf as (Hok & _ & _ & _ & Hsz).
    rewrite enc_files_cons, length_app in Hfuel. pose proof (length_PutLengthPrefixed (ZoneFile_EncodeTo f [] 0)).
    destruct fuel as [|fuel]; [lia|]. cbn [snapshot_loop].
    rewrite enc_files_cons, GetLengthPrefixedSlice_Put by done. wp_step.
    eapply (wp_decode_new b s F f 0); [done..|]. cbv iota. change (ok OK) with true. cbn [negb].
    apply (wp_entry now b s F f); [done..| |].
    + eapply room_sub; [|exact Hroom]. rewrite fmap_cons. cbn [concat]. solve_submseteq.
    + intros s1 R1 Hk1. eapply wp_mono; [apply (IH fuel s1 _ R1)|]; [done|lia|by eapply coherent_tail|..].
      * rewrite Forall_forall in Hes |- *. intros g Hg. eapply entry_ok_next; [done|done|]. by apply Hes.
      * eapply room_sub; [by apply exts_of_entry|exact Hroom].
      * intros st s2 (-> & R2 & Hk2). split_and!; [done|exact R2|by eapply kept_rest_trans].
Qed.

(** ** Replaying a record *)

Definition is_snapshot (r : mrec) : bool := match r with RSnapshot _ => true | _ => false end.

Lemma wp_snapshot now b s F fl :
  rep b s F → valid_rec b F (RSnapshot fl) →
  wp (ClearFiles now ;; DecodeSnapshotFrom now (enc_files fl))
    (λ st s', st = OK ∧ rep b s' (apply_rec (RSnapshot fl) F) ∧ kept_rest s s') s.
Proof.
  intros R (Hst & _ & Hids & Hnames & Hroom). wp_step. eapply wp_ClearFiles; [done|]. intros s1 R1 Hk1.
  unfold DecodeSnapshotFrom. repeat wp_step.
  { apply bool_decide_eq_true. destruct (files_ s1) as [|[n h] l] eqn:E; [done|].
    assert ((n, h) ∈ files_ s1) as Hin by (rewrite E; by left).
    apply (tb_names _ _ _ (rp_table _ _ _ R1)) in Hin as (f & Hf & _).
    by apply (tb_in _ _ _ (rp_table _ _ _ R1)) in Hf. }
  eapply wp_mono; [apply (wp_snapshot_loop now b fl _ _ ∅); try done|].
  - apply Forall_forall. intros f _. right. split; [done|]. by intros n _ id g.
  - intros st s2 (-> & R2 & Hk2). split_and!; [done|exact R2|by eapply kept_rest_trans].
Qed.

Lemma wp_update now b s F replace f k :
  rep b s F → valid_rec b F (RUpdate replace f k) →
  wp (DecodeFileUpdateFrom now (ZoneFile_EncodeTo f [] (Z.of_nat k)) replace)
    (λ st s', st = OK ∧ rep b s' (apply_rec (RUpdate replace f k) F) ∧ kept_rest s s') s.
Proof.
  intros R (Hst & _ & Hroom & Hn). cbn [apply_rec]. destruct (F !! file_id_ f) as [g|] eqn:HF.
  - by apply wp_update_known.
  - destruct Hn as (n & El & Hn & Hfmt). eapply wp_update_new; try done.
    eapply room_sub; [|exact Hroom]. solve_submseteq.
Qed.

(** A valid record has the effect of [apply_rec]. *)
Lemma wp_recover_record now b s F r :
  rep b s F → valid_rec b F r →
  wp (recover_record now (enc_rec r))
    (λ c s', c = Continue (is_snapshot r) ∧ rep b s' (apply_rec r F) ∧ kept_rest s s') s.
Proof.
  intros R Hv. unfold recover_record. destruct r as [fl|replace f k|id n]; cbn [enc_rec is_snapshot]; rewrite Put_appL;
    unfold PutFixed32 at 1; rewrite app_nil_l, GetFixed32_Put by (try case_match; unfold kFileReplace; done);
    rewrite <-(app_nil_r (PutLengthPrefixedSlice [] _)), GetLengthPrefixedSlice_Put by apply Hv.
  - closed_tests. apply wp_assoc. eapply wp_seq; [by apply wp_snapshot|]. intros st s' (-> & HR). by wp_step.
  - destruct replace; closed_tests; (wp_step; eapply wp_mono; [by apply wp_update|]);
      intros st s' (-> & HR); by wp_step.
  - closed_tests. destruct Hv as (Hid & _ & Hsz & g & HF & Hn). wp_step.
    eapply wp_mono; [by eapply wp_deletion|]. intros st s' (-> & HR). by wp_step.
Qed.
End recover.
