(* ===== verification/ZenReplay.v ===== *)
(** * ZenFS: recovery from a log

    [RecoverFrom] reads the records that the device stores and replays them.  The table it
    ends with is the fold of [apply_rec] over the records. *)

From stdpp Require Import base numbers option list gmap.
From S2P Require Import Prelude ZenCoding ZenTypes ZenZbd ZenFile ZenLog ZenFs ZenMeta.
From S2P Require Import ZenFileCodec ZenLogSpec ZenSpace ZenRecover.

Section replay.
Context {D : ZbdDev} {DOk : ZbdDevOk D} {K : Crc32c} {KOk : Crc32cOk K}.
Implicit Types (b : ZonedBlockDevice) (s : ZenFS) (F : gmap Z ZoneFile) (rs : list mrec).

Fixpoint valid_recs b F rs : Prop :=
  match rs with
  | [] => True
  | r :: rs' => valid_rec b F r ∧ valid_recs b (apply_rec r F) rs'
  end.

Definition replay rs F : gmap Z ZoneFile := foldl (λ F r, apply_rec r F) F rs.

(** The bytes of a log. *)
Definition log_image (bs : Z) rs : slice := concat (record_buffer bs ∘ enc_rec <$> rs).

(** After the last record the log ends at the write pointer, or with an end record. *)
Definition log_ends (d : dev) (bs pos wp : Z) : Prop :=
  let e := PutFixed32 [] kEndRecord in
  pos = wp ∨ record_fits bs e ∧ stores d pos (record_buffer bs e) ∧ pos + phys_size bs (size e) ≤ wp.

Definition kept_log s s' : Prop :=
  meta_log_ s' = meta_log_ s ∧ superblock_ s' = superblock_ s ∧
  ∃ zs d, zbd_ s' = set_io_zones zs (set_device d (zbd_ s)) ∧ dev_same (device (zbd_ s)) d.

Lemma kept_log_step s b' s1 s2 :
  after_reads (zbd_ s) b' → kept_rest (set_zbd b' s) s1 → kept_log s1 s2 → kept_log s s2.
Proof.
  intros (d & -> & Hr & Hb & Hw) (E1 & E2 & zs & E3) (E4 & E5 & zs' & d' & E6 & Hr' & Hb' & Hw').
  rewrite E3 in E6, Hb', Hw'. cbn in *. split_and!; [congruence..|]. exists zs', d'. split; [done|].
  split_and!; [done|intros a; by rewrite Hb', Hb|auto].
Qed.

Lemma rep_reads b s F b' : rep b s F → after_reads (zbd_ s) b' → rep b (set_zbd b' s) F.
Proof. intros [] (d & -> & _). by split. Qed.

Lemma stores_same d d' a l : dev_same d d' → stores d a l → stores d' a l.
Proof. intros (_ & Hb & _) Hs i x Hi. rewrite Hb. by apply Hs. Qed.

Lemma log_image_cons bs r rs : log_image bs (r :: rs) = record_buffer bs (enc_rec r) ++ log_image bs rs.
Proof. done. Qed.

(** The log zone [zn], in state [z], holds the records [rs] from [pos] on. *)
Record log_at b (zn : nat) (z : Zone) (bs pos : Z) rs : Prop := {
  la_bs : 0 < bs;
  la_zone : zone_of (MetaZone zn) b = Some z;
  la_readable : readable (device b);
  la_fits : Forall (λ r, record_fits bs (enc_rec r)) rs;
  la_stores : stores (device b) pos (log_image bs rs);
  la_pos : 0 ≤ pos ∧ pos mod bs = 0;
  la_wp : pos + size (log_image bs rs) ≤ wp_ z ≤ start_ z + max_capacity_ z;
  la_limit : start_ z + max_capacity_ z < 2 ^ 64;
  la_ends : log_ends (device b) bs (pos + size (log_image bs rs)) (wp_ z)
}.

Lemma log_at_next b zn z bs pos r rs b' zs :
  log_at b zn z bs pos (r :: rs) → after_reads b b' →
  log_at (set_io_zones zs b') zn z bs (pos + phys_size bs (size (enc_rec r))) rs.
Proof.
  intros L (d & -> & Hs). pose proof (la_bs _ _ _ _ _ _ L) as Hbs. destruct L as [_ Hz _ Hf Hst [Hp0 Hpa] Hwp Hlim He].
  apply Forall_cons in Hf as [Hf Hfs]. rewrite log_image_cons in *. rewrite size_app in Hwp, He.
  rewrite (size_record _ _ Hbs Hf) in *. apply stores_app in Hst as [_ Hst]. rewrite size_record in Hst by done.
  pose proof (size_nonneg (enc_rec r)).
  destruct (phys_size_spec bs (size (enc_rec r)) Hbs) as [Hpm Hps]; [lia|].
  rewrite Z.add_assoc in *. split; cbn; try done; [apply Hs|by eapply stores_same| |].
  - split; [lia|]. by rewrite Z.add_mod, Hpa, Hpm, Z.add_0_l, Z.mod_0_l by lia.
  - destruct He as [He|(He1 & He2 & He3)]; [by left|right]. split_and!; [done|by eapply stores_same|done].
Qed.

Lemma wp_read_record b zn z bs pos r rs :
  log_at b zn z bs pos (r :: rs) →
  wp (ReadRecord (mk_log pos zn bs))
    (λ res b', res = (OK, enc_rec r, mk_log (pos + phys_size bs (size (enc_rec r))) zn bs) ∧ after_reads b b') b.
Proof.
  intros [Hbs Hz Hr Hf Hst [Hp0 Hpa] Hwp Hlim He]. apply Forall_cons in Hf as [Hf _].
  rewrite log_image_cons in *. rewrite size_app, (size_record _ _ Hbs Hf) in Hwp. apply stores_app in Hst as [Hst _].
  pose proof (size_nonneg (log_image bs rs)). eapply wp_ReadRecord; try done. lia.
Qed.

(** The end of the log stops the loop. *)
Lemma wp_recover_end now b s zn z bs pos fuel snap F :
  log_at (zbd_ s) zn z bs pos [] → rep b s F →
  wp (recover_loop now (S fuel) (mk_log pos zn bs) snap)
    (λ st s', st = (if snap then OK else NotFound) ∧ rep b s' F ∧ kept_log s s') s.
Proof.
  intros [Hbs Hz Hr _ _ [Hp0 Hpa] Hwp Hlim He] R. cbn in He, Hwp. rewrite Z.add_0_r in *. cbn [recover_loop].
  assert (∀ b', after_reads (zbd_ s) b' → kept_log s (set_zbd b' s)) as Hk.
  { intros b' (d & -> & Hs). split_and!; [done..|]. exists (io_zones (zbd_ s)), d. by destruct (zbd_ s). }
  wp_step. apply wp_in_zbd. destruct He as [->|(Hf & Hs & Hle)].
  - eapply wp_mono; [by eapply wp_ReadRecord_end|]. intros res b' [-> Hb'].
    change (wp (ret (if snap then OK else NotFound))
      (λ st s', st = (if snap then OK else NotFound) ∧ rep b s' F ∧ kept_log s s') (set_zbd b' s)).
    wp_step. split_and!; [done|by eapply rep_reads|by apply Hk].
  - eapply wp_mono; [by eapply wp_ReadRecord; try done; lia|]. intros res b' [-> Hb'].
    change (wp (ret (if snap then OK else NotFound))
      (λ st s', st = (if snap then OK else NotFound) ∧ rep b s' F ∧ kept_log s s') (set_zbd b' s)).
    wp_step. split_and!; [done|by eapply rep_reads|by apply Hk].
Qed.

Lemma wp_recover_loop now b zn z bs rs : ∀ fuel pos s snap F,
  log_at (zbd_ s) zn z bs pos rs → rep b s F → valid_recs b F rs → wp_ z - pos < Z.of_nat fuel →
  wp (recover_loop now fuel (mk_log pos zn bs) snap)
    (λ st s', st = (if snap || existsb is_snapshot rs then OK else NotFound) ∧
              rep b s' (replay rs F) ∧ kept_log s s') s.
Proof.
  induction rs as [|r rs IH]; intros fuel pos s snap F L R Hv Hfuel.
  - destruct fuel; [destruct L as [_ _ _ _ _ _ Hwp]; pose proof (size_nonneg (log_image bs [])); lia|].
    cbn [existsb]. rewrite orb_false_r. by eapply wp_recover_end.
  - destruct Hv as [Hv Hvs].
    assert (pos < pos + phys_size bs (size (enc_rec r)) ≤ wp_ z) as Hlt.
    { destruct L as [Hbs _ _ Hf _ _ Hwp].
      apply Forall_cons in Hf as [Hf _]. rewrite log_image_cons, size_app, (size_record _ _ Hbs Hf) in Hwp.
      pose proof (size_nonneg (log_image bs rs)). pose proof (size_nonneg (enc_rec r)).
      destruct (phys_size_spec bs (size (enc_rec r)) Hbs) as [_ ?]; lia. }
    destruct fuel as [|fuel]; [lia|]. cbn [recover_loop]. wp_step. apply wp_in_zbd.
    eapply wp_mono; [by eapply wp_read_record|]. intros res b' [-> Hb']. cbv iota. change (ok OK) with true.
    cbn [negb]. wp_step. eapply wp_mono; [apply (wp_recover_record now b); [by eapply rep_reads|exact Hv]|].
    intros c s1 (-> & R1 & Hk). pose proof Hk as (_ & _ & zs & E1).
    pose proof (log_at_next _ _ _ _ _ _ _ b' zs L Hb') as L1. cbn [zbd_ set_zbd] in E1. rewrite <-E1 in L1.
    eapply wp_mono; [apply (IH fuel _ s1 _ _ L1 R1 Hvs); lia|].
    intros st s2 (-> & R2 & Hk2). cbn [existsb]. rewrite orb_assoc.
    split_and!; [done|exact R2|by eapply kept_log_step].
Qed.

Lemma wp_RecoverFrom now b zn z bs rs pos s F :
  log_at (zbd_ s) zn z bs pos rs → rep b s F → valid_recs b F rs →
  wp (RecoverFrom now (mk_log pos zn bs))
    (λ st s', st = (if existsb is_snapshot rs then OK else NotFound) ∧ rep b s' (replay rs F) ∧ kept_log s s') s.
Proof.
  intros L R Hv. unfold RecoverFrom, zone_at. wp_step. apply wp_in_zbd. cbn [log_zone read_pos_]. wp_step. wp_step.
  eapply wp_load; [apply (la_zone _ _ _ _ _ _ L)|]. replace (set_zbd (zbd_ s) s) with s by (by destruct s).
  eapply wp_mono; [apply (wp_recover_loop now b zn z bs rs _ _ _ false F L R Hv)|done].
  destruct L as [_ _ _ _ _ [Hp _] Hwp]. pose proof (size_nonneg (log_image bs rs)). lia.
Qed.
End replay.
