(* ===== verification/ZenAlloc.v ===== *)
(** * ZenFS: the zone allocator

    What the searches for a zone do, and the invariant of the open and active tokens: they
    cover the zones in use, and never exceed the limits of the device. *)

From stdpp Require Import base numbers option list gmap.
From S2P Require Import Prelude ZenCoding ZenTypes ZenZbd ZenFileCodec.

(** A zone that takes up one of the device's active resources: a writer holds it, or it is
    partly written. *)
Definition partial_zone (z : Zone) : bool := negb (IsEmpty z) && negb (IsFull z).
Definition active_zone (z : Zone) : bool := busy_ z || partial_zone z.

(** A zone that can be finished to get an active token back. *)
Definition idle_partial (z : Zone) : bool := negb (busy_ z) && partial_zone z.

Lemma alter_comm_zones (f : Zone → Zone) (i j : nat) (l : list Zone) :
  i ≠ j → alter f i (alter f j l) = alter f j (alter f i l).
Proof.
  intros Hne. apply list_eq. intros k. destruct (decide (i = k)) as [<-|]; [|destruct (decide (j = k)) as [<-|]].
  - by rewrite (list_lookup_alter_ne _ _ j), !list_lookup_alter_eq, list_lookup_alter_ne by done.
  - by rewrite (list_lookup_alter_ne _ _ i), !list_lookup_alter_eq, list_lookup_alter_ne by done.
  - by rewrite !list_lookup_alter_ne by done.
Qed.

Section alloc.
Context {D : ZbdDev}.
Implicit Types (b : ZonedBlockDevice) (z : Zone) (oz : option nat).

Lemma run_Acquire b i z :
  io_zones b !! i = Some z →
  Acquire (IoZone i) b = if busy_ z then Done false b else Done true (set_zone (IoZone i) (z_set_busy true z) b).
Proof.
  intros Hz. unfold Acquire, zone_upd, zone_at, bind, get, load, modify, ret. cbn. rewrite Hz.
  destruct (busy_ z); [done|]. cbn. by rewrite Hz.
Qed.

Lemma run_CheckRelease b i z :
  io_zones b !! i = Some z → busy_ z = true →
  CheckRelease (IoZone i) b = Done OK (set_zone (IoZone i) (z_set_busy false z) b).
Proof.
  intros Hz Hb. unfold CheckRelease, Release, zone_upd, zone_at, bind, get, load, modify, ret. cbn.
  rewrite Hz, Hb. cbn. by rewrite Hz.
Qed.

(** The device with one more zone held. *)
Definition hold_zone oz b : ZonedBlockDevice :=
  match oz with Some j => set_io_zones (alter (z_set_busy true) j (io_zones b)) b | None => b end.

Lemma hold_zone_lookup oz b i : oz ≠ Some i → io_zones (hold_zone oz b) !! i = io_zones b !! i.
Proof. destruct oz as [j|]; [|done]. intros Hne. cbn. rewrite list_lookup_alter_ne; [done|]. by intros ->. Qed.

Lemma hold_zone_self j b z :
  io_zones b !! j = Some z → io_zones (hold_zone (Some j) b) !! j = Some (z_set_busy true z).
Proof. intros Hz. cbn. by rewrite list_lookup_alter_eq, Hz. Qed.

Lemma set_io_zones_id b : set_io_zones (io_zones b) b = b.
Proof. by destruct b. Qed.

Lemma z_set_busy_id z x y : busy_ z = x → z_set_busy x (z_set_busy y z) = z.
Proof. intros <-. by destruct z. Qed.

(** A second zone held on top. *)
Definition hold_two (i : nat) oz b : ZonedBlockDevice :=
  set_io_zones (alter (z_set_busy true) i (io_zones (hold_zone oz b))) b.

Lemma alter_twice_id (i : nat) (l : list Zone) z :
  l !! i = Some z → busy_ z = false → <[i := z_set_busy false (z_set_busy true z)]> (alter (z_set_busy true) i l) = l.
Proof.
  intros Hl Hb. rewrite (z_set_busy_id z false true) by done. apply list_eq. intros k.
  destruct (decide (i = k)) as [<-|].
  - rewrite list_lookup_insert_eq; [done|]. rewrite length_alter. by eapply lookup_lt_Some.
  - by rewrite list_lookup_insert_ne, list_lookup_alter_ne by done.
Qed.

Lemma wp_acquire oz b i z (Q : bool → ZonedBlockDevice → Prop) :
  io_zones b !! i = Some z → oz ≠ Some i →
  (busy_ z = true → Q false (hold_zone oz b)) → (busy_ z = false → Q true (hold_two i oz b)) →
  wp (Acquire (IoZone i)) Q (hold_zone oz b).
Proof.
  intros Hz Hne H1 H2. pose proof (hold_zone_lookup oz b i Hne) as Hl. rewrite Hz in Hl. unfold wp.
  rewrite (run_Acquire _ _ _ Hl). destruct (busy_ z); [by apply H1|]. cbn [set_zone].
  rewrite (alter_insert (z_set_busy true) _ _ _ Hl). specialize (H2 eq_refl). unfold hold_two in H2. by destruct oz.
Qed.

Lemma hold_two_lookup i oz b z :
  io_zones b !! i = Some z → oz ≠ Some i → io_zones (hold_two i oz b) !! i = Some (z_set_busy true z).
Proof. intros Hz Hne. cbn. by rewrite list_lookup_alter_eq, hold_zone_lookup, Hz. Qed.

Lemma hold_two_old i j b z :
  io_zones b !! j = Some z → i ≠ j → io_zones (hold_two i (Some j) b) !! j = Some (z_set_busy true z).
Proof. intros Hz Hne. cbn. by rewrite list_lookup_alter_ne, list_lookup_alter_eq, Hz. Qed.

Lemma wp_release_new oz b i z (Q : IOStatus → ZonedBlockDevice → Prop) :
  io_zones b !! i = Some z → oz ≠ Some i → busy_ z = false → Q OK (hold_zone oz b) →
  wp (CheckRelease (IoZone i)) Q (hold_two i oz b).
Proof.
  intros Hz Hne Hb HQ. pose proof (hold_two_lookup i oz b z Hz Hne) as Hl. unfold wp.
  rewrite (run_CheckRelease _ _ _ Hl) by done. cbn [set_zone hold_two io_zones set_io_zones].
  rewrite alter_twice_id; [|by rewrite hold_zone_lookup|done]. destruct oz; [exact HQ|].
  by destruct b.
Qed.

Lemma wp_release_old i j b z (Q : IOStatus → ZonedBlockDevice → Prop) :
  io_zones b !! j = Some z → i ≠ j → busy_ z = false → Q OK (hold_zone (Some i) b) →
  wp (CheckRelease (IoZone j)) Q (hold_two i (Some j) b).
Proof.
  intros Hz Hne Hb HQ. pose proof (hold_two_old i j b z Hz Hne) as Hl. unfold wp.
  rewrite (run_CheckRelease _ _ _ Hl) by done. cbn [set_zone hold_two hold_zone io_zones set_io_zones] in *.
  rewrite alter_comm_zones by done. rewrite alter_twice_id; [done| |done].
  by rewrite list_lookup_alter_ne.
Qed.

Lemma wp_release_held j b z (Q : IOStatus → ZonedBlockDevice → Prop) :
  io_zones b !! j = Some z → busy_ z = false → Q OK b → wp (CheckRelease (IoZone j)) Q (hold_zone (Some j) b).
Proof.
  intros Hz Hb HQ. apply (wp_release_new None b j z); try done.
Qed.

(** ** The best open zone *)

(** A zone that an allocation of [lt] may continue. *)
Definition candidate (mc : Z) z : bool :=
  negb (busy_ z) && ((0 <? used_capacity_ z) && negb (IsFull z) && (mc <=? capacity_ z)).

Definition lifetime_diff (zone_lifetime file_lifetime : Z) : Z :=
  if (file_lifetime =? WLTH_NOT_SET) || (file_lifetime =? WLTH_NONE) then
    if file_lifetime =? zone_lifetime then 0 else LIFETIME_DIFF_NOT_GOOD
  else if file_lifetime <? zone_lifetime then zone_lifetime - file_lifetime
  else if zone_lifetime =? file_lifetime then LIFETIME_DIFF_COULD_BE_WORSE
  else LIFETIME_DIFF_NOT_GOOD.

Lemma wp_GetLifeTimeDiff zl fl b (Q : Z → ZonedBlockDevice → Prop) :
  fl ≤ WLTH_EXTREME → Q (lifetime_diff zl fl) b → wp (GetLifeTimeDiff zl fl) Q b.
Proof.
  intros Hfl HQ. unfold GetLifeTimeDiff. repeat wp_step; [by apply Z.leb_le|]. unfold lifetime_diff in HQ.
  repeat case_match; by wp_step.
Qed.

(** [d] and [oz] are the best candidate among the zones [seen] and its distance. *)
Definition best_of b (lt mc : Z) (seen : list nat) (d : Z) oz : Prop :=
  d ≤ LIFETIME_DIFF_NOT_GOOD ∧
  (∀ i z, i ∈ seen → io_zones b !! i = Some z → candidate mc z = true → d ≤ lifetime_diff (zlifetime_ z) lt) ∧
  match oz with
  | Some j => j ∈ seen ∧ ∃ z, io_zones b !! j = Some z ∧ candidate mc z = true ∧ d = lifetime_diff (zlifetime_ z) lt
  | None => d = LIFETIME_DIFF_NOT_GOOD
  end.

Lemma best_of_skip b lt mc seen d oz i z :
  best_of b lt mc seen d oz → io_zones b !! i = Some z →
  (candidate mc z = true → d ≤ lifetime_diff (zlifetime_ z) lt) → best_of b lt mc (seen ++ [i]) d oz.
Proof.
  intros (Hd & Hall & Hoz) Hz Hc. split; [done|]. split.
  - intros k zk [Hk| ->%list_elem_of_singleton]%elem_of_app Hzk Hck; [by eapply Hall|]. rewrite Hz in Hzk.
    injection Hzk as <-. by apply Hc.
  - destruct oz; [|done]. destruct Hoz as [Hin Hoz]. split; [|done]. apply elem_of_app. by left.
Qed.

Lemma best_of_take b lt mc seen d oz i z :
  best_of b lt mc seen d oz → io_zones b !! i = Some z → candidate mc z = true →
  lifetime_diff (zlifetime_ z) lt ≤ d → best_of b lt mc (seen ++ [i]) (lifetime_diff (zlifetime_ z) lt) (Some i).
Proof.
  intros (Hd & Hall & Hoz) Hz Hc Hle. split; [lia|]. split.
  - intros k zk [Hk| ->%list_elem_of_singleton]%elem_of_app Hzk Hck.
    + specialize (Hall k zk Hk Hzk Hck). lia.
    + rewrite Hz in Hzk. by injection Hzk as <-.
  - split; [apply elem_of_app; right; by left|]. eauto.
Qed.

Lemma wp_best_loop lt mc b : ∀ zs seen d oz,
  lt ≤ WLTH_EXTREME → NoDup (seen ++ zs) → (∀ i, i ∈ zs → is_Some (io_zones b !! i)) →
  best_of b lt mc seen d oz →
  wp (best_loop lt mc zs d oz)
    (λ r b', ∃ d' oz', r = (OK, d', oz') ∧ b' = hold_zone oz' b ∧ best_of b lt mc (seen ++ zs) d' oz')
    (hold_zone oz b).
Proof.
  induction zs as [|i zs IH]; intros seen d oz Hlt Hnd Hin Hb; cbn [best_loop].
  { wp_step. rewrite app_nil_r. eauto 6. }
  destruct (Hin i) as [z Hz]; [by left|]. replace (seen ++ i :: zs) with ((seen ++ [i]) ++ zs) in * by (by rewrite <-app_assoc).
  assert (∀ k, k ∈ zs → is_Some (io_zones b !! k)) as Hin' by (intros k Hk; apply Hin; by right).
  assert (oz ≠ Some i) as Hne.
  { intros ->. destruct Hb as (_ & _ & Hs & _). apply NoDup_app in Hnd as (Hnd & _).
    apply NoDup_app in Hnd as (_ & Hnd & _). apply (Hnd i); [done|by left]. }
  wp_step. apply (wp_acquire oz b i z); [done..| |]; intros Hbusy; cbv iota.
  { apply IH; [done..|]. eapply best_of_skip; [done|done|]. unfold candidate. by rewrite Hbusy. }
  unfold zone_at. repeat wp_step. eapply wp_load; [by apply (hold_two_lookup i oz b z)|].
  cbn [used_capacity_ capacity_ zlifetime_ z_set_busy].
  change (IsFull (z_set_busy true z)) with (IsFull z).
  assert (candidate mc z = (0 <? used_capacity_ z) && negb (IsFull z) && (mc <=? capacity_ z)) as Hc
    by (unfold candidate; by rewrite Hbusy). rewrite <-Hc. destruct (candidate mc z) eqn:Ec.
  - wp_step. apply wp_GetLifeTimeDiff; [done|]. case_match eqn:Hle.
    + apply Z.leb_le in Hle. wp_step. destruct oz as [j|].
      * pose proof Hb as (_ & _ & _ & zj & Hzj & Hcj & _).
        apply (wp_release_old i j b zj); [done|by intros ->| |].
        { unfold candidate in Hcj. by destruct (busy_ zj). }
        change (ok OK) with true. cbn [negb]. apply IH; [done..|].
        by eapply best_of_take.
      * wp_step. change (ok OK) with true. cbn [negb]. change (hold_two i None b) with (hold_zone (Some i) b).
        apply IH; [done..|]. by eapply best_of_take.
    + wp_step. apply (wp_release_new oz b i z); [done..|]. change (ok OK) with true. cbn [negb].
      apply IH; [done..|]. eapply best_of_skip; [done|done|]. apply Z.leb_gt in Hle. lia.
  - wp_step. apply (wp_release_new oz b i z); [done..|]. change (ok OK) with true. cbn [negb].
    apply IH; [done..|]. eapply best_of_skip; [done|done|]. by rewrite Ec.
Qed.

Lemma indices_in b i : i ∈ seq 0 (length (io_zones b)) ↔ is_Some (io_zones b !! i).
Proof. rewrite elem_of_seq, lookup_lt_is_Some. lia. Qed.

Lemma wp_GetBestOpenZoneMatch lt mc b :
  lt ≤ WLTH_EXTREME →
  wp (GetBestOpenZoneMatch lt mc)
    (λ r b', ∃ d oz, r = (OK, d, oz) ∧ b' = hold_zone oz b ∧
                     best_of b lt mc (seq 0 (length (io_zones b))) d oz) b.
Proof.
  intros Hlt. unfold GetBestOpenZoneMatch, io_indices. repeat wp_step.
  apply (wp_best_loop lt mc b _ []); [done|apply NoDup_seq|intros i; apply indices_in|].
  split; [done|]. split; [|done]. intros i z Hi. by apply not_elem_of_nil in Hi.
Qed.

(** ** An empty zone *)

Lemma wp_empty_loop b : ∀ zs,
  NoDup zs → (∀ i, i ∈ zs → is_Some (io_zones b !! i)) →
  wp (empty_loop zs)
    (λ r b', ∃ oz, r = (OK, oz) ∧ b' = hold_zone oz b ∧
      match oz with
      | Some j => ∃ z, io_zones b !! j = Some z ∧ busy_ z = false ∧ IsEmpty z = true
      | None => ∀ i z, i ∈ zs → io_zones b !! i = Some z → busy_ z = false → IsEmpty z = false
      end) b.
Proof.
  induction zs as [|i zs IH]; intros Hnd Hin; cbn [empty_loop].
  { wp_step. exists None. split_and!; [done..|]. intros i z Hi. by apply not_elem_of_nil in Hi. }
  apply NoDup_cons in Hnd as [Hni Hnd]. destruct (Hin i) as [z Hz]; [by left|].
  assert (∀ k, k ∈ zs → is_Some (io_zones b !! k)) as Hin' by (intros k Hk; apply Hin; by right).
  assert ((busy_ z = false → IsEmpty z = false) → wp (empty_loop zs)
    (λ r b', ∃ oz, r = (OK, oz) ∧ b' = hold_zone oz b ∧
      match oz with
      | Some j => ∃ z, io_zones b !! j = Some z ∧ busy_ z = false ∧ IsEmpty z = true
      | None => ∀ k z, k ∈ i :: zs → io_zones b !! k = Some z → busy_ z = false → IsEmpty z = false
      end) b) as Hskip.
  { intros Hi. eapply wp_mono; [by apply IH|]. intros r b' (oz & -> & -> & Hoz). exists oz. split_and!; [done..|].
    destruct oz; [done|]. intros k zk [->|Hk]%elem_of_cons Hzk Hb; [|by eapply Hoz].
    rewrite Hz in Hzk. injection Hzk as <-. by apply Hi. }
  wp_step. apply (wp_acquire None b i z); [done..| |]; intros Hbusy; cbv iota.
  { apply Hskip. by rewrite Hbusy. }
  unfold zone_at. repeat wp_step. eapply wp_load; [by apply (hold_two_lookup i None b z)|].
  change (IsEmpty (z_set_busy true z)) with (IsEmpty z). destruct (IsEmpty z) eqn:He.
  - wp_step. exists (Some i). split_and!; [done..|]. eauto.
  - wp_step. apply (wp_release_new None b i z); [done..|]. change (ok OK) with true. cbn [negb]. by apply Hskip.
Qed.

Lemma wp_AllocateEmptyZone b :
  wp AllocateEmptyZone
    (λ r b', ∃ oz, r = (OK, oz) ∧ b' = hold_zone oz b ∧
      match oz with
      | Some j => ∃ z, io_zones b !! j = Some z ∧ busy_ z = false ∧ IsEmpty z = true
      | None => ∀ i z, io_zones b !! i = Some z → busy_ z = false → IsEmpty z = false
      end) b.
Proof.
  unfold AllocateEmptyZone, io_indices. repeat wp_step.
  eapply wp_mono; [apply wp_empty_loop; [apply NoDup_seq|intros i; apply indices_in]|].
  intros r b' (oz & -> & -> & Hoz). exists oz. split_and!; [done..|]. destruct oz; [done|].
  intros i z Hz. apply (Hoz i z); [|done]. apply indices_in. eauto.
Qed.

(** ** The cheapest zone to finish *)

Definition cheapest_of b (seen : list nat) oz : Prop :=
  match oz with
  | Some j => j ∈ seen ∧ ∃ zj, io_zones b !! j = Some zj ∧ idle_partial zj = true ∧
      ∀ i z, i ∈ seen → io_zones b !! i = Some z → idle_partial z = true → capacity_ zj ≤ capacity_ z
  | None => ∀ i z, i ∈ seen → io_zones b !! i = Some z → idle_partial z = false
  end.

Lemma cheapest_skip b seen oz i z :
  cheapest_of b seen oz → io_zones b !! i = Some z →
  (idle_partial z = true → ∃ j zj, oz = Some j ∧ io_zones b !! j = Some zj ∧ capacity_ zj ≤ capacity_ z) →
  cheapest_of b (seen ++ [i]) oz.
Proof.
  intros Hc Hz Hi. destruct oz as [j|]; cbn in *.
  - destruct Hc as (Hj & zj & Hzj & Hp & Hall). split; [apply elem_of_app; by left|]. exists zj. split_and!; [done..|].
    intros k zk [Hk| ->%list_elem_of_singleton]%elem_of_app Hzk Hpk; [by eapply Hall|]. simplify_eq.
    destruct (Hi Hpk) as (j' & zj' & [= <-] & Hzj' & Hle). congruence.
  - intros k zk [Hk| ->%list_elem_of_singleton]%elem_of_app Hzk; [by eapply Hc|]. simplify_eq.
    apply not_true_is_false. intros Hp. by destruct (Hi Hp) as (? & ? & ? & _).
Qed.

Lemma cheapest_take b seen oz i z :
  cheapest_of b seen oz → io_zones b !! i = Some z → idle_partial z = true →
  (∀ j zj, oz = Some j → io_zones b !! j = Some zj → capacity_ z ≤ capacity_ zj) →
  cheapest_of b (seen ++ [i]) (Some i).
Proof.
  intros Hc Hz Hp Hle. split; [apply elem_of_app; right; by left|]. exists z. split_and!; [done..|].
  intros k zk [Hk| ->%list_elem_of_singleton]%elem_of_app Hzk Hpk; [|simplify_eq; done].
  destruct oz as [j|]; cbn in Hc.
  - destruct Hc as (_ & zj & Hzj & _ & Hall). specialize (Hall k zk Hk Hzk Hpk). specialize (Hle j zj eq_refl Hzj). lia.
  - by rewrite (Hc k zk Hk Hzk) in Hpk.
Qed.

Lemma wp_victim_loop b : ∀ zs seen oz,
  NoDup (seen ++ zs) → (∀ i, i ∈ zs → is_Some (io_zones b !! i)) → cheapest_of b seen oz →
  wp (victim_loop zs oz)
    (λ r b', ∃ oz', r = (OK, oz') ∧ b' = hold_zone oz' b ∧ cheapest_of b (seen ++ zs) oz') (hold_zone oz b).
Proof.
  induction zs as [|i zs IH]; intros seen oz Hnd Hin Hc; cbn [victim_loop].
  { wp_step. rewrite app_nil_r. eauto. }
  destruct (Hin i) as [z Hz]; [by left|]. replace (seen ++ i :: zs) with ((seen ++ [i]) ++ zs) in * by (by rewrite <-app_assoc).
  assert (∀ k, k ∈ zs → is_Some (io_zones b !! k)) as Hin' by (intros k Hk; apply Hin; by right).
  assert (oz ≠ Some i) as Hne.
  { intros ->. destruct Hc as (Hs & _). apply NoDup_app in Hnd as (Hnd & _).
    apply NoDup_app in Hnd as (_ & Hnd & _). apply (Hnd i); [done|by left]. }
  wp_step. apply (wp_acquire oz b i z); [done..| |]; intros Hbusy; cbv iota.
  { apply IH; [done..|]. eapply cheapest_skip; [done|done|]. unfold idle_partial. by rewrite Hbusy. }
  unfold zone_at. repeat wp_step. eapply wp_load; [by apply (hold_two_lookup i oz b z)|].
  assert (idle_partial z = negb (IsEmpty (z_set_busy true z) || IsFull (z_set_busy true z))) as Hp.
  { unfold idle_partial, partial_zone. rewrite Hbusy, negb_orb. done. }
  destruct (IsEmpty _ || IsFull _) eqn:Ez; cbn [negb] in Hp.
  { wp_step. apply (wp_release_new oz b i z); [done..|]. change (ok OK) with true. cbn [negb].
    apply IH; [done..|]. eapply cheapest_skip; [done|done|]. by rewrite Hp. }
  destruct oz as [j|].
  - pose proof Hc as (_ & zj & Hzj & Hpj & _). repeat wp_step.
    eapply wp_load; [apply (hold_two_old i j b zj); [done|by intros ->]|]. cbn [capacity_ z_set_busy].
    case_match eqn:Hlt; wp_step.
    + apply (wp_release_old i j b zj); [done|by intros ->| |].
      { unfold idle_partial in Hpj. by destruct (busy_ zj). }
      change (ok OK) with true. cbn [negb]. apply IH; [done..|]. eapply cheapest_take; [done..|].
      intros j' zj' [= <-] Hzj'. apply Z.ltb_lt in Hlt. simplify_eq. lia.
    + apply (wp_release_new (Some j) b i z); [done..|]. change (ok OK) with true. cbn [negb].
      apply IH; [done..|]. eapply cheapest_skip; [done|done|]. intros _. exists j, zj. split_and!; [done..|].
      apply Z.ltb_ge in Hlt. lia.
  - change (hold_two i None b) with (hold_zone (Some i) b). apply IH; [done..|]. by eapply cheapest_take.
Qed.

(** The zone [j] finished and its active token given back. *)
Definition finished (j : nat) (d : dev) b : ZonedBlockDevice :=
  set_tokens (active_io_zones_ b - 1) (open_io_zones_ b)
    (set_io_zones (alter (z_finish (zone_sz_ b)) j (io_zones b)) (set_device d b)).

Lemma wp_finish_held b j z (Q : IOStatus → ZonedBlockDevice → Prop) :
  io_zones b !! j = Some z → busy_ z = false →
  (∀ d, Q IOError (set_device d (hold_zone (Some j) b))) →
  (∀ d, Q OK (set_io_zones (alter (λ z, z_set_busy true (z_finish (zone_sz_ b) z)) j (io_zones b)) (set_device d b))) →
  wp (Zone_Finish (IoZone j)) Q (hold_zone (Some j) b).
Proof.
  intros Hz Hb Herr Hok. pose proof (hold_zone_self j b z Hz) as Hl. unfold Zone_Finish, zone_at. repeat wp_step; [done|].
  unfold dev_call. repeat wp_step.
  destruct (zbd_finish_zones _ _ _) as [done_ d]. repeat wp_step. destruct done_; cbn [negb].
  - unfold zone_upd, zone_at. repeat wp_step. specialize (Hok d). cbn [set_zone hold_zone set_device set_io_zones io_zones zone_sz_] in *.
    match goal with |- Q OK ?x => match type of Hok with Q OK ?y => replace x with y; [done|] end end.
    unfold set_io_zones, set_device. cbn. f_equal. apply list_eq. intros k. destruct (decide (j = k)) as [<-|].
    + rewrite list_lookup_insert_eq; [by rewrite list_lookup_alter_eq, Hz|].
      rewrite length_alter. by eapply lookup_lt_Some.
    + by rewrite list_lookup_insert_ne, !list_lookup_alter_ne by done.
  - wp_step. apply Herr.
Qed.

Lemma wp_release_finished b j z d (Q : IOStatus → ZonedBlockDevice → Prop) :
  io_zones b !! j = Some z → busy_ z = false →
  Q OK (set_io_zones (alter (z_finish (zone_sz_ b)) j (io_zones b)) (set_device d b)) →
  wp (CheckRelease (IoZone j)) Q
    (set_io_zones (alter (λ z, z_set_busy true (z_finish (zone_sz_ b) z)) j (io_zones b)) (set_device d b)).
Proof.
  intros Hz Hb HQ. unfold wp. erewrite run_CheckRelease; [|cbn; by rewrite list_lookup_alter_eq, Hz|done].
  cbn [set_zone io_zones set_io_zones].
  match goal with |- Q OK ?x => match type of HQ with Q OK ?y => replace x with y; [done|] end end.
  unfold set_io_zones, set_device. cbn. f_equal. apply list_eq. intros k. destruct (decide (j = k)) as [<-|].
  - rewrite list_lookup_alter_eq, Hz, list_lookup_insert_eq by (rewrite length_alter; by eapply lookup_lt_Some).
    cbn. destruct z; cbn in *. by subst.
  - by rewrite list_lookup_insert_ne, !list_lookup_alter_ne by done.
Qed.

Lemma idle_partial_busy z : idle_partial z = true → busy_ z = false.
Proof. unfold idle_partial. by destruct (busy_ z). Qed.

Lemma wp_FinishCheapestIOZone b :
  wp FinishCheapestIOZone
    (λ s b', (s = OK ∧ b' = b ∧ ∀ i z, io_zones b !! i = Some z → idle_partial z = false) ∨
             (∃ j z d, s = IOError ∧ b' = set_device d b ∧ io_zones b !! j = Some z ∧ idle_partial z = true) ∨
             (∃ j z d, s = OK ∧ b' = finished j d b ∧ io_zones b !! j = Some z ∧ idle_partial z = true)) b.
Proof.
  unfold FinishCheapestIOZone, io_indices. do 3 wp_step.
  eapply wp_mono; [apply (wp_victim_loop b _ [] None); [apply NoDup_seq|intros i; apply indices_in|]|].
  { intros i z Hi. by apply not_elem_of_nil in Hi. }
  intros r b' (oz & -> & -> & Hc). cbn [app] in Hc. cbv iota. change (ok OK) with true. cbn [negb].
  destruct oz as [j|].
  - destruct Hc as (Hj & z & Hz & Hp & _). pose proof (idle_partial_busy z Hp) as Hb. wp_step.
    apply (wp_finish_held b j z); [done..| |]; intros d; wp_step.
    + change (set_device d (hold_zone (Some j) b)) with (hold_zone (Some j) (set_device d b)).
      apply (wp_release_held j (set_device d b) z); [done..|]. change (ok IOError) with false. change (ok OK) with true.
      cbn [when negb]. repeat wp_step. right; left. eauto 8.
    + apply (wp_release_finished b j z d); [done..|]. change (ok OK) with true. cbn [when negb].
      unfold PutActiveIOZoneToken. repeat wp_step. right; right. exists j, z, d. done.
  - wp_step. left. split_and!; [done..|]. intros i z Hz. eapply Hc; [|done]. apply indices_in. eauto.
Qed.

(** ** The invariant *)

(** The tokens taken are those of the zones in use, and [ha] active and [ho] open ones more;
    they stay within the limits. *)
Record tokens (ha ho : Z) b : Prop := {
  tk_size : 0 < zone_sz_ b < 2 ^ 64;
  tk_start : ∀ i z, io_zones b !! i = Some z → 0 ≤ start_ z < 2 ^ 64;
  tk_used : ∀ i z, io_zones b !! i = Some z → 0 < used_capacity_ z → IsEmpty z = false;
  tk_active : active_io_zones_ b = countb active_zone (io_zones b) + ha ∧ active_io_zones_ b ≤ max_nr_active_io_zones_ b;
  tk_open : open_io_zones_ b = countb busy_ (io_zones b) + ho ∧ open_io_zones_ b ≤ max_nr_open_io_zones_ b
}.

(** A token is free, or a zone can be finished. *)
Definition progress b : Prop :=
  active_io_zones_ b < max_nr_active_io_zones_ b ∨ ∃ i z, io_zones b !! i = Some z ∧ idle_partial z = true.

Lemma tokens_device ha ho d b : tokens ha ho b → tokens ha ho (set_device d b).
Proof. by intros []. Qed.

Lemma countb_alter (f : Zone → bool) g i (l : list Zone) z :
  l !! i = Some z → countb f (alter g i l) = countb f l - (if f z then 1 else 0) + (if f (g z) then 1 else 0).
Proof. intros Hz. rewrite <-(alter_insert g l i z Hz). by apply countb_insert. Qed.

Lemma alter_lookup_Some (g : Zone → Zone) i (l : list Zone) k z :
  alter g i l !! k = Some z → ∃ z0, l !! k = Some z0 ∧ (z = z0 ∨ z = g z0).
Proof.
  destruct (decide (i = k)) as [<-|].
  - rewrite list_lookup_alter_eq. destruct (l !! i); [|done]. intros [= <-]. eauto.
  - rewrite list_lookup_alter_ne by done. eauto.
Qed.

Lemma finish_not_empty b z :
  0 < zone_sz_ b < 2 ^ 64 → 0 ≤ start_ z < 2 ^ 64 → IsEmpty (z_finish (zone_sz_ b) z) = false.
Proof.
  intros Hs Hz. unfold IsEmpty. cbn. apply Z.eqb_neq. unfold u64.
  destruct (decide (start_ z + zone_sz_ b < 2 ^ 64)); [rewrite Z.mod_small; lia|].
  replace (start_ z + zone_sz_ b) with (start_ z + zone_sz_ b - 2 ^ 64 + 1 * 2 ^ 64) by lia.
  rewrite Z.mod_add, Z.mod_small; lia.
Qed.

Lemma tokens_finished ha ho b j z d :
  tokens ha ho b → io_zones b !! j = Some z → idle_partial z = true →
  tokens ha ho (finished j d b) ∧ active_io_zones_ (finished j d b) < max_nr_active_io_zones_ (finished j d b).
Proof.
  intros [Hsz Hst Hus Ha Ho] Hz Hp. pose proof (idle_partial_busy z Hp) as Hb.
  assert (active_zone z = true) as Haz.
  { unfold active_zone. unfold idle_partial in Hp. apply andb_true_iff in Hp as [_ ->]. apply orb_true_r. }
  assert (active_zone (z_finish (zone_sz_ b) z) = false) as Hfz.
  { unfold active_zone, partial_zone, IsFull. cbn. rewrite Hb, andb_false_r. done. }
  split; [split|]; cbn [finished set_tokens set_io_zones set_device io_zones active_io_zones_ open_io_zones_ zone_sz_
    max_nr_active_io_zones_ max_nr_open_io_zones_]; [done|..].
  - intros i z' (z0 & Hz0 & [->| ->])%alter_lookup_Some; cbn; by eapply Hst.
  - intros i z' (z0 & Hz0 & [->| ->])%alter_lookup_Some; [by eapply Hus|]. intros _. apply finish_not_empty; [done|].
    by eapply Hst.
  - rewrite (countb_alter _ _ _ _ _ Hz), Haz, Hfz. lia.
  - rewrite (countb_alter _ _ _ _ _ Hz). cbn. rewrite Hb. lia.
  - lia.
Qed.

(** ** Steps of an allocation *)

Lemma wp_release_bool j b z (Q : bool → ZonedBlockDevice → Prop) :
  io_zones b !! j = Some z → busy_ z = false → Q true b → wp (Release (IoZone j)) Q (hold_zone (Some j) b).
Proof.
  intros Hz Hb HQ. pose proof (hold_zone_self j b z Hz) as Hl. unfold Release, zone_upd, zone_at. repeat wp_step.
  change (busy_ (z_set_busy true z)) with true. cbv iota. repeat wp_step. cbn [set_zone hold_zone io_zones set_io_zones].
  rewrite alter_twice_id by done. by destruct b.
Qed.

Lemma finish_zones_length j d b : length (io_zones (finished j d b)) = length (io_zones b).
Proof. cbn. by rewrite length_alter. Qed.

Lemma finish_zones_busy j d b : busy_ <$> io_zones (finished j d b) = busy_ <$> io_zones b.
Proof.
  apply list_eq. intros k. cbn. rewrite !list_lookup_fmap. destruct (decide (j = k)) as [<-|].
  - rewrite list_lookup_alter_eq. by destruct (io_zones b !! j).
  - by rewrite list_lookup_alter_ne.
Qed.

(** Finishing zones keeps the limits, the open tokens and who holds what. *)
Definition same_limits b b' : Prop :=
  max_nr_active_io_zones_ b' = max_nr_active_io_zones_ b ∧ max_nr_open_io_zones_ b' = max_nr_open_io_zones_ b ∧
  zone_deferred_status_ b' = zone_deferred_status_ b ∧ open_io_zones_ b' = open_io_zones_ b ∧
  busy_ <$> io_zones b' = busy_ <$> io_zones b.

Lemma wp_finish_threshold_loop ha ho zs : ∀ b,
  (∀ i, i ∈ zs → is_Some (io_zones b !! i)) → tokens ha ho b → progress b →
  wp (finish_threshold_loop zs)
    (λ s b', (s = OK ∨ s = IOError) ∧ tokens ha ho b' ∧ progress b' ∧ same_limits b b') b.
Proof.
  induction zs as [|i zs IH]; intros b Hin T P; cbn [finish_threshold_loop].
  { wp_step. split_and!; [by left|done..]. }
  destruct (Hin i) as [z Hz]; [by left|].
  assert (∀ k, k ∈ zs → is_Some (io_zones b !! k)) as Hin' by (intros k Hk; apply Hin; by right).
  wp_step. apply (wp_acquire None b i z); [done..| |]; intros Hbusy; cbv iota; [by apply IH|].
  change (hold_two i None b) with (hold_zone (Some i) b). unfold zone_at. repeat wp_step.
  eapply wp_load; [by apply hold_zone_self|]. repeat wp_step. cbn [capacity_ max_capacity_ z_set_busy].
  destruct (negb (IsEmpty _ || IsFull _) && _) eqn:Ez.
  - assert (idle_partial z = true) as Hp.
    { apply andb_true_iff in Ez as [Ez _]. rewrite negb_orb in Ez. unfold idle_partial, partial_zone. by rewrite Hbusy. }
    wp_step. apply (wp_finish_held b i z); [done..| |]; intros d; change (ok IOError) with false; change (ok OK) with true;
      cbn [negb].
    + wp_step. change (set_device d (hold_zone (Some i) b)) with (hold_zone (Some i) (set_device d b)).
      apply (wp_release_bool i (set_device d b) z); [done..|]. wp_step.
      split_and!; [by right|by apply tokens_device|done|done].
    + wp_step. apply (wp_release_finished b i z d); [done..|]. change (ok OK) with true. cbn [negb].
      unfold PutActiveIOZoneToken. repeat wp_step. change (set_tokens _ _ _) with (finished i d b).
      destruct (tokens_finished ha ho b i z d T Hz Hp) as [T' Hlt].
      eapply wp_mono; [apply IH; [|done|by left]|].
      * intros k Hk. apply lookup_lt_is_Some. rewrite finish_zones_length. apply lookup_lt_is_Some. by apply Hin'.
      * intros s b' (Hs & T2 & P2 & E1 & E2 & E3 & E4 & E5). rewrite finish_zones_busy in E5. done.
  - wp_step. apply (wp_release_held i b z); [done..|]. change (ok OK) with true. cbn [negb]. by apply IH.
Qed.

Lemma wp_ApplyFinishThreshold ha ho b :
  tokens ha ho b → progress b →
  wp ApplyFinishThreshold
    (λ s b', (s = OK ∨ s = IOError) ∧ tokens ha ho b' ∧ progress b' ∧ same_limits b b') b.
Proof.
  intros T P. unfold ApplyFinishThreshold, io_indices. repeat wp_step. case_match; repeat wp_step.
  - split_and!; [by left|done..].
  - apply wp_finish_threshold_loop; [intros i; apply indices_in|done|done].
Qed.

(** A token for a new zone: at most one zone has to be finished. *)
Lemma wp_token_loop ha ho b fuel :
  tokens ha ho b → progress b → (1 ≤ fuel)%nat →
  wp (token_loop fuel false)
    (λ s b', (s = OK ∧ tokens (ha + 1) ho b' ∨ s = IOError ∧ tokens ha ho b') ∧ same_limits b b') b.
Proof.
  intros T P Hf.
  assert (∀ n b1, tokens ha ho b1 → active_io_zones_ b1 < max_nr_active_io_zones_ b1 →
    wp (token_loop n false) (λ s b', s = OK ∧ tokens (ha + 1) ho b' ∧ same_limits b1 b') b1) as Hfree.
  { intros n b1 [Hsz Hst Hus Ha Ho] Hlt. unfold token_loop. destruct n; unfold GetActiveIOZoneTokenIfAvailable;
      repeat wp_step; rewrite (proj2 (Z.ltb_lt _ _) Hlt); repeat wp_step;
      (split_and!; [done| |done..]; split; cbn; try done; lia). }
  destruct (decide (active_io_zones_ b < max_nr_active_io_zones_ b)) as [Hlt|Hge].
  { eapply wp_mono; [by apply Hfree|]. intros s b' (-> & T' & Hs). split; [by left|done]. }
  destruct fuel as [|fuel]; [lia|]. cbn [token_loop]. unfold GetActiveIOZoneTokenIfAvailable. repeat wp_step.
  rewrite (proj2 (Z.ltb_ge _ _)) by lia. repeat wp_step. eapply wp_mono; [apply wp_FinishCheapestIOZone|].
  intros s b' [(-> & -> & Hno)|[(j & z & d & -> & -> & _)|(j & z & d & -> & -> & Hz & Hp)]].
  - destruct P as [?|(i & z & Hz & Hp)]; [lia|]. by rewrite (Hno i z Hz) in Hp.
  - change (ok IOError) with false. cbn [negb]. wp_step. split; [right; split; [done|by apply tokens_device]|done].
  - change (ok OK) with true. cbn [negb]. destruct (tokens_finished ha ho b j z d T Hz Hp) as [T' Hlt].
    eapply wp_mono; [by apply Hfree|]. intros s b' (-> & T2 & E1 & E2 & E3 & E4 & E5). split; [by left|].
    rewrite finish_zones_busy in E5. done.
Qed.

(** Without a token, and with no zone to finish, the loop goes on. *)
Lemma token_loop_stuck b fuel :
  max_nr_active_io_zones_ b ≤ active_io_zones_ b →
  (∀ i z, io_zones b !! i = Some z → idle_partial z = false) → token_loop fuel false b = Crash.
Proof.
  intros Hge Hno. pose proof (wp_FinishCheapestIOZone b) as Hfin. unfold wp in Hfin.
  destruct (FinishCheapestIOZone b) as [s b'|] eqn:Ef; [|done].
  assert (s = OK ∧ b' = b) as [-> ->].
  { destruct Hfin as [(-> & -> & _)|[(j & z & d & _ & _ & Hz & Hp)|(j & z & d & _ & _ & Hz & Hp)]]; [done|..];
      by rewrite (Hno j z Hz) in Hp. }
  assert (GetActiveIOZoneTokenIfAvailable b = Done false b) as Hg.
  { unfold GetActiveIOZoneTokenIfAvailable, bind, get. by rewrite (proj2 (Z.ltb_ge _ _)). }
  induction fuel as [|fuel IH]; cbn [token_loop]; unfold bind; rewrite Hg; [done|]. rewrite Ef. exact IH.
Qed.

(** The lists of busy flags with zone [i] taken. *)
Definition taken b b' (i : nat) : Prop :=
  ∃ z, io_zones b' !! i = Some z ∧ busy_ z = true ∧ (IsEmpty z = true ∨ 0 < used_capacity_ z ∧ IsFull z = false) ∧
    (busy_ <$> io_zones b) !! i = Some false ∧ busy_ <$> io_zones b' = <[i := true]> (busy_ <$> io_zones b).

Lemma hold_zone_busy b i z :
  io_zones b !! i = Some z → busy_ <$> io_zones (hold_zone (Some i) b) = <[i := true]> (busy_ <$> io_zones b).
Proof.
  intros Hz. apply list_eq. intros k. cbn. rewrite list_lookup_fmap. destruct (decide (i = k)) as [<-|].
  - rewrite list_lookup_alter_eq, Hz, list_lookup_insert_eq; [done|]. rewrite length_fmap. by eapply lookup_lt_Some.
  - by rewrite list_lookup_alter_ne, list_lookup_insert_ne, list_lookup_fmap by done.
Qed.

Lemma taken_hold b b1 i z :
  busy_ <$> io_zones b1 = busy_ <$> io_zones b → io_zones b1 !! i = Some z → busy_ z = false →
  (IsEmpty z = true ∨ 0 < used_capacity_ z ∧ IsFull z = false) → taken b (hold_zone (Some i) b1) i.
Proof.
  intros E Hz Hb Hor. exists (z_set_busy true z). split_and!; [by apply hold_zone_self|done|done| |].
  - by rewrite <-E, list_lookup_fmap, Hz; cbn; rewrite Hb.
  - by rewrite (hold_zone_busy _ _ _ Hz), E.
Qed.

Lemma tokens_hold ha ho b i z :
  tokens ha ho b → io_zones b !! i = Some z → busy_ z = false →
  tokens (ha - (if active_zone z then 0 else 1)) (ho - 1) (hold_zone (Some i) b).
Proof.
  intros [Hsz Hst Hus Ha Ho] Hz Hb. split; cbn [hold_zone set_io_zones io_zones active_io_zones_ open_io_zones_ zone_sz_
    max_nr_active_io_zones_ max_nr_open_io_zones_]; [done|..].
  - intros k z' (z0 & Hz0 & [->| ->])%alter_lookup_Some; cbn; by eapply Hst.
  - intros k z' (z0 & Hz0 & [->| ->])%alter_lookup_Some; exact (Hus k z0 Hz0).
  - rewrite (countb_alter _ _ _ _ _ Hz). change (active_zone (z_set_busy true z)) with true. destruct (active_zone z); lia.
  - rewrite (countb_alter _ _ _ _ _ Hz), Hb. cbn. lia.
Qed.

Lemma candidate_active b mc z i ha ho :
  tokens ha ho b → io_zones b !! i = Some z → candidate mc z = true →
  busy_ z = false ∧ active_zone z = true ∧ 0 < used_capacity_ z ∧ IsFull z = false.
Proof.
  intros T Hz Hc. unfold candidate in Hc. apply andb_true_iff in Hc as [Hb Hc]. apply andb_true_iff in Hc as [Hc _].
  apply andb_true_iff in Hc as [Hu Hf]. apply negb_true_iff in Hb, Hf. apply Z.ltb_lt in Hu. split_and!; try done.
  unfold active_zone, partial_zone. by rewrite Hb, Hf, (tk_used _ _ _ T i z Hz Hu).
Qed.

(** The lifetime of a zone matters to none of this. *)
Lemma tokens_lifetime ha ho lt b i :
  tokens ha ho b → tokens ha ho (set_io_zones (alter (z_set_lifetime lt) i (io_zones b)) b).
Proof.
  intros [Hsz Hst Hus Ha Ho].
  assert (∀ f : Zone → bool, (∀ z, f (z_set_lifetime lt z) = f z) →
    countb f (alter (z_set_lifetime lt) i (io_zones b)) = countb f (io_zones b)) as Hc.
  { intros f Hf. destruct (io_zones b !! i) as [z|] eqn:Hz.
    - rewrite (countb_alter _ _ _ _ _ Hz), Hf. lia.
    - f_equal. apply list_eq. intros k. destruct (decide (i = k)) as [<-|]; [|by rewrite list_lookup_alter_ne].
      by rewrite list_lookup_alter_eq, Hz. }
  split; cbn; rewrite ?Hc by done; try done.
  - intros k z' (z0 & Hz0 & [->| ->])%alter_lookup_Some; exact (Hst k z0 Hz0).
  - intros k z' (z0 & Hz0 & [->| ->])%alter_lookup_Some; exact (Hus k z0 Hz0).
Qed.

Lemma taken_lifetime lt b0 b i :
  taken b0 b i → taken b0 (set_io_zones (alter (z_set_lifetime lt) i (io_zones b)) b) i.
Proof.
  intros (z & Hz & Hb & Hor & Hf & Hl). exists (z_set_lifetime lt z). cbn.
  split_and!; [by rewrite list_lookup_alter_eq, Hz|done|done|done|]. rewrite <-Hl. apply list_eq. intros k.
  rewrite !list_lookup_fmap. destruct (decide (i = k)) as [<-|]; [|by rewrite list_lookup_alter_ne].
  by rewrite list_lookup_alter_eq, Hz.
Qed.

(** Opening a new zone with the tokens for it. *)
Lemma wp_take_empty ha ho lt b0 b :
  tokens (ha + 1) (ho + 1) b → busy_ <$> io_zones b = busy_ <$> io_zones b0 →
  wp (take_empty lt)
    (λ r b', ∃ oz, r = (OK, oz) ∧ match oz with Some i => tokens ha ho b' ∧ taken b0 b' i | None => tokens ha (ho + 1) b' end) b.
Proof.
  intros T E. unfold take_empty. wp_step. eapply wp_mono; [apply wp_AllocateEmptyZone|].
  intros r b' (oz & -> & -> & Hoz). cbv iota. change (ok OK) with true. cbn [negb]. destruct oz as [i|].
  - destruct Hoz as (z & Hz & Hb & He).
    assert (active_zone z = false) as Ha by (unfold active_zone, partial_zone; by rewrite Hb, He).
    pose proof (tokens_hold _ _ b i z T Hz Hb) as T'. rewrite Ha, !Z.add_simpl_r in T'.
    pose proof (hold_zone_self i b z Hz) as Hl. unfold zone_upd, zone_at. repeat wp_step; [done|].
    eexists. split; [done|]. cbn [set_zone]. rewrite (alter_insert (z_set_lifetime lt) _ _ _ Hl).
    split; [|apply taken_lifetime, (taken_hold b0 b i z); [done..|by left]]. by apply tokens_lifetime.
  - unfold PutActiveIOZoneToken. repeat wp_step. eexists. split; [done|].
    destruct T. split; cbn; try done; lia.
Qed.

Definition new_zone_post (ha ho : Z) b0 (r : IOStatus * option nat) b' : Prop :=
  match r with
  | (s, Some i) => s = OK ∧ tokens ha ho b' ∧ taken b0 b' i
  | (s, None) => (s = OK ∧ tokens ha (ho + 1) b') ∨ (s = IOError ∧ tokens ha ho b')
  end.

(** The steps after no zone was kept. *)
Lemma wp_new_zone ha ho lt b0 b (got : bool) :
  tokens (ha + if got then 1 else 0) (ho + 1) b → (got = false → progress b) → busy_ <$> io_zones b = busy_ <$> io_zones b0 →
  wp (zones <- io_indices ;;
      s <- token_loop (S (length zones)) got ;;
      if negb (ok s) then PutOpenIOZoneToken ;; ret (s, None) else take_empty lt) (new_zone_post ha ho b0) b.
Proof.
  intros T P E. unfold io_indices. do 3 wp_step.
  apply (wp_mono _ (λ s b', (s = OK ∧ tokens (ha + 1) (ho + 1) b' ∨ s = IOError ∧ tokens ha (ho + 1) b') ∧ same_limits b b')).
  { destruct got; [|rewrite Z.add_0_r in T; by apply wp_token_loop; [|apply P|lia]]. unfold token_loop. wp_step. split; [by left|done]. }
  intros s b' ([[-> T']|[-> T']] & _ & _ & _ & _ & E').
  - change (ok OK) with true. cbn [negb]. eapply wp_mono; [apply (wp_take_empty ha ho lt b0); [done|congruence]|].
    intros r b2 (oz & -> & Hoz). destruct oz; [done|]. by left.
  - change (ok IOError) with false. cbn [negb]. unfold PutOpenIOZoneToken. repeat wp_step. right. split; [done|].
    destruct T'. split; cbn; try done; lia.
Qed.

(** The branch for a zone that does not match well. *)
Lemma wp_open_new ha ho lt b0 b d oz :
  tokens ha (ho + 1) b → progress b → busy_ <$> io_zones b = busy_ <$> io_zones b0 →
  best_of b lt 0 (seq 0 (length (io_zones b))) d oz →
  wp (open_new lt d oz) (new_zone_post ha ho b0) (hold_zone oz b).
Proof.
  intros T P E Hb. unfold open_new. wp_step.
  set (got := active_io_zones_ b <? max_nr_active_io_zones_ b).
  set (b1 := if got then set_tokens (active_io_zones_ b + 1) (open_io_zones_ b) b else b).
  assert (tokens (ha + if got then 1 else 0) (ho + 1) b1) as T1.
  { subst b1 got. destruct (_ <? _) eqn:Hlt; [|by rewrite Z.add_0_r]. apply Z.ltb_lt in Hlt. destruct T. split; cbn; try done; lia. }
  assert (io_zones b1 = io_zones b) as Ez by (subst b1; by destruct got).
  assert (got = false → progress b1) as P1 by (subst b1; by intros ->).
  apply (wp_mono _ (λ g b', g = got ∧ b' = hold_zone oz b1)).
  { unfold GetActiveIOZoneTokenIfAvailable. repeat wp_step. subst b1 got. destruct oz; cbn; (destruct (_ <? _); by repeat wp_step). }
  intros g b' [-> ->]. wp_step. assert (busy_ <$> io_zones b1 = busy_ <$> io_zones b0) as E1 by congruence.
  destruct oz as [i|]; [|wp_step; by apply wp_new_zone].
  destruct Hb as (_ & _ & _ & z & Hz & Hc & _). rewrite <-Ez in Hz.
  destruct (candidate_active b1 0 z i _ _ T1 Hz Hc) as (Hbz & Haz & Hu & Hf).
  destruct (negb got && _) eqn:Hk.
  - wp_step. change (wp (ret (OK, Some i)) (new_zone_post ha ho b0) (hold_zone (Some i) b1)). wp_step.
    split_and!; [done| |apply (taken_hold b0 b1 i z); [done..|by right]]. destruct got; [done|].
    pose proof (tokens_hold _ _ b1 i z T1 Hz Hbz) as T2. by rewrite Haz, Z.add_0_r, Z.sub_0_r, Z.add_simpl_r in T2.
  - wp_step. apply (wp_release_held i b1 z); [done..|]. change (ok OK) with true. cbn [negb]. wp_step.
    by apply wp_new_zone.
Qed.

(** ** Allocation *)

Definition open_limit b (io_type : IOType) : Z :=
  match io_type with kWAL => max_nr_open_io_zones_ b | kUnknown => max_nr_open_io_zones_ b - 1 end.

Lemma wp_AllocateIOZone ha ho lt io_type b :
  tokens ha ho b → progress b → lt ≤ WLTH_EXTREME → max_nr_open_io_zones_ b < 2 ^ 32 →
  0 ≤ open_io_zones_ b < open_limit b io_type →
  wp (AllocateIOZone lt io_type)
    (λ r b', tokens ha ho b' ∧ match r.2 with Some i => r.1 = OK ∧ taken b b' i | None => True end) b.
Proof.
  intros T P Hlt Hmax Hopen. unfold AllocateIOZone. cbv zeta. unfold GetZoneDeferredStatus. repeat wp_step.
  case_match; [by wp_step|]. wp_step.
  set (wal := match io_type with kWAL => true | kUnknown => false end).
  apply (wp_mono _ (λ s b', (s = OK ∨ s = IOError) ∧ tokens ha ho b' ∧ progress b' ∧ same_limits b b')).
  { destruct wal; cbn [negb]; [|by apply wp_ApplyFinishThreshold]. wp_step. split_and!; [by left|done..]. }
  intros s b1 (Hs & T1 & P1 & Ea & Eo & _ & Eop & Eb). destruct Hs as [->| ->];
    [|change (ok IOError) with false; cbn [negb]; by wp_step].
  change (ok OK) with true. cbn [negb]. wp_step.
  set (b2 := set_tokens (active_io_zones_ b1) (open_io_zones_ b1 + 1) b1).
  assert (open_io_zones_ b1 + 1 ≤ max_nr_open_io_zones_ b1) as Hle.
  { unfold open_limit in Hopen. rewrite Eo, Eop. destruct io_type; lia. }
  apply (wp_mono _ (λ _ b', b' = b2)).
  { unfold WaitForOpenIOZoneToken. repeat wp_step; [|done]. apply Z.ltb_lt. rewrite Eop, Eo. subst wal.
    unfold open_limit in Hopen. destruct io_type; [lia|]. rewrite u32_small; lia. }
  intros [] b' ->. assert (tokens ha (ho + 1) b2) as T2 by (destruct T1; split; cbn; try done; lia).
  wp_step. eapply wp_mono; [by apply (wp_GetBestOpenZoneMatch lt 0 b2)|]. intros r b' (d & oz & -> & -> & Hbest).
  cbv iota. change (ok OK) with true. cbn [negb]. wp_step.
  apply (wp_mono _ (new_zone_post ha ho b)).
  { case_match eqn:Hd; [by apply wp_open_new|]. wp_step. apply Z.leb_gt in Hd.
    destruct oz as [i|]; [|by destruct Hbest as (_ & _ & ->)].
    destruct Hbest as (_ & _ & _ & z & Hz & Hc & _). destruct (candidate_active b2 0 z i _ _ T2 Hz Hc) as (Hbz & Haz & Hu & Hf).
    split_and!; [done| |apply (taken_hold b b2 i z); [done..|by right]].
    pose proof (tokens_hold _ _ b2 i z T2 Hz Hbz) as T3. by rewrite Haz, Z.sub_0_r, Z.add_simpl_r in T3. }
  intros [s oz'] b3 Hpost. cbv iota beta. destruct oz' as [i|].
  - destruct Hpost as (-> & T3 & Ht). change (ok OK) with true. cbn [negb]. pose proof Ht as (z & Hz & Hbz & _).
    unfold zone_at. by repeat wp_step.
  - destruct Hpost as [[-> T3]|[-> T3]].
    + change (ok OK) with true. cbn [negb]. unfold PutOpenIOZoneToken. repeat wp_step. split; [|done].
      destruct T3. split; cbn; try done; lia.
    + change (ok IOError) with false. cbn [negb]. by wp_step.
Qed.
End alloc.
