(* ===== verification/ZenOpen.v ===== *)
(** * ZenFS: opening a device

    [Open] on the report of a device gives the metadata zones and the data zones of it, and
    as many active tokens taken as zones are active, so that the invariant of the allocator
    holds to start with. *)

From stdpp Require Import base numbers option list gmap.
From S2P Require Import Prelude ZenCoding ZenTypes ZenZbd ZenFile ZenMount ZenAlloc.

(** The zones that can be used for data. *)
Definition usable (zz : zbd_zone) : bool := zz_swr zz && negb (zone_offline zz).
Definition data_zones (zs : list zbd_zone) : list Zone := new_Zone <$> filter usable zs.

(** A zone whose condition fits its write pointer: it is active if it is partly written. *)
Definition consistent (zz : zbd_zone) : Prop :=
  0 ≤ zz_start zz < 2 ^ 64 ∧ zone_is_active zz = partial_zone (new_Zone zz).

Section open.
Context {D : ZbdDev}.
Implicit Types (b : ZonedBlockDevice).

(** [b] with [z] as its last zone, [n] more active tokens, and its device [d]. *)
Definition with_last z (n : Z) (d : dev) b : ZonedBlockDevice :=
  set_tokens (active_io_zones_ b + n) (open_io_zones_ b) (set_io_zones (io_zones b ++ [z]) (set_device d b)).

Lemma last_lookup z n d b : zone_of (IoZone (length (io_zones b))) (with_last z n d b) = Some z.
Proof. cbn. by rewrite lookup_app_r, Nat.sub_diag. Qed.

Lemma set_last z z' n d b : set_zone (IoZone (length (io_zones b))) z' (with_last z n d b) = with_last z' n d b.
Proof. cbn. unfold with_last. by rewrite <-(Nat.add_0_r (length _)), insert_app_r. Qed.

Lemma wp_close_last z n d b :
  busy_ z = true →
  wp (Zone_Close (IoZone (length (io_zones b)))) (λ _ b', ∃ d', b' = with_last z n d' b) (with_last z n d b).
Proof.
  intros Hz. unfold Zone_Close, zone_at, dev_call. repeat wp_step. eapply wp_load; [apply last_lookup|].
  repeat wp_step; [done|]. case_match; repeat wp_step; [|by exists d].
  destruct (zbd_close_zones _ _ _) as [done d'] eqn:E. repeat wp_step. case_match; wp_step; by exists d'.
Qed.

Lemma wp_open_io_zone readonly zz b :
  wp (open_io_zone readonly zz)
    (λ st b', st = OK ∧ ∃ d, b' = with_last (new_Zone zz) (if zone_is_active zz then 1 else 0) d b) b.
Proof.
  set (z := new_Zone zz). unfold open_io_zone. do 4 wp_step. fold z.
  assert (set_io_zones (io_zones b ++ [z]) b = with_last z 0 (device b) b) as ->.
  { unfold with_last. rewrite Z.add_0_r. by destruct b. }
  wp_step. apply (wp_mono _ (λ got b', got = true ∧ b' = with_last (z_set_busy true z) 0 (device b) b)).
  { unfold Acquire, zone_upd, zone_at. repeat wp_step. eapply wp_load; [apply last_lookup|]. cbn [busy_ new_Zone z].
    repeat wp_step. eapply wp_load; [apply last_lookup|]. repeat wp_step. by rewrite set_last. }
  intros got b1 [-> ->]. wp_step. wp_step; [done|]. wp_step.
  apply (wp_mono _ (λ _ b', ∃ d, b' = with_last (z_set_busy true z) (if zone_is_active zz then 1 else 0) d b)).
  { destruct (zone_is_active zz); cbn [when]; [|wp_step; by exists (device b)]. wp_step. wp_step.
    assert (∀ d, set_tokens (active_io_zones_ (with_last (z_set_busy true z) 0 d b) + 1)
      (open_io_zones_ (with_last (z_set_busy true z) 0 d b)) (with_last (z_set_busy true z) 0 d b) =
      with_last (z_set_busy true z) 1 d b) as -> by (intros d; unfold with_last; cbn; by rewrite Z.add_0_r).
    destruct (_ && _); cbn [when]; [|wp_step; by exists (device b)]. wp_step.
    eapply wp_mono; [by apply wp_close_last|]. intros _ b2 [d ->]. wp_step. by exists d. }
  intros [] b1 [d ->]. unfold CheckRelease, Release, zone_upd, zone_at. repeat wp_step.
  eapply wp_load; [apply last_lookup|]. cbn [busy_ z_set_busy]. repeat wp_step.
  eapply wp_load; [apply last_lookup|]. repeat wp_step. rewrite set_last. split; [done|]. exists d. by destruct zz.
Qed.

Lemma wp_open_io_zones readonly zs : ∀ b,
  wp (open_io_zones readonly zs)
    (λ st b', st = OK ∧ ∃ d, b' = set_tokens (active_io_zones_ b + countb zone_is_active (filter usable zs)) (open_io_zones_ b)
       (set_io_zones (io_zones b ++ data_zones zs) (set_device d b))) b.
Proof.
  induction zs as [|zz zs IH]; intros b; cbn [open_io_zones].
  { wp_step. split; [done|]. exists (device b). cbn. rewrite Z.add_0_r, app_nil_r. by destruct b. }
  fold (usable zz). unfold data_zones. rewrite filter_cons. destruct (usable zz) eqn:Hu.
  - rewrite decide_True by done. wp_step. eapply wp_mono; [apply wp_open_io_zone|]. intros st b1 [-> [d ->]].
    change (ok OK) with true. cbn [negb]. eapply wp_mono; [apply IH|]. intros st b2 [-> [d' ->]]. split; [done|]. exists d'.
    unfold with_last, data_zones. cbn. by rewrite <-app_assoc, Z.add_assoc.
  - rewrite decide_False by (by intros []). apply IH.
Qed.

(** ** Opening *)

(** The calls of [Open] on the device succeed, and report the zones [zs]. *)
Definition opens (readonly : bool) (e : open_env) (info : zbd_info) (zs : list zbd_zone) : Prop :=
  oe_read e = Some info ∧ oe_read_direct e = true ∧ (readonly = true ∨ oe_write e = true) ∧ oe_scheduler e = OK ∧
  oe_zones e = Some zs ∧ zi_host_managed info = true ∧ ZENFS_MIN_ZONES ≤ zi_nr_zones info ∧
  Z.of_nat (length zs) = zi_nr_zones info.

(** The device object that [Open] makes of the report: the first three sequential zones are
    for metadata. *)
Definition opened_device (info : zbd_info) (zs : list zbd_zone) (d : dev) b : ZonedBlockDevice :=
  let '(ms, rest) := take_meta (Z.to_nat ZENFS_META_ZONES) zs in
  mk_zbd (zi_pblock_size info) (zi_zone_size info) (zi_nr_zones info) (data_zones rest) ms (finish_threshold_ b)
    (countb zone_is_active (filter usable rest)) 0 (zone_deferred_status_ b) (migrating_ b)
    (zone_limit (zi_max_nr_active_zones info) (zi_nr_zones info)) (zone_limit (zi_max_nr_open_zones info) (zi_nr_zones info)) d.

Lemma wp_Open readonly e info zs b :
  opens readonly e info zs → io_zones b = [] → meta_zones b = [] →
  wp (Open readonly true e) (λ st b', st = OK ∧ ∃ d, b' = opened_device info zs d b) b.
Proof.
  intros (Hr & Hd & Hw & Hs & Hz & Hm & Hn & Hl) Hio Hmeta. unfold Open, opened_device. rewrite andb_false_r, Hr, Hd, Hm, Hs, Hz.
  assert (negb readonly && negb (oe_write e) = false) as -> by (by destruct Hw as [->| ->]; rewrite ?andb_false_r).
  rewrite (proj2 (Z.ltb_ge _ _)), Hl, Z.eqb_refl by done. cbn [negb]. change (status_eq OK OK) with true. cbn [negb].
  repeat wp_step. destruct (take_meta _ zs) as [ms rest]. repeat wp_step. eapply wp_mono; [apply wp_open_io_zones|].
  intros st b' [-> [d ->]]. split; [done|]. exists d. cbn. by rewrite Hio, Hmeta.
Qed.

Lemma take_meta_suffix m zs : ∃ pre, zs = pre ++ (take_meta m zs).2.
Proof.
  revert m. induction zs as [|z zs IH]; intros [|m]; cbn [take_meta]; try (by exists []). destruct (zz_swr z).
  - destruct (IH m) as [pre E]. destruct (take_meta m zs) as [ms rest]. exists (z :: pre). cbn in *. by rewrite E.
  - destruct (IH (S m)) as [pre E]. exists (z :: pre). cbn [app]. by f_equal.
Qed.

Lemma data_zones_in zs i z :
  data_zones zs !! i = Some z → ∃ zz, zz ∈ zs ∧ z = new_Zone zz.
Proof.
  intros (zz & -> & Hi)%list_lookup_fmap_Some. exists zz. split; [|done].
  apply list_elem_of_lookup_2, list_elem_of_filter in Hi. apply Hi.
Qed.

(** The conditions of the zones agree with what the allocator takes to be active. *)
Lemma active_data_zones zs :
  Forall consistent zs → countb active_zone (data_zones zs) = countb zone_is_active (filter usable zs).
Proof.
  intros Hc. unfold data_zones. induction Hc as [|zz zs [_ Hz] _ IH]; [done|]. rewrite filter_cons. case_decide; [|done].
  rewrite fmap_cons. cbn [countb]. rewrite IH, Hz. done.
Qed.

Lemma idle_data_zones zs : countb busy_ (data_zones zs) = 0.
Proof. unfold data_zones. induction (filter usable zs) as [|zz l IH]; [done|]. rewrite fmap_cons. cbn [countb]. by rewrite IH. Qed.

Lemma opened_tokens info zs d b :
  let b' := opened_device info zs d b in
  Forall consistent zs → 0 < zi_zone_size info < 2 ^ 64 →
  active_io_zones_ b' ≤ max_nr_active_io_zones_ b' → 0 ≤ max_nr_open_io_zones_ b' → tokens 0 0 b'.
Proof.
  intros b' Hc Hsz. unfold b', opened_device. destruct (take_meta_suffix (Z.to_nat ZENFS_META_ZONES) zs) as [pre E].
  destruct (take_meta _ zs) as [ms rest]. cbn in *. intros Hmax Hopen. rewrite E in Hc. apply Forall_app in Hc as [_ Hc].
  split; cbn.
  - done.
  - intros i z (zz & Hzz & ->)%data_zones_in. rewrite Forall_forall in Hc. apply (Hc zz Hzz).
  - intros i z (zz & Hzz & ->)%data_zones_in. cbn. lia.
  - rewrite (active_data_zones rest Hc), Z.add_0_r. done.
  - by rewrite idle_data_zones.
Qed.
End open.
