(* ===== verification/ZenRead.v ===== *)
(** * ZenFS: what a read returns

    The contents of a file are the bytes of its extents, one after the other;
    [PositionedRead] returns the part of them that is asked for. *)

From stdpp Require Import base numbers option list gmap.
From S2P Require Import Prelude ZenCoding ZenTypes ZenZbd ZenFile ZenIo ZenLogSpec.

Section read.
Context {D : ZbdDev} {DOk : ZbdDevOk D}.
Implicit Types (b : ZonedBlockDevice) (d : dev) (es : list ZoneExtent) (f : ZoneFile).

Definition dev_bytes d (a n : Z) : slice := (λ i, byte_at d (a + Z.of_nat i)) <$> seq 0 (Z.to_nat n).
Definition contents d es : slice := concat ((λ e, dev_bytes d (e_start e) (e_length e)) <$> es).

Definition extents_ok es : Prop :=
  Forall (λ e, 0 ≤ e_start e ∧ 0 ≤ e_length e ∧ e_start e + e_length e < 2 ^ 64) es.
Definition total es : Z := foldr (λ e n, e_length e + n) 0 es.

Lemma dev_bytes_lookup d a n i : (i < Z.to_nat n)%nat → dev_bytes d a n !! i = Some (byte_at d (a + Z.of_nat i)).
Proof. intros Hi. unfold dev_bytes. by rewrite list_lookup_fmap, lookup_seq_lt. Qed.

Lemma size_dev_bytes d a n : 0 ≤ n → size (dev_bytes d a n) = n.
Proof. intros Hn. unfold size, dev_bytes. rewrite length_fmap, length_seq. lia. Qed.

Lemma contents_cons d e es : contents d (e :: es) = dev_bytes d (e_start e) (e_length e) ++ contents d es.
Proof. done. Qed.

Lemma size_contents d es : extents_ok es → size (contents d es) = total es.
Proof.
  induction 1 as [|e es (_ & Hl & _) _ IH]; [done|]. rewrite contents_cons, size_app, size_dev_bytes, IH by done. done.
Qed.

Lemma total_nonneg es : extents_ok es → 0 ≤ total es.
Proof. induction 1 as [|e es (_ & Hl & _) _ IH]; cbn [total foldr] in *; [lia|]. unfold total in *. lia. Qed.

Lemma length_dev_bytes d a n : length (dev_bytes d a n) = Z.to_nat n.
Proof. unfold dev_bytes. by rewrite length_fmap, length_seq. Qed.

Lemma contents_app d es es' : contents d (es ++ es') = contents d es ++ contents d es'.
Proof. unfold contents. by rewrite fmap_app, concat_app. Qed.

Lemma total_app es es' : total (es ++ es') = total es + total es'.
Proof. induction es as [|e es IH]; [done|]. unfold total in *. cbn [app foldr]. lia. Qed.

(** Position [pos] of the file is at [r_off] on the device, in an extent that ends at
    [extent_end]. *)
Definition located es (pos r_off extent_end : Z) : Prop :=
  ∃ es1 e es2, es = es1 ++ e :: es2 ∧ pos = total es1 + (r_off - e_start e) ∧ extent_end = e_start e + e_length e ∧
    e_start e ≤ r_off < extent_end.

Lemma located_contents es pos r_off extent_end d k :
  extents_ok es → located es pos r_off extent_end → 0 ≤ k → r_off + k < extent_end →
  contents d es !! Z.to_nat (pos + k) = Some (byte_at d (r_off + k)).
Proof.
  intros Hok (es1 & e & es2 & -> & -> & -> & Hr) Hk Hlt. apply Forall_app in Hok as [Hok1 Hok2].
  apply Forall_cons in Hok2 as [(Hs & Hl & Hm) _]. pose proof (total_nonneg es1 Hok1).
  pose proof (size_contents d es1 Hok1) as Hsz. unfold size in Hsz.
  rewrite contents_app, contents_cons, lookup_app_r by lia.
  rewrite lookup_app_l, dev_bytes_lookup; [|rewrite ?length_dev_bytes; lia..]. do 2 f_equal. lia.
Qed.

Lemma located_bounds es pos r_off extent_end :
  extents_ok es → located es pos r_off extent_end → 0 ≤ r_off < extent_end ∧ extent_end < 2 ^ 64.
Proof.
  intros Hok (es1 & e & es2 & -> & -> & -> & Hr). apply Forall_app in Hok as [_ Hok].
  apply Forall_cons in Hok as [(Hs & Hl & Hm) _]. lia.
Qed.

Lemma located_move es pos r_off extent_end k :
  located es pos r_off extent_end → 0 ≤ k → r_off + k < extent_end → located es (pos + k) (r_off + k) extent_end.
Proof.
  intros (es1 & e & es2 & -> & -> & -> & Hr) Hk Hlt. exists es1, e, es2. split_and!; [done|lia|done|lia..].
Qed.

Lemma get_extent_located es : ∀ pos,
  extents_ok es → 0 ≤ pos < total es →
  ∃ e r_off, get_extent es pos = Some (e, r_off) ∧ located es pos r_off (u64 (e_start e + e_length e)).
Proof.
  induction es as [|e es IH]; intros pos Hok Hpos; [unfold total in Hpos; cbn in Hpos; lia|].
  apply Forall_cons in Hok as [(Hs & Hl & Hm) Hes]. cbn [get_extent]. case_match eqn:E.
  - apply Z.ltb_lt in E. exists e, (e_start e + pos). rewrite !u64_small by lia. split; [done|].
    exists [], e, es. split_and!; [done|unfold total; cbn; lia|done|lia..].
  - apply Z.ltb_ge in E. destruct (IH (pos - e_length e)) as (e' & r_off & Hg & es1 & e2 & es2 & -> & Hp & He & Hr);
      [done|unfold total in *; cbn [foldr] in Hpos; lia|].
    exists e', r_off. split; [done|]. exists (e :: es1), e2, es2. split_and!; [done| |done|lia..].
    unfold total in *. cbn [foldr]. lia.
Qed.

(** At the end of an extent, the next one is read from its start. *)
Lemma get_extent_boundary es1 : ∀ es2,
  extents_ok (es1 ++ es2) → total es1 < total (es1 ++ es2) →
  ∃ e r_off, get_extent (es1 ++ es2) (total es1) = Some (e, r_off) ∧
    located (es1 ++ es2) (total es1) (e_start e) (u64 (e_start e + e_length e)).
Proof.
  induction es1 as [|e es1 IH]; intros es2 Hok Hlt.
  - cbn [app] in *. change (total []) with 0 in *. clear -Hok Hlt.
    induction es2 as [|e es2 IH]; [unfold total in Hlt; cbn in Hlt; lia|].
    apply Forall_cons in Hok as [(Hs & Hl & Hm) Hes]. cbn [get_extent]. case_match eqn:E.
    + apply Z.ltb_lt in E. exists e, (u64 (e_start e + 0)). split; [done|]. rewrite u64_small by lia.
      exists [], e, es2. split_and!; [done|unfold total; cbn; lia|done|lia..].
    + apply Z.ltb_ge in E. change (0 < e_length e + total es2) in Hlt.
      destruct IH as (e' & r_off & Hg & es1 & e2 & es3 & -> & Hp & He & Hr); [done|lia|].
      replace (0 - e_length e) with 0 by lia.
      exists e', r_off. split; [done|]. exists (e :: es1), e2, es3. split_and!; [done| |done|lia..].
      unfold total in *. cbn [foldr]. lia.
  - cbn [app] in *. apply Forall_cons in Hok as [(Hs & Hl & Hm) Hes]. cbn [get_extent].
    assert (total (e :: es1) = e_length e + total es1) as Et by done.
    assert (total (e :: es1 ++ es2) = e_length e + total (es1 ++ es2)) as Et' by done.
    assert (0 ≤ total es1) by (apply total_nonneg; by apply Forall_app in Hes as [? _]).
    rewrite (proj2 (Z.ltb_ge _ _)) by lia. replace (total (e :: es1) - e_length e) with (total es1) by lia.
    destruct (IH es2) as (e' & r_off & Hg & es3 & e2 & es4 & E & Hp & He & Hr); [done|lia|].
    exists e', r_off. split; [done|]. exists (e :: es3), e2, es4. rewrite E. split_and!; [done| |done|lia..].
    rewrite Et. unfold total in *. cbn [foldr]. lia.
Qed.

(** ** The loop *)

(** Bytes that follow those already read. *)
Lemma take_extend (C read got : slice) (o : nat) :
  read = take (length read) (drop o C) →
  (∀ i x, got !! i = Some x → C !! (o + length read + i)%nat = Some x) →
  read ++ got = take (length (read ++ got)) (drop o C).
Proof.
  intros Hr Hg. assert (got = take (length got) (drop (o + length read) C)) as Hgot.
  { apply list_eq. intros i. destruct (got !! i) as [x|] eqn:Hi.
    - rewrite lookup_take_lt by (by eapply lookup_lt_Some). by rewrite lookup_drop, (Hg i x Hi).
    - apply lookup_ge_None in Hi. symmetry. apply lookup_take_ge. lia. }
  rewrite length_app, <-take_take_drop, drop_drop, <-Hgot, <-Hr. done.
Qed.

(** One [pread], of [n] bytes and [pad] more. *)
Lemma wp_pread b r_off n pad :
  readable (device b) → 0 < n → 0 ≤ pad →
  wp (dev_call (pread r_off (n + pad)))
    (λ r b', ∃ got, r = Some got ∧ got ≠ [] ∧ after_reads b b' ∧
       ∀ i x, got !! i = Some x → x = byte_at (device b) (r_off + Z.of_nat i)) b.
Proof.
  intros Hr Hn Hp. unfold dev_call. repeat wp_step.
  destruct (pread_ok (device b) r_off (n + pad) Hr ltac:(lia)) as (data & d' & E & Hsz & Hd & Hr' & Hb & Hw).
  rewrite E. repeat wp_step. exists data. split_and!; [done|intros ->; unfold size in Hsz; cbn in Hsz; lia| |done]. exists d'. split; [done|]. by split_and!.
Qed.


Lemma pad_size_nonneg n bs : 0 < bs → 0 ≤ pad_size n bs.
Proof. intros Hbs. unfold pad_size. pose proof (Z.mod_pos_bound n bs Hbs). case_match; lia. Qed.

Lemma same_contents d d' es : dev_same d d' → contents d' es = contents d es.
Proof.
  intros (_ & Hb & _). unfold contents, dev_bytes. f_equal. apply list_fmap_ext. intros i e _.
  apply list_fmap_ext. intros j k _. apply Hb.
Qed.

(** Sizes of one step. *)
Lemma step_size left r_off extent_end :
  0 < left → 0 ≤ r_off < extent_end → left + extent_end < 2 ^ 64 →
  (if extent_end <? u64 (left + r_off) then u64 (extent_end - r_off) else left) = Z.min left (extent_end - r_off).
Proof. intros H1 H2 H3. rewrite !u64_small by lia. case_match eqn:E; [apply Z.ltb_lt in E|apply Z.ltb_ge in E]; lia. Qed.

Lemma size_take n (l : slice) : 0 ≤ n → size (take (Z.to_nat n) l) = Z.min n (size l).
Proof. intros Hn. unfold size. rewrite length_take. lia. Qed.

(** Where the loop is after some bytes: the file was read up to there, and the position
    on the device is the next one of the file, unless all is read. *)
Lemma located_next es pos r_off extent_end k :
  extents_ok es → located es pos r_off extent_end → 0 < k → r_off + k = extent_end → pos + k < total es →
  ∃ e r_off', get_extent es (pos + k) = Some (e, r_off') ∧
    located es (pos + k) (e_start e) (u64 (e_start e + e_length e)).
Proof.
  intros Hok (es1 & e & es2 & -> & -> & -> & Hr) Hk Hend Hlt.
  replace (es1 ++ e :: es2) with ((es1 ++ [e]) ++ es2) in * by (by rewrite <-app_assoc).
  assert (total (es1 ++ [e]) = total es1 + e_length e) as Et by (rewrite total_app; unfold total; cbn; lia).
  replace (total es1 + (r_off - e_start e) + k) with (total (es1 ++ [e])) in * by lia.
  by apply get_extent_boundary.
Qed.

Definition addresses_ok es : Prop := Forall (λ e, e_start e + e_length e + total es < 2 ^ 64) es.

Lemma located_room es pos r_off extent_end :
  addresses_ok es → located es pos r_off extent_end → extent_end + total es < 2 ^ 64.
Proof.
  intros Ha (es1 & e & es2 & -> & _ & -> & _). unfold addresses_ok in Ha. rewrite Forall_forall in Ha.
  apply (Ha e). apply elem_of_app. right. by left.
Qed.

Lemma wp_pread_loop f direct offset r_sz fuel : ∀ b read r_off extent_end,
  extents_ok (extents_ f) → addresses_ok (extents_ f) → 0 < block_sz_ b → readable (device b) →
  0 ≤ offset → offset + r_sz ≤ total (extents_ f) → size read < r_sz → r_sz - size read ≤ Z.of_nat fuel →
  read = take (length read) (drop (Z.to_nat offset) (contents (device b) (extents_ f))) →
  located (extents_ f) (offset + size read) r_off extent_end →
  wp (pread_loop fuel f direct offset r_sz r_off extent_end read)
    (λ r b', r = (false, take (Z.to_nat r_sz) (drop (Z.to_nat offset) (contents (device b) (extents_ f)))) ∧
             after_reads b b') b.
Proof.
  induction fuel as [|fuel IH]; intros b read r_off extent_end Hok Had Hbs Hrd Ho Ht Hlt Hf Hread Hloc; [lia|].
  pose proof (located_bounds _ _ _ _ Hok Hloc) as [Hro Hee]. pose proof (located_room _ _ _ _ Had Hloc) as Hroom.
  pose proof (size_nonneg read). cbn [pread_loop]. rewrite (proj2 (Z.eqb_neq _ _)) by lia. do 3 wp_step.
  rewrite step_size by lia. set (n := Z.min (r_sz - size read) (extent_end - r_off)).
  eapply wp_mono; [apply (wp_pread b r_off n); [done|lia|destruct direct; [by apply pad_size_nonneg|done]]|].
  intros r b' (got & -> & Hne & Hb' & Hgot). destruct got as [|x got]; [done|]. set (g := x :: got) in *. cbv zeta.
  set (g' := take (Z.to_nat n) g). set (read' := read ++ g').
  assert (0 < size g' ≤ n) as Hg'.
  { unfold g'. rewrite size_take by lia. assert (0 < size g) by (unfold size, g; cbn; lia). lia. }
  assert (size read' = size read + size g') as Hsz by apply size_app.
  pose proof Hb' as (d' & -> & Hsame). set (C := contents (device b) (extents_ f)) in *.
  assert (contents (device (set_device d' b)) (extents_ f) = C) as HC by (by apply same_contents).
  assert (read' = take (length read') (drop (Z.to_nat offset) C)) as Hread'.
  { apply take_extend; [done|]. intros i y Hi. unfold g' in Hi.
    assert (i < Z.to_nat n)%nat as Hin by (apply lookup_lt_Some in Hi; rewrite length_take in Hi; lia).
    rewrite lookup_take_lt in Hi by done. rewrite (Hgot i y Hi). unfold size in *.
    rewrite <-(located_contents _ _ _ _ (device b) (Z.of_nat i) Hok Hloc) by lia. f_equal. lia. }
  rewrite (u64_small (r_off + size g')) by lia.
  destruct (decide (size read' = r_sz)) as [Hdone|Hmore].
  { rewrite (proj2 (Z.eqb_eq _ _) Hdone). cbn [negb andb].
    assert (∀ ro ee, pread_loop fuel f direct offset r_sz ro ee read' (set_device d' b) =
      Done (false, read') (set_device d' b)) as Hend.
    { intros ro ee. destruct fuel; cbn [pread_loop]; by rewrite (proj2 (Z.eqb_eq _ _) Hdone). }
    unfold wp. rewrite Hend. split; [|done]. rewrite Hread' at 1. do 2 f_equal. unfold size in *. lia. }
  rewrite (proj2 (Z.eqb_neq _ _) Hmore). cbn [negb andb].
  destruct (r_off + size g' =? extent_end) eqn:He.
  - apply Z.eqb_eq in He. destruct (located_next _ _ _ _ (size g') Hok Hloc) as (e & ro & Hge & Hl); [lia..|].
    unfold GetExtent. rewrite (u64_small (offset + size read')) by lia.
    replace (offset + size read') with (offset + size read + size g') by lia. rewrite Hge.
    eapply wp_mono; [apply (IH (set_device d' b)); try done; [apply Hsame|lia|lia|by rewrite HC|]|].
    { by rewrite Hsz, Z.add_assoc. }
    intros r b2 [-> Hr2]. rewrite HC. split; [done|by eapply after_reads_trans].
  - apply Z.eqb_neq in He.
    eapply wp_mono; [apply (IH (set_device d' b)); try done; [apply Hsame|lia|lia|by rewrite HC|]|].
    { rewrite Hsz, Z.add_assoc. apply located_move; [done|lia|lia]. }
    intros r b2 [-> Hr2]. rewrite HC. split; [done|by eapply after_reads_trans].
Qed.

Lemma wp_PositionedRead f offset n direct b :
  extents_ok (extents_ f) → addresses_ok (extents_ f) → file_size_ f = total (extents_ f) →
  0 < block_sz_ b → readable (device b) → 0 ≤ offset → 0 ≤ n → offset + n < 2 ^ 64 →
  wp (PositionedRead f offset n direct)
    (λ r b', r = (OK, take (Z.to_nat n) (drop (Z.to_nat offset) (contents (device b) (extents_ f)))) ∧
             after_reads b b') b.
Proof.
  intros Hok Had Hsz Hbs Hrd Ho Hn Hlim. unfold PositionedRead. rewrite Hsz.
  pose proof (size_contents (device b) (extents_ f) Hok) as HC. unfold size in HC.
  case_match eqn:E.
  { apply Z.leb_le in E. wp_step. split; [|by apply after_reads_refl]. rewrite drop_ge by lia. by rewrite take_nil. }
  apply Z.leb_gt in E. destruct (get_extent_located (extents_ f) offset Hok) as (e & r_off & Hg & Hloc); [lia|].
  unfold GetExtent. rewrite Hg. rewrite (u64_small (offset + n)) by lia.
  set (r_sz := if total (extents_ f) <? offset + n then total (extents_ f) - offset else n).
  assert (r_sz = Z.min n (total (extents_ f) - offset)) as Hr.
  { unfold r_sz. case_match eqn:E'; [apply Z.ltb_lt in E'|apply Z.ltb_ge in E']; lia. }
  assert (take (Z.to_nat n) (drop (Z.to_nat offset) (contents (device b) (extents_ f))) =
          take (Z.to_nat r_sz) (drop (Z.to_nat offset) (contents (device b) (extents_ f)))) as ->.
  { destruct (decide (n ≤ total (extents_ f) - offset)); [f_equal; lia|].
    rewrite !take_ge; [done|rewrite length_drop; lia..]. }
  wp_step. destruct (decide (r_sz = 0)) as [->|Hne].
  - change (wp (ret (OK, [])) (λ r b', r = (OK, take (Z.to_nat 0) (drop (Z.to_nat offset)
      (contents (device b) (extents_ f)))) ∧ after_reads b b') b). wp_step. split; [done|by apply after_reads_refl].
  - eapply wp_mono; [apply (wp_pread_loop f direct offset r_sz (Z.to_nat r_sz) b []); try done; try (change (size []) with 0); try lia|].
    { by rewrite Z.add_0_r. }
    intros r b' [-> Hb']. by wp_step.
Qed.
End read.
