(* ===== verification/ZenSparse.v ===== *)
(** * ZenFS: write-ahead logs survive a crash

    A sparse file writes every flush as a segment with its length in front.  What a crash
    leaves on the device is enough for [Recover] to find the extents again that were
    appended since the metadata of the file was last persisted. *)

From stdpp Require Import base numbers option list gmap.
From S2P Require Import Prelude ZenCoding ZenTypes ZenZbd ZenFile ZenLog ZenFs ZenMeta ZenIo.
From S2P Require Import ZenFileCodec ZenLogSpec ZenRecover ZenRead.

(** ** Segments *)

Definition seg_size (bs n : Z) : Z := n + 8 + pad_size (n + 8) bs.
Definition segment (bs : Z) (data : slice) : slice :=
  EncodeFixed64 (size data) ++ data ++ replicate (Z.to_nat (pad_size (size data + 8) bs)) 0.

(** The extents of segments of lengths [ns] from [pos] on. *)
Fixpoint seg_extents (bs pos : Z) (i : nat) (ns : list Z) : list ZoneExtent :=
  match ns with
  | [] => []
  | n :: ns' => mk_extent (pos + 8) n i :: seg_extents bs (pos + seg_size bs n) i ns'
  end.
Definition seg_total (bs : Z) (ns : list Z) : Z := foldr (λ n t, seg_size bs n + t) 0 ns.

Lemma pad_aligned bs n : 0 < bs → (n + pad_size n bs) mod bs = 0.
Proof.
  intros Hbs. unfold pad_size. case_match eqn:E; [apply Z.eqb_eq in E; by rewrite Z.add_0_r|].
  replace (n + (bs - n mod bs)) with ((1 + n / bs) * bs) by (pose proof (Z.div_mod n bs); lia). apply Z.mod_mul. lia.
Qed.

Lemma size_segment bs data : 0 < bs → size (segment bs data) = seg_size bs (size data).
Proof.
  intros Hbs. unfold segment, seg_size. rewrite !size_app. pose proof (pad_size_nonneg (size data + 8) bs Hbs).
  rewrite size_replicate. unfold size at 1. rewrite length_Fixed64. lia.
Qed.

Lemma seg_size_pos bs n : 0 < bs → 0 ≤ n → n + 8 ≤ seg_size bs n.
Proof. intros Hbs Hn. unfold seg_size. pose proof (pad_size_nonneg (n + 8) bs Hbs). lia. Qed.

Lemma seg_total_nonneg bs ns : 0 < bs → Forall (λ n, 0 ≤ n) ns → 0 ≤ seg_total bs ns.
Proof.
  intros Hbs Hns. induction Hns as [|x l Hx _ IH]; [done|].
  change (0 ≤ seg_size bs x + seg_total bs l). pose proof (seg_size_pos bs x Hbs Hx). lia.
Qed.

(** The blocks that recovery skips. *)
Lemma blocks_seg bs n :
  0 < bs → 0 ≤ n →
  ((n + 8) / bs + (if (n + 8) mod bs =? 0 then 0 else 1)) * bs = seg_size bs n.
Proof.
  intros Hbs Hn. unfold seg_size, pad_size. pose proof (Z.div_mod (n + 8) bs). case_match eqn:E; [apply Z.eqb_eq in E|]; lia.
Qed.

(** A buffer that starts with [data] and has room for padding is padded in place. *)
Lemma pad_buffer_app bs data tail :
  0 < bs → pad_size (size data) bs ≤ size tail →
  ∃ tail', pad_buffer (size data) bs (data ++ tail) = data ++ replicate (Z.to_nat (pad_size (size data) bs)) 0 ++ tail' ∧
    size tail = pad_size (size data) bs + size tail'.
Proof.
  intros Hbs Ht. pose proof (pad_size_nonneg (size data) bs Hbs). unfold pad_buffer.
  set (p := pad_size (size data) bs) in *. case_match eqn:E.
  - apply Z.eqb_eq in E. rewrite E. exists tail. done.
  - exists (drop (Z.to_nat p) tail). unfold buf_write. rewrite length_replicate.
    assert (Z.to_nat (size data) = length data) as -> by (unfold size; lia).
    rewrite take_app_length, <-drop_drop, drop_app_length. split; [done|]. unfold size. rewrite length_drop.
    unfold size in Ht. lia.
Qed.

(** The buffer of a sparse file: room for the header, the data, and room for padding. *)
Lemma buffer_segment bs hdr data tail :
  0 < bs → length hdr = 8%nat → pad_size (size data + 8) bs ≤ size tail →
  let wr := size data + 8 in
  ∃ tail', buf_write 0 (EncodeFixed64 (size data)) (pad_buffer wr bs (hdr ++ data ++ tail)) = segment bs data ++ tail' ∧
    size (segment bs data ++ tail') = size (hdr ++ data ++ tail).
Proof.
  intros Hbs Hh Ht wr. assert (size (hdr ++ data) = wr) as Hw by (rewrite size_app; unfold size at 1; lia).
  destruct (pad_buffer_app bs (hdr ++ data) tail Hbs) as (tail' & E & Hl); rewrite ?Hw in *; [done|].
  exists tail'. rewrite <-app_assoc in E. rewrite E. split.
  - unfold buf_write, segment. change (Z.to_nat 0) with 0%nat. rewrite length_Fixed64. cbn [take Nat.add app].
    rewrite <-Hh, <-!app_assoc, drop_app_length. done.
  - rewrite !size_app, size_segment, Hl by done. unfold seg_size. fold wr.
    assert (size hdr = 8) by (unfold size; lia). lia.
Qed.

Section sparse.
Context {D : ZbdDev} {DOk : ZbdDevOk D} {K : Crc32c}.
Implicit Types (b : ZonedBlockDevice) (s : ZenFS) (f : ZoneFile) (z : Zone).

(** ** Appending *)

(** File [h] is [f] and writes to zone [i], which is [z]. *)
Definition writes_to (h i : nat) f z s : Prop :=
  objs s !! h = Some f ∧ active_zone_ f = Some i ∧ appendable (IoZone i) z (zbd_ s) ∧ extent_start_ f = wp_ z.

(** One segment more. *)
Definition grown (h i : nat) f z (data : slice) s s' : Prop :=
  let bs := block_sz_ (zbd_ s) in
  ∃ f' z', writes_to h i f' z' s' ∧
    extents_ f' = extents_ f ++ [mk_extent (wp_ z + 8) (size data) i] ∧
    file_size_ f' = u64 (file_size_ f + size data) ∧
    wp_ z' = wp_ z + seg_size bs (size data) ∧ capacity_ z' = capacity_ z - seg_size bs (size data) ∧
    block_sz_ (zbd_ s') = bs ∧
    stores (device (zbd_ s')) (wp_ z) (segment bs data) ∧
    (∀ a, a < wp_ z ∨ wp_ z + seg_size bs (size data) ≤ a →
       byte_at (device (zbd_ s')) a = byte_at (device (zbd_ s)) a) ∧
    is_sparse_ f' = is_sparse_ f.

Lemma wp_add_extent h i f z start n s :
  objs s !! h = Some f → zone_of (IoZone i) (zbd_ s) = Some z →
  wp (add_extent h i start n)
    (λ _ s', s' = set_objs (<[h := f_set_size (u64 (file_size_ f + n)) (f_set_extent_start (wp_ z)
                     (f_set_extents (extents_ f ++ [mk_extent start n i]) f))]> (objs s))
                   (set_zbd (set_zone (IoZone i) (use n z) (zbd_ s)) s)) s.
Proof.
  intros Hf Hz. unfold add_extent, file_at, file_put. repeat wp_step. apply wp_in_zbd. unfold zone_at. repeat wp_step.
  apply wp_in_zbd. unfold wp at 1. cbn [zone_of] in Hz. rewrite (run_used_add _ _ _ z Hz). repeat wp_step.
  cbn [zbd_ set_zbd set_zone]. by rewrite (alter_insert (use n) _ _ z).
Qed.

(** [out] was written to zone [i] and an extent of [n] bytes at [start] added to the file,
    which is now [f'], the zone [z']. *)
Record extended (h i : nat) f z (out : slice) (start n : Z) s f' z' s' : Prop := {
  ex_file : objs s' !! h = Some f';
  ex_fields : f' = f_set_size (u64 (file_size_ f + n)) (f_set_extent_start (wp_ z')
    (f_set_extents (extents_ f ++ [mk_extent start n i]) f));
  ex_zone : appendable (IoZone i) z' (zbd_ s');
  ex_wp : wp_ z' = wp_ z + size out;
  ex_capacity : capacity_ z' = capacity_ z - size out;
  ex_block : block_sz_ (zbd_ s') = block_sz_ (zbd_ s);
  ex_stored : stores (device (zbd_ s')) (wp_ z) out;
  ex_same : ∀ a, a < wp_ z ∨ wp_ z + size out ≤ a → byte_at (device (zbd_ s')) a = byte_at (device (zbd_ s)) a
}.

Lemma wp_write_extent {X} h i f z out start n (e : IOStatus → X) (k : Zone → ST ZenFS X) Q s :
  objs s !! h = Some f → appendable (IoZone i) z (zbd_ s) → size out mod block_sz_ (zbd_ s) = 0 → size out ≤ capacity_ z →
  (∀ f' z' s', extended h i f z out start n s f' z' s' → wp (k z') Q s') →
  wp (in_zbd (Zone_Append (IoZone i) out))
    (λ st, wp (if negb (ok st) then ret (e st) else
               add_extent h i start n ;; z <- in_zbd (zone_at (IoZone i)) ;; k z) Q) s.
Proof.
  intros Hf Ho Hal Hsz Hk. pose proof Ho as (Hz & Hrd & Hwr & Hc0 & Hw0 & Hlim). pose proof (size_nonneg out).
  apply wp_in_zbd. eapply wp_mono; [by apply (wp_Zone_Append _ _ z)|].
  intros st b1 (-> & d' & -> & Hrd' & Hwr' & Hst' & Hsame & _). change (ok OK) with true. cbn [negb]. wp_step.
  set (zw := z_written (size out) z).
  assert (wp_ zw = wp_ z + size out) as Hwp by (cbn; rewrite u64_small; lia).
  assert (capacity_ zw = capacity_ z - size out) as Hcp by (cbn; rewrite u64_small; lia).
  eapply wp_mono; [apply (wp_add_extent h i f zw); [done|exact (zone_of_set (IoZone i) z zw _ Hz)]|].
  intros [] s1 ->. wp_step. apply wp_in_zbd. fs_simpl. unfold zone_at. repeat wp_step.
  eapply wp_load; [apply (zone_of_set (IoZone i) zw), (zone_of_set (IoZone i) z zw _ Hz)|].
  eapply (Hk _ (use n zw)). split; try done; [apply lookup_insert_eq|]. unfold appendable.
  change (wp_ (use n zw)) with (wp_ zw). change (capacity_ (use n zw)) with (capacity_ zw).
  rewrite Hwp, Hcp. split_and!; [|done|done|lia..].
  apply (zone_of_set (IoZone i) zw), (zone_of_set (IoZone i) z zw _ Hz).
Qed.

Lemma wp_SparseAppend now h i f z hdr data tail s :
  let bs := block_sz_ (zbd_ s) in
  writes_to h i f z s → 0 < bs → length hdr = 8%nat → pad_size (size data + 8) bs ≤ size tail →
  0 < size data → seg_size bs (size data) < 2 ^ 32 → seg_size bs (size data) < capacity_ z →
  wp (SparseAppend now h (hdr ++ data ++ tail) (size data))
    (λ r s', r.1 = OK ∧ size r.2 = size (hdr ++ data ++ tail) ∧ grown h i f z data s s') s.
Proof.
  intros bs (Hf & Hact & Ho & Hes) Hbs Hh Ht Hn Hn32 Hcap. pose proof Ho as (Hz & _ & _ & Hc0 & Hw0 & Hlim).
  pose proof (seg_size_pos bs (size data) Hbs) as Hseg. pose proof (size_segment bs data Hbs) as Hsz.
  destruct (buffer_segment bs hdr data tail Hbs Hh Ht) as (tail' & Hbuf & Hlen). cbv zeta in Hbuf.
  assert (seg_size bs (size data) = size data + 8 + pad_size (size data + 8) bs) as Hss by done.
  unfold SparseAppend, need_zone, file_at. repeat wp_step. rewrite Hact. repeat wp_step. change (ok OK) with true. cbn [negb].
  destruct (Z.to_nat (size data)) as [|fuel] eqn:Ef; [lia|]. cbn [sparse_loop]. rewrite (proj2 (Z.eqb_neq _ _)) by lia.
  unfold file_at. repeat wp_step. apply wp_in_zbd. unfold zone_at at 1. repeat wp_step. pose proof (pad_size_nonneg (size data + 8) bs Hbs).
  unfold SPARSE_HEADER_SIZE. rewrite (u32_small (size data + 8)), (proj2 (Z.ltb_ge _ _)) by lia. cbn [zbd_ set_zbd]. fold bs.
  rewrite (u32_small (size data + 8 - 8)), <-Hss, (u32_small (seg_size _ _)) by lia.
  replace (size data + 8 - 8) with (size data) by lia. rewrite Hbuf.
  assert (buf_read 0 (seg_size bs (size data)) (segment bs data ++ tail') = segment bs data) as ->.
  { unfold buf_read. rewrite <-Hsz. unfold size at 1. by rewrite Nat2Z.id, drop_0, take_app_length. }
  eapply (wp_write_extent h i f z _ _ _ (λ st, (st, _))); [done|done|change (size (segment bs data) mod bs = 0); rewrite Hsz, Hss; by apply pad_aligned|lia|].
  intros f' z' s' [E1 E2 E3 E4 E5 E6 E7 E8]. rewrite Hsz in *. rewrite (proj2 (Z.eqb_neq _ _)) by lia.
  rewrite Z.sub_diag. assert (∀ buf s', sparse_loop now fuel h buf (u32 0) s' = Done (OK, buf) s') as Hend by (by destruct fuel).
  unfold wp. rewrite Hend. split; [done|]. split; [exact Hlen|]. exists f', z'. subst f'.
  split_and!; try done. cbn [extents_ f_set_size f_set_extent_start f_set_extents]. by rewrite Hes, u64_small by lia.
Qed.

(** Several flushes: every one has its own buffer. *)
Fixpoint sparse_appends (now : Z) (h : nat) (l : list (slice * slice * slice)) : ST ZenFS IOStatus :=
  match l with
  | [] => ret OK
  | (hdr, data, tail) :: l' =>
      r <- SparseAppend now h (hdr ++ data ++ tail) (size data) ;;
      if negb (ok r.1) then ret r.1 else sparse_appends now h l'
  end.

Definition flush_ok (bs : Z) (x : slice * slice * slice) : Prop :=
  let '(hdr, data, tail) := x in
  length hdr = 8%nat ∧ pad_size (size data + 8) bs ≤ size tail ∧ 0 < size data ∧ seg_size bs (size data) < 2 ^ 32.
Definition lengths (l : list (slice * slice * slice)) : list Z := (λ x, size x.1.2) <$> l.

Lemma lengths_ok bs l : 0 < bs → Forall (flush_ok bs) l → Forall (λ n, 0 < n < 2 ^ 32) (lengths l).
Proof.
  intros Hbs Hl. apply Forall_fmap. eapply Forall_impl; [exact Hl|]. intros [[hdr data] tail] (_ & _ & H1 & H2). cbn.
  pose proof (seg_size_pos bs (size data) Hbs). lia.
Qed.

Lemma pos_nonneg ns : Forall (λ n, 0 < n < 2 ^ 32) ns → Forall (λ n, 0 ≤ n) ns.
Proof. intros Hns. eapply Forall_impl; [exact Hns|]. intros n [Hn _]. lia. Qed.

Lemma lengths_nonneg bs l : 0 < bs → Forall (flush_ok bs) l → Forall (λ n, 0 ≤ n) (lengths l).
Proof. intros Hbs Hl. by eapply pos_nonneg, lengths_ok. Qed.

(** The headers of segments of lengths [ns] from [pos] on. *)
Fixpoint headers_at d (bs pos : Z) (ns : list Z) : Prop :=
  match ns with
  | [] => True
  | n :: ns' => stores d pos (EncodeFixed64 n) ∧ headers_at d bs (pos + seg_size bs n) ns'
  end.

Lemma headers_same d d' bs ns : ∀ pos m,
  0 < bs → Forall (λ n, 0 ≤ n) ns → pos + seg_total bs ns ≤ m →
  (∀ a, a < m → byte_at d' a = byte_at d a) → headers_at d bs pos ns → headers_at d' bs pos ns.
Proof.
  induction ns as [|n ns IH]; intros pos m Hbs Hn Hm Hsame; [done|]. apply Forall_cons in Hn as [Hn Hns].
  intros [Hs Hh]. pose proof (seg_size_pos bs n Hbs Hn).
  assert (seg_total bs (n :: ns) = seg_size bs n + seg_total bs ns) as Et by done.
  pose proof (seg_total_nonneg bs ns Hbs Hns).
  split; [|apply (IH _ m); [done|done|lia|done|done]]. intros i x Hi. rewrite Hsame; [by apply Hs|].
  apply lookup_lt_Some in Hi. rewrite length_Fixed64 in Hi. lia.
Qed.

Definition sizes_from (n : Z) (ns : list Z) : Z := foldl (λ n x, u64 (n + x)) n ns.

Lemma wp_sparse_appends now h i l : ∀ f z s,
  let bs := block_sz_ (zbd_ s) in
  writes_to h i f z s → 0 < bs → Forall (flush_ok bs) l → seg_total bs (lengths l) < capacity_ z →
  wp (sparse_appends now h l)
    (λ st s', st = OK ∧ ∃ f' z', writes_to h i f' z' s' ∧
       extents_ f' = extents_ f ++ seg_extents bs (wp_ z) i (lengths l) ∧
       file_size_ f' = sizes_from (file_size_ f) (lengths l) ∧
       wp_ z' = wp_ z + seg_total bs (lengths l) ∧ headers_at (device (zbd_ s')) bs (wp_ z) (lengths l) ∧
       (∀ a, a < wp_ z → byte_at (device (zbd_ s')) a = byte_at (device (zbd_ s)) a)) s.
Proof.
  induction l as [|[[hdr data] tail] l IH]; intros f z s bs Hw Hbs Hl Hcap.
  { cbn [sparse_appends]. wp_step. split; [done|]. exists f, z. cbn. rewrite app_nil_r, Z.add_0_r. by split_and!. }
  apply Forall_cons in Hl as [(Hh & Ht & Hn & Hn32) Hl]. cbn [sparse_appends].
  assert (lengths ((hdr, data, tail) :: l) = size data :: lengths l) as El by done. rewrite El in *.
  assert (seg_total bs (size data :: lengths l) = seg_size bs (size data) + seg_total bs (lengths l)) as Et by done.
  pose proof (seg_total_nonneg bs (lengths l) Hbs (lengths_nonneg bs l Hbs Hl)) as Hpos.
  pose proof (seg_size_pos bs (size data) Hbs).
  wp_step. eapply wp_mono; [apply (wp_SparseAppend now h i f z hdr data tail s Hw Hbs Hh Ht Hn Hn32);
    change (seg_size bs (size data) < capacity_ z); lia|].
  intros [st buf] s1 (Hst & _ & f1 & z1 & Hw1 & He1 & Hf1 & Hwp1 & Hc1 & Hb1 & Hs1 & Hsame1 & _). cbn [fst] in *. subst st.
  change (ok OK) with true. cbn [negb]. fold bs in Hwp1, Hc1, Hb1, Hs1.
  eapply wp_mono; [apply (IH f1 z1 s1); rewrite ?Hb1; [done|done|done|lia]|]. rewrite Hb1.
  intros st s2 (-> & f2 & z2 & Hw2 & He2 & Hf2 & Hwp2 & Hh2 & Hsame2). split; [done|]. exists f2, z2.
  split; [done|]. split; [by rewrite He2, He1, <-app_assoc, Hwp1|]. split; [by rewrite Hf2, Hf1|]. split; [lia|].
  split; [split|].
  - unfold segment in Hs1. apply stores_app in Hs1 as [Hs1 _]. intros k x Hk. rewrite Hsame2; [by apply Hs1|].
    apply lookup_lt_Some in Hk. rewrite length_Fixed64 in Hk. lia.
  - rewrite Hwp1 in Hh2. exact Hh2.
  - intros a Ha. rewrite Hsame2 by lia. apply Hsame1. by left.
Qed.

(** ** Recovery *)

(** A read of one block is not cut short. *)
Definition block_reads (bs : Z) : Prop :=
  ∀ d a data d', readable d → pread a bs d = (Some data, d') → size data = bs.

Lemma stores_decode d pos n data :
  0 ≤ n < 2 ^ 64 → stores d pos (EncodeFixed64 n) → 8 ≤ size data →
  (∀ i x, data !! i = Some x → x = byte_at d (pos + Z.of_nat i)) → DecodeFixed64 data = n.
Proof.
  intros Hn Hs H8 Hd.
  assert (data = EncodeFixed64 n ++ drop 8 data) as E.
  { rewrite <-(take_drop 8 data) at 1. f_equal. apply list_eq. intros i.
    destruct (decide (i < 8)%nat) as [Hi|Hi].
    - destruct (lookup_lt_is_Some_2 data i) as [x Hx]; [unfold size in H8; lia|].
      destruct (lookup_lt_is_Some_2 (EncodeFixed64 n) i) as [y Hy]; [by rewrite length_Fixed64|].
      rewrite lookup_take_lt, Hx, Hy by done. f_equal. rewrite (Hd i x Hx). by apply Hs.
    - rewrite lookup_take_ge by lia. symmetry. apply lookup_ge_None. rewrite length_Fixed64. lia. }
  pose proof (GetFixed64_Put n (drop 8 data) Hn) as Hg. rewrite <-E in Hg. unfold GetFixed64 in Hg.
  case_match; [done|]. by injection Hg.
Qed.

(** Recovery counts the extents it finds, and reads the device. *)
Definition recovered_zbd (i : nat) b b' : Prop :=
  ∃ zs d, b' = set_io_zones zs (set_device d b) ∧ dev_same (device b) d ∧ is_Some (zs !! i).

Lemma wp_sparse_recover_loop i ns : ∀ fuel pos end_ f b,
  let bs := block_sz_ b in
  block_reads bs → 8 ≤ bs → is_Some (io_zones b !! i) → readable (device b) →
  Forall (λ n, 0 < n < 2 ^ 32) ns → headers_at (device b) bs pos ns → 0 ≤ pos → end_ = pos + seg_total bs ns →
  end_ < 2 ^ 64 → seg_total bs ns ≤ Z.of_nat fuel →
  wp (sparse_recover_loop fuel pos end_ i f)
    (λ r b', r = (OK, f_set_extents (extents_ f ++ seg_extents bs pos i ns) f) ∧ recovered_zbd i b b') b.
Proof.
  induction ns as [|n ns IH]; intros fuel pos end_ f b bs Hfull Hbs [z Hz] Hrd Hns Hh Hp He Hlim Hf.
  { cbn in He. destruct fuel; cbn [sparse_recover_loop]; rewrite (proj2 (Z.leb_le _ _)) by lia; wp_step;
      (split; [cbn; rewrite app_nil_r; by destruct f|]; exists (io_zones b), (device b); split_and!; [by destruct b|by split|by exists z]). }
  apply Forall_cons in Hns as [Hn Hns]. destruct Hh as [Hs Hh].
  assert (seg_total bs (n :: ns) = seg_size bs n + seg_total bs ns) as Et by done.
  pose proof (seg_size_pos bs n ltac:(lia) ltac:(lia)) as Hseg.
  pose proof (seg_total_nonneg bs ns ltac:(lia) (pos_nonneg ns Hns)) as Hpos.
  destruct fuel as [|fuel]; [lia|]. cbn [sparse_recover_loop]. rewrite (proj2 (Z.leb_gt _ _)) by lia.
  unfold dev_call. repeat wp_step. fold bs.
  destruct (pread_ok (device b) pos bs Hrd ltac:(lia)) as (data & d' & E & Hsz & Hd & Hr' & Hb' & Hw').
  pose proof (Hfull _ _ _ _ Hrd E) as Hfs. rewrite E. repeat wp_step. cbv iota.
  rewrite Hfs, Z.eqb_refl. cbn [negb]. rewrite (stores_decode (device b) pos n data) by (try done; lia).
  rewrite (proj2 (Z.eqb_neq _ _)) by lia. wp_step. unfold wp at 1. rewrite (run_used_add _ _ _ z) by done.
  unfold SPARSE_HEADER_SIZE. rewrite !(u64_small (n + 8)) by lia. rewrite blocks_seg by lia.
  rewrite (u64_small (pos + 8)), (u64_small (pos + seg_size bs n)) by lia.
  eapply wp_mono; [apply (IH fuel (pos + seg_size bs n) end_); cbn [block_sz_ set_io_zones set_device device io_zones]; fold bs;
    try done; try lia|].
  - rewrite list_lookup_alter_eq, Hz. eauto.
  - apply (headers_same (device b) d' bs ns _ end_); [lia| |lia|intros a _; apply Hb'|done].
    by apply pos_nonneg.
  - intros r b2 [-> (zs & d2 & -> & Hd2 & Hi)]. cbn [block_sz_ set_io_zones set_device] in *. fold bs. split.
    + cbn [extents_ f_set_extents]. by rewrite <-app_assoc.
    + exists zs, d2. split; [done|]. split; [|done]. cbn [device set_io_zones set_device] in Hd2.
      destruct Hd2 as (H1 & H2 & H3). split_and!; [done|intros a; by rewrite H2, Hb'|auto].
Qed.

Lemma extents_size_app es ns bs pos i :
  extents_size (es ++ seg_extents bs pos i ns) = sizes_from (extents_size es) ns.
Proof.
  unfold extents_size. rewrite foldl_app. generalize (foldl (λ n e, u64 (n + e_length e)) 0 es). revert pos.
  induction ns as [|n ns IH]; intros pos t; [done|]. cbn [seg_extents foldl]. apply IH.
Qed.

(** [Recover] of a file persisted with its active extent at [a] in zone [i]. *)
Lemma wp_File_Recover i ns a f z b :
  let bs := block_sz_ b in
  block_reads bs → 8 ≤ bs → readable (device b) → io_zones b !! i = Some z → GetIOZone b a = Some i →
  extent_start_ f = a → is_sparse_ f = true → Forall (λ n, 0 < n < 2 ^ 32) ns → ns ≠ [] →
  headers_at (device b) bs a ns → 0 ≤ a → a ≠ NO_EXTENT → wp_ z = a + seg_total bs ns → wp_ z < 2 ^ 64 →
  wp (File_Recover f)
    (λ r b', r.1 = OK ∧ extents_ r.2 = extents_ f ++ seg_extents bs a i ns ∧
             file_size_ r.2 = sizes_from (extents_size (extents_ f)) ns ∧ extent_start_ r.2 = NO_EXTENT) b.
Proof.
  intros bs Hfull Hbs Hrd Hz Hg Ha Hsp Hns Hne Hh H0 Hno Hwp Hlim. unfold File_Recover.
  assert (HasActiveExtent f = true) as -> by (unfold HasActiveExtent; rewrite Ha; by apply negb_true_iff, Z.eqb_neq).
  cbn [negb]. repeat wp_step. rewrite Ha, Hg. unfold zone_at. repeat wp_step.
  assert (0 < seg_total bs ns) as Hpos.
  { destruct ns as [|n ns]; [done|]. apply Forall_cons in Hns as [Hn Hns].
    pose proof (seg_size_pos bs n ltac:(lia) ltac:(lia)). pose proof (seg_total_nonneg bs ns ltac:(lia) (pos_nonneg ns Hns)).
    change (0 < seg_size bs n + seg_total bs ns). lia. }
  rewrite (proj2 (Z.ltb_ge _ _)), (proj2 (Z.eqb_neq (wp_ z - a) 0)), Hsp by lia. wp_step. unfold RecoverSparseExtents.
  eapply wp_mono; [apply (wp_sparse_recover_loop i ns); try done; fold bs; lia|].
  intros r b' [-> _]. cbv iota. change (ok OK) with true. cbn [negb]. wp_step. fold bs.
  split_and!; [done|done| |done]. cbn [fst snd file_size_ f_set_size extents_ f_set_extents]. by rewrite extents_size_app.
Qed.
End sparse.
