(* ===== verification/ZenAppend.v ===== *)
(** * ZenFS: what a writer appends is what the file holds

    A buffered writer keeps the end of the file in its buffer and flushes it to the active
    zone.  The bytes of the file on the device, followed by those in the buffer, grow by
    exactly what is appended. *)

From stdpp Require Import base numbers option list gmap.
From S2P Require Import Prelude ZenCoding ZenTypes ZenZbd ZenFile ZenLog ZenFs ZenMeta ZenIo ZenWriter.
From S2P Require Import ZenFileCodec ZenLogSpec ZenRecover ZenRead ZenSparse.

(** The bytes that a flush of [n] bytes behind a header of [off] bytes takes. *)
Definition flush_size (bs off n : Z) : Z := n + off + pad_size (n + off) bs.

Lemma flush_size_blocks bs off n : 0 < bs → flush_size bs off n = (n + off + bs - 1) / bs * bs.
Proof.
  intros Hbs. unfold flush_size, pad_size. set (k := n + off). pose proof (Z.div_mod k bs) as Hk.
  pose proof (Z.mod_pos_bound k bs Hbs). case_match eqn:E.
  - apply Z.eqb_eq in E. replace (k + bs - 1) with (bs - 1 + k / bs * bs) by lia.
    rewrite Z.div_add, (Z.div_small (bs - 1)) by lia. lia.
  - apply Z.eqb_neq in E. replace (k + bs - 1) with (k mod bs - 1 + (k / bs + 1) * bs) by lia.
    rewrite Z.div_add, (Z.div_small (k mod bs - 1)) by lia. lia.
Qed.

Lemma flush_size_mono bs off m n : 0 < bs → m ≤ n → flush_size bs off m ≤ flush_size bs off n.
Proof.
  intros Hbs Hmn. rewrite !flush_size_blocks by done. apply Z.mul_le_mono_nonneg_r; [lia|]. apply Z.div_le_mono; lia.
Qed.

Lemma flush_size_ge bs off n : 0 < bs → n + off ≤ flush_size bs off n.
Proof. intros Hbs. unfold flush_size. pose proof (pad_size_nonneg (n + off) bs Hbs). lia. Qed.

Section append.
Context {D : ZbdDev} {DOk : ZbdDevOk D} {K : Crc32c}.
Implicit Types (b : ZonedBlockDevice) (d : dev) (s : ZenFS) (f : ZoneFile) (z : Zone) (w : ZonedWritableFile).

(** ** Contents *)

Lemma stores_dev_bytes d a data : stores d a data → dev_bytes d a (size data) = data.
Proof.
  intros Hs. unfold size. apply list_eq_same_length with (length data); [done|by rewrite length_dev_bytes, Nat2Z.id|].
  intros i x y Hi Hx Hy. rewrite dev_bytes_lookup in Hx by lia. injection Hx as <-. by apply Hs.
Qed.

(** [e] lies outside of the bytes from [lo] to [hi]. *)
Definition apart (lo hi : Z) (e : ZoneExtent) : Prop := e_start e + e_length e ≤ lo ∨ hi ≤ e_start e.

Lemma contents_apart d d' lo hi es :
  Forall (apart lo hi) es → (∀ a, a < lo ∨ hi ≤ a → byte_at d' a = byte_at d a) → contents d' es = contents d es.
Proof.
  intros Hes Hsame. induction Hes as [|e es He _ IH]; [done|]. rewrite !contents_cons, IH. f_equal.
  unfold dev_bytes. apply list_fmap_ext. intros k x [-> Hk]%lookup_seq. apply Hsame. destruct He as [He|He]; lia.
Qed.

(** ** One flush *)

(** [data] became one more extent, [off] bytes after the write pointer. *)
Definition flushed (off : Z) (h i : nat) f z (data : slice) s s' : Prop :=
  let bs := block_sz_ (zbd_ s) in
  let n := flush_size bs off (size data) in
  ∃ f' z', writes_to h i f' z' s' ∧
    extents_ f' = extents_ f ++ [mk_extent (wp_ z + off) (size data) i] ∧
    file_size_ f' = u64 (file_size_ f + size data) ∧
    wp_ z' = wp_ z + n ∧ capacity_ z' = capacity_ z - n ∧ block_sz_ (zbd_ s') = bs ∧
    stores (device (zbd_ s')) (wp_ z + off) data ∧
    (∀ a, a < wp_ z ∨ wp_ z + n ≤ a → byte_at (device (zbd_ s')) a = byte_at (device (zbd_ s)) a) ∧
    is_sparse_ f' = is_sparse_ f.

Lemma grown_flushed h i f z data s s' : grown h i f z data s s' → flushed 8 h i f z data s s'.
Proof.
  intros (f' & z' & Hw & He & Hf & Hwp & Hc & Hb & Hs & Hsame & Hsp). exists f', z'.
  unfold segment in Hs. apply stores_app in Hs as [_ Hs]. apply stores_app in Hs as [Hs _].
  unfold size in Hs at 1. rewrite length_Fixed64 in Hs. by split_and!.
Qed.

Lemma wp_BufferedAppend now h i f z data tail s :
  let bs := block_sz_ (zbd_ s) in
  writes_to h i f z s → 0 < bs → pad_size (size data) bs ≤ size tail →
  0 < size data → flush_size bs 0 (size data) < 2 ^ 32 → flush_size bs 0 (size data) < capacity_ z →
  wp (BufferedAppend now h (data ++ tail) (size data))
    (λ r s', r.1 = OK ∧ size r.2 = size (data ++ tail) ∧ flushed 0 h i f z data s s') s.
Proof.
  intros bs (Hf & Hact & Ho & Hes) Hbs Ht Hn Hn32 Hcap. pose proof Ho as (Hz & _ & _ & Hc0 & Hw0 & Hlim).
  destruct (pad_buffer_app bs data tail Hbs Ht) as (tail' & Hbuf & Hlen). unfold flushed, flush_size in *. fold bs.
  rewrite !Z.add_0_r in *. set (p := pad_size (size data) bs) in *. set (out := data ++ replicate (Z.to_nat p) 0).
  pose proof (pad_size_nonneg (size data) bs Hbs) as Hp. fold p in Hp.
  assert (size out = size data + p) as Hout by (unfold out; rewrite size_app, size_replicate; lia).
  unfold BufferedAppend, need_zone, file_at. repeat wp_step. rewrite Hact. repeat wp_step. change (ok OK) with true. cbn [negb].
  destruct (Z.to_nat (size data)) as [|fuel] eqn:Ef; [lia|]. cbn [buffered_loop]. rewrite (proj2 (Z.eqb_neq _ _)) by lia.
  unfold file_at. repeat wp_step. apply wp_in_zbd. unfold zone_at at 1. repeat wp_step.
  rewrite (proj2 (Z.ltb_ge _ _)) by lia. cbn [zbd_ set_zbd]. fold bs p. rewrite Hbuf, (u32_small (size data + p)) by lia.
  rewrite app_assoc. fold out.
  assert (buf_read 0 (size data + p) (out ++ tail') = out) as ->.
  { unfold buf_read. rewrite <-Hout. unfold size at 1. by rewrite Nat2Z.id, drop_0, take_app_length. }
  eapply (wp_write_extent h i f z _ _ _ (λ st, (st, _))); [done|done|change (size out mod bs = 0); rewrite Hout; by apply pad_aligned|lia|].
  intros f' z' s' [E1 E2 E3 E4 E5 E6 E7 E8]. rewrite Hout in *. rewrite (proj2 (Z.eqb_neq _ _)) by lia.
  rewrite Z.sub_diag. assert (∀ buf s', buffered_loop now fuel h buf 0 s' = Done (OK, buf) s') as Hend by (by destruct fuel).
  unfold wp. rewrite Hend. split; [done|]. split; [cbn [snd]; rewrite !size_app, Hout; lia|]. exists f', z'. subst f'.
  apply stores_app in E7 as [E7 _]. split_and!; try done.
  cbn [extents_ f_set_size f_set_extent_start f_set_extents]. by rewrite Hes.
Qed.

(** ** A writer *)

(** The bytes in the buffer of [w], and those of the file as the writer sees it. *)
Definition pending f w : slice := buf_read (data_offset f) (buffer_pos w) (sparse_buffer w).
Definition written d f w : slice := contents d (extents_ f) ++ pending f w.

(** [w] writes to file [h], which is [f], in zone [i], which is [z]. *)
Record writer_ok (h i : nat) f z w s : Prop := {
  wo_file : zoneFile_ w = h;
  wo_buffered : buffered w = true;
  wo_writes : writes_to h i f z s;
  wo_block : 0 < block_sz_ (zbd_ s);
  wo_pos : 0 ≤ buffer_pos w ≤ buffer_sz w;
  wo_room : ∀ n, 0 ≤ n ≤ buffer_sz w → flush_size (block_sz_ (zbd_ s)) (data_offset f) n ≤ size (sparse_buffer w);
  wo_width : size (sparse_buffer w) < 2 ^ 32;
  wo_extents : extents_ok (extents_ f);
  wo_apart : Forall (apart (wp_ z) (wp_ z + capacity_ z)) (extents_ f);
  wo_size : file_size_ f = total (extents_ f);
  wo_addresses : Forall (λ e, e_start e + e_length e + total (extents_ f) + capacity_ z < 2 ^ 64) (extents_ f);
  wo_limit : wp_ z + total (extents_ f) + 2 * capacity_ z < 2 ^ 64
}.

Lemma data_offset_cases f : is_sparse_ f = true ∧ data_offset f = 8 ∨ is_sparse_ f = false ∧ data_offset f = 0.
Proof. unfold data_offset, SPARSE_HEADER_SIZE. destruct (is_sparse_ f); auto. Qed.

(** The buffer: header, data, and room for the padding. *)
Lemma buffer_parts h i f z w s :
  writer_ok h i f z w s → ∃ hdr tail, sparse_buffer w = hdr ++ pending f w ++ tail ∧ size hdr = data_offset f ∧
    size (pending f w) = buffer_pos w ∧
    pad_size (buffer_pos w + data_offset f) (block_sz_ (zbd_ s)) ≤ size tail.
Proof.
  intros [_ _ _ Hbs Hp Hr _ _ _ _ _ _]. specialize (Hr _ Hp). pose proof (flush_size_ge _ (data_offset f) (buffer_pos w) Hbs) as Hge.
  assert (0 ≤ data_offset f) as H0 by (destruct (data_offset_cases f) as [[_ ->]|[_ ->]]; lia).
  set (o := Z.to_nat (data_offset f)). set (n := Z.to_nat (buffer_pos w)).
  exists (take o (sparse_buffer w)), (drop n (drop o (sparse_buffer w))). unfold pending, buf_read. fold o n.
  rewrite !take_drop. unfold flush_size, size in *. rewrite !length_take, !length_drop. split_and!; [done|lia..].
Qed.

(** A flush of the buffer, with the buffer it leaves. *)
Lemma writer_flushed h i f z w buf s s' :
  let n := flush_size (block_sz_ (zbd_ s)) (data_offset f) (buffer_pos w) in
  let w' := w_set_pos 0 (w_set_wp (u64 (w_wp w + buffer_pos w)) (w_set_buffer buf w)) in
  writer_ok h i f z w s → n < capacity_ z → size buf = size (sparse_buffer w) →
  flushed (data_offset f) h i f z (pending f w) s s' →
  ∃ f' z', writer_ok h i f' z' w' s' ∧ contents (device (zbd_ s')) (extents_ f') = written (device (zbd_ s)) f w ∧
    capacity_ z' = capacity_ z - n ∧ block_sz_ (zbd_ s') = block_sz_ (zbd_ s) ∧ is_sparse_ f' = is_sparse_ f.
Proof.
  intros n w' Hok Hn Hb (f' & z' & Hw2 & He & Hf2 & Hwp & Hcp & Hbl & Hsto & Hsame & Hsp).
  destruct (buffer_parts h i f z w s Hok) as (_ & _ & _ & _ & Hpend & _).
  destruct Hok as [Hh Hbf Hw Hbs Hp Hr Hwid Hext Hap Hsz Had Hlim]. set (bs := block_sz_ (zbd_ s)) in *.
  pose proof (flush_size_ge bs (data_offset f) (buffer_pos w) Hbs) as Hge. pose proof Hw as (_ & _ & (_ & _ & _ & Hc0 & Hw0 & Hwl) & _).
  exists f', z'. rewrite Hpend in *. fold bs n in Hwp, Hcp, Hbl, Hsame.
  assert (data_offset f' = data_offset f) as Eo by (unfold data_offset; by rewrite Hsp).
  assert (0 ≤ data_offset f) as H0 by (destruct (data_offset_cases f) as [[_ ->]|[_ ->]]; lia).
  split_and!; try done.
  - split; try done; cbn [zoneFile_ buffer_pos buffer_sz sparse_buffer w' w_set_pos w_set_wp w_set_buffer]; [by rewrite Hbl|lia|..].
    + intros m Hm. rewrite Hbl, Eo, Hb. by apply Hr.
    + by rewrite Hb.
    + rewrite He. apply Forall_app. split; [done|]. repeat constructor; cbn; lia.
    + rewrite He, Hwp, Hcp. apply Forall_app. split; [eapply Forall_impl; [exact Hap|]; intros e [He1|He1]; [left|right]; lia|].
      apply Forall_singleton. left. cbn. lia.
    + rewrite Hf2, He, total_app, Hsz. cbn. rewrite u64_small; [lia|]. pose proof (total_nonneg _ Hext). lia.
    + rewrite He, total_app, Hcp. apply Forall_app. split; [eapply Forall_impl; [exact Had|]; intros e He1; cbv beta in *; cbn; lia|].
      apply Forall_singleton. cbn. lia.
    + rewrite He, total_app, Hcp, Hwp. cbn. lia.
  - rewrite He, contents_app, (contents_apart (device (zbd_ s)) _ (wp_ z) (wp_ z + n)); [|eapply Forall_impl; [exact Hap|]..|done].
    + unfold written. f_equal. rewrite contents_cons. cbn [e_start e_length]. rewrite <-Hpend, stores_dev_bytes by done.
      apply app_nil_r.
    + intros e [He1|He1]; [left|right]; lia.
Qed.

Lemma wp_FlushBuffer now h i f z w s :
  let n := flush_size (block_sz_ (zbd_ s)) (data_offset f) (buffer_pos w) in
  writer_ok h i f z w s → 0 < buffer_pos w → n < capacity_ z →
  wp (FlushBuffer now w)
    (λ r s', r.1 = OK ∧ ∃ f' z', writer_ok h i f' z' r.2 s' ∧ buffer_pos r.2 = 0 ∧ buffer_sz r.2 = buffer_sz w ∧
       contents (device (zbd_ s')) (extents_ f') = written (device (zbd_ s)) f w ∧
       capacity_ z' = capacity_ z - n ∧ block_sz_ (zbd_ s') = block_sz_ (zbd_ s) ∧ is_sparse_ f' = is_sparse_ f) s.
Proof.
  intros n Hok Hpos Hn. pose proof Hok as [Hh _ Hw Hbs Hp Hr Hwid _ _ _ _ _]. pose proof Hw as (Hf & _).
  destruct (buffer_parts h i f z w s Hok) as (hdr & tail & Hbuf & Hhdr & Hpend & Hpad). pose proof (Hr _ Hp) as Hr1. fold n in Hr1.
  unfold FlushBuffer, file_at. rewrite (proj2 (Z.eqb_neq _ _)), Hh by lia. repeat wp_step.
  apply (wp_mono _ (λ r s', r.1 = OK ∧ size r.2 = size (sparse_buffer w) ∧ flushed (data_offset f) h i f z (pending f w) s s')).
  - assert (n < 2 ^ 32) as Hn32 by lia. unfold n in Hn, Hn32. rewrite Hbuf, <-Hpend in *.
    destruct (data_offset_cases f) as [[-> Eo]|[-> Eo]]; rewrite Eo in *.
    + eapply wp_mono; [apply (wp_SparseAppend now h i f z hdr); [done|done|unfold size in Hhdr; lia|done..]|].
      intros r s' (H1 & H2 & H3). split_and!; [done|done|by apply grown_flushed].
    + destruct hdr; [|unfold size in Hhdr; cbn in Hhdr; lia]. cbn [app]. rewrite Z.add_0_r in Hpad. by apply wp_BufferedAppend.
  - intros [st buf] s' (Hst & Hb & Hfl). cbn [fst snd] in *. subst st. change (ok OK) with true. cbn [negb]. wp_step.
    split; [done|]. destruct (writer_flushed h i f z w buf s s' Hok Hn Hb Hfl) as (f' & z' & H1 & H2). by exists f', z'.
Qed.

(** A writer on a file that has an active zone, with the buffer its constructor asks for. *)
Lemma wp_new_writer mem h i f z s :
  let bs := block_sz_ (zbd_ s) in
  writes_to h i f z s → 0 < bs → BUFFER_SIZE mod bs = 0 → BUFFER_SIZE + bs < 2 ^ 32 → size mem = buffer_alloc (is_sparse_ f) bs →
  extents_ok (extents_ f) → Forall (apart (wp_ z) (wp_ z + capacity_ z)) (extents_ f) → file_size_ f = total (extents_ f) →
  Forall (λ e, e_start e + e_length e + total (extents_ f) + capacity_ z < 2 ^ 64) (extents_ f) →
  wp_ z + total (extents_ f) + 2 * capacity_ z < 2 ^ 64 →
  wp (new_ZonedWritableFile mem true h)
    (λ w s', writer_ok h i (f_set_open true f) z w s' ∧ zbd_ s' = zbd_ s ∧ 0 < buffer_sz w ∧ buffer_pos w = 0 ∧
             w_wp w = file_size_ f) s.
Proof.
  intros bs (Hf & Hact & Ho & Hes) Hbs Hmod Hlt Hmem He Ha Hs Had Hl.
  unfold new_ZonedWritableFile, file_at, file_put. repeat wp_step. fold bs.
  assert (0 < buffer_usable (is_sparse_ f) bs) as Hu.
  { unfold buffer_usable, buffer_alloc, BUFFER_SIZE, SPARSE_HEADER_SIZE. destruct (is_sparse_ f); lia. }
  split_and!; try done. split; try done; cbn [buffer_pos buffer_sz sparse_buffer zbd_ set_objs set_handles]; fold bs; [|lia| |].
  - split_and!; [apply lookup_insert_eq|done..].
  - intros n Hn. rewrite flush_size_blocks, Hmem by done. revert Hn.
    unfold data_offset, buffer_usable, buffer_alloc, SPARSE_HEADER_SIZE. cbn [is_sparse_ f_set_open].
    assert (∀ m, (m + bs - 1) / bs * bs ≤ m + bs - 1) as Hle by (intros m; pose proof (Z.mul_div_le (m + bs - 1) bs Hbs); lia).
    destruct (is_sparse_ f); intros Hn; [specialize (Hle (n + 8)); lia|].
    etrans; [apply (Z.mul_le_mono_nonneg_r _ ((BUFFER_SIZE + bs - 1) / bs)); [lia|apply Z.div_le_mono; lia]|].
    apply Z.mod_divide in Hmod as [k Hk]; [|lia]. rewrite Hk. replace (k * bs + bs - 1) with (bs - 1 + k * bs) by lia.
    rewrite Z.div_add, (Z.div_small (bs - 1)) by lia. lia.
  - rewrite Hmem. unfold buffer_alloc. destruct (is_sparse_ f); lia.
Qed.

(** ** Appending *)

Lemma pending_write f w data :
  let off := data_offset f + buffer_pos w in
  0 ≤ data_offset f → 0 ≤ buffer_pos w → off + size data ≤ size (sparse_buffer w) →
  pending f (w_set_pos (buffer_pos w + size data) (w_set_buffer (buf_write off data (sparse_buffer w)) w)) =
    pending f w ++ data ∧ size (buf_write off data (sparse_buffer w)) = size (sparse_buffer w).
Proof.
  intros off H0 Hp Hsz. unfold pending, buf_read, buf_write. cbn [buffer_pos sparse_buffer w_set_pos w_set_buffer].
  set (buf := sparse_buffer w) in *. unfold size in *. split.
  - rewrite drop_app_le, skipn_firstn_comm by (rewrite length_take; lia).
    replace (Z.to_nat off - Z.to_nat (data_offset f))%nat with (Z.to_nat (buffer_pos w)) by lia.
    rewrite app_assoc, take_app_le by (rewrite length_app, length_take, length_drop; lia).
    by rewrite take_ge by (rewrite length_app, length_take, length_drop; lia).
  - rewrite !length_app, length_take, length_drop. lia.
Qed.

(** The bytes that a full buffer takes in the zone. *)
Definition buffer_bytes f w s : Z := flush_size (block_sz_ (zbd_ s)) (data_offset f) (buffer_sz w).

(** The zone has room for the full buffers that writing [n] bytes flushes, and for [m] bytes
    more. *)
Definition write_room (m n : Z) f z w s : Prop :=
  (buffer_pos w + n - 1) / buffer_sz w * buffer_bytes f w s + m < capacity_ z.

(** What the writer and the file are after an append of [data]. *)
Definition grown_by (h i : nat) (m k : Z) (before data : slice) (r : IOStatus * ZonedWritableFile) s' : Prop :=
  r.1 = OK ∧ ∃ f' z', writer_ok h i f' z' r.2 s' ∧ m < capacity_ z' ∧ buffer_bytes f' r.2 s' = k ∧
    written (device (zbd_ s')) f' r.2 = before ++ data.

(** Bytes that fit in the buffer go there. *)
Lemma writer_buffer h i f z w s data :
  let w' := w_set_pos (buffer_pos w + size data)
    (w_set_buffer (buf_write (data_offset f + buffer_pos w) data (sparse_buffer w)) w) in
  writer_ok h i f z w s → buffer_pos w + size data ≤ buffer_sz w →
  writer_ok h i f z w' s ∧ pending f w' = pending f w ++ data.
Proof.
  intros w' [Hh Hbf Hw Hbs Hp Hr Hwid Hext Hap Hsz Had Hlim] Hfit. pose proof (size_nonneg data).
  assert (0 ≤ data_offset f) as H0 by (destruct (data_offset_cases f) as [[_ ->]|[_ ->]]; lia).
  pose proof (flush_size_ge _ (data_offset f) (buffer_pos w + size data) Hbs).
  destruct (pending_write f w data) as [E1 E2]; [done|lia|specialize (Hr (buffer_pos w + size data) ltac:(lia)); lia|].
  split; [|done]. split; try done; unfold w'; cbn [buffer_pos buffer_sz sparse_buffer w_set_pos w_set_buffer]; [lia| |].
  - intros n Hn. rewrite E2. by apply Hr.
  - by rewrite E2.
Qed.

Lemma write_room_flush B p m n q fs c : 0 < B → p = B → 0 ≤ m → 0 < n → 0 ≤ fs → q = 0 →
  (p + n - 1) / B * fs + m < c → fs < c ∧ (q + n - 1) / B * fs + m < c - fs.
Proof.
  intros HB -> Hm Hn Hfs -> Hc. replace (B + n - 1) with (n - 1 + 1 * B) in Hc by lia. rewrite Z.div_add in Hc by lia.
  assert (0 ≤ (n - 1) / B) as Hq by (apply Z.div_pos; lia). rewrite Z.add_0_l. set (k := (n - 1) / B) in *. split; nia.
Qed.

Lemma write_room_slack h i m n f z w s :
  writer_ok h i f z w s → 0 < buffer_sz w → 0 < n → write_room m n f z w s → m < capacity_ z.
Proof.
  intros Hok HB Hn Hr. pose proof (wo_pos _ _ _ _ _ _ Hok). unfold write_room in Hr.
  assert (0 ≤ (buffer_pos w + n - 1) / buffer_sz w) by (apply Z.div_pos; lia).
  assert (0 ≤ data_offset f) by (destruct (data_offset_cases f) as [[_ ->]|[_ ->]]; lia).
  pose proof (flush_size_ge _ (data_offset f) (buffer_sz w) (wo_block _ _ _ _ _ _ Hok)) as Hge.
  fold (buffer_bytes f w s) in Hge. nia.
Qed.

(** A full buffer is flushed first. *)
Lemma wp_make_room now h i m n f z w s :
  writer_ok h i f z w s → 0 < buffer_sz w → 0 ≤ m → 0 < n → write_room m n f z w s →
  wp (if buffer_sz w - buffer_pos w =? 0 then FlushBuffer now w else ret (OK, w))
    (λ r s1, r.1 = OK ∧ ∃ f1 z1, writer_ok h i f1 z1 r.2 s1 ∧ buffer_sz r.2 = buffer_sz w ∧
       buffer_pos r.2 < buffer_sz w ∧ write_room m n f1 z1 r.2 s1 ∧ buffer_bytes f1 r.2 s1 = buffer_bytes f w s ∧
       written (device (zbd_ s1)) f1 r.2 = written (device (zbd_ s)) f w) s.
Proof.
  intros Hok HB Hm Hd Hroom. pose proof (wo_pos _ _ _ _ _ _ Hok) as Hp. case_match eqn:E.
  - apply Z.eqb_eq in E. assert (buffer_pos w = buffer_sz w) as Epos by lia.
    pose proof (flush_size_ge _ (data_offset f) (buffer_sz w) (wo_block _ _ _ _ _ _ Hok)).
    assert (0 ≤ data_offset f) as H0 by (destruct (data_offset_cases f) as [[_ ->]|[_ ->]]; lia).
    destruct (write_room_flush _ _ m n 0 (buffer_bytes f w s) _ HB Epos Hm Hd ltac:(unfold buffer_bytes; lia) eq_refl Hroom)
      as [R1 R2].
    eapply wp_mono; [apply (wp_FlushBuffer now h i f z w s Hok); [lia|by rewrite Epos]|].
    intros [st w1] s1 (Hst & f1 & z1 & Hok1 & Hp1 & HB1 & Hc1 & Hcap & Hbl & Hsp). cbn [fst snd] in *. split; [done|].
    assert (buffer_bytes f1 w1 s1 = buffer_bytes f w s) as Ebb.
    { unfold buffer_bytes, data_offset. by rewrite HB1, Hbl, Hsp. }
    exists f1, z1. split_and!; [done|done|lia| |done|].
    + unfold write_room. rewrite Hp1, HB1, Ebb, Hcap, Epos. exact R2.
    + unfold written, pending, buf_read. by rewrite Hp1, Hc1, app_nil_r.
  - apply Z.eqb_neq in E. wp_step. split; [done|]. exists f, z. split_and!; [done|done|cbn; lia|done..].
Qed.

Lemma wp_write_loop now h i m fuel : ∀ data f z w s,
  writer_ok h i f z w s → 0 < buffer_sz w → (length data ≤ fuel)%nat → 0 ≤ m →
  m < capacity_ z → write_room m (size data) f z w s →
  wp (write_loop now fuel data w) (grown_by h i m (buffer_bytes f w s) (written (device (zbd_ s)) f w) data) s.
Proof.
  induction fuel as [|fuel IH]; intros data f z w s Hok HB Hf Hm Hcap Hroom;
    (destruct data as [|x data0]; [cbn [write_loop]; wp_step; split; [done|]; exists f, z; by rewrite app_nil_r|]).
  { cbn in Hf. lia. }
  cbn [write_loop]. set (data := x :: data0) in *. assert (0 < size data) as Hd by (unfold size, data; cbn; lia). wp_step.
  eapply wp_mono; [by apply (wp_make_room now h i m (size data) f z)|].
  intros [st w1] s1 (Hst & f1 & z1 & Hok1 & HB1 & Hp1 & Hroom1 & <- & <-). cbn [fst snd] in *. subst st.
  change (ok OK) with true. cbn [negb]. unfold file_at. pose proof (wo_writes _ _ _ _ _ _ Hok1) as (Hf1 & _).
  rewrite (wo_file _ _ _ _ _ _ Hok1). repeat wp_step.
  set (n := if _ <? size data then _ else _). pose proof (wo_pos _ _ _ _ _ _ Hok1) as Hq.
  assert (0 < n ≤ size data ∧ buffer_pos w1 + n ≤ buffer_sz w1) as [Hn Hn2]
    by (subst n; case_match eqn:E; [apply Z.ltb_lt in E|apply Z.ltb_ge in E]; lia).
  assert (size (take (Z.to_nat n) data) = n) as Et by (unfold size in *; rewrite length_take; lia).
  assert (size (drop (Z.to_nat n) data) = size data - n) as Edr by (unfold size in *; rewrite length_drop; lia).
  destruct (writer_buffer h i f1 z1 w1 s1 (take (Z.to_nat n) data) Hok1) as [Hok2 Hpend]; [lia|]. rewrite Et in *.
  assert (m < capacity_ z1) as Hc1 by (apply (write_room_slack h i m (size data) f1 z1 w1 s1); [done|lia|done|done]).
  eapply wp_mono; [apply (IH (drop (Z.to_nat n) data) f1 z1 _ s1 Hok2); [cbn; lia|rewrite length_drop; lia|done|done|]|].
  - unfold write_room in *. rewrite Edr. cbn [buffer_pos buffer_sz w_set_pos w_set_buffer].
    by replace (buffer_pos w1 + n + (size data - n) - 1) with (buffer_pos w1 + size data - 1) by lia.
  - intros r s2 (Hst & f2 & z2 & Hok3 & Hc & Hk & Hw). split; [done|]. exists f2, z2. split_and!; [done..|]. rewrite Hw.
    unfold written. by rewrite Hpend, <-!app_assoc, take_drop.
Qed.

Lemma wp_Writer_Append now h i m data f z w s :
  writer_ok h i f z w s → 0 < buffer_sz w → size data < 2 ^ 32 → 0 ≤ m → m < capacity_ z → write_room m (size data) f z w s →
  wp (Writer_Append now data w) (grown_by h i m (buffer_bytes f w s) (written (device (zbd_ s)) f w) data) s.
Proof.
  intros Hok HB Hd Hm Hcap Hroom. pose proof (size_nonneg data). unfold Writer_Append, BufferedWrite.
  rewrite (wo_buffered _ _ _ _ _ _ Hok), u32_small, take_ge by (unfold size in *; lia). by eapply wp_write_loop.
Qed.

(** Flushing whatever is in the buffer. *)
Lemma wp_flush_all now h i f z w s :
  writer_ok h i f z w s → buffer_bytes f w s < capacity_ z →
  wp (FlushBuffer now w)
    (λ r s', r.1 = OK ∧ ∃ f' z', writer_ok h i f' z' r.2 s' ∧ buffer_pos r.2 = 0 ∧
       contents (device (zbd_ s')) (extents_ f') = written (device (zbd_ s)) f w) s.
Proof.
  intros Hok Hcap. pose proof (wo_pos _ _ _ _ _ _ Hok) as Hp. pose proof (wo_block _ _ _ _ _ _ Hok) as Hbs.
  destruct (decide (buffer_pos w = 0)) as [E|E].
  - unfold FlushBuffer. rewrite (proj2 (Z.eqb_eq _ _) E). wp_step. split; [done|]. exists f, z.
    split_and!; [done..|]. unfold written, pending, buf_read. cbn [snd]. by rewrite E, app_nil_r.
  - pose proof (flush_size_mono _ (data_offset f) (buffer_pos w) (buffer_sz w) Hbs ltac:(lia)) as Hmono.
    unfold buffer_bytes in Hcap. eapply wp_mono; [apply (wp_FlushBuffer now h i f z w s Hok); lia|].
    intros r s' (Hst & f' & z' & H1 & H2 & _ & H3 & _). eauto 10.
Qed.

(** The file of a writer that has nothing in its buffer can be read. *)
Lemma writer_reads h i f z w s offset n direct :
  writer_ok h i f z w s → 0 ≤ offset → 0 ≤ n → offset + n < 2 ^ 64 →
  wp (f <- file_at h ;; in_zbd (PositionedRead f offset n direct))
    (λ r _, r = (OK, take (Z.to_nat n) (drop (Z.to_nat offset) (contents (device (zbd_ s)) (extents_ f))))) s.
Proof.
  intros [Hh Hbf Hw Hbs Hp Hr Hwid Hext Hap Hsz Had Hlim] Ho Hn Hon. pose proof Hw as (Hf & _ & (_ & Hrd & _ & Hc0 & _) & _).
  unfold file_at. repeat wp_step. apply wp_in_zbd. eapply wp_mono; [apply wp_PositionedRead; try done|].
  - eapply Forall_impl; [exact Had|]. intros e He. cbv beta in *. lia.
  - intros r b' [-> _]. done.
Qed.

Lemma wp_write_then_read now h i data f z w s offset n direct :
  writer_ok h i f z w s → 0 < buffer_sz w → size data < 2 ^ 32 →
  buffer_bytes f w s < capacity_ z → write_room (buffer_bytes f w s) (size data) f z w s →
  0 ≤ offset → 0 ≤ n → offset + n < 2 ^ 64 →
  wp (r <- Writer_Append now data w ;; r' <- FlushBuffer now r.2 ;;
      f' <- file_at h ;; res <- in_zbd (PositionedRead f' offset n direct) ;; ret (r.1, r'.1, res))
    (λ res s', res = (OK, OK, (OK, take (Z.to_nat n) (drop (Z.to_nat offset) (written (device (zbd_ s)) f w ++ data))))) s.
Proof.
  intros Hok HB Hd Hcap Hroom Ho Hn Hon. wp_step.
  assert (0 ≤ buffer_bytes f w s) as Hm.
  { pose proof (wo_block _ _ _ _ _ _ Hok) as Hbs. pose proof (flush_size_ge _ (data_offset f) (buffer_sz w) Hbs).
    unfold buffer_bytes. destruct (data_offset_cases f) as [[_ E]|[_ E]]; rewrite E in *; lia. }
  eapply wp_mono; [by apply (wp_Writer_Append now h i (buffer_bytes f w s) data f z)|].
  intros [st w1] s1 (Hst & f1 & z1 & Hok1 & Hc1 & Hk1 & Hw1). cbn [fst snd] in *. subst st. wp_step.
  eapply wp_mono; [apply (wp_flush_all now h i f1 z1); [done|lia]|].
  intros [st w2] s2 (Hst & f2 & z2 & Hok2 & _ & Hw2). cbn [fst snd] in *. subst st. apply wp_assoc. wp_step.
  eapply wp_mono; [by eapply writer_reads|]. intros r s3 ->. wp_step. by rewrite Hw2, Hw1.
Qed.
End append.
