(* ===== verification/ZenPersist.v ===== *)
(** * ZenFS: metadata on its way to the device

    The superblock survives its encoding, a record added to the log can be read back, and
    what an update or a deletion persists is the record that replays it. *)

From stdpp Require Import base numbers option list gmap.
From S2P Require Import Prelude ZenCoding ZenTypes ZenZbd ZenFile ZenLog ZenFs ZenMeta.
From S2P Require Import ZenIo ZenWriter ZenOps ZenFileCodec ZenLogSpec ZenSpace ZenRecover.

(** ** The superblock *)

(** Fields of their width, arrays of their size. *)
Record super_ok (sb : Superblock) : Prop := {
  so_magic : magic_ sb = MAGIC;
  so_version : superblock_version_ sb = CURRENT_SUPERBLOCK_VERSION;
  so_uuid : length (uuid_ sb) = 37%nat;
  so_aux : length (aux_fs_path_ sb) = 256%nat;
  so_zenfs : length (zenfs_version_ sb) = 64%nat;
  so_reserved : length (reserved_ sb) = 123%nat;
  so_flags : 0 ≤ flags_ sb < 2 ^ 32;
  so_block : 0 ≤ block_size_ sb < 2 ^ 32;
  so_zone : 0 ≤ zone_size_ sb < 2 ^ 32;
  so_zones : 0 ≤ sb_nr_zones_ sb < 2 ^ 32;
  so_finish : 0 ≤ finish_treshold_ sb < 2 ^ 32
}.

Lemma take32_Put v rest : 0 ≤ v < 2 ^ 32 → take32 (EncodeFixed32 v ++ rest) = (v, rest).
Proof. intros Hv. unfold take32. by rewrite GetFixed32_Put. Qed.

Lemma take_bytes_app n l rest : length l = n → take_bytes n (l ++ rest) = (l, rest).
Proof. intros Hl. unfold take_bytes. by rewrite take_app_n, drop_app_n. Qed.

Lemma super_flat sb :
  (Superblock_EncodeTo sb).1 =
  EncodeFixed32 (magic_ sb) ++ uuid_ sb ++ EncodeFixed32 (u32 (sequence_ sb + 1)) ++
  EncodeFixed32 (superblock_version_ sb) ++ EncodeFixed32 (flags_ sb) ++ EncodeFixed32 (block_size_ sb) ++
  EncodeFixed32 (zone_size_ sb) ++ EncodeFixed32 (sb_nr_zones_ sb) ++ EncodeFixed32 (finish_treshold_ sb) ++
  aux_fs_path_ sb ++ zenfs_version_ sb ++ reserved_ sb.
Proof. unfold Superblock_EncodeTo, PutFixed32. cbn [fst sb_next magic_ uuid_ sequence_ superblock_version_ flags_ block_size_
    zone_size_ sb_nr_zones_ finish_treshold_ aux_fs_path_ zenfs_version_ reserved_ app]. by rewrite <-!app_assoc. Qed.

Lemma super_decode sb : super_ok sb → Superblock_DecodeFrom (Superblock_EncodeTo sb).1 = (OK, Some (sb_next sb)).
Proof.
  intros [Hm Hv Hu Ha Hz Hr H1 H2 H3 H4 H5]. unfold Superblock_DecodeFrom. rewrite super_flat, Hm, Hv.
  assert (size (EncodeFixed32 MAGIC ++ uuid_ sb ++ EncodeFixed32 (u32 (sequence_ sb + 1)) ++
    EncodeFixed32 CURRENT_SUPERBLOCK_VERSION ++ EncodeFixed32 (flags_ sb) ++ EncodeFixed32 (block_size_ sb) ++
    EncodeFixed32 (zone_size_ sb) ++ EncodeFixed32 (sb_nr_zones_ sb) ++ EncodeFixed32 (finish_treshold_ sb) ++
    aux_fs_path_ sb ++ zenfs_version_ sb ++ reserved_ sb) = ENCODED_SIZE) as ->.
  { unfold size. by rewrite !length_app, !length_Fixed32, Hu, Ha, Hz, Hr. }
  change (negb (ENCODED_SIZE =? ENCODED_SIZE)) with false. cbv iota.
  rewrite take32_Put, take_bytes_app by done. rewrite take32_Put by apply u32_range. rewrite !take32_Put by done.
  rewrite !take_bytes_app by done. rewrite <-(app_nil_r (reserved_ sb)), take_bytes_app by done.
  change (negb (MAGIC =? MAGIC)) with false. change (negb (_ =? _)) with false. cbv iota.
  unfold sb_next. by rewrite Hm, Hv.
Qed.

Section persist.
Context {D : ZbdDev} {DOk : ZbdDevOk D} {K : Crc32c} {KOk : Crc32cOk K}.
Implicit Types (b : ZonedBlockDevice) (s : ZenFS).

(** ** The log *)

Lemma wp_add_then_read zn bs r z b :
  appendable (MetaZone zn) z b → bs = block_sz_ b → 0 < bs → record_fits bs r → phys_size bs (size r) ≤ capacity_ z →
  wp_ z mod bs = 0 → wp_ z + capacity_ z ≤ start_ z + max_capacity_ z < 2 ^ 64 →
  wp (st <- AddRecord (mk_log (wp_ z) zn bs) r ;; res <- ReadRecord (mk_log (wp_ z) zn bs) ;; ret (st, res))
    (λ res b', res = (OK, (OK, r, mk_log (wp_ z + phys_size bs (size r)) zn bs))) b.
Proof.
  intros Ho -> Hbs Hfit Hcap Hal Hlim. pose proof Ho as (Hz & Hrd & Hwr & Hc & Hp & Hl). wp_step.
  eapply wp_mono; [by apply (wp_AddRecord (mk_log (wp_ z) zn (block_sz_ b)) r z b)|].
  intros st b1 (-> & d' & -> & Hr' & Hw' & Hs' & _). cbn [log_zone bs_] in *.
  rewrite size_record in * by done. pose proof (size_nonneg r).
  destruct (phys_size_spec (block_sz_ b) (size r) Hbs) as [_ Hps]; [lia|].
  assert (wp_ (z_written (phys_size (block_sz_ b) (size r)) z) = wp_ z + phys_size (block_sz_ b) (size r)) as Hwp.
  { cbn. rewrite u64_small; lia. }
  wp_step. eapply wp_mono.
  { eapply (wp_ReadRecord _ zn (block_sz_ b) (z_written (phys_size (block_sz_ b) (size r)) z) (wp_ z) r); try done.
    - by eapply (zone_of_set (MetaZone zn) z).
    - rewrite Hwp. cbn. lia.
    - cbn. lia. }
  intros res b2 [-> _]. by wp_step.
Qed.

(** The log has room for [r]; [b'] is the device with [r] appended to it. *)
Definition log_room s (log : ZenMetaLog) (z : Zone) (r : slice) : Prop :=
  meta_log_ s = Some log ∧ appendable (MetaZone (log_zone log)) z (zbd_ s) ∧ bs_ log = block_sz_ (zbd_ s) ∧
  0 < bs_ log ∧ record_fits (bs_ log) r ∧ phys_size (bs_ log) (size r) ≤ capacity_ z.
Definition logged (log : ZenMetaLog) (z : Zone) (r : slice) b b' : Prop :=
  appended (MetaZone (log_zone log)) z (record_buffer (bs_ log) r) b b'.

Lemma wp_PersistRecord s log z r :
  log_room s log z r →
  wp (PersistRecord r) (λ st s', st = OK ∧ ∃ b', s' = set_zbd b' s ∧ logged log z r (zbd_ s) b') s.
Proof.
  intros (Hl & Ho & Hbs & Hpos & Hfit & Hcap). unfold PersistRecord. repeat wp_step. apply wp_in_zbd.
  eapply wp_mono; [apply (wp_AddRecord log r z); [done|done|lia|done|done]|]. intros st b' [-> Hb'].
  change (status_eq OK NoSpace) with false. cbv iota. wp_step. split; [done|]. by exists b'.
Qed.

(** ** Updates *)

Lemma wp_SyncFileMetadata now s h f k log z :
  objs s !! h = Some f → is_deleted_ f = false → nr_synced_extents_ f = Z.of_nat k →
  log_room s log z (enc_rec (RUpdate false (f_set_mtime now f) k)) →
  wp (SyncFileMetadataNoLock now h false)
    (λ st s', st = OK ∧ objs s' !! h = Some (MetadataSynced (f_set_mtime now f)) ∧ files_ s' = files_ s ∧
              logged log z (enc_rec (RUpdate false (f_set_mtime now f) k)) (zbd_ s) (zbd_ s')) s.
Proof.
  intros Hf Hd Hk Hroom. unfold SyncFileMetadataNoLock, file_at, file_put. repeat wp_step. rewrite Hd. repeat wp_step.
  assert (EncodeUpdateTo (f_set_mtime now f) [] = ZoneFile_EncodeTo (f_set_mtime now f) [] (Z.of_nat k)) as ->.
  { unfold EncodeUpdateTo. cbn [nr_synced_extents_ f_set_mtime]. by rewrite Hk. }
  eapply wp_mono; [by apply (wp_PersistRecord _ log z)|]. intros st s1 (-> & b' & -> & Hb').
  wp_step. change (ok OK) with true. cbn [when]. wp_step. fs_simpl. eapply wp_load; [apply lookup_insert_eq|].
  repeat wp_step. split_and!; [done|apply lookup_insert_eq|done|exact Hb'].
Qed.

(** A table that holds the synced part of a file holds all of it after the update. *)
Lemma apply_update F g f k :
  F !! file_id_ f = Some g → extents_ g = take k (extents_ f) →
  apply_rec (RUpdate false f k) F = <[file_id_ f := decoded f 0]> F.
Proof.
  intros HF Hg. cbn [apply_rec]. rewrite HF. f_equal. unfold merged. rewrite Hg, take_drop. by destruct f.
Qed.

(** ** Deletions *)

Context {A : AuxFs}.

Lemma wp_in_fs {X} (c : ST ZenFS X) (Q : X → ZenSystem → Prop) w :
  wp c (λ a s, Q a (mk_system s (target w))) (zen w) → wp (in_fs c) Q w.
Proof. unfold wp, in_fs. by destruct (c (zen w)). Qed.

Lemma logged_io_zones log z r b b' : logged log z r b b' → io_zones b' = io_zones b.
Proof. by intros (d & -> & _). Qed.

(** Deleting the only name of a file that nobody uses. *)
Lemma wp_delete_file now p q w h f log z rest zs :
  let s := zen w in
  FormatPathLexically p = q → FormatPathLexically q = q → files_find (files_ s) q = Some h →
  objs s !! h = Some f → linkfiles_ f = [q] → open_for_wr_ f = false → handles s = [] →
  (∀ n, (n, h) ∈ files_ s → n = q) →
  io_zones (zbd_ s) = account (extents_ f ++ rest) zs → room zs (extents_ f ++ rest) →
  log_room s log z (enc_rec (RDelete (file_id_ f) q)) →
  wp (DeleteFileNoLock now p)
    (λ st w', st = OK ∧ files_ (zen w') = files_erase q (files_ s) ∧ objs (zen w') = delete h (objs s) ∧
       target w' = target w ∧
       ∃ b', logged log z (enc_rec (RDelete (file_id_ f) q)) (zbd_ s) b' ∧
             zbd_ (zen w') = set_io_zones (account rest zs) b') w.
Proof.
  intros s Hp Hq Hfind Hf Hl Hop Hh Hone Hz Hr Hroom. unfold DeleteFileNoLock. rewrite Hp. wp_step. apply wp_in_fs.
  wp_step. unfold GetFileNoLock. rewrite Hq. fold s. rewrite Hfind. apply wp_in_fs. cbn [zen target]. fold s.
  unfold with_ref. repeat wp_step. unfold delete_zen, file_at, file_put. repeat wp_step. rewrite Hop. repeat wp_step.
  { by rewrite Hl. }
  rewrite RemoveLinkName_in by (rewrite Hl; by left). rewrite Hl, erase_first_only. repeat wp_step.
  change (ok OK) with true. cbn [negb]. wp_step.
  change (EncodeFileDeletionTo (f_set_links [] f) q) with (enc_rec (RDelete (file_id_ f) q)).
  eapply wp_mono; [by apply (wp_PersistRecord _ log z)|]. intros st s1 (-> & b1 & -> & Hb1). fs_simpl. repeat wp_step.
  eapply wp_load; [apply lookup_insert_eq|]. change (ok OK) with true. cbn [negb linkfiles_ f_set_links].
  rewrite bool_decide_true by done. repeat wp_step. 
  pose proof (logged_io_zones _ _ _ _ _ Hb1) as Ez. revert Ez Hb1. fs_simpl. intros Ez Hb1.
  eapply (wp_drop_last _ _ (f_set_deleted true (f_set_links [] f)) rest zs); fs_simpl.
  - apply lookup_insert_eq.
  - intros n [Hin Hne]%files_erase_elem. by apply Hone in Hin.
  - rewrite Hh. cbn. by rewrite Nat.eqb_refl.
  - done.
  - by rewrite Ez, Hz.
  - done.
  - wp_step. split_and!; [done..| |done|]; fs_simpl.
    + by rewrite !delete_insert_eq.
    + exists b1. split; [exact Hb1|done].
Qed.
End persist.
