(* ===== verification/ZenMountSpec.v ===== *)
(** * ZenFS: mounting

    What [Mount] does with the metadata zones: it takes the log with the highest sequence
    number that has a snapshot, and ends with the table of files that the log describes. *)

From stdpp Require Import base numbers option list gmap.
From S2P Require Import Prelude ZenCoding ZenTypes ZenZbd ZenFile ZenLog ZenFs ZenMeta ZenIo ZenWriter.
From S2P Require Import ZenOps ZenMount ZenFileCodec ZenLogSpec ZenSpace ZenRecover ZenReplay ZenPersist.

(** A superblock and the records after it. *)
Notation meta_log := (Superblock * list mrec)%type.

Section mount.
Context {D : ZbdDev} {DOk : ZbdDevOk D} {K : Crc32c} {KOk : Crc32cOk K} {A : AuxFs}.
Implicit Types (b : ZonedBlockDevice) (s : ZenFS) (F : gmap Z ZoneFile) (rs : list mrec).

(** ** The metadata zones during the mount *)

(** Metadata zones as in [b], except that those in [hs] are held. *)
Definition held_zone (hs : list nat) (i : nat) (z : Zone) : Zone := z_set_busy (bool_decide (i ∈ hs)) z.

Record meta_inv b (hs : list nat) s : Prop := {
  mi_zones : meta_zones (zbd_ s) = imap (held_zone hs) (meta_zones b);
  mi_block : block_sz_ (zbd_ s) = block_sz_ b;
  mi_size : zone_sz_ (zbd_ s) = zone_sz_ b;
  mi_nr : nr_zones_ (zbd_ s) = nr_zones_ b;
  mi_dev : dev_same (device b) (device (zbd_ s))
}.

Lemma hold_ext hs hs' zs : (∀ i, i ∈ hs ↔ i ∈ hs') → imap (held_zone hs) zs = imap (held_zone hs') zs.
Proof. intros H. apply imap_ext. intros i z _. unfold held_zone. f_equal. by apply bool_decide_ext. Qed.

Lemma meta_inv_ext b hs hs' s : (∀ i, i ∈ hs ↔ i ∈ hs') → meta_inv b hs s → meta_inv b hs' s.
Proof. intros H []. split; try done. by rewrite <-(hold_ext hs). Qed.

Lemma meta_inv_lookup b hs s i z :
  meta_inv b hs s → meta_zones b !! i = Some z → zone_of (MetaZone i) (zbd_ s) = Some (held_zone hs i z).
Proof. intros I Hz. cbn. by rewrite (mi_zones _ _ _ I), list_lookup_imap, Hz. Qed.

Lemma hold_insert hs hs' zs i z :
  zs !! i = Some z → (∀ j, j ≠ i → j ∈ hs' ↔ j ∈ hs) →
  <[i := held_zone hs' i z]> (imap (held_zone hs) zs) = imap (held_zone hs') zs.
Proof.
  intros Hz H. apply list_eq. intros j. destruct (decide (j = i)) as [->|Hne].
  - rewrite list_lookup_insert_eq, list_lookup_imap, Hz; [done|]. rewrite length_imap. by eapply lookup_lt_Some.
  - rewrite list_lookup_insert_ne, !list_lookup_imap by done. destruct (zs !! j); [|done]. cbn. f_equal.
    unfold held_zone. f_equal. apply bool_decide_ext. by rewrite H.
Qed.

(** What stays the same when zones are acquired and released and logs are read. *)
Definition same_fs s s' : Prop := ∃ b',
  s' = set_zbd b' s ∧ io_zones b' = io_zones (zbd_ s) ∧ zone_sz_ b' = zone_sz_ (zbd_ s) ∧
  active_io_zones_ b' = active_io_zones_ (zbd_ s) ∧ open_io_zones_ b' = open_io_zones_ (zbd_ s) ∧
  finish_threshold_ b' = finish_threshold_ (zbd_ s).

Lemma same_fs_rep b s s' F : same_fs s s' → rep b s F → rep b s' F.
Proof. intros (b' & -> & Hz & Hs & _) []. split; cbn; try done; congruence. Qed.

Lemma meta_inv_reads b hs s b' : meta_inv b hs s → after_reads (zbd_ s) b' → meta_inv b hs (set_zbd b' s).
Proof.
  intros [Hz Hb Hs Hn (Hr & Hby & Hw)] (d & -> & Hr' & Hby' & Hw'). split; cbn; try done.
  split_and!; [done|intros a; by rewrite Hby', Hby|auto].
Qed.

Lemma same_fs_reads s b' : after_reads (zbd_ s) b' → same_fs s (set_zbd b' s).
Proof. intros (d & -> & _). eexists. by split. Qed.

Lemma wp_hold b hs s i z :
  meta_inv b hs s → meta_zones b !! i = Some z → i ∉ hs →
  wp (in_zbd (Acquire (MetaZone i)))
    (λ r s', r = true ∧ meta_inv b (i :: hs) s' ∧ same_fs s s') s.
Proof.
  intros I Hz Hi. apply wp_in_zbd. unfold Acquire, zone_upd, zone_at. repeat wp_step.
  eapply wp_load; [by eapply meta_inv_lookup|]. unfold held_zone at 1. rewrite bool_decide_false by done. cbn [busy_ z_set_busy].
  repeat wp_step. eapply wp_load; [by eapply meta_inv_lookup|]. repeat wp_step. split; [done|].
  assert (z_set_busy true (held_zone hs i z) = held_zone (i :: hs) i z) as ->.
  { unfold held_zone. by rewrite (bool_decide_true (i ∈ i :: hs)) by apply elem_of_cons, or_introl, eq_refl. }
  destruct I as [Iz Ib Is In Id]. split.
  - split; cbn; try done. rewrite Iz. apply hold_insert; [done|]. intros j Hj. rewrite elem_of_cons. naive_solver.
  - eexists. by split_and!.
Qed.

Lemma wp_unhold b hs hs' s log z :
  meta_inv b hs s → meta_zones b !! log_zone log = Some z → log_zone log ∈ hs →
  (∀ j, j ∈ hs' ↔ j ∈ hs ∧ j ≠ log_zone log) →
  wp (in_zbd (delete_ZenMetaLog log)) (λ _ s', meta_inv b hs' s' ∧ same_fs s s') s.
Proof.
  intros I Hz Hi Hh. set (i := log_zone log) in *. apply wp_in_zbd. unfold delete_ZenMetaLog, Release, zone_upd, zone_at.
  fold i. repeat wp_step.
  eapply wp_load; [by eapply meta_inv_lookup|]. unfold held_zone at 1. rewrite bool_decide_true by done. cbn [busy_ z_set_busy].
  repeat wp_step. eapply wp_load; [by eapply meta_inv_lookup|]. repeat wp_step; [done|].
  assert (z_set_busy false (held_zone hs i z) = held_zone hs' i z) as ->.
  { unfold held_zone. rewrite (bool_decide_false (i ∈ hs')) by (rewrite Hh; naive_solver). done. }
  destruct I as [Iz Ib Is In Id]. split.
  - split; cbn; try done. rewrite Iz. apply hold_insert; [done|]. intros j Hj. rewrite Hh. naive_solver.
  - eexists. by split_and!.
Qed.

Lemma wp_new_log b hs s i z :
  meta_inv b hs s → meta_zones b !! i = Some z → i ∈ hs →
  wp (in_zbd (new_ZenMetaLog i)) (λ log s', log = mk_log (start_ z) i (block_sz_ b) ∧ s' = s) s.
Proof.
  intros I Hz Hi. apply wp_in_zbd. unfold new_ZenMetaLog, zone_at. repeat wp_step.
  eapply wp_load; [by eapply meta_inv_lookup|]. unfold held_zone. rewrite bool_decide_true by done. repeat wp_step; [done|].
  rewrite (mi_block _ _ _ I). split; [done|by destruct s].
Qed.

(** ** What the metadata zones held_zone *)

(** A zone is blank, or holds a log that starts with a superblock for this device. *)
Definition contains b (i : nat) (z : Zone) (l : option meta_log) : Prop :=
  match l with
  | None => wp_ z = start_ z
  | Some (sb, rs) => ∃ r pos, let bs := block_sz_ b in
      size r ≠ 0 ∧ Superblock_DecodeFrom r = (OK, Some sb) ∧ CompatibleWith sb b = OK ∧
      record_fits bs r ∧ stores (device b) (start_ z) (record_buffer bs r) ∧ start_ z mod bs = 0 ∧ 0 ≤ start_ z ∧
      pos = start_ z + phys_size bs (size r) ∧ log_at b i z bs pos rs
  end.
Definition holds b (i : nat) (l : option meta_log) : Prop := ∃ z,
  meta_zones b !! i = Some z ∧ busy_ z = false ∧ contains b i z l.

(** A log that was found: where it is read next and what is there. *)
Definition found b (x : Superblock * ZenMetaLog) (y : meta_log) : Prop :=
  x.1 = y.1 ∧ bs_ x.2 = block_sz_ b ∧
  ∃ z, log_at b (log_zone x.2) z (block_sz_ b) (read_pos_ x.2) y.2.

Definition zones_of (l : list (Superblock * ZenMetaLog)) : list nat := log_zone ∘ snd <$> l.

Lemma insert_desc_perm {X} (x : Superblock * X) l : insert_desc x l ≡ₚ x :: l.
Proof. induction l as [|y l IH]; cbn; [done|]. case_match; [done|]. rewrite IH. apply perm_swap. Qed.

Lemma insert_desc_found b x y l k :
  found b x y → Forall2 (found b) l k → Forall2 (found b) (insert_desc x l) (insert_desc y k).
Proof.
  intros Hx. induction 1 as [|x' y' l k Hx' H IH]; cbn; [by constructor|].
  pose proof Hx as [E _]. pose proof Hx' as [E' _]. rewrite <-E, <-E'. case_match; constructor; try done. by constructor.
Qed.

(** The logs, newest first. *)
Definition newest_first (ls : list (option meta_log)) (k : list meta_log) : list meta_log :=
  foldl (λ k l, match l with Some y => insert_desc y k | None => k end) k ls.

Lemma log_at_held b hs s i z z0 bs pos rs :
  meta_inv b hs s → log_at b i z bs pos rs → meta_zones b !! i = Some z0 → 
  ∃ z', log_at (zbd_ s) i z' bs pos rs.
Proof.
  intros I L Hz0. pose proof (meta_inv_lookup _ _ _ _ _ I Hz0) as Hz'. destruct L as [Hbs Hz Hr Hf Hst Hp Hwp Hlim He].
  cbn in Hz. rewrite Hz0 in Hz. injection Hz as ->. exists (held_zone hs i z). pose proof (mi_dev _ _ _ I) as Hs.
  split; try done; [apply Hs|by eapply stores_same|]. cbn [wp_ held_zone z_set_busy].
  destruct He as [He|(He1 & He2 & He3)]; [by left|right]. split_and!; [done|by eapply stores_same|done].
Qed.

Lemma same_fs_refl s : same_fs s s.
Proof. exists (zbd_ s). split_and!; try done. by destruct s. Qed.

Lemma same_fs_trans s1 s2 s3 : same_fs s1 s2 → same_fs s2 s3 → same_fs s1 s3.
Proof.
  intros (b1 & -> & E1 & E2 & E3 & E4 & E5) (b2 & -> & E6 & E7 & E8 & E9 & E10). exists b2. cbn in *. split_and!; try done; congruence.
Qed.

(** ** Finding the superblocks *)

(** The first record of a zone. *)
Definition first_record b (i : nat) (l : option meta_log) (res : IOStatus * slice * ZenMetaLog) : Prop :=
  ∃ r pos, res = (OK, r, mk_log pos i (block_sz_ b)) ∧
  match l with
  | None => size r = 0
  | Some (sb, rs) => size r ≠ 0 ∧ Superblock_DecodeFrom r = (OK, Some sb) ∧ CompatibleWith sb b = OK ∧
                     found b (sb, mk_log pos i (block_sz_ b)) (sb, rs)
  end.

Lemma wp_first_record b hs s i l z :
  meta_inv b hs s → holds b i l → meta_zones b !! i = Some z →
  wp (in_zbd (ReadRecord (mk_log (start_ z) i (block_sz_ b))))
    (λ res s', first_record b i l res ∧ meta_inv b hs s' ∧ same_fs s s') s.
Proof.
  intros I (z' & Hz' & _ & Hl) Hz. rewrite Hz in Hz'. injection Hz' as <-. apply wp_in_zbd.
  pose proof (meta_inv_lookup _ _ _ _ _ I Hz) as Hs. pose proof (mi_dev _ _ _ I) as Hd.
  destruct l as [[sb rs]|].
  - destruct Hl as (r & pos & Hsz & Hdec & Hc & Hf & Hst & Hal & H0 & -> & L).
    pose proof L as [Hbs _ _ _ _ _ Hwp Hlim _]. pose proof (size_nonneg (log_image (block_sz_ b) rs)). eapply wp_mono.
    { eapply (wp_ReadRecord _ _ _ _ _ r Hs); try done; [apply Hd|by eapply stores_same|cbn; lia]. }
    intros res b' [-> Hb']. split_and!; [|by eapply meta_inv_reads|by apply same_fs_reads].
    eexists r, _. split; [done|]. split_and!; try done. split; [done|]. split; [done|]. eexists. exact L.
  - cbn in Hl. eapply wp_mono; [eapply (wp_ReadRecord_end _ _ _ _ _ Hs); [apply Hd|cbn; lia]|].
    intros res b' [-> Hb']. split_and!; [|by eapply meta_inv_reads|by apply same_fs_reads]. by eexists [], _.
Qed.

Lemma zones_insert x l i : i ∈ zones_of (insert_desc x l) ↔ i ∈ zones_of (x :: l).
Proof. unfold zones_of. by rewrite insert_desc_perm. Qed.

Lemma CompatibleWith_inv b hs s sb : meta_inv b hs s → CompatibleWith sb (zbd_ s) = CompatibleWith sb b.
Proof. intros [_ Hb Hs Hn _]. unfold CompatibleWith. by rewrite Hb, Hs, Hn. Qed.

Lemma wp_find_superblocks b : ∀ ls k valid ys s,
  (∀ j l, ls !! j = Some l → holds b (k + j) l) →
  Forall2 (found b) valid ys → (∀ i, i ∈ zones_of valid → (i < k)%nat) → NoDup (zones_of valid) →
  meta_inv b (zones_of valid) s →
  wp (find_superblocks (seq k (length ls)) valid)
    (λ r s', ∃ valid', r = (OK, valid') ∧ Forall2 (found b) valid' (newest_first ls ys) ∧
       NoDup (zones_of valid') ∧ meta_inv b (zones_of valid') s' ∧ same_fs s s') s.
Proof.
  induction ls as [|l ls IH]; intros k valid ys s Hls Hv Hk Hnd I; cbn [length seq find_superblocks].
  { wp_step. exists valid. split_and!; try done. apply same_fs_refl. }
  pose proof (Hls 0%nat l eq_refl) as Hl. rewrite Nat.add_0_r in Hl. pose proof Hl as (z & Hz & _ & _).
  assert (∀ j l, ls !! j = Some l → holds b (S k + j) l) as Hls'.
  { intros j l' Hj. specialize (Hls (S j) l' Hj). by rewrite Nat.add_succ_r in Hls. }
  assert (k ∉ zones_of valid) as Hkv by (intros ?%Hk; lia).
  wp_step. eapply wp_mono; [by apply (wp_hold b _ s k z I Hz)|]. intros got s1 (-> & I1 & S1). repeat wp_step; [done|].
  eapply wp_mono; [apply (wp_new_log b _ s1 k z I1 Hz); set_solver|]. intros log ? [-> ->]. wp_step.
  eapply wp_mono; [by apply (wp_first_record b _ s1 k l z I1)|].
  intros res s2 ((r & pos & -> & Hr) & I2 & S2). cbv iota. change (ok OK) with true. cbn [negb orb].
  assert (same_fs s s2) as S02 by by eapply same_fs_trans.
  destruct l as [[sb rs]|]; cbv iota in Hr.
  - destruct Hr as (Hsz & Hdec & Hc & Hf). rewrite (proj2 (Z.eqb_neq _ _)) by done. wp_step. wp_step.
    rewrite Hdec. cbv iota. change (ok OK) with true. cbv iota. rewrite (CompatibleWith_inv b _ s2 _ I2), Hc.
    change (ok OK) with true. cbn [negb]. eapply wp_mono.
    { apply (IH (S k) _ (insert_desc (sb, rs) ys) s2 Hls'); [by apply insert_desc_found| | |].
      - intros i. rewrite zones_insert. cbn. rewrite elem_of_cons. intros [->|?%Hk]; cbn; lia.
      - unfold zones_of. rewrite insert_desc_perm. by constructor.
      - eapply meta_inv_ext; [|exact I2]. intros i. rewrite zones_insert. done. }
    intros r' s3 (valid' & -> & H1 & H2 & H3 & H4). exists valid'. split_and!; try done. by eapply same_fs_trans.
  - rewrite Hr. change (0 =? 0) with true. cbv iota. wp_step.
    eapply wp_mono; [apply (wp_unhold b _ (zones_of valid) s2 (mk_log pos k _) z I2 Hz); cbn; set_solver|].
    intros _ s3 [I3 S3]. eapply wp_mono; [by apply (IH (S k) valid ys s3 Hls' Hv); [intros i ?%Hk; lia| |]|].
    intros r' s4 (valid' & -> & H1 & H2 & H3 & H4). exists valid'. split_and!; try done.
    eapply same_fs_trans; [exact S02|]. by eapply same_fs_trans.
Qed.

(** ** Recovering *)

(** The newest log that has a snapshot, and the table after the replay of that log and of
    those that were tried before it. *)
Fixpoint recovered F (ys : list meta_log) : option (Superblock * gmap Z ZoneFile) :=
  match ys with
  | [] => None
  | (sb, rs) :: ys' => if existsb is_snapshot rs then Some (sb, replay rs F) else recovered (replay rs F) ys'
  end.

(** The records of all logs that are tried are ones the file system writes. *)
Fixpoint valid_logs b F (ys : list meta_log) : Prop :=
  match ys with
  | [] => True
  | (sb, rs) :: ys' => valid_recs b F rs ∧ (existsb is_snapshot rs = false → valid_logs b (replay rs F) ys')
  end.

Lemma kept_log_inv b hs s s' : kept_log s s' → meta_inv b hs s → meta_inv b hs s'.
Proof.
  intros (_ & _ & zs & d & E & Hr & Hb & Hw) [Iz Ib Is In (_ & Ib' & Iw)]. split; rewrite ?E; cbn; try done.
  split_and!; [done|intros a; by rewrite Hb, Ib'|auto].
Qed.

Lemma found_zone b x y : found b x y → ∃ z, meta_zones b !! log_zone x.2 = Some z.
Proof. intros (_ & _ & z & L). exists z. apply (la_zone _ _ _ _ _ _ L). Qed.

(** Tokens and the pointers to log and superblock are not touched by recovery. *)
Definition same_pointers s s' : Prop :=
  superblock_ s' = superblock_ s ∧ active_io_zones_ (zbd_ s') = active_io_zones_ (zbd_ s) ∧
  open_io_zones_ (zbd_ s') = open_io_zones_ (zbd_ s).

Lemma same_fs_pointers s s' : same_fs s s' → same_pointers s s'.
Proof. by intros (b' & -> & _ & _ & Ha & Ho & _). Qed.
Lemma kept_log_pointers s s' : kept_log s s' → same_pointers s s'.
Proof. intros (_ & Hs & zs & d & E & _). split; [done|]. by rewrite E. Qed.
Lemma same_pointers_trans s1 s2 s3 : same_pointers s1 s2 → same_pointers s2 s3 → same_pointers s1 s3.
Proof. unfold same_pointers. intros (-> & -> & ->) (-> & -> & ->). done. Qed.

Lemma wp_try_recover now b : ∀ logs ys s F,
  Forall2 (found b) logs ys → NoDup (zones_of logs) → meta_inv b (zones_of logs) s → rep b s F → valid_logs b F ys →
  wp (try_recover now logs)
    (λ r s', match recovered F ys with
       | None => r = (IOError, None) ∧ meta_inv b [] s' ∧ same_pointers s s'
       | Some (sb, F') => ∃ log logs', r = (OK, Some (sb, logs')) ∧ meta_log_ s' = Some log ∧ rep b s' F' ∧
           bs_ log = block_sz_ b ∧ is_Some (meta_zones b !! log_zone log) ∧
           Forall (λ x, ∃ z, meta_zones b !! log_zone x.2 = Some z) logs' ∧
           NoDup (log_zone log :: zones_of logs') ∧
           meta_inv b (log_zone log :: zones_of logs') s' ∧ same_pointers s s'
       end) s.
Proof.
  induction logs as [|[sb log] logs IH]; intros ys s F Hf Hnd I R Hv.
  { apply Forall2_nil_inv_l in Hf as ->. cbn [try_recover recovered]. wp_step. split_and!; done. }
  apply Forall2_cons_inv_l in Hf as ([sb' rs] & ys' & Hx & Hf & ->). pose proof Hx as [E (Ebs & z & L)]. cbn in E, Ebs, L. subst sb'.
  destruct (found_zone _ _ _ Hx) as [z0 Hz0]. cbn in Hz0. destruct Hv as [Hv Hvs].
  destruct (log_at_held b _ s _ _ _ _ _ _ I L Hz0) as [z' L']. cbn [try_recover recovered]. wp_step. eapply wp_mono.
  { destruct log as [pos zn bs]. cbn in Ebs. subst bs. eapply (wp_RecoverFrom now b); [exact L'|exact R|exact Hv]. }
  intros st s1 (-> & R1 & Hk). pose proof (kept_log_inv b _ _ _ Hk I) as I1. pose proof (kept_log_pointers _ _ Hk) as P1.
  cbn [zones_of fmap list_fmap compose snd] in I1, Hnd. destruct (existsb is_snapshot rs).
  - change (ok OK) with true. cbv iota. repeat wp_step. exists log, logs. split_and!; try done.
    + by destruct R1.
    + eapply Forall2_Forall_l; [exact Hf|]. apply Forall_forall. intros y _ x ?. by eapply found_zone.
    + by destruct I1.
  - change (ok NotFound) with false. cbv iota. wp_step. apply NoDup_cons in Hnd as [Hni Hnd].
    eapply wp_mono; [apply (wp_unhold b _ (zones_of logs) s1 log z0 I1 Hz0); set_solver|]. intros _ s2 [I2 S2].
    change (IsNotFound NotFound) with true. cbv iota.
    eapply wp_mono; [by apply (IH ys' s2 _ Hf Hnd I2 (same_fs_rep _ _ _ _ S2 R1)); auto|].
    assert (same_pointers s s2) as P2 by (eapply same_pointers_trans, same_fs_pointers; done).
    intros r s3. destruct (recovered (replay rs F) ys') as [[sb' F']|].
    + intros (log' & logs' & -> & H1 & H2 & H3 & H4 & H5 & H6 & H7 & H8). exists log', logs'. split_and!; try done.
      by eapply same_pointers_trans.
    + intros (-> & H1 & H2). split_and!; try done. by eapply same_pointers_trans.
Qed.

(** ** Mounting *)

Lemma wp_release_logs b : ∀ logs i s,
  Forall (λ x, ∃ z, meta_zones b !! log_zone x.2 = Some z) logs → NoDup (i :: zones_of logs) →
  meta_inv b (i :: zones_of logs) s →
  wp (release_logs logs) (λ _ s', meta_inv b [i] s' ∧ same_fs s s') s.
Proof.
  induction logs as [|[sb log] logs IH]; intros i s Hl Hnd I; cbn [release_logs].
  { wp_step. split; [done|apply same_fs_refl]. }
  apply Forall_cons in Hl as [[z Hz] Hl]. cbn [zones_of fmap list_fmap compose snd] in *. fold (zones_of logs) in *.
  apply NoDup_cons in Hnd as [Hi [Hz' Hnd]%NoDup_cons]. wp_step.
  eapply wp_mono; [apply (wp_unhold b _ (i :: zones_of logs) s log z I Hz); set_solver|]. intros _ s1 [I1 S1].
  eapply wp_mono; [apply (IH i s1 Hl); [apply NoDup_cons; set_solver|done]|].
  intros _ s2 [I2 S2]. split; [done|by eapply same_fs_trans].
Qed.

Lemma wp_repair_loop fs s :
  (∀ e, e ∈ fs → ∃ f, objs s !! e.2 = Some f ∧ HasActiveExtent f = false) →
  wp (repair_loop fs) (λ st s', st = OK ∧ s' = s) s.
Proof.
  induction fs as [|[n h] fs IH]; intros H; cbn [repair_loop]; [by wp_step|].
  destruct (H (n, h)) as (f & Hf & Ha); [set_solver|]. cbn in Hf. unfold file_at. repeat wp_step. rewrite Ha.
  apply IH. intros e He. apply H. set_solver.
Qed.

(** No file has an extent that was being written. *)
Definition settled F : Prop := ∀ id f, F !! id = Some f → HasActiveExtent f = false.

Lemma wp_Repair b s F : rep b s F → settled F → wp Repair (λ st s', st = OK ∧ s' = s) s.
Proof.
  intros R HF. unfold Repair. repeat wp_step. apply wp_repair_loop. intros [n h] Hin.
  pose proof (rp_table _ _ _ R) as T. apply (tb_names _ _ _ T) in Hin as (f & Hf & _). exists f. split; [done|].
  eapply HF. by eapply tb_in.
Qed.

(** A file system just constructed on a device whose metadata zones held_zone the logs [ls]. *)
Record mountable (w : ZenSystem) (ls : list (option meta_log)) : Prop := {
  mo_zones : length ls = length (meta_zones (zbd_ (zen w)));
  mo_enough : (2 ≤ length ls)%nat;
  mo_holds : ∀ i l, ls !! i = Some l → holds (zbd_ (zen w)) i l;
  mo_dev : readable (device (zbd_ (zen w)));
  mo_empty : rep (zbd_ (zen w)) (zen w) ∅;
  mo_valid : valid_logs (zbd_ (zen w)) ∅ (newest_first ls [])
}.

Lemma mountable_inv w ls : mountable w ls → meta_inv (zbd_ (zen w)) [] (zen w).
Proof.
  intros [Hlen _ Hh Hr _ _]. split; try done. apply list_eq. intros i. rewrite list_lookup_imap.
  destruct (meta_zones _ !! i) as [z|] eqn:Hz; [|done]. cbn.
  destruct (lookup_lt_is_Some_2 ls i) as [l Hl]; [rewrite Hlen; by eapply lookup_lt_Some|].
  destruct (Hh _ _ Hl) as (z' & Hz' & Hb & _). rewrite Hz in Hz'. injection Hz' as <-. unfold held_zone.
  rewrite bool_decide_false by set_solver. rewrite <-Hb. by destruct z.
Qed.

(** The state after recovery with superblock [sb], table [F] and the zone of [log] held. *)
Definition mounted b sb F (s s' : ZenFS) : Prop := ∃ log,
  meta_log_ s' = Some log ∧ superblock_ s' = Some sb ∧ finish_threshold_ (zbd_ s') = finish_treshold_ sb ∧
  rep b s' F ∧ meta_inv b [log_zone log] s' ∧ bs_ log = block_sz_ b ∧ is_Some (meta_zones b !! log_zone log) ∧
  active_io_zones_ (zbd_ s') = active_io_zones_ (zbd_ s) ∧ open_io_zones_ (zbd_ s') = open_io_zones_ (zbd_ s).

Lemma wp_in_aux {X} (c : aux → X * aux) (Q : X → ZenSystem → Prop) w :
  Q (c (target w)).1 (mk_system (zen w) (c (target w)).2) → wp (in_aux c) Q w.
Proof. unfold wp, in_aux. by destruct (c (target w)). Qed.

(** Up to the end of recovery. *)
Lemma wp_Mount_found now readonly w ls (Q : IOStatus → ZenSystem → Prop) :
  mountable w ls →
  (∀ logs s', Forall2 (found (zbd_ (zen w))) logs (newest_first ls []) → NoDup (zones_of logs) →
     meta_inv (zbd_ (zen w)) (zones_of logs) s' → same_fs (zen w) s' →
     wp (mount_logs now readonly logs) Q (mk_system s' (target w))) →
  wp (Mount now readonly) Q w.
Proof.
  intros M H. pose proof (mountable_inv w ls M) as I. destruct M as [Hlen H2 Hh Hd _ _]. unfold Mount.
  wp_step. apply wp_in_fs. wp_step. rewrite <-Hlen. rewrite (proj2 (Nat.ltb_ge _ _)) by done. wp_step. apply wp_in_fs.
  replace (mk_system (zen w) (target w)) with w by (by destruct w).
  eapply wp_mono; [apply (wp_find_superblocks (zbd_ (zen w)) ls 0 [] [] (zen w)); try done|].
  - intros i Hi. by apply not_elem_of_nil in Hi.
  - by constructor.
  - intros r s' (logs & -> & Hf & Hnd & I' & S'). cbv iota. change (ok OK) with true. cbn [negb]. by apply H.
Qed.

Lemma wp_Mount now readonly w ls sb F (Q : IOStatus → ZenSystem → Prop) :
  mountable w ls → recovered ∅ (newest_first ls []) = Some (sb, F) →
  (aux_CreateDirIfMissing (GetAuxFsPath sb) (target w)).1 = OK →
  (∀ s' a, mounted (zbd_ (zen w)) sb F (zen w) s' → wp (finish_mount now readonly) (λ st s, Q st (mk_system s a)) s') →
  wp (Mount now readonly) Q w.
Proof.
  intros M HF Haux HQ. eapply wp_Mount_found; [exact M|]. intros logs s1 Hf Hnd I1 S1. set (b := zbd_ (zen w)) in *.
  unfold mount_logs. rewrite bool_decide_false; [|intros ->; apply Forall2_nil_inv_l in Hf; by rewrite Hf in HF].
  wp_step. apply wp_in_fs. eapply wp_mono.
  { apply (wp_try_recover now b logs _ s1 ∅ Hf Hnd I1); [|apply (mo_valid _ _ M)].
    eapply same_fs_rep; [exact S1|apply (mo_empty _ _ M)]. }
  intros r s2 H2. rewrite HF in H2. destruct H2 as (log & logs' & -> & Hl & R2 & Hbs & Hsome & Hl' & Hnd' & I2 & P2).
  cbv iota. wp_step. apply wp_in_fs. wp_step. wp_step. apply wp_in_fs, wp_in_zbd. wp_step. wp_step. apply wp_in_aux.
  wp_step. apply wp_in_fs.
  cbn [target zen]. eapply wp_mono.
  { apply (wp_release_logs b logs' (log_zone log)); [done|done|]. destruct I2. by split. }
  intros _ s3 [I3 S3]. rewrite Haux. change (ok OK) with true. cbn [negb]. apply wp_in_fs. cbn [target zen]. apply HQ.
  exists log. apply same_fs_pointers in S1. destruct S1 as (_ & Ha1 & Ho1), P2 as (_ & Ha2 & Ho2).
  pose proof S3 as (b3 & -> & E1 & E2 & E3 & E4 & E5). cbn in E3, E4, E5.
  split_and!; try done; cbn; try congruence. eapply same_fs_rep; [exact S3|]. destruct R2. by split.
Qed.

Lemma wp_Mount_readonly now w ls sb F :
  mountable w ls → recovered ∅ (newest_first ls []) = Some (sb, F) → settled F →
  (aux_CreateDirIfMissing (GetAuxFsPath sb) (target w)).1 = OK →
  wp (Mount now true) (λ st w', st = OK ∧ mounted (zbd_ (zen w)) sb F (zen w) (zen w')) w.
Proof.
  intros M HF Hs Haux. eapply wp_Mount; try done. intros s' a Hm. unfold finish_mount. wp_step.
  assert (rep (zbd_ (zen w)) s' F) as R by (by destruct Hm as (log & _ & _ & _ & R & _)).
  eapply wp_mono; [by eapply wp_Repair|]. intros st ? [-> ->]. change (ok OK) with true. cbn [negb]. by wp_step.
Qed.

(** Without a snapshot the mount fails, and all metadata zones are free again. *)
Lemma wp_Mount_fails now readonly w ls :
  mountable w ls → recovered ∅ (newest_first ls []) = None →
  wp (Mount now readonly)
    (λ st w', st = (if bool_decide (newest_first ls [] = []) then NotFound else IOError) ∧
              meta_inv (zbd_ (zen w)) [] (zen w') ∧ superblock_ (zen w') = superblock_ (zen w)) w.
Proof.
  intros M HF. eapply wp_Mount_found; [exact M|]. intros logs s1 Hf Hnd I1 S1. unfold mount_logs.
  case_bool_decide as Hl.
  { subst logs. apply Forall2_nil_inv_l in Hf. rewrite Hf, bool_decide_true by done. wp_step.
    split_and!; [done|exact I1|by destruct S1 as (? & -> & _)]. }
  rewrite (bool_decide_false (newest_first ls [] = [])); [|intros E; rewrite E in Hf; by apply Forall2_nil_inv_r in Hf].
  wp_step. apply wp_in_fs. eapply wp_mono.
  { apply (wp_try_recover now _ logs _ s1 ∅ Hf Hnd I1); [|apply (mo_valid _ _ M)].
    eapply same_fs_rep; [exact S1|apply (mo_empty _ _ M)]. }
  intros r s2 H2. rewrite HF in H2. destruct H2 as (-> & I2 & P2). cbv iota. wp_step. split_and!; [done|exact I2|].
  destruct P2 as (E & _). cbn [zen]. rewrite E. by destruct S1 as (? & -> & _).
Qed.
End mount.
