(* ===== verification/ZenFormat.v ===== *)
(** * ZenFS: writing new metadata logs

    Resetting zones and starting a log in one: what [RollMetaZoneLocked] and [MkFS] leave
    on the device is what [Mount] recovers from. *)

From stdpp Require Import base numbers option list gmap.
From S2P Require Import Prelude ZenCoding ZenTypes ZenZbd ZenFile ZenLog ZenFs ZenMeta ZenIo ZenWriter.
From S2P Require Import ZenOps ZenMount ZenFileCodec ZenLogSpec ZenSpace ZenRecover ZenReplay ZenPersist ZenMountSpec.

(** ** A device whose zones can be reset and finished

    [is_zone a n]: a zone of [n] bytes starts at [a]; [zone_cap a] of them can be written. *)
Class ZbdZonesOk (D : ZbdDev) (DOk : ZbdDevOk D) := {
  is_zone : Z → Z → Prop;
  zone_cap : Z → Z;
  zone_cap_range : ∀ a n, is_zone a n → 0 ≤ zone_cap a ≤ n;
  reset_ok : ∀ d a n, readable d → is_zone a n → ∃ zz d',
    zbd_reset_zones a n d = (true, d') ∧ zbd_report_zone a d' = Some zz ∧
    zz_cond zz ≠ ZBD_ZONE_COND_OFFLINE ∧ zz_capacity zz = zone_cap a ∧
    readable d' ∧ writable d' a (zone_cap a) ∧
    (∀ x, x < a ∨ a + n ≤ x → byte_at d' x = byte_at d x) ∧
    (∀ x m, x + m ≤ a ∨ a + n ≤ x → writable d x m → writable d' x m);
  finish_ok : ∀ d a n, readable d → is_zone a n → ∃ d',
    zbd_finish_zones a n d = (true, d') ∧ readable d' ∧
    (∀ x, x < a ∨ a + n ≤ x → byte_at d' x = byte_at d x) ∧
    (∀ x m, x + m ≤ a ∨ a + n ≤ x → writable d x m → writable d' x m)
}.

Section format.
Context {D : ZbdDev} {DOk : ZbdDevOk D} {DZ : ZbdZonesOk D DOk} {K : Crc32c} {KOk : Crc32cOk K}.
Implicit Types (b : ZonedBlockDevice) (s : ZenFS) (F : gmap Z ZoneFile) (rs : list mrec).

(** ** Changes to metadata zones *)

(** The metadata zones are zones of the device, apart from each other. *)
Record meta_layout b : Prop := {
  ml_block : 0 < block_sz_ b < 2 ^ 31;
  ml_zone : ∀ i z, meta_zones b !! i = Some z →
    is_zone (start_ z) (zone_sz_ b) ∧ 0 ≤ start_ z ∧ start_ z mod block_sz_ b = 0 ∧
    start_ z + zone_sz_ b < 2 ^ 64 ∧ used_capacity_ z = 0 ∧ max_capacity_ z ≤ zone_sz_ b;
  ml_apart : ∀ i j z z', meta_zones b !! i = Some z → meta_zones b !! j = Some z' → i ≠ j →
    start_ z + zone_sz_ b ≤ start_ z' ∨ start_ z' + zone_sz_ b ≤ start_ z
}.

(** Only the zones of [J] changed, and what the device stores there. *)
Record touches (J : list nat) b b' : Prop := {
  to_io : io_zones b' = io_zones b;
  to_block : block_sz_ b' = block_sz_ b;
  to_size : zone_sz_ b' = zone_sz_ b;
  to_nr : nr_zones_ b' = nr_zones_ b;
  to_length : length (meta_zones b') = length (meta_zones b);
  to_other : ∀ i, i ∉ J → meta_zones b' !! i = meta_zones b !! i;
  to_zone : ∀ j z, meta_zones b !! j = Some z → ∃ z', meta_zones b' !! j = Some z' ∧
    start_ z' = start_ z ∧ used_capacity_ z' = used_capacity_ z ∧
    (max_capacity_ z ≤ zone_sz_ b → max_capacity_ z' ≤ zone_sz_ b);
  to_readable : readable (device b');
  to_bytes : ∀ a,
    (∀ j z, j ∈ J → meta_zones b !! j = Some z → a < start_ z ∨ start_ z + zone_sz_ b ≤ a) →
    byte_at (device b') a = byte_at (device b) a;
  to_writable : ∀ a n,
    (∀ j z, j ∈ J → meta_zones b !! j = Some z → a + n ≤ start_ z ∨ start_ z + zone_sz_ b ≤ a) →
    writable (device b) a n → writable (device b') a n
}.

Lemma to_back J b b' j z' :
  touches J b b' → meta_zones b' !! j = Some z' → ∃ z, meta_zones b !! j = Some z ∧
    start_ z' = start_ z ∧ used_capacity_ z' = used_capacity_ z ∧
    (max_capacity_ z ≤ zone_sz_ b → max_capacity_ z' ≤ zone_sz_ b).
Proof.
  intros T Hz'. destruct (lookup_lt_is_Some_2 (meta_zones b) j) as [z Hz].
  { rewrite <-(to_length _ _ _ T). by eapply lookup_lt_Some. }
  exists z. split; [done|]. destruct (to_zone _ _ _ T j z Hz) as (z1 & Hz1 & H). rewrite Hz' in Hz1. by injection Hz1 as <-.
Qed.

Lemma touches_trans J1 J2 b1 b2 b3 : touches J1 b1 b2 → touches J2 b2 b3 → touches (J1 ++ J2) b1 b3.
Proof.
  intros T1 T2. pose proof T1 as [A1 A2 A3 A4 A5 A6 A7 A8 A9 A10]. pose proof T2 as [B1 B2 B3 B4 B5 B6 B7 B8 B9 B10].
  split; try congruence.
  - intros i Hi. rewrite B6, A6; set_solver.
  - intros j z Hz. destruct (A7 j z Hz) as (z1 & Hz1 & <- & <- & H1).
    destruct (B7 j z1 Hz1) as (z2 & Hz2 & E1 & E2 & H2). rewrite A3 in H2. eauto 10.
  - intros a Ha. rewrite B9, A9; [done| |].
    + intros j z Hj. apply Ha. set_solver.
    + intros j z' Hj (z & Hz & -> & _)%(to_back _ _ _ _ _ T1). rewrite A3. apply (Ha j); [set_solver|done].
  - intros a n Ha Hw. apply B10; [|apply A10; [|done]].
    + intros j z' Hj (z & Hz & -> & _)%(to_back _ _ _ _ _ T1). rewrite A3. apply (Ha j); [set_solver|done].
    + intros j z Hj. apply Ha. set_solver.
Qed.

Lemma touches_sub J J' b b' : (∀ j, j ∈ J → j ∈ J') → touches J b b' → touches J' b b'.
Proof.
  intros HJ [A1 A2 A3 A4 A5 A6 A7 A8 A9 A10]. split; try done.
  - intros i Hi. apply A6. auto.
  - intros a Ha. apply A9. eauto.
  - intros a n Ha. apply A10. eauto.
Qed.

Lemma touches_more J b1 b2 b3 : touches J b1 b2 → touches J b2 b3 → touches J b1 b3.
Proof. intros T1 T2. eapply touches_sub; [|by eapply touches_trans]. set_solver. Qed.

Lemma touches_refl J b : readable (device b) → touches J b b.
Proof. by split; eauto 10. Qed.

Lemma touches_layout J b b' : touches J b b' → meta_layout b → meta_layout b'.
Proof.
  intros T [Hb Hz Ha]. pose proof T as [T1 T2 T3 T4 T5 T6 T7 T8 T9 T10]. split.
  - by rewrite T2.
  - intros i z' (z & Hzi & -> & -> & Hmax)%(to_back _ _ _ _ _ T). rewrite T2, T3.
    destruct (Hz i z Hzi) as (? & ? & ? & ? & ? & ?). auto 10.
  - intros i i' z z' (z1 & Hz1 & -> & _)%(to_back _ _ _ _ _ T) (z2 & Hz2 & -> & _)%(to_back _ _ _ _ _ T) Hne.
    rewrite T3. by apply (Ha i i').
Qed.

(** A change of the record of a zone, and of the device where the zone is. *)
Lemma touches_set j z z' d b :
  meta_zones b !! j = Some z → start_ z' = start_ z → used_capacity_ z' = used_capacity_ z →
  (max_capacity_ z ≤ zone_sz_ b → max_capacity_ z' ≤ zone_sz_ b) → readable d →
  (∀ a, a < start_ z ∨ start_ z + zone_sz_ b ≤ a → byte_at d a = byte_at (device b) a) →
  (∀ a n, a + n ≤ start_ z ∨ start_ z + zone_sz_ b ≤ a → writable (device b) a n → writable d a n) →
  touches [j] b (set_zone (MetaZone j) z' (set_device d b)).
Proof.
  intros Hz E1 E2 E3 Hr Hb Hw. split; cbn; try done.
  - apply length_insert.
  - intros i Hi. rewrite list_lookup_insert_ne; [done|]. set_solver.
  - intros i z0 Hz0. destruct (decide (i = j)) as [->|Hne].
    + exists z'. rewrite list_lookup_insert_eq by (by eapply lookup_lt_Some).
      rewrite Hz in Hz0. by injection Hz0 as <-.
    + rewrite list_lookup_insert_ne by done. eauto 10.
  - intros a Ha. apply Hb, (Ha j); [set_solver|done].
  - intros a n Ha. apply Hw, (Ha j); [set_solver|done].
Qed.

Lemma touches_record j z z' b :
  meta_zones b !! j = Some z → readable (device b) → start_ z' = start_ z → used_capacity_ z' = used_capacity_ z →
  max_capacity_ z' = max_capacity_ z → touches [j] b (set_zone (MetaZone j) z' b).
Proof.
  intros Hz Hr E1 E2 E3. replace b with (set_device (device b) b) at 2 by (by destruct b).
  eapply touches_set; try done. lia.
Qed.

Lemma lookup_set_zone j z z' b :
  meta_zones b !! j = Some z → meta_zones (set_zone (MetaZone j) z' b) !! j = Some z'.
Proof. intros Hz. cbn. apply list_lookup_insert_eq. by eapply lookup_lt_Some. Qed.

Lemma wp_acquire_meta j z b :
  meta_zones b !! j = Some z → readable (device b) → busy_ z = false →
  wp (Acquire (MetaZone j))
    (λ got b', got = true ∧ meta_zones b' !! j = Some (z_set_busy true z) ∧ device b' = device b ∧ touches [j] b b') b.
Proof.
  intros Hz Hr Hb. unfold Acquire, zone_upd, zone_at. repeat wp_step. rewrite Hb. repeat wp_step.
  split_and!; [done|by eapply lookup_set_zone|done|by eapply touches_record].
Qed.

Lemma wp_release_meta j z b :
  meta_zones b !! j = Some z → readable (device b) → busy_ z = true →
  wp (Release (MetaZone j))
    (λ done b', done = true ∧ meta_zones b' !! j = Some (z_set_busy false z) ∧ device b' = device b ∧ touches [j] b b') b.
Proof.
  intros Hz Hr Hb. unfold Release, zone_upd, zone_at. repeat wp_step. rewrite Hb. repeat wp_step.
  split_and!; [done|by eapply lookup_set_zone|done|by eapply touches_record].
Qed.

(** ** Resetting and finishing *)

(** An empty zone that the device can fill. *)
Definition empty_meta b (z : Zone) : Prop :=
  wp_ z = start_ z ∧ capacity_ z = zone_cap (start_ z) ∧ max_capacity_ z = zone_cap (start_ z) ∧
  writable (device b) (start_ z) (zone_cap (start_ z)).

Lemma wp_reset_meta j z b :
  meta_layout b → readable (device b) → meta_zones b !! j = Some z → busy_ z = true →
  wp (Zone_Reset (MetaZone j))
    (λ st b', st = OK ∧ touches [j] b b' ∧ ∃ z', meta_zones b' !! j = Some z' ∧ busy_ z' = true ∧ empty_meta b' z') b.
Proof.
  intros L Hr Hz Hb. destruct (ml_zone _ L _ _ Hz) as (Hzone & H0 & _ & _ & Hu & Hmax).
  destruct (reset_ok (device b) (start_ z) (zone_sz_ b) Hr Hzone) as (zz & d & Hreset & Hrep & Hoff & Hcap & Hr' & Hw & Hby & Hw').
  pose proof (zone_cap_range _ _ Hzone). unfold Zone_Reset, zone_at, dev_call, zone_upd. repeat wp_step.
  { unfold IsUsed. rewrite Hu. done. }
  { done. }
  rewrite Hreset. repeat wp_step. cbn [negb]. repeat wp_step. cbn [device set_device]. rewrite Hrep. unfold zone_at.
  do 3 wp_step. eapply wp_load; [exact Hz|]. repeat wp_step. unfold z_reset. rewrite bool_decide_false, Hcap by done.
  split_and!; [done| |].
  - eapply touches_set; try done. cbn. lia.
  - eexists. split; [by eapply (lookup_set_zone j z _ (set_device d b))|]. by split_and!.
Qed.

Lemma wp_finish_meta j z b :
  meta_layout b → readable (device b) → meta_zones b !! j = Some z → busy_ z = true →
  wp (Zone_Finish (MetaZone j))
    (λ st b', st = OK ∧ touches [j] b b' ∧ ∃ z', meta_zones b' !! j = Some z' ∧ busy_ z' = true) b.
Proof.
  intros L Hr Hz Hb. destruct (ml_zone _ L _ _ Hz) as (Hzone & _).
  destruct (finish_ok (device b) (start_ z) (zone_sz_ b) Hr Hzone) as (d & Hfin & Hr' & Hby & Hw).
  unfold Zone_Finish, zone_at, dev_call, zone_upd. repeat wp_step; [done|].
  rewrite Hfin. repeat wp_step. cbn [negb]. unfold zone_at. do 3 wp_step. eapply wp_load; [exact Hz|]. repeat wp_step.
  split_and!; [done| |].
  - eapply touches_set; try done.
  - eexists. split; [by eapply (lookup_set_zone j z _ (set_device d b))|]. done.
Qed.

(** ** Appending to a log *)

(** A zone with its write pointer where the device has it. *)
Definition filling b (z : Zone) : Prop :=
  start_ z ≤ wp_ z ∧ wp_ z + capacity_ z ≤ start_ z + max_capacity_ z ∧ 0 ≤ capacity_ z ∧
  writable (device b) (wp_ z) (capacity_ z).

Lemma empty_filling b j z : meta_layout b → meta_zones b !! j = Some z → empty_meta b z → filling b z.
Proof.
  intros L Hz (E1 & E2 & E3 & Hw). destruct (ml_zone _ L _ _ Hz) as (Hzone & _). pose proof (zone_cap_range _ _ Hzone).
  unfold filling. rewrite E1, E2, E3. split_and!; [lia..|done].
Qed.

(** [rec] was appended to zone [j]. *)
Record added (j : nat) (z : Zone) (rec : slice) b b' : Prop := {
  ad_touches : touches [j] b b';
  ad_zone : meta_zones b' !! j = Some (z_written (phys_size (block_sz_ b) (size rec)) z);
  ad_filling : filling b' (z_written (phys_size (block_sz_ b) (size rec)) z);
  ad_wp : wp_ (z_written (phys_size (block_sz_ b) (size rec)) z) = wp_ z + phys_size (block_sz_ b) (size rec);
  ad_capacity : capacity_ (z_written (phys_size (block_sz_ b) (size rec)) z) = capacity_ z - phys_size (block_sz_ b) (size rec);
  ad_stores : stores (device b') (wp_ z) (record_buffer (block_sz_ b) rec);
  ad_bytes : ∀ a, a < wp_ z → byte_at (device b') a = byte_at (device b) a
}.

Lemma wp_add_meta log rec z b :
  meta_layout b → readable (device b) → meta_zones b !! log_zone log = Some z → bs_ log = block_sz_ b → filling b z →
  record_fits (block_sz_ b) rec → phys_size (block_sz_ b) (size rec) ≤ capacity_ z →
  wp (AddRecord log rec) (λ st b', st = OK ∧ added (log_zone log) z rec b b') b.
Proof.
  intros L Hr Hz Hbs (F1 & F2 & F3 & Hw) Hfit Hcap. set (j := log_zone log) in *.
  destruct (ml_zone _ L _ _ Hz) as (Hzone & H0 & _ & Hlim & Hu & Hmax). pose proof (ml_block _ L) as Hb.
  pose proof (size_nonneg rec). destruct (phys_size_spec (block_sz_ b) (size rec)) as [_ Hps]; [lia..|].
  eapply wp_mono; [apply (wp_AddRecord log rec z b)|].
  - split_and!; [exact Hz|done|done|lia..].
  - done.
  - lia.
  - by rewrite Hbs.
  - by rewrite Hbs.
  - fold j. rewrite Hbs. intros st b' (-> & d & -> & Hr' & Hw' & Hst & Hby & Hwr). split; [done|].
    rewrite size_record in * by (done || lia). set (n := phys_size _ _) in *.
    assert (wp_ (z_written n z) = wp_ z + n) as E1 by (cbn; apply u64_small; lia).
    assert (capacity_ (z_written n z) = capacity_ z - n) as E2 by (cbn; apply u64_small; lia).
    split; fold n; try done.
    + eapply touches_set; try done.
      * intros a Ha. apply Hby. lia.
      * intros a m Ha. apply Hwr. lia.
    + by eapply (lookup_set_zone j z _ (set_device d b)).
    + unfold filling. rewrite E1, E2. cbn [start_ max_capacity_ z_written device set_zone set_device set_meta_zones].
      split_and!; [lia..|done].
    + cbn. intros a Ha. apply Hby. lia.
Qed.

(** The record of a zone may change as long as the log does not. *)
Lemma log_at_frame b b' i z z' bs pos rs :
  log_at b i z bs pos rs → start_ z ≤ pos → zone_of (MetaZone i) b' = Some z' → readable (device b') →
  wp_ z' = wp_ z → start_ z' + max_capacity_ z' = start_ z + max_capacity_ z →
  (∀ a, start_ z ≤ a < wp_ z → byte_at (device b') a = byte_at (device b) a) →
  log_at b' i z' bs pos rs.
Proof.
  intros [Hbs Hz Hr Hf Hst Hp Hwp Hlim He] Hs Hz' Hr' E1 E2 Hby.
  assert (∀ p l, start_ z ≤ p → p + size l ≤ wp_ z → stores (device b) p l → stores (device b') p l) as Hstores.
  { intros p l Hpl Hl Hs' k x Hk. rewrite Hby; [by apply Hs'|]. apply lookup_lt_Some in Hk. unfold size in Hl. lia. }
  split; try done; [by apply Hstores; [|lia|]|lia..|]. rewrite E1.
  destruct He as [He|(He1 & He2 & He3)]; [by left|right]. split_and!; [done| |done].
  apply Hstores; [|rewrite size_record by done; lia|done]. pose proof (size_nonneg (log_image bs rs)). lia.
Qed.

Lemma contains_frame b b' i z z' l :
  contains b i z l → meta_zones b' !! i = Some z' → readable (device b') →
  start_ z' = start_ z → wp_ z' = wp_ z → max_capacity_ z' = max_capacity_ z →
  block_sz_ b' = block_sz_ b → zone_sz_ b' = zone_sz_ b → nr_zones_ b' = nr_zones_ b →
  (∀ a, start_ z ≤ a < wp_ z → byte_at (device b') a = byte_at (device b) a) →
  contains b' i z' l.
Proof.
  intros Hc Hz' Hr' E1 E2 E3 B1 B2 B3 Hby. destruct l as [[sb rs]|]; cbn [contains] in *; [|congruence].
  destruct Hc as (r & pos & Hsz & Hdec & Hcomp & Hfit & Hst & Hal & H0 & -> & L). exists r, (start_ z + phys_size (block_sz_ b) (size r)).
  rewrite B1, E1. pose proof L as [Hbs _ _ _ _ _ Hwp _ _]. pose proof (size_nonneg (log_image (block_sz_ b) rs)).
  pose proof (size_nonneg r). destruct (phys_size_spec (block_sz_ b) (size r) Hbs) as [_ Hps]; [lia|].
  split_and!; try done.
  - unfold CompatibleWith. by rewrite B1, B2, B3.
  - intros k x Hk. rewrite Hby; [by apply Hst|]. pose proof (lookup_lt_Some _ _ _ Hk).
    pose proof (size_record _ _ Hbs Hfit). unfold size in *. lia.
  - eapply log_at_frame; try done; lia.
Qed.

(** A change in other zones. *)
Lemma contains_other J b b' i z l :
  touches J b b' → meta_layout b → i ∉ J → meta_zones b !! i = Some z → contains b i z l → contains b' i z l.
Proof.
  intros T L Hne Hz Hc. pose proof T as [T1 T2 T3 T4 T5 T6 T7 T8 T9 T10].
  destruct (ml_zone _ L _ _ Hz) as (_ & _ & _ & _ & _ & Hmax).
  eapply contains_frame; try done; [by rewrite T6|]. intros a Ha. apply T9. intros j zj Hj Hzj.
  assert (i ≠ j) as Hij by set_solver. pose proof (ml_apart _ L _ _ _ _ Hz Hzj Hij).
  destruct l as [[sb rs]|]; cbn in Hc; [|lia].
  destruct Hc as (r & pos & _ & _ & _ & _ & _ & _ & _ & _ & [_ _ _ _ _ _ Hwp _ _]). lia.
Qed.

Lemma super_size r sb : Superblock_DecodeFrom r = (OK, Some sb) → size r = ENCODED_SIZE.
Proof.
  unfold Superblock_DecodeFrom. destruct (negb (_ =? _)) eqn:E; [done|]. intros _.
  apply negb_false_iff, Z.eqb_eq in E. lia.
Qed.

(** The log of zone [i] is being written. *)
Definition writing b (i : nat) (z : Zone) (sb : Superblock) rs : Prop :=
  contains b i z (Some (sb, rs)) ∧ filling b z ∧
  wp_ z = start_ z + phys_size (block_sz_ b) ENCODED_SIZE + size (log_image (block_sz_ b) rs).

Lemma writing_super b b' j z sb :
  meta_layout b → added j z (Superblock_EncodeTo sb).1 b b' → meta_zones b !! j = Some z → wp_ z = start_ z →
  super_ok sb → CompatibleWith (sb_next sb) b = OK → record_fits (block_sz_ b) (Superblock_EncodeTo sb).1 →
  writing b' j (z_written (phys_size (block_sz_ b) (size (Superblock_EncodeTo sb).1)) z) (sb_next sb) [].
Proof.
  intros L [T Hz' Hf Hwp Hcap Hst Hby] Hz Hs Hok Hcomp Hfit. pose proof (super_decode sb Hok) as Hdec.
  pose proof (super_size _ _ Hdec) as Hsz. pose proof T as [T1 T2 T3 T4 T5 T6 T7 T8 T9 T10].
  destruct (ml_zone _ L _ _ Hz) as (_ & H0 & Hal & Hlim & Hu & Hmax). pose proof (ml_block _ L) as Hbs.
  set (n := phys_size (block_sz_ b) (size (Superblock_EncodeTo sb).1)) in *.
  pose proof Hf as (F1 & F2 & F3 & _). cbn [start_ max_capacity_ z_written] in F1, F2.
  destruct (phys_size_spec (block_sz_ b) ENCODED_SIZE) as [Hpm Hps]; [lia..|done|].
  assert (n = phys_size (block_sz_ b) ENCODED_SIZE) as En by (unfold n; by rewrite Hsz).
  split_and!; [|done|].
  - exists (Superblock_EncodeTo sb).1, (start_ z + n). rewrite T2. cbn [start_ z_written]. rewrite Hs in Hst.
    split_and!; try done.
    + unfold CompatibleWith in *. by rewrite T2, T3, T4.
    + split; try done.
      * lia.
      * split; [lia|]. rewrite Z.add_mod, Hal, En, Hpm by lia. by rewrite Z.mod_0_l by lia.
      * rewrite Hwp. cbn [log_image fmap list_fmap concat start_ max_capacity_ z_written]. change (size []) with 0. lia.
      * cbn [start_ max_capacity_ z_written]. lia.
      * left. rewrite Hwp. change (size (log_image (block_sz_ b) [])) with 0. lia.
  - rewrite Hwp, T2. cbn [start_ z_written]. change (size (log_image (block_sz_ b) [])) with 0. lia.
Qed.

Lemma log_image_snoc bs rs rc : log_image bs (rs ++ [rc]) = log_image bs rs ++ record_buffer bs (enc_rec rc).
Proof. unfold log_image. rewrite fmap_app, concat_app. cbn [fmap list_fmap concat compose]. by rewrite app_nil_r. Qed.

Lemma writing_added b b' j z sb rs rc :
  meta_layout b → added j z (enc_rec rc) b b' → meta_zones b !! j = Some z → writing b j z sb rs →
  record_fits (block_sz_ b) (enc_rec rc) →
  writing b' j (z_written (phys_size (block_sz_ b) (size (enc_rec rc))) z) sb (rs ++ [rc]).
Proof.
  intros L [T Hz' Hf Hwp Hcap Hst Hby] Hz (Hc & _ & Hend) Hfit. pose proof T as [T1 T2 T3 T4 T5 T6 T7 T8 T9 T10].
  set (n := phys_size (block_sz_ b) (size (enc_rec rc))) in *. pose proof Hf as (F1 & F2 & F3 & _).
  destruct Hc as (r & pos & Hsz & Hdec & Hcomp & Hfr & Hsr & Hal & H0 & -> & [Hbs _ Hrd Hfs Hss Hp Hw Hlim _]).
  pose proof (super_size _ _ Hdec) as Er. rewrite Er in *. set (p := phys_size (block_sz_ b) ENCODED_SIZE) in *.
  assert (size (log_image (block_sz_ b) (rs ++ [rc])) = size (log_image (block_sz_ b) rs) + n) as En.
  { rewrite log_image_snoc, size_app, size_record by done. done. }
  pose proof (size_nonneg (log_image (block_sz_ b) rs)). pose proof (size_nonneg r).
  destruct (phys_size_spec (block_sz_ b) ENCODED_SIZE Hbs) as [_ Hps]; [done|]. fold p in Hps.
  assert (∀ a l, a + size l ≤ wp_ z → stores (device b) a l → stores (device b') a l) as Hstores.
  { intros a l Hl Hs k x Hk. rewrite Hby; [by apply Hs|]. apply lookup_lt_Some in Hk. unfold size in Hl. lia. }
  split_and!; [|done|].
  - exists r, (start_ z + p). rewrite T2, Er. cbn [start_ z_written]. split_and!; try done.
    + unfold CompatibleWith in *. by rewrite T2, T3, T4.
    + apply Hstores; [|done]. rewrite size_record, Er by done. fold p. lia.
    + split; try done.
      * apply Forall_app. split; [done|]. by apply Forall_singleton.
      * rewrite log_image_snoc. apply stores_app. split; [apply Hstores; [lia|done]|]. by rewrite <-Hend.
      * rewrite Hwp, En. cbn [start_ max_capacity_ z_written] in *. lia.
      * left. rewrite Hwp, En. lia.
  - rewrite Hwp, T2, En. cbn [start_ z_written]. fold p. lia.
Qed.

(** ** Choosing a zone *)

(** The metadata zones of a running file system: [zn] is in use, the others are free, and
    those that look empty can be filled. *)
Record meta_running b (zn : nat) : Prop := {
  mr_layout : meta_layout b;
  mr_readable : readable (device b);
  mr_busy : ∀ i z, meta_zones b !! i = Some z → busy_ z = bool_decide (i = zn);
  mr_empty : ∀ i z, meta_zones b !! i = Some z → wp_ z = start_ z → empty_meta b z
}.

Lemma writable_other J b b' i z a n :
  touches J b b' → meta_layout b → i ∉ J → meta_zones b !! i = Some z → start_ z ≤ a → a + n ≤ start_ z + zone_sz_ b →
  writable (device b) a n → writable (device b') a n.
Proof.
  intros T L Hne Hz Ha Hn Hw. apply (to_writable _ _ _ T); [|done]. intros j zj Hj Hzj.
  assert (i ≠ j) as Hij by set_solver. pose proof (ml_apart _ L _ _ _ _ Hz Hzj Hij). lia.
Qed.

Lemma empty_other J b b' i z :
  touches J b b' → meta_layout b → i ∉ J → meta_zones b !! i = Some z → empty_meta b z → empty_meta b' z.
Proof.
  intros T L Hne Hz (E1 & E2 & E3 & Hw). split_and!; try done. destruct (ml_zone _ L _ _ Hz) as (Hzone & _).
  pose proof (zone_cap_range _ _ Hzone). eapply writable_other; try done; lia.
Qed.

Lemma writing_other J b b' i z sb rs :
  touches J b b' → meta_layout b → i ∉ J → meta_zones b !! i = Some z → writing b i z sb rs → writing b' i z sb rs.
Proof.
  intros T L Hne Hz (Hc & (F1 & F2 & F3 & F4) & Hw). destruct (ml_zone _ L _ _ Hz) as (_ & _ & _ & _ & _ & Hmax).
  split_and!; [by eapply contains_other| |by rewrite (to_block _ _ _ T)]. split_and!; try done.
  eapply writable_other; try done; lia.
Qed.

(** The loop takes the first zone that is not [zn]. *)
Lemma wp_meta_zone_loop zn b : ∀ zs,
  meta_running b zn → (∃ i, i ∈ zs ∧ i ≠ zn) → (∀ i, i ∈ zs → (i < length (meta_zones b))%nat) →
  wp (meta_zone_loop zs)
    (λ r b', ∃ i z, r = (OK, Some i) ∧ i ≠ zn ∧ touches [i] b b' ∧ is_Some (meta_zones b !! i) ∧
       meta_zones b' !! i = Some z ∧ busy_ z = true ∧ empty_meta b' z) b.
Proof.
  intros zs M. induction zs as [|i zs IH]; intros (k & Hk & Hkn) Hlt; [by apply not_elem_of_nil in Hk|].
  pose proof M as [L Hr Hb He]. destruct (lookup_lt_is_Some_2 (meta_zones b) i) as [z Hz]; [apply Hlt; set_solver|].
  cbn [meta_zone_loop]. wp_step. destruct (decide (i = zn)) as [->|Hne].
  { unfold Acquire, zone_at. repeat wp_step. rewrite (Hb _ _ Hz), bool_decide_true by done. wp_step.
    apply IH; [set_solver|]. intros j Hj. apply Hlt. set_solver. }
  eapply wp_mono; [apply (wp_acquire_meta i z b Hz Hr); rewrite (Hb _ _ Hz); by apply bool_decide_eq_false|].
  intros got b1 (-> & Hz1 & Hd1 & T1). unfold zone_at. repeat wp_step.
  destruct (ml_zone _ L _ _ Hz) as (_ & _ & _ & _ & Hu & _).
  unfold IsUsed. cbn [used_capacity_ z_set_busy]. rewrite Hu. change (negb (0 <? 0)) with true. cbv iota. wp_step.
  unfold IsEmpty. cbn [wp_ start_ z_set_busy]. destruct (Z.eqb_spec (wp_ z) (start_ z)) as [E|E]; cbn [negb].
  - wp_step. change (ok OK) with true. cbn [negb]. wp_step. exists i, (z_set_busy true z). split_and!; try done.
    destruct (He _ _ Hz E) as (E1 & E2 & E3 & Hw). split_and!; try done. cbn. by rewrite Hd1.
  - eapply wp_mono; [apply (wp_reset_meta i _ b1 (touches_layout _ _ _ T1 L) (to_readable _ _ _ T1) Hz1 eq_refl)|].
    intros st b2 (-> & T2 & z2 & Hz2 & Hb2 & He2). change (ok OK) with true. cbn [negb]. wp_step.
    exists i, z2. split_and!; try done. by eapply touches_more.
Qed.
End format.
