(* ===== verification/ZenRoll.v ===== *)
(** * ZenFS: rolling the metadata log

    [RollMetaZoneLocked] moves the log to another zone: superblock and snapshot are written
    there and the old zone is reset.  The next mount recovers the table of the snapshot. *)

From stdpp Require Import base numbers option list gmap.
From S2P Require Import Prelude ZenCoding ZenTypes ZenZbd ZenFile ZenLog ZenFs ZenMeta ZenIo ZenWriter ZenOps ZenMount ZenFileCodec ZenLogSpec ZenSpace ZenRecover ZenReplay ZenPersist ZenMountSpec ZenFormat.

Section roll.
Context {D : ZbdDev} {DOk : ZbdDevOk D} {DZ : ZbdZonesOk D DOk} {K : Crc32c} {KOk : Crc32cOk K}.
Implicit Types (b : ZonedBlockDevice) (s : ZenFS) (F : gmap Z ZoneFile) (rs : list mrec).

(** ** Snapshots *)

(** The files, one for each name. *)
Definition named_files s : list ZoneFile := omap (λ e, objs s !! e.2) (files_ s).

(** The table that a snapshot of [s] describes. *)
Definition table_of s : gmap Z ZoneFile := apply_rec (RSnapshot (named_files s)) ∅.

Lemma EncodeSnapshotTo_rec s : EncodeSnapshotTo s = enc_rec (RSnapshot (named_files s)).
Proof.
  unfold EncodeSnapshotTo, enc_rec, enc_files, named_files. f_equal.
  set (put := λ out f, _). assert (∀ out, foldl (put_file (objs s)) out (files_ s) =
    foldl put out (omap (λ e, objs s !! e.2) (files_ s))) as H; [|apply H].
  induction (files_ s) as [|e fs IH]; intros out; cbn; [done|]. rewrite IH.
  unfold put_file. by destruct (objs s !! e.2).
Qed.

(** What a snapshot does to one entry. *)
Lemma snapshot_absent fl : ∀ F id,
  (∀ f, f ∈ fl → file_id_ f ≠ id) → foldl (λ F f, <[file_id_ f := decoded f 0]> F) F fl !! id = F !! id.
Proof.
  induction fl as [|f fl IH]; intros F id H; cbn; [done|]. rewrite IH by set_solver.
  apply lookup_insert_ne, H. set_solver.
Qed.
Lemma snapshot_present fl : ∀ F f,
  f ∈ fl → (∀ f', f' ∈ fl → file_id_ f' = file_id_ f → f' = f) →
  foldl (λ F f, <[file_id_ f := decoded f 0]> F) F fl !! file_id_ f = Some (decoded f 0).
Proof.
  induction fl as [|g fl IH]; intros F f Hf H; [by apply not_elem_of_nil in Hf|]. cbn.
  destruct (decide (file_id_ f ∈ file_id_ <$> fl)) as [Hin|Hni].
  - apply list_elem_of_fmap in Hin as (f' & E & Hf'). assert (f' = f) as -> by (apply H; [set_solver|done]).
    apply IH; [done|]. intros g' Hg'. apply H. set_solver.
  - rewrite snapshot_absent.
    + apply elem_of_cons in Hf as [<-|Hf]; [apply lookup_insert_eq|]. destruct Hni. by apply list_elem_of_fmap_2.
    + intros f' Hf' E. destruct Hni. rewrite <-E. by apply list_elem_of_fmap_2.
Qed.

(** For a state that represents a table it is that table. *)
Lemma table_of_rep b s F : rep b s F → table_of s = F.
Proof.
  intros R. pose proof (rp_table _ _ _ R) as T. unfold table_of. cbn [apply_rec].
  assert (∀ f, f ∈ named_files s ↔ F !! file_id_ f = Some f) as Hin.
  { intros f. unfold named_files. rewrite list_elem_of_omap. split.
    - intros ([n h] & _ & Hf). by eapply tb_in.
    - intros Hf. destruct (tb_ex _ _ _ T _ _ Hf) as [_ [h Hh]].
      destruct (tb_clean _ _ _ T _ _ Hf) as (_ & Hl & _). destruct (linkfiles_ f) as [|n l] eqn:E; [done|].
      exists (n, h). split; [|done]. apply (tb_names _ _ _ T). exists f. rewrite E. set_solver. }
  apply map_eq. intros id. destruct (F !! id) as [f|] eqn:Hf.
  - destruct (tb_ex _ _ _ T _ _ Hf) as [<- _]. rewrite snapshot_present.
    + destruct (tb_clean _ _ _ T _ _ Hf) as (<- & _). done.
    + by apply Hin.
    + intros f' Hf'%Hin E. rewrite E, Hf in Hf'. by injection Hf'.
  - rewrite snapshot_absent; [done|]. intros f Hf'%Hin E. by rewrite E, Hf in Hf'.
Qed.

(** ** The old log *)

Lemma wp_log_capacity s log z :
  meta_zones (zbd_ s) !! log_zone log = Some z → wp (log_capacity log) (λ c s', c = capacity_ z ∧ s' = s) s.
Proof.
  intros Hz. unfold log_capacity, zone_at. wp_step. apply wp_in_zbd. do 2 wp_step. eapply wp_load; [exact Hz|]. wp_step.
  split; [done|by destruct s].
Qed.

(** A held zone of [b], which an operation may have changed. *)
Definition held (j : nat) b b' : Prop := touches [j] b b' ∧ ∃ z, meta_zones b' !! j = Some z ∧ busy_ z = true.

Lemma end_fits b : meta_layout b → record_fits (block_sz_ b) (PutFixed32 [] kEndRecord).
Proof.
  intros L. pose proof (ml_block _ L). unfold record_fits. change (size (PutFixed32 [] kEndRecord)) with 4.
  destruct (phys_size_spec (block_sz_ b) 4); lia.
Qed.

Lemma wp_WriteEndRecord s log z :
  meta_layout (zbd_ s) → readable (device (zbd_ s)) → meta_zones (zbd_ s) !! log_zone log = Some z → busy_ z = true →
  bs_ log = block_sz_ (zbd_ s) → filling (zbd_ s) z →
  wp (WriteEndRecord log) (λ _ s', ∃ b', s' = set_zbd b' s ∧ held (log_zone log) (zbd_ s) b') s.
Proof.
  intros L Hr Hz Hb Hbs Hf. unfold WriteEndRecord. apply wp_in_zbd. pose proof (end_fits _ L) as Hfit.
  pose proof (ml_block _ L) as Hbk. set (rec := PutFixed32 [] kEndRecord) in *.
  destruct (Z.le_gt_cases (phys_size (block_sz_ (zbd_ s)) (size rec)) (capacity_ z)) as [Hle|Hgt].
  - eapply wp_mono; [by apply (wp_add_meta log rec z)|]. intros st b' [_ A]. exists b'. split; [done|].
    split; [by apply (ad_touches _ _ _ _ _ A)|]. eexists. split; [apply (ad_zone _ _ _ _ _ A)|done].
  - unfold AddRecord. rewrite Hbs, u32_small by done.
    destruct (phys_size_spec (block_sz_ (zbd_ s)) (size rec)) as [Hal _]; [lia|done|].
    wp_step. wp_step; [by apply Z.eqb_eq|]. eapply wp_mono.
    { apply (wp_Zone_Append_full _ _ z); [exact Hz|]. rewrite size_record; [lia|lia|done]. }
    intros st ? [-> ->]. exists (zbd_ s). split; [done|]. split; [by apply touches_refl|eauto].
Qed.

(** The end record is written if there is room, and the zone finished. *)
Lemma wp_end_log s log z :
  meta_layout (zbd_ s) → readable (device (zbd_ s)) → meta_zones (zbd_ s) !! log_zone log = Some z → busy_ z = true →
  bs_ log = block_sz_ (zbd_ s) → (capacity_ z = 0 ∨ filling (zbd_ s) z) →
  wp (end_log log) (λ _ s', ∃ b', s' = set_zbd b' s ∧ held (log_zone log) (zbd_ s) b') s.
Proof.
  intros L Hr Hz Hb Hbs Hf. unfold end_log. wp_step. eapply wp_mono; [by apply wp_log_capacity|].
  intros c ? [-> ->]. wp_step.
  eapply (wp_mono _ (λ _ s', ∃ b', s' = set_zbd b' s ∧ held (log_zone log) (zbd_ s) b')).
  { apply wp_when; intros Hc.
    - destruct Hf as [Hf|Hf]; [by rewrite Hf in Hc|]. wp_step. eapply wp_mono; [by apply (wp_WriteEndRecord s log z)|].
      intros st s1 H1. by wp_step.
    - exists (zbd_ s). split; [by destruct s|]. split; [by apply touches_refl|eauto]. }
  intros _ s1 (b1 & -> & T1 & z1 & Hz1 & Hb1). wp_step. eapply wp_mono; [by apply (wp_log_capacity (set_zbd b1 s) log z1)|].
  intros c ? [-> ->]. apply wp_when; intros Hc; [|exists b1; split; [done|]; split; [done|eauto]].
  wp_step. apply wp_in_zbd. eapply wp_mono.
  { apply (wp_finish_meta (log_zone log) z1 b1 (touches_layout _ _ _ T1 L) (to_readable _ _ _ T1) Hz1 Hb1). }
  intros st b2 (_ & T2 & z2 & Hz2 & Hb2). wp_step. exists b2. split; [done|]. split; [by eapply touches_more|eauto].
Qed.

(** ** The roll *)

Definition synced s : ZenFS := set_objs (foldr (λ e os, alter MetadataSynced e.2 os) (objs s) (files_ s)) s.

Lemma decoded_synced s h :
  (λ f, decoded f 0) <$> objs (synced s) !! h = (λ f, decoded f 0) <$> objs s !! h.
Proof.
  unfold synced. cbn [objs set_objs]. induction (files_ s) as [|e fs IH]; cbn; [done|]. rewrite <-IH.
  destruct (decide (e.2 = h)) as [->|Hne]; [|by rewrite lookup_alter_ne]. rewrite lookup_alter_eq.
  by destruct (foldr _ _ _ !! h).
Qed.

Lemma table_of_decoded s : table_of s = foldl (λ F f, <[file_id_ f := f]> F) ∅ ((λ f, decoded f 0) <$> named_files s).
Proof. unfold table_of. cbn [apply_rec]. generalize (∅ : gmap Z ZoneFile). induction (named_files s); intros F; cbn; [done|auto]. Qed.

Lemma table_of_synced s : table_of (synced s) = table_of s.
Proof.
  rewrite !table_of_decoded. f_equal. unfold named_files. change (files_ (synced s)) with (files_ s).
  induction (files_ s) as [|e fs IH]; [done|]. cbn [omap list_omap]. pose proof (decoded_synced s e.2) as E.
  destruct (objs (synced s) !! e.2), (objs s !! e.2); cbn [fmap option_fmap option_map] in E; try done.
  apply (inj Some) in E. rewrite !fmap_cons, E. f_equal. exact IH.
Qed.

(** A file system with superblock [sb] whose log in zone [zn] can be moved. *)
Record rollable s (log : ZenMetaLog) (sb : Superblock) : Prop := {
  rl_log : meta_log_ s = Some log;
  rl_bs : bs_ log = block_sz_ (zbd_ s);
  rl_super : superblock_ s = Some sb;
  rl_ok : super_ok sb;
  rl_compatible : CompatibleWith sb (zbd_ s) = OK;
  rl_running : meta_running (zbd_ s) (log_zone log);
  rl_zone : ∃ z, meta_zones (zbd_ s) !! log_zone log = Some z ∧ (capacity_ z = 0 ∨ filling (zbd_ s) z);
  rl_other : ∃ i, i ≠ log_zone log ∧ (i < length (meta_zones (zbd_ s)))%nat;
  rl_fits : record_fits (block_sz_ (zbd_ s)) (enc_rec (RSnapshot (named_files s)));
  rl_room : ∀ i z, i ≠ log_zone log → meta_zones (zbd_ s) !! i = Some z →
    phys_size (block_sz_ (zbd_ s)) ENCODED_SIZE +
    phys_size (block_sz_ (zbd_ s)) (size (enc_rec (RSnapshot (named_files s)))) ≤ zone_cap (start_ z)
}.

(** The log is now in zone [i] and consists of a snapshot; the old zone is empty. *)
Record rolled (zn i : nat) (sb : Superblock) (snap : mrec) b b' : Prop := {
  rd_ne : i ≠ zn;
  rd_touches : touches [i; zn] b b';
  rd_running : meta_running b' i;
  rd_new : ∃ z, meta_zones b' !! i = Some z ∧ writing b' i z sb [snap];
  rd_old : ∃ z, meta_zones b' !! zn = Some z ∧ wp_ z = start_ z
}.

Lemma super_fits b sb :
  meta_layout b → super_ok sb → record_fits (block_sz_ b) (Superblock_EncodeTo sb).1 ∧ size (Superblock_EncodeTo sb).1 = ENCODED_SIZE.
Proof.
  intros L Hok. pose proof (super_size _ _ (super_decode sb Hok)) as E. split; [|done]. unfold record_fits. rewrite E.
  pose proof (ml_block _ L). destruct (phys_size_spec (block_sz_ b) ENCODED_SIZE) as [_ H1]; [lia|done|].
  change ENCODED_SIZE with 512 in *. lia.
Qed.

Lemma wp_WriteSnapshot s log z sb rs :
  let b := zbd_ s in let rc := RSnapshot (named_files s) in
  meta_layout b → readable (device b) → meta_zones b !! log_zone log = Some z → bs_ log = block_sz_ b →
  writing b (log_zone log) z sb rs → record_fits (block_sz_ b) (enc_rec rc) →
  phys_size (block_sz_ b) (size (enc_rec rc)) ≤ capacity_ z →
  wp (WriteSnapshotLocked log)
    (λ st s', st = OK ∧ ∃ b' z', s' = set_zbd b' (synced s) ∧ touches [log_zone log] b b' ∧
       meta_zones b' !! log_zone log = Some z' ∧ busy_ z' = busy_ z ∧ writing b' (log_zone log) z' sb (rs ++ [rc])) s.
Proof.
  intros b rc L Hr Hz Hbs W Hfit Hcap. unfold WriteSnapshotLocked. wp_step. wp_step. wp_step. apply wp_in_zbd.
  rewrite EncodeSnapshotTo_rec. fold rc. pose proof W as (_ & Hf & _).
  eapply wp_mono; [by apply (wp_add_meta log (enc_rec rc) z)|]. intros st b' [-> A]. unfold all_synced. change (ok OK) with true.
  cbn [when]. repeat wp_step. split; [done|]. exists b'. eexists. split_and!; [by destruct s|apply (ad_touches _ _ _ _ _ A)|
    apply (ad_zone _ _ _ _ _ A)|done|by apply (writing_added b b' (log_zone log) z)].
Qed.

Lemma wp_add_super s log z sb :
  let b := zbd_ s in
  meta_layout b → readable (device b) → meta_zones b !! log_zone log = Some z → bs_ log = block_sz_ b →
  empty_meta b z → super_ok sb → CompatibleWith (sb_next sb) b = OK →
  phys_size (block_sz_ b) ENCODED_SIZE ≤ zone_cap (start_ z) →
  wp (in_zbd (AddRecord log (Superblock_EncodeTo sb).1))
    (λ st s', st = OK ∧ ∃ b' z', s' = set_zbd b' s ∧ touches [log_zone log] b b' ∧ meta_zones b' !! log_zone log = Some z' ∧
       busy_ z' = busy_ z ∧ capacity_ z' = zone_cap (start_ z) - phys_size (block_sz_ b) ENCODED_SIZE ∧
       writing b' (log_zone log) z' (sb_next sb) []) s.
Proof.
  intros b L Hr Hz Hbs He Hok Hc Hroom. destruct (super_fits b sb L Hok) as [Hfit Hsz]. pose proof He as (E1 & E2 & _).
  apply wp_in_zbd. eapply wp_mono.
  { apply (wp_add_meta log _ z b L Hr Hz Hbs (empty_filling _ _ _ L Hz He) Hfit). rewrite Hsz. lia. }
  intros st b' [-> A]. split; [done|]. exists b'. eexists. split_and!; [done|apply (ad_touches _ _ _ _ _ A)|
    apply (ad_zone _ _ _ _ _ A)|done| |by apply (writing_super b)].
  rewrite (ad_capacity _ _ _ _ _ A), Hsz. lia.
Qed.

Lemma CompatibleWith_same sb b b' J : touches J b b' → CompatibleWith sb b' = CompatibleWith sb b.
Proof. intros [_ E1 E2 E3]. unfold CompatibleWith. by rewrite E1, E2, E3. Qed.

(** The second half of the roll: [i] is the new zone, of log [new], [old] the previous log. *)
Lemma wp_move_log s new old z sb :
  let b := zbd_ s in let rc := RSnapshot (named_files s) in let i := log_zone new in let zn := log_zone old in
  meta_layout b → readable (device b) → i ≠ zn → meta_zones b !! i = Some z → busy_ z = true → empty_meta b z →
  (∃ z', meta_zones b !! zn = Some z' ∧ busy_ z' = true) → bs_ new = block_sz_ b →
  super_ok sb → CompatibleWith (sb_next sb) b = OK → record_fits (block_sz_ b) (enc_rec rc) →
  phys_size (block_sz_ b) ENCODED_SIZE + phys_size (block_sz_ b) (size (enc_rec rc)) ≤ zone_cap (start_ z) →
  wp (s <- in_zbd (AddRecord new (Superblock_EncodeTo sb).1) ;;
      s <- (if negb (ok s) then ret IOError else
        s <- WriteSnapshotLocked new ;;
        when (ok s) (in_zbd (Zone_Reset (MetaZone zn)) ;; ret tt) ;; ret s) ;;
      in_zbd (delete_ZenMetaLog old) ;; ret s)
    (λ st s', st = OK ∧ ∃ b' z', s' = set_zbd b' (synced s) ∧ touches [i; zn] b b' ∧
       meta_zones b' !! i = Some z' ∧ busy_ z' = true ∧ writing b' i z' (sb_next sb) [rc] ∧
       ∃ zo, meta_zones b' !! zn = Some zo ∧ busy_ zo = false ∧ empty_meta b' zo) s.
Proof.
  intros b rc i zn L Hr Hne Hz Hb He (zo & Hzo & Hbo) Hbs Hok Hc Hfit Hroom.
  pose proof (ml_block _ L) as Hbk. pose proof (size_nonneg (enc_rec rc)).
  destruct (phys_size_spec (block_sz_ b) (size (enc_rec rc))) as [_ Hps]; [lia..|].
  wp_step. eapply wp_mono; [apply (wp_add_super s new z sb); try done; fold b; lia|].
  intros st s1 (-> & b1 & z1 & -> & T1 & Hz1 & Hb1 & Hc1 & W1). change (ok OK) with true. cbn [negb]. do 2 wp_step.
  fold b i in T1, Hz1, Hc1, W1. pose proof (touches_layout _ _ _ T1 L) as L1. pose proof (to_block _ _ _ T1) as Eb1.
  eapply wp_mono; [apply (wp_WriteSnapshot (set_zbd b1 s) new z1 (sb_next sb) [])|]; cbn [zbd_ set_zbd].
  - done.
  - apply (to_readable _ _ _ T1).
  - done.
  - congruence.
  - done.
  - rewrite Eb1. exact Hfit.
  - change (named_files (set_zbd b1 s)) with (named_files s). fold rc. rewrite Eb1, Hc1. lia.
  - intros st s2 (-> & b2 & z2 & -> & T2 & Hz2 & Hb2 & W2). fold i in T2, Hz2, W2. change (ok OK) with true. cbn [when].
    change (RSnapshot (named_files (set_zbd b1 s))) with rc in W2. cbn [app] in W2.
    pose proof (touches_more _ _ _ _ T1 T2) as T12. pose proof (touches_layout _ _ _ T12 L) as L2.
    assert (meta_zones b2 !! zn = Some zo) as Hzo2 by (rewrite (to_other _ _ _ T12) by set_solver; done).
    do 2 wp_step. apply wp_in_zbd.
    eapply wp_mono; [apply (wp_reset_meta zn zo b2 L2 (to_readable _ _ _ T12) Hzo2 Hbo)|].
    intros st b3 (-> & T3 & z3 & Hz3 & Hb3 & He3). do 3 wp_step. apply wp_in_zbd.
    unfold delete_ZenMetaLog. fold zn. wp_step.
    eapply wp_mono; [apply (wp_release_meta zn z3 b3 Hz3 (to_readable _ _ _ T3) Hb3)|].
    intros d b4 (-> & Hz4 & Hd4 & T4). pose proof (touches_more _ _ _ _ T3 T4) as T34. repeat wp_step; [done|].
    assert (touches [i; zn] b b4) as T by (change [i; zn] with ([i] ++ [zn]); by eapply touches_trans).
    split; [done|]. exists b4, z2. split_and!; [by destruct s|done| |congruence| |].
    + rewrite (to_other _ _ _ T34) by set_solver. done.
    + eapply writing_other; [exact T34|done|set_solver|done|done].
    + exists (z_set_busy false z3). split_and!; [done..|]. destruct He3 as (? & ? & ? & ?). split_and!; try done.
      cbn. by rewrite Hd4.
Qed.

Lemma wp_AllocateMetaZone b zn :
  meta_running b zn → (∃ i, i ≠ zn ∧ (i < length (meta_zones b))%nat) →
  wp AllocateMetaZone
    (λ r b', ∃ i z, r = (OK, Some i) ∧ i ≠ zn ∧ touches [i] b b' ∧ is_Some (meta_zones b !! i) ∧
       meta_zones b' !! i = Some z ∧ busy_ z = true ∧ empty_meta b' z) b.
Proof.
  intros M (k & Hk & Hl). unfold AllocateMetaZone. do 2 wp_step. apply wp_meta_zone_loop; [done| |].
  - exists k. split; [|done]. apply elem_of_seq. lia.
  - intros i [_ Hi]%elem_of_seq. lia.
Qed.

Lemma meta_running_rolled zn i b b' z zo :
  meta_running b zn → touches [i; zn] b b' → i ≠ zn →
  meta_zones b' !! i = Some z → busy_ z = true → start_ z < wp_ z →
  meta_zones b' !! zn = Some zo → busy_ zo = false → empty_meta b' zo → meta_running b' i.
Proof.
  intros [L Hr Hb He] T Hne Hz Hbz Hw Hzo Hbo Heo. split.
  - by eapply touches_layout.
  - apply (to_readable _ _ _ T).
  - intros j zj Hj. destruct (decide (j = i)) as [->|Hji]; [rewrite Hz in Hj; injection Hj as <-; by rewrite bool_decide_true|].
    rewrite bool_decide_false by done. destruct (decide (j = zn)) as [->|Hjn]; [rewrite Hzo in Hj; by injection Hj as <-|].
    rewrite (to_other _ _ _ T) in Hj by set_solver. rewrite (Hb _ _ Hj). by apply bool_decide_eq_false.
  - intros j zj Hj Ej. destruct (decide (j = i)) as [->|Hji]; [rewrite Hz in Hj; injection Hj as <-; lia|].
    destruct (decide (j = zn)) as [->|Hjn]; [rewrite Hzo in Hj; by injection Hj as <-|].
    rewrite (to_other _ _ _ T) in Hj by set_solver. apply (empty_other _ b b' j zj T L); [set_solver|done|eauto].
Qed.

Lemma writing_wp b i z sb rs : 0 < block_sz_ b → writing b i z sb rs → start_ z < wp_ z.
Proof.
  intros Hb (_ & _ & E). pose proof (size_nonneg (log_image (block_sz_ b) rs)).
  destruct (phys_size_spec (block_sz_ b) ENCODED_SIZE Hb) as [_ Hp]; [done|]. change ENCODED_SIZE with 512 in *. lia.
Qed.

Lemma wp_RollMetaZoneLocked s old sb :
  rollable s old sb →
  wp RollMetaZoneLocked
    (λ st s', st = OK ∧ ∃ new b', bs_ new = block_sz_ b' ∧
       s' = set_zbd b' (set_superblock (Some (sb_next sb)) (set_meta_log (Some new) (synced s))) ∧
       rolled (log_zone old) (log_zone new) (sb_next sb) (RSnapshot (named_files s)) (zbd_ s) b') s.
Proof.
  intros [Hlog Hbs Hsb Hok Hcomp M (zo & Hzo & Hfo) Hother Hfit Hroom]. pose proof M as [L Hr Hbusy Hempty].
  set (b := zbd_ s) in *. set (zn := log_zone old) in *. unfold RollMetaZoneLocked.
  wp_step. apply wp_in_zbd. eapply wp_mono; [by apply (wp_AllocateMetaZone b zn)|].
  intros r b1 (i & z1 & -> & Hne & T1 & [zi Hzi] & Hz1 & Hb1 & He1). change (ok OK) with true. cbn [negb]. wp_step.
  eapply wp_load; [done|]. wp_step. apply wp_in_zbd. unfold new_ZenMetaLog, zone_at. repeat wp_step; [done|].
  change (zbd_ (set_zbd b1 s)) with b1. set (new := mk_log (start_ z1) i (block_sz_ b1)).
  assert (meta_zones b1 !! zn = Some zo) as Hzo1 by (rewrite (to_other _ _ _ T1) by set_solver; done).
  assert (busy_ zo = true) as Hbo by (rewrite (Hbusy _ _ Hzo); by apply bool_decide_eq_true).
  assert (capacity_ zo = 0 ∨ filling b1 zo) as Hfo1.
  { destruct Hfo as [?|(F1 & F2 & F3 & F4)]; [by left|right]. split_and!; try done.
    destruct (ml_zone _ L _ _ Hzo) as (_ & _ & _ & _ & _ & ?). apply (writable_other _ b b1 zn zo _ _ T1 L); [set_solver|done|lia|lia|done]. }
  eapply wp_mono.
  { apply (wp_end_log _ old zo); try done; cbn [zbd_ set_zbd set_meta_log].
    - by eapply touches_layout.
    - apply (to_readable _ _ _ T1).
    - rewrite (to_block _ _ _ T1). done. }
  fold zn. cbn [zbd_ set_zbd set_meta_log]. intros _ s2 (b2 & -> & T2 & zo2 & Hzo2 & Hbo2).
  do 3 wp_step. eapply wp_load; [exact Hsb|]. destruct (super_fits b sb L Hok) as [_ Hsz].
  destruct (Superblock_EncodeTo sb) as [super sb'] eqn:Esb.
  assert (sb' = sb_next sb) as -> by (by injection Esb as _ <-). cbn [fst] in Hsz. wp_step. wp_step. wp_step. wp_step; [by apply Z.eqb_eq|].
  assert (super = (Superblock_EncodeTo sb).1) as -> by (by rewrite Esb).
  pose proof (touches_trans _ _ _ _ _ T1 T2) as T12. cbn [app] in T12.
  assert (meta_zones b2 !! i = Some z1) as Hz2 by (rewrite (to_other _ _ _ T2) by set_solver; done).
  assert (start_ z1 = start_ zi) as Es.
  { destruct (to_back _ _ _ _ _ T1 Hz1) as (z' & Hz' & -> & _). rewrite Hzi in Hz'. by injection Hz' as <-. }
  pose proof (touches_layout _ _ _ T12 L) as L2. pose proof (to_block _ _ _ T12) as Eb2.
  eapply wp_mono.
  { apply (wp_move_log _ new old z1 sb); cbn [zbd_ set_zbd set_meta_log set_superblock log_zone new]; try done.
    - apply (to_readable _ _ _ T2).
    - apply (empty_other _ b1 b2 i z1 T2); [by eapply touches_layout|set_solver|done|done].
    - eauto.
    - cbn. by rewrite (to_block _ _ _ T2).
    - rewrite (CompatibleWith_same _ b b2 _ T12). exact Hcomp.
    - rewrite Eb2. exact Hfit.
    - rewrite Eb2, Es. exact (Hroom i zi Hne Hzi). }
  cbn [zbd_ set_zbd set_meta_log set_superblock log_zone new].
  intros st s3 (-> & b3 & z3 & -> & T3 & Hz3 & Hb3 & W3 & zo3 & Hzo3 & Hbo3 & Heo3). split; [done|].
  assert (touches [i; zn] b b3) as T by (by eapply touches_more).
  exists new, b3. split_and!; [|by destruct s|].
  - cbn. by rewrite (to_block _ _ _ T1), (to_block _ _ _ T).
  - split; try done; [|eauto|destruct Heo3; eauto]. eapply meta_running_rolled; try done.
    eapply writing_wp; [|exact W3]. rewrite (to_block _ _ _ T). apply (ml_block _ L).
Qed.
End roll.

(** * ZenFS: reclaiming data zones

    [ResetUnusedIOZones] resets the zones that hold no data of a file, and no other byte of
    the device changes. *)

Section reclaim.
Context {D : ZbdDev} {DOk : ZbdDevOk D} {DZ : ZbdZonesOk D DOk}.
Implicit Types b : ZonedBlockDevice.

Definition io_layout b : Prop := ∀ i z, io_zones b !! i = Some z → is_zone (start_ z) (zone_sz_ b).

(** [z'] is [z], or [z] was free and without data and [z'] is [z] after a reset. *)
Definition kept_or_reset (z z' : Zone) : Prop :=
  z' = z ∨ busy_ z = false ∧ IsUsed z = false ∧
    z' = mk_zone (start_ z) (zone_cap (start_ z)) (zone_cap (start_ z)) (start_ z) WLTH_NOT_SET (used_capacity_ z) false.

(** Only zones without data were reset. *)
Record spares b b' : Prop := {
  sp_meta : meta_zones b' = meta_zones b;
  sp_block : block_sz_ b' = block_sz_ b;
  sp_size : zone_sz_ b' = zone_sz_ b;
  sp_nr : nr_zones_ b' = nr_zones_ b;
  sp_zones : Forall2 kept_or_reset (io_zones b) (io_zones b');
  sp_readable : readable (device b');
  sp_bytes : ∀ a,
    (∀ i z, io_zones b !! i = Some z → IsUsed z = false → a < start_ z ∨ start_ z + zone_sz_ b ≤ a) →
    byte_at (device b') a = byte_at (device b) a;
  sp_writable : ∀ a n,
    (∀ i z, io_zones b !! i = Some z → IsUsed z = false → a + n ≤ start_ z ∨ start_ z + zone_sz_ b ≤ a) →
    writable (device b) a n → writable (device b') a n
}.

Lemma kept_or_reset_refl (zs : list Zone) : Forall2 kept_or_reset zs zs.
Proof. apply Forall_Forall2_diag, Forall_true. by left. Qed.

Lemma kept_start z z' : kept_or_reset z z' → start_ z' = start_ z ∧ used_capacity_ z' = used_capacity_ z ∧ busy_ z' = busy_ z.
Proof. by intros [->|(Hb & _ & ->)]; rewrite ?Hb. Qed.

#[global] Instance kept_or_reset_trans : Transitive kept_or_reset.
Proof.
  intros z1 z2 z3 H1 H2. pose proof (kept_start _ _ H1) as (E1 & E2 & E3). destruct H2 as [->|(Hb & Hu & ->)]; [done|].
  unfold IsUsed in Hu. rewrite E1, E2, E3 in *. by right.
Qed.

Lemma spares_refl b : readable (device b) → spares b b.
Proof. intros Hr. split; try done. apply kept_or_reset_refl. Qed.

Lemma spares_back b b' i z' :
  spares b b' → io_zones b' !! i = Some z' → ∃ z, io_zones b !! i = Some z ∧ kept_or_reset z z'.
Proof. intros H Hz. by eapply Forall2_lookup_r; [apply (sp_zones _ _ H)|]. Qed.

Lemma spares_trans b1 b2 b3 : spares b1 b2 → spares b2 b3 → spares b1 b3.
Proof.
  intros S1 S2. pose proof S1 as [A1 A2 A3 A4 A5 A6 A7 A8]. pose proof S2 as [B1 B2 B3 B4 B5 B6 B7 B8].
  assert (∀ i z2, io_zones b2 !! i = Some z2 → IsUsed z2 = false →
    ∃ z, io_zones b1 !! i = Some z ∧ IsUsed z = false ∧ start_ z2 = start_ z) as Hback.
  { intros i z2 (z & Hz & (E1 & E2 & _)%kept_start)%(spares_back _ _ _ _ S1) Hu. exists z. unfold IsUsed in *.
    by rewrite E2 in Hu. }
  split; try congruence.
  - by transitivity (io_zones b2).
  - intros a Ha. rewrite B7, A7; [done|done|]. intros i z2 Hz2 Hu. destruct (Hback _ _ Hz2 Hu) as (z & Hz & Hu' & ->).
    rewrite A3. eauto.
  - intros a n Ha Hw. apply B8; [|by apply A8]. intros i z2 Hz2 Hu. destruct (Hback _ _ Hz2 Hu) as (z & Hz & Hu' & ->).
    rewrite A3. eauto.
Qed.

Lemma spares_layout b b' : spares b b' → io_layout b → io_layout b'.
Proof.
  intros S L i z' (z & Hz & (-> & _)%kept_start)%(spares_back _ _ _ _ S). rewrite (sp_size _ _ S). by apply (L i).
Qed.

(** A zone that is acquired and released again is as it was. *)
Lemma set_zone_back r z b : zone_of r b = Some z → busy_ z = false →
  set_zone r (z_set_busy false (z_set_busy true z)) (set_zone r (z_set_busy true z) b) = b.
Proof.
  intros Hz Hb. replace (z_set_busy false (z_set_busy true z)) with z by (destruct z; cbn in *; by subst).
  destruct r, b; cbn in *; by rewrite list_insert_insert_eq, list_insert_id.
Qed.

Lemma spares_reset b i z d :
  io_zones b !! i = Some z → busy_ z = false → IsUsed z = false → readable d →
  (∀ x, x < start_ z ∨ start_ z + zone_sz_ b ≤ x → byte_at d x = byte_at (device b) x) →
  (∀ x m, x + m ≤ start_ z ∨ start_ z + zone_sz_ b ≤ x → writable (device b) x m → writable d x m) →
  ∀ b', meta_zones b' = meta_zones b → block_sz_ b' = block_sz_ b → zone_sz_ b' = zone_sz_ b → nr_zones_ b' = nr_zones_ b →
  device b' = d →
  io_zones b' = <[i := mk_zone (start_ z) (zone_cap (start_ z)) (zone_cap (start_ z)) (start_ z) WLTH_NOT_SET
                         (used_capacity_ z) false]> (io_zones b) →
  spares b b'.
Proof.
  intros Hz Hb Hu Hr Hby Hw b' E1 E2 E3 E4 E5 E6. split; try done; rewrite ?E5; try done.
  - rewrite E6. rewrite <-(list_insert_id (io_zones b) i z Hz) at 1. apply Forall2_insert; [apply kept_or_reset_refl|by right].
  - intros a Ha. apply Hby. eauto.
  - intros a n Ha. apply Hw. eauto.
Qed.

(** ** The loop *)

Lemma wp_acquire_zone r z b : zone_of r b = Some z → busy_ z = false →
  wp (Acquire r) (λ got b', got = true ∧ b' = set_zone r (z_set_busy true z) b) b.
Proof. intros Hz Hb. unfold Acquire, zone_upd, zone_at. repeat wp_step. rewrite Hb. by repeat wp_step. Qed.

Lemma wp_release_zone r z b : zone_of r b = Some z → busy_ z = true →
  wp (CheckRelease r) (λ st b', st = OK ∧ b' = set_zone r (z_set_busy false z) b) b.
Proof.
  intros Hz Hb. unfold CheckRelease, Release, zone_upd, zone_at. repeat wp_step. rewrite Hb. by repeat wp_step.
Qed.

Definition blank (z : Zone) : Zone :=
  mk_zone (start_ z) (zone_cap (start_ z)) (zone_cap (start_ z)) (start_ z) WLTH_NOT_SET (used_capacity_ z) (busy_ z).

Lemma wp_reset_held r z b :
  zone_of r b = Some z → readable (device b) → is_zone (start_ z) (zone_sz_ b) → busy_ z = true → IsUsed z = false →
  wp (Zone_Reset r)
    (λ st b', st = OK ∧ ∃ d, b' = set_zone r (blank z) (set_device d b) ∧ readable d ∧
       (∀ x, x < start_ z ∨ start_ z + zone_sz_ b ≤ x → byte_at d x = byte_at (device b) x) ∧
       (∀ x m, x + m ≤ start_ z ∨ start_ z + zone_sz_ b ≤ x → writable (device b) x m → writable d x m)) b.
Proof.
  intros Hz Hr Hzone Hb Hu.
  destruct (reset_ok (device b) (start_ z) (zone_sz_ b) Hr Hzone) as
    (zz & d & Hreset & Hrep & Hoff & Hcap & Hr' & Hw & Hby & Hw').
  unfold Zone_Reset, zone_at, dev_call, zone_upd. repeat wp_step; [by rewrite Hu|done|].
  rewrite Hreset. repeat wp_step. cbn [negb]. repeat wp_step. cbn [device set_device]. rewrite Hrep. unfold zone_at.
  do 3 wp_step. eapply wp_load; [destruct r; exact Hz|]. repeat wp_step. split; [done|]. exists d.
  unfold z_reset. rewrite bool_decide_false, Hcap by done. by split_and!.
Qed.

(** What the loop does to one zone. *)
Lemma spares_one b i z d b' :
  io_zones b !! i = Some z → busy_ z = false → IsUsed z = false → readable d →
  (∀ x, x < start_ z ∨ start_ z + zone_sz_ b ≤ x → byte_at d x = byte_at (device b) x) →
  (∀ x m, x + m ≤ start_ z ∨ start_ z + zone_sz_ b ≤ x → writable (device b) x m → writable d x m) →
  b' = set_zone (IoZone i) (z_set_busy false (blank (z_set_busy true z)))
         (set_zone (IoZone i) (blank (z_set_busy true z))
           (set_device d (set_zone (IoZone i) (z_set_busy true z) b))) →
  spares b b'.
Proof.
  intros Hz Hb Hu Hr Hby Hw ->. eapply (spares_reset b i z d); try done. cbn. by rewrite !list_insert_insert_eq.
Qed.

Lemma wp_reset_unused_loop : ∀ zs b,
  io_layout b → readable (device b) → (∀ i, i ∈ zs → (i < length (io_zones b))%nat) →
  wp (reset_unused_loop zs) (λ st b', st = OK ∧ spares b b') b.
Proof.
  induction zs as [|i zs IH]; intros b L Hr Hlt; cbn [reset_unused_loop]; [wp_step; split; [done|by apply spares_refl]|].
  assert (∀ b', spares b b' → wp (reset_unused_loop zs) (λ st b', st = OK ∧ spares b b') b') as Hnext.
  { intros b' S. eapply wp_mono; [apply (IH b')|].
    - by eapply spares_layout.
    - apply (sp_readable _ _ S).
    - intros j Hj. rewrite <-(Forall2_length _ _ _ (sp_zones _ _ S)). apply Hlt. set_solver.
    - intros st b2 [-> S2]. split; [done|by eapply spares_trans]. }
  destruct (lookup_lt_is_Some_2 (io_zones b) i) as [z Hz]; [apply Hlt; set_solver|]. wp_step. destruct (busy_ z) eqn:Hb.
  { unfold Acquire, zone_at. do 3 wp_step. eapply wp_load; [exact Hz|]. rewrite Hb. wp_step. by apply Hnext, spares_refl. }
  eapply wp_mono; [by apply (wp_acquire_zone (IoZone i) z)|]. intros got b1 [-> ->].
  assert (zone_of (IoZone i) (set_zone (IoZone i) (z_set_busy true z) b) = Some (z_set_busy true z)) as Hz1
    by (by eapply (zone_of_set (IoZone i) z)).
  unfold zone_at. do 3 wp_step. eapply wp_load; [exact Hz1|].
  destruct (negb (IsEmpty (z_set_busy true z)) && negb (IsUsed (z_set_busy true z))) eqn:E.
  - apply andb_true_iff in E as [_ Hu%negb_true_iff]. wp_step.
    eapply wp_mono; [apply (wp_reset_held _ _ _ Hz1 Hr (L _ _ Hz) eq_refl Hu)|]. intros st b2 (-> & d & -> & Hr' & Hby & Hw). wp_step.
    eapply wp_mono; [eapply (wp_release_zone (IoZone i) (blank (z_set_busy true z)))|].
    { eapply (zone_of_set (IoZone i) (z_set_busy true z)). exact Hz1. }
    { done. }
    intros st b3 [-> E3]. change (ok OK) with true. cbn [negb]. wp_step.
    pose proof (spares_one b i z d b3 Hz Hb Hu Hr' Hby Hw E3) as S3.
    apply wp_when; intros Hfull; [|by apply Hnext]. unfold PutActiveIOZoneToken. wp_step. apply Hnext. destruct S3. by split.
  - wp_step. eapply wp_mono; [by apply (wp_release_zone (IoZone i) (z_set_busy true z))|]. intros st b2 [-> ->].
    change (ok OK) with true. cbn [negb]. rewrite set_zone_back by done. by apply Hnext, spares_refl.
Qed.

Lemma wp_ResetUnusedIOZones b :
  io_layout b → readable (device b) → wp ResetUnusedIOZones (λ st b', st = OK ∧ spares b b') b.
Proof.
  intros L Hr. unfold ResetUnusedIOZones, io_indices. do 2 wp_step. apply wp_reset_unused_loop; try done.
  intros i [_ Hi]%elem_of_seq. lia.
Qed.
End reclaim.
