(* ===== verification/ZenRemount.v ===== *)
(** * ZenFS: restarts

    After the log was moved or the device formatted, a restart and a mount give the same
    table again; mounting for writing moves the log and resets only zones without data. *)

From stdpp Require Import base numbers option list gmap.
From S2P Require Import Prelude ZenCoding ZenTypes ZenZbd ZenFile ZenLog ZenFs ZenMeta ZenIo ZenWriter.
From S2P Require Import ZenOps ZenMount ZenFileCodec ZenLogSpec ZenSpace ZenRecover ZenReplay ZenPersist.
From S2P Require Import ZenMountSpec ZenFormat ZenRoll.

(** ** The newest log *)

Definition older (y : meta_log) (l : option meta_log) : Prop :=
  match l with Some x => sequence_ x.1 < sequence_ y.1 | None => True end.

Lemma newest_first_stays y : ∀ ls k,
  Forall (older y) ls → head k = Some y → head (newest_first ls k) = Some y.
Proof.
  induction ls as [|l ls IH]; intros k Hl Hk; cbn; [done|]. apply Forall_cons in Hl as [Hl Hls]. apply IH; [done|].
  destruct l as [x|]; [|done]. destruct k as [|y' k]; [done|]. cbn in Hk. injection Hk as ->. cbn in *.
  by rewrite (proj2 (Z.leb_gt _ _)).
Qed.

Lemma newest_first_head y : ∀ ls i k,
  ls !! i = Some (Some y) → (∀ j l, ls !! j = Some l → j ≠ i → older y l) →
  Forall (λ x : meta_log, sequence_ x.1 < sequence_ y.1) k → head (newest_first ls k) = Some y.
Proof.
  induction ls as [|l ls IH]; intros i k Hi Ho Hk; [done|]. destruct i as [|i]; cbn in Hi.
  - injection Hi as ->. cbn. apply newest_first_stays.
    + apply Forall_lookup. intros j l Hj. by apply (Ho (S j)).
    + destruct k as [|x k]; [done|]. apply Forall_cons in Hk as [Hx _]. cbn. by rewrite (proj2 (Z.leb_le _ _)) by lia.
  - cbn. apply (IH i); [done|intros j l' Hj Hne; apply (Ho (S j)); [done|lia]|].
    specialize (Ho 0%nat l eq_refl). destruct l as [x|]; [|done]. rewrite insert_desc_perm. constructor; [|done]. by apply Ho.
Qed.

(** One choice for each index. *)
Lemma choices {X} (P : nat → X → Prop) n :
  (∀ i, (i < n)%nat → ∃ x, P i x) → ∃ l, length l = n ∧ ∀ i x, l !! i = Some x → P i x.
Proof.
  induction n as [|n IH]; intros H; [by exists []|].
  destruct IH as (l & Hl & HP); [intros i Hi; apply H; lia|]. destruct (H n) as [x Hx]; [lia|].
  exists (l ++ [x]). rewrite length_app. cbn. split; [lia|]. intros i y Hi.
  apply lookup_snoc_Some in Hi as [[_ Hi]|[-> <-]]; [by apply HP|by rewrite Hl].
Qed.

Section remount.
Context {D : ZbdDev} {DOk : ZbdDevOk D} {DZ : ZbdZonesOk D DOk} {K : Crc32c} {KOk : Crc32cOk K} {A : AuxFs}.
Implicit Types (b : ZonedBlockDevice) (s : ZenFS) (F : gmap Z ZoneFile) (rs : list mrec).

(** ** Restarting *)

(** A new file system on the device of [b]: its contents are the same, nothing is held. *)
Record restarts b (s : ZenFS) : Prop := {
  re_block : block_sz_ (zbd_ s) = block_sz_ b;
  re_size : zone_sz_ (zbd_ s) = zone_sz_ b;
  re_nr : nr_zones_ (zbd_ s) = nr_zones_ b;
  re_meta : meta_zones (zbd_ s) = z_set_busy false <$> meta_zones b;
  re_dev : dev_same (device b) (device (zbd_ s));
  re_empty : rep (zbd_ s) s ∅
}.

(** Zone [i] holds the newest log, and it is [y]. *)
Definition newest_log b (i : nat) (y : meta_log) : Prop :=
  (∃ z, meta_zones b !! i = Some z ∧ contains b i z (Some y)) ∧
  (∀ j z, meta_zones b !! j = Some z → j ≠ i → ∃ l, contains b j z l ∧ older y l).

Lemma restarts_holds b s i z l :
  restarts b s → meta_zones b !! i = Some z → contains b i z l → holds (zbd_ s) i l.
Proof.
  intros [E1 E2 E3 E4 (Hr & Hb & _) _] Hz Hc. exists (z_set_busy false z).
  assert (meta_zones (zbd_ s) !! i = Some (z_set_busy false z)) as Hz' by (by rewrite E4, list_lookup_fmap, Hz).
  split_and!; [done|done|]. by eapply contains_frame.
Qed.

Lemma restarts_mountable b s a i sb fl :
  restarts b s → newest_log b i (sb, [RSnapshot fl]) → (2 ≤ length (meta_zones b))%nat →
  valid_rec (zbd_ s) ∅ (RSnapshot fl) →
  ∃ ls, mountable (mk_system s a) ls ∧
        recovered ∅ (newest_first ls []) = Some (sb, apply_rec (RSnapshot fl) ∅).
Proof.
  intros R [(z & Hz & Hc) Ho] Hn Hv. set (y := (sb, [RSnapshot fl])) in *.
  destruct (choices (λ j l, (j = i → l = Some y) ∧ (j ≠ i → older y l) ∧ holds (zbd_ s) j l) (length (meta_zones b)))
    as (ls & Hlen & Hls).
  { intros j Hj. destruct (decide (j = i)) as [->|Hne].
    - exists (Some y). split_and!; [done|done|by eapply restarts_holds].
    - destruct (lookup_lt_is_Some_2 _ _ Hj) as [zj Hzj]. destruct (Ho j zj Hzj Hne) as (l & Hl & Hold).
      exists l. split_and!; [done|done|by eapply restarts_holds]. }
  assert (head (newest_first ls []) = Some y) as Hhead.
  { apply (newest_first_head y ls i); [| |by constructor].
    - destruct (lookup_lt_is_Some_2 ls i) as [l Hl]; [rewrite Hlen; by eapply lookup_lt_Some|].
      destruct (Hls _ _ Hl) as (E & _). by rewrite <-E.
    - intros j l Hj. by apply Hls. }
  exists ls. destruct (newest_first ls []) as [|y' k] eqn:E; [done|]. cbn in Hhead. injection Hhead as ->. split; [|done]. split.
  - cbn. by rewrite (re_meta _ _ R), length_fmap.
  - by rewrite Hlen.
  - intros j l Hj. by apply Hls.
  - apply (re_dev _ _ R).
  - apply (re_empty _ _ R).
  - rewrite E. split; [|done]. split; [done|done].
Qed.

(** After a restart the newest log is mounted. *)
Lemma wp_remount now b s a i sb fl :
  restarts b s → newest_log b i (sb, [RSnapshot fl]) → (2 ≤ length (meta_zones b))%nat →
  valid_rec (zbd_ s) ∅ (RSnapshot fl) → settled (apply_rec (RSnapshot fl) ∅) →
  (aux_CreateDirIfMissing (GetAuxFsPath sb) a).1 = OK →
  wp (Mount now true)
    (λ st w, st = OK ∧ mounted (zbd_ s) sb (apply_rec (RSnapshot fl) ∅) s (zen w)) (mk_system s a).
Proof.
  intros R N Hn Hv Hs Haux. destruct (restarts_mountable b s a i sb fl R N Hn Hv) as (ls & M & HF).
  by apply (wp_Mount_readonly now (mk_system s a) ls sb).
Qed.

(** ** After a roll *)

(** The zones other than [zn] held_zone nothing, or logs older than [sb]. *)
Definition others_older b (zn : nat) (sb : Superblock) : Prop := ∀ j z,
  meta_zones b !! j = Some z → j ≠ zn → ∃ l, contains b j z l ∧ older (sb, []) l.

Lemma rolled_newest zn i sb snap b b' :
  meta_layout b → rolled zn i sb snap b b' → others_older b zn sb → newest_log b' i (sb, [snap]).
Proof.
  intros L [Hne T M (z & Hz & W) (zo & Hzo & Ho)] Hold. split; [exists z; split; [done|apply W]|].
  intros j zj Hj Hji. destruct (decide (j = zn)) as [->|Hjn].
  - exists None. split; [|done]. rewrite Hzo in Hj. by injection Hj as <-.
  - rewrite (to_other _ _ _ T) in Hj by set_solver. destruct (Hold j zj Hj Hjn) as (l & Hl & Hol). exists l.
    split; [|by destruct l]. apply (contains_other _ b b' j zj l T L); [set_solver|done|done].
Qed.

Lemma wp_roll_then_mount now s old sb :
  rollable s old sb → others_older (zbd_ s) (log_zone old) (sb_next sb) →
  wp RollMetaZoneLocked
    (λ st s', st = OK ∧ table_of s' = table_of s ∧ ∀ s0 a,
       restarts (zbd_ s') s0 → valid_rec (zbd_ s0) ∅ (RSnapshot (named_files s)) → settled (table_of s) →
       (aux_CreateDirIfMissing (GetAuxFsPath sb) a).1 = OK →
       wp (Mount now true)
         (λ st w, st = OK ∧ mounted (zbd_ s0) (sb_next sb) (table_of s) s0 (zen w)) (mk_system s0 a)) s.
Proof.
  intros R Hold. eapply wp_mono; [by apply wp_RollMetaZoneLocked|].
  intros st s' (-> & new & b' & Hbs & -> & Hrd). split; [done|]. split; [apply table_of_synced|].
  intros s0 a Hre Hv Hs Haux. pose proof (mr_layout _ _ (rl_running _ _ _ R)) as L.
  apply (wp_remount now b' s0 a (log_zone new) (sb_next sb) (named_files s) Hre); try done.
  - by eapply rolled_newest.
  - rewrite (to_length _ _ _ (rd_touches _ _ _ _ _ _ Hrd)). destruct (rl_other _ _ _ R) as (i & Hi & Hlt).
    destruct (rl_zone _ _ _ R) as (z & Hz & _). apply lookup_lt_Some in Hz. lia.
Qed.

(** ** Formatting *)

Lemma wp_reset_meta_zones : ∀ zs b acc,
  meta_layout b → readable (device b) → NoDup zs → (∀ j, acc = Some j → j ∉ zs) →
  (∀ i, i ∈ zs → ∃ z, meta_zones b !! i = Some z ∧ busy_ z = false) →
  wp (reset_meta_zones zs acc)
    (λ r b', r = match acc with Some j => Some j | None => head zs end ∧ touches zs b b' ∧
       ∀ i, i ∈ zs → ∃ z, meta_zones b' !! i = Some z ∧ busy_ z = bool_decide (r = Some i) ∧ empty_meta b' z) b.
Proof.
  induction zs as [|i zs IH]; intros b acc L Hr Hnd Hacc Hzs; cbn [reset_meta_zones].
  { wp_step. split_and!; [by destruct acc|by apply touches_refl|by intros i Hi%not_elem_of_nil]. }
  apply NoDup_cons in Hnd as [Hi Hnd]. destruct (Hzs i) as (z & Hz & Hb); [set_solver|].
  wp_step. eapply wp_mono; [by apply (wp_acquire_meta i z)|]. intros got b1 (-> & Hz1 & Hd1 & T1). wp_step. wp_step; [done|].
  wp_step. eapply wp_mono.
  { apply (wp_reset_meta i _ b1 (touches_layout _ _ _ T1 L) (to_readable _ _ _ T1) Hz1 eq_refl). }
  intros st b2 (-> & T2 & z2 & Hz2 & Hb2 & He2). pose proof (touches_more _ _ _ _ T1 T2) as T12.
  change (ok OK) with true. cbv iota. set (acc' := match acc with Some j => Some j | None => Some i end). wp_step.
  eapply (wp_mono _ (λ _ b3, touches [i] b b3 ∧ ∃ z3, meta_zones b3 !! i = Some z3 ∧
    busy_ z3 = bool_decide (acc' = Some i) ∧ empty_meta b3 z3)).
  { case_bool_decide; [wp_step; eauto|]. wp_step.
    eapply wp_mono; [apply (wp_release_meta i z2 b2 Hz2 (to_readable _ _ _ T2) Hb2)|].
    intros d b3 (-> & Hz3 & Hd3 & T3). wp_step; [done|]. split; [by eapply touches_more|]. exists (z_set_busy false z2).
    split_and!; [done|done|]. destruct He2 as (? & ? & ? & ?). split_and!; try done. cbn. by rewrite Hd3. }
  intros _ b3 (T3 & z3 & Hz3 & Hb3 & He3). pose proof (touches_layout _ _ _ T3 L) as L3. eapply wp_mono.
  { apply (IH b3 acc' L3 (to_readable _ _ _ T3) Hnd).
    - unfold acc'. intros j Hj. destruct acc as [k|]; injection Hj as <-; [|done]. specialize (Hacc k eq_refl). set_solver.
    - intros j Hj. rewrite (to_other _ _ _ T3) by set_solver. apply Hzs. set_solver. }
  intros r b4 (-> & T4 & H4). assert (match acc' with Some j => Some j | None => head zs end = acc') as -> by (by destruct acc).
  split_and!; [by destruct acc|change (i :: zs) with ([i] ++ zs); by eapply touches_trans|].
  intros j [->|Hj]%elem_of_cons; [|destruct (H4 j Hj) as (zj & ? & Hbj & ?); exists zj; by destruct acc].
  exists z3. rewrite (to_other _ _ _ T4) by done. split_and!; [done|done|]. by eapply empty_other.
Qed.

(** Parameters of [MkFS] that fit the superblock, on a device it can describe. *)
Record formattable b (version aux : slice) (finish_threshold : Z) : Prop := {
  fm_aux : size (FormatPathLexically aux) ≤ 255;
  fm_finish : 0 ≤ finish_threshold < 2 ^ 32;
  fm_nr : 0 ≤ nr_zones_ b < 2 ^ 32;
  fm_size : 0 ≤ Z.quot (zone_sz_ b) (block_sz_ b) < 2 ^ 32;
  fm_layout : meta_layout b;
  fm_io : io_layout b;
  fm_readable : readable (device b);
  fm_free : ∀ i z, meta_zones b !! i = Some z → busy_ z = false;
  fm_enough : (2 ≤ length (meta_zones b))%nat;
  fm_room : ∀ z, meta_zones b !! 0%nat = Some z →
    phys_size (block_sz_ b) ENCODED_SIZE + phys_size (block_sz_ b) (size (enc_rec (RSnapshot []))) ≤ zone_cap (start_ z)
}.

Lemma length_char_array n l : (0 < n)%nat → length (char_array n l) = n.
Proof. intros Hn. unfold char_array. rewrite length_app, length_replicate, length_take. lia. Qed.

Lemma new_Superblock_ok b uuid version aux ft :
  formattable b version aux ft → super_ok (new_Superblock b uuid version (FormatPathLexically aux) ft) ∧
  CompatibleWith (sb_next (new_Superblock b uuid version (FormatPathLexically aux) ft)) b = OK.
Proof.
  intros [_ Hft Hnr Hsz L _ _ _ _ _]. pose proof (ml_block _ L) as Hb. unfold new_Superblock.
  rewrite (u32_small (block_sz_ b)), (u32_small (Z.quot _ _)) by lia. split.
  - split; cbn [magic_ superblock_version_ uuid_ aux_fs_path_ zenfs_version_ reserved_ flags_ block_size_ zone_size_
      sb_nr_zones_ finish_treshold_]; try done; try lia; try by apply length_char_array; lia.
    rewrite length_app, length_replicate, length_take. lia.
  - unfold CompatibleWith. cbn [block_size_ zone_size_ sb_nr_zones_ sb_next]. by rewrite !Z.eqb_refl, Z.ltb_irrefl.
Qed.

Lemma new_Superblock_same b b' uuid version aux ft :
  block_sz_ b' = block_sz_ b → zone_sz_ b' = zone_sz_ b → nr_zones_ b' = nr_zones_ b →
  new_Superblock b' uuid version aux ft = new_Superblock b uuid version aux ft.
Proof. intros E1 E2 E3. unfold new_Superblock. by rewrite E1, E2, E3. Qed.

(** The first log of a device. *)
Lemma wp_first_log s log z sb :
  let b := zbd_ s in let rc := RSnapshot (named_files s) in let i := log_zone log in
  meta_layout b → readable (device b) → meta_zones b !! i = Some z → busy_ z = true → empty_meta b z →
  bs_ log = block_sz_ b → super_ok sb → CompatibleWith (sb_next sb) b = OK → record_fits (block_sz_ b) (enc_rec rc) →
  phys_size (block_sz_ b) ENCODED_SIZE + phys_size (block_sz_ b) (size (enc_rec rc)) ≤ zone_cap (start_ z) →
  wp (s <- in_zbd (AddRecord log (Superblock_EncodeTo sb).1) ;;
      s <- (if negb (ok s) then ret s else
        s <- PersistSnapshot log ;; ret (if negb (ok s) then IOError else OK)) ;;
      in_zbd (delete_ZenMetaLog log) ;; ret s)
    (λ st s', st = OK ∧ ∃ b' z', s' = set_zbd b' (synced s) ∧ touches [i] b b' ∧
       meta_zones b' !! i = Some z' ∧ contains b' i z' (Some (sb_next sb, [rc]))) s.
Proof.
  intros b rc i L Hr Hz Hb He Hbs Hok Hc Hfit Hroom. pose proof (ml_block _ L) as Hbk. pose proof (size_nonneg (enc_rec rc)).
  destruct (phys_size_spec (block_sz_ b) (size (enc_rec rc))) as [_ Hps]; [lia..|].
  wp_step. eapply wp_mono; [apply (wp_add_super s log z sb); try done; fold b; lia|].
  intros st s1 (-> & b1 & z1 & -> & T1 & Hz1 & Hb1 & Hc1 & W1). change (ok OK) with true. cbn [negb]. do 2 wp_step.
  fold b i in T1, Hz1, Hc1, W1. pose proof (touches_layout _ _ _ T1 L) as L1. pose proof (to_block _ _ _ T1) as Eb1.
  unfold PersistSnapshot. wp_step. eapply wp_mono; [apply (wp_WriteSnapshot (set_zbd b1 s) log z1 (sb_next sb) [])|];
    cbn [zbd_ set_zbd].
  - done.
  - apply (to_readable _ _ _ T1).
  - done.
  - congruence.
  - done.
  - rewrite Eb1. exact Hfit.
  - change (named_files (set_zbd b1 s)) with (named_files s). fold rc. rewrite Eb1, Hc1. lia.
  - intros st s2 (-> & b2 & z2 & -> & T2 & Hz2 & Hb2 & W2). fold i in T2, Hz2, W2.
    change (RSnapshot (named_files (set_zbd b1 s))) with rc in W2. cbn [app] in W2.
    change (status_eq OK NoSpace) with false. cbv iota. wp_step. change (ok OK) with true. cbn [negb]. wp_step. wp_step.
    apply wp_in_zbd. unfold delete_ZenMetaLog. fold i. wp_step. eapply wp_mono.
    { apply (wp_release_meta i z2 b2 Hz2 (to_readable _ _ _ T2)). congruence. }
    intros d b3 (-> & Hz3 & Hd3 & T3). repeat wp_step; [done|]. split; [done|]. exists b3, (z_set_busy false z2).
    split_and!; [by destruct s|by eapply touches_more; [by eapply touches_more|]|done|].
    destruct T3 as [_ E1 E2 E3 _ _ _ Hr3 _ _]. destruct W2 as (C2 & _).
    eapply contains_frame; [exact C2|done..|]. intros a _. by rewrite Hd3.
Qed.

Lemma empty_snapshot_fits b : meta_layout b → record_fits (block_sz_ b) (enc_rec (RSnapshot [])).
Proof.
  intros L. pose proof (ml_block _ L). unfold record_fits. change (size (enc_rec (RSnapshot []))) with 5.
  destruct (phys_size_spec (block_sz_ b) 5); lia.
Qed.

(** [MkFS] once all metadata zones are reset. *)
Lemma wp_format_log s log z sb :
  let b := zbd_ s in
  files_ s = [] → meta_layout b → readable (device b) → log_zone log = 0%nat → bs_ log = block_sz_ b →
  meta_zones b !! 0%nat = Some z → busy_ z = true → (∀ i z, meta_zones b !! i = Some z → empty_meta b z) →
  super_ok sb → CompatibleWith (sb_next sb) b = OK →
  phys_size (block_sz_ b) ENCODED_SIZE + phys_size (block_sz_ b) (size (enc_rec (RSnapshot []))) ≤ zone_cap (start_ z) →
  wp (let '(super_string, _) := Superblock_EncodeTo sb in
      assert (size super_string =? ENCODED_SIZE) ;;
      s <- in_zbd (AddRecord log super_string) ;;
      s <- (if negb (ok s) then ret s else
        s <- PersistSnapshot log ;; ret (if negb (ok s) then IOError else OK)) ;;
      in_zbd (delete_ZenMetaLog log) ;; ret s)
    (λ st s', st = OK ∧ length (meta_zones (zbd_ s')) = length (meta_zones b) ∧
       newest_log (zbd_ s') 0 (sb_next sb, [RSnapshot []])) s.
Proof.
  intros b Hf L Hr Hl Hbs Hz Hb He Hok Hc Hroom. destruct (super_fits b sb L Hok) as [_ Hsz].
  assert (named_files s = []) as Hnf by (unfold named_files; by rewrite Hf).
  destruct (Superblock_EncodeTo sb) as [super sb'] eqn:Esb. cbn [fst] in Hsz. wp_step. wp_step; [by apply Z.eqb_eq|].
  assert (super = (Superblock_EncodeTo sb).1) as -> by (by rewrite Esb).
  eapply wp_mono; [apply (wp_first_log s log z sb); rewrite ?Hl, ?Hnf; try done; [eauto|by apply empty_snapshot_fits]|].
  rewrite Hl, Hnf. intros st s' (-> & b' & z' & -> & T & Hz' & C). cbn [zbd_ set_zbd]. split_and!; [done|apply (to_length _ _ _ T)|].
  split; [eauto|]. intros j zj Hj Hne. rewrite (to_other _ _ _ T) in Hj by set_solver. exists None. split; [|done].
  apply (He _ _ Hj).
Qed.

Lemma wp_MkFS now uuid version aux ft s :
  files_ s = [] → formattable (zbd_ s) version aux ft →
  wp (MkFS now uuid version aux ft)
    (λ st s', st = OK ∧ (2 ≤ length (meta_zones (zbd_ s')))%nat ∧
       newest_log (zbd_ s') 0
         (sb_next (new_Superblock (zbd_ s) uuid version (FormatPathLexically aux) ft), [RSnapshot []])) s.
Proof.
  intros Hf Fm. destruct (new_Superblock_ok _ uuid _ _ _ Fm) as [Hok Hcomp].
  pose proof Fm as [Haux _ _ _ L Lio Hr Hfree Hn Hroom]. unfold MkFS. rewrite (proj2 (Z.ltb_ge _ _)) by done.
  unfold ClearFiles. do 3 wp_step. rewrite Hf. cbn [drop_files]. wp_step. wp_step. apply wp_in_zbd.
  eapply wp_mono; [by apply wp_ResetUnusedIOZones|]. intros st b1 [-> [E1 E2 E3 E4 _ Hr1 _ _]]. change (ok OK) with true.
  cbn [negb]. wp_step. apply wp_in_zbd. do 2 wp_step. change (zbd_ (set_zbd b1 s)) with b1. rewrite E1.
  set (b := zbd_ s) in *. assert (meta_layout b1) as L1 by (destruct L; split; rewrite ?E1, ?E2, ?E3; done).
  assert (∀ i, i ∈ seq 0 (length (meta_zones b)) ↔ is_Some (meta_zones b !! i)) as Hseq.
  { intros i. rewrite elem_of_seq, lookup_lt_is_Some. lia. }
  eapply wp_mono.
  { apply (wp_reset_meta_zones _ b1 None L1 Hr1); [apply NoDup_seq|done|]. intros i [z Hz]%Hseq. rewrite E1. eauto. }
  intros r b2 (-> & T2 & H2). destruct (length (meta_zones b)) as [|n] eqn:En; [lia|]. cbn [head seq] in *.
  destruct (H2 0%nat) as (z2 & Hz2 & Hb2 & He2); [set_solver|]. rewrite bool_decide_true in Hb2 by done.
  destruct (to_back _ _ _ _ _ T2 Hz2) as (z0 & Hz0 & Es & _). rewrite E1 in Hz0.
  pose proof T2 as [_ B2 B3 B4 B5 _ _ Hr2 _ _]. rewrite E1, En in B5. wp_step. apply wp_in_zbd. unfold new_ZenMetaLog, zone_at.
  repeat wp_step; [done|]. cbn [zbd_ set_zbd]. rewrite (new_Superblock_same b b2) by congruence.
  eapply wp_mono; [apply (wp_format_log _ _ z2); cbn [zbd_ set_zbd log_zone bs_]; try done|].
  - by apply (touches_layout _ _ _ T2).
  - intros i z Hz. destruct (to_back _ _ _ _ _ T2 Hz) as (z' & Hz' & _). rewrite E1 in Hz'.
    destruct (H2 i) as (z3 & Hz3 & _ & He3); [apply Hseq; eauto|]. rewrite Hz in Hz3. by injection Hz3 as <-.
  - rewrite <-Hcomp. unfold CompatibleWith. rewrite B2, B3, B4, E2, E3, E4. done.
  - rewrite B2, E2, Es. by apply Hroom.
  - cbn [zbd_ set_zbd]. intros st s' (-> & Hlen & HN). split_and!; [done|lia|done].
Qed.

Lemma wp_format_then_mount now now' uuid version aux ft s :
  let sb := sb_next (new_Superblock (zbd_ s) uuid version (FormatPathLexically aux) ft) in
  files_ s = [] → formattable (zbd_ s) version aux ft →
  wp (MkFS now uuid version aux ft)
    (λ st s', st = OK ∧ ∀ s0 a, restarts (zbd_ s') s0 → (aux_CreateDirIfMissing (GetAuxFsPath sb) a).1 = OK →
       wp (Mount now' true) (λ st w, st = OK ∧ mounted (zbd_ s0) sb ∅ s0 (zen w)) (mk_system s0 a)) s.
Proof.
  intros sb Hf Fm. eapply wp_mono; [by apply wp_MkFS|]. intros st s' (-> & Hn & N). split; [done|].
  intros s0 a R Haux. apply (wp_remount now' (zbd_ s') s0 a 0 sb [] R N Hn); [|by intros id f|done].
  split_and!; [apply List.Forall_nil|done|by intros f f' Hf'%not_elem_of_nil|by intros f f' n Hf'%not_elem_of_nil|]. cbn.
  eapply room_sub; [apply submseteq_nil_l|]. apply (rp_room _ _ _ (re_empty _ _ R)).
Qed.

(** ** Mounting for writing *)

(** The metadata zones of a device that is not mounted yet, as the device has them. *)
Record meta_writable b : Prop := {
  mw_layout : meta_layout b;
  mw_empty : ∀ i z, meta_zones b !! i = Some z → wp_ z = start_ z → empty_meta b z;
  mw_filling : ∀ i z, meta_zones b !! i = Some z → capacity_ z = 0 ∨ filling b z
}.

(** A snapshot of the table fits into any metadata zone. *)
Definition snapshot_fits b F : Prop := ∀ s, rep b s F →
  let rec := enc_rec (RSnapshot (named_files s)) in
  record_fits (block_sz_ b) rec ∧ ∀ i z, meta_zones b !! i = Some z →
    phys_size (block_sz_ b) ENCODED_SIZE + phys_size (block_sz_ b) (size rec) ≤ zone_cap (start_ z).

Lemma held_layout b hs s : meta_inv b hs s → meta_layout b → meta_layout (zbd_ s).
Proof.
  intros [Iz Ib Is In Id] [Hb Hz Ha].
  assert (∀ i z', meta_zones (zbd_ s) !! i = Some z' → ∃ z, meta_zones b !! i = Some z ∧ z' = held_zone hs i z) as Hback.
  { intros i z'. rewrite Iz, list_lookup_imap. destruct (meta_zones b !! i); [|done]. cbn. intros [= <-]. eauto. }
  split.
  - by rewrite Ib.
  - intros i z' (z & Hzi & ->)%Hback. rewrite Ib, Is. exact (Hz i z Hzi).
  - intros i j z z' (z1 & Hz1 & ->)%Hback (z2 & Hz2 & ->)%Hback. rewrite Is. intros Hne. exact (Ha i j z1 z2 Hz1 Hz2 Hne).
Qed.

Lemma held_running b zn s :
  meta_inv b [zn] s → meta_writable b → meta_running (zbd_ s) zn.
Proof.
  intros I [L He Hf]. pose proof I as [Iz Ib Is In (Hr & Hby & Hw)].
  assert (∀ i z', meta_zones (zbd_ s) !! i = Some z' → ∃ z, meta_zones b !! i = Some z ∧ z' = held_zone [zn] i z) as Hback.
  { intros i z'. rewrite Iz, list_lookup_imap. destruct (meta_zones b !! i); [|done]. cbn. intros [= <-]. eauto. }
  split; [by eapply held_layout|done| |].
  - intros i z' (z & Hz & ->)%Hback. cbn. apply bool_decide_ext. by rewrite list_elem_of_singleton.
  - intros i z' (z & Hz & ->)%Hback E. destruct (He i z Hz E) as (E1 & E2 & E3 & Hwz). split_and!; try done. by apply Hw.
Qed.

Lemma mounted_rollable b sb F s s' :
  mounted b sb F s s' → meta_writable b → (2 ≤ length (meta_zones b))%nat → super_ok sb → CompatibleWith sb b = OK →
  snapshot_fits b F → ∃ log, rollable s' log sb ∧ meta_inv b [log_zone log] s'.
Proof.
  intros (log & Hl & Hsb & _ & R & I & Hbs & [z Hz] & _) W Hn Hok Hc Hfits. exists log. split; [|done].
  destruct (Hfits s' R) as [Hfit Hroom]. pose proof I as [Iz Ib Is In (Hr & Hby & Hw)].
  split; try done.
  - by rewrite Ib.
  - by rewrite (CompatibleWith_inv _ _ _ _ I).
  - by apply (held_running b).
  - exists (held_zone [log_zone log] (log_zone log) z). split; [by apply (meta_inv_lookup b)|].
    destruct (mw_filling _ W _ _ Hz) as [?|(F1 & F2 & F3 & F4)]; [by left|right]. split_and!; try done. by apply Hw.
  - exists (if decide (log_zone log = 0%nat) then 1%nat else 0%nat). rewrite Iz, length_imap. case_decide; lia.
  - by rewrite Ib.
  - intros i z' Hne. rewrite Iz, Ib, list_lookup_imap. destruct (meta_zones b !! i) as [zi|] eqn:Hzi; [|done].
    cbn. intros [= <-]. exact (Hroom i zi Hzi).
Qed.
End remount.
