(* ===== verification/ZenMountWrite.v ===== *)
(** * ZenFS: mounting for writing

    [Mount] of a file system that may be written moves the log to a new zone and resets
    zones without data.  The table is the recovered one, the device holds it in a new
    snapshot, and no byte of a file changes. *)

From stdpp Require Import base numbers option list gmap.
From S2P Require Import Prelude ZenCoding ZenTypes ZenZbd ZenFile ZenLog ZenFs ZenMeta ZenIo ZenWriter.
From S2P Require Import ZenOps ZenMount ZenFileCodec ZenLogSpec ZenSpace ZenRecover ZenReplay ZenPersist.
From S2P Require Import ZenMountSpec ZenFormat ZenRoll ZenRemount.

Section mount_write.
Context {D : ZbdDev} {DOk : ZbdDevOk D} {DZ : ZbdZonesOk D DOk} {K : Crc32c} {KOk : Crc32cOk K} {A : AuxFs}.
Implicit Types (b : ZonedBlockDevice) (s : ZenFS) (F : gmap Z ZoneFile).

(** Data zones are zones of the device, apart from each other and from the metadata. *)
Record io_apart b : Prop := {
  ia_layout : io_layout b;
  ia_io : ∀ i j z z', io_zones b !! i = Some z → io_zones b !! j = Some z' → i ≠ j →
    start_ z + zone_sz_ b ≤ start_ z' ∨ start_ z' + zone_sz_ b ≤ start_ z;
  ia_meta : ∀ i j z z', io_zones b !! i = Some z → meta_zones b !! j = Some z' →
    start_ z + zone_sz_ b ≤ start_ z' ∨ start_ z' + zone_sz_ b ≤ start_ z
}.

(** Every extent of a file lies in its zone. *)
Definition in_zones b F : Prop := ∀ id f e, F !! id = Some f → e ∈ extents_ f →
  ∃ z, io_zones b !! e_zone e = Some z ∧ start_ z ≤ e_start e ∧ e_start e + e_length e ≤ start_ z + zone_sz_ b.

(** The bytes of all files are the same in [d'] as in [d]. *)
Definition data_kept F (d d' : dev) : Prop := ∀ id f e a,
  F !! id = Some f → e ∈ extents_ f → e_start e ≤ a < e_start e + e_length e → byte_at d' a = byte_at d a.

Lemma bytes_in_elem e es : Forall (λ e, 0 ≤ e_length e) es → e ∈ es → e_length e ≤ bytes_in (e_zone e) es.
Proof.
  intros Hf. induction Hf as [|e' es He' Hf IH]; intros Hin; [by apply not_elem_of_nil in Hin|]. cbn.
  pose proof (bytes_in_nonneg (e_zone e) es Hf).
  apply elem_of_cons in Hin as [<-|Hin]; [rewrite decide_True by done; lia|]. specialize (IH Hin). case_decide; lia.
Qed.

Lemma exts_elem b s F id f e : rep b s F → F !! id = Some f → e ∈ extents_ f → e ∈ exts (objs s).
Proof.
  intros R Hf He. destruct (tb_ex _ _ _ (rp_table _ _ _ R) _ _ Hf) as [_ [h Hh]].
  rewrite (exts_delete _ _ _ Hh). set_solver.
Qed.

(** The zone of an extent with data counts as used. *)
Lemma extent_used b s F id f e a :
  rep b s F → F !! id = Some f → e ∈ extents_ f → e_start e ≤ a < e_start e + e_length e →
  ∃ z, io_zones (zbd_ s) !! e_zone e = Some z ∧ IsUsed z = true.
Proof.
  intros R Hf He Ha. pose proof (exts_elem _ _ _ _ _ _ R Hf He) as Hin. pose proof (rp_room _ _ _ R) as Hr.
  pose proof Hr as [Hall Hcap]. assert (e_zone e < length (io_zones b))%nat as Hlt.
  { rewrite Forall_forall in Hall. by apply Hall. }
  destruct (lookup_lt_is_Some_2 _ _ Hlt) as [z Hz]. destruct (Hcap _ _ Hz) as [H0 _].
  rewrite (rp_zones _ _ _ R), (account_lookup _ _ _ _ Hz Hr). eexists. split; [done|]. unfold IsUsed. cbn.
  apply Z.ltb_lt. pose proof (bytes_in_elem e (exts (objs s))) as Hb.
  specialize (Hb ltac:(eapply Forall_impl; [exact Hall|naive_solver]) Hin). lia.
Qed.

Lemma rep_zone b s F i z :
  rep b s F → io_zones (zbd_ s) !! i = Some z → ∃ z0, io_zones b !! i = Some z0 ∧ start_ z = start_ z0.
Proof.
  intros R Hz. rewrite (rp_zones _ _ _ R) in Hz. pose proof (lookup_lt_Some _ _ _ Hz) as Hlt.
  rewrite length_account in Hlt. destruct (lookup_lt_is_Some_2 _ _ Hlt) as [z0 Hz0]. exists z0. split; [done|].
  rewrite (account_lookup _ _ _ _ Hz0 (rp_room _ _ _ R)) in Hz. by injection Hz as <-.
Qed.

(** ** Data survives *)

(** A log that is moved does not touch the data. *)
Lemma touches_data b J b1 b2 F :
  io_apart b → in_zones b F → touches J b1 b2 → zone_sz_ b1 = zone_sz_ b →
  (∀ j z, meta_zones b1 !! j = Some z → ∃ z0, meta_zones b !! j = Some z0 ∧ start_ z = start_ z0) →
  data_kept F (device b1) (device b2).
Proof.
  intros Ia Iz T Es Hm id f e a Hf He Ha. apply (to_bytes _ _ _ T). intros j z _ Hz.
  destruct (Hm j z Hz) as (z0 & Hz0 & ->). destruct (Iz _ _ _ Hf He) as (zi & Hzi & H1 & H2).
  pose proof (ia_meta _ Ia _ _ _ _ Hzi Hz0). rewrite Es. lia.
Qed.

(** Neither does the reset of zones without data. *)
Lemma spares_data b s b1 b2 F :
  io_apart b → in_zones b F → rep b s F → io_zones b1 = io_zones (zbd_ s) → zone_sz_ b1 = zone_sz_ b → spares b1 b2 →
  data_kept F (device b1) (device b2).
Proof.
  intros Ia Iz R Ez Es S id f e a Hf He Ha. apply (sp_bytes _ _ S). intros i z Hz Hu. rewrite Ez in Hz.
  destruct (extent_used _ _ _ _ _ _ _ R Hf He Ha) as (ze & Hze & Hue).
  assert (i ≠ e_zone e) as Hne by (intros ->; rewrite Hz in Hze; injection Hze as ->; congruence).
  destruct (rep_zone _ _ _ _ _ R Hz) as (z0 & Hz0 & ->). destruct (Iz _ _ _ Hf He) as (zi & Hzi & H1 & H2).
  pose proof (ia_io _ Ia _ _ _ _ Hz0 Hzi Hne). rewrite Es. lia.
Qed.

Lemma data_kept_trans F d1 d2 d3 : data_kept F d1 d2 → data_kept F d2 d3 → data_kept F d1 d3.
Proof. intros H1 H2 id f e a Hf He Ha. rewrite (H2 id f e a), (H1 id f e a); done. Qed.

(** ** The mount *)

Lemma contains_spares b b' i z l :
  spares b b' → meta_layout b → meta_zones b !! i = Some z →
  (∀ j z', io_zones b !! j = Some z' → start_ z' + zone_sz_ b ≤ start_ z ∨ start_ z + zone_sz_ b ≤ start_ z') →
  contains b i z l → contains b' i z l.
Proof.
  intros S L Hz Ha Hc. pose proof S as [E1 E2 E3 E4 _ Hr Hby _].
  destruct (ml_zone _ L _ _ Hz) as (_ & _ & _ & _ & _ & Hmax).
  eapply contains_frame; try done; [by rewrite E1|]. intros a Hin. apply Hby. intros j zj Hj _.
  pose proof (Ha _ _ Hj). destruct l as [[sb rs]|]; cbn in Hc; [|lia].
  destruct Hc as (r & pos & _ & _ & _ & _ & _ & _ & _ & _ & [_ _ _ _ _ _ Hwp _ _]). lia.
Qed.

Lemma newest_spares b b' i y :
  spares b b' → meta_layout b →
  (∀ j k z z', meta_zones b !! k = Some z → io_zones b !! j = Some z' →
     start_ z' + zone_sz_ b ≤ start_ z ∨ start_ z + zone_sz_ b ≤ start_ z') →
  newest_log b i y → newest_log b' i y.
Proof.
  intros S L Ha [(z & Hz & Hc) Ho]. unfold newest_log. rewrite (sp_meta _ _ S). split.
  - exists z. split; [done|]. eapply contains_spares; eauto.
  - intros j zj Hj Hne. destruct (Ho j zj Hj Hne) as (l & Hl & Hold). exists l. split; [|done]. eapply contains_spares; eauto.
Qed.

(** What [Mount] leaves behind. *)
Definition mounted_rw sb F s s' : Prop :=
  superblock_ s' = Some (sb_next sb) ∧ table_of s' = F ∧ data_kept F (device (zbd_ s)) (device (zbd_ s')) ∧
  ∃ i fl, newest_log (zbd_ s') i (sb_next sb, [RSnapshot fl]) ∧ apply_rec (RSnapshot fl) ∅ = F.

Lemma others_held b zn s w ls sb :
  mountable w ls → b = zbd_ (zen w) → Forall (older (sb_next sb, [])) ls → meta_inv b [zn] s →
  others_older (zbd_ s) zn (sb_next sb).
Proof.
  intros M -> Hold I j z Hz Hne. pose proof I as [Iz Ib Is In (Hr & Hby & _)].
  rewrite Iz, list_lookup_imap in Hz. destruct (meta_zones (zbd_ (zen w)) !! j) as [zj|] eqn:Hzj; [|done].
  cbn in Hz. injection Hz as <-. destruct (lookup_lt_is_Some_2 ls j) as [l Hl].
  { rewrite (mo_zones _ _ M). by eapply lookup_lt_Some. }
  exists l. split; [|by eapply Forall_lookup_1]. destruct (mo_holds _ _ M _ _ Hl) as (z' & Hz' & _ & Hc).
  rewrite Hzj in Hz'. injection Hz' as <-. eapply contains_frame; try done. by apply (meta_inv_lookup (zbd_ (zen w))).
Qed.

Lemma held_start b hs s j z :
  meta_inv b hs s → meta_zones (zbd_ s) !! j = Some z → ∃ z0, meta_zones b !! j = Some z0 ∧ start_ z = start_ z0.
Proof.
  intros I. rewrite (mi_zones _ _ _ I), list_lookup_imap. destruct (meta_zones b !! j) as [z0|]; [|done].
  cbn. intros [= <-]. eauto.
Qed.

(** The end of a mount for writing. *)
Lemma wp_finish_rw now w ls sb F s1 :
  let b := zbd_ (zen w) in
  mountable w ls → mounted b sb F (zen w) s1 → settled F → meta_writable b → io_apart b → in_zones b F →
  super_ok sb → CompatibleWith sb b = OK → snapshot_fits b F → Forall (older (sb_next sb, [])) ls →
  wp (finish_mount now false) (λ st s', st = OK ∧ mounted_rw sb F (zen w) s') s1.
Proof.
  intros b M Hm Hs W Ia Iz Hok Hc Hfits Hold.
  assert (2 ≤ length (meta_zones b))%nat as Hn by (unfold b; rewrite <-(mo_zones _ _ M); apply (mo_enough _ _ M)).
  destruct (mounted_rollable _ _ _ _ _ Hm W Hn Hok Hc Hfits) as (log & Rl & I).
  assert (rep b s1 F) as R by (by destruct Hm as (? & _ & _ & _ & R & _)).
  pose proof (others_held b _ s1 w ls sb M eq_refl Hold I) as Ho. pose proof I as [_ _ Is _ (_ & Hby & _)].
  unfold finish_mount. wp_step. eapply wp_mono; [by eapply wp_Repair|]. intros st ? [-> ->]. change (ok OK) with true.
  cbn [negb]. wp_step. eapply wp_mono; [by apply wp_RollMetaZoneLocked|]. intros st s2 (-> & new & b2 & Hbs & -> & Hrd).
  change (ok OK) with true. cbn [negb]. pose proof (rd_touches _ _ _ _ _ _ Hrd) as T.
  pose proof (mr_layout _ _ (rl_running _ _ _ Rl)) as L1. apply wp_in_zbd. cbn [zbd_ set_zbd].
  assert (io_zones b2 = io_zones (zbd_ s1)) as Ez by apply (to_io _ _ _ T).
  assert (zone_sz_ b2 = zone_sz_ b) as Es by (rewrite (to_size _ _ _ T); done).
  eapply wp_mono; [apply wp_ResetUnusedIOZones; [|apply (to_readable _ _ _ T)]|].
  { intros i z Hz. rewrite Ez in Hz. destruct (rep_zone _ _ _ _ _ R Hz) as (z0 & Hz0 & ->). rewrite Es. by apply (ia_layout _ Ia i). }
  intros st b3 [-> S3]. split; [done|]. split_and!; [done| | |].
  - rewrite <-(table_of_rep b s1 F R). apply table_of_synced.
  - apply (data_kept_trans F _ (device (zbd_ s1))); [intros id f e a _ _ _; apply Hby|].
    apply (data_kept_trans F _ (device b2)); [apply (touches_data b _ _ _ F Ia Iz T Is); intros; by eapply held_start|].
    by apply (spares_data b s1).
  - exists (log_zone new), (named_files s1). split; [|exact (table_of_rep b s1 F R)]. cbn [zbd_ set_zbd].
    apply (newest_spares b2 _ _ _ S3 (touches_layout _ _ _ T L1)); [|by eapply rolled_newest].
    intros j k z z' Hz Hz'. rewrite Ez in Hz'. destruct (rep_zone _ _ _ _ _ R Hz') as (z0' & Hz0' & ->).
    destruct (to_back _ _ _ _ _ T Hz) as (z1 & Hz1 & -> & _). destruct (held_start _ _ _ _ _ I Hz1) as (z0 & Hz0 & ->).
    rewrite Es. by apply (ia_meta _ Ia j k).
Qed.

Lemma wp_Mount_rw now w ls sb F :
  let b := zbd_ (zen w) in
  mountable w ls → recovered ∅ (newest_first ls []) = Some (sb, F) → settled F →
  (aux_CreateDirIfMissing (GetAuxFsPath sb) (target w)).1 = OK →
  meta_writable b → io_apart b → in_zones b F → super_ok sb → CompatibleWith sb b = OK → snapshot_fits b F →
  Forall (older (sb_next sb, [])) ls →
  wp (Mount now false) (λ st w', st = OK ∧ mounted_rw sb F (zen w) (zen w')) w.
Proof. intros b M HF Hs Haux W Ia Iz Hok Hc Hfits Hold. eapply wp_Mount; try done. intros s1 a Hm. by apply (wp_finish_rw now w ls). Qed.
End mount_write.
