(* ===== verification/ZenMigrate.v ===== *)
(** * ZenFS: migration keeps the data

    [MigrateFileExtents] copies extents of a file to other zones, persists the new list and
    gives the old space back.  The contents of the file do not change, nor does any other
    byte that was written. *)

From stdpp Require Import base numbers option list gmap.
From S2P Require Import Prelude ZenCoding ZenTypes ZenZbd ZenFile ZenLog ZenFs ZenMeta ZenIo ZenWriter ZenOps ZenMount.
From S2P Require Import ZenFileCodec ZenLogSpec ZenSpace ZenRecover ZenAlloc ZenRead ZenSparse ZenAppend ZenPersist.

Section migrate.
Context {D : ZbdDev} {DOk : ZbdDevOk D} {K : Crc32c} {KOk : Crc32cOk K}.
Implicit Types (b : ZonedBlockDevice) (s : ZenFS) (d : dev) (e : ZoneExtent).

(** ** Copying *)

Lemma wp_direct_read_loop : ∀ fuel pos l acc b,
  readable (device b) → stores (device b) pos l → (length l ≤ fuel)%nat → 0 ≤ pos → pos + size l < 2 ^ 64 →
  wp (direct_read_loop fuel pos (size l) acc) (λ r b', r = Some (acc ++ l) ∧ after_reads b b') b.
Proof.
  induction fuel as [|fuel IH]; intros pos l acc b Hr Hs Hf Hp Hlim; cbn [direct_read_loop].
  - destruct l; [|cbn in Hf; lia]. change (size [] =? 0) with true. cbv iota. wp_step.
    rewrite app_nil_r. split; [done|by apply after_reads_refl].
  - destruct (Z.eqb_spec (size l) 0).
    { destruct l; [|unfold size in *; cbn in *; lia]. wp_step. rewrite app_nil_r. split; [done|by apply after_reads_refl]. }
    destruct (pread_ok (device b) pos (size l) Hr) as (data & d' & Hrd & Hsz & Hdata & Hr' & Hb' & Hw').
    { pose proof (size_nonneg l). lia. }
    unfold dev_call. repeat wp_step. rewrite Hrd. repeat wp_step.
    destruct data as [|x data]; [unfold size in Hsz; cbn in Hsz; lia|]. set (got := x :: data) in *.
    assert (got = take (length got) l) as Htake.
    { apply (stores_unique (device b) pos).
      - intros i y Hy. by rewrite (Hdata _ _ Hy).
      - rewrite <-(take_drop (length got) l) in Hs. by apply stores_app in Hs as [Hs _].
      - rewrite length_take. unfold size in *. lia. }
    assert (size l - size got = size (drop (length got) l)) as Hleft.
    { unfold size in *. rewrite length_drop. lia. }
    rewrite Hleft, u64_small by (unfold size in *; lia). eapply wp_mono.
    + apply IH.
      * done.
      * intros i y Hy. cbn. rewrite Hb'. rewrite <-(take_drop (length got) l), <-Htake in Hs.
        apply stores_app in Hs as [_ Hs]. by apply Hs.
      * rewrite length_drop. unfold size in *. lia.
      * unfold size. lia.
      * unfold size in *. rewrite length_drop. lia.
    + intros r b' [-> Har]. split; [|eapply after_reads_trans; [|exact Har]; exists d'; by split_and!].
      rewrite <-app_assoc. rewrite Htake at 1. by rewrite take_drop.
Qed.

Lemma wp_DirectRead b a n :
  readable (device b) → 0 < n → 0 ≤ a → a + n < 2 ^ 64 →
  wp (DirectRead a n) (λ r b', r = Some (dev_bytes (device b) a n) ∧ after_reads b b') b.
Proof.
  intros Hr Hn Ha Hlim. unfold DirectRead. rewrite (proj2 (Z.eqb_neq _ _)) by lia.
  pose proof (wp_direct_read_loop (Z.to_nat n) a (dev_bytes (device b) a n) [] b Hr) as H.
  rewrite size_dev_bytes in H by lia. apply H; [|rewrite length_dev_bytes; lia|lia|lia].
  intros i x Hi. pose proof (lookup_lt_Some _ _ _ Hi) as Hlt. rewrite length_dev_bytes in Hlt.
  rewrite dev_bytes_lookup in Hi by done. by injection Hi as <-.
Qed.

Lemma appended_reads r z data b b1 b2 : after_reads b b1 → appended r z data b1 b2 → appended r z data b b2.
Proof.
  intros (d & -> & Hr & Hb & Hw) (d' & -> & Hr' & Hw' & Hs & Hby & Hwr). exists d'. split_and!; try done.
  - intros a Ha. rewrite Hby by done. apply Hb.
  - intros a n Ha Hwa. apply Hwr; [done|]. by apply Hw.
Qed.

Lemma appended_app r z data1 data2 b b1 b2 :
  appendable r z b → size data1 + size data2 ≤ capacity_ z → appended r z data1 b b1 →
  appended r (z_written (size data1) z) data2 b1 b2 → appended r z (data1 ++ data2) b b2.
Proof.
  intros (Hz & Hr & Hw & Hc & Hp & Hl) Hsz (d1 & -> & Hr1 & Hw1 & Hs1 & Hby1 & Hwr1) (d2 & -> & Hr2 & Hw2 & Hs2 & Hby2 & Hwr2).
  pose proof (size_nonneg data1). pose proof (size_nonneg data2). exists d2. rewrite set_zone_twice, z_written_add, size_app.
  cbn [z_written wp_ capacity_] in *. rewrite !(u64_small (wp_ z + _)) in * by lia. rewrite !(u64_small (capacity_ z - _)) in * by lia.
  assert (∀ z' b', device (set_zone r z' b') = device b') as Hdev by (by destruct r). rewrite !Hdev in *. cbn [device set_device] in *.
  split_and!; [done|done| | | |].
  - by rewrite Z.add_assoc, Z.sub_add_distr.
  - apply stores_app. split; [|done]. intros k x Hk. rewrite Hby2; [by apply Hs1|]. left.
    apply lookup_lt_Some in Hk. unfold size. lia.
  - intros a Ha. rewrite Hby2, Hby1; [done|lia|lia].
  - intros a n Ha Hwa. apply Hwr2; [lia|]. by apply Hwr1.
Qed.

Lemma dev_bytes_add d a m n : 0 ≤ m → 0 ≤ n → dev_bytes d a (m + n) = dev_bytes d a m ++ dev_bytes d (a + m) n.
Proof.
  intros Hm Hn. unfold dev_bytes. rewrite Z2Nat.inj_add, seq_app, fmap_app by done. f_equal.
  rewrite Nat.add_0_l, <-(Nat.add_0_r (Z.to_nat m)), <-fmap_add_seq, <-list_fmap_compose. apply list_fmap_ext.
  intros i x _. cbn. f_equal. lia.
Qed.

Lemma dev_bytes_same d d' a n : (∀ x, a ≤ x < a + n → byte_at d' x = byte_at d x) → dev_bytes d' a n = dev_bytes d a n.
Proof. intros H. unfold dev_bytes. apply list_fmap_ext. intros i x [-> Hi]%lookup_seq. apply H. lia. Qed.

Lemma pad_size_add m n bs : 0 < bs → m mod bs = 0 → pad_size (m + n) bs = pad_size n bs.
Proof. intros Hbs Hm. unfold pad_size. by rewrite <-Z.add_mod_idemp_l, Hm, Z.add_0_l by lia. Qed.

Lemma appendable_written r z data b b' :
  appendable r z b → size data ≤ capacity_ z → appended r z data b b' → appendable r (z_written (size data) z) b'.
Proof.
  intros (Hz & Hr & Hw & Hc & Hp & Hl) Hsz (d & -> & Hr' & Hw' & _). pose proof (size_nonneg data).
  assert (device (set_zone r (z_written (size data) z) (set_device d b)) = d) as Hdev by (by destruct r).
  unfold appendable. rewrite Hdev. cbn [z_written wp_ capacity_]. rewrite !u64_small by lia.
  split_and!; [|done|done|lia..]. eapply (zone_of_set r z). by destruct r.
Qed.

(** One round of the copy: [m] bytes, a multiple of the block size. *)
Lemma wp_copy_round i offset m z b (k : Z → ST ZonedBlockDevice IOStatus) Q :
  appendable (IoZone i) z b → m mod block_sz_ b = 0 → 0 < m ≤ capacity_ z → 0 ≤ offset → offset + m < 2 ^ 64 →
  (∀ b', appended (IoZone i) z (dev_bytes (device b) offset m) b b' → wp (k m) Q b') →
  wp (DirectRead offset m)
    (λ r, wp match r with
             | Some buf => Zone_Append (IoZone i) buf ;; k (size buf)
             | None => ret IOError
             end Q) b.
Proof.
  intros Ho Hal Hm H0 Hlim HQ. pose proof Ho as (Hz & Hr & Hw & Hc & Hp & Hl).
  eapply wp_mono; [apply wp_DirectRead; [done|lia..]|]. intros r b1 [-> Har].
  assert (size (dev_bytes (device b) offset m) = m) as Hsz by (apply size_dev_bytes; lia).
  rewrite Hsz. wp_step. eapply wp_mono.
  { apply (wp_Zone_Append (IoZone i) _ z); rewrite ?Hsz.
    - destruct Har as (d & -> & Hr' & _ & Hw'). split_and!; try done. by apply Hw'.
    - by destruct Har as (d & -> & _).
    - lia. }
  intros st b2 [-> Ha]. apply HQ. by eapply appended_reads.
Qed.

Lemma wp_migrate_loop i : ∀ fuel offset len rs b z,
  let P := len + pad_size len (block_sz_ b) in
  appendable (IoZone i) z b → 0 < block_sz_ b → 0 < rs → rs mod block_sz_ b = 0 → 0 ≤ len → P ≤ capacity_ z →
  (Z.to_nat len ≤ fuel)%nat → 0 ≤ offset → offset + P < 2 ^ 64 → offset + P ≤ wp_ z ∨ wp_ z + capacity_ z ≤ offset →
  wp (migrate_loop fuel offset len rs i)
    (λ st b', st = OK ∧ appended (IoZone i) z (dev_bytes (device b) offset P) b b') b.
Proof.
  induction fuel as [|fuel IH]; intros offset len rs b z P Ho Hbs Hrs Hal Hlen HP Hf H0 Hlim Hap;
    cbn [migrate_loop]; (destruct (Z.leb_spec len 0); [wp_step; split; [done|]|]).
  1,3: assert (len = 0) as -> by lia; change (appended (IoZone i) z (dev_bytes (device b) offset P) b b);
    unfold P, pad_size; rewrite Z.mod_0_l by lia; by apply appended_nil.
  { lia. }
  pose proof (pad_size_nonneg len _ Hbs) as Hpad. do 3 wp_step. destruct (Z.ltb_spec rs len) as [Hlt|Hge].
  - assert (pad_size rs (block_sz_ b) = 0) as Hp0 by (unfold pad_size; by rewrite Hal).
    assert (P = rs + (len - rs + pad_size (len - rs) (block_sz_ b))) as EP.
    { unfold P. replace len with (rs + (len - rs)) at 2 by lia. rewrite pad_size_add by done. lia. }
    pose proof (pad_size_nonneg (len - rs) _ Hbs). rewrite Hp0, Z.add_0_r.
    apply (wp_copy_round i offset rs z b (λ n, migrate_loop fuel (u64 (offset + n)) (len - rs) rs i)); [done|done|lia..|].
    intros b1 Ha. pose proof Ha as (d1 & Eb1 & _ & _ & _ & Hby & _).
    assert (size (dev_bytes (device b) offset rs) = rs) as Hsz by (apply size_dev_bytes; lia). rewrite Hsz in Hby.
    assert (block_sz_ b1 = block_sz_ b) as Ebs by (by rewrite Eb1).
    assert (device b1 = d1) as Ed by (by rewrite Eb1). rewrite u64_small by lia.
    pose proof (appendable_written _ _ _ _ _ Ho ltac:(rewrite Hsz; lia) Ha) as Ho1. rewrite Hsz in Ho1.
    eapply wp_mono.
    { apply (IH (offset + rs) (len - rs) rs b1 (z_written rs z)); rewrite ?Ebs; try done; try lia;
        cbn [z_written capacity_ wp_]; rewrite !u64_small by (destruct Ho as (_ & _ & _ & ? & ? & ?); lia); lia. }
    intros st b2 [-> Ha2]. split; [done|]. rewrite Ebs, Ed in Ha2. rewrite EP, dev_bytes_add by lia.
    eapply appended_app; [exact Ho| |exact Ha|].
    + rewrite Hsz, size_dev_bytes by lia. lia.
    + rewrite Hsz. rewrite <-(dev_bytes_same (device b) d1); [done|]. intros x Hx. apply Hby. lia.
  - apply (wp_copy_round i offset P z b (λ n, migrate_loop fuel (u64 (offset + n)) (len - len) len i)); [done| |lia..|].
    + unfold P. by apply pad_aligned.
    + intros b1 Ha. rewrite Z.sub_diag. destruct fuel; cbn [migrate_loop]; change (0 <=? 0) with true; cbv iota; wp_step; by split.
Qed.

(** ** Zones and extents *)

(** The data zones as the device has them. *)
Record data_layout b : Prop := {
  dl_block : 0 < block_sz_ b ∧ MIGRATE_STEP mod block_sz_ b = 0;
  dl_readable : readable (device b);
  dl_zone : ∀ i z, io_zones b !! i = Some z →
    0 ≤ start_ z ≤ wp_ z ∧ wp_ z mod block_sz_ b = 0 ∧ 0 ≤ capacity_ z ∧ capacity_ z mod block_sz_ b = 0 ∧
    wp_ z + capacity_ z ≤ start_ z + zone_sz_ b < 2 ^ 64 ∧ (0 < capacity_ z → writable (device b) (wp_ z) (capacity_ z));
  dl_apart : ∀ i j z z', io_zones b !! i = Some z → io_zones b !! j = Some z' → i ≠ j →
    start_ z + zone_sz_ b ≤ start_ z' ∨ start_ z' + zone_sz_ b ≤ start_ z
}.

(** The blocks of an extent. *)
Definition blocks (bs : Z) e : Z := e_length e + pad_size (e_length e) bs.

(** The blocks of [e] were written: they are apart from what can still be written. *)
Definition in_written b e : Prop := ∀ i z, io_zones b !! i = Some z →
  e_start e + blocks (block_sz_ b) e ≤ wp_ z ∨ wp_ z + capacity_ z ≤ e_start e.

Definition movable b e : Prop :=
  0 ≤ e_start e ∧ e_start e mod block_sz_ b = 0 ∧ 0 < e_length e < 2 ^ 32 ∧
  e_start e + blocks (block_sz_ b) e < 2 ^ 64 ∧ in_written b e.

(** Only parts of zones that were not written changed. *)
Record moved b b' : Prop := {
  mv_block : block_sz_ b' = block_sz_ b;
  mv_size : zone_sz_ b' = zone_sz_ b;
  mv_meta : meta_zones b' = meta_zones b;
  mv_migrating : migrating_ b' = migrating_ b;
  mv_length : length (io_zones b') = length (io_zones b);
  mv_layout : data_layout b';
  mv_zones : ∀ i z', io_zones b' !! i = Some z' → ∃ z, io_zones b !! i = Some z ∧
    wp_ z ≤ wp_ z' ∧ wp_ z' + capacity_ z' ≤ wp_ z + capacity_ z;
  mv_bytes : ∀ a, (∀ i z, io_zones b !! i = Some z → a < wp_ z ∨ wp_ z + capacity_ z ≤ a) →
    byte_at (device b') a = byte_at (device b) a;
  mv_writable : ∀ a n, (∀ i z, io_zones b !! i = Some z → a + n ≤ wp_ z ∨ wp_ z + capacity_ z ≤ a) →
    writable (device b) a n → writable (device b') a n
}.

Lemma moved_refl b : data_layout b → moved b b.
Proof. intros L. split; try done. intros i z Hz. exists z. split; [done|lia]. Qed.

Lemma moved_trans b1 b2 b3 : moved b1 b2 → moved b2 b3 → moved b1 b3.
Proof.
  intros M1 M2. pose proof M1 as [A1 A2 A3 A4 A9 A5 A6 A7 A8]. pose proof M2 as [B1 B2 B3 B4 B9 B5 B6 B7 B8].
  split; try congruence; try done.
  - intros i z3 Hz3. destruct (B6 i z3 Hz3) as (z2 & Hz2 & H1 & H2). destruct (A6 i z2 Hz2) as (z1 & Hz1 & H3 & H4).
    exists z1. split; [done|lia].
  - intros a Ha. rewrite B7, A7; [done|done|]. intros i z2 Hz2. destruct (A6 i z2 Hz2) as (z1 & Hz1 & H3 & H4).
    specialize (Ha i z1 Hz1). lia.
  - intros a n Ha Hw. apply B8; [|by apply A8]. intros i z2 Hz2. destruct (A6 i z2 Hz2) as (z1 & Hz1 & H3 & H4).
    specialize (Ha i z1 Hz1). lia.
Qed.

Lemma in_written_moved b b' e : moved b b' → in_written b e → in_written b' e.
Proof.
  intros M H i z' Hz'. destruct (mv_zones _ _ M i z' Hz') as (z & Hz & H1 & H2). rewrite (mv_block _ _ M).
  destruct (H i z Hz); [left|right]; lia.
Qed.

Lemma movable_moved b b' e : moved b b' → movable b e → movable b' e.
Proof.
  intros M (H0 & H1 & H2 & H3 & H4). unfold movable. rewrite (mv_block _ _ M). split_and!; try done; try lia.
  by eapply in_written_moved.
Qed.

Lemma blocks_ge bs e : 0 < bs → e_length e ≤ blocks bs e.
Proof. intros Hbs. unfold blocks. pose proof (pad_size_nonneg (e_length e) bs Hbs). lia. Qed.

Lemma extent_bytes_moved b b' e :
  data_layout b → moved b b' → in_written b e →
  dev_bytes (device b') (e_start e) (e_length e) = dev_bytes (device b) (e_start e) (e_length e).
Proof.
  intros L M H. apply dev_bytes_same. intros x Hx. apply (mv_bytes _ _ M). intros i z Hz.
  pose proof (blocks_ge _ e (proj1 (dl_block _ L))). destruct (H i z Hz); lia.
Qed.

(** [P] bytes were written to zone [i]. *)
Lemma moved_one b b' i z z' P :
  data_layout b → io_zones b !! i = Some z → 0 < P ≤ capacity_ z → P mod block_sz_ b = 0 →
  block_sz_ b' = block_sz_ b → zone_sz_ b' = zone_sz_ b → meta_zones b' = meta_zones b → migrating_ b' = migrating_ b →
  io_zones b' = <[i := z']> (io_zones b) →
  start_ z' = start_ z → wp_ z' = wp_ z + P → capacity_ z' = capacity_ z - P →
  readable (device b') → writable (device b') (wp_ z + P) (capacity_ z - P) →
  (∀ a, a < wp_ z ∨ wp_ z + P ≤ a → byte_at (device b') a = byte_at (device b) a) →
  (∀ a n, a + n ≤ wp_ z ∨ wp_ z + capacity_ z ≤ a → writable (device b) a n → writable (device b') a n) →
  moved b b'.
Proof.
  intros L Hz HP Hal E1 E2 E3 E4 E5 E6 E7 E8 Hr Hw Hby Hwr.
  destruct (dl_zone _ L _ _ Hz) as (H1 & H1' & H2 & H3 & H4 & H5). pose proof (dl_block _ L) as [Hbs _].
  assert (∀ j zj, io_zones b' !! j = Some zj → j = i ∧ zj = z' ∨ j ≠ i ∧ io_zones b !! j = Some zj) as Hlk.
  { intros j zj. rewrite E5, list_lookup_insert_Some. intros [(-> & -> & _)|[? ?]]; [by left|right; auto]. }
  split; try done.
  - rewrite E5. apply length_insert.
  - split; rewrite ?E1, ?E2; try done.
    + apply (dl_block _ L).
    + intros j zj [[-> ->]|[Hne Hj]]%Hlk.
      * rewrite E6, E7, E8. split_and!; try lia; [| |done].
        -- by rewrite Z.add_mod, H1', Hal, Z.mod_0_l by lia.
        -- by rewrite Zminus_mod, H3, Hal, Z.mod_0_l by lia.
      * destruct (dl_zone _ L _ _ Hj) as (? & ? & ? & ? & ? & Hwj). split_and!; try lia. intros Hc. apply Hwr; [|by apply Hwj].
        pose proof (dl_apart _ L _ _ _ _ Hj Hz Hne). lia.
    + intros j k zj zk [[-> ->]|[Hj Hzj]]%Hlk [[-> ->]|[Hk Hzk]]%Hlk Hne; rewrite ?E6; [done|..]; by eapply (dl_apart _ L).
  - intros j zj [[-> ->]|[Hne Hj]]%Hlk; [exists z; split; [done|lia]|exists zj; split; [done|lia]].
  - intros a Ha. apply Hby. specialize (Ha i z Hz). lia.
  - intros a n Ha. apply Hwr. by apply (Ha i).
Qed.

Lemma wp_TakeMigrateZone lt mc b :
  lt ≤ WLTH_EXTREME → migrating_ b = false →
  wp (TakeMigrateZone lt mc)
    (λ r b', r = (OK, None) ∧ b' = b ∨
       ∃ i z, r = (OK, Some i) ∧ io_zones b !! i = Some z ∧ candidate mc z = true ∧
              b' = set_migrating true (hold_zone (Some i) b)) b.
Proof.
  intros Hlt Hm. unfold TakeMigrateZone. wp_step. wp_step. wp_step. wp_step; [by rewrite Hm|]. wp_step. wp_step. wp_step.
  eapply wp_mono; [by apply wp_GetBestOpenZoneMatch|]. intros r b1 (d & oz & -> & -> & _ & _ & Hoz). cbv iota.
  change (ok OK) with true. cbn [andb]. destruct oz as [i|]; cbn [negb]; wp_step; cbn [when]; repeat wp_step.
  - right. destruct Hoz as (_ & z & Hz & Hc & _). exists i, z. split_and!; [done..|]. by destruct b.
  - left. split; [done|]. destruct b. cbn in *. by subst.
Qed.

Lemma wp_MigrateData i offset len b z :
  let P := len + pad_size len (block_sz_ b) in
  appendable (IoZone i) z b → 0 < block_sz_ b → MIGRATE_STEP mod block_sz_ b = 0 → 0 ≤ len → P ≤ capacity_ z →
  0 ≤ offset → offset mod block_sz_ b = 0 → offset + P < 2 ^ 64 → offset + P ≤ wp_ z ∨ wp_ z + capacity_ z ≤ offset →
  wp (MigrateData offset len i) (λ st b', st = OK ∧ appended (IoZone i) z (dev_bytes (device b) offset P) b b') b.
Proof.
  intros P Ho Hbs Hst Hlen HP H0 Hal Hlim Hap. unfold MigrateData. wp_step. wp_step. wp_step. wp_step; [by apply Z.eqb_eq|].
  by apply wp_migrate_loop.
Qed.

(** [e] lies in a part of a zone that can still be written. *)
Definition in_free b e : Prop := ∃ i z, io_zones b !! i = Some z ∧ wp_ z ≤ e_start e ∧
  e_start e + e_length e ≤ wp_ z + capacity_ z.

(** The extent is kept, or copied to another zone. *)
Definition relocated b e b' e' : Prop :=
  moved b b' ∧ e_length e' = e_length e ∧ movable b' e' ∧
  dev_bytes (device b') (e_start e') (e_length e') = dev_bytes (device b) (e_start e) (e_length e) ∧
  (e' = e ∨ in_free b e').

Lemma in_free_moved b b' e : moved b b' → in_free b' e → in_free b e.
Proof.
  intros M (i & z' & Hz' & H1 & H2). destruct (mv_zones _ _ M i z' Hz') as (z & Hz & W1 & W2).
  exists i, z. split_and!; [done|lia..].
Qed.

Lemma relocated_refl b e : data_layout b → movable b e → relocated b e b e.
Proof. intros L H. split_and!; try done; [by apply moved_refl|by left]. Qed.

Lemma candidate_room b i z e :
  data_layout b → movable b e → io_zones b !! i = Some z → candidate (e_length e) z = true →
  0 < blocks (block_sz_ b) e ≤ capacity_ z ∧ busy_ z = false ∧ blocks (block_sz_ b) e mod block_sz_ b = 0.
Proof.
  intros L (_ & _ & Hl & _) Hz Hc. pose proof (dl_block _ L) as [Hbs _]. destruct (dl_zone _ L _ _ Hz) as (_ & _ & _ & Hm & _).
  unfold candidate in Hc. rewrite !andb_true_iff, negb_true_iff, Z.leb_le in Hc. destruct Hc as (Hb & _ & Hcap).
  pose proof (blocks_ge (block_sz_ b) e Hbs). split_and!; try done; [lia| |by apply pad_aligned].
  unfold blocks, pad_size. destruct (Z.eqb_spec (e_length e mod block_sz_ b) 0); [lia|].
  pose proof (Z.div_mod (e_length e) (block_sz_ b) ltac:(lia)). pose proof (Z.div_mod (capacity_ z) (block_sz_ b) ltac:(lia)).
  pose proof (Z.mod_pos_bound (e_length e) (block_sz_ b) Hbs).
  assert (e_length e / block_sz_ b < capacity_ z / block_sz_ b) by nia. nia.
Qed.

(** The copy of an extent to zone [i], with the change of its counter and its release. *)
Lemma wp_copy_extent b i z e :
  data_layout b → movable b e → migrating_ b = false → io_zones b !! i = Some z → candidate (e_length e) z = true →
  wp (MigrateData (e_start e) (e_length e) i ;; used_add i (e_length e) ;; ReleaseMigrateZone (Some i))
    (λ _ b', relocated b e b' (mk_extent (wp_ z) (e_length e) i)) (set_migrating true (hold_zone (Some i) b)).
Proof.
  intros L Hm Hmig Hz Hc. destruct (candidate_room b i z e L Hm Hz Hc) as (HP & Hb & Hal).
  pose proof Hm as (H0 & Hoff & Hlen & Hlim & Hw). pose proof (dl_block _ L) as [Hbs Hst].
  destruct (dl_zone _ L _ _ Hz) as (Z1 & Z1' & Z2 & Z3 & Z4 & Z5). set (P := blocks (block_sz_ b) e) in *.
  set (b1 := set_migrating true (hold_zone (Some i) b)). pose proof (hold_zone_self i b z Hz) as Hz1.
  assert (appendable (IoZone i) (z_set_busy true z) b1) as Ho.
  { split_and!; [exact Hz1|apply (dl_readable _ L)|apply Z5; lia|cbn; lia..]. }
  wp_step. eapply wp_mono; [apply (wp_MigrateData i (e_start e) (e_length e) b1 _ Ho); [done|done|lia|exact (proj2 HP)|done|done|exact Hlim|exact (Hw i z Hz)]|].
  intros st b2 (_ & d & -> & Hr & Hwr & Hst2 & Hby & Hkeep). change (block_sz_ b1) with (block_sz_ b) in *.
  change (e_length e + pad_size (e_length e) (block_sz_ b)) with P in *. change (device b1) with (device b) in *.
  rewrite size_dev_bytes in * by lia. cbn [wp_ capacity_ z_set_busy] in *.
  set (z2 := z_written P (z_set_busy true z)). set (b2 := set_zone (IoZone i) z2 (set_device d b1)).
  assert (io_zones b2 !! i = Some z2) as Hz2 by (apply (zone_of_set (IoZone i) (z_set_busy true z)); exact Hz1).
  assert (wp_ z2 = wp_ z + P) as Ew by (cbn; apply u64_small; lia).
  assert (capacity_ z2 = capacity_ z - P) as Ec by (cbn; apply u64_small; lia).
  wp_step. unfold wp at 1. rewrite (run_used_add _ _ _ _ Hz2). unfold ReleaseMigrateZone. wp_step. wp_step.
  set (b3 := set_migrating false (set_io_zones (alter (use (e_length e)) i (io_zones b2)) b2)).
  assert (io_zones b3 !! i = Some (use (e_length e) z2)) as Hz3.
  { change (alter (use (e_length e)) i (io_zones b2) !! i = Some (use (e_length e) z2)). by rewrite list_lookup_alter_eq, Hz2. }
  unfold wp at 1. rewrite (run_CheckRelease b3 i (use (e_length e) z2) Hz3 eq_refl).
  set (b4 := set_zone (IoZone i) (z_set_busy false (use (e_length e) z2)) b3).
  assert (moved b b4) as Mv.
  { apply (moved_one b b4 i z (z_set_busy false (use (e_length e) z2)) P); try done.
    change (io_zones b4) with (<[i := z_set_busy false (use (e_length e) z2)]> (alter (use (e_length e)) i (io_zones b2))).
    rewrite <-(alter_insert (use (e_length e)) _ _ z2 Hz2), list_insert_insert_eq.
    change (io_zones b2) with (<[i := z2]> (alter (z_set_busy true) i (io_zones b))).
    by rewrite <-(alter_insert (z_set_busy true) _ _ z Hz), !list_insert_insert_eq. }
  split_and!; [done|done| | |].
  - unfold movable, blocks. cbn [e_start e_length]. rewrite (mv_block _ _ Mv). fold (blocks (block_sz_ b) e). fold P.
    split_and!; [lia|done|lia|lia|lia|]. intros j zj Hj. destruct (decide (j = i)) as [->|Hne].
    + pose proof (zone_of_set (IoZone i) _ (z_set_busy false (use (e_length e) z2)) _ Hz3) as Hz4. fold b4 in Hz4.
      cbn [zone_of] in Hz4. rewrite Hj in Hz4. injection Hz4 as ->. left.
      change (wp_ (z_set_busy false (use (e_length e) z2))) with (wp_ z2). rewrite Ew. unfold blocks. cbn [e_start e_length]. rewrite (mv_block _ _ Mv). unfold P, blocks. lia.
    + destruct (mv_zones _ _ Mv j zj Hj) as (zj0 & Hj0 & W1 & W2). destruct (dl_zone _ L _ _ Hj0) as (J1 & _ & _ & _ & J2 & _).
      unfold blocks. cbn [e_start e_length]. rewrite (mv_block _ _ Mv). fold (blocks (block_sz_ b) e). fold P.
      pose proof (dl_apart _ L _ _ _ _ Hz Hj0 (not_eq_sym Hne)). lia.
  - cbn [e_start e_length]. unfold dev_bytes at 1 2. apply list_fmap_ext. intros k x [-> Hk]%lookup_seq.
    pose proof (blocks_ge (block_sz_ b) e Hbs). apply Hst2, dev_bytes_lookup. fold P in H. lia.
  - right. exists i, z. pose proof (blocks_ge (block_sz_ b) e Hbs). fold P in H. cbn [e_start e_length]. split_and!; [done|lia|lia].
Qed.

(** ** Files *)

Lemma wp_migrate_extent h f fname exts e s :
  objs s !! h = Some f → is_sparse_ f = false → lifetime_ f ≤ WLTH_EXTREME → is_Some (GetFileNoLock s fname) →
  data_layout (zbd_ s) → movable (zbd_ s) e → migrating_ (zbd_ s) = false →
  wp (migrate_extent h fname exts e)
    (λ r s', ∃ e' b', r = Some e' ∧ s' = set_zbd b' s ∧ relocated (zbd_ s) e b' e') s.
Proof.
  intros Hf Hsp Hlt [h' Hget] L Hm Hmig. unfold migrate_extent. destruct (find_snapshot exts e); cbn [negb].
  2: { wp_step. exists e, (zbd_ s). split_and!; [done|by destruct s|by apply relocated_refl]. }
  pose proof Hm as (H0 & _ & Hlen & Hlim & _). pose proof (blocks_ge _ e (proj1 (dl_block _ L))) as Hge.
  rewrite u32_small by lia. unfold file_at. repeat wp_step. apply wp_in_zbd. rewrite Hsp.
  eapply wp_mono; [by apply wp_TakeMigrateZone|]. intros r b1 [[-> ->]|(i & z & -> & Hz & Hc & ->)]; change (ok OK) with true; cbn [negb].
  { wp_step. apply wp_in_zbd. unfold ReleaseMigrateZone. repeat wp_step. exists e, (zbd_ s). split_and!; [done| |by apply relocated_refl].
    cbn [zbd_ set_zbd]. destruct s as [b ? ? ? ? ? ? ?], b. cbn in *. by subst. }
  wp_step. apply wp_in_zbd. unfold zone_at. do 2 wp_step. eapply wp_load; [exact (hold_zone_self i _ z Hz)|].
  rewrite Z.sub_0_r, !Z.add_0_r, u64_small, u32_small by lia. wp_step. apply wp_in_zbd. cbn [zbd_ set_zbd].
  pose proof (wp_bind_inv _ _ _ _ (wp_copy_extent (zbd_ s) i z e L Hm Hmig Hz Hc)) as H1.
  eapply wp_mono; [exact H1|]. cbn beta. intros _ b2 H2. do 2 wp_step.
  change (GetFileNoLock (set_zbd b2 _) fname) with (GetFileNoLock s fname). rewrite Hget. wp_step. apply wp_in_zbd.
  apply wp_bind_inv in H2. eapply wp_mono; [exact H2|]. cbn beta. intros _ b3 H3. wp_step. apply wp_in_zbd.
  eapply wp_mono; [exact H3|]. cbn beta. intros _ b4 H4. wp_step. destruct (dl_zone _ L _ _ Hz) as (Z1 & _ & _ & _ & Z4 & _).
  destruct (candidate_room _ _ _ _ L Hm Hz Hc) as (HP & _). cbn [wp_ z_set_busy].
  rewrite u64_small by lia. eexists _, b4. split_and!; [done|by destruct s|exact H4].
Qed.

(** All extents of a file. *)
Lemma wp_migrate_extents h f fname exts es : ∀ s,
  objs s !! h = Some f → is_sparse_ f = false → lifetime_ f ≤ WLTH_EXTREME → is_Some (GetFileNoLock s fname) →
  data_layout (zbd_ s) → Forall (movable (zbd_ s)) es → migrating_ (zbd_ s) = false →
  wp (migrate_extents h fname exts es)
    (λ es' s', ∃ b', s' = set_zbd b' s ∧ moved (zbd_ s) b' ∧ length es' = length es ∧ Forall (movable b') es' ∧
       e_length <$> es' = e_length <$> es ∧ contents (device b') es' = contents (device (zbd_ s)) es ∧
       Forall (λ e', e' ∈ es ∨ in_free (zbd_ s) e') es') s.
Proof.
  induction es as [|e es IH]; intros s Hf Hsp Hlt Hget L Hes Hmig; cbn [migrate_extents].
  { wp_step. exists (zbd_ s). split_and!; [by destruct s|by apply moved_refl|done..|by constructor]. }
  apply Forall_cons in Hes as [He Hes]. wp_step. eapply wp_mono; [by apply (wp_migrate_extent h f)|].
  intros r s1 (e' & b1 & -> & -> & M1 & El & He' & Hb & Hfree). cbv iota. wp_step.
  eapply wp_mono; [apply (IH (set_zbd b1 s)); try done; cbn [zbd_ set_zbd]|].
  - apply (mv_layout _ _ M1).
  - eapply Forall_impl; [exact Hes|]. intros x. by apply movable_moved.
  - by rewrite (mv_migrating _ _ M1).
  - cbn [zbd_ set_zbd]. intros es' s2 (b2 & -> & M2 & Hl & Hes' & Hls & Hc & Hfrees). wp_step. exists b2.
    split_and!; [by destruct s|by eapply moved_trans|cbn; lia| | | |].
    + constructor; [by eapply movable_moved|done].
    + cbn. by rewrite El, Hls.
    + rewrite !contents_cons, Hc. f_equal.
      * rewrite <-Hb. apply extent_bytes_moved; [apply (mv_layout _ _ M1)|done|apply He'].
      * clear -L M1 Hes. induction Hes as [|x es Hx _ IH]; [done|]. rewrite !contents_cons, IH. f_equal.
        apply extent_bytes_moved; [done|done|apply Hx].
    + constructor; [destruct Hfree as [->|Hfree]; [left; set_solver|by right]|].
      eapply Forall_impl; [exact Hfrees|]. intros x [Hx|Hx]; [left; set_solver|right; by eapply in_free_moved].
Qed.

Lemma wp_SyncReplace now s h f log z :
  objs s !! h = Some f → is_deleted_ f = false → nr_synced_extents_ f = 0 → log_room s log z (enc_rec (RUpdate true f 0)) →
  wp (SyncFileMetadataNoLock now h true)
    (λ st s', st = OK ∧ ∃ b', s' = set_objs (<[h := MetadataSynced f]> (objs s)) (set_zbd b' s) ∧
                              logged log z (enc_rec (RUpdate true f 0)) (zbd_ s) b') s.
Proof.
  intros Hf Hd Hk Hroom. unfold SyncFileMetadataNoLock, file_at, file_put. repeat wp_step. rewrite Hd. repeat wp_step.
  assert (EncodeUpdateTo f [] = ZoneFile_EncodeTo f [] (Z.of_nat 0)) as -> by (unfold EncodeUpdateTo; by rewrite Hk).
  eapply wp_mono; [by apply (wp_PersistRecord _ log z)|]. intros st s1 (-> & b' & -> & Hb').
  wp_step. change (ok OK) with true. cbn [when]. wp_step. fs_simpl. eapply wp_load; [exact Hf|]. repeat wp_step.
  split; [done|]. exists b'. split; [by destruct s|done].
Qed.

Lemma wp_free_moved os : ∀ ns b,
  Forall (λ o, (e_zone o < length (io_zones b))%nat) os →
  wp (free_moved os ns) (λ _ b', ∃ zs, b' = set_io_zones zs b) b.
Proof.
  induction os as [|o os IH]; intros ns b Ho; cbn [free_moved]; [wp_step; exists (io_zones b); by destruct b|].
  apply Forall_cons in Ho as [Ho Hos]. destruct ns as [|n ns]; [wp_step; exists (io_zones b); by destruct b|].
  wp_step. apply wp_when; intros _; [|by apply IH].
  destruct (lookup_lt_is_Some_2 _ _ Ho) as [z Hz]. unfold zone_upd, zone_at. do 3 wp_step. eapply wp_load; [exact Hz|]. wp_step.
  eapply wp_mono; [apply IH|]; cbn [io_zones set_zone set_io_zones].
  - by rewrite length_insert.
  - intros _ b' [zs ->]. exists zs. by destruct b.
Qed.

(** A file that is not being written, on zones as the device has them, and a log with room
    for the record that replaces its extents. *)
Record migratable s (h : nat) f (fname : slice) (log : ZenMetaLog) (z : Zone) : Prop := {
  mg_file : objs s !! h = Some f;
  mg_name : GetFileNoLock s fname = Some h;
  mg_closed : open_for_wr_ f = false;
  mg_deleted : is_deleted_ f = false;
  mg_sparse : is_sparse_ f = false;
  mg_lifetime : lifetime_ f ≤ WLTH_EXTREME;
  mg_some : extents_ f ≠ [];
  mg_layout : data_layout (zbd_ s);
  mg_movable : Forall (movable (zbd_ s)) (extents_ f);
  mg_zones : Forall (λ e, (e_zone e < length (io_zones (zbd_ s)))%nat) (extents_ f);
  mg_idle : migrating_ (zbd_ s) = false;
  mg_room : ∀ es, e_length <$> es = e_length <$> extents_ f →
    log_room s log z (enc_rec (RUpdate true (MetadataUnsynced (f_set_extents es f)) 0));
  mg_log : ∀ i zi, io_zones (zbd_ s) !! i = Some zi →
    wp_ zi + capacity_ zi ≤ wp_ z ∨ wp_ z + capacity_ z ≤ wp_ zi;
  mg_apart : Forall (apart (wp_ z) (wp_ z + capacity_ z)) (extents_ f)
}.

(** The address was written, and the log is not appended to there. *)
Definition stays s (z : Zone) (a : Z) : Prop :=
  (a < wp_ z ∨ wp_ z + capacity_ z ≤ a) ∧
  ∀ i zi, io_zones (zbd_ s) !! i = Some zi → a < wp_ zi ∨ wp_ zi + capacity_ zi ≤ a.

(** [es] are the new extents of [f], which is otherwise unchanged, as are the other files. *)
Definition migrated h f (z : Zone) s s' : Prop := ∃ es,
  objs s' = <[h := MetadataSynced (MetadataUnsynced (f_set_extents es f))]> (objs s) ∧ files_ s' = files_ s ∧
  e_length <$> es = e_length <$> extents_ f ∧
  contents (device (zbd_ s')) es = contents (device (zbd_ s)) (extents_ f) ∧
  (∀ a, stays s z a → byte_at (device (zbd_ s')) a = byte_at (device (zbd_ s)) a).

Lemma moved_log_room s b' log z rec :
  (∀ i zi, io_zones (zbd_ s) !! i = Some zi → wp_ zi + capacity_ zi ≤ wp_ z ∨ wp_ z + capacity_ z ≤ wp_ zi) →
  moved (zbd_ s) b' → log_room s log z rec → log_room (set_zbd b' s) log z rec.
Proof.
  intros Hap M (Hl & (Hz & Hr & Hw & Hc & Hp & Hlim) & Hbs & Hpos & Hfit & Hcap). split_and!; try done.
  - split_and!; try done.
    + cbn. by rewrite (mv_meta _ _ M).
    + apply (dl_readable _ (mv_layout _ _ M)).
    + apply (mv_writable _ _ M); [|done]. intros i zi Hzi. destruct (Hap i zi Hzi); lia.
  - cbn. by rewrite (mv_block _ _ M).
Qed.

(** The record is logged, and the old space given back. *)
Lemma wp_SyncFileExtents now s h f es log z :
  objs s !! h = Some f → open_for_wr_ f = false → is_deleted_ f = false → es ≠ [] → length es = length (extents_ f) →
  log_room s log z (enc_rec (RUpdate true (MetadataUnsynced (f_set_extents es f)) 0)) →
  Forall (λ e, (e_zone e < length (io_zones (zbd_ s)))%nat) (extents_ f) →
  wp (SyncFileExtents now h es)
    (λ st s', st = OK ∧ ∃ b' zs, logged log z (enc_rec (RUpdate true (MetadataUnsynced (f_set_extents es f)) 0)) (zbd_ s) b' ∧
       s' = set_objs (<[h := MetadataSynced (MetadataUnsynced (f_set_extents es f))]> (objs s)) (set_zbd (set_io_zones zs b') s)) s.
Proof.
  intros Hf Hop Hdel Hne Hlen Hroom Hz. unfold SyncFileExtents, file_at. repeat wp_step. apply wp_in_zbd.
  unfold ReplaceExtentList. wp_step. wp_step; [rewrite Hop, bool_decide_false by done; done|]. wp_step.
  wp_step; [by apply Nat.eqb_eq|]. wp_step. unfold file_put. do 3 wp_step. set (f' := MetadataUnsynced (f_set_extents es f)).
  eapply wp_mono; [apply (wp_SyncReplace now _ h f' log z)|].
  - apply lookup_insert_eq.
  - done.
  - done.
  - destruct s as [b ? ? ? ? ? ? ?]. exact Hroom.
  - cbn [zbd_ set_zbd set_objs objs]. intros st s1 (-> & b' & -> & Hlog). change (ok OK) with true. cbn [negb]. wp_step.
    apply wp_in_zbd. cbn [zbd_ set_zbd set_objs]. eapply wp_mono; [apply wp_free_moved|].
    + by rewrite (logged_io_zones _ _ _ _ _ Hlog).
    + intros _ b2 [zs ->]. wp_step. split; [done|]. exists b', zs. split; [done|]. cbn [objs set_objs set_zbd].
      rewrite insert_insert_eq. by destruct s.
Qed.

Lemma files_find_elem fs k h : files_find fs k = Some h → ∃ n, (n, h) ∈ fs.
Proof.
  induction fs as [|[n h'] fs IH]; cbn; [done|]. case_decide; [intros [= ->]; exists n; set_solver|].
  intros (m & Hm)%IH. exists m. set_solver.
Qed.

(** Appending to the log does not touch what [stays], nor extents apart from it. *)
Lemma logged_bytes log z rec b b' a :
  logged log z rec b b' → 0 < bs_ log → record_fits (bs_ log) rec → phys_size (bs_ log) (size rec) ≤ capacity_ z →
  a < wp_ z ∨ wp_ z + capacity_ z ≤ a → byte_at (device b') a = byte_at (device b) a.
Proof.
  intros (d & -> & _ & _ & _ & Hby & _) Hbs Hfit Hcap Ha. change (byte_at d a = byte_at (device b) a). apply Hby.
  rewrite size_record by done. lia.
Qed.

Lemma in_free_apart s z e :
  (∀ i zi, io_zones (zbd_ s) !! i = Some zi → wp_ zi + capacity_ zi ≤ wp_ z ∨ wp_ z + capacity_ z ≤ wp_ zi) →
  in_free (zbd_ s) e → apart (wp_ z) (wp_ z + capacity_ z) e.
Proof. intros Hlog (i & zi & Hzi & H1 & H2). unfold apart. destruct (Hlog i zi Hzi); lia. Qed.

Lemma wp_MigrateFileExtents now s h f fname exts log z :
  migratable s h f fname log z →
  wp (MigrateFileExtents now fname exts) (λ st s', st = OK ∧ migrated h f z s s') s.
Proof.
  intros [Hf Hname Hop Hdel Hsp Hlt Hne L Hmv Hz Hidle Hroom Hlog Hap]. unfold MigrateFileExtents, with_ref. do 2 wp_step.
  rewrite Hname. unfold file_at. repeat wp_step. rewrite Hop. wp_step. wp_step. wp_step.
  set (s0 := set_handles (h :: handles s) s). wp_step.
  eapply wp_mono; [apply (wp_migrate_extents h f fname exts (extents_ f) s0); try done; exact (ex_intro _ h Hname)|].
  change (zbd_ s0) with (zbd_ s). intros es s1 (b1 & -> & M & Hlen & Hmv1 & Hls & Hc & Hfree).
  pose proof (moved_log_room s b1 log z _ Hlog M (Hroom es Hls)) as Hroom1.
  assert (length (io_zones b1) = length (io_zones (zbd_ s))) as Hl.
  { by rewrite (mv_length _ _ M). }
  wp_step. eapply wp_mono; [apply (wp_SyncFileExtents now (set_zbd b1 s0) h f es log z); try done|].
  - intros ->. by destruct (extents_ f).
  - cbn [zbd_ set_zbd]. by rewrite Hl.
  - cbn [zbd_ set_zbd objs]. intros st s2 (-> & b2 & zs & Hlg & ->). repeat wp_step. unfold drop_file. do 2 wp_step.
    destruct (files_find_elem _ _ _ Hname) as [n Hn].
    apply wp_when; intros Hr; [exfalso; apply negb_true_iff, not_true_iff_false in Hr; apply Hr, referenced_iff; left; by exists n|].
    wp_step. split; [done|].
    destruct Hroom1 as (_ & _ & _ & Hb0 & Hfit & Hcap).
    assert (∀ a, a < wp_ z ∨ wp_ z + capacity_ z ≤ a → byte_at (device b2) a = byte_at (device b1) a) as Hby.
    { intros a. exact (logged_bytes _ _ _ _ _ a Hlg Hb0 Hfit Hcap). }
    exists es. split_and!; [done|done|done| |].
    + rewrite <-Hc. cbn [zbd_ set_zbd set_objs set_handles device set_io_zones].
      apply (contents_apart (device b1) (device b2) (wp_ z) (wp_ z + capacity_ z)); [|done].
      rewrite Forall_forall in Hap |- *. intros e He. rewrite Forall_forall in Hfree.
      destruct (Hfree e He) as [Hin|Hin]; [by apply Hap|by apply (in_free_apart s)].
    + intros a [Ha1 Ha2]. cbn [zbd_ set_zbd set_objs set_handles device set_io_zones]. rewrite Hby by done.
      by apply (mv_bytes _ _ M).
Qed.
End migrate.
