(* ===== verification/WalTheorems.v ===== *)
(** * RocksDB: properties of checksums and write-ahead logs

    The checksums are those of [CrcOps], in any x86 build and with the buffers at any
    address; the files of the logs are those of the interfaces. *)

From stdpp Require Import base numbers option list gmap strings.
From S2P Require Import Prelude ZenCoding CrcOps CrcAlgebra CrcSpec CrcThreeWay CrcCombine ZenTypes WalOps WalWrite WalRead WalLog.

(** ** The checksums of a build, as the log uses them *)

Definition built_combine (b : Build) (addr : Z) : CrcCombine := {|
  crc32c_Combine c1 c2 n := default 0 (Crc32cCombine b addr (u32 c1) (u32 c2) n)
|}.

Lemma built_crc_log b addr :
  0 ≤ addr ∧ addr + 15 < 2 ^ 64 → CrcLogOk (built_crc b addr) (built_combine b addr).
Proof.
  intros Ha. assert (H0 : 0 ≤ 0 < 2 ^ 32) by lia. split.
  - unfold crc32c_Value. by rewrite built_crc_eq by (done || constructor).
  - intros c l. apply (built_crc_ok b addr Ha).
  - intros c l1 l2 Hc H1 H2. pose proof (crc32c_range c l1 Hc H1).
    rewrite (built_crc_eq b addr Ha c l1), built_crc_eq, built_crc_eq by (done || by apply bytes_app).
    apply crc32c_app.
  - intros c l Hc Hl Hs. unfold crc32c_Value. rewrite !built_crc_eq by done.
    cbn [crc32c_Combine built_combine]. pose proof (crc32c_range 0 l H0 Hl).
    rewrite !u32_small, Crc32cCombine_ok by (done || apply Ha). done.
Qed.

(** Writing records one after the other, up to the first that fails. *)
Fixpoint write_all {D} `{LogDest D} `{Crc32c} `{CrcCombine} `{StreamingCompression}
    (fuel : nat) (rs : list slice) : ST (Writer D) IOStatus :=
  match rs with
  | [] => ret OK
  | r :: rs =>
      s <- Writer_AddRecord fuel r ;;
      if ok s then write_all fuel rs else ret s
  end.

Section wal_theorems.
Variables (b : Build) (addr : Z).
Hypothesis Ha : 0 ≤ addr ∧ addr + 15 < 2 ^ 64.
#[local] Instance K : Crc32c := built_crc b addr.
#[local] Instance KC : CrcCombine := built_combine b addr.
#[local] Instance KOk : CrcLogOk K KC := built_crc_log b addr Ha.
Context {D : Type} {LD : LogDest D} {LDOk : LogDestOk D LD K}.
Context {F : Type} {LS : LogSource F} {LSOk : LogSourceOk F LS}.
Context {Z_ : StreamingCompression}.
Implicit Types (w : Writer D) (r : Reader F).

(** A writer whose file holds the log of [rs], the fragments [fs]. *)
Definition wrote w (rs : list slice) (fs : list frag) : Prop :=
  wal (recycle_log_files_ w) 0 rs fs ∧
  good_writer w (lay (recycle_log_files_ w) (u32 (log_number_ w)) 0 fs) ∧
  block_offset_ w = lay_end (recycle_log_files_ w) 0 fs.

Lemma wrote_new d log rc mf : holds_log d [] → wrote (new_Writer d log rc mf kNoCompression) [] [].
Proof. intros Hd. split; [constructor|]. split; [|done]. split; [done|]. split; [|done]. cbn. wal_lia. Qed.

Lemma wp_add_wrote fuel rec w rs fs :
  wrote w rs fs → bytes rec → (length rec + 2 ≤ fuel)%nat →
  wp (Writer_AddRecord fuel rec) (λ s w', moved_on w w' ∧ (ok s = true → ∃ gs,
    laid (recycle_log_files_ w) (lay_end (recycle_log_files_ w) 0 fs) true rec gs ∧
    wrote w' (rs ++ [rec]) (fs ++ gs))) w.
Proof.
  intros (Hw & Hg & Ho) Hr Hf. eapply wp_mono; [by apply wp_AddRecord_wal|].
  intros s w' [Hm Hs]. split; [done|]. intros Hok. destruct (Hs Hok) as (gs & Hl & Hg' & Ho').
  destruct Hm as (d' & o' & ->). rewrite Ho in Hl, Hg', Ho'. exists gs. split; [done|].
  split; [by apply wal_snoc|]. cbn [recycle_log_files_ log_number_ set_block_offset set_dest] in *.
  split; [by rewrite lay_app|by rewrite lay_end_app].
Qed.

Lemma wp_write_all fuel rs w rs0 fs0 :
  wrote w rs0 fs0 → Forall bytes rs → Forall (λ rec, (length rec + 2 ≤ fuel)%nat) rs →
  wp (write_all fuel rs) (λ s w', moved_on w w' ∧ (ok s = true → ∃ fs,
    wal (recycle_log_files_ w) (lay_end (recycle_log_files_ w) 0 fs0) rs fs ∧
    wrote w' (rs0 ++ rs) (fs0 ++ fs))) w.
Proof.
  intros Hw Hb Hf. revert w rs0 fs0 Hw Hb Hf. induction rs as [|rec rs IH]; intros w rs0 fs0 Hw Hb Hf.
  - cbn [write_all]. wp_step. split; [exists (dest_ w), (block_offset_ w); by destruct w|].
    intros _. exists []. split; [constructor|]. by rewrite !app_nil_r.
  - apply Forall_cons in Hb as [Hb1 Hb]. apply Forall_cons in Hf as [Hf1 Hf]. cbn [write_all]. wp_step.
    eapply wp_mono; [by apply wp_add_wrote|]. intros s w1 [Hm1 Hs1]. destruct (ok s) eqn:Hok; [|wp_step; by rewrite Hok].
    destruct (Hs1 eq_refl) as (gs & Hl & Hw1). eapply wp_mono; [by apply IH|]. intros s2 w2 [Hm2 Hs2].
    split; [by eapply moved_on_trans|]. intros Hok2. destruct (Hs2 Hok2) as (fs & Hwal & Hw2).
    exists (gs ++ fs). rewrite <- !app_assoc in Hw2. split; [|done]. destruct Hm1 as (d & o & ->).
    rewrite lay_end_app in Hwal. by constructor.
Qed.

Lemma reading_new f cs log l : left_to_read f l → reading (new_Reader f cs log) 0 l.
Proof. intros Hf. exists l. cbn. split_and!; done || wal_lia. Qed.
Lemma aligned_new : aligned 0 0.
Proof. split; [wal_lia|done]. Qed.
Lemma knows_new f cs log rc :
  (rc = true → 0 ≤ log < 2 ^ 32) → knows_log rc (u32 log) (new_Reader (F := F) f cs log).
Proof. intros Hlog Hrc. specialize (Hlog Hrc). by rewrite u32_small. Qed.

(** ** Properties *)

(** C10: whatever records are written to an empty log, recycled or not, if the file takes
    them all then a reader of the file, in any recovery mode, returns exactly these
    records in their order and then the end of the log, and reports nothing. *)
Theorem wal_roundtrip d log rc mf rs cs mode fuel rfuel uf :
  holds_log d [] → (rc = true → 0 ≤ log < 2 ^ 32) → Forall bytes rs →
  Forall (λ rec, (length rec + 2 ≤ fuel)%nat) rs →
  wp (write_all fuel rs) (λ s w, ok s = true → ∃ l, holds_log (dest_ w) l ∧
    ∀ f, left_to_read f l → (length l < rfuel)%nat →
    wp (read_all (S (length rs)) rfuel uf mode)
      (λ res r, res = rs ∧ reported r = []) (new_Reader f cs log)) (new_Writer d log rc mf kNoCompression).
Proof using Ha.
  intros Hd Hlog Hb Hf. eapply wp_mono; [apply (wp_write_all fuel rs _ [] []); [by apply wrote_new|done..]|].
  intros s w [(d' & o' & ->) Hs] Hok. destruct (Hs Hok) as (fs & _ & Hw & (Hl & _) & _). cbn [app] in *.
  eexists. split; [exact Hl|]. intros f Hfl Hfu.
  eapply wp_mono; [eapply (wp_read_wal_end rc (u32 log)); [exact Hw|by apply reading_new|apply aligned_new|by apply knows_new|exact Hfu]|].
  intros res r (-> & (Hq & _) & _). by rewrite Hq.
Qed.

(** C11: a crash while a record is appended leaves a prefix of its bytes in the file, cut
    anywhere.  A reader of such a file returns all the records before it and then the end
    of the log; unless the mode is one that asks for absolute or point-in-time
    consistency, it reports nothing. *)
Theorem wal_cut d log rc mf rs rec cs mode fuel rfuel uf :
  holds_log d [] → (rc = true → 0 ≤ log < 2 ^ 32) → Forall bytes (rs ++ [rec]) →
  Forall (λ rec, (length rec + 2 ≤ fuel)%nat) (rs ++ [rec]) →
  wp (write_all fuel rs) (λ s w, ok s = true → ∃ l, holds_log (dest_ w) l ∧
    wp (Writer_AddRecord fuel rec) (λ s' w', ok s' = true → ∃ u, holds_log (dest_ w') (l ++ u) ∧
      ∀ f t x, t ++ x = u → x ≠ [] → left_to_read f (l ++ t) → (length (l ++ t) + 1 < rfuel)%nat →
      wp (read_all (S (length rs)) rfuel uf mode)
        (λ res r, res = rs ∧ (strict mode = false → reported r = [])) (new_Reader f cs log)) w)
    (new_Writer d log rc mf kNoCompression).
Proof using Ha.
  intros Hd Hlog [Hb Hbr]%Forall_app [Hf Hfr]%Forall_app. apply Forall_inv in Hbr, Hfr.
  eapply wp_mono; [apply (wp_write_all fuel rs _ [] []); [by apply wrote_new|done..]|].
  intros s w [(d' & o' & ->) Hs] Hok. destruct (Hs Hok) as (fs & _ & Hw). cbn [app] in *.
  pose proof Hw as (Hwal & (Hl & _) & _). eexists. split; [exact Hl|].
  eapply wp_mono; [eapply wp_add_wrote; [exact Hw|done..]|]. intros s' w' [(d2 & o2 & ->) Hs'] Hok'.
  destruct (Hs' Hok') as (gs & Hlaid & (_ & (Hl' & _) & _)). cbn [recycle_log_files_ log_number_ set_block_offset set_dest new_Writer] in *.
  rewrite lay_app in Hl'. eexists. split; [exact Hl'|]. intros f t x Htx Hx Hfl Hfu.
  eapply wp_mono; [eapply (wp_read_wal_cut rc (u32 log)); [exact Hwal|exact Hlaid|done|exact Htx|done|
    by apply reading_new|apply aligned_new|by apply knows_new|exact Hfu]|].
  intros res r [-> Hq]. split; [done|]. intros Hm. by destruct (Hq Hm) as (-> & _).
Qed.

(** C35: a reader that has read a log to its end and is told by [UnmarkEOF] that the file
    has grown returns the records that were added since, and only these. *)
Theorem wal_follow d log rc mf rs1 rs2 cs mode fuel rfuel uf :
  holds_log d [] → (rc = true → 0 ≤ log < 2 ^ 32) → Forall bytes (rs1 ++ rs2) →
  Forall (λ rec, (length rec + 2 ≤ fuel)%nat) (rs1 ++ rs2) →
  wp (write_all fuel rs1) (λ s w, ok s = true → ∃ l, holds_log (dest_ w) l ∧
    wp (write_all fuel rs2) (λ s' w', ok s' = true → ∃ u, holds_log (dest_ w') (l ++ u) ∧
      ∀ f f', left_to_read f l → left_to_read f' u → (length (l ++ u) < rfuel)%nat →
      wp (res1 <- read_all (S (length rs1)) rfuel uf mode ;;
          modify (set_file f') ;; UnmarkEOF ;;
          res2 <- read_all (S (length rs2)) rfuel uf mode ;; ret (res1, res2))
        (λ res r, res = (rs1, rs2) ∧ reported r = []) (new_Reader f cs log)) w)
    (new_Writer d log rc mf kNoCompression).
Proof using Ha.
  intros Hd Hlog [Hb Hbr]%Forall_app [Hf Hfr]%Forall_app.
  eapply wp_mono; [apply (wp_write_all fuel rs1 _ [] []); [by apply wrote_new|done..]|].
  intros s w [(d' & o' & ->) Hs] Hok. destruct (Hs Hok) as (fs & _ & Hw). cbn [app] in *.
  pose proof Hw as (Hwal & (Hl & _) & _). eexists. split; [exact Hl|].
  eapply wp_mono; [eapply wp_write_all; [exact Hw|done..]|]. intros s' w' [(d2 & o2 & ->) Hs'] Hok'.
  destruct (Hs' Hok') as (gs & Hwal' & (_ & (Hl' & _) & _)).
  cbn [recycle_log_files_ log_number_ set_block_offset set_dest new_Writer] in *.
  rewrite lay_app in Hl'. eexists. split; [exact Hl'|]. intros f f' Hfl Hfl' Hfu. rewrite length_app in Hfu.
  wp_step. eapply wp_mono; [eapply (wp_read_wal_end rc (u32 log));
    [exact Hwal|by apply reading_new|apply aligned_new|by apply knows_new|lia]|].
  intros res r (-> & Hq & He & pos & Hr & Hal). do 3 wp_step.
  eapply wp_mono; [by apply wp_UnmarkEOF|]. intros [] r' [Hr' Hq']. wp_step.
  assert (Hk : knows_log rc (u32 log) r').
  { eapply quiet_knows; [|exact Hq']. eapply quiet_knows; [|exact Hq]. by apply knows_new. }
  eapply wp_mono; [eapply wp_read_wal_end; [exact Hwal'|done|done|done|lia]|].
  intros res r2 (-> & Hq2 & _). wp_step. split; [done|].
  destruct Hq as [E _], Hq' as [E' _], Hq2 as [E2 _]. by rewrite E2, E', E.
Qed.



(** A recycled log whose number does not fit in 32 bits is written with the low 32
    bits of the number, but read back with the whole: the reader takes the first record
    for one of an older log, and returns nothing of what was written. *)
Theorem recycled_number_lost d log mf rs cs mode fuel rfuel uf :
  holds_log d [] → 2 ^ 32 ≤ log → Forall bytes rs → Forall (λ rec, (length rec + 2 ≤ fuel)%nat) rs →
  rs ≠ [] → skip_any mode = false →
  wp (write_all fuel rs) (λ s w, ok s = true → ∃ l, holds_log (dest_ w) l ∧
    ∀ f, left_to_read f l → (length l < rfuel)%nat →
    wp (read_all (S (length rs)) rfuel uf mode)
      (λ res r, res = [] ∧ reported r = []) (new_Reader f cs log)) (new_Writer d log true mf kNoCompression).
Proof using Ha.
  intros Hd Hlog Hb Hf Hrs Hm.
  eapply wp_mono; [apply (wp_write_all fuel rs _ [] []); [by apply wrote_new|done..]|].
  intros s w [(d' & o' & ->) Hs] Hok. destruct (Hs Hok) as (fs & _ & Hw & (Hl & _) & _). cbn [app] in *.
  eexists. split; [exact Hl|]. intros f Hfl Hfu. pose proof (u32_range log) as Hu.
  cbn [recycle_log_files_ log_number_ set_block_offset set_dest new_Writer lay_end] in *.
  rewrite <- (app_nil_r (lay _ _ _ _)) in Hfl, Hfu.
  cbn [read_all]. wp_step. eapply wp_mono; [eapply (wp_ReadRecord_old true (u32 log));
    [exact Hw|done|by apply reading_new|apply aligned_new|done|exact Hu| |done|exact Hfu]|].
  { cbn. lia. }
  intros res r [-> (Hq & _)]. wp_step. by rewrite Hq.
Qed.

(** The checksum of a fragment changes with a burst in its payload. *)
Lemma burst_value t log rc p p' :
  0 ≤ t < 256 → bytes p → bytes p' → length p = length p' → burst p p' →
  crc32c_Value (t :: log_bytes rc log ++ p') ≠ crc32c_Value (t :: log_bytes rc log ++ p).
Proof using Ha.
  intros Ht Hp Hp' Hlen Hbu. assert (Hpre : bytes (t :: log_bytes rc log)).
  { constructor; [lia|apply bytes_log]. }
  rewrite !app_comm_cons. unfold crc32c_Value. rewrite !(built_crc_eq b addr Ha) by (done || by apply bytes_app).
  rewrite <- !crc32c_app. apply not_eq_sym. by apply crc32c_burst.
Qed.



Lemma emit_overrun w p :
  kBlockSize < block_offset_ w + kHeaderSize + size p →
  EmitPhysicalRecord kUserDefinedTimestampSizeType p w = Crash.
Proof.
  intros Ho. unfold EmitPhysicalRecord, bind, get, assert, load.
  destruct (size p <=? 0xffff); [|done]. unfold ret at 1. destruct (type_crc_ w !! _); [|done]. unfold ret at 1.
  change (_ || _) with true. cbv iota. by rewrite (proj2 (Z.leb_gt _ _)).
Qed.

(** C39: [MaybeAddUserDefinedTimestampSizeRecord] emits its record without the switch to a
    new block that [AddRecord] makes: where a record has left less room in the block than
    the 13 bytes of the timestamp-size record of one column family, the assertion that a
    physical record lies within a block fails. *)
Theorem ts_record_overrun d log mf rec cf ts_sz fuel :
  holds_log d [] → bytes rec → (length rec + 2 ≤ fuel)%nat → ts_sz ≠ 0 →
  kBlockSize - 2 * kHeaderSize - kSizePerColumnFamily < size rec ≤ kBlockSize - kHeaderSize →
  wp (Writer_AddRecord fuel rec)
    (λ s w, ok s = true → MaybeAddUserDefinedTimestampSizeRecord [(cf, ts_sz)] w = Crash)
    (new_Writer d log false mf kNoCompression).
Proof using Ha.
  intros Hd Hb Hf Hts Hsz. eapply wp_mono; [apply (wp_add_wrote fuel rec _ [] []); [by apply wrote_new|done..]|].
  intros s w [(d' & o' & ->) Hs] Hok. destruct (Hs Hok) as (gs & Hl & (_ & _ & Ho)).
  cbn [recycle_log_files_ set_block_offset set_dest new_Writer block_offset_ app lay_end] in *.
  assert (o' = kHeaderSize + size rec) as ->.
  { inversion Hl as [? ? ? Hp|? ? ? fs Hp Hl']; subst gs; [rewrite Ho; done|].
    change (room_at false 0) with (kBlockSize - 0 - kHeaderSize) in Hp. lia. }
  unfold MaybeAddUserDefinedTimestampSizeRecord, bind, get. cbn [ts_to_record bind get].
  unfold bind at 1, get. cbn [recorded_cf_to_ts_sz_ set_block_offset set_dest new_Writer].
  rewrite lookup_empty, (proj2 (Z.eqb_neq _ _)) by done. cbn [negb].
  unfold bind at 1, modify, ret. cbn [app length Nat.eqb recycle_log_files_ set_recorded set_block_offset set_dest new_Writer].
  apply emit_overrun. cbn [block_offset_ set_recorded set_block_offset set_dest].
  change (size (TimestampSizeRecord_EncodeTo [(cf, ts_sz)])) with kSizePerColumnFamily. lia.
Qed.

End wal_theorems.

(** * RocksDB: properties of the CRC-32C checksums

    For every x86 build and every address of the buffers, [crc32c::Extend] and
    [crc32c::Crc32cCombine] of [CrcOps] against the bitwise definition of [CrcAlgebra]. *)

(** C17: the checksum that [Extend] computes is the CRC-32C of the bytes, bit after bit by
    the reflected polynomial 0x82f63b78, whichever routine the build and the processor
    select (tables, the [crc32] instruction, or three interleaved streams joined by carry-less
    products), and however the buffer is aligned. *)
Theorem crc_extend b addr crc buf :
  bytes buf → 0 ≤ crc < 2 ^ 32 → 0 ≤ addr → addr + 15 < 2 ^ 64 →
  Extend b addr crc buf = Some (crc32c crc buf).
Proof. apply Extend_ok. Qed.

(** An address after which the alignment to 16 bytes does not wrap around. *)
Definition addressable (a : Z) : Prop := 0 ≤ a ∧ a + 15 < 2 ^ 64.

(** C18: [Crc32cCombine] of the checksums of two buffers, computed apart by any builds and
    at any addresses, is the checksum of the buffers one after the other. *)
Theorem crc_combine b b1 b2 addr a1 a2 l1 l2 c1 c2 :
  bytes l1 → bytes l2 → size l2 < 2 ^ 64 → addressable addr → addressable a1 → addressable a2 →
  Extend b1 a1 0 l1 = Some c1 → Extend b2 a2 0 l2 = Some c2 →
  Crc32cCombine b addr c1 c2 (size l2) = Extend b addr 0 (l1 ++ l2).
Proof.
  intros H1 H2 Hs [Ha Hw] [Ha1 Hw1] [Ha2 Hw2] E1 E2. assert (H0 : 0 ≤ 0 < 2 ^ 32) by lia.
  rewrite Extend_ok in E1, E2 by done. injection E1 as <-. injection E2 as <-.
  rewrite Crc32cCombine_ok, Extend_ok, crc32c_app by (done || (by apply bytes_app) || by apply crc32c_range). done.
Qed.

(** Two buffers of a length that differ, and only within 32 consecutive bits, have
    different checksums. *)
Theorem crc_detects_burst b1 b2 a1 a2 crc l1 l2 :
  bytes l1 → bytes l2 → length l1 = length l2 → burst l1 l2 → 0 ≤ crc < 2 ^ 32 →
  addressable a1 → addressable a2 →
  Extend b1 a1 crc l1 ≠ Extend b2 a2 crc l2.
Proof.
  intros H1 H2 Hl Hbu Hc [Ha1 Hw1] [Ha2 Hw2]. rewrite !Extend_ok by done.
  intros [= E]. by apply crc32c_burst in E.
Qed.

(** ** Witnesses *)

Definition digits : slice := [49; 50; 51; 52; 53; 54; 55; 56; 57].

Lemma bytes_digits : bytes digits.
Proof. repeat constructor; lia. Qed.

(** The check value of CRC-32C. *)
Lemma crc_extend_witness : Extend (mk_build true true true false) 3 0 digits = Some 0xe3069283.
Proof. rewrite (crc_extend (mk_build true true true false) 3 0 digits); [by vm_compute|exact bytes_digits|lia..]. Defined.

Lemma crc_combine_witness :
  Crc32cCombine (mk_build true true true false) 5 0xe3069283 0xe3069283 9 =
  Extend (mk_build true true true false) 5 0 (digits ++ digits).
Proof.
  apply (crc_combine (mk_build true true true false) (mk_build false false false false)
    (mk_build true true false true) 5 6 7 digits digits).
  all: try exact bytes_digits; try (split; lia); vm_compute; reflexivity.
Defined.

Lemma crc_detects_burst_witness :
  Extend (mk_build true true true false) 3 0 digits ≠
  Extend (mk_build false false false false) 4 0 [49; 50; 51; 52; 152; 18; 55; 56; 57].
Proof.
  apply (crc_detects_burst (mk_build true true true false) (mk_build false false false false) 3 4 0).
  - exact bytes_digits.
  - repeat constructor; lia.
  - reflexivity.
  - exists 0x24ad, 32. split; [lia|]. split; [lia|]. vm_compute. reflexivity.
  - lia.
  - split; lia.
  - split; lia.
Defined.
