(* ===== verification/WalRuns.v ===== *)
(** * RocksDB: write-ahead logs on a file in memory

    A file in memory, and logs on it: each property of [WalTheorems] applied to a log that
    is written and read. *)

From stdpp Require Import base numbers option list gmap strings.
From S2P Require Import Prelude ZenCoding CrcOps CrcAlgebra CrcSpec CrcThreeWay CrcCombine ZenTypes WalOps WalWrite WalRead WalLog WalTheorems.

(** ** The files *)

#[local] Instance ram_dest : LogDest slice := {|
  dest_Append data _ := λ l, Done OK (l ++ data);
  dest_Flush := λ l, Done OK l;
  dest_Close := λ l, Done OK l;
  dest_seen_error _ := false
|}.

#[local] Instance ram_source : LogSource slice := {|
  src_Read n := λ l, Done (OK, take (Z.to_nat n) l) (drop (Z.to_nat n) l)
|}.
#[local] Instance ram_source_ok : LogSourceOk slice ram_source.
Proof. refine {| left_to_read f l := f = l |}. intros f l n -> Hn. done. Defined.

(** No compression is supported. *)
#[local] Instance no_compression : StreamingCompression := {|
  comp := unit;
  comp_Create _ := tt;
  comp_Reset _ := tt;
  Compress _ _ := (-1, [], tt);
  uncomp := unit;
  uncomp_Create _ := tt;
  uncomp_Reset _ := tt;
  Uncompress _ _ _ := (-1, [], tt);
  StreamingCompressionTypeSupported _ := false
|}.

Definition x86 : Build := mk_build true true true false.
#[local] Instance x86_crc : Crc32c := built_crc x86 16.
#[local] Instance x86_combine : CrcCombine := built_combine x86 16.

#[local] Instance ram_dest_ok : LogDestOk slice ram_dest x86_crc.
Proof. refine {| holds_log d l := d = l |}; intros; subst; done. Defined.

Lemma at_16 : 0 ≤ 16 ∧ 16 + 15 < 2 ^ 64.
Proof. lia. Qed.

Definition recs : list slice := [[1; 2; 3]; []; replicate 40 255].

Lemma bytes_recs : Forall bytes recs.
Proof. unfold recs. repeat constructor; lia. Qed.
Lemma short_recs : Forall (λ rec : slice, (length rec + 2 ≤ 50)%nat) recs.
Proof. unfold recs. repeat constructor; cbn; lia. Qed.

(** ** Witnesses *)

Lemma wal_roundtrip_witness :
  wp (write_all 50 recs)
    (λ s w, ok s = true ∧ wp (read_all 4 200 0 kAbsoluteConsistency)
      (λ res r, res = recs ∧ reported r = []) (new_Reader (dest_ w) true 7))
    (new_Writer [] 7 true false kNoCompression).
Proof.
  eapply wp_mono; [apply wp_conj; [|apply (wal_roundtrip x86 16 at_16 [] 7 true false recs true kAbsoluteConsistency 50 200 0)]|].
  - instantiate (1 := λ s w, ok s = true ∧ (length (dest_ w) < 200)%nat). vm_compute. split; [done|lia].
  - done.
  - intros _. lia.
  - exact bytes_recs.
  - exact short_recs.
  - intros s w [[Hok Hlen] H]. split; [done|]. destruct (H Hok) as (l & <- & Hr). by apply Hr.
Defined.

Lemma bytes_recs_more : Forall bytes (recs ++ [[9; 9]]).
Proof. apply Forall_app. split; [exact bytes_recs|repeat constructor; lia]. Qed.
Lemma short_recs_more : Forall (λ rec : slice, (length rec + 2 ≤ 50)%nat) (recs ++ [[9; 9]]).
Proof. apply Forall_app. split; [exact short_recs|repeat constructor; cbn; lia]. Qed.

(** The last record is cut off within its header. *)
Lemma wal_cut_witness :
  wp (write_all 50 recs) (λ s w, ok s = true ∧
    wp (Writer_AddRecord 50 [9; 9]) (λ s' w', ok s' = true ∧
      wp (read_all 4 200 0 kTolerateCorruptedTailRecords) (λ res r, res = recs ∧ reported r = [])
        (new_Reader (dest_ w ++ take 5 (drop (length (dest_ w)) (dest_ w'))) true 7)) w)
    (new_Writer [] 7 false false kNoCompression).
Proof.
  eapply wp_mono; [apply wp_conj; [|apply (wal_cut x86 16 at_16 [] 7 false false recs [9; 9] true
    kTolerateCorruptedTailRecords 50 200 0); [done|done|exact bytes_recs_more|exact short_recs_more]]|].
  - instantiate (1 := λ s w, ok s = true ∧ wp (Writer_AddRecord 50 [9; 9]) (λ s' w', ok s' = true ∧
      (length (dest_ w) + 5 < length (dest_ w') < 190)%nat) w). vm_compute. split_and!; [done|done|lia|lia].
  - intros s w [[Hok Hadd] H]. split; [done|]. destruct (H Hok) as (l & <- & Hr).
    eapply wp_mono; [apply (wp_conj _ _ _ _ Hadd Hr)|]. intros s' w' [[Hok' Hlen] Hu]. split; [done|].
    destruct (Hu Hok') as (u & Hd & Hread). change (dest_ w' = dest_ w ++ u) in Hd. rewrite Hd in *.
    rewrite drop_app_length. rewrite length_app in Hlen.
    eapply wp_mono; [apply (Hread _ (take 5 u) (drop 5 u))|].
    + apply take_drop.
    + intros E. apply (f_equal length) in E. rewrite length_drop in E. cbn in E. lia.
    + done.
    + rewrite length_app, length_take. lia.
    + intros res r [-> Hq]. by rewrite Hq.
Defined.

Lemma wal_follow_witness :
  wp (write_all 50 recs) (λ s w, ok s = true ∧
    wp (write_all 50 [[9; 9]]) (λ s' w', ok s' = true ∧
      wp (res1 <- read_all 4 200 0 kAbsoluteConsistency ;;
          modify (set_file (drop (length (dest_ w)) (dest_ w'))) ;; UnmarkEOF ;;
          res2 <- read_all 2 200 0 kAbsoluteConsistency ;; ret (res1, res2))
        (λ res r, res = (recs, [[9; 9]]) ∧ reported r = []) (new_Reader (dest_ w) true 7)) w)
    (new_Writer [] 7 true false kNoCompression).
Proof.
  eapply wp_mono; [apply wp_conj; [|apply (wal_follow x86 16 at_16 [] 7 true false recs [[9; 9]] true
    kAbsoluteConsistency 50 200 0); [done|intros _; lia|exact bytes_recs_more|exact short_recs_more]]|].
  - instantiate (1 := λ s w, ok s = true ∧ wp (write_all 50 [[9; 9]]) (λ s' w', ok s' = true ∧
      (length (dest_ w') < 200)%nat) w). vm_compute. split_and!; [done|done|lia].
  - intros s w [[Hok Hadd] H]. split; [done|]. destruct (H Hok) as (l & <- & Hr).
    eapply wp_mono; [apply (wp_conj _ _ _ _ Hadd Hr)|]. intros s' w' [[Hok' Hlen] Hu]. split; [done|].
    destruct (Hu Hok') as (u & Hd & Hread). change (dest_ w' = dest_ w ++ u) in Hd. rewrite Hd in *.
    rewrite drop_app_length. by apply Hread.
Defined.


Lemma recycled_number_lost_witness :
  wp (write_all 50 recs)
    (λ s w, ok s = true ∧ wp (read_all 4 200 0 kAbsoluteConsistency)
      (λ res r, res = [] ∧ reported r = []) (new_Reader (dest_ w) true (2 ^ 32 + 7)))
    (new_Writer [] (2 ^ 32 + 7) true false kNoCompression).
Proof.
  eapply wp_mono; [apply wp_conj; [|apply (recycled_number_lost x86 16 at_16 [] (2 ^ 32 + 7) false recs true
    kAbsoluteConsistency 50 200 0); [done|lia|exact bytes_recs|exact short_recs|done|done]]|].
  - instantiate (1 := λ s w, ok s = true ∧ (length (dest_ w) < 200)%nat). vm_compute. split; [done|lia].
  - intros s w [[Hok Hlen] H]. split; [done|]. destruct (H Hok) as (l & <- & Hr). by apply Hr.
Defined.


(** A record that leaves 7 bytes of the block. *)
Lemma ts_record_overrun_witness :
  wp (Writer_AddRecord (Z.to_nat 32756) (replicate (Z.to_nat 32754) 0))
    (λ s w, ok s = true → MaybeAddUserDefinedTimestampSizeRecord [(1, 8)] w = Crash)
    (new_Writer [] 7 false false kNoCompression).
Proof.
  apply (ts_record_overrun x86 16 at_16 [] 7 false (replicate (Z.to_nat 32754) 0) 1 8 (Z.to_nat 32756)).
  - done.
  - apply Forall_replicate. lia.
  - rewrite length_replicate. lia.
  - lia.
  - unfold size, kBlockSize, kHeaderSize, kSizePerColumnFamily. rewrite length_replicate. lia.
Defined.
