(* ===== verification/FileTheorems.v ===== *)
(** * RocksDB: properties of files that are written and read

    Appends to a [WritableFileWriter] and what the file holds after them, with buffered and
    with direct input and output; a write-ahead log on such a file; the rate limiter.  Then
    a file in memory, on which each property is applied to a file that is written. *)

From stdpp Require Import base numbers option list gmap strings.
From S2P Require Import Prelude ZenCoding CrcOps CrcAlgebra CrcSpec CrcThreeWay CrcCombine ZenTypes WalOps WalWrite WalRead WalLog WalTheorems WalRuns FileOps FileSpec FileDirect.

(** Appends one after the other, up to the first that fails. *)
Fixpoint append_all {W} `{FSWritableFile W} `{Crc32c} `{CrcCombine} (opts : IOPriority) (ds : list slice) :
    ST (WritableFileWriter W) IOStatus :=
  match ds with
  | [] => ret OK
  | d :: ds =>
      s <- WFW_Append opts d 0 ;;
      if ok s then append_all opts ds else ret s
  end.

(** The file of a writer. *)
Definition file_is {W} {FW : FSWritableFile W} {K : Crc32c} {FOk : FSWritableFileOk W FW K} (w : WritableFileWriter W) (l : slice) : Prop :=
  ∃ f, writable_file_ w = Some f ∧ file_holds f l.

Section file_theorems.
Variables (b : Build) (addr : Z).
Hypothesis Ha : 0 ≤ addr ∧ addr + 15 < 2 ^ 64.
#[local] Instance K : Crc32c := built_crc b addr.
#[local] Instance KC : CrcCombine := built_combine b addr.
#[local] Instance KOk : CrcLogOk K KC := built_crc_log b addr Ha.
Context {W : Type} {FW : FSWritableFile W} {FOk : FSWritableFileOk W FW K}.
Context {F : Type} {SF : FSSequentialFile F} {SOk : FSSequentialFileOk F SF}.
Context {Z_ : StreamingCompression}.
Implicit Types (w : WritableFileWriter W) (f : W).

(** A limiter that the writer can use: one that gives bytes, and none with checksums that
    are handed off. *)
Definition limiter_ok (rl : option RateLimiter) (verify ck : bool) : Prop :=
  match rl with Some rl => verify && ck = false ∧ 0 < GetSingleBurstBytes rl | None => True end.

(** The alignment of a buffer is asserted to be a power of two. *)
Definition page_sized (alignment : Z) : Prop := ∃ k, 0 ≤ k ∧ alignment = 2 ^ k.

Lemma page_sized_pos a : page_sized a → 0 < a.
Proof using Type. intros (k & Hk & ->). by apply page_pos. Qed.

(** What [Append] keeps, all the appends keep. *)
Lemma wp_append_all (I : WritableFileWriter W → slice → Prop) opts ds w l :
  (∀ w l data, I w l → bytes data → wp (WFW_Append opts data 0) (λ s w', ok s = true → I w' (l ++ data)) w) →
  I w l → Forall bytes ds →
  wp (append_all opts ds) (λ s w', ok s = true → I w' (l ++ concat ds)) w.
Proof using Type.
  intros HI. revert w l. induction ds as [|d ds IH]; intros w l Hw Hb; cbn [append_all concat].
  - wp_step. by rewrite app_nil_r.
  - apply Forall_cons in Hb as [Hd Hb]. wp_step. eapply wp_mono; [by apply HI|]. intros s w1 Hs.
    destruct (ok s) eqn:Hok; [|wp_step; congruence]. rewrite app_assoc. apply IH; [by apply Hs|done].
Qed.

(** ** Properties *)

(** C20: with buffered input and output, whatever is appended to a new file, in pieces of
    any size, with a buffer of any size, with or without a rate limiter and with or without
    checksums that are handed off: if the appends and a flush succeed then the file holds
    exactly what was appended. *)
Theorem buffered_appends f max bps rl verify ck opts ds :
  file_holds f [] → f_use_direct_io f = false → 0 ≤ max → page_sized (f_GetRequiredBufferAlignment f) →
  max + f_GetRequiredBufferAlignment f ≤ 2 ^ 63 → limiter_ok rl verify ck → Forall bytes ds →
  wp (append_all opts ds) (λ s w, ok s = true →
    wp (WFW_Flush opts) (λ s' w', ok s' = true → file_is w' (concat ds)) w)
    (new_WritableFileWriter f max bps rl verify ck).
Proof using Ha.
  intros Hf Hd Hm Hal Hlim Hrl Hb. eapply wp_mono; [apply (wp_append_all buffered _ _ _ []); [|apply buffered_new; auto using page_sized_pos|done]|].
  { intros w l data Hw Hdata. apply wp_WFW_Append; [done|done|by left]. }
  intros s w Hs Hok. specialize (Hs Hok). eapply wp_mono; [by apply wp_WFW_Flush|].
  intros s' w' Hs' Hok'. destruct (Hs' Hok') as (f' & n & c & m & -> & Hl & _). by exists f'.
Qed.

(** C19: with direct input and output, where whole pages are written and the last page is
    written again when it has grown: if the appends and a flush succeed then what was
    appended is at the start of the file, and if [Close] then cuts the file to its size
    the file holds exactly what was appended. *)
Theorem direct_appends f max bps rl verify ck opts ds :
  file_holds f [] → f_use_direct_io f = true → 0 < max → page_sized (f_GetRequiredBufferAlignment f) →
  max + f_GetRequiredBufferAlignment f ≤ 2 ^ 63 → limiter_ok rl verify ck → Forall bytes ds →
  wp (append_all opts ds) (λ s w, ok s = true →
    wp (WFW_Flush opts) (λ s' w', ok s' = true →
      (∃ padding, file_is w' (concat ds ++ padding)) ∧
      wp (cut_to_size s') (λ s2 w2, ok s2 = true → file_is w2 (concat ds)) w') w)
    (new_WritableFileWriter f max bps rl verify ck).
Proof using Ha.
  intros Hf Hd Hm Hal Hlim Hrl Hb. eapply wp_mono; [apply (wp_append_all direct_file _ _ _ []); [|by apply direct_new|done]|].
  { intros w l data Hw Hdata. apply wp_direct_Append; [done|done|by left]. }
  intros s w Hs Hok. destruct (Hs Hok) as [Hw Hsz]. eapply wp_mono; [by apply wp_direct_Flush|].
  intros s' w' Hs' Hok'. destruct (Hs' Hok') as (Hdisk & (_ & Hfs & _) & _). split.
  - destruct Hdisk as (f' & l0 & Hat & Hl0). destruct (df_file _ _ _ _ Hat) as (Hf' & _ & _ & Hh).
    exists (drop (length (concat ds)) l0), f'. split; [done|]. cbn [app] in Hl0. rewrite <- Hl0 at 1. by rewrite take_drop.
  - assert (s' = OK) as -> by (by destruct s'). apply wp_direct_cut; [done|by rewrite Hfs].
Qed.

(** C9: a write-ahead log on a file: records that a log writer adds through a
    [WritableFileWriter], flushed by hand or after every record, are read back by a log
    reader through a [SequentialFileReader], all of them and nothing else. *)
Theorem wal_on_file f max bps rl verify ck log rc mf rs cs mode fuel rfuel uf lim :
  file_holds f [] → f_use_direct_io f = false → 0 ≤ max → page_sized (f_GetRequiredBufferAlignment f) →
  max + f_GetRequiredBufferAlignment f ≤ 2 ^ 63 → limiter_ok rl verify ck →
  (rc = true → 0 ≤ log < 2 ^ 32) → Forall bytes rs → Forall (λ rec, (length rec + 2 ≤ fuel)%nat) rs →
  wp (write_all fuel rs) (λ s lw, ok s = true →
    wp (WFW_Flush IO_TOTAL) (λ s' w', ok s' = true → ∃ l, file_is w' l ∧
      ∀ g : F, rest_of g l → s_use_direct_io g = false → (length l < rfuel)%nat →
      wp (read_all (S (length rs)) rfuel uf mode)
        (λ res r, res = rs ∧ reported r = []) (new_Reader (new_SequentialFileReader g lim) cs log)) (dest_ lw))
    (new_Writer (new_WritableFileWriter f max bps rl verify ck) log rc mf kNoCompression).
Proof using Ha.
  intros Hf Hd Hm Hal Hlim Hrl Hlog Hb Hfuel.
  eapply wp_mono; [apply (wp_write_all b addr Ha fuel rs _ [] []); [apply wrote_new, buffered_new; auto using page_sized_pos|done..]|].
  intros s w [(d' & o' & ->) Hs] Hok. destruct (Hs Hok) as (fs & _ & Hw & (Hl & _) & _). cbn [app] in *.
  eapply wp_mono; [by apply wp_WFW_Flush|]. intros s' w' Hs' Hok'. destruct (Hs' Hok') as (f' & n & c & m & -> & Hl' & _).
  eexists. split; [by exists f'|]. intros g Hg Hgd Hfu.
  eapply wp_mono; [eapply (wp_read_wal_end rc (u32 log)); [exact Hw|by apply reading_new|apply aligned_new|by apply knows_new|exact Hfu]|].
  intros res r (-> & (Hq & _) & _). by rewrite Hq.
Qed.
End file_theorems.

(** ** The rate limiter, with checksums that are handed off *)

(** What is asked for is a multiple of the page size. *)
Lemma token_pages rl opts n k :
  0 ≤ k → opts ≠ IO_TOTAL → IsRateLimited rl kWrite = true → RequestToken rl n (2 ^ k) opts kWrite mod 2 ^ k = 0.
Proof.
  intros Hk Ho Hrl. pose proof (page_pos k Hk) as Hp. unfold RequestToken. rewrite bool_decide_true, Hrl by done.
  cbn [andb]. rewrite (proj2 (Z.ltb_lt _ _)), truncate_pow2 by done. set (m := Z.min _ _).
  destruct (Z.max_spec (2 ^ k) (m - m mod 2 ^ k)) as [[_ ->]|[_ ->]]; [|apply Z_mod_same_full].
  by rewrite Zminus_mod_idemp_r, Z.sub_diag.
Qed.

(** C40: [WriteBufferedWithChecksum] asks a rate limiter for bytes until it was given all
    that it is to write.  What it is given is a multiple of the alignment, so unless the
    size of the data is one too, the count wraps around and never is zero: however many
    rounds the loop has, it is not done. *)
Theorem limiter_never_done fuel rl opts data_size k :
  IsRateLimited rl kWrite = true → opts ≠ IO_TOTAL → 0 ≤ k ≤ 64 → data_size mod 2 ^ k ≠ 0 →
  request_all fuel rl opts data_size (2 ^ k) = None.
Proof.
  intros Hrl Ho Hk. revert data_size. induction fuel as [|fuel IH]; intros n Hn; cbn [request_all].
  all: destruct (Z.eqb_spec n 0) as [->|_]; [by rewrite Z.mod_0_l in Hn by (pose proof (page_pos k); lia)|].
  { done. }
  apply IH. pose proof (token_pages rl opts n k ltac:(lia) Ho Hrl) as Ht. unfold u64.
  rewrite Z.mod_mod_divide.
  - by rewrite Zminus_mod, Ht, Z.sub_0_r, Zmod_mod.
  - exists (2 ^ (64 - k)). rewrite <- Z.pow_add_r by lia. f_equal. lia.
Qed.

(** ** Files in memory *)

(** A file with its contents, with direct input and output or without; the writes up to a
    size of 2^62 bytes succeed. *)
Record ram_file := mk_ram { ram_direct : bool; ram_bytes : slice }.

Definition ram_put (data : slice) (off : nat) : ST ram_file IOStatus := λ f,
  let l := take off (ram_bytes f) ++ data ++ drop (off + length data) (ram_bytes f) in
  if size l <? 2 ^ 62 then Done OK (mk_ram (ram_direct f) l) else Done IOError f.

#[local] Instance ram_writable : FSWritableFile ram_file := {|
  f_use_direct_io := ram_direct;
  f_GetRequiredBufferAlignment _ := 8;
  f_GetIOPriority _ := IO_TOTAL;
  f_IsSyncThreadSafe _ := true;
  f_PrepareWrite _ _ := ret tt;
  f_Append data _ := λ f, ram_put data (length (ram_bytes f)) f;
  f_PositionedAppend data off _ := ram_put data (Z.to_nat off);
  f_Truncate n := λ f, Done OK (mk_ram (ram_direct f) (take (Z.to_nat n) (ram_bytes f)));
  f_Flush := ret OK;
  f_Sync := ret OK;
  f_Fsync := ret OK;
  f_RangeSync _ _ := ret OK;
  f_Close := ret OK
|}.

Lemma ram_put_ok data off f l :
  ram_bytes f = l ∧ size l < 2 ^ 63 →
  wp (ram_put data off) (λ s f', ok s = true →
    (ram_bytes f' = take off l ++ data ++ drop (off + length data) l ∧ size (ram_bytes f') < 2 ^ 63) ∧ same_file f f') f.
Proof.
  intros [<- _]. unfold wp, ram_put. destruct (Z.ltb_spec (size (take off (ram_bytes f) ++ data ++
    drop (off + length data) (ram_bytes f))) (2 ^ 62)) as [Hs|Hs]; [|done].
  intros _. split; [|done]. split; [done|]. cbn [ram_bytes]. lia.
Qed.

#[local] Existing Instances x86_crc x86_combine no_compression.

#[local] Instance ram_writable_ok : FSWritableFileOk ram_file ram_writable x86_crc.
Proof.
  refine {| file_holds f l := ram_bytes f = l ∧ size l < 2 ^ 63 |}.
  - by intros f l [_ H].
  - done.
  - intros f l data c Hf _. eapply wp_mono; [by apply (ram_put_ok data (length (ram_bytes f)) f l)|].
    intros s f' Hs Hok. destruct (Hs Hok) as [[Hb Hlt] Hsame]. split; [|done]. destruct Hf as [<- _].
    rewrite take_ge, drop_ge, app_nil_r in Hb by lia. by rewrite <- Hb.
  - intros f l data off c Hf _ Ho _ _. eapply wp_mono; [by apply (ram_put_ok data (Z.to_nat off) f l)|].
    intros s f' Hs Hok. destruct (Hs Hok) as [[Hb Hlt] Hsame]. split; [|done].
    replace (Z.to_nat (off + size data)) with (Z.to_nat off + length data)%nat by (unfold size; lia). by rewrite <- Hb.
  - intros f l n [<- Hl] Hn _. split; [|done]. split; [done|]. unfold size in *. rewrite length_take. lia.
  - done.
  - done.
  - done.
  - done.
Defined.

#[local] Instance ram_sequential : FSSequentialFile slice := {|
  s_use_direct_io _ := false;
  s_GetRequiredBufferAlignment _ := 8;
  s_Read n := λ l, Done (OK, take (Z.to_nat n) l) (drop (Z.to_nat n) l);
  s_PositionedRead o n := λ l, Done (OK, take (Z.to_nat n) (drop (Z.to_nat o) l)) l;
  s_Skip n := λ l, Done OK (drop (Z.to_nat n) l)
|}.
#[local] Instance ram_sequential_ok : FSSequentialFileOk slice ram_sequential.
Proof. refine {| rest_of f l := f = l; pages_of f l := f = l |}; intros; subst; done. Defined.

(** Pieces smaller and larger than the buffer, which ends up with 16 bytes. *)
Definition pieces : list slice := [[1; 2; 3]; []; replicate 40 255; [4; 5; 6; 7; 8; 9; 10]].
Lemma bytes_pieces : Forall bytes pieces.
Proof. unfold pieces. repeat constructor; lia. Qed.

(** ** Witnesses *)

(** With checksums handed off. *)
Lemma buffered_appends_witness :
  wp (append_all IO_TOTAL pieces) (λ s w, ok s = true ∧
    wp (WFW_Flush IO_TOTAL) (λ s' w', ok s' = true ∧ file_is w' (concat pieces)) w)
    (new_WritableFileWriter (mk_ram false []) 16 0 None true true).
Proof.
  eapply wp_mono; [apply wp_conj; [|apply (buffered_appends x86 16 at_16 (mk_ram false []) 16 0 None true true IO_TOTAL pieces);
    [done|done|lia|by exists 3|done|done|exact bytes_pieces]]|].
  - instantiate (1 := λ s w, ok s = true ∧ wp (WFW_Flush IO_TOTAL) (λ s' _, ok s' = true) w). vm_compute. done.
  - intros s w [[Hok Hrun] H]. split; [done|]. eapply wp_mono; [apply (wp_conj _ _ _ _ Hrun (H Hok))|].
    intros s' w' [Hok' H']. auto.
Defined.

(** Through a rate limiter of 8 bytes at a time. *)
Lemma direct_appends_witness :
  wp (append_all IO_HIGH pieces) (λ s w, ok s = true ∧
    wp (WFW_Flush IO_HIGH) (λ s' w', ok s' = true ∧ file_is w' (concat pieces ++ replicate 6 0) ∧
      wp (cut_to_size s') (λ s2 w2, ok s2 = true ∧ file_is w2 (concat pieces)) w') w)
    (new_WritableFileWriter (mk_ram true []) 16 0 (Some (mk_limiter (λ _, true) 8)) false false).
Proof.
  eapply wp_mono; [apply wp_conj; [|apply (direct_appends x86 16 at_16 (mk_ram true []) 16 0
    (Some (mk_limiter (λ _, true) 8)) false false IO_HIGH pieces);
    [done|done|lia|by exists 3|done|split; [done|cbn; lia]|exact bytes_pieces]]|].
  - instantiate (1 := λ s w, ok s = true ∧ wp (WFW_Flush IO_HIGH) (λ s' w', ok s' = true ∧
      file_is w' (concat pieces ++ replicate 6 0) ∧ wp (cut_to_size s') (λ s2 _, ok s2 = true) w') w).
    vm_compute. split; [done|]. split; [done|]. split; [|done]. by eexists.
  - intros s w [[Hok Hrun] H]. split; [done|]. eapply wp_mono; [apply (wp_conj _ _ _ _ Hrun (H Hok))|].
    intros s' w' [(Hok' & Hpad & Hcut) H']. split; [done|]. split; [done|]. destruct (H' Hok') as [_ H2].
    eapply wp_mono; [apply (wp_conj _ _ _ _ Hcut H2)|]. intros s2 w2 [Hok2 Hl]. auto.
Defined.

Lemma wal_on_file_witness :
  wp (write_all 50 pieces) (λ s w, ok s = true ∧
    wp (WFW_Flush IO_TOTAL) (λ s' w', ok s' = true ∧ ∃ f, writable_file_ w' = Some f ∧
      wp (read_all 5 200 0 kAbsoluteConsistency) (λ res r, res = pieces ∧ reported r = [])
        (new_Reader (new_SequentialFileReader (ram_bytes f) None) true 7)) (dest_ w))
    (new_Writer (new_WritableFileWriter (mk_ram false []) 16 0 None true false) 7 true true kNoCompression).
Proof.
  eapply wp_mono; [apply wp_conj; [|apply (wal_on_file x86 16 at_16 (F := slice) (mk_ram false []) 16 0 None true false 7 true true
    pieces true kAbsoluteConsistency 50 200 0 None); [done|done|lia|by exists 3|done|done|intros _; lia|exact bytes_pieces|]]|].
  - instantiate (1 := λ s w, ok s = true ∧ wp (WFW_Flush IO_TOTAL) (λ s' w', ok s' = true ∧
      ∃ f, writable_file_ w' = Some f ∧ (length (ram_bytes f) < 200)%nat) (dest_ w)). vm_compute.
    split; [done|]. split; [done|]. eexists. split; [reflexivity|vm_compute; lia].
  - unfold pieces. repeat constructor; cbn; lia.
  - intros s w [[Hok Hrun] H]. split; [done|]. eapply wp_mono; [apply (wp_conj _ _ _ _ Hrun (H Hok))|].
    intros s' w' [(Hok' & f & Hf & Hlen) H']. split; [done|]. exists f. split; [done|].
    destruct (H' Hok') as (l & (f' & Hf' & <- & _) & Hr). rewrite Hf in Hf'. injection Hf' as <-. by apply Hr.
Defined.

(** 100 bytes in pages of 4096. *)
Lemma limiter_never_done_witness :
  request_all 1000 (mk_limiter (λ _, true) 65536) IO_HIGH 100 (2 ^ 12) = None.
Proof. apply limiter_never_done; [done|done|lia|done]. Defined.
