(* ===== verification/ZenTheorems.v ===== *)
(** * ZenFS: the properties

    Metadata survives its way to the device and back: files, superblocks, log records, and
    the table of files that recovery rebuilds.  Updates and deletions persist the records
    that replay them.  The allocator keeps its tokens within the limits of the device.
    Reads return the contents of a file, and write-ahead logs survive a crash. *)

From stdpp Require Import base numbers option list gmap.
From S2P Require Import Prelude ZenCoding CrcOps CrcAlgebra CrcSpec CrcCombine ZenTypes ZenZbd ZenFile ZenLog ZenFs ZenMeta ZenIo ZenWriter ZenOps ZenMount ZenFileCodec ZenLogSpec ZenSpace ZenRecover ZenReplay ZenAlloc ZenOpen ZenRead ZenSparse ZenAppend ZenPersist ZenMountSpec ZenFormat ZenRoll ZenRemount ZenMountWrite ZenMigrate.

Section theorems.
Context {D : ZbdDev} {DOk : ZbdDevOk D} {K : Crc32c} {KOk : Crc32cOk K}.
Implicit Types (b : ZonedBlockDevice) (s : ZenFS) (F : gmap Z ZoneFile).

(** A file decoded from its encoding from extent [k] on is the file again, with the
    extents from [k] on, closed and fully synced, and the zones count the bytes of these
    extents. *)
Theorem file_roundtrip b f k :
  file_ok b f →
  ZoneFile_DecodeFrom (new_ZoneFile 0) (ZoneFile_EncodeTo f [] (Z.of_nat k)) b =
  Done (OK, decoded f k) (set_io_zones (account (drop k (extents_ f)) (io_zones b)) b).
Proof. apply decode_encoded. Qed.

(** A superblock decoded from its encoding is the one that was encoded, with the
    sequence number that the encoding gave it. *)
Theorem superblock_roundtrip sb :
  super_ok sb → Superblock_DecodeFrom (Superblock_EncodeTo sb).1 = (OK, Some (Superblock_EncodeTo sb).2).
Proof. apply super_decode. Qed.

(** A record added to a log with room for it is read back from where the write
    pointer was, and the log is then at the next block boundary after the record. *)
Theorem log_roundtrip zn bs r z b :
  appendable (MetaZone zn) z b → bs = block_sz_ b → 0 < bs → record_fits bs r → phys_size bs (size r) ≤ capacity_ z →
  wp_ z mod bs = 0 → wp_ z + capacity_ z ≤ start_ z + max_capacity_ z < 2 ^ 64 →
  wp (st <- AddRecord (mk_log (wp_ z) zn bs) r ;; res <- ReadRecord (mk_log (wp_ z) zn bs) ;; ret (st, res))
    (λ res b', res = (OK, (OK, r, mk_log (wp_ z + phys_size bs (size r)) zn bs))) b.
Proof. apply wp_add_then_read. Qed.

(** C12: recovery refines the replay of the log.  If the device stores the encodings of
    valid records, up to the write pointer or an end record, then [RecoverFrom] terminates
    with success, or with [NotFound] if there is no snapshot among them; the table of files,
    their names and the space counted in the zones are those of the records applied one
    after the other; and nothing else has changed. *)
Theorem recovery_replays now b zn z bs rs pos s F :
  log_at (zbd_ s) zn z bs pos rs → rep b s F → valid_recs b F rs →
  wp (RecoverFrom now (mk_log pos zn bs))
    (λ st s', st = (if existsb is_snapshot rs then OK else NotFound) ∧ rep b s' (replay rs F) ∧ kept_log s s') s.
Proof. apply wp_RecoverFrom. Qed.

(** A metadata sync that finds room in the log appends one update record and marks the
    file synced; and that record, replayed on any table that holds the part of the file
    synced before, gives the table with the file as it is now. *)
Theorem sync_in_step now s h f k log z :
  objs s !! h = Some f → is_deleted_ f = false → nr_synced_extents_ f = Z.of_nat k →
  log_room s log z (enc_rec (RUpdate false (f_set_mtime now f) k)) →
  ∃ s', SyncFileMetadataNoLock now h false s = Done OK s' ∧
    objs s' !! h = Some (MetadataSynced (f_set_mtime now f)) ∧ files_ s' = files_ s ∧
    logged log z (enc_rec (RUpdate false (f_set_mtime now f) k)) (zbd_ s) (zbd_ s') ∧
    ∀ F g, F !! file_id_ f = Some g → extents_ g = take k (extents_ f) →
      apply_rec (RUpdate false (f_set_mtime now f) k) F = <[file_id_ f := decoded (f_set_mtime now f) 0]> F.
Proof.
  intros Hf Hd Hk Hroom. destruct (proj1 (wp_done _ _ _) (wp_SyncFileMetadata now s h f k log z Hf Hd Hk Hroom))
    as (st & s' & E & -> & Ho & Hfs & Hl). exists s'. split_and!; [done..|].
  intros F g HF Hg. exact (apply_update F g (f_set_mtime now f) k HF Hg).
Qed.


(** The search for an active token ends after one round when a token is free or a zone
    can be finished, and never by itself otherwise: whatever the number of rounds, the loop
    of [AllocateIOZone] goes on as long as no other thread gives a token back. *)
Theorem token_search b :
  (∀ ha ho fuel, tokens ha ho b → progress b → (1 ≤ fuel)%nat →
     wp (token_loop fuel false)
       (λ st b', (st = OK ∧ tokens (ha + 1) ho b' ∨ st = IOError ∧ tokens ha ho b') ∧ same_limits b b') b) ∧
  (max_nr_active_io_zones_ b ≤ active_io_zones_ b →
   (∀ i z, io_zones b !! i = Some z → idle_partial z = false) → ∀ fuel, token_loop fuel false b = Crash).
Proof.
  split; [intros ha ho fuel; apply wp_token_loop|]. intros H1 H2 fuel. by apply token_loop_stuck.
Qed.

(** Closing a file whose active zone is still empty frees the zone but not its active
    token: there is one zone in use less, and as many active tokens taken as before. *)
Theorem close_empty_leaks s h f i z :
  objs s !! h = Some f → active_zone_ f = Some i → io_zones (zbd_ s) !! i = Some z →
  busy_ z = true → IsEmpty z = true → IsFull z = false →
  ∃ s', CloseActiveZone h s = Done OK s' ∧
    active_io_zones_ (zbd_ s') = active_io_zones_ (zbd_ s) ∧
    open_io_zones_ (zbd_ s') = open_io_zones_ (zbd_ s) - 1 ∧
    countb active_zone (io_zones (zbd_ s')) = countb active_zone (io_zones (zbd_ s)) - 1.
Proof.
  intros Hf Ha Hz Hb He Hfull.
  assert (wp (CloseActiveZone h) (λ st s', st = OK ∧ active_io_zones_ (zbd_ s') = active_io_zones_ (zbd_ s) ∧
    open_io_zones_ (zbd_ s') = open_io_zones_ (zbd_ s) - 1 ∧
    io_zones (zbd_ s') = <[i := z_set_busy false z]> (io_zones (zbd_ s))) s) as Hw.
  { unfold CloseActiveZone, file_at, file_put. repeat wp_step. rewrite Ha. wp_step. apply wp_in_zbd. unfold zone_at.
    repeat wp_step. apply wp_in_zbd. unfold Zone_Close, zone_at. repeat wp_step; [done|]. rewrite He, Hfull. cbn [orb negb].
    repeat wp_step. apply wp_in_zbd. unfold Release, zone_upd, zone_at. repeat wp_step. rewrite Hb. repeat wp_step; [done|].
    change (ok OK) with true. cbn [negb]. wp_step. apply wp_in_zbd. unfold PutOpenIOZoneToken. repeat wp_step; [done|].
    by split_and!. }
  destruct (proj1 (wp_done _ _ _) Hw) as (st & s' & E & -> & H1 & H2 & H3). exists s'. split_and!; [done..|].
  rewrite H3, (countb_insert _ _ _ z) by done. unfold active_zone, partial_zone. cbn.
  change (IsEmpty (z_set_busy false z)) with (IsEmpty z). rewrite Hb, He. cbn. lia.
Qed.

(** A read returns the contents of the file from the offset on, as much as is asked
    for and as there is, however the device splits the reads, aligned or not; the contents
    are the bytes of the extents of the file in their order. *)
Theorem read_contents f offset n direct b :
  extents_ok (extents_ f) → addresses_ok (extents_ f) → file_size_ f = total (extents_ f) →
  0 < block_sz_ b → readable (device b) → 0 ≤ offset → 0 ≤ n → offset + n < 2 ^ 64 →
  wp (PositionedRead f offset n direct)
    (λ r b', r = (OK, take (Z.to_nat n) (drop (Z.to_nat offset) (contents (device b) (extents_ f)))) ∧
             after_reads b b') b.
Proof. apply wp_PositionedRead. Qed.


Context {A : AuxFs}.

(** Deleting the only name of a file that is not open removes the name and the file,
    gives the space of its extents back, leaves the auxiliary file system alone, and
    appends to the log the deletion record that removes the file when it is replayed. *)
Theorem delete_persists now p q w h f log z rest zs :
  let s := zen w in
  FormatPathLexically p = q → FormatPathLexically q = q → files_find (files_ s) q = Some h →
  objs s !! h = Some f → linkfiles_ f = [q] → open_for_wr_ f = false → handles s = [] →
  (∀ n, (n, h) ∈ files_ s → n = q) →
  io_zones (zbd_ s) = account (extents_ f ++ rest) zs → room zs (extents_ f ++ rest) →
  log_room s log z (enc_rec (RDelete (file_id_ f) q)) →
  ∃ w', DeleteFileNoLock now p w = Done OK w' ∧
    files_ (zen w') = files_erase q (files_ s) ∧ objs (zen w') = delete h (objs s) ∧ target w' = target w ∧
    (∃ b', logged log z (enc_rec (RDelete (file_id_ f) q)) (zbd_ s) b' ∧
           zbd_ (zen w') = set_io_zones (account rest zs) b') ∧
    ∀ F g, F !! file_id_ f = Some g → linkfiles_ g = [q] → apply_rec (RDelete (file_id_ f) q) F = delete (file_id_ f) F.
Proof.
  intros s Hp Hq Hfind Hf Hl Hop Hh Hone Hz Hr Hroom.
  destruct (proj1 (wp_done _ _ _) (wp_delete_file now p q w h f log z rest zs Hp Hq Hfind Hf Hl Hop Hh Hone Hz Hr Hroom))
    as (st & w' & E & -> & H1 & H2 & H3 & H4). exists w'. split_and!; [done..|]. intros F g HF Hg.
  cbn [apply_rec]. rewrite HF, Hg, erase_first_only. by rewrite bool_decide_true.
Qed.
End theorems.

(** * ZenFS: a damaged record of the metadata log

    The metadata log guards its records with the checksums of [CrcOps]: [ReadRecord] of a
    record whose bytes were damaged fails, and does not give the bytes to recovery. *)

Section corrupt_record.
Variables (bld : Build) (addr : Z).
Hypothesis Ha : 0 ≤ addr ∧ addr + 15 < 2 ^ 64.
#[local] Instance Kb : Crc32c := built_crc bld addr.
#[local] Instance KbOk : Crc32cOk Kb := built_crc_ok bld addr Ha.
Context {D : ZbdDev} {DOk : ZbdDevOk D}.

Lemma record_crc_burst n r r' :
  bytes r → bytes r' → length r = length r' → burst r r' → record_crc n r' ≠ record_crc n r.
Proof using Ha.
  intros Hr Hr' Hlen Hbu. unfold record_crc. assert (H0 : 0 ≤ 0 < 2 ^ 32) by lia.
  pose proof (crc32c_range 0 (EncodeFixed32 n) H0 (bytes_le 4 n)) as Hc.
  rewrite !(built_crc_eq bld addr Ha 0) by (done || apply bytes_le).
  rewrite !(built_crc_eq bld addr Ha) by done. apply not_eq_sym. by apply crc32c_burst.
Qed.

End corrupt_record.

(** * ZenFS: theorems on formatting, opening, mounting and writing *)

Section theorems.
Context {D : ZbdDev} {DOk : ZbdDevOk D} {DZ : ZbdZonesOk D DOk} {K : Crc32c} {KOk : Crc32cOk K} {A : AuxFs}.
Implicit Types (b : ZonedBlockDevice) (s : ZenFS) (F : gmap Z ZoneFile).


(** [Open] makes of the zone report three metadata zones and the remaining sequential
    zones as data zones, and the tokens it counts are in step with the zones. *)
Theorem open_counts readonly e info zs b :
  opens readonly e info zs → io_zones b = [] → meta_zones b = [] →
  Forall consistent zs → 0 < zi_zone_size info < 2 ^ 64 →
  (∀ d, active_io_zones_ (opened_device info zs d b) ≤ max_nr_active_io_zones_ (opened_device info zs d b)) →
  0 ≤ zone_limit (zi_max_nr_open_zones info) (zi_nr_zones info) →
  wp (Open readonly true e) (λ st b', st = OK ∧ tokens 0 0 b' ∧ ∃ d, b' = opened_device info zs d b) b.
Proof.
  intros Ho Hio Hm Hc Hsz Hact Hopen. eapply wp_mono; [by apply wp_Open|]. intros st b' (-> & d & ->). split_and!; [done| |eauto].
  apply opened_tokens; [done|done|apply Hact|]. unfold opened_device. by destruct (take_meta _ zs).
Qed.


(** When no log has a snapshot the mount fails, with [NotFound] if there is no
    superblock at all, and every metadata zone is free again. *)
Theorem mount_fails now readonly w ls :
  mountable w ls → recovered ∅ (newest_first ls []) = None →
  wp (Mount now readonly)
    (λ st w', st = (if bool_decide (newest_first ls [] = []) then NotFound else IOError) ∧
              meta_inv (zbd_ (zen w)) [] (zen w') ∧ superblock_ (zen w') = superblock_ (zen w)) w.
Proof. apply wp_Mount_fails. Qed.



(** C14: formatting gives a device that mounts.  After [MkFS] on a device with any contents
    and a restart, a mount finds the superblock it was given and no file. *)
Theorem format_then_mount now now' uuid version aux ft s :
  let sb := sb_next (new_Superblock (zbd_ s) uuid version (FormatPathLexically aux) ft) in
  files_ s = [] → formattable (zbd_ s) version aux ft →
  wp (MkFS now uuid version aux ft)
    (λ st s', st = OK ∧ ∀ s0 a, restarts (zbd_ s') s0 → (aux_CreateDirIfMissing (GetAuxFsPath sb) a).1 = OK →
       wp (Mount now' true) (λ st w, st = OK ∧ mounted (zbd_ s0) sb ∅ s0 (zen w)) (mk_system s0 a)) s.
Proof. apply wp_format_then_mount. Qed.

(** C16: migration keeps the data.  [MigrateFileExtents] of a closed file that is not sparse
    moves any of its extents to zones with room, and the contents of the file, the other
    files and every byte that was already written stay as they are. *)
Theorem migration_keeps_data now s h f fname exts log z :
  migratable s h f fname log z →
  wp (MigrateFileExtents now fname exts) (λ st s', st = OK ∧ migrated h f z s s') s.
Proof. apply wp_MigrateFileExtents. Qed.
End theorems.
