(* ===== verification/ZenRuns.v ===== *)
(** * ZenFS on a small device

    A device of 4 KiB zones and 64-byte blocks whose reads and writes never fall short, a
    checksum that adds the bytes up, and an empty auxiliary file system; the properties of
    [ZenTheorems] at states of it. *)

From stdpp Require Import base numbers option list gmap.
From S2P Require Import Prelude ZenCoding CrcOps CrcCombine ZenTypes ZenZbd ZenFile ZenLog ZenFs ZenMeta ZenIo ZenWriter ZenOps.
From S2P Require Import ZenFileCodec ZenLogSpec ZenSpace ZenRecover ZenReplay ZenAlloc ZenRead ZenSparse ZenPersist ZenTheorems.

(** ** The device, the checksum and the auxiliary file system *)

Definition ram_read (a n : Z) (d : Z → Z) : slice := (λ i, d (a + Z.of_nat i)) <$> seq 0 (Z.to_nat n).
Definition ram_write (a : Z) (data : slice) (d : Z → Z) : Z → Z := λ x,
  if (a <=? x) && (x <? a + size data) then nth (Z.to_nat (x - a)) data 0 else d x.

#[local] Instance ram : ZbdDev := {|
  dev := Z → Z;
  zbd_reset_zones _ _ d := (true, d);
  zbd_finish_zones _ _ d := (true, d);
  zbd_close_zones _ _ d := (true, d);
  zbd_report_zone start _ := Some (mk_zbd_zone start 4096 start true ZBD_ZONE_COND_EMPTY);
  pwrite a data d := (Some (size data), ram_write a data d);
  pread a n d := (Some (ram_read a n d), d)
|}.

Lemma size_ram_read a n d : 0 ≤ n → size (ram_read a n d) = n.
Proof. intros Hn. unfold size, ram_read. rewrite length_fmap, length_seq. lia. Qed.

Lemma ram_write_in a data d i x : data !! i = Some x → ram_write a data d (a + Z.of_nat i) = x.
Proof.
  intros Hi. pose proof (lookup_lt_Some _ _ _ Hi). unfold ram_write, size.
  rewrite (proj2 (Z.leb_le _ _)), (proj2 (Z.ltb_lt _ _)) by lia. cbn [andb].
  replace (Z.to_nat (a + Z.of_nat i - a)) with i by lia. by apply nth_lookup_Some.
Qed.

Lemma ram_write_out a data d x : x < a ∨ a + size data ≤ x → ram_write a data d x = d x.
Proof.
  intros [H|H]; unfold ram_write.
  - by rewrite (proj2 (Z.leb_gt _ _)) by lia.
  - by rewrite (proj2 (Z.ltb_ge _ _)), andb_false_r by lia.
Qed.

#[local] Instance ram_ok : ZbdDevOk ram.
Proof.
  refine {| byte_at (d : @dev ram) a := d a; readable _ := True; writable _ _ _ := True |}.
  - intros d a n _ Hn. exists (ram_read a n d), d. rewrite size_ram_read by lia.
    split_and!; [done|lia|lia| |done..]. intros i x Hx. unfold ram_read in Hx.
    apply list_lookup_fmap_Some in Hx as (j & -> & [-> _]%lookup_seq). done.
  - intros d a n data _ _ Hne _. exists (length data), (ram_write a data d).
    split_and!; [done|destruct data; [done|cbn; lia]|done|done|done| | |done].
    + intros i x. rewrite take_ge by done. apply ram_write_in.
    + intros x Hx. by apply ram_write_out.
Defined.

#[local] Instance sum_crc : Crc32c := {| crc32c_Extend c l := u32 (c + foldr Z.add 0 l) |}.
#[local] Instance sum_crc_ok : Crc32cOk sum_crc.
Proof. split. intros c l. apply Z.mod_pos_bound. done. Qed.

#[local] Instance no_aux : AuxFs := {|
  aux := unit;
  aux_DeleteFile _ a := (NotFound, a);
  aux_DeleteDir _ a := (NotFound, a);
  aux_RenameFile _ _ a := (NotFound, a);
  aux_LinkFile _ _ a := (NotFound, a);
  aux_CreateDirIfMissing _ a := (OK, a);
  aux_NewSequentialFile _ a := (NotFound, a);
  aux_NewRandomAccessFile _ a := (NotFound, a);
  aux_FileExists _ _ := NotFound;
  aux_GetChildren _ _ := (OK, []);
  aux_IsDirectory _ _ := (NotFound, false);
  aux_GetFileSize _ _ := (NotFound, 0);
  aux_GetFileModificationTime _ _ := (NotFound, 0);
  aux_NumFileLinks _ _ := (NotFound, 0);
  aux_AreFilesSame _ _ _ := (NotFound, false)
|}.

(** ** A file system

    One metadata zone and three data zones; the files "/a", of two extents, and "/b". *)

Definition empty_zone (start : Z) : Zone := mk_zone start 4096 4096 start 0 0 false.
Definition part_zone (start used : Z) : Zone := mk_zone start (4096 - used) 4096 (start + used) 0 0 false.

Definition ex_zones : list Zone := [part_zone 4096 1024; part_zone 8192 512; empty_zone 12288].
Definition ex_b : ZonedBlockDevice :=
  mk_zbd 64 4096 4 ex_zones [empty_zone 0] 0 2 0 OK false 3 3 (λ _, 0).

Definition ex_a : ZoneFile :=
  mk_file [mk_extent 4096 700 0; mk_extent 8192 500 1] [[47; 97]] None NO_EXTENT 0 3 kUnknown 1200 7 1 false 42
    false false.
Definition ex_c : ZoneFile :=
  mk_file [mk_extent 4864 200 0] [[47; 98]] None NO_EXTENT 0 2 kUnknown 200 8 0 false 43 false false.

Lemma ex_a_ok : file_ok ex_b ex_a.
Proof.
  split; try (cbn; unfold NO_EXTENT; lia).
  - repeat constructor; vm_compute; congruence.
  - repeat constructor; vm_compute; congruence.
Qed.

Lemma ex_c_ok : file_ok ex_b ex_c.
Proof.
  split; try (cbn; unfold NO_EXTENT; lia).
  - repeat constructor; vm_compute; congruence.
  - repeat constructor; vm_compute; congruence.
Qed.

(** ** Witnesses *)

Lemma file_roundtrip_witness :
  ZoneFile_DecodeFrom (new_ZoneFile 0) (ZoneFile_EncodeTo ex_a [] 1) ex_b =
  Done (OK, decoded ex_a 1) (set_io_zones (account [mk_extent 8192 500 1] ex_zones) ex_b).
Proof. exact (file_roundtrip ex_b ex_a 1 ex_a_ok). Defined.

Definition ex_super : Superblock := 
  mk_super MAGIC (replicate 37 65) 4 CURRENT_SUPERBLOCK_VERSION 0 64 64 4 (replicate 256 0) 10 (replicate 64 0)
    (replicate 123 0).

Lemma superblock_roundtrip_witness :
  sequence_ (Superblock_EncodeTo ex_super).2 = 5 ∧
  Superblock_DecodeFrom (Superblock_EncodeTo ex_super).1 = (OK, Some (Superblock_EncodeTo ex_super).2).
Proof. split; [reflexivity|]. apply (superblock_roundtrip ex_super). split; done. Defined.

Lemma log_roundtrip_witness :
  wp (st <- AddRecord (mk_log 0 0 64) [1; 2; 3] ;; res <- ReadRecord (mk_log 0 0 64) ;; ret (st, res))
    (λ res b', res = (OK, (OK, [1; 2; 3], mk_log 64 0 64))) ex_b.
Proof. apply (log_roundtrip 0 64 [1; 2; 3] (empty_zone 0) ex_b); vm_compute; repeat split; congruence. Defined.


(** A log with a snapshot of "/a", the creation of "/b" and the deletion of "/a". *)
Definition ex_recs : list mrec := [RSnapshot [ex_a]; RUpdate false ex_c 0; RDelete 7 [47; 97]].

Definition ex_log_b : ZonedBlockDevice :=
  set_device (ram_write 0 (log_image 64 ex_recs) (λ _, 0))
    (set_meta_zones [part_zone 0 (size (log_image 64 ex_recs))] ex_b).
Definition ex_log_s : ZenFS := mk_fs ex_log_b [] ∅ 0 1 None None [].

Lemma ex_log_at : log_at (zbd_ ex_log_s) 0 (part_zone 0 (size (log_image 64 ex_recs))) 64 0 ex_recs.
Proof.
  split; try done.
  - repeat constructor; vm_compute; congruence.
  - intros i x Hi. cbn [byte_at ram_ok device ex_log_s ex_log_b zbd_ set_device]. by apply ram_write_in.
  - by left.
Qed.

Lemma ex_zones_room es : 
  Forall (λ e, 0 ≤ e_length e ∧ (e_zone e < 3)%nat) es → Forall (λ i, bytes_in i es < 2 ^ 64) [0; 1; 2]%nat →
  room ex_zones es.
Proof.
  intros H1 H2. split; [done|]. intros i z Hi. rewrite !Forall_cons in H2. destruct H2 as (? & ? & ? & _).
  destruct i as [|[|[|i]]]; [..|done]; injection Hi as <-; cbn [used_capacity_ part_zone empty_zone]; lia.
Qed.

Lemma ex_storable f : f = ex_a ∨ f = ex_c → storable ex_b f.
Proof.
  intros [->| ->]; split_and!; try done; first [exact ex_a_ok|exact ex_c_ok|repeat constructor; set_solver].
Qed.

Lemma ex_valid : valid_recs ex_b ∅ ex_recs.
Proof.
  unfold ex_recs. cbn [valid_recs valid_rec]. split_and!.
  - constructor; [by apply ex_storable; left|done].
  - by vm_compute.
  - by intros f f' ->%list_elem_of_singleton ->%list_elem_of_singleton.
  - by intros f f' n ->%list_elem_of_singleton ->%list_elem_of_singleton.
  - apply ex_zones_room; repeat constructor; vm_compute; congruence.
  - by apply ex_storable; right.
  - by vm_compute.
  - apply ex_zones_room; repeat constructor; vm_compute; congruence.
  - exists [47; 98]. split_and!; [done| |done]. intros id g Hg.
    change ((<[7 := decoded ex_a 0]> ∅ : gmap Z ZoneFile) !! id = Some g) in Hg.
    apply lookup_insert_Some in Hg as [[_ <-]|[_ Hg]]; [|done].
    by intros ?%list_elem_of_singleton.
  - done.
  - done.
  - by vm_compute.
  - done.
  - exists (decoded ex_a 0). split; [by vm_compute|]. apply list_elem_of_singleton. done.
  - done.
Qed.

Lemma ex_rep : rep ex_b ex_log_s ∅.
Proof. split; try done; [apply table_empty|]. apply ex_zones_room; repeat constructor. Qed.

Lemma recovery_replays_witness :
  replay ex_recs ∅ = {[8 := decoded ex_c 0]} ∧
  wp (RecoverFrom 50 (mk_log 0 0 64))
    (λ st s', st = OK ∧ rep ex_b s' (replay ex_recs ∅) ∧ kept_log ex_log_s s') ex_log_s.
Proof.
  split; [vm_compute; reflexivity|].
  exact (recovery_replays 50 ex_b 0 (part_zone 0 (size (log_image 64 ex_recs))) 64 ex_recs 0 ex_log_s ∅ ex_log_at ex_rep ex_valid).
Defined.

(** The file system with both files, and the log at the start of its zone. *)
Definition ex_used_b : ZonedBlockDevice := set_io_zones (account (extents_ ex_a ++ extents_ ex_c) ex_zones) ex_b.
Definition ex_s : ZenFS :=
  mk_fs ex_used_b [([47; 97], 0%nat); ([47; 98], 1%nat)] {[0%nat := ex_a; 1%nat := ex_c]} 2 9 (Some (mk_log 0 0 64))
    None [].

Lemma ex_log_room r : phys_size 64 (size r) ≤ 4096 → log_room ex_s (mk_log 0 0 64) (empty_zone 0) r.
Proof.
  intros Hr. split_and!; first [done|unfold record_fits; cbn [bs_ capacity_ empty_zone]; lia|by vm_compute].
Qed.

Lemma sync_in_step_witness : let f := f_set_mtime 60 ex_a in
  ∃ s', SyncFileMetadataNoLock 60 0 false ex_s = Done OK s' ∧
    objs s' !! 0%nat = Some (MetadataSynced f) ∧ files_ s' = files_ ex_s ∧
    logged (mk_log 0 0 64) (empty_zone 0) (enc_rec (RUpdate false f 1)) ex_used_b (zbd_ s') ∧
    ∀ (F : gmap Z ZoneFile) g, F !! 7 = Some g → extents_ g = [mk_extent 4096 700 0] →
      apply_rec (RUpdate false f 1) F = <[7 := decoded f 0]> F.
Proof.
  exact (sync_in_step 60 ex_s 0 ex_a 1 (mk_log 0 0 64) (empty_zone 0) ltac:(reflexivity) ltac:(reflexivity)
    ltac:(reflexivity) (ex_log_room (enc_rec (RUpdate false (f_set_mtime 60 ex_a) 1)) ltac:(vm_compute; congruence))).
Defined.

Lemma ex_tokens : tokens 0 0 ex_used_b.
Proof.
  split; try done; intros i z Hi; destruct i as [|[|[|i]]]; [..|done| | | |done]; injection Hi as <-; done.
Qed.


(** All active tokens taken, and the zones in use held by writers. *)
Definition ex_stuck_b : ZonedBlockDevice :=
  set_io_zones [z_set_busy true (part_zone 4096 1024); empty_zone 8192] (set_tokens 3 1 ex_b).

Lemma token_search_witness :
  wp (token_loop 1 false)
    (λ st b', (st = OK ∧ tokens 1 0 b' ∨ st = IOError ∧ tokens 0 0 b') ∧ same_limits ex_used_b b') ex_used_b ∧
  token_loop 100 false ex_stuck_b = Crash.
Proof.
  split.
  - apply (proj1 (token_search ex_used_b) 0 0 1%nat); [exact ex_tokens|by left|lia].
  - apply (proj2 (token_search ex_stuck_b)); [vm_compute; congruence|].
    intros [|[|i]] z Hi; [..|done]; injection Hi as <-; done.
Defined.

(** A file that holds the empty zone for its next extent. *)
Definition ex_open_s : ZenFS :=
  mk_fs (set_tokens 3 1 (set_io_zones [part_zone 4096 1024; z_set_busy true (empty_zone 8192)] ex_b))
    [([47; 99], 0%nat)] {[0%nat := f_set_active (Some 1%nat) (new_ZoneFile 9)]} 1 10 None None [].

Lemma close_empty_leaks_witness :
  ∃ s', CloseActiveZone 0 ex_open_s = Done OK s' ∧
    active_io_zones_ (zbd_ s') = 3 ∧ open_io_zones_ (zbd_ s') = 0 ∧ countb active_zone (io_zones (zbd_ s')) = 1.
Proof.
  exact (close_empty_leaks ex_open_s 0 (f_set_active (Some 1%nat) (new_ZoneFile 9)) 1 (z_set_busy true (empty_zone 8192))
    ltac:(reflexivity) ltac:(reflexivity) ltac:(reflexivity) ltac:(reflexivity) ltac:(reflexivity) ltac:(reflexivity)).
Defined.

(** A device whose bytes are their addresses modulo 256. *)
Definition ex_read_b : ZonedBlockDevice := set_device (λ a, a mod 256) ex_b.

(** An unaligned read across the two extents of "/a". *)
Lemma read_contents_witness :
  wp (PositionedRead ex_a 600 300 false)
    (λ r b', r = (OK, take 300 (drop 600 (contents (device ex_read_b) (extents_ ex_a)))) ∧ after_reads ex_read_b b') ex_read_b.
Proof.
  apply (read_contents ex_a 600 300 false ex_read_b); try done; repeat constructor; vm_compute; congruence.
Defined.

(** A sparse file that writes to the empty zone, as it was persisted when it took the zone. *)
Definition ex_wal : ZoneFile := mk_file [] [[47; 119]] (Some 2%nat) 12288 0 1 kWAL 0 9 0 true 44 true false.
Definition ex_wal_s : ZenFS := mk_fs ex_b [([47; 119], 0%nat)] {[0%nat := ex_wal]} 1 10 None None [0%nat].
Definition ex_flushes : list (slice * slice * slice) :=
  [(replicate 8 0, replicate 10 1, replicate 64 0); (replicate 8 0, replicate 100 2, replicate 64 0)].

Lemma ex_blocks : block_reads 64.
Proof. intros d a data d' _ [= <- _]. by apply size_ram_read. Qed.


Definition ex_system : ZenSystem := mk_system ex_s (tt : @aux no_aux).

Lemma ex_names n : (n, 0%nat) ∈ files_ ex_s → n = [47; 97].
Proof. cbn [files_ ex_s]. rewrite !elem_of_cons. intros [[= ->]|[[=]|[]%not_elem_of_nil]]. done. Qed.

Lemma delete_persists_witness :
  ∃ w', DeleteFileNoLock 80 [47; 47; 97] ex_system = Done OK w' ∧
    files_ (zen w') = [([47; 98], 1%nat)] ∧ objs (zen w') = delete 0%nat (objs ex_s) ∧ target w' = tt ∧
    (∃ b', logged (mk_log 0 0 64) (empty_zone 0) (enc_rec (RDelete 7 [47; 97])) ex_used_b b' ∧
           zbd_ (zen w') = set_io_zones (account (extents_ ex_c) ex_zones) b') ∧
    ∀ (F : gmap Z ZoneFile) g, F !! 7 = Some g → linkfiles_ g = [[47; 97]] → apply_rec (RDelete 7 [47; 97]) F = delete 7 F.
Proof.
  apply (delete_persists (A := no_aux) 80 [47; 47; 97] [47; 97] ex_system 0 ex_a (mk_log 0 0 64) (empty_zone 0)
    (extents_ ex_c) ex_zones); try done.
  - exact ex_names.
  - apply ex_zones_room; repeat constructor; vm_compute; congruence.
Defined.
