(* ===== verification/ZenMountRuns.v ===== *)
(** * ZenFS: a device with two logs

    Runs of mounts, rolls and formatting on a small device in memory, which witness the
    hypotheses of the theorems on them. *)

From stdpp Require Import base numbers option list gmap.
From S2P Require Import Prelude ZenCoding ZenTypes ZenZbd ZenFile ZenLog ZenFs ZenMeta ZenIo ZenWriter.
From S2P Require Import ZenOps ZenMount ZenFileCodec ZenLogSpec ZenSpace ZenRecover ZenReplay ZenAlloc ZenOpen.
From S2P Require Import ZenRead ZenSparse ZenAppend ZenPersist ZenMountSpec ZenFormat ZenRoll ZenRemount ZenMountWrite ZenMigrate.
From S2P Require Import ZenTheorems ZenRuns.

#[local] Existing Instances ram ram_ok sum_crc sum_crc_ok no_aux.

(** Zones of 4096 bytes; a reset keeps the bytes, which are not read again. *)
#[local] Instance ram_zones : ZbdZonesOk ram ram_ok.
Proof.
  refine {| is_zone (_ n : Z) := n = 4096; zone_cap (_ : Z) := 4096 |}.
  - intros a n ->. lia.
  - intros d a n _ _. eexists _, d. split_and!; try done; by cbn.
  - intros d a n _ _. exists d. by split_and!.
Defined.

(** ** The device

    If [z0], zone 0 holds a log with a snapshot; if [z1], zone 1 holds a newer superblock
    without one, as a crash in the middle of a roll leaves it.  Zone 2 is empty; two zones
    are for data. *)

Definition m_super (n : Z) : Superblock :=
  mk_super MAGIC (replicate 37 65) n CURRENT_SUPERBLOCK_VERSION 0 64 64 5 (replicate 256 0) 10 (replicate 64 0)
    (replicate 123 0).

Definition m_file : ZoneFile :=
  mk_file [mk_extent 12288 700 0] [[47; 97]] None NO_EXTENT 0 3 kUnknown 700 7 1 false 42 false false.
Definition m_recs : list mrec := [RSnapshot [m_file]].

Definition m_image (n : Z) (rs : list mrec) : slice :=
  record_buffer 64 (Superblock_EncodeTo (m_super n)).1 ++ log_image 64 rs.
Definition m_dev : Z → Z := ram_write 0 (m_image 4 m_recs) (ram_write 4096 (m_image 5 []) (λ _, 0)).

Definition m_zones (z0 z1 : bool) : list Zone :=
  [if z0 then part_zone 0 704 else empty_zone 0; if z1 then part_zone 4096 576 else empty_zone 4096; empty_zone 8192].
Definition m_b (z0 z1 : bool) : ZonedBlockDevice :=
  mk_zbd 64 4096 5 [part_zone 12288 1024; part_zone 16384 512] (m_zones z0 z1) 0 2 0 OK false 3 3 m_dev.
Definition m_logs (z0 z1 : bool) : list (option meta_log) :=
  [if z0 then Some (m_super 5, m_recs) else None; if z1 then Some (m_super 6, []) else None; None].
Definition m_s (z0 z1 : bool) : ZenFS := mk_fs (m_b z0 z1) [] ∅ 0 0 None None [].
Definition m_w (z0 z1 : bool) : ZenSystem := mk_system (m_s z0 z1) (tt : @aux no_aux).

Lemma m_super_ok n : super_ok (m_super n).
Proof. by split. Qed.

Lemma m_stores0 : stores (D := ram) m_dev 0 (m_image 4 m_recs).
Proof. intros i x Hi. by apply (ram_write_in 0). Qed.
Lemma m_stores1 : stores (D := ram) m_dev 4096 (m_image 5 []).
Proof.
  intros i x Hi. change (m_dev (4096 + Z.of_nat i) = x). unfold m_dev. rewrite ram_write_out; [by apply ram_write_in|].
  right. assert (0 + size (m_image 4 m_recs) ≤ 4096) by (vm_compute; congruence). lia.
Qed.

Lemma m_layout z0 z1 : meta_layout (m_b z0 z1).
Proof.
  split; [done| |].
  - intros [|[|[|i]]] z Hz; [..|done]; injection Hz as <-; destruct z0, z1; by vm_compute.
  - intros [|[|[|i]]] [|[|[|j]]] z z' Hz Hz' Hne; try done; injection Hz as <-; injection Hz' as <-;
      destruct z0, z1; cbn; lia.
Qed.

Lemma m_contains z0 z1 i z n rs :
  meta_zones (m_b z0 z1) !! i = Some z → stores (D := ram) m_dev (start_ z) (m_image n rs) →
  wp_ z = start_ z + size (m_image n rs) → max_capacity_ z = 4096 → size (m_image n rs) ≤ 4096 →
  0 ≤ start_ z < 2 ^ 32 → start_ z mod 64 = 0 → Forall (λ r, record_fits 64 (enc_rec r)) rs →
  contains (m_b z0 z1) i z (Some (sb_next (m_super n), rs)).
Proof.
  intros Hz Hs Hw Hm Hsz H0 Hal Hf. unfold m_image in Hs. apply stores_app in Hs as [Hs1 Hs2].
  destruct (super_fits (m_b z0 z1) (m_super n) (m_layout z0 z1) (m_super_ok n)) as [Hfit Hss].
  assert (size (record_buffer 64 (Superblock_EncodeTo (m_super n)).1) = 576) as E1.
  { rewrite size_record by done. by rewrite Hss. }
  unfold m_image in Hw, Hsz. rewrite size_app, E1 in Hw, Hsz. rewrite E1 in Hs2. change (block_sz_ (m_b z0 z1)) with 64 in Hfit.
  pose proof (size_nonneg (log_image 64 rs)).
  exists (Superblock_EncodeTo (m_super n)).1, (start_ z + 576). change (block_sz_ (m_b z0 z1)) with 64. cbv zeta. rewrite Hss.
  split_and!; try done; try lia; [by apply super_decode, m_super_ok|]. split; try done.
  - split; [lia|]. rewrite Z.add_mod, Hal by lia. done.
  - lia.
  - lia.
  - left. lia.
Qed.

Lemma m_size0 : size (m_image 4 m_recs) = 704.
Proof. by vm_compute. Qed.
Lemma m_size1 : size (m_image 5 []) = 576.
Proof. by vm_compute. Qed.

Lemma m_holds z0 z1 i l : m_logs z0 z1 !! i = Some l → holds (m_b z0 z1) i l.
Proof.
  destruct i as [|[|[|i]]]; [..|done]; intros [= <-]; eexists; (split; [reflexivity|]).
  - split; [by destruct z0|]. destruct z0; [|reflexivity].
    apply (m_contains true z1 0 _ 4 m_recs); rewrite ?m_size0;
      [reflexivity|exact m_stores0|reflexivity|reflexivity|lia|cbn; lia|reflexivity|].
    apply Forall_singleton. by vm_compute.
  - split; [by destruct z1|]. destruct z1; [|reflexivity].
    apply (m_contains z0 true 1 _ 5 []); rewrite ?m_size1;
      [reflexivity|exact m_stores1|reflexivity|reflexivity|lia|cbn; lia|reflexivity|]. by constructor.
  - by split.
Qed.

(** ** Mounts *)

Lemma m_room zs es :
  length zs = 2%nat → Forall (λ z, used_capacity_ z = 0) zs → Forall (λ e, 0 ≤ e_length e ∧ (e_zone e < 2)%nat) es →
  (∀ i, bytes_in i es < 2 ^ 64) → room zs es.
Proof.
  intros Hl Hu He Hb. split; [by rewrite Hl|]. intros i z Hz. rewrite (Forall_lookup_1 _ _ _ _ Hu Hz).
  specialize (Hb i). lia.
Qed.

Lemma m_valid b z0 z1 :
  zone_sz_ b = 4096 → io_zones b = io_zones (m_b z0 z1) → valid_rec b ∅ (RSnapshot [m_file]).
Proof.
  intros E2 E3. cbn [valid_rec]. split_and!.
  - apply Forall_singleton. split_and!; [|done|repeat constructor; set_solver|by vm_compute|by vm_compute].
    split; try (cbn; unfold NO_EXTENT; lia).
    + apply Forall_singleton. split_and!; [cbn; lia..|]. unfold GetIOZone. rewrite E2, E3. reflexivity.
    + apply Forall_singleton. split; [done|by vm_compute].
  - by vm_compute.
  - by intros f f' ->%list_elem_of_singleton ->%list_elem_of_singleton.
  - by intros f f' n ->%list_elem_of_singleton ->%list_elem_of_singleton.
  - rewrite E3. apply m_room; [reflexivity|repeat constructor|repeat constructor; cbn; lia|].
    intros i. change (concat (extents_ <$> [m_file])) with [mk_extent 12288 700 0]. cbn [bytes_in e_length]. case_decide; lia.
Qed.

Lemma m_empty s z0 z1 :
  objs s = ∅ → files_ s = [] → handles s = [] → io_zones (zbd_ s) = io_zones (m_b z0 z1) → rep (zbd_ s) s ∅.
Proof.
  intros E1 E2 E3 E4. split; rewrite ?E1, ?E2; try done; [apply table_empty|].
  rewrite E4. apply m_room; [reflexivity|repeat constructor|constructor|]. intros i. rewrite exts_empty. cbn [bytes_in]. lia.
Qed.

Lemma m_mountable z0 z1 : mountable (m_w z0 z1) (m_logs z0 z1).
Proof.
  split; [reflexivity|cbn; lia|exact (m_holds z0 z1)|exact I|by apply (m_empty _ z0 z1)|].
  pose proof (m_valid (m_b z0 z1) z0 z1 eq_refl eq_refl) as Hv.
  destruct z0, z1; cbn [newest_first m_logs foldl insert_desc valid_logs valid_recs]; repeat case_match; try done;
    split_and!; done.
Qed.

Definition m_table : gmap Z ZoneFile := {[7 := decoded m_file 0]}.

Lemma m_settled : settled m_table.
Proof. intros id f Hf. unfold m_table in Hf. apply lookup_singleton_Some in Hf as [_ <-]. reflexivity. Qed.


Lemma mount_fails_witness :
  wp (Mount 50 false) (λ st w', st = IOError ∧ meta_inv (m_b false true) [] (zen w') ∧ superblock_ (zen w') = None)
    (m_w false true).
Proof.
  exact (mount_fails 50 false (m_w false true) (m_logs false true) (m_mountable false true) ltac:(reflexivity)).
Defined.

(** ** Mounting for writing *)

Lemma m_writable z0 z1 : meta_writable (m_b z0 z1).
Proof.
  split; [apply m_layout| |].
  - intros [|[|[|i]]] z Hz; [..|done]; injection Hz as <-; destruct z0, z1; try done; intros E; by vm_compute in E.
  - intros [|[|[|i]]] z Hz; [..|done]; injection Hz as <-; right; destruct z0, z1; (split_and!; [cbn; lia..|done]).
Qed.

Lemma m_apart z0 z1 : io_apart (m_b z0 z1).
Proof.
  split.
  - by intros [|[|i]] z Hz; [..|done]; injection Hz as <-.
  - intros [|[|i]] [|[|j]] z z' Hz Hz' Hne; try done; injection Hz as <-; injection Hz' as <-; cbn; lia.
  - intros [|[|i]] [|[|[|j]]] z z' Hz Hz'; try done; injection Hz as <-; injection Hz' as <-; destruct z0, z1; cbn; lia.
Qed.

Lemma m_in_zones z0 z1 : in_zones (m_b z0 z1) m_table.
Proof.
  intros id f e Hf He. unfold m_table in Hf. apply lookup_singleton_Some in Hf as [_ <-].
  apply list_elem_of_singleton in He as ->. eexists. split; [reflexivity|]. cbn. lia.
Qed.

(** The names of a file system with this table. *)
Lemma m_named b s : rep b s m_table → named_files s = [decoded m_file 0].
Proof.
  intros R. pose proof (rp_table _ _ _ R) as T.
  assert (∀ h f, objs s !! h = Some f → f = decoded m_file 0) as Hone.
  { intros h f Hf. apply (tb_in _ _ _ T) in Hf. unfold m_table in Hf. by apply lookup_singleton_Some in Hf as [_ <-]. }
  destruct (tb_ex _ _ _ T 7 (decoded m_file 0)) as [_ [h Hh]]; [apply lookup_singleton_eq|].
  assert (∀ e, e ∈ files_ s ↔ e = ([47; 97], h)) as Hfiles.
  { intros [n h']. rewrite (tb_names _ _ _ T). split.
    - intros (f & Hf & Hn). pose proof (Hone _ _ Hf) as ->. apply list_elem_of_singleton in Hn as ->.
      f_equal. by eapply (tb_inj _ _ _ T).
    - intros [= -> ->]. exists (decoded m_file 0). split; [done|]. by apply list_elem_of_singleton. }
  pose proof (ordered_NoDup _ (tb_ordered _ _ _ T)) as Hnd. unfold named_files.
  destruct (files_ s) as [|e [|e' fs]].
  - exfalso. by eapply not_elem_of_nil, Hfiles.
  - assert (e = ([47; 97], h)) as -> by (apply Hfiles; set_solver). cbn. by rewrite Hh.
  - assert (e = ([47; 97], h)) as -> by (apply Hfiles; set_solver).
    assert (e' = ([47; 97], h)) as -> by (apply Hfiles; set_solver). cbn in Hnd. apply NoDup_cons in Hnd as [Hni _]. set_solver.
Qed.

Lemma m_fits z0 z1 : snapshot_fits (m_b z0 z1) m_table.
Proof.
  intros s R. rewrite (m_named _ _ R). split; [by vm_compute|]. intros i z _. cbn [zone_cap ram_zones]. vm_compute. congruence.
Qed.


(** ** Rolling *)

(** The file system that runs on the log of zone 0. *)
Definition m_run_b : ZonedBlockDevice :=
  set_meta_zones [z_set_busy true (part_zone 0 704); empty_zone 4096; empty_zone 8192] (m_b true false).
Definition m_run_s : ZenFS :=
  mk_fs m_run_b [([47; 97], 0%nat)] {[0%nat := m_file]} 1 8 (Some (mk_log 704 0 64)) (Some (m_super 5)) [].

Lemma m_run_named : named_files m_run_s = [m_file].
Proof. reflexivity. Qed.

Lemma m_rollable : rollable m_run_s (mk_log 704 0 64) (m_super 5).
Proof.
  split; try reflexivity.
  - apply m_super_ok.
  - split.
    + split; [done| |].
      * intros [|[|[|i]]] z Hz; [..|done]; injection Hz as <-; by vm_compute.
      * intros [|[|[|i]]] [|[|[|j]]] z z' Hz Hz' Hne; try done; injection Hz as <-; injection Hz' as <-; cbn; lia.
    + exact I.
    + by intros [|[|[|i]]] z Hz; [..|done]; injection Hz as <-.
    + intros [|[|[|i]]] z Hz; [..|done]; injection Hz as <-; try done; intros E; by vm_compute in E.
  - eexists. split; [reflexivity|]. right. split_and!; [cbn; lia..|exact I].
  - exists 1%nat. cbn. lia.
  - intros i z _ _. rewrite m_run_named. cbn [zone_cap ram_zones]. vm_compute. congruence.
Qed.

Lemma m_run_others : others_older m_run_b 0 (m_super 6).
Proof. intros [|[|[|i]]] z Hz Hne; try done; injection Hz as <-; exists None; done. Qed.


(** ** Formatting *)

Lemma m_formattable z0 z1 version aux : size (FormatPathLexically aux) ≤ 255 → formattable (m_b z0 z1) version aux 10.
Proof.
  intros Ha. split; try done.
  - apply m_layout.
  - by intros [|[|[|i]]] z Hz; [..|done]; injection Hz as <-; destruct z0, z1.
  - cbn. lia.
Qed.

Lemma format_then_mount_witness :
  let sb := sb_next (new_Superblock (m_b true true) [65] [50] (FormatPathLexically [47; 120]) 10) in
  wp (MkFS 50 [65] [50] [47; 120] 10)
    (λ st s', st = OK ∧ ∀ s0 (a : @aux no_aux), restarts (zbd_ s') s0 → OK = OK →
       wp (Mount 60 true) (λ st w, st = OK ∧ mounted (zbd_ s0) sb ∅ s0 (zen w)) (mk_system s0 a)) (m_s true true).
Proof.
  exact (format_then_mount 50 60 [65] [50] [47; 120] 10 (m_s true true) ltac:(reflexivity)
    (m_formattable true true [50] [47; 120] ltac:(vm_compute; congruence))).
Defined.

(** ** Writing *)

(** A writer of the sparse file with three bytes in its buffer of 56. *)
Definition m_writer : ZonedWritableFile := mk_writer true (replicate 8 0 ++ [9; 9; 9] ++ replicate 117 0) 56 3 3 0.

Lemma m_writer_ok : writer_ok 0 2 ex_wal (empty_zone 12288) m_writer ex_wal_s.
Proof.
  split; try done; try (cbn; lia); try by constructor.
  intros n Hn. change (buffer_sz m_writer) with 56 in Hn. change (size (sparse_buffer m_writer)) with 128.
  change (block_sz_ (zbd_ ex_wal_s)) with 64. change (data_offset ex_wal) with 8.
  pose proof (flush_size_mono 64 8 n 56 ltac:(lia) ltac:(lia)) as Hm. change (flush_size 64 8 56) with 64 in Hm. lia.
Qed.


(** ** Opening *)

Definition m_zone (cond : zbd_zone_cond) (n used : Z) : zbd_zone := mk_zbd_zone (4096 * n) 4096 (4096 * n + used) true cond.
Definition m_report : list zbd_zone :=
  [m_zone ZBD_ZONE_COND_FULL 0 4096; m_zone ZBD_ZONE_COND_EMPTY 1 0; m_zone ZBD_ZONE_COND_EMPTY 2 0;
   m_zone ZBD_ZONE_COND_IMP_OPEN 3 512; m_zone ZBD_ZONE_COND_CLOSED 4 1024; m_zone ZBD_ZONE_COND_FULL 5 4096] ++
  ((λ n, m_zone ZBD_ZONE_COND_EMPTY (Z.of_nat n) 0) <$> seq 6 26).
Definition m_info : zbd_info := mk_info true 32 64 4096 14 14.
Definition m_env : open_env := mk_env (Some m_info) true true OK (Some m_report).
Definition m_new : ZonedBlockDevice := mk_zbd 0 0 0 [] [] 0 0 0 OK false 0 0 (λ _, 0).

Lemma open_counts_witness :
  wp (Open false true m_env) (λ st b', st = OK ∧ tokens 0 0 b' ∧ ∃ d, b' = opened_device m_info m_report d m_new) m_new.
Proof.
  apply (open_counts false m_env m_info m_report m_new).
  - split_and!; try done. by right.
  - reflexivity.
  - reflexivity.
  - apply Forall_forall. intros zz Hzz. unfold m_report in Hzz. apply elem_of_app in Hzz as [Hzz|Hzz].
    + rewrite !elem_of_cons in Hzz. destruct Hzz as [->|[->|[->|[->|[->|[->|Hzz]]]]]]; [..|by apply not_elem_of_nil in Hzz];
        by vm_compute.
    + apply list_elem_of_fmap in Hzz as (n & -> & [_ Hn]%elem_of_seq). split; [cbn; lia|]. unfold zone_is_active, partial_zone.
      change (false = negb (4096 * Z.of_nat n + 0 =? 4096 * Z.of_nat n) && negb (IsFull (new_Zone (m_zone ZBD_ZONE_COND_EMPTY (Z.of_nat n) 0)))).
      by rewrite Z.add_0_r, Z.eqb_refl.
  - cbn. lia.
  - intros d. vm_compute. congruence.
  - vm_compute. congruence.
Defined.

(** ** Migration *)

(** Two partly written data zones; the file is in the first, the second has little room. *)
Definition g_zone (start used counted : Z) : Zone := mk_zone start (4096 - used) 4096 (start + used) 0 counted false.
Definition g_b (left : Z) : ZonedBlockDevice :=
  mk_zbd 64 4096 4 [g_zone 4096 1024 700; g_zone 8192 (4096 - left) 500] [z_set_busy true (empty_zone 0)] 0 2 0 OK false 3 3
    (λ a, a mod 256).
Definition g_file (sparse : bool) (start len : Z) : ZoneFile :=
  mk_file [mk_extent start len 0] [[47; 97]] None NO_EXTENT 0 3 kUnknown len 7 1 false 42 sparse false.
Definition g_s (left : Z) (f : ZoneFile) : ZenFS :=
  mk_fs (g_b left) [([47; 97], 0%nat)] {[0%nat := f]} 1 8 (Some (mk_log 0 0 64)) None [].

Lemma g_layout : data_layout (g_b 1024).
Proof.
  split; [by vm_compute|exact I| |].
  - intros [|[|i]] z Hz; [..|done]; injection Hz as <-; by vm_compute.
  - intros [|[|i]] [|[|j]] z z' Hz Hz' Hne; try done; injection Hz as <-; injection Hz' as <-; cbn; lia.
Qed.

Lemma g_record_size es :
  length es = 1%nat → size (enc_rec (RUpdate true (MetadataUnsynced (f_set_extents es (g_file false 4096 700))) 0)) = 89.
Proof. intros Hl. destruct es as [|[a l i] [|]]; [done| |done]. reflexivity. Qed.

Lemma g_migratable :
  migratable (g_s 1024 (g_file false 4096 700)) 0 (g_file false 4096 700) [47; 97] (mk_log 0 0 64) (z_set_busy true (empty_zone 0)).
Proof.
  split; try done.
  - apply g_layout.
  - apply Forall_singleton. split_and!; try by vm_compute. intros [|[|i]] z Hz; [..|done]; injection Hz as <-; [left|left];
      vm_compute; congruence.
  - apply Forall_singleton. cbn. lia.
  - intros es Hes. apply (f_equal length) in Hes. rewrite !length_fmap in Hes. cbn [g_file extents_ length] in Hes.
    split_and!; try done; unfold record_fits; rewrite (g_record_size es Hes); vm_compute; congruence.
  - intros [|[|i]] z Hz; [..|done]; injection Hz as <-; right; vm_compute; congruence.
  - apply Forall_singleton. right. vm_compute. congruence.
Qed.

Lemma migration_keeps_data_witness :
  wp (MigrateFileExtents 90 [47; 97] [mk_snap 4096 700 4096 [47; 97]])
    (λ st s', st = OK ∧ migrated 0 (g_file false 4096 700) (z_set_busy true (empty_zone 0)) (g_s 1024 (g_file false 4096 700)) s')
    (g_s 1024 (g_file false 4096 700)).
Proof.
  exact (migration_keeps_data 90 (g_s 1024 (g_file false 4096 700)) 0 (g_file false 4096 700) [47; 97]
    [mk_snap 4096 700 4096 [47; 97]] (mk_log 0 0 64) (z_set_busy true (empty_zone 0)) g_migratable).
Defined.

(** The state and the file after a migration, evaluated. *)
Definition g_after (r : outcome ZenFS IOStatus) : option (IOStatus * list ZoneExtent * slice) :=
  match r with
  | Done st s' => f ← objs s' !! 0%nat; Some (st, extents_ f, contents (device (zbd_ s')) (extents_ f))
  | Crash => None
  end.

